(* ===== verification/_CoqProject ===== *)
-Q . S2P
Prelude.v
Params.v
State.v
Mem.v
Strings.v
Float32.v
Locks.v
Printf.v
Io.v
Lapic.v
Mp.v
Screen.v
Kalloc.v
Vm.v
Sched.v
Policy.v
Dispatch.v
Wakeup.v
Procs.v
Uaccess.v
Sleeplock.v
VmSpec.v
VmUser.v
Discipline.v
Bio.v
Ide.v
IdeSpec.v
BioSpec.v
Log.v
LogDisk.v
LogSpec.v
Trans.v
Pipe.v
Fs.v
FsTx.v
FsBlocks.v
FsData.v
FsFile.v
FsNames.v
FsDir.v
Mkfs.v
MkfsSpec.v
File.v
FileSpec.v
DiscFs.v
ProcLife.v
ProcSpec.v
Exec.v
Boot.v
Sysfile.v
Syscall.v
Console.v
ConsoleSpec.v
Intr.v
Trap.v
DiscSys.v
Main.v
User.v
Grep.v
Coreutils.v
Tests.v
Usertests.v
PipeTest.v
Umalloc.v
UmallocSpec.v
UmallocClient.v
Sh.v
ShSpec.v
ShPrint.v
