(* ===== verification/Prelude.v ===== *)
(** * A verification library for the xv6 kernel of this repository

    The program is an xv6 kernel for the PC with a three-level scheduler, its boot loader,
    the tool that makes its disk image, and its user programs. This library translates the
    C code under [src/] into executable definitions and proves what makes each part
    correct.

    ** The parts of the program and how they interact

    The boot loader reads the kernel from the disk and jumps to it. [main] initialises the
    page allocator, the kernel's page table, the interrupt hardware, the tables of
    processes, buffers and files, starts the other processors, and enters the scheduler.
    The scheduler gives the processor to processes; a process comes back to it in [sched],
    by [yield], [sleep] or [exit]. A process enters the kernel by a trap: a system call,
    which the dispatcher hands to one of the routines of [sysproc.c] and [sysfile.c], or an
    interrupt of the timer, the disk, the keyboard or the serial line. The file system is
    made of layers, each using the one below: open files, path names and directories,
    inodes, free blocks, the log that makes operations atomic, the buffer cache, the disk
    driver. User programs see the kernel through the answers to their system calls.

    ** Files and the code they model

    - [Prelude]: machine integers, outcomes and the kernel monad, tactics, shared lemmas;
      [Params]: constants and address macros of the headers; [State]: the C structures as
      records and the global state [kst]; [Mem], [Strings]: byte-addressed memory and the
      string routines ([string.c], [ulib.c]); [Float32]: single-precision division and
      comparison, which the scheduler uses; [Printf]: [cprintf] and the user [printf].
    - [Locks] ([spinlock.c]): interrupt nesting on one processor (module [Spin]), and
      several processors competing for a lock as a step relation (module [Smp]).
      [Sleeplock] ([sleeplock.c]).
    - [Io] ([x86.h], [picirq.c], [ioapic.c], [timer.c]), [Lapic] ([lapic.c]), [Mp] ([mp.c]),
      [Screen] ([uart.c], the output half of [console.c]), [Console] and [Intr] (its input
      half, [kbd.c]), with [ConsoleSpec].
    - [Kalloc] ([kalloc.c]); [Vm] ([vm.c]) with [VmSpec] and [VmUser].
    - [Sched] ([proc.c]: the scheduler, [sched], [yield], [sleep], [wakeup], [kill],
      [allocproc]) with [Policy] (what is chosen), [Dispatch] (a round of the scheduler),
      [Wakeup] ([sleep] against [wakeup] as interleaved steps) and [Procs]; [ProcLife]
      ([userinit], [growproc], [fork], [exit], [wait]) with [ProcSpec].
    - [Bio] ([bio.c], [memide.c]) with [BioSpec]; [Ide] ([ide.c]) with [IdeSpec]; [Log]
      ([log.c]) with [LogDisk], [LogSpec] and [Trans]; [Fs] ([fs.c]) with [FsTx],
      [FsBlocks], [FsData], [FsFile], [FsNames] and [FsDir]; [Pipe] ([pipe.c]); [File]
      ([file.c]) with [FileSpec]; [Mkfs] ([mkfs.c]) with [MkfsSpec].
    - [Uaccess] and [Syscall] ([syscall.c], [sysproc.c]); [Sysfile] ([sysfile.c]); [Exec]
      ([exec.c]); [Trap] ([trap.c]); [Main] ([main.c], [seginit]); [Boot] ([bootmain.c]).
    - [Discipline], [DiscFs], [DiscSys]: the lock discipline of the whole kernel.
    - [User]: user programs as sequences of system calls; [Grep] ([grep.c]), [Coreutils]
      (the small programs), [Tests] (the test programs of the scheduler, [forktest.c],
      [stressfs.c]), [Usertests] ([usertests.c]) with [PipeTest]; [Umalloc] ([umalloc.c])
      with [UmallocSpec] and [UmallocClient]; [Sh] ([sh.c]) with [ShSpec] and [ShPrint].

    A definition has the name of the C function it translates, or that name with a suffix
    for one of its loops. C integers are values of [Z] with their wrap-around written out
    ([u8], [u16], [u32], [s32]); a pointer to a structure of a table is its index, other
    pointers are addresses.

    ** Effects

    A routine of the kernel is a function from a state to an outcome ([res]): it returns,
    stops in [panic], does what C leaves undefined ([Fault]), hands the processor to the
    scheduler ([Switch]), or waits for good ([Spin]). A routine that sleeps ends there with
    [Switch]; what the sleeping routine does when it runs again is a definition of its own,
    [sleep_resume], [begin_op_resume] and the like, so that other processes may act in
    between. Interleavings are modelled as step relations where a claim is about them
    ([Locks.Smp], [Wakeup]), as sequences of calls, sleeps and resumptions of the routines
    themselves ([Pipe], [PipeTest], [ConsoleSpec]) or of whole operations ([FileSpec],
    [IdeSpec]), or as a crash at any write to the disk ([Trans]).

    What is not C code under [src/] is a parameter. The class [Ports] gives what a device
    answers as a function of every access made to it before; [BlockDriver] is what the
    buffer cache calls, and [BlockDriverOk] what it relies on, which the memory disk
    satisfies; [Devices] are the read and write routines of device files; [run] in the
    scheduler is what happens while a process has the processor, under [run_contract]: it
    comes back with the lock, and with [GRTExists] still set if it was chosen from the high
    level; [stale_flag_breaks_priorities] of [Dispatch] shows what happens otherwise.
    Addresses the linker chooses and the images of [entryother.S] and [initcode.S] are
    arguments.

    ** What the theorems show

    - Storage: a transaction is atomic and durable, whatever the point of a crash and of
      crashes while [recover_from_log] runs ([Trans]); through the cache the disk is an array of blocks
      ([BioSpec]); the driver serves requests in order ([IdeSpec]); [balloc] finds and marks
      a free block ([FsBlocks]); files are byte arrays, and a write to one leaves the blocks
      of the others alone ([FsFile]); directories are maps
      ([FsDir]); an inode has one slot in the cache ([FsNames]); the image [mkfs] makes is
      one the kernel reads ([MkfsSpec]).
    - Processes: the scheduler runs a process only if none of a higher level is active, and
      leaves others waiting while a high one runs elsewhere ([Dispatch]); guaranteed
      scheduling takes a process with the least share ([Policy]); no wakeup is lost
      ([Wakeup]); locks exclude ([Locks]); [allocproc], [yield], [fork], [wait] on every
      path, [allocproc] and [fork] with the sorting of the table under [FRR] ([Procs],
      [ProcSpec]).
    - Memory: the allocator is a stack of pages ([Kalloc]); address spaces are copied,
      grown and freed without loss, and where [setupkvm] does lose pages that is stated
      ([VmUser]); arguments of system calls lie inside the process ([Uaccess]); [memmove]
      ([Strings]); the user's [malloc] and [free] implement a store of disjoint blocks
      ([UmallocClient]).
    - The whole kernel: every system call, trap and resumed sleeper keeps the lock
      discipline ([DiscSys]).
    - Input and output: pipes are queues that make progress and never leak ([Pipe],
      [FileSpec]); the console is a line editor whose reader sleeps only while there is
      nothing to read ([ConsoleSpec]), the screen a window on an endless page ([Screen]); the boot loader loads every segment ([Boot]); [mpinit]
      records the processors, and does not end on an unknown entry ([Mp]).
    - User programs: the shell's parser ends on every line and reads printed commands back
      ([ShSpec], [ShPrint]); [grep] matches and prints ([Grep]); [wc] counts ([Coreutils]);
      what [forktest], [pipe1] and [writetest1] accept ([Tests], [Usertests]); the two
      processes of [pipe1] on the kernel's pipe, step by step ([PipeTest]).

    ** Bounds and fuel

    Loops over arrays recurse on the array or on the C bound. Loops over the bytes of a file
    or the entries of a directory recurse on a count computed from the size, one more than
    the rounds the loop can make ([dir_fuel] for directories); the theorems say that the
    loops return. Loops that poll a device look [patience] times and then [Spin]; the
    theorems about the disk assume of the device only that it is ready in time. User
    programs recurse on the number of answers left ([ufuel]), which every round uses up.
    The loops of the allocator of [umalloc.c] are given fuel, and the theorem about it has
    a bound that is enough. The scheduler's endless loop is modelled by its rounds.

    ** What is not modelled

    - The assembly files ([bootasm.S], [entry.S], [entryother.S], [initcode.S], [swtch.S],
      [trapasm.S], [usys.S] and the vectors): there is no C state in them; what the C code
      relies on is in the outcome [Switch], the trap frame, and the arguments of [main].
    - [mem] of [usertests.c], which threads a list through blocks of the allocator until
      memory is exhausted, and the [main] of that file, which calls it.
    - Prototypes and type names ([defs.h], [types.h]), padding, names and debugging fields
      of structures, and the scripts that build or print the system.
    - Hardware reordering of memory accesses: [__sync_synchronize] has no effect here.
    - A routine that is put to sleep in the middle of others that called it: the callers'
      remaining steps are modelled where the source loops around the sleep, and otherwise
      the theorems describe the run up to it. *)

From Stdlib Require Export ZArith Lia Bool.
From coqutil Require Export Datatypes.RecordSettersUsingExistingGetters.
From stdpp Require Export base tactics list gmap strings option numbers.

#[global] Open Scope Z_scope.
#[global] Set Default Goal Selector "!".
#[global] Arguments RecordSettersUsingExistingGetters.const {E} _ _ /.

(** ** Machine integers

    C's [uint], [ushort] and [uchar] are values of [Z] kept in range by the
    wrap-around functions below; [int] and [short] are the two's complement
    readings of the same bits. *)

Definition u8 (z : Z) : Z := z mod 2 ^ 8.
Definition u16 (z : Z) : Z := z mod 2 ^ 16.
Definition u32 (z : Z) : Z := z mod 2 ^ 32.

Definition s8 (z : Z) : Z := let u := u8 z in if u <? 2 ^ 7 then u else u - 2 ^ 8.
Definition s16 (z : Z) : Z := let u := u16 z in if u <? 2 ^ 15 then u else u - 2 ^ 16.
Definition s32 (z : Z) : Z := let u := u32 z in if u <? 2 ^ 31 then u else u - 2 ^ 32.

Definition is_u8 (z : Z) : Prop := 0 <= z < 2 ^ 8.
Definition is_u16 (z : Z) : Prop := 0 <= z < 2 ^ 16.
Definition is_u32 (z : Z) : Prop := 0 <= z < 2 ^ 32.
Definition is_s32 (z : Z) : Prop := - 2 ^ 31 <= z < 2 ^ 31.

(** C truth values. *)
Definition nz (z : Z) : bool := negb (z =? 0).
Definition b2z (b : bool) : Z := if b then 1 else 0.

Create HintDb xv6.
Create Rewrite HintDb xv6.

Lemma u8_range z : is_u8 (u8 z).
Proof. apply Z.mod_pos_bound. lia. Qed.

Lemma u16_range z : is_u16 (u16 z).
Proof. apply Z.mod_pos_bound. lia. Qed.

Lemma u32_range z : is_u32 (u32 z).
Proof. apply Z.mod_pos_bound. lia. Qed.

Lemma u8_small z : is_u8 z -> u8 z = z.
Proof. apply Z.mod_small. Qed.

Lemma u16_small z : is_u16 z -> u16 z = z.
Proof. apply Z.mod_small. Qed.

Lemma u32_small z : is_u32 z -> u32 z = z.
Proof. apply Z.mod_small. Qed.

Lemma s32_range z : is_s32 (s32 z).
Proof.
  unfold s32, is_s32. pose proof (u32_range z) as H. unfold is_u32 in H.
  destruct (Z.ltb_spec (u32 z) (2 ^ 31)); lia.
Qed.

Lemma s32_small z : is_s32 z -> s32 z = z.
Proof.
  unfold is_s32, s32, u32. intros H.
  destruct (Z.ltb_spec z 0).
  - replace (z mod 2 ^ 32) with (z + 2 ^ 32).
    + destruct (Z.ltb_spec (z + 2 ^ 32) (2 ^ 31)); lia.
    + rewrite <- (Z_mod_plus_full z 1). rewrite Z.mod_small; lia.
  - rewrite Z.mod_small by lia. destruct (Z.ltb_spec z (2 ^ 31)); lia.
Qed.

Lemma s32_u32 z : s32 (u32 z) = s32 z.
Proof. unfold s32, u32. rewrite Zmod_mod. reflexivity. Qed.

Lemma u32_s32 z : u32 (s32 z) = u32 z.
Proof.
  unfold s32. destruct (u32 z <? 2 ^ 31).
  - unfold u32. apply Zmod_mod.
  - unfold u32. rewrite <- (Z_mod_plus_full _ 1).
    replace (z mod 2 ^ 32 - 2 ^ 32 + 1 * 2 ^ 32) with (z mod 2 ^ 32) by lia.
    apply Zmod_mod.
Qed.

#[export] Hint Resolve u8_range u16_range u32_range s32_range : xv6.
#[export] Hint Rewrite u8_small u16_small u32_small s32_small using (unfold is_u8, is_u16, is_u32, is_s32 in *; lia) : xv6.

(** ** Outcomes and the kernel monad

    A kernel routine started in a state either returns, or stops in [panic],
    or performs an access C leaves undefined ([Fault]: a null dereference, an
    index outside an array), or hands the processor to the scheduler
    ([Switch], the [swtch] in [sched]), or busy-waits for another processor
    ([Spin]). The state reached is kept in every case. *)

Inductive res (S A : Type) : Type :=
| Ok (a : A) (s : S)
| Panic (msg : string) (s : S)
| Fault (msg : string) (s : S)
| Switch (s : S)
| Spin (s : S).
Arguments Ok {S A} _ _.
Arguments Panic {S A} _ _.
Arguments Fault {S A} _ _.
Arguments Switch {S A} _.
Arguments Spin {S A} _.

(** The state an outcome leaves behind. *)
Definition final {S A} (r : res S A) : S :=
  match r with
  | Ok _ s | Panic _ s | Fault _ s | Switch s | Spin s => s
  end.

Definition is_ok {S A} (r : res S A) : bool := match r with Ok _ _ => true | _ => false end.
Definition is_switch {S A} (r : res S A) : bool := match r with Switch _ => true | _ => false end.

Lemma ok_final {S} (r : res S unit) : is_ok r = true -> r = Ok tt (final r).
Proof. by destruct r as [[]| | | |]. Qed.

Lemma switch_final {S A} (r : res S A) : is_switch r = true -> r = Switch (final r).
Proof. by destruct r. Qed.

Definition M (S A : Type) : Type := S -> res S A.

Definition ret {S A} (a : A) : M S A := fun s => Ok a s.

Definition bind {S A B} (m : M S A) (f : A -> M S B) : M S B := fun s =>
  match m s with
  | Ok a s' => f a s'
  | Panic msg s' => Panic msg s'
  | Fault msg s' => Fault msg s'
  | Switch s' => Switch s'
  | Spin s' => Spin s'
  end.

Definition get {S} : M S S := fun s => Ok s s.
Definition gets {S A} (f : S -> A) : M S A := fun s => Ok (f s) s.
Definition modify {S} (f : S -> S) : M S unit := fun s => Ok tt (f s).
Definition panic {S A} (msg : string) : M S A := fun s => Panic msg s.
Definition fault {S A} (msg : string) : M S A := fun s => Fault msg s.
Definition switch {S A} : M S A := fun s => Switch s.
Definition spin {S A} : M S A := fun s => Spin s.

Declare Scope m_scope.
Delimit Scope m_scope with m.
Bind Scope m_scope with M.
Notation "x <- c ;; k" := (bind c (fun x => k))
  (at level 100, c at next level, right associativity) : m_scope.
Notation "c ;; k" := (bind c (fun _ => k))
  (at level 100, right associativity) : m_scope.
#[global] Open Scope m_scope.

Definition when {S} (b : bool) (m : M S unit) : M S unit := if b then m else ret tt.

(** A C array access: out of range is undefined. *)
Definition nth_ok {S A} (msg : string) (l : list A) (i : nat) : M S A :=
  match l !! i with
  | Some x => ret x
  | None => fault msg
  end.

(** [for (i in l) body], for loops without early exit. *)
Fixpoint for_each {S A} (l : list A) (body : A -> M S unit) : M S unit :=
  match l with
  | [] => ret tt
  | x :: l' => body x ;; for_each l' body
  end.

Section MonadLaws.
Context {S A B C : Type}.

Lemma bind_ret (a : A) (f : A -> M S B) s : bind (ret a) f s = f a s.
Proof. reflexivity. Qed.

Lemma bind_ok (m : M S A) (f : A -> M S B) s a s' :
  m s = Ok a s' -> bind m f s = f a s'.
Proof. intros H. unfold bind. rewrite H. reflexivity. Qed.

Lemma bind_spin (m : M S A) (f : A -> M S B) s s' : m s = Spin s' -> bind m f s = Spin s'.
Proof. intros H. unfold bind. rewrite H. reflexivity. Qed.

Lemma bind_assoc (m : M S A) (f : A -> M S B) (g : B -> M S C) s :
  bind (bind m f) g s = bind m (fun x => bind (f x) g) s.
Proof. unfold bind. destruct (m s); reflexivity. Qed.

Lemma bind_modify (f : S -> S) (k : unit -> M S B) s : bind (modify f) k s = k tt (f s).
Proof. reflexivity. Qed.

Lemma bind_gets (f : S -> A) (k : A -> M S B) s : bind (gets f) k s = k (f s) s.
Proof. reflexivity. Qed.

Lemma bind_get (k : S -> M S B) s : bind get k s = k s s.
Proof. reflexivity. Qed.

(** Inversion of a sequence that returned. *)
Lemma bind_inv (m : M S A) (f : A -> M S B) s b s' :
  bind m f s = Ok b s' -> exists a s1, m s = Ok a s1 /\ f a s1 = Ok b s'.
Proof. unfold bind. destruct (m s) eqn:E; intros H; try discriminate. eauto. Qed.
End MonadLaws.

(** *** A weakest precondition for returning runs

    [wp m Q s]: started in [s], [m] returns and [Q] holds of the result and
    the final state. *)

Definition wp {S A} (m : M S A) (Q : A -> S -> Prop) (s : S) : Prop :=
  match m s with
  | Ok a s' => Q a s'
  | _ => False
  end.

Section Wp.
Context {S A B : Type}.

Lemma wp_run (m : M S A) Q s : wp m Q s <-> exists a s', m s = Ok a s' /\ Q a s'.
Proof. unfold wp. split; [destruct (m s); try done; eauto|]. intros (a & s' & -> & H). exact H. Qed.

Lemma wp_bind (m : M S A) (f : A -> M S B) Q s : wp m (fun a s' => wp (f a) Q s') s -> wp (bind m f) Q s.
Proof. unfold wp, bind. by destruct (m s). Qed.

Lemma wp_mono (m : M S A) (Q Q' : A -> S -> Prop) s : wp m Q s -> (forall a s', Q a s' -> Q' a s') -> wp m Q' s.
Proof. unfold wp. destruct (m s); auto. Qed.

Lemma wp_ok (m : M S A) (Q : A -> S -> Prop) s a s' : m s = Ok a s' -> Q a s' -> wp m Q s.
Proof. unfold wp. by intros ->. Qed.
End Wp.

(** Run a call by its specification, and go on with what it leaves. *)
Tactic Notation "wcall" uconstr(H) := eapply wp_bind; eapply wp_mono; [eapply H | cbv beta].

(** [keeps I m]: whatever the outcome of [m], the state it leaves satisfies [I]
    if the initial one does. *)
Definition keeps {S A} (I : S -> Prop) (m : M S A) : Prop :=
  forall s, I s -> I (final (m s)).

Section KeepsLemmas.
Context {S : Type} (I : S -> Prop).

Lemma keeps_ret {A} (a : A) : keeps I (ret a).
Proof. intros s H. exact H. Qed.

Lemma keeps_gets {A} (f : S -> A) : keeps I (gets f).
Proof. intros s H. exact H. Qed.

Lemma keeps_get : keeps I get.
Proof. intros s H. exact H. Qed.

Lemma keeps_panic {A} msg : keeps I (panic (A := A) msg).
Proof. intros s H. exact H. Qed.

Lemma keeps_fault {A} msg : keeps I (fault (A := A) msg).
Proof. intros s H. exact H. Qed.

Lemma keeps_switch {A} : keeps I (switch (A := A)).
Proof. intros s H. exact H. Qed.

Lemma keeps_spin {A} : keeps I (spin (A := A)).
Proof. intros s H. exact H. Qed.

Lemma keeps_nth_ok {A} msg (l : list A) i : keeps I (nth_ok msg l i).
Proof. intros s H. unfold nth_ok. destruct (l !! i); exact H. Qed.

Lemma keeps_bind {A B} (m : M S A) (f : A -> M S B) :
  keeps I m -> (forall a, keeps I (f a)) -> keeps I (bind m f).
Proof.
  intros Hm Hf s H. specialize (Hm s H). unfold bind.
  destruct (m s); simpl in *; auto. apply Hf. exact Hm.
Qed.

Lemma keeps_modify f : (forall s, I s -> I (f s)) -> keeps I (modify f).
Proof. intros Hf s H. apply Hf. exact H. Qed.

Lemma keeps_when b m : keeps I m -> keeps I (when b m).
Proof. destruct b; intros H; [exact H | apply keeps_ret]. Qed.

Lemma keeps_for_each {A} (l : list A) body :
  (forall x, keeps I (body x)) -> keeps I (for_each l body).
Proof.
  intros H. induction l as [|x l IH]; simpl; [apply keeps_ret|].
  apply keeps_bind; auto.
Qed.
End KeepsLemmas.

#[export] Hint Resolve keeps_ret keeps_gets keeps_get keeps_panic keeps_fault keeps_switch
  keeps_spin keeps_nth_ok keeps_bind keeps_when keeps_for_each : xv6.

(** ** Proof steps shared by the components *)

(** Turn boolean tests of the code into propositions. *)
Ltac breflect :=
  repeat match goal with
  | H : andb _ _ = true |- _ => apply andb_true_iff in H; destruct H
  | H : orb _ _ = false |- _ => apply orb_false_iff in H; destruct H
  | H : negb _ = true |- _ => apply negb_true_iff in H
  | H : negb _ = false |- _ => apply negb_false_iff in H
  | H : (_ =? _) = true |- _ => apply Z.eqb_eq in H
  | H : (_ =? _) = false |- _ => apply Z.eqb_neq in H
  | H : (_ <? _) = true |- _ => apply Z.ltb_lt in H
  | H : (_ <? _) = false |- _ => apply Z.ltb_ge in H
  | H : (_ <=? _) = true |- _ => apply Z.leb_le in H
  | H : (_ <=? _) = false |- _ => apply Z.leb_gt in H
  | H : (_ =? _)%nat = true |- _ => apply Nat.eqb_eq in H
  | H : (_ =? _)%nat = false |- _ => apply Nat.eqb_neq in H
  | H : (_ <? _)%nat = true |- _ => apply Nat.ltb_lt in H
  | H : (_ <? _)%nat = false |- _ => apply Nat.ltb_ge in H
  | H : bool_decide _ = true |- _ => apply bool_decide_eq_true in H
  | H : bool_decide _ = false |- _ => apply bool_decide_eq_false in H
  end.

(** Run the next basic step of a routine. *)
Ltac mstep :=
  repeat (first [rewrite bind_assoc | rewrite bind_modify | rewrite bind_gets
                | rewrite bind_get | rewrite bind_ret]; cbv beta).

(** Run a call whose outcome is known. *)
Ltac mcall lem := erewrite bind_ok; [cbv beta | eapply lem].

(** Invert equations between outcomes. *)
Ltac minv :=
  repeat match goal with
  | H : bind _ _ _ = Ok _ _ |- _ =>
      let a := fresh "a" in let s1 := fresh "s" in let H1 := fresh "Hm" in
      apply bind_inv in H; destruct H as (a & s1 & H1 & H)
  | H : ret _ _ = Ok _ _ |- _ => injection H as <- <-
  | H : gets _ _ = Ok _ _ |- _ => injection H as <- <-
  | H : get _ = Ok _ _ |- _ => injection H as <- <-
  | H : modify _ _ = Ok _ _ |- _ => injection H as <- <-
  | H : panic _ _ = Ok _ _ |- _ => discriminate H
  | H : fault _ _ = Ok _ _ |- _ => discriminate H
  | H : switch _ = Ok _ _ |- _ => discriminate H
  | H : spin _ = Ok _ _ |- _ => discriminate H
  end.

(** ** Lists *)

Section Lists.
Context {A : Type}.
Implicit Types l : list A.

(** Index of the first element satisfying a test, counting from [i]. *)
Fixpoint find_from (f : A -> bool) (i : nat) l : option nat :=
  match l with
  | [] => None
  | x :: l' => if f x then Some i else find_from f (S i) l'
  end.

Lemma find_from_shift f i l : find_from f (S i) l = S <$> find_from f i l.
Proof.
  revert i. induction l as [|x l IH]; intros i; simpl; [done|].
  destruct (f x); [done|]. apply IH.
Qed.

Lemma find_from_Some f l j :
  find_from f 0 l = Some j <->
  exists x, l !! j = Some x /\ f x = true /\
    forall k y, (k < j)%nat -> l !! k = Some y -> f y = false.
Proof.
  revert j. induction l as [|x l IH]; intros j; simpl.
  { split; [done|]. intros (y & Hy & _). done. }
  destruct (f x) eqn:E.
  - split.
    + intros [= <-]. exists x. repeat split; auto. intros; lia.
    + intros (y & Hy & Hfy & Hlt). destruct j as [|j]; [done|].
      specialize (Hlt 0%nat x ltac:(lia) eq_refl). congruence.
  - rewrite find_from_shift. split.
    + intros Hf. apply fmap_Some in Hf as (k & Ek & ->).
      apply IH in Ek as (y & Hy & Hfy & Hlt).
      exists y. repeat split; auto. intros [|m] z Hm Hz; simpl in Hz; [congruence|].
      apply (Hlt m); auto; lia.
    + intros (y & Hy & Hfy & Hlt). destruct j as [|j].
      { simpl in Hy. congruence. }
      assert (find_from f 0 l = Some j) as ->; [|done].
      apply IH. exists y. repeat split; auto.
      intros m z Hm Hz. apply (Hlt (S m)); auto; lia.
Qed.

Lemma find_from_None f l :
  find_from f 0 l = None <-> forall k y, l !! k = Some y -> f y = false.
Proof.
  induction l as [|x l IH]; simpl; [split; done|].
  destruct (f x) eqn:E.
  - split; [done|]. intros H. specialize (H 0%nat x eq_refl). congruence.
  - rewrite find_from_shift. split.
    + intros H [|k] y Hk; simpl in Hk; [congruence|].
      destruct (find_from f 0 l); [done|]. apply (proj1 IH eq_refl k). done.
    + intros H. rewrite (proj2 IH); [done|]. intros k y Hk. apply (H (S k)). done.
Qed.

Lemma alter_as_insert (f : A -> A) l i x : l !! i = Some x -> alter f i l = <[i := f x]> l.
Proof.
  intros H. apply list_eq. intros j. destruct (decide (i = j)) as [<-|Hne].
  - rewrite list_lookup_alter_eq, H, list_lookup_insert_eq; [done|]. by eapply lookup_lt_Some.
  - by rewrite list_lookup_alter_ne, list_lookup_insert_ne.
Qed.
End Lists.

(** Case analysis on the integer comparisons in the goal. *)
Ltac zcases :=
  repeat match goal with
  | |- context [?x <=? ?y] => destruct (Z.leb_spec x y)
  | |- context [?x <? ?y] => destruct (Z.ltb_spec x y)
  | |- context [?x =? ?y] => destruct (Z.eqb_spec x y)
  end; simpl; try lia; try done.
