(* ===== verification/Params.v ===== *)
(** * Compile-time constants and address macros of the kernel headers

    [param.h], [fs.h], [buf.h], [file.h], [stat.h], [fcntl.h], [memlayout.h],
    [mmu.h] and [proc.h]. Every macro on [uint] operands is written with the
    wrap-around of 32-bit arithmetic. *)

From S2P Require Import Prelude.

(** [param.h] *)
Definition NPROC : nat := 64.
Definition KSTACKSIZE : Z := 4096.
Definition NCPU : nat := 8.
Definition NOFILE : nat := 16.
Definition NFILE : nat := 100.
Definition NINODE : nat := 50.
Definition NDEV : Z := 10.
Definition ROOTDEV : Z := 1.
Definition MAXARG : nat := 32.
Definition MAXOPBLOCKS : Z := 10.
Definition LOGSIZE : Z := MAXOPBLOCKS * 3.
Definition NBUF : nat := Z.to_nat (MAXOPBLOCKS * 3).
Definition FSSIZE : Z := 1000.
Definition QUANTA : Z := 5.

(** [proc.h] *)
Definition HIGH_PIORITY : Z := 2.
Definition MEDIUM_PIORITY : Z := 1.
Definition LOW_PIORITY : Z := 0.

(** The length of the four per-child tables of [struct proc]. *)
Definition NCHILD : nat := 64.

(** [proc.c] *)
Definition RR : Z := 0.
Definition FRR : Z := 1.
Definition GRT : Z := 2.
Definition Q3 : Z := 3.

(** [fs.h] *)
Definition ROOTINO : Z := 1.
Definition BSIZE : Z := 512.
Definition NDIRECT : Z := 12.
Definition NINDIRECT : Z := BSIZE / 4.
Definition MAXFILE : Z := NDIRECT + NINDIRECT.
Definition IPB : Z := BSIZE / 64.
Definition BPB : Z := BSIZE * 8.
Definition DIRSIZ : Z := 14.

(** [buf.h], [file.h] *)
Definition B_VALID : Z := 2.
Definition B_DIRTY : Z := 4.
Definition I_VALID : Z := 2.
Definition CONSOLE : Z := 1.

(** [stat.h] *)
Definition T_DIR : Z := 1.
Definition T_FILE : Z := 2.
Definition T_DEV : Z := 3.

(** [fcntl.h] *)
Definition O_RDONLY : Z := 0.
Definition O_WRONLY : Z := 1.
Definition O_RDWR : Z := 2.
Definition O_CREATE : Z := 512.

(** [memlayout.h] *)
Definition EXTMEM : Z := 0x100000.
Definition PHYSTOP : Z := 0xE000000.
Definition DEVSPACE : Z := 0xFE000000.
Definition KERNBASE : Z := 0x80000000.
Definition KERNLINK : Z := KERNBASE + EXTMEM.
Definition V2P (a : Z) : Z := u32 (a - KERNBASE).
Definition P2V (a : Z) : Z := u32 (a + KERNBASE).

(** [mmu.h] *)
Definition PGSIZE : Z := 4096.
Definition NPDENTRIES : Z := 1024.
Definition NPTENTRIES : Z := 1024.
Definition PTXSHIFT : Z := 12.
Definition PDXSHIFT : Z := 22.
Definition PDX (va : Z) : Z := Z.land (Z.shiftr va PDXSHIFT) 0x3FF.
Definition PTX (va : Z) : Z := Z.land (Z.shiftr va PTXSHIFT) 0x3FF.
Definition PGROUNDUP (sz : Z) : Z := Z.land (u32 (sz + PGSIZE - 1)) (Z.lnot (PGSIZE - 1)).
Definition PGROUNDDOWN (a : Z) : Z := Z.land a (Z.lnot (PGSIZE - 1)).
Definition PTE_P : Z := 1.
Definition PTE_W : Z := 2.
Definition PTE_U : Z := 4.
Definition PTE_ADDR (pte : Z) : Z := Z.land pte (Z.lnot 0xFFF).
Definition PTE_FLAGS (pte : Z) : Z := Z.land pte 0xFFF.
Definition SEG_KCODE : Z := 1.
Definition SEG_KDATA : Z := 2.
Definition SEG_KCPU : Z := 3.
Definition SEG_UCODE : Z := 4.
Definition SEG_UDATA : Z := 5.
Definition SEG_TSS : Z := 6.
Definition NSEGS : nat := 7.
Definition DPL_USER : Z := 3.
Definition STA_X : Z := 0x8.
Definition STA_W : Z := 0x2.
Definition STA_R : Z := 0x2.
Definition STS_T32A : Z := 0x9.
Definition STS_IG32 : Z := 0xE.
Definition STS_TG32 : Z := 0xF.
Definition FL_IF : Z := 0x200.

(** [traps.h] *)
Definition T_SYSCALL : Z := 64.
Definition T_IRQ0 : Z := 32.
Definition IRQ_TIMER : Z := 0.
Definition IRQ_KBD : Z := 1.
Definition IRQ_COM1 : Z := 4.
Definition IRQ_IDE : Z := 14.
Definition IRQ_SPURIOUS : Z := 31.

(** ** Rounding to a page *)

Lemma land_lnot_ones a n : 0 <= n -> Z.land a (Z.lnot (2 ^ n - 1)) = 2 ^ n * (a / 2 ^ n).
Proof.
  intros Hn. replace (2 ^ n - 1) with (Z.ones n) by (rewrite Z.ones_equiv; lia).
  rewrite <- Z.ldiff_land, Z.ldiff_ones_r, Z.shiftl_mul_pow2, Z.shiftr_div_pow2 by lia. lia.
Qed.

Lemma PGROUNDDOWN_spec a : PGROUNDDOWN a = PGSIZE * (a / PGSIZE).
Proof. unfold PGROUNDDOWN, PGSIZE. apply (land_lnot_ones a 12). lia. Qed.

(** Away from the top page of the address space [PGROUNDUP] is the least multiple
    of the page size that is not below its argument. *)
Lemma PGROUNDUP_spec a :
  0 <= a <= 2 ^ 32 - PGSIZE ->
  PGROUNDUP a mod PGSIZE = 0 /\ a <= PGROUNDUP a < a + PGSIZE.
Proof.
  intros Ha. unfold PGROUNDUP. unfold PGSIZE in *.
  change (4096 - 1) with (2 ^ 12 - 1). rewrite land_lnot_ones by lia.
  rewrite (u32_small (a + 4096 - 1)) by (unfold is_u32; lia). change (2 ^ 12) with 4096.
  pose proof (Z.div_mod (a + 4096 - 1) 4096 ltac:(lia)).
  pose proof (Z.mod_pos_bound (a + 4096 - 1) 4096 ltac:(lia)).
  split; [|lia]. rewrite Z.mul_comm. apply Z_mod_mult.
Qed.

Lemma PGROUNDUP_aligned a :
  0 <= a < 2 ^ 32 - PGSIZE -> a mod PGSIZE = 0 -> PGROUNDUP a = a.
Proof.
  intros Ha Hm. destruct (PGROUNDUP_spec a) as [H1 H2]; [lia|].
  unfold PGSIZE in *.
  pose proof (Z.div_mod a 4096). pose proof (Z.div_mod (PGROUNDUP a) 4096). lia.
Qed.
