(* ===== verification/State.v ===== *)
(** * The kernel's data: C structures as records, and the global state

    One record per C structure, with the source's fields. Pointers into the
    fixed tables ([ptable.proc], [ftable.file], [icache.inode], [bcache.buf])
    are indices of the table, a null pointer is [None]; pages of physical
    memory are addresses. Fields that only serve debugging output (the [name]
    and [pcs] of a lock) are left out. *)

From S2P Require Import Prelude Params.

(** ** Locks and sleep channels *)

(** The kernel's sleep-locks: one in every buffer and every cached inode. *)
Inductive slid := SlBuf (i : nat) | SlInode (i : nat).

(** The kernel's spinlocks. [LSleep l] is the spinlock inside sleep-lock [l],
    [LPipe a] the one of the pipe at address [a]. *)
Inductive lockid :=
| LPtable | LTicks | LKmem | LBcache | LLog | LIcache | LFtable | LCons | LIde
| LPipe (a : Z) | LSleep (l : slid).

(** The addresses processes sleep on: [&ticks], a process, [&log], a
    sleep-lock, [&p->nread] and [&p->nwrite] of a pipe, [&input.r], a buffer. *)
Inductive chan :=
| ChTicks | ChProc (i : nat) | ChLog | ChSleep (l : slid)
| ChPipeR (a : Z) | ChPipeW (a : Z) | ChInput | ChBuf (i : nat).

#[export] Instance slid_eq_dec : EqDecision slid.
Proof. solve_decision. Defined.
#[export] Instance lockid_eq_dec : EqDecision lockid.
Proof. solve_decision. Defined.
#[export] Instance chan_eq_dec : EqDecision chan.
Proof. solve_decision. Defined.

#[export] Instance slid_countable : Countable slid.
Proof.
  refine (inj_countable'
    (fun l => match l with SlBuf i => inl i | SlInode i => inr i end)
    (fun x => match x with inl i => SlBuf i | inr i => SlInode i end) _).
  by intros [].
Defined.

#[export] Instance lockid_countable : Countable lockid.
Proof.
  refine (inj_countable'
    (fun l => match l with
      | LPtable => inl (inl 0%nat) | LTicks => inl (inl 1%nat) | LKmem => inl (inl 2%nat)
      | LBcache => inl (inl 3%nat) | LLog => inl (inl 4%nat) | LIcache => inl (inl 5%nat)
      | LFtable => inl (inl 6%nat) | LCons => inl (inl 7%nat) | LIde => inl (inl 8%nat)
      | LPipe a => inl (inr a) | LSleep l => inr l end)
    (fun x => match x with
      | inl (inl 0%nat) => LPtable | inl (inl 1%nat) => LTicks | inl (inl 2%nat) => LKmem
      | inl (inl 3%nat) => LBcache | inl (inl 4%nat) => LLog | inl (inl 5%nat) => LIcache
      | inl (inl 6%nat) => LFtable | inl (inl 7%nat) => LCons | inl (inl _) => LIde
      | inl (inr a) => LPipe a | inr l => LSleep l end) _).
  by intros [].
Defined.

(** ** Processors *)

(** The fields of [struct cpu] that [spinlock.c] uses, and the interrupt flag
    of the processor's [eflags] register. *)
Record cpu := mkCpu {
  ncli : Z;        (* depth of pushcli nesting *)
  intena : bool;   (* were interrupts enabled before pushcli? *)
  eflags_if : bool (* FL_IF *)
}.

#[export] Instance set_ncli : Setter ncli := ltac:(setter cpu ncli).
#[export] Instance set_intena : Setter intena := ltac:(setter cpu intena).
#[export] Instance set_eflags_if : Setter eflags_if := ltac:(setter cpu eflags_if).

(** ** Processes *)

Inductive procstate := UNUSED | EMBRYO | SLEEPING | RUNNABLE | RUNNING | ZOMBIE.

#[export] Instance procstate_eq_dec : EqDecision procstate.
Proof. solve_decision. Defined.

Definition st_eqb (a b : procstate) : bool := bool_decide (a = b).

(** Saved registers for kernel context switches. *)
Record context := mkContext {
  c_edi : Z; c_esi : Z; c_ebx : Z; c_ebp : Z; c_eip : Z
}.

Definition sizeof_context : Z := 20.

(** The trap frame built by the hardware and [trapasm.S] (padding left out). *)
Record trapframe := mkTrapframe {
  tf_edi : Z; tf_esi : Z; tf_ebp : Z; tf_oesp : Z;
  tf_ebx : Z; tf_edx : Z; tf_ecx : Z; tf_eax : Z;
  tf_gs : Z; tf_fs : Z; tf_es : Z; tf_ds : Z;
  tf_trapno : Z; tf_err : Z; tf_eip : Z; tf_cs : Z; tf_eflags : Z;
  tf_esp : Z; tf_ss : Z
}.

Definition sizeof_trapframe : Z := 76.

Definition zero_trapframe : trapframe :=
  mkTrapframe 0 0 0 0 0 0 0 0 0 0 0 0 0 0 0 0 0 0 0.

#[export] Instance set_tf_eax : Setter tf_eax := ltac:(setter trapframe tf_eax).
#[export] Instance set_tf_es : Setter tf_es := ltac:(setter trapframe tf_es).
#[export] Instance set_tf_ds : Setter tf_ds := ltac:(setter trapframe tf_ds).
#[export] Instance set_tf_cs : Setter tf_cs := ltac:(setter trapframe tf_cs).
#[export] Instance set_tf_ss : Setter tf_ss := ltac:(setter trapframe tf_ss).
#[export] Instance set_tf_eip : Setter tf_eip := ltac:(setter trapframe tf_eip).
#[export] Instance set_tf_esp : Setter tf_esp := ltac:(setter trapframe tf_esp).
#[export] Instance set_tf_eflags : Setter tf_eflags := ltac:(setter trapframe tf_eflags).
#[export] Instance set_tf_trapno : Setter tf_trapno := ltac:(setter trapframe tf_trapno).

(** [struct proc]. [p_tf] and [p_context] are the addresses the pointers hold,
    [p_tfregs] and [p_ctx] what is stored there. *)
Record proc := mkProc {
  p_sz : Z;
  p_pgdir : Z;
  p_kstack : Z;
  p_state : procstate;
  p_pid : Z;
  p_parent : option nat;
  p_tf : Z;
  p_tfregs : trapframe;
  p_context : Z;
  p_ctx : context;
  p_chan : option chan;
  p_killed : Z;
  p_ofile : list (option nat);
  p_cwd : option nat;
  p_name : list Z;
  p_ctime : Z;
  p_etime : Z;
  p_rtime : Z;
  p_processCounter : Z;
  p_childCTime : list Z;
  p_childRTime : list Z;
  p_childETime : list Z;
  p_childPiority : list Z;
  p_allChildSize : Z;
  p_piority : Z
}.

#[export] Instance set_p_sz : Setter p_sz := ltac:(setter proc p_sz).
#[export] Instance set_p_pgdir : Setter p_pgdir := ltac:(setter proc p_pgdir).
#[export] Instance set_p_kstack : Setter p_kstack := ltac:(setter proc p_kstack).
#[export] Instance set_p_state : Setter p_state := ltac:(setter proc p_state).
#[export] Instance set_p_pid : Setter p_pid := ltac:(setter proc p_pid).
#[export] Instance set_p_parent : Setter p_parent := ltac:(setter proc p_parent).
#[export] Instance set_p_tf : Setter p_tf := ltac:(setter proc p_tf).
#[export] Instance set_p_tfregs : Setter p_tfregs := ltac:(setter proc p_tfregs).
#[export] Instance set_p_context : Setter p_context := ltac:(setter proc p_context).
#[export] Instance set_p_ctx : Setter p_ctx := ltac:(setter proc p_ctx).
#[export] Instance set_p_chan : Setter p_chan := ltac:(setter proc p_chan).
#[export] Instance set_p_killed : Setter p_killed := ltac:(setter proc p_killed).
#[export] Instance set_p_ofile : Setter p_ofile := ltac:(setter proc p_ofile).
#[export] Instance set_p_cwd : Setter p_cwd := ltac:(setter proc p_cwd).
#[export] Instance set_p_name : Setter p_name := ltac:(setter proc p_name).
#[export] Instance set_p_ctime : Setter p_ctime := ltac:(setter proc p_ctime).
#[export] Instance set_p_etime : Setter p_etime := ltac:(setter proc p_etime).
#[export] Instance set_p_rtime : Setter p_rtime := ltac:(setter proc p_rtime).
#[export] Instance set_p_processCounter : Setter p_processCounter := ltac:(setter proc p_processCounter).
#[export] Instance set_p_childCTime : Setter p_childCTime := ltac:(setter proc p_childCTime).
#[export] Instance set_p_childRTime : Setter p_childRTime := ltac:(setter proc p_childRTime).
#[export] Instance set_p_childETime : Setter p_childETime := ltac:(setter proc p_childETime).
#[export] Instance set_p_childPiority : Setter p_childPiority := ltac:(setter proc p_childPiority).
#[export] Instance set_p_allChildSize : Setter p_allChildSize := ltac:(setter proc p_allChildSize).
#[export] Instance set_p_piority : Setter p_piority := ltac:(setter proc p_piority).

(** A zeroed entry of the process table. *)
Definition zero_proc : proc :=
  mkProc 0 0 0 UNUSED 0 None 0 zero_trapframe 0 (mkContext 0 0 0 0 0) None 0
    (replicate NOFILE None) None (replicate 16 0) 0 0 0 0
    (replicate NCHILD 0) (replicate NCHILD 0) (replicate NCHILD 0) (replicate NCHILD 0) 0 0.

(** The globals of [proc.c]: the process table and the scheduling variables. *)
Record ptable := mkPtable {
  pt_proc : list proc;
  nextpid : Z;
  initproc : option nat;
  policyChooser : Z;
  GRTExists : Z;
  FRRExists : Z;
  printRunningProcIsValid : Z;
  forkret_first : bool
}.

#[export] Instance set_pt_proc : Setter pt_proc := ltac:(setter ptable pt_proc).
#[export] Instance set_nextpid : Setter nextpid := ltac:(setter ptable nextpid).
#[export] Instance set_initproc : Setter initproc := ltac:(setter ptable initproc).
#[export] Instance set_policyChooser : Setter policyChooser := ltac:(setter ptable policyChooser).
#[export] Instance set_GRTExists : Setter GRTExists := ltac:(setter ptable GRTExists).
#[export] Instance set_FRRExists : Setter FRRExists := ltac:(setter ptable FRRExists).
#[export] Instance set_printRunningProcIsValid : Setter printRunningProcIsValid :=
  ltac:(setter ptable printRunningProcIsValid).
#[export] Instance set_forkret_first : Setter forkret_first := ltac:(setter ptable forkret_first).

(** ** Physical memory and the page allocator *)

(** [kmem]: the head of the free list is a kernel address, 0 for the empty list.
    The links are stored in the free pages themselves. *)
Record kmem := mkKmem { use_lock : bool; freelist : Z }.

#[export] Instance set_use_lock : Setter use_lock := ltac:(setter kmem use_lock).
#[export] Instance set_freelist : Setter freelist := ltac:(setter kmem freelist).

(** Addresses chosen by the linker. *)
Record link := mkLink { end_ : Z; data_ : Z; forkret_ : Z; trapret_ : Z; cpus_ : Z }.

(** ** Segments *)

(** A descriptor, by its bit fields. *)
Record segdesc := mkSegdesc {
  lim_15_0 : Z; base_15_0 : Z; base_23_16 : Z; sd_type : Z; sd_s : Z; sd_dpl : Z; sd_p : Z;
  lim_19_16 : Z; sd_avl : Z; sd_rsv1 : Z; sd_db : Z; sd_g : Z; base_31_24 : Z
}.

#[export] Instance set_sd_s : Setter sd_s := ltac:(setter segdesc sd_s).

Definition SEG (type base lim dpl : Z) : segdesc :=
  mkSegdesc (Z.land (Z.shiftr lim 12) 0xffff) (Z.land (u32 base) 0xffff) (Z.land (Z.shiftr (u32 base) 16) 0xff)
    type 1 dpl 1 (Z.shiftr (u32 lim) 28) 0 0 1 1 (Z.shiftr (u32 base) 24).

Definition SEG16 (type base lim dpl : Z) : segdesc :=
  mkSegdesc (Z.land lim 0xffff) (Z.land (u32 base) 0xffff) (Z.land (Z.shiftr (u32 base) 16) 0xff)
    type 1 dpl 1 (Z.shiftr (u32 lim) 16) 0 0 1 0 (Z.shiftr (u32 base) 24).

(** A gate of the interrupt table. *)
Record gatedesc := mkGatedesc {
  off_15_0 : Z; gd_cs : Z; gd_args : Z; gd_rsv1 : Z; gd_type : Z; gd_s : Z; gd_dpl : Z; gd_p : Z; off_31_16 : Z
}.

Definition SETGATE (istrap : bool) (sel off d : Z) : gatedesc :=
  mkGatedesc (Z.land (u32 off) 0xffff) sel 0 0 (if istrap then STS_TG32 else STS_IG32) 0 d 1 (Z.shiftr (u32 off) 16).

Definition zero_gatedesc : gatedesc := mkGatedesc 0 0 0 0 0 0 0 0 0.

(** The descriptors of the processor that runs ([cpu->gdt]), the gates all share ([idt]), the fields of its task-state
    segment that are set once and for all, and its registers: the tables in use, as base
    and limit, and the selectors. *)
Record segs := mkSegs {
  sg_gdt : list segdesc;
  sg_idt : list gatedesc;
  sg_ss0 : Z; sg_iomb : Z;
  sg_gdtr : Z * Z; sg_idtr : Z * Z;
  sg_gs : Z; sg_tr : Z;
  sg_started : Z            (* cpu->started *)
}.

#[export] Instance set_sg_gdt : Setter sg_gdt := ltac:(setter segs sg_gdt).
#[export] Instance set_sg_idt : Setter sg_idt := ltac:(setter segs sg_idt).
#[export] Instance set_sg_ss0 : Setter sg_ss0 := ltac:(setter segs sg_ss0).
#[export] Instance set_sg_iomb : Setter sg_iomb := ltac:(setter segs sg_iomb).
#[export] Instance set_sg_gdtr : Setter sg_gdtr := ltac:(setter segs sg_gdtr).
#[export] Instance set_sg_idtr : Setter sg_idtr := ltac:(setter segs sg_idtr).
#[export] Instance set_sg_gs : Setter sg_gs := ltac:(setter segs sg_gs).
#[export] Instance set_sg_tr : Setter sg_tr := ltac:(setter segs sg_tr).
#[export] Instance set_sg_started : Setter sg_started := ltac:(setter segs sg_started).

(** Where the fields of [struct cpu] lie, and the sizes of the structures. *)
Definition sizeof_cpu : Z := 188.
Definition cpu_ts : Z := 8.
Definition cpu_gdt : Z := 112.
Definition cpu_cpu : Z := 180.
Definition sizeof_taskstate : Z := 104.
Definition sizeof_segdesc : Z := 8.
Definition zero_segdesc : segdesc := mkSegdesc 0 0 0 0 0 0 0 0 0 0 0 0 0.

(** ** The block layer *)

Record buf := mkBuf {
  b_flags : Z;
  b_dev : Z;
  b_blockno : Z;
  b_refcnt : Z;
  b_data : list Z
}.

#[export] Instance set_b_flags : Setter b_flags := ltac:(setter buf b_flags).
#[export] Instance set_b_dev : Setter b_dev := ltac:(setter buf b_dev).
#[export] Instance set_b_blockno : Setter b_blockno := ltac:(setter buf b_blockno).
#[export] Instance set_b_refcnt : Setter b_refcnt := ltac:(setter buf b_refcnt).
#[export] Instance set_b_data : Setter b_data := ltac:(setter buf b_data).

(** [bcache]: the buffers, and the list through [prev]/[next] as the indices
    met from [head.next] on (most recently used first). *)
Record bcache := mkBcache { bc_buf : list buf; bc_list : list nat }.

#[export] Instance set_bc_buf : Setter bc_buf := ltac:(setter bcache bc_buf).
#[export] Instance set_bc_list : Setter bc_list := ltac:(setter bcache bc_list).

(** A disk is an image and the sector writes it has received since, the latest first. *)
Record disk := mkDisk {
  dk_size : Z;                 (* disksize, in blocks *)
  dk_image : Z -> list Z;
  dk_hist : list (Z * list Z)
}.

#[export] Instance set_dk_hist : Setter dk_hist := ltac:(setter disk dk_hist).

Fixpoint hist_read (image : Z -> list Z) (h : list (Z * list Z)) (b : Z) : list Z :=
  match h with
  | [] => image b
  | (b', d) :: h' => if b' =? b then d else hist_read image h' b
  end.

Definition disk_read (d : disk) (b : Z) : list Z := hist_read (dk_image d) (dk_hist d) b.
Definition disk_write (b : Z) (v : list Z) (d : disk) : disk := d <| dk_hist ::= cons (b, v) |>.

(** ** The log *)

Record logheader := mkLogheader { lh_n : Z; lh_block : list Z }.

#[export] Instance set_lh_n : Setter lh_n := ltac:(setter logheader lh_n).
#[export] Instance set_lh_block : Setter lh_block := ltac:(setter logheader lh_block).

Record log := mkLog {
  lg_start : Z;
  lg_size : Z;
  lg_outstanding : Z;
  lg_committing : Z;
  lg_dev : Z;
  lg_lh : logheader
}.

#[export] Instance set_lg_start : Setter lg_start := ltac:(setter log lg_start).
#[export] Instance set_lg_size : Setter lg_size := ltac:(setter log lg_size).
#[export] Instance set_lg_outstanding : Setter lg_outstanding := ltac:(setter log lg_outstanding).
#[export] Instance set_lg_committing : Setter lg_committing := ltac:(setter log lg_committing).
#[export] Instance set_lg_dev : Setter lg_dev := ltac:(setter log lg_dev).
#[export] Instance set_lg_lh : Setter lg_lh := ltac:(setter log lg_lh).

(** ** Files *)

Record superblock := mkSuperblock {
  sb_size : Z; sb_nblocks : Z; sb_ninodes : Z; sb_nlog : Z;
  sb_logstart : Z; sb_inodestart : Z; sb_bmapstart : Z
}.

Record inode := mkInode {
  i_dev : Z; i_inum : Z; i_ref : Z; i_flags : Z;
  i_type : Z; i_major : Z; i_minor : Z; i_nlink : Z; i_size : Z;
  i_addrs : list Z
}.

#[export] Instance set_i_dev : Setter i_dev := ltac:(setter inode i_dev).
#[export] Instance set_i_inum : Setter i_inum := ltac:(setter inode i_inum).
#[export] Instance set_i_ref : Setter i_ref := ltac:(setter inode i_ref).
#[export] Instance set_i_flags : Setter i_flags := ltac:(setter inode i_flags).
#[export] Instance set_i_type : Setter i_type := ltac:(setter inode i_type).
#[export] Instance set_i_major : Setter i_major := ltac:(setter inode i_major).
#[export] Instance set_i_minor : Setter i_minor := ltac:(setter inode i_minor).
#[export] Instance set_i_nlink : Setter i_nlink := ltac:(setter inode i_nlink).
#[export] Instance set_i_size : Setter i_size := ltac:(setter inode i_size).
#[export] Instance set_i_addrs : Setter i_addrs := ltac:(setter inode i_addrs).

Inductive filetype := FD_NONE | FD_PIPE | FD_INODE.

#[export] Instance filetype_eq_dec : EqDecision filetype.
Proof. solve_decision. Defined.

Record file := mkFile {
  f_type : filetype;
  f_ref : Z;
  f_readable : bool;
  f_writable : bool;
  f_pipe : Z;
  f_ip : option nat;
  f_off : Z
}.

#[export] Instance set_f_type : Setter f_type := ltac:(setter file f_type).
#[export] Instance set_f_ref : Setter f_ref := ltac:(setter file f_ref).
#[export] Instance set_f_readable : Setter f_readable := ltac:(setter file f_readable).
#[export] Instance set_f_writable : Setter f_writable := ltac:(setter file f_writable).
#[export] Instance set_f_pipe : Setter f_pipe := ltac:(setter file f_pipe).
#[export] Instance set_f_ip : Setter f_ip := ltac:(setter file f_ip).
#[export] Instance set_f_off : Setter f_off := ltac:(setter file f_off).

Record pipe := mkPipe {
  pi_data : list Z;
  pi_nread : Z;
  pi_nwrite : Z;
  pi_readopen : bool;
  pi_writeopen : bool
}.

#[export] Instance set_pi_data : Setter pi_data := ltac:(setter pipe pi_data).
#[export] Instance set_pi_nread : Setter pi_nread := ltac:(setter pipe pi_nread).
#[export] Instance set_pi_nwrite : Setter pi_nwrite := ltac:(setter pipe pi_nwrite).
#[export] Instance set_pi_readopen : Setter pi_readopen := ltac:(setter pipe pi_readopen).
#[export] Instance set_pi_writeopen : Setter pi_writeopen := ltac:(setter pipe pi_writeopen).

(** ** The console *)

Record input := mkInput { in_buf : list Z; in_r : Z; in_w : Z; in_e : Z }.

#[export] Instance set_in_buf : Setter in_buf := ltac:(setter input in_buf).
#[export] Instance set_in_r : Setter in_r := ltac:(setter input in_r).
#[export] Instance set_in_w : Setter in_w := ltac:(setter input in_w).
#[export] Instance set_in_e : Setter in_e := ltac:(setter input in_e).

(** ** Devices *)

(** The devices whose registers are mapped into memory. *)
Inductive mmio := Lapic | Ioapic.

(** An access to a device: a byte out of or into a port, a run of 32-bit words (as
    bytes), a write or a read of a mapped register; reads with the value delivered. *)
Inductive pio :=
| Out8 (port v : Z) | In8 (port v : Z)
| OutL (port : Z) (data : list Z) | InL (port : Z) (data : list Z)
| RegW (d : mmio) (reg v : Z) | RegR (d : mmio) (reg v : Z).

(** The globals of the drivers and of [mp.c]. *)
Record devs := mkDevs {
  d_havedisk1 : bool;       (* ide.c *)
  d_irqmask : Z;            (* picirq.c *)
  d_uart : bool;            (* uart.c *)
  d_ismp : bool;            (* mp.c *)
  d_ncpu : nat;
  d_apicid : list Z;        (* cpus[i].apicid *)
  d_ioapicid : Z;
  d_lapic : Z;              (* lapic.c: address of the registers, 0 without a local APIC *)
  d_cpunum_warned : Z       (* the counter n of cpunum *)
}.

#[export] Instance set_d_havedisk1 : Setter d_havedisk1 := ltac:(setter devs d_havedisk1).
#[export] Instance set_d_irqmask : Setter d_irqmask := ltac:(setter devs d_irqmask).
#[export] Instance set_d_uart : Setter d_uart := ltac:(setter devs d_uart).
#[export] Instance set_d_ismp : Setter d_ismp := ltac:(setter devs d_ismp).
#[export] Instance set_d_ncpu : Setter d_ncpu := ltac:(setter devs d_ncpu).
#[export] Instance set_d_apicid : Setter d_apicid := ltac:(setter devs d_apicid).
#[export] Instance set_d_ioapicid : Setter d_ioapicid := ltac:(setter devs d_ioapicid).
#[export] Instance set_d_lapic : Setter d_lapic := ltac:(setter devs d_lapic).
#[export] Instance set_d_cpunum_warned : Setter d_cpunum_warned := ltac:(setter devs d_cpunum_warned).

(** ** The whole kernel, as one processor sees it *)

Record kst := mkKst {
  k_cpuid : nat;                 (* which processor executes *)
  k_cpu : cpu;                   (* its struct cpu *)
  k_locks : gmap lockid nat;     (* locked spinlocks, with the processor holding each *)
  k_sleep : gmap slid Z;         (* locked sleep-locks, with the pid holding each *)
  k_link : link;
  k_mem : Z -> Z;                (* physical memory, a byte per address *)
  k_kmem : kmem;
  k_kpgdir : Z;                  (* kpgdir, the kernel's own page table *)
  k_cr3 : Z;                     (* physical address of the page directory in use *)
  k_esp0 : Z;                    (* cpu->ts.esp0, the stack for traps from user mode *)
  k_proc : option nat;           (* proc, the process running on this processor *)
  k_ptable : ptable;
  k_ticks : Z;
  k_disk : disk;
  k_idequeue : list nat;
  k_bcache : bcache;
  k_log : log;
  k_sb : superblock;
  k_icache : list inode;
  k_ftable : list file;
  k_pipes : gmap Z pipe;         (* the pipes, by the address of their page *)
  k_input : input;
  k_locking : bool;              (* cons.locking *)
  k_out : list Z;                (* characters given to consputc, the latest first *)
  k_shift : Z;                   (* shift, the state of kbdgetc *)
  k_devs : devs;
  k_io : list pio;               (* accesses to devices, the latest first *)
  k_segs : segs
}.

#[export] Instance set_k_cpuid : Setter k_cpuid := ltac:(setter kst k_cpuid).
#[export] Instance set_k_cpu : Setter k_cpu := ltac:(setter kst k_cpu).
#[export] Instance set_k_locks : Setter k_locks := ltac:(setter kst k_locks).
#[export] Instance set_k_sleep : Setter k_sleep := ltac:(setter kst k_sleep).
#[export] Instance set_k_mem : Setter k_mem := ltac:(setter kst k_mem).
#[export] Instance set_k_kmem : Setter k_kmem := ltac:(setter kst k_kmem).
#[export] Instance set_k_kpgdir : Setter k_kpgdir := ltac:(setter kst k_kpgdir).
#[export] Instance set_k_esp0 : Setter k_esp0 := ltac:(setter kst k_esp0).
#[export] Instance set_k_segs : Setter k_segs := ltac:(setter kst k_segs).
#[export] Instance set_k_cr3 : Setter k_cr3 := ltac:(setter kst k_cr3).
#[export] Instance set_k_proc : Setter k_proc := ltac:(setter kst k_proc).
#[export] Instance set_k_ptable : Setter k_ptable := ltac:(setter kst k_ptable).
#[export] Instance set_k_ticks : Setter k_ticks := ltac:(setter kst k_ticks).
#[export] Instance set_k_disk : Setter k_disk := ltac:(setter kst k_disk).
#[export] Instance set_k_idequeue : Setter k_idequeue := ltac:(setter kst k_idequeue).
#[export] Instance set_k_bcache : Setter k_bcache := ltac:(setter kst k_bcache).
#[export] Instance set_k_log : Setter k_log := ltac:(setter kst k_log).
#[export] Instance set_k_sb : Setter k_sb := ltac:(setter kst k_sb).
#[export] Instance set_k_icache : Setter k_icache := ltac:(setter kst k_icache).
#[export] Instance set_k_ftable : Setter k_ftable := ltac:(setter kst k_ftable).
#[export] Instance set_k_pipes : Setter k_pipes := ltac:(setter kst k_pipes).
#[export] Instance set_k_input : Setter k_input := ltac:(setter kst k_input).
#[export] Instance set_k_locking : Setter k_locking := ltac:(setter kst k_locking).
#[export] Instance set_k_out : Setter k_out := ltac:(setter kst k_out).
#[export] Instance set_k_shift : Setter k_shift := ltac:(setter kst k_shift).
#[export] Instance set_k_devs : Setter k_devs := ltac:(setter kst k_devs).
#[export] Instance set_k_io : Setter k_io := ltac:(setter kst k_io).

(** Kernel routines. *)
Definition K (A : Type) : Type := M kst A.

(** Compute nested updates of the global state, innermost first. *)
Ltac kred :=
  cbv beta iota zeta delta [set RecordSettersUsingExistingGetters.const
    k_cpuid k_cpu k_locks k_sleep k_link k_mem k_kmem k_kpgdir k_cr3 k_esp0 k_segs k_proc k_ptable
    k_ticks k_disk k_idequeue k_bcache k_log k_sb k_icache k_ftable k_pipes k_input k_locking
    k_out k_shift k_devs k_io set_k_devs set_k_io set_k_cpuid set_k_cpu set_k_locks set_k_sleep set_k_mem set_k_kmem set_k_kpgdir
    set_k_cr3 set_k_esp0 set_k_segs set_k_proc set_k_ptable set_k_ticks set_k_disk set_k_idequeue
    set_k_bcache set_k_log set_k_sb set_k_icache set_k_ftable set_k_pipes set_k_input
    set_k_locking set_k_out set_k_shift pt_proc nextpid initproc policyChooser GRTExists FRRExists
    printRunningProcIsValid forkret_first set_pt_proc set_nextpid set_initproc
    set_policyChooser set_GRTExists set_FRRExists set_printRunningProcIsValid
    set_forkret_first ncli intena eflags_if set_ncli set_intena set_eflags_if use_lock
    freelist set_use_lock set_freelist].

(** [&cpus[i]], and [cpu]. *)
Definition cpu_addr (l : link) (i : nat) : Z := cpus_ l + sizeof_cpu * Z.of_nat i.

(** ** The statically initialised globals *)

Definition zero_buf : buf := mkBuf 0 0 0 0 (replicate (Z.to_nat BSIZE) 0).
Definition zero_inode : inode := mkInode 0 0 0 0 0 0 0 0 0 (replicate (Z.to_nat (NDIRECT + 1)) 0).
Definition zero_file : file := mkFile FD_NONE 0 false false 0 None 0.

(** The kernel's data as the loader leaves it, on processor 0 with interrupts
    on, with a disk of [FSSIZE] blocks holding [image]. *)
Definition kst0 (image : Z -> list Z) : kst := {|
  k_cpuid := 0;
  k_cpu := mkCpu 0 false true;
  k_locks := ∅;
  k_sleep := ∅;
  k_link := mkLink 0x80115000 0x80108000 0x80103a00 0x80105c00 0x80112780;
  k_mem := fun _ => 0;
  k_kmem := mkKmem false 0;
  k_kpgdir := 0;
  k_cr3 := 0;
  k_esp0 := 0;
  k_segs := mkSegs (replicate NSEGS zero_segdesc) (replicate 256 zero_gatedesc) 0 0 (0, 0) (0, 0) 0 0 0;
  k_proc := None;
  k_ptable := mkPtable (replicate NPROC zero_proc) 1 None Q3 0 0 0 true;
  k_ticks := 0;
  k_disk := mkDisk FSSIZE image [];
  k_idequeue := [];
  k_bcache := mkBcache (replicate NBUF zero_buf) [];
  k_log := mkLog 0 0 0 0 0 (mkLogheader 0 (replicate (Z.to_nat LOGSIZE) 0));
  k_sb := mkSuperblock 0 0 0 0 0 0 0;
  k_icache := replicate NINODE zero_inode;
  k_ftable := replicate NFILE zero_file;
  k_pipes := ∅;
  k_input := mkInput (replicate 128 0) 0 0 0;
  k_locking := false;
  k_out := [];
  k_shift := 0;
  k_devs := mkDevs false (Z.land 0xFFFF (Z.lnot (Z.shiftl 1 2))) false false 0 (replicate NCPU 0) 0 0 0;
  k_io := []
|}.
