(* ===== verification/Mem.v ===== *)
(** * Byte-addressed memory and the routines of [string.c]

    A memory is a function from addresses to bytes. The loops of [string.c]
    are written byte by byte, over memory for the routines that move raw bytes
    and over NUL-terminated character arrays for the string routines, and are
    shown equal to one-step descriptions. *)

From S2P Require Import Prelude Params.

Abbreviation mem := (Z -> Z).

(** ** Little-endian words *)

Definition byte_of (v i : Z) : Z := u8 (v / 2 ^ (8 * i)).

Definition word_of (b0 b1 b2 b3 : Z) : Z := b0 + 2 ^ 8 * b1 + 2 ^ 16 * b2 + 2 ^ 24 * b3.

#[global] Arguments byte_of : simpl never.
#[global] Arguments word_of : simpl never.

Lemma word_of_bytes v : word_of (byte_of v 0) (byte_of v 1) (byte_of v 2) (byte_of v 3) = u32 v.
Proof.
  unfold word_of, byte_of, u8, u32.
  change (2 ^ (8 * 0)) with 1. change (2 ^ (8 * 1)) with 256.
  change (2 ^ (8 * 2)) with 65536. change (2 ^ (8 * 3)) with 16777216.
  change (2 ^ 8) with 256. change (2 ^ 16) with 65536. change (2 ^ 24) with 16777216.
  change (2 ^ 32) with 4294967296.
  Z.to_euclidean_division_equations. lia.
Qed.

Definition load32 (m : mem) (a : Z) : Z := word_of (m a) (m (a + 1)) (m (a + 2)) (m (a + 3)).

Definition store8 (m : mem) (a v : Z) : mem := fun x => if x =? a then u8 v else m x.

Definition store32 (m : mem) (a v : Z) : mem := fun x =>
  if (a <=? x) && (x <? a + 4) then byte_of v (x - a) else m x.

(** The bytes from [a] to [a + n - 1] set to [c]; [n] bytes copied from [src] to [dst]. *)
Definition fill (m : mem) (a c n : Z) : mem := fun x =>
  if (a <=? x) && (x <? a + n) then u8 c else m x.

Definition copy (m : mem) (dst src n : Z) : mem := fun x =>
  if (dst <=? x) && (x <? dst + n) then m (src + (x - dst)) else m x.

(** Two memories agree on [n] bytes from [a]. *)
Definition agree (m m' : mem) (a n : Z) : Prop := forall x, a <= x < a + n -> m x = m' x.

Lemma load32_store32 m a v : load32 (store32 m a v) a = u32 v.
Proof.
  unfold load32, store32.
  repeat match goal with |- context [?x <=? ?y] => rewrite (proj2 (Z.leb_le x y)) by lia end.
  repeat match goal with |- context [?x <? ?y] => rewrite (proj2 (Z.ltb_lt x y)) by lia end.
  simpl. rewrite <- word_of_bytes. repeat f_equal; lia.
Qed.

Lemma store32_other m a v x : x < a \/ a + 4 <= x -> store32 m a v x = m x.
Proof.
  intros H. unfold store32.
  destruct (Z.leb_spec a x), (Z.ltb_spec x (a + 4)); simpl; try done; lia.
Qed.

Lemma fill_in m a c n x : a <= x < a + n -> fill m a c n x = u8 c.
Proof.
  intros H. unfold fill.
  destruct (Z.leb_spec a x), (Z.ltb_spec x (a + n)); simpl; try done; lia.
Qed.

Lemma fill_out m a c n x : x < a \/ a + n <= x -> fill m a c n x = m x.
Proof.
  intros H. unfold fill.
  destruct (Z.leb_spec a x), (Z.ltb_spec x (a + n)); simpl; try done; lia.
Qed.

Lemma load32_agree m m' a : agree m m' a 4 -> load32 m a = load32 m' a.
Proof. intros H. unfold load32. by rewrite !H by lia. Qed.

(** ** Words inside byte arrays *)

Definition get32 (d : list Z) (k : nat) : Z :=
  word_of (nth k d 0) (nth (k + 1) d 0) (nth (k + 2) d 0) (nth (k + 3) d 0).

Definition put32 (d : list Z) (k : nat) (v : Z) : list Z :=
  <[k := byte_of v 0]> (<[(k + 1)%nat := byte_of v 1]> (<[(k + 2)%nat := byte_of v 2]> (<[(k + 3)%nat := byte_of v 3]> d))).

Lemma nth_insert (d : list Z) i j x :
  (i < length d)%nat -> nth j (<[i := x]> d) 0 = if (j =? i)%nat then x else nth j d 0.
Proof.
  intros Hi. rewrite !nth_lookup. destruct (Nat.eqb_spec j i) as [->|Hne].
  - by rewrite list_lookup_insert_eq.
  - by rewrite list_lookup_insert_ne.
Qed.

Lemma length_put32 d k v : length (put32 d k v) = length d.
Proof. unfold put32. by rewrite !length_insert. Qed.

Lemma nth_put32 d k v j :
  (k + 4 <= length d)%nat ->
  nth j (put32 d k v) 0 =
  if ((k <=? j) && (j <? k + 4))%nat then byte_of v (Z.of_nat (j - k)) else nth j d 0.
Proof.
  intros Hk. unfold put32. rewrite !nth_insert by (rewrite ?length_insert; lia).
  destruct (Nat.eqb_spec j k), (Nat.eqb_spec j (k + 1)), (Nat.eqb_spec j (k + 2)), (Nat.eqb_spec j (k + 3)),
    (Nat.leb_spec k j), (Nat.ltb_spec j (k + 4)); simpl; try lia; try done; f_equal; lia.
Qed.

Lemma get32_put32_eq d k v : (k + 4 <= length d)%nat -> get32 (put32 d k v) k = u32 v.
Proof.
  intros Hk. unfold get32. rewrite !nth_put32 by done. rewrite <- word_of_bytes.
  repeat match goal with |- context [(?a <=? ?b)%nat] => rewrite (proj2 (Nat.leb_le a b)) by lia end.
  repeat match goal with |- context [(?a <? ?b)%nat] => rewrite (proj2 (Nat.ltb_lt a b)) by lia end.
  simpl. repeat f_equal; lia.
Qed.

Lemma get32_put32_ne d k k' v :
  (k + 4 <= length d)%nat -> (k + 4 <= k' \/ k' + 4 <= k)%nat -> get32 (put32 d k v) k' = get32 d k'.
Proof.
  intros Hk Hne. unfold get32. rewrite !nth_put32 by done.
  repeat match goal with
  | |- context [((?a <=? ?b) && (?c <? ?e))%nat] =>
      replace ((a <=? b) && (c <? e))%nat with false
        by (symmetry; destruct (Nat.leb_spec a b), (Nat.ltb_spec c e); simpl; (done || lia))
  end. done.
Qed.
