(* ===== verification/Strings.v ===== *)
(** * The routines of [string.c], and the user library's versions in [ulib.c]

    Every loop is written byte by byte over memory, as in the source; the
    theorems give one-step descriptions that the other components use. Objects
    of C do not wrap around the end of memory, so addresses are integers. *)

From Stdlib Require Import FunctionalExtensionality.
From S2P Require Import Prelude Params Mem.

Definition put8 (m : mem) (a v : Z) : mem := fun x => if x =? a then v else m x.

(** ** string.c *)

(** The string instructions behind [stosb] and [stosl] of [x86.h]. *)
Fixpoint stosb (n : nat) (m : mem) (a v : Z) : mem :=
  match n with
  | O => m
  | S n' => stosb n' (put8 m a (u8 v)) (a + 1) v
  end.

Fixpoint stosl (n : nat) (m : mem) (a v : Z) : mem :=
  match n with
  | O => m
  | S n' => stosl n' (store32 m a v) (a + 4) v
  end.

Definition memset (m : mem) (dst c n : Z) : mem :=
  if (dst mod 4 =? 0) && (n mod 4 =? 0) then
    let c := Z.land c 0xFF in
    stosl (Z.to_nat (n / 4)) m dst
      (Z.lor (Z.lor (Z.lor (Z.shiftl c 24) (Z.shiftl c 16)) (Z.shiftl c 8)) c)
  else stosb (Z.to_nat n) m dst c.

Fixpoint memcmp (m : mem) (s1 s2 : Z) (n : nat) : Z :=
  match n with
  | O => 0
  | S n' =>
      if negb (m s1 =? m s2) then m s1 - m s2 else memcmp m (s1 + 1) (s2 + 1) n'
  end.

(** [while(n-- > 0) *--d = *--s;] and [while(n-- > 0) *d++ = *s++;] *)
Fixpoint move_down (n : nat) (m : mem) (d s : Z) : mem :=
  match n with
  | O => m
  | S n' => let d := d - 1 in let s := s - 1 in move_down n' (put8 m d (m s)) d s
  end.

Fixpoint move_up (n : nat) (m : mem) (d s : Z) : mem :=
  match n with
  | O => m
  | S n' => move_up n' (put8 m d (m s)) (d + 1) (s + 1)
  end.

Definition memmove (m : mem) (dst src n : Z) : mem :=
  if (src <? dst) && (dst <? src + n)
  then move_down (Z.to_nat n) m (dst + n) (src + n)
  else move_up (Z.to_nat n) m dst src.

(** The two strings may lie in different objects [m1] and [m2]. *)
Fixpoint strncmp (m1 m2 : mem) (p q : Z) (n : nat) : Z :=
  match n with
  | O => 0
  | S n' =>
      if nz (m1 p) && (m1 p =? m2 q) then strncmp m1 m2 (p + 1) (q + 1) n'
      else u8 (m1 p) - u8 (m2 q)
  end.

(** [while(n-- > 0 && ( *s++ = *t++) != 0);]: the memory, [s] and what [n] leaves to do. *)
Fixpoint strncpy_copy (n : nat) (m : mem) (s t : Z) : mem * Z * nat :=
  match n with
  | O => (m, s, O)
  | S n' =>
      let c := m t in
      let m' := put8 m s c in
      if c =? 0 then (m', s + 1, n') else strncpy_copy n' m' (s + 1) (t + 1)
  end.

Definition strncpy (m : mem) (s t n : Z) : mem :=
  let '(m', s', n') := strncpy_copy (Z.to_nat n) m s t in stosb n' m' s' 0.

(** [while(--n > 0 && ( *s++ = *t++) != 0);]: the memory and [s], for [n - 1] rounds at most. *)
Fixpoint safestrcpy_copy (n : nat) (m : mem) (s t : Z) : mem * Z :=
  match n with
  | O => (m, s)
  | S n' =>
      let c := m t in
      let m' := put8 m s c in
      if c =? 0 then (m', s + 1) else safestrcpy_copy n' m' (s + 1) (t + 1)
  end.

Definition safestrcpy (m : mem) (s t n : Z) : mem :=
  if n <=? 0 then m else
  let '(m', s') := safestrcpy_copy (Z.to_nat (n - 1)) m s t in put8 m' s' 0.

(** [None]: no NUL within [fuel] bytes. *)
Fixpoint strlen_from (fuel : nat) (m : mem) (s n : Z) : option Z :=
  match fuel with
  | O => None
  | S f => if nz (m (s + n)) then strlen_from f m s (n + 1) else Some n
  end.

Definition strlen (fuel : nat) (m : mem) (s : Z) : option Z := strlen_from fuel m s 0.

(** ** ulib.c *)

Module Ulib.

Fixpoint strcpy (fuel : nat) (m : mem) (s t : Z) : option mem :=
  match fuel with
  | O => None
  | S f =>
      let c := m t in
      let m' := put8 m s c in
      if c =? 0 then Some m' else strcpy f m' (s + 1) (t + 1)
  end.

Fixpoint strcmp (fuel : nat) (m : mem) (p q : Z) : option Z :=
  match fuel with
  | O => None
  | S f =>
      if nz (m p) && (m p =? m q) then strcmp f m (p + 1) (q + 1)
      else Some (u8 (m p) - u8 (m q))
  end.

Definition memset (m : mem) (dst c n : Z) : mem := stosb (Z.to_nat n) m dst c.

(** The address found, 0 when the string ends first. *)
Fixpoint strchr (fuel : nat) (m : mem) (s c : Z) : option Z :=
  match fuel with
  | O => None
  | S f =>
      if m s =? 0 then Some 0
      else if m s =? c then Some s else strchr f m (s + 1) c
  end.

(** [gets]: [read] gives the next character of the input, if there is one. *)
Fixpoint gets_loop (n : nat) (input : list Z) (acc : list Z) : list Z * list Z :=
  match n with
  | O => (acc, input)
  | S n' =>
      match input with
      | [] => (acc, [])
      | c :: input' =>
          let acc := acc ++ [c] in
          if (c =? 10) || (c =? 13) then (acc, input') else gets_loop n' input' acc
      end
  end.

(** The bytes stored in [buf], the final NUL included, and the input left. *)
Definition gets (input : list Z) (max : Z) : list Z * list Z :=
  let '(l, rest) := gets_loop (Z.to_nat (max - 1)) input [] in (l ++ [0], rest).

(** [char] is signed, [int] wraps. *)
Fixpoint atoi_loop (fuel : nat) (m : mem) (s n : Z) : option Z :=
  match fuel with
  | O => None
  | S f =>
      if (48 <=? m s) && (m s <=? 57) then atoi_loop f m (s + 1) (s32 (n * 10 + m s - 48))
      else Some n
  end.

Definition atoi (fuel : nat) (m : mem) (s : Z) : option Z := atoi_loop fuel m s 0.

Definition memmove (m : mem) (vdst vsrc n : Z) : mem := move_up (Z.to_nat n) m vdst vsrc.

End Ulib.

(** ** memset *)

Lemma stosb_spec n m a v x :
  stosb n m a v x = if (a <=? x) && (x <? a + Z.of_nat n) then u8 v else m x.
Proof.
  revert m a. induction n as [|n IH]; intros m a; simpl.
  - zcases.
  - rewrite IH. unfold put8.
    zcases.
Qed.

Definition spread (c : Z) : Z :=
  Z.lor (Z.lor (Z.lor (Z.shiftl c 24) (Z.shiftl c 16)) (Z.shiftl c 8)) c.

(** Disjoint bit fields add up. *)
Lemma lor_shift_add a b k :
  0 <= k -> 0 <= b < 2 ^ k -> Z.lor (Z.shiftl a k) b = a * 2 ^ k + b.
Proof.
  intros Hk Hb. rewrite Z.shiftl_mul_pow2 by lia. symmetry. apply Z.add_nocarry_lor.
  apply Z.bits_inj'. intros i Hi. rewrite Z.land_spec, Z.bits_0.
  destruct (Z.ltb_spec i k).
  - rewrite Z.mul_pow2_bits_low by lia. done.
  - assert (Z.testbit b i = false) as ->; [|by rewrite andb_false_r].
    destruct (Z.eq_dec b 0) as [->|]; [apply Z.bits_0|].
    apply Z.bits_above_log2; [lia|]. apply Z.log2_lt_pow2; [lia|].
    pose proof (Z.pow_le_mono_r 2 k i). lia.
Qed.

Lemma spread_bytes c : is_u8 c -> spread c = word_of c c c c.
Proof.
  intros Hc. unfold spread, is_u8, word_of in *.
  rewrite <- !Z.lor_assoc. rewrite (lor_shift_add c c 8) by lia.
  rewrite (lor_shift_add c _ 16) by lia. rewrite (lor_shift_add c _ 24) by lia. lia.
Qed.

Lemma byte_of_word c i : is_u8 c -> 0 <= i < 4 -> byte_of (word_of c c c c) i = c.
Proof.
  unfold is_u8, byte_of, word_of, u8. intros Hc Hi.
  assert (i = 0 \/ i = 1 \/ i = 2 \/ i = 3) as [->|[->|[->| ->]]] by lia; simpl;
    Z.to_euclidean_division_equations; lia.
Qed.

Lemma stosl_spread n m a c x :
  is_u8 c ->
  stosl n m a (spread c) x = if (a <=? x) && (x <? a + 4 * Z.of_nat n) then c else m x.
Proof.
  intros Hc. revert m a. induction n as [|n IH]; intros m a; cbn [stosl].
  - zcases.
  - rewrite IH. unfold store32. rewrite spread_bytes by done.
    zcases; rewrite byte_of_word; (done || lia).
Qed.

Lemma memset_fill m dst c n : 0 <= n -> memset m dst c n = fill m dst c n.
Proof.
  intros Hn. apply functional_extensionality. intros x. unfold memset, fill.
  destruct ((dst mod 4 =? 0) && (n mod 4 =? 0)) eqn:E.
  - breflect. change 0xFF with (Z.ones 8). rewrite Z.land_ones by lia.
    fold (spread (c mod 2 ^ 8)).
    rewrite stosl_spread by apply u8_range.
    rewrite Z2Nat.id by (apply Z.div_pos; lia).
    replace (4 * (n / 4)) with n by (pose proof (Z.div_mod n 4); lia). done.
  - rewrite stosb_spec, Z2Nat.id by lia. done.
Qed.

(** ** memmove *)

Lemma move_up_spec n m d s x :
  d <= s \/ s + Z.of_nat n <= d ->
  move_up n m d s x = copy m d s (Z.of_nat n) x.
Proof.
  revert m d s. induction n as [|n IH]; intros m d s H; cbn [move_up].
  - unfold copy. zcases.
  - rewrite IH by lia. unfold copy, put8. zcases; f_equal; lia.
Qed.

Lemma move_down_spec n m d s x :
  s <= d ->
  move_down n m (d + Z.of_nat n) (s + Z.of_nat n) x = copy m d s (Z.of_nat n) x.
Proof.
  revert m d s. induction n as [|n IH]; intros m d s H.
  - unfold copy. cbn [move_down]. zcases.
  - cbn [move_down]. replace (d + Z.of_nat (S n) - 1) with (d + Z.of_nat n) by lia.
    replace (s + Z.of_nat (S n) - 1) with (s + Z.of_nat n) by lia.
    rewrite IH by done. unfold copy, put8. zcases; f_equal; lia.
Qed.

Lemma memmove_copy m dst src n : 0 <= n -> memmove m dst src n = copy m dst src n.
Proof.
  intros Hn. apply functional_extensionality. intros x.
  rewrite <- (Z2Nat.id n Hn). generalize (Z.to_nat n). clear n Hn. intros n.
  unfold memmove. rewrite Nat2Z.id.
  destruct ((src <? dst) && (dst <? src + Z.of_nat n)) eqn:E.
  - breflect. apply move_down_spec. lia.
  - apply move_up_spec. apply andb_false_iff in E as [E|E]; breflect; lia.
Qed.

(** C13. The kernel's [memmove] is correct for every overlap of its operands: the
    [n] bytes at [dst] afterwards are the [n] bytes that were at [src] before,
    and no other byte changes; whereas the user library's [memmove], which only
    copies upwards, is guaranteed to do so when [dst] is not inside the source. *)
Theorem memmove_correct m dst src n :
  0 <= n ->
  (forall i, 0 <= i < n -> memmove m dst src n (dst + i) = m (src + i)) /\
  (forall x, x < dst \/ dst + n <= x -> memmove m dst src n x = m x) /\
  (dst <= src \/ src + n <= dst -> Ulib.memmove m dst src n = memmove m dst src n).
Proof.
  intros Hn. rewrite memmove_copy by done. split_and!.
  - intros i Hi. unfold copy. rewrite (proj2 (Z.leb_le _ _)), (proj2 (Z.ltb_lt _ _)) by lia.
    simpl. f_equal. lia.
  - intros x Hx. unfold copy.
    zcases.
  - intros H. apply functional_extensionality. intros x. unfold Ulib.memmove.
    rewrite move_up_spec; rewrite Z2Nat.id by done; done.
Qed.

Lemma memmove_correct_witness :
  (forall i, 0 <= i < 3 -> memmove (fun x => x) 11 10 3 (11 + i) = 10 + i) /\
  memmove (fun x => x) 11 10 3 13 = 12 /\ Ulib.memmove (fun x => x) 11 10 3 13 = 10.
Proof.
  assert (0 <= 3) as H by lia.
  split; [exact (proj1 (memmove_correct (fun x => x) 11 10 3 H))|].
  split; vm_compute; reflexivity.
Defined.

(** ** C strings *)

(** [cstr m a l]: the characters [l], none of them NUL, are at [a], followed by a NUL. *)
Definition cstr (m : mem) (a : Z) (l : list Z) : Prop :=
  Forall (fun c => 0 < c < 256) l /\
  (forall i c, l !! i = Some c -> m (a + Z.of_nat i) = c) /\ m (a + Z.of_nat (length l)) = 0.

Lemma cstr_cons m a c l : cstr m a (c :: l) <-> 0 < c < 256 /\ m a = c /\ cstr m (a + 1) l.
Proof.
  unfold cstr. rewrite list.Forall_cons. split.
  - intros ([Hc Hl] & Hi & Hn). refine (conj Hc (conj _ (conj Hl (conj _ _)))).
    + specialize (Hi 0%nat c eq_refl). by rewrite Z.add_0_r in Hi.
    + intros i d Hd. specialize (Hi (S i) d Hd). rewrite <- Hi. f_equal. lia.
    + rewrite <- Hn. simpl length. f_equal. lia.
  - intros (Hc & Ha & Hl & Hi & Hn). refine (conj (conj Hc Hl) (conj _ _)).
    + intros [|i] d Hd; simpl in Hd; [injection Hd as <-; by rewrite Z.add_0_r|].
      rewrite <- (Hi i d Hd). f_equal. lia.
    + rewrite <- Hn. simpl length. f_equal. lia.
Qed.

Lemma cstr_nil m a : cstr m a [] <-> m a = 0.
Proof.
  unfold cstr. simpl. rewrite Z.add_0_r. split; [by intros (_ & _ & ?)|].
  intros H. split_and!; [constructor|done|done].
Qed.

(** The string survives changes elsewhere. *)
Lemma cstr_agree m m' a l :
  cstr m a l -> agree m m' a (Z.of_nat (length l) + 1) -> cstr m' a l.
Proof.
  intros (H1 & H2 & H3) Ha. split_and!; [done| |].
  - intros i c Hc. rewrite <- (H2 i c Hc). symmetry. apply Ha.
    apply lookup_lt_Some in Hc. lia.
  - rewrite <- H3. symmetry. apply Ha. lia.
Qed.

(** Two regions that do not meet. *)
Definition apart (a n b k : Z) : Prop := a + n <= b \/ b + k <= a.

Lemma put8_other m a v x : x <> a -> put8 m a v x = m x.
Proof. unfold put8. intros H. by rewrite (proj2 (Z.eqb_neq x a)). Qed.

Lemma cstr_put8 m a l b v :
  cstr m a l -> apart a (Z.of_nat (length l) + 1) b 1 -> cstr (put8 m b v) a l.
Proof.
  intros H Hap. apply (cstr_agree m); [done|]. intros x Hx. rewrite put8_other; [done|].
  unfold apart in Hap. lia.
Qed.

Lemma triple_eq {A} (a : A) (x y : Z) (n k : nat) : x = y -> n = k -> (a, x, n) = (a, y, k).
Proof. by intros -> ->. Qed.

Lemma strncpy_copy_spec n m s t l :
  cstr m t l -> apart s (Z.of_nat n) t (Z.of_nat (length l) + 1) ->
  let k := (n `min` S (length l))%nat in
  exists m', strncpy_copy n m s t = (m', s + Z.of_nat k, (n - k)%nat) /\
    forall x, m' x = if (s <=? x) && (x <? s + Z.of_nat k)
                     then default 0 (l !! Z.to_nat (x - s)) else m x.
Proof.
  revert m s t l. induction n as [|n IH]; intros m s t l Hc Hap k; subst k; cbn [strncpy_copy].
  - exists m. split; [apply triple_eq; lia|]. intros x. zcases.
  - destruct l as [|c l].
    + apply cstr_nil in Hc. rewrite Hc. simpl. eexists. split; [apply triple_eq; lia|].
      intros x. unfold put8. zcases.
    + apply cstr_cons in Hc as (Hc0 & Hct & Hc). rewrite Hct.
      rewrite (proj2 (Z.eqb_neq c 0)) by lia. unfold apart in Hap. simpl length in Hap.
      destruct (IH (put8 m s c) (s + 1) (t + 1) l) as (m' & Hr & Hm).
      * apply cstr_put8; [done|]. unfold apart. lia.
      * unfold apart. lia.
      * exists m'. rewrite Hr. split; [apply triple_eq; simpl length; lia|].
        intros x. rewrite Hm. unfold put8. simpl length. zcases.
        -- replace (Z.to_nat (x - s)) with (S (Z.to_nat (x - (s + 1)))) by lia. done.
        -- replace (Z.to_nat (x - s)) with 0%nat by lia. done.
Qed.

(** [strncpy] writes the string cut to [n] characters and padded with NULs. *)
Lemma strncpy_spec m s t n l :
  0 <= n -> cstr m t l -> apart s n t (Z.of_nat (length l) + 1) ->
  forall x, strncpy m s t n x =
    if (s <=? x) && (x <? s + n) then default 0 (l !! Z.to_nat (x - s)) else m x.
Proof.
  intros Hn Hc Hap x. unfold strncpy.
  destruct (strncpy_copy_spec (Z.to_nat n) m s t l Hc) as (m' & -> & Hm);
    [by rewrite Z2Nat.id|].
  rewrite stosb_spec, Hm. zcases.
  rewrite lookup_ge_None_2; [done|]. lia.
Qed.

Lemma safestrcpy_copy_spec n m s t l :
  cstr m t l -> apart s (Z.of_nat n) t (Z.of_nat (length l) + 1) ->
  exists m', safestrcpy_copy n m s t = (m', s + Z.of_nat (n `min` S (length l))) /\
    forall x, m' x = if (s <=? x) && (x <? s + Z.of_nat (n `min` S (length l)))
                     then default 0 (l !! Z.to_nat (x - s)) else m x.
Proof.
  intros Hc Hap. destruct (strncpy_copy_spec n m s t l Hc Hap) as (m' & Hr & Hm).
  exists m'. split; [|done]. clear Hm Hap Hc.
  assert (forall n m s t, safestrcpy_copy n m s t = fst (strncpy_copy n m s t)) as E.
  { clear. induction n as [|n IH]; intros m s t; simpl; [done|]. destruct (m t =? 0); auto. }
  by rewrite E, Hr.
Qed.

(** [safestrcpy] copies at most [n - 1] characters and always leaves a proper
    string behind: for [n > 0] the destination holds the source cut to [n - 1]
    characters, NUL-terminated, and no byte beyond the [n] of the destination
    changes. *)
Theorem safestrcpy_terminates m s t n l :
  0 < n -> cstr m t l -> apart s n t (Z.of_nat (length l) + 1) ->
  cstr (safestrcpy m s t n) s (take (Z.to_nat (n - 1)) l) /\
  forall x, x < s \/ s + n <= x -> safestrcpy m s t n x = m x.
Proof.
  intros Hn Hc Hap. unfold safestrcpy. rewrite (proj2 (Z.leb_gt n 0)) by lia.
  destruct (safestrcpy_copy_spec (Z.to_nat (n - 1)) m s t l Hc) as (m' & -> & Hm).
  { unfold apart in *. lia. }
  split.
  - destruct Hc as (Hl & _ & _). split_and!.
    + by apply list.Forall_take.
    + intros i c Hi. apply lookup_take_Some in Hi as [Hi Hlt].
      pose proof (lookup_lt_Some _ _ _ Hi). rewrite put8_other by lia. rewrite Hm. zcases.
      replace (Z.to_nat (s + Z.of_nat i - s)) with i by lia. by rewrite Hi.
    + rewrite length_take. unfold put8. zcases. rewrite Hm. zcases.
      rewrite lookup_ge_None_2; [done|]. lia.
  - intros x Hx. rewrite put8_other by lia. rewrite Hm. zcases.
Qed.

Definition str_mem : mem := fun x => nth (Z.to_nat (x - 100)) [115; 104; 101; 108; 108; 0] 7.

Lemma str_mem_cstr : cstr str_mem 100 [115; 104; 101; 108; 108].
Proof.
  split_and!; [repeat constructor; lia| |reflexivity].
  intros i c Hi. do 5 (destruct i as [|i]; [simpl in Hi; injection Hi as <-; reflexivity|]). done.
Qed.

Lemma safestrcpy_terminates_witness :
  cstr (safestrcpy str_mem 0 100 4) 0 [115; 104; 101] /\ safestrcpy str_mem 0 100 4 3 = 0.
Proof.
  split; [|vm_compute; reflexivity].
  apply (safestrcpy_terminates str_mem 0 100 4 [115; 104; 101; 108; 108]);
    [lia|exact str_mem_cstr|left; simpl; lia].
Defined.

Lemma strlen_from_spec fuel m s n l :
  cstr m (s + n) l -> (length l < fuel)%nat ->
  strlen_from fuel m s n = Some (n + Z.of_nat (length l)).
Proof.
  revert n l. induction fuel as [|f IH]; intros n l Hc Hf; [lia|]. cbn [strlen_from].
  destruct l as [|c l].
  - apply cstr_nil in Hc. rewrite Hc. simpl. f_equal. lia.
  - apply cstr_cons in Hc as (H0 & Hm & Hc). rewrite Hm. unfold nz.
    rewrite (proj2 (Z.eqb_neq c 0)) by lia. simpl.
    rewrite (IH (n + 1) l); [f_equal; lia| |simpl in Hf; lia].
    by replace (s + (n + 1)) with (s + n + 1) by lia.
Qed.

(** [strlen] counts the characters; a string of length [k] needs [k + 1] rounds. *)
Lemma strlen_spec fuel m s l :
  cstr m s l -> (length l < fuel)%nat -> strlen fuel m s = Some (Z.of_nat (length l)).
Proof. intros Hc Hf. unfold strlen. rewrite (strlen_from_spec _ _ _ _ l); [done|by rewrite Z.add_0_r|done]. Qed.

(** [field m p n l]: an [n]-byte field at [p] that spells [l], as a string or cut to
    [n] characters. *)
Definition field (m : mem) (p : Z) (n : nat) (l : list Z) : Prop :=
  Forall (fun c => 0 < c < 256) l /\
  forall i, (i < n)%nat -> (i <= length l)%nat -> m (p + Z.of_nat i) = default 0 (l !! i).

Lemma cstr_field m p n l : cstr m p l -> field m p n l.
Proof.
  intros (H1 & H2 & H3). split; [done|]. intros i Hi Hl.
  destruct (l !! i) eqn:E; simpl; [by apply H2|]. apply lookup_ge_None in E.
  replace i with (length l) by lia. done.
Qed.

Lemma field_cons m p n c l :
  field m p (S n) (c :: l) <-> 0 < c < 256 /\ m p = c /\ field m (p + 1) n l.
Proof.
  unfold field. rewrite list.Forall_cons. split.
  - intros [[Hc Hl] H]. refine (conj Hc (conj _ (conj Hl _))).
    + specialize (H 0%nat ltac:(lia) ltac:(simpl; lia)). by rewrite Z.add_0_r in H.
    + intros i Hi Hli. specialize (H (S i) ltac:(lia) ltac:(simpl; lia)). simpl in H.
      rewrite <- H. f_equal. lia.
  - intros (Hc & Hp & Hl & H). split; [done|]. intros [|i] Hi Hli; simpl; [by rewrite Z.add_0_r|].
    rewrite <- H by (simpl in Hli; lia). f_equal. lia.
Qed.

Lemma field_nil m p n : field m p (S n) [] -> m p = 0.
Proof. intros [_ H]. specialize (H 0%nat ltac:(lia) ltac:(simpl; lia)). by rewrite Z.add_0_r in H. Qed.

(** [strncmp] answers 0 exactly when two fields spell the same first [n] characters. *)
Lemma strncmp_fields n m1 m2 p q l1 l2 :
  field m1 p n l1 -> field m2 q n l2 ->
  strncmp m1 m2 p q n = 0 <-> take n l1 = take n l2.
Proof.
  revert p q l1 l2. induction n as [|n IH]; intros p q l1 l2 H1 H2; cbn [strncmp take]; [done|].
  destruct l1 as [|c l1]; [apply field_nil in H1; rewrite H1|
    apply field_cons in H1 as (Hc & H1 & Hf1); rewrite H1];
  (destruct l2 as [|d l2]; [apply field_nil in H2; rewrite H2|
    apply field_cons in H2 as (Hd & H2 & Hf2); rewrite H2]); simpl.
  - done.
  - rewrite !u8_small by (unfold is_u8; lia). split; [lia|done].
  - unfold nz. rewrite (proj2 (Z.eqb_neq c 0)) by lia. simpl.
    rewrite !u8_small by (unfold is_u8; lia). split; [lia|done].
  - unfold nz. rewrite (proj2 (Z.eqb_neq c 0)) by lia. simpl.
    destruct (Z.eqb_spec c d) as [->|Hne].
    + rewrite (IH _ _ l1 l2) by done. split; [by intros ->|by intros [= ->]].
    + rewrite !u8_small by (unfold is_u8; lia). split; [lia|by intros [= ->]].
Qed.

Lemma strncpy_field m s t n l :
  0 <= n -> cstr m t l -> apart s n t (Z.of_nat (length l) + 1) ->
  field (strncpy m s t n) s (Z.to_nat n) l.
Proof.
  intros Hn Hc Hap. split; [apply Hc|]. intros i Hi Hl.
  rewrite (strncpy_spec _ _ _ _ l) by done. zcases. do 2 f_equal. lia.
Qed.

(** Directory names survive the trip through a fixed-size field: after
    [strncpy] of the string [l1] into an [n]-byte field, [strncmp] of the field
    with a string [l2] answers 0 exactly if the two strings agree on their first
    [n] characters. This is how [dirlink] stores and [dirlookup] finds a name. *)
Theorem strncpy_strncmp_roundtrip m s t u n l1 l2 :
  0 <= n -> cstr m t l1 -> cstr m u l2 ->
  apart s n t (Z.of_nat (length l1) + 1) -> apart s n u (Z.of_nat (length l2) + 1) ->
  let m' := strncpy m s t n in
  strncmp m' m' s u (Z.to_nat n) = 0 <-> take (Z.to_nat n) l1 = take (Z.to_nat n) l2.
Proof.
  intros Hn H1 H2 A1 A2 m'. apply strncmp_fields; [by apply strncpy_field|].
  apply cstr_field. apply (cstr_agree m); [done|]. intros x Hx. subst m'.
  rewrite (strncpy_spec _ _ _ _ l1) by done. unfold apart in *. zcases.
Qed.

Lemma strncpy_strncmp_roundtrip_witness :
  strncmp (strncpy str_mem 0 100 14) (strncpy str_mem 0 100 14) 0 100 14 = 0.
Proof.
  apply (strncpy_strncmp_roundtrip str_mem 0 100 100 14
           [115; 104; 101; 108; 108] [115; 104; 101; 108; 108]);
    [lia|exact str_mem_cstr|exact str_mem_cstr|left; simpl; lia|left; simpl; lia|reflexivity].
Defined.

(** The [n] bytes [strncpy] writes when source and destination are distinct objects. *)
Definition strncpy_l (n : nat) (l : list Z) : list Z := take n (l ++ replicate n 0).

Lemma strncpy_bytes m s t n l :
  cstr m t l -> apart s (Z.of_nat n) t (Z.of_nat (length l) + 1) ->
  (fun i => strncpy m s t (Z.of_nat n) (s + Z.of_nat i)) <$> seq 0 n = strncpy_l n l.
Proof.
  intros Hc Hap. unfold strncpy_l. apply list_eq. intros i.
  rewrite list_lookup_fmap. destruct (decide (i < n)%nat) as [Hi|Hi].
  - rewrite lookup_seq_lt by done. simpl. rewrite lookup_take_lt by done.
    rewrite (strncpy_spec _ _ _ _ l) by (done || lia). zcases.
    replace (Z.to_nat (s + Z.of_nat i - s)) with i by lia.
    destruct (l !! i) eqn:E; simpl; [by rewrite lookup_app_l_Some with (x := z)|].
    apply lookup_ge_None in E. rewrite lookup_app_r, lookup_replicate_2 by lia. done.
  - rewrite lookup_seq_ge by lia. rewrite lookup_take_ge by lia. done.
Qed.
