(* ===== verification/Float32.v ===== *)
(** * Single-precision arithmetic for the fair-share scheduler

    [float] is IEEE binary32 with round to nearest even, as specified by the
    standard library's [SpecFloat]. The scheduler converts two [uint]s, divides
    and compares; the lemmas show that what it compares is never a NaN and is
    totally ordered. *)

From Stdlib Require Export SpecFloat.
From S2P Require Import Prelude.

Definition f32 : Type := spec_float.
Definition f32_of_uint (z : Z) : f32 := binary_normalize 24 128 z 0 false.
Definition f32_div (x y : f32) : f32 := SFdiv 24 128 x y.
Definition f32_zero : f32 := S754_zero false.
Definition f32_minus_one : f32 := SFopp (f32_of_uint 1).

(** Numbers that are not below zero; no NaN. *)
Definition nonneg (x : f32) : bool :=
  match x with
  | S754_zero _ => true
  | S754_finite s _ _ | S754_infinity s => negb s
  | S754_nan => false
  end.

Definition finite (x : f32) : bool :=
  match x with S754_zero _ | S754_finite _ _ _ => true | _ => false end.

(** ** Rounding keeps the sign and, for small mantissas, is finite *)

Definition shr_in (B : Z) (r : shr_record) : Prop := 0 <= shr_m r <= B.

Lemma shr_1_in B r : shr_in B r -> shr_in B (shr_1 r).
Proof. destruct r as [[|[p|p|]|p] r s]; unfold shr_in; simpl; lia. Qed.

Lemma iter_pos_in B p r : shr_in B r -> shr_in B (SpecFloat.iter_pos shr_1 p r).
Proof.
  revert r. induction p as [p IH|p IH|]; intros r Hr; simpl.
  - apply IH, IH. by apply shr_1_in.
  - apply IH, IH, Hr.
  - by apply shr_1_in.
Qed.

Lemma shr_fexp_in m e l r e' :
  0 <= m -> shr_fexp 24 128 m e l = (r, e') ->
  shr_in m r /\ (e' = e \/ e' = fexp 24 128 (Zdigits2 m + e)).
Proof.
  unfold shr_fexp, shr. intros Hm.
  assert (shr_in m (shr_record_of_loc m l)) as Hr.
  { unfold shr_in. destruct l as [|[]]; simpl; lia. }
  destruct (fexp 24 128 (Zdigits2 m + e) - e) eqn:E; intros [= <- <-].
  - auto.
  - split; [by apply iter_pos_in|]. right. lia.
  - auto.
Qed.

Lemma round_nearest_even_in m l : 0 <= m -> m <= round_nearest_even m l <= m + 1.
Proof. destruct l as [|[]]; simpl; try lia. destruct (Z.even m); lia. Qed.

Lemma round_aux_nonneg m e l : 0 <= m -> nonneg (binary_round_aux 24 128 false m e l) = true.
Proof.
  intros Hm. unfold binary_round_aux.
  destruct (shr_fexp 24 128 m e l) as [r1 e1] eqn:E1.
  apply shr_fexp_in in E1 as [H1 _]; [|done].
  pose proof (round_nearest_even_in (shr_m r1) (loc_of_shr_record r1) ltac:(apply H1)) as H2.
  destruct (shr_fexp 24 128 _ e1 loc_Exact) as [r2 e2] eqn:E2.
  unfold shr_in in H1. apply shr_fexp_in in E2 as [H3 _]; [|lia].
  unfold shr_in in H3. destruct (shr_m r2); simpl; try done; [|lia].
  destruct (_ <=? _); done.
Qed.

Lemma digits2_pos_size p : digits2_pos p = Pos.size p.
Proof. induction p; simpl; congruence. Qed.

Lemma Zdigits2_le m n : 0 <= m < 2 ^ n -> 0 <= n -> Zdigits2 m <= n.
Proof.
  intros Hm Hn. destruct m as [|p|p]; simpl; [lia| |lia].
  rewrite digits2_pos_size. pose proof (Pos.size_le p) as H.
  destruct (Z.le_gt_cases (Z.pos (Pos.size p)) n) as [|Hgt]; [done|].
  assert (2 ^ (n + 1) <= 2 ^ Z.pos (Pos.size p)) as H2 by (apply Z.pow_le_mono_r; lia).
  rewrite Z.pow_add_r in H2 by lia. rewrite <- Pos2Z.inj_pow in H2. lia.
Qed.

Lemma round_aux_exact m e l :
  0 <= m -> fexp 24 128 (Zdigits2 m + e) = e -> e <= 104 -> l = loc_Exact ->
  finite (binary_round_aux 24 128 false m e l) = true.
Proof.
  intros Hm He Hle ->. unfold binary_round_aux, shr_fexp. rewrite He, Z.sub_diag. simpl.
  rewrite He, Z.sub_diag. simpl. destruct m; try done.
  rewrite (proj2 (Z.leb_le e _)) by lia. done.
Qed.

Lemma round_aux_small m :
  0 <= m < 2 ^ 32 -> finite (binary_round_aux 24 128 false m 0 loc_Exact) = true.
Proof.
  intros Hm. unfold binary_round_aux.
  destruct (shr_fexp 24 128 m 0 loc_Exact) as [r1 e1] eqn:E1.
  apply shr_fexp_in in E1 as [H1 He1]; [|lia].
  pose proof (Zdigits2_le m 32 Hm ltac:(lia)) as D1.
  assert (e1 <= 8) as Hb1 by (unfold fexp, emin in He1; lia).
  pose proof (round_nearest_even_in (shr_m r1) (loc_of_shr_record r1) ltac:(apply H1)) as H2.
  destruct (shr_fexp 24 128 _ e1 loc_Exact) as [r2 e2] eqn:E2.
  unfold shr_in in H1. apply shr_fexp_in in E2 as [H3 He2]; [|lia].
  pose proof (Zdigits2_le (round_nearest_even (shr_m r1) (loc_of_shr_record r1)) 33 ltac:(lia) ltac:(lia)) as D2.
  assert (e2 <= 104) as Hb2 by (unfold fexp, emin in He2; lia).
  unfold shr_in in H3. destruct (shr_m r2); [done| |lia].
  rewrite (proj2 (Z.leb_le e2 (128 - 24))); [done|lia].
Qed.

Lemma digits2_iter_xO p d : digits2_pos (Pos.iter xO p d) = (digits2_pos p + d)%positive.
Proof.
  induction d as [|d IH] using Pos.peano_ind; simpl; [lia|].
  rewrite Pos.iter_succ. simpl. rewrite IH. lia.
Qed.

Lemma f32_of_uint_ok z : is_u32 z -> nonneg (f32_of_uint z) = true /\ finite (f32_of_uint z) = true.
Proof.
  unfold is_u32, f32_of_uint. intros Hz. destruct z as [|p|p]; simpl; [done| |lia].
  unfold binary_round, shl_align. rewrite Z.add_0_r, Z.sub_0_r.
  destruct (fexp 24 128 (Z.pos (digits2_pos p))) eqn:E;
    (split; [by apply round_aux_nonneg|]); [by apply round_aux_small..|].
  apply round_aux_exact; [lia| |lia|done]. simpl Zdigits2. rewrite digits2_iter_xO, <- E. f_equal. lia.
Qed.

(** The quotient of two converted [uint]s, the divisor not zero. *)
Lemma f32_div_ok x y :
  nonneg x = true -> finite x = true -> nonneg y = true -> finite y = true ->
  SFeqb y f32_zero = false -> nonneg (f32_div x y) = true.
Proof.
  unfold f32_div. destruct x as [|s| |s m e], y as [|s'| |s' m' e']; try done; simpl;
    intros Hs _ Hs' _ Hz.
  apply negb_true_iff in Hs, Hs'. subst. unfold SFdiv.
  unfold SFdiv_core_binary.
  set (num := match _ with Z0 => _ | Zpos _ => _ | Zneg _ => _ end).
  assert (0 <= num) as Hnum.
  { subst num. destruct (_ - _ - _); [lia| |lia]. apply Z.shiftl_nonneg. lia. }
  destruct (Z.div_eucl num (Z.pos m')) as [q r] eqn:Eq. apply round_aux_nonneg.
  replace q with (num / Z.pos m') by (unfold Z.div; by rewrite Eq). apply Z.div_pos; lia.
Qed.

(** ** Order *)

Definition f32_le (x y : f32) : Prop := SFltb y x = false.

(** The order of non-negative numbers, by exponent and mantissa. *)
Definition key (x : f32) : Z * Z * Z :=
  match x with
  | S754_zero _ => (0, 0, 0)
  | S754_finite _ m e => (1, e, Z.pos m)
  | S754_infinity _ => (2, 0, 0)
  | S754_nan => (3, 0, 0)
  end.

Definition key_lt (a b : Z * Z * Z) : Prop :=
  let '(a1, a2, a3) := a in let '(b1, b2, b3) := b in
  a1 < b1 \/ (a1 = b1 /\ (a2 < b2 \/ (a2 = b2 /\ a3 < b3))).

Lemma SFltb_key x y :
  nonneg x = true -> nonneg y = true -> SFltb x y = true <-> key_lt (key x) (key y).
Proof.
  destruct x as [s|s| |s m e], y as [s'|s'| |s' m' e']; simpl; try done;
    rewrite ?negb_true_iff; intros; subst; unfold SFltb, key_lt; simpl;
    try (split; [intros; first [done|lia]|intros; first [done|lia]]).
  destruct (Z.compare_spec e e') as [->|Hl|Hg].
  - change (Pos.compare_cont Eq m m') with (Pos.compare m m').
    destruct (Pos.compare_spec m m'); split; intros; first [done|lia].
  - split; intros; [lia|done].
  - split; intros; [done|lia].
Qed.

Lemma f32_le_key x y :
  nonneg x = true -> nonneg y = true -> f32_le x y <-> ~ key_lt (key y) (key x).
Proof.
  intros Hx Hy. unfold f32_le. rewrite <- SFltb_key by done.
  destruct (SFltb y x); split; intros H; congruence.
Qed.

Lemma key_trans a b c : ~ key_lt b a -> ~ key_lt c b -> ~ key_lt c a.
Proof. destruct a as [[] ?], b as [[] ?], c as [[] ?]. unfold key_lt. lia. Qed.

Lemma key_lt_le_trans a b c : key_lt a b -> ~ key_lt c b -> key_lt a c.
Proof. destruct a as [[] ?], b as [[] ?], c as [[] ?]. unfold key_lt. lia. Qed.

Lemma key_irrefl a : ~ key_lt a a.
Proof. destruct a as [[] ?]. unfold key_lt. lia. Qed.

Lemma key_lt_asym a b : key_lt a b -> ~ key_lt b a.
Proof. destruct a as [[] ?], b as [[] ?]. unfold key_lt. lia. Qed.

Lemma nonneg_not_minus_one x : nonneg x = true -> SFeqb x f32_minus_one = false.
Proof. by destruct x as [|[]| |[]]. Qed.
