(* ===== verification/Locks.v ===== *)
(** * Spinlocks and interrupt nesting ([spinlock.c])

    [Module Spin] has the routines as the kernel calls them, in the kernel
    monad, with the lemmas the other components use to run through an
    [acquire]/[release] pair. [Module Smp] has the same routines statement by
    statement, run by any number of processors at once, and shows that a lock
    excludes. *)

From S2P Require Import Prelude Params State.

Module Spin.

Definition readeflags_if : K bool := gets (fun s => eflags_if (k_cpu s)).
Definition cli : K unit := modify (fun s => s <| k_cpu ::= fun c => c <| eflags_if := false |> |>).
Definition sti : K unit := modify (fun s => s <| k_cpu ::= fun c => c <| eflags_if := true |> |>).

Definition pushcli : K unit :=
  eflags <- readeflags_if ;;
  cli ;;
  n <- gets (fun s => ncli (k_cpu s)) ;;
  when (n =? 0) (modify (fun s => s <| k_cpu ::= fun c => c <| intena := eflags |> |>)) ;;
  modify (fun s => s <| k_cpu ::= fun c => c <| ncli ::= fun n => n + 1 |> |>).

Definition popcli : K unit :=
  fl <- readeflags_if ;;
  if fl : bool then panic "popcli - interruptible" else
  modify (fun s => s <| k_cpu ::= fun c => c <| ncli ::= fun n => n - 1 |> |>) ;;
  c <- gets k_cpu ;;
  if ncli c <? 0 then panic "popcli" else
  if (ncli c =? 0) && intena c then sti else ret tt.

Definition initlock (lk : lockid) : K unit := modify (fun s => s <| k_locks ::= delete lk |>).

(** Is this processor holding the lock? *)
Definition holding (lk : lockid) : K bool :=
  s <- get ;; ret (bool_decide (k_locks s !! lk = Some (k_cpuid s))).

Definition acquire (lk : lockid) : K unit :=
  pushcli ;;
  h <- holding lk ;;
  if h : bool then panic "acquire" else
  s <- get ;;
  match k_locks s !! lk with
  | Some _ => spin
  | None => modify (fun s => s <| k_locks ::= <[lk := k_cpuid s]> |>)
  end.

Definition release (lk : lockid) : K unit :=
  h <- holding lk ;;
  if negb h then panic "release" else
  modify (fun s => s <| k_locks ::= delete lk |>) ;;
  popcli.

(** ** What the routines do to the processor *)

Definition push (c : cpu) : cpu :=
  mkCpu (ncli c + 1) (if ncli c =? 0 then eflags_if c else intena c) false.

Definition pop (c : cpu) : cpu :=
  mkCpu (ncli c - 1) (intena c) ((ncli c =? 1) && intena c).

(** A matched pair records the interrupt flag at depth 0 and changes nothing else. *)
Definition settle (c : cpu) : cpu :=
  mkCpu (ncli c) (if ncli c =? 0 then eflags_if c else intena c) (eflags_if c).

(** Interrupts are off whenever the nesting depth is positive. *)
Definition cpu_wf (c : cpu) : Prop := 0 <= ncli c /\ (0 < ncli c -> eflags_if c = false).

Definition lock_st (lk : lockid) (s : kst) : kst :=
  s <| k_cpu ::= push |> <| k_locks ::= <[lk := k_cpuid s]> |>.

Definition unlock_st (lk : lockid) (s : kst) : kst :=
  s <| k_locks ::= delete lk |> <| k_cpu ::= pop |>.

Lemma push_wf c : cpu_wf c -> cpu_wf (push c).
Proof. unfold cpu_wf, push. simpl. lia. Qed.

Lemma pop_wf c : cpu_wf c -> 0 < ncli c -> cpu_wf (pop c).
Proof.
  unfold cpu_wf, pop. simpl. intros [H1 H2] H3. split; [lia|]. intros H4.
  destruct (Z.eqb_spec (ncli c) 1); [lia|done].
Qed.

Lemma pop_push c : cpu_wf c -> pop (push c) = settle c.
Proof.
  destruct c as [n i e]. unfold cpu_wf, pop, push, settle. simpl. intros [H1 H2].
  destruct (Z.eqb_spec n 0) as [->|Hn]; simpl.
  - f_equal.
  - replace (n + 1 =? 1) with false by (symmetry; apply Z.eqb_neq; lia).
    simpl. rewrite H2 by lia. f_equal. lia.
Qed.

Lemma settle_settle c : settle (settle c) = settle c.
Proof. unfold settle. simpl. by destruct (ncli c =? 0). Qed.

Lemma settle_wf c : cpu_wf (settle c) <-> cpu_wf c.
Proof. done. Qed.

Lemma push_settle c : push (settle c) = push c.
Proof. unfold settle, push. simpl. by destruct (ncli c =? 0). Qed.

Lemma pushcli_run s : pushcli s = Ok tt (s <| k_cpu ::= push |>).
Proof.
  destruct s as [? [n i e]]. unfold pushcli, readeflags_if, cli, gets, modify, bind, when. simpl.
  unfold push, set, set_k_cpu. simpl. destruct (n =? 0); reflexivity.
Qed.

Lemma popcli_run s :
  cpu_wf (k_cpu s) -> 0 < ncli (k_cpu s) -> popcli s = Ok tt (s <| k_cpu ::= pop |>).
Proof.
  destruct s as [? [n i e]]. unfold cpu_wf. simpl. intros [H1 H2] H3.
  rewrite H2 by done. unfold popcli, readeflags_if, sti, gets, modify, bind. simpl.
  destruct (Z.ltb_spec (n - 1) 0); [lia|].
  unfold pop, set, set_k_cpu, set_eflags_if. simpl.
  replace (n - 1 =? 0) with (n =? 1) by (destruct (Z.eqb_spec n 1), (Z.eqb_spec (n - 1) 0); lia).
  destruct (n =? 1), i; done.
Qed.

Lemma acquire_run lk s :
  k_locks s !! lk = None -> acquire lk s = Ok tt (lock_st lk s).
Proof.
  intros H. unfold acquire. rewrite (bind_ok _ _ _ _ _ (pushcli_run s)).
  unfold holding, get, bind, ret. simpl. rewrite H.
  rewrite bool_decide_eq_false_2 by done. simpl. rewrite H. done.
Qed.

(** Taking a lock the processor already holds stops the kernel. *)
Lemma acquire_held lk s :
  k_locks s !! lk = Some (k_cpuid s) -> exists s', acquire lk s = Panic "acquire" s'.
Proof.
  intros H. unfold acquire. rewrite (bind_ok _ _ _ _ _ (pushcli_run s)).
  unfold holding, get, bind, ret. simpl. rewrite H.
  rewrite bool_decide_eq_true_2 by done. eauto.
Qed.

Lemma holding_run lk s : holding lk s = Ok (bool_decide (k_locks s !! lk = Some (k_cpuid s))) s.
Proof. done. Qed.

Lemma release_run lk s :
  k_locks s !! lk = Some (k_cpuid s) -> cpu_wf (k_cpu s) -> 0 < ncli (k_cpu s) ->
  release lk s = Ok tt (unlock_st lk s).
Proof.
  intros H Hwf Hn. unfold release. rewrite (bind_ok _ _ _ _ _ (holding_run lk s)).
  rewrite bool_decide_eq_true_2 by done. unfold modify, bind. simpl.
  rewrite popcli_run by done. done.
Qed.

(** A lock is free and the processor's nesting is sane: what [acquire] needs. *)
Definition unlocked (lk : lockid) (s : kst) : Prop :=
  k_locks s !! lk = None /\ cpu_wf (k_cpu s).

(** The [release] that ends a critical section entered from [s]. *)
Lemma release_acquired lk s s1 :
  k_locks s !! lk = None -> cpu_wf (k_cpu s) ->
  k_cpuid s1 = k_cpuid s -> k_locks s1 = <[lk := k_cpuid s]> (k_locks s) ->
  k_cpu s1 = push (k_cpu s) ->
  release lk s1 = Ok tt (s1 <| k_locks := k_locks s |> <| k_cpu := settle (k_cpu s) |>).
Proof.
  intros H Hwf HI HL HC. rewrite release_run.
  - unfold unlock_st, set, set_k_locks, set_k_cpu. simpl.
    rewrite HL, HC, delete_insert_id, pop_push by done. done.
  - rewrite HL, HI. apply lookup_insert_eq.
  - rewrite HC. by apply push_wf.
  - rewrite HC. simpl. destruct Hwf. lia.
Qed.

(** What a critical section whose lock is taken only if [ul] does to the processor. *)
Definition lcpu (ul : bool) (c : cpu) : cpu := if ul then settle c else c.

Lemma lcpu_wf b c : cpu_wf c -> cpu_wf (lcpu b c).
Proof. destruct b; [by intros ?%settle_wf|done]. Qed.

(** Nested in another critical section, the processor does not change at all. *)
Lemma settle_nested c : 0 < ncli c -> settle c = c.
Proof. destruct c as [n i e]. unfold settle. simpl. intros H. by rewrite (proj2 (Z.eqb_neq n 0)) by lia. Qed.

Lemma lcpu_nested b c : 0 < ncli c -> lcpu b c = c.
Proof. destruct b; [apply settle_nested|done]. Qed.

(** [acquire] returns only from a free lock. *)
Lemma acquire_inv lk s u s' :
  acquire lk s = Ok u s' -> k_locks s !! lk = None /\ s' = lock_st lk s.
Proof.
  intros H. destruct (k_locks s !! lk) as [c|] eqn:E.
  - unfold acquire in H. rewrite (bind_ok _ _ _ _ _ (pushcli_run s)) in H.
    unfold holding, get, bind, ret in H. simpl in H. rewrite E in H.
    destruct (bool_decide _) in H; [done|]. simpl in H. by rewrite E in H.
  - rewrite acquire_run in H by done. injection H as _ <-. done.
Qed.

(** [release] touches only the lock and the processor. *)
Lemma release_inv lk s u s' :
  release lk s = Ok u s' ->
  k_locks s !! lk = Some (k_cpuid s) /\
  exists c, s' = s <| k_locks ::= delete lk |> <| k_cpu := c |>.
Proof.
  unfold release. intros H. rewrite (bind_ok _ _ _ _ _ (holding_run lk s)) in H.
  case_bool_decide as E; simpl in H; [|done]. split; [done|].
  rewrite bind_modify in H. unfold popcli, readeflags_if, sti in H. rewrite bind_gets in H.
  destruct (eflags_if _) in H; [done|]. rewrite bind_modify, bind_gets in H.
  destruct (_ <? 0) in H; [done|].
  destruct (_ && _) in H; injection H as _ <-; eexists; by destruct s.
Qed.

(** Nesting: [n] calls of [popcli] undo [n] calls of [pushcli]; interrupts stay
    off in between, and come back exactly if they were on. *)
Fixpoint pushcli_n (n : nat) : K unit :=
  match n with O => ret tt | S n' => pushcli ;; pushcli_n n' end.

Fixpoint popcli_n (n : nat) : K unit :=
  match n with O => ret tt | S n' => popcli ;; popcli_n n' end.

Lemma pushcli_n_run n s :
  pushcli_n n s = Ok tt (s <| k_cpu ::= Nat.iter n push |>).
Proof.
  revert s. induction n as [|n IH]; intros s; simpl; [by destruct s|].
  rewrite (bind_ok _ _ _ _ _ (pushcli_run s)), IH.
  destruct s. unfold set, set_k_cpu. simpl. by rewrite <- Nat.iter_succ_r.
Qed.

Lemma iter_push_ncli n c : ncli (Nat.iter n push c) = ncli c + Z.of_nat n.
Proof. induction n as [|n IH]; simpl Nat.iter; simpl ncli; [lia|]. rewrite IH. lia. Qed.

Lemma iter_push_wf n c : cpu_wf c -> cpu_wf (Nat.iter n push c).
Proof. intros H. induction n; simpl; [done|]. by apply push_wf. Qed.

(** Nested pairs collapse to one: the inner ones record nothing. *)
Lemma pop_push_push c : cpu_wf c -> pop (push (push c)) = push c.
Proof.
  intros [H1 H2]. unfold pop, push. simpl.
  replace (ncli c + 1 =? 0) with false by (symmetry; apply Z.eqb_neq; lia).
  replace (ncli c + 1 + 1 =? 1) with false by (symmetry; apply Z.eqb_neq; lia).
  simpl. f_equal. lia.
Qed.

Lemma popcli_n_run n s c :
  cpu_wf c -> k_cpu s = Nat.iter n push c ->
  popcli_n n s = Ok tt (s <| k_cpu := if (n =? 0)%nat then c else settle c |>).
Proof.
  revert s. induction n as [|n IH]; intros s Hwf Hc; simpl.
  { destruct s. simpl in *. by subst. }
  erewrite bind_ok; [|apply popcli_run; rewrite Hc].
  2:{ by apply iter_push_wf. }
  2:{ rewrite iter_push_ncli. destruct Hwf. lia. }
  destruct n as [|n].
  - simpl in *. unfold ret. f_equal. destruct s. unfold set, set_k_cpu. simpl in *. subst.
    by rewrite pop_push.
  - rewrite IH; [by destruct s|done|].
    destruct s. unfold set, set_k_cpu. simpl in *. subst.
    apply pop_push_push. by apply iter_push_wf.
Qed.

(** [pushcli] and [popcli] nest: after [n+1] calls of [pushcli] interrupts are
    off at depth [n+1] more than before, and [n+1] calls of [popcli] bring back the
    interrupt flag and the depth the processor had, without any [panic]; the pair
    leaves the rest of the kernel alone. *)
Theorem pushcli_popcli_nest n s :
  cpu_wf (k_cpu s) ->
  exists s', pushcli_n (S n) s = Ok tt s' /\
    eflags_if (k_cpu s') = false /\
    ncli (k_cpu s') = ncli (k_cpu s) + Z.of_nat (S n) /\
    popcli_n (S n) s' = Ok tt (s <| k_cpu ::= settle |>) /\
    eflags_if (settle (k_cpu s)) = eflags_if (k_cpu s).
Proof.
  intros Hwf. exists (s <| k_cpu ::= Nat.iter (S n) push |>).
  split_and!; [apply pushcli_n_run|done|apply (iter_push_ncli (S n))| |done].
  rewrite (popcli_n_run (S n) _ (k_cpu s)); [by destruct s|done|done].
Qed.

Lemma pushcli_popcli_nest_witness :
  cpu_wf (k_cpu (kst0 (fun _ => []))) /\
  exists s', pushcli_n 2 (kst0 (fun _ => [])) = Ok tt s' /\ eflags_if (k_cpu s') = false.
Proof.
  assert (cpu_wf (k_cpu (kst0 (fun _ => [])))) as H by (split; simpl; [lia|lia]).
  split; [exact H|].
  destruct (pushcli_popcli_nest 1 _ H) as (s' & H1 & H2 & _). exists s'. split; assumption.
Defined.

End Spin.

(** ** Several processors and one lock

    The statements of [acquire] and [release] that touch the lock are separate
    atomic steps: the [holding] test, the [xchg], the store to [lk->cpu], its
    clearing, and the final store to [lk->locked]. *)

Module Smp.

(** [struct spinlock]; [lk_cpu] is [None] for the null pointer. *)
Record spinlock := mkSpinlock { lk_locked : Z; lk_cpu : option nat }.

(** Where a processor is: outside; spinning on the [xchg] of [acquire]; past
    the [xchg] that returned 0; past the store to [lk->cpu], in the critical
    section; in [release] with [lk->cpu] cleared. *)
Inductive pc := Outside | Spinning | Won | Inside | Leaving.

#[export] Instance pc_eq_dec : EqDecision pc.
Proof. solve_decision. Defined.

Record machine := mkMachine { mlock : spinlock; mpc : nat -> pc }.

Definition goto (c : nat) (l : pc) (f : nat -> pc) : nat -> pc :=
  fun c' => if decide (c' = c) then l else f c'.

Definition holding (c : nat) (lk : spinlock) : bool :=
  nz (lk_locked lk) && bool_decide (lk_cpu lk = Some c).

Definition initlock : spinlock := mkSpinlock 0 None.

(** The next statement of processor [c]; [None] is a [panic]. *)
Definition step (c : nat) (m : machine) : option machine :=
  let lk := mlock m in
  match mpc m c with
  | Outside =>
      if holding c lk then None else Some (mkMachine lk (goto c Spinning (mpc m)))
  | Spinning =>
      let old := lk_locked lk in
      let lk' := mkSpinlock 1 (lk_cpu lk) in
      Some (mkMachine lk' (if old =? 0 then goto c Won (mpc m) else mpc m))
  | Won => Some (mkMachine (mkSpinlock (lk_locked lk) (Some c)) (goto c Inside (mpc m)))
  | Inside =>
      if holding c lk
      then Some (mkMachine (mkSpinlock (lk_locked lk) None) (goto c Leaving (mpc m)))
      else None
  | Leaving => Some (mkMachine (mkSpinlock 0 (lk_cpu lk)) (goto c Outside (mpc m)))
  end.

Inductive reachable : machine -> Prop :=
| reach_init : reachable (mkMachine initlock (fun _ => Outside))
| reach_step c m m' : reachable m -> step c m = Some m' -> reachable m'.

Definition owns (l : pc) : bool :=
  match l with Won | Inside | Leaving => true | _ => false end.

(** The lock is free and unowned, or it is locked and exactly one processor owns it,
    and [lk->cpu] names that processor exactly while it is in the critical section. *)
Definition inv (m : machine) : Prop :=
  (mlock m = mkSpinlock 0 None /\ forall c, owns (mpc m c) = false) \/
  (exists c, owns (mpc m c) = true /\ (forall c', c' <> c -> owns (mpc m c') = false) /\
     mlock m = mkSpinlock 1 (if decide (mpc m c = Inside) then Some c else None)).

Lemma goto_eq c l f : goto c l f c = l.
Proof. unfold goto. by rewrite decide_True. Qed.

Lemma goto_ne c c' l f : c' <> c -> goto c l f c' = f c'.
Proof. intros H. unfold goto. by rewrite decide_False. Qed.

Lemma owns_goto c c' l f :
  owns (goto c l f c') = if decide (c' = c) then owns l else owns (f c').
Proof. unfold goto. by case_decide. Qed.

Lemma reachable_inv m : reachable m -> inv m.
Proof.
  induction 1 as [|c m m' _ IH Hs]; [by left|].
  destruct m as [lk f]. unfold step in Hs. simpl in *.
  destruct IH as [[Hlk Hno]|(o & Ho & Hother & Hlk)]; simpl in *; subst lk.
  - specialize (Hno c) as Hc. destruct (f c) eqn:Ef; simpl in *; try discriminate.
    + injection Hs as <-. left. split; [done|]. intros c'. simpl. rewrite owns_goto.
      by case_decide.
    + injection Hs as <-. right. exists c. simpl. rewrite goto_eq. split_and!; [done| |done].
      intros c' Hne. rewrite goto_ne; auto.
  - destruct (decide (c = o)) as [->|Hne].
    + destruct (f o) eqn:Ef; simpl in *; try discriminate.
      * injection Hs as <-. right. exists o. simpl. rewrite goto_eq. split_and!; [done| |done].
        intros c' Hne. rewrite goto_ne; auto.
      * unfold holding in Hs. simpl in Hs. rewrite bool_decide_eq_true_2 in Hs by done.
        injection Hs as <-. right. exists o. simpl. rewrite goto_eq. split_and!; [done| |done].
        intros c' Hne. rewrite goto_ne; auto.
      * injection Hs as <-. left. split; [done|]. intros c'. simpl. rewrite owns_goto.
        case_decide; [done|]. auto.
    + specialize (Hother c Hne) as Hc. destruct (f c) eqn:Ef; simpl in *; try discriminate.
      * destruct (holding c _); [discriminate|]. injection Hs as <-. right. exists o. simpl.
        rewrite goto_ne by auto. split_and!; auto.
        intros c' Hc'. rewrite owns_goto. case_decide; auto.
      * injection Hs as <-. right. exists o. auto.
Qed.

(** C7. Spinlocks exclude. In every state any number of processors can reach by
    interleaving the statements of [acquire] and [release], at most one of them
    is between the winning [xchg] and the store that frees the lock; [holding]
    answers yes exactly on the processor that is in the critical section; and no
    processor runs into the panics of [acquire] and [release]. *)
Theorem spinlock_excludes m :
  reachable m ->
  (forall c1 c2, owns (mpc m c1) = true -> owns (mpc m c2) = true -> c1 = c2) /\
  (forall c, holding c (mlock m) = true <-> mpc m c = Inside) /\
  (forall c, step c m <> None).
Proof.
  intros [[Hlk Hno]|(o & Ho & Hother & Hlk)]%reachable_inv.
  - split_and!.
    + intros c1 c2 H1. by rewrite Hno in H1.
    + intros c. rewrite Hlk. split; [done|]. intros Hc. specialize (Hno c). by rewrite Hc in Hno.
    + intros c. unfold step. rewrite Hlk. specialize (Hno c). by destruct (mpc m c).
  - assert (forall c, holding c (mlock m) = true <-> mpc m c = Inside) as Hh.
    { intros c. rewrite Hlk. unfold holding. simpl. rewrite bool_decide_eq_true.
      case_decide as Hi; split.
      - intros [= ->]. done.
      - intros Hc. destruct (decide (c = o)) as [->|Hne]; [done|].
        specialize (Hother c Hne). by rewrite Hc in Hother.
      - done.
      - intros Hc. destruct (decide (c = o)) as [->|Hne]; [done|].
        specialize (Hother c Hne). by rewrite Hc in Hother. }
    split_and!; [|exact Hh|].
    + intros c1 c2 H1 H2.
      destruct (decide (c1 = o)) as [->|N1]; [|by rewrite Hother in H1].
      destruct (decide (c2 = o)) as [->|N2]; [done|by rewrite Hother in H2].
    + intros c. unfold step. specialize (Hh c). destruct (mpc m c) eqn:E; try done.
      * destruct (holding c (mlock m)); [|done]. by apply Hh in E || (destruct Hh as [Hh _]; specialize (Hh eq_refl)).
      * destruct (holding c (mlock m)); [done|]. destruct Hh as [_ Hh]. by specialize (Hh eq_refl).
Qed.

(** Processor 1 takes the lock while processor 2 spins. *)
Definition contended : machine :=
  mkMachine (mkSpinlock 1 (Some 1%nat)) (goto 1%nat Inside (goto 1%nat Won (goto 2%nat Spinning (goto 1%nat Spinning (fun _ => Outside))))).

Lemma contended_reachable : reachable contended.
Proof.
  exact (reach_step 2%nat _ _ (reach_step 1%nat _ _ (reach_step 1%nat _ _
    (reach_step 2%nat _ _ (reach_step 1%nat _ _ reach_init eq_refl) eq_refl) eq_refl) eq_refl) eq_refl).
Qed.

Lemma spinlock_excludes_witness :
  reachable contended /\ holding 1%nat (mlock contended) = true /\
  holding 2%nat (mlock contended) = false /\ step 2%nat contended <> None.
Proof.
  split; [exact contended_reachable|].
  split; [apply (spinlock_excludes contended contended_reachable); reflexivity|].
  split; [reflexivity|].
  apply (spinlock_excludes contended contended_reachable).
Defined.

End Smp.
