(* ===== verification/Printf.v ===== *)
(** * Formatted output: [cprintf] of [console.c] and [printf] of the user library

    The console is the sequence of characters given to [consputc]; the screen
    that shows them is in [Console]. *)

From S2P Require Import Prelude Params State Locks.
Import Spin.

(** The characters of a string literal. *)
Fixpoint str (s : string) : list Z :=
  match s with
  | EmptyString => []
  | String c s' => Z.of_N (Ascii.N_of_ascii c) :: str s'
  end.

(** An argument: an [int], or a pointer to a string, [None] for a null one. *)
Inductive parg := PInt (z : Z) | PStr (s : option (list Z)).

(** ** Numbers *)

Definition digits : list Z := str "0123456789abcdef".
Definition DIGITS : list Z := str "0123456789ABCDEF".

(** [do buf[i++] = digits[x % base]; while((x /= base) != 0);]. A [uint] has at
    most 32 digits in any base. *)
Fixpoint digit_loop (digits : list Z) (fuel : nat) (x base : Z) : list Z :=
  match fuel with
  | O => []
  | S f =>
      default 0 (digits !! Z.to_nat (x mod base)) ::
      (let x' := x / base in if x' =? 0 then [] else digit_loop digits f x' base)
  end.

(** The contents of [buf] when the loop is done; [neg] is [sign] after its test. *)
Definition printint_buf (digits : list Z) (xx base : Z) (sign : bool) : list Z :=
  let neg := sign && (xx <? 0) in
  let x := if neg then u32 (- xx) else u32 xx in
  digit_loop digits 32 x base ++ (if neg then [45] else []).

Definition BUFLEN : nat := 16.

(** ** The kernel's printer *)

Definition consputc (c : Z) : K unit := modify (fun s => s <| k_out ::= cons c |>).

Definition printint (xx base : Z) (sign : bool) : K unit :=
  let buf := printint_buf digits xx base sign in
  if (BUFLEN <? length buf)%nat then fault "printint: buf" else
  for_each (rev buf) consputc.

(** The loop over [fmt], which ends at the end of the list (the NUL). Taking an
    argument that was not passed is undefined. *)
Fixpoint cprintf_loop (fmt : list Z) (args : list parg) : K unit :=
  match fmt with
  | [] => ret tt
  | c :: fmt' =>
      if negb (c =? 37) then consputc c ;; cprintf_loop fmt' args else
      match fmt' with
      | [] => ret tt
      | c :: fmt' =>
          if c =? 100 then
            match args with
            | PInt z :: args' => printint z 10 true ;; cprintf_loop fmt' args'
            | _ => fault "cprintf: argument"
            end
          else if (c =? 120) || (c =? 112) then
            match args with
            | PInt z :: args' => printint z 16 false ;; cprintf_loop fmt' args'
            | _ => fault "cprintf: argument"
            end
          else if c =? 115 then
            match args with
            | PStr o :: args' =>
                for_each (default (str "(null)") o) consputc ;; cprintf_loop fmt' args'
            | _ => fault "cprintf: argument"
            end
          else if c =? 37 then consputc 37 ;; cprintf_loop fmt' args
          else consputc 37 ;; consputc c ;; cprintf_loop fmt' args
      end
  end.

Definition cprintf (fmt : list Z) (args : list parg) : K unit :=
  locking <- gets k_locking ;;
  when locking (acquire LCons) ;;
  cprintf_loop fmt args ;;
  when locking (release LCons).

(** Printing a sequence of characters. *)
Lemma putc_run l s : for_each l consputc s = Ok tt (s <| k_out ::= app (rev l) |>).
Proof.
  revert s. induction l as [|c l IH]; intros s; cbn [for_each]; [by destruct s|].
  unfold consputc at 1. rewrite bind_modify, IH. destruct s. unfold set, set_k_out. simpl.
  by rewrite <- app_assoc.
Qed.

(** [only_out m]: whatever its outcome, [m] changes only the console's output. *)
Definition only_out {A} (m : K A) : Prop :=
  forall s, exists o, final (m s) = s <| k_out := o |>.

Lemma only_out_ret {A} (a : A) : only_out (ret a).
Proof. intros s. exists (k_out s). by destruct s. Qed.

Lemma only_out_fault {A} msg : only_out (fault (A := A) msg).
Proof. intros s. exists (k_out s). by destruct s. Qed.

Lemma only_out_bind {A B} (m : K A) (k : A -> K B) :
  only_out m -> (forall a, only_out (k a)) -> only_out (bind m k).
Proof.
  intros Hm Hk s. destruct (Hm s) as [o Ho]. unfold bind.
  destruct (m s); simpl in *; subst; eauto.
  destruct (Hk a (s <| k_out := o |>)) as [o' ->]. exists o'. by destruct s.
Qed.

Lemma only_out_putc c : only_out (consputc c).
Proof. intros s. eexists. simpl. by destruct s. Qed.

Lemma only_out_puts l : only_out (for_each l consputc).
Proof. intros s. rewrite putc_run. eexists. simpl. by destruct s. Qed.

Lemma only_out_printint xx base sign : only_out (printint xx base sign).
Proof.
  unfold printint. destruct (_ <? _)%nat; [apply only_out_fault|apply only_out_puts].
Qed.

#[local] Hint Resolve only_out_ret only_out_fault only_out_bind only_out_putc only_out_puts
  only_out_printint : xv6.

Lemma cprintf_loop_out fmt args : only_out (cprintf_loop fmt args).
Proof.
  remember (length fmt) as n eqn:Hn. assert (length fmt <= n)%nat as Hle by lia. clear Hn.
  revert fmt args Hle. induction n as [|n IH]; intros [|c f] args Hf; simpl in Hf;
    [apply only_out_ret|lia|apply only_out_ret|]. cbn [cprintf_loop].
  assert (forall args, only_out (cprintf_loop f args)) as Hrec by (intros; apply IH; lia).
  destruct (negb _); [auto with xv6|]. destruct f as [|c2 f]; [apply only_out_ret|].
  assert (forall args, only_out (cprintf_loop f args)) as Hrec2 by (intros; apply IH; simpl in Hf; lia).
  destruct (c2 =? 100); [destruct args as [|[] ?]; auto with xv6|].
  destruct ((c2 =? 120) || (c2 =? 112)); [destruct args as [|[] ?]; auto with xv6|].
  destruct (c2 =? 115); [destruct args as [|[] ?]; auto with xv6|].
  destruct (c2 =? 37); auto 6 with xv6.
Qed.

Lemma cprintf_inv fmt args s u s' :
  cpu_wf (k_cpu s) -> cprintf fmt args s = Ok u s' ->
  exists o, s' = s <| k_out := o |> <| k_cpu ::= lcpu (k_locking s) |>.
Proof.
  unfold cprintf. intros Hwf H. rewrite bind_gets in H. destruct (k_locking s) eqn:E; simpl in H.
  - apply bind_inv in H as ([] & s1 & H1 & H). apply acquire_inv in H1 as [HL ->].
    apply bind_inv in H as ([] & s2 & H2 & H).
    destruct (cprintf_loop_out fmt args (lock_st LCons s)) as [o Ho]. rewrite H2 in Ho. simpl in Ho.
    subst s2. rewrite (release_acquired LCons s) in H by done. injection H as _ <-.
    exists o. by destruct s.
  - rewrite bind_ret in H. apply bind_inv in H as ([] & s2 & H2 & H). injection H as _ <-.
    destruct (cprintf_loop_out fmt args s) as [o Ho]. rewrite H2 in Ho. simpl in Ho. subst s2.
    exists o. by destruct s.
Qed.

(** ** The user library's printer *)

Module Uprintf.

(** The characters [printint] gives to [putc], in order. *)
Definition printint (xx base : Z) (sgn : bool) : list Z := rev (printint_buf DIGITS xx base sgn).

(** [None]: an argument is missing. [state] says whether the last character was an
    unanswered [%]. *)
Fixpoint printf_loop (state : bool) (fmt : list Z) (ap : list parg) : option (list Z) :=
  match fmt with
  | [] => Some []
  | c :: fmt' =>
      if negb state then
        if c =? 37 then printf_loop true fmt' ap
        else cons c <$> printf_loop false fmt' ap
      else if c =? 100 then
        match ap with
        | PInt z :: ap' => app (printint z 10 true) <$> printf_loop false fmt' ap'
        | _ => None
        end
      else if (c =? 120) || (c =? 112) then
        match ap with
        | PInt z :: ap' => app (printint z 16 false) <$> printf_loop false fmt' ap'
        | _ => None
        end
      else if c =? 115 then
        match ap with
        | PStr o :: ap' => app (default (str "(null)") o) <$> printf_loop false fmt' ap'
        | _ => None
        end
      else if c =? 99 then
        match ap with
        | PInt z :: ap' => cons (u8 z) <$> printf_loop false fmt' ap'
        | _ => None
        end
      else if c =? 37 then cons c <$> printf_loop false fmt' ap
      else app [37; c] <$> printf_loop false fmt' ap
  end.

Definition printf (fmt : list Z) (ap : list parg) : option (list Z) := printf_loop false fmt ap.

End Uprintf.

(** ** Numbers round-trip *)

(** The value of a digit character of either table. *)
Definition digit_val (c : Z) : Z :=
  if c <=? 57 then c - 48 else if c <=? 70 then c - 55 else c - 87.

(** Reading least significant digit first. *)
Fixpoint read_digits (base : Z) (l : list Z) : Z :=
  match l with
  | [] => 0
  | c :: l' => digit_val c + base * read_digits base l'
  end.

(** Reading a printed number. *)
Definition read_number (base : Z) (l : list Z) : Z :=
  match l with
  | c :: l' => if c =? 45 then - read_digits base (rev l') else read_digits base (rev l)
  | [] => 0
  end.

Lemma digit_val_ok d : 0 <= d < 16 ->
  digit_val (default 0 (digits !! Z.to_nat d)) = d /\
  digit_val (default 0 (DIGITS !! Z.to_nat d)) = d /\
  default 0 (digits !! Z.to_nat d) <> 45 /\ default 0 (DIGITS !! Z.to_nat d) <> 45.
Proof.
  intros Hd. assert (exists n, d = Z.of_nat n /\ (n < 16)%nat) as (n & -> & Hn).
  { exists (Z.to_nat d). lia. }
  rewrite Nat2Z.id. clear Hd.
  do 16 (destruct n as [|n]; [vm_compute; intuition congruence|]). lia.
Qed.

Section Digits.
Context (tab : list Z) (base : Z).
Hypothesis base_ok : 2 <= base <= 16.
Hypothesis tab_ok : forall d, 0 <= d < 16 ->
  digit_val (default 0 (tab !! Z.to_nat d)) = d /\ default 0 (tab !! Z.to_nat d) <> 45.

Lemma digit_loop_value fuel x :
  0 <= x < base ^ Z.of_nat fuel -> (0 < fuel)%nat ->
  read_digits base (digit_loop tab fuel x base) = x.
Proof.
  revert x. induction fuel as [|f IH]; intros x Hx Hf; [lia|]. cbn [digit_loop read_digits].
  pose proof (Z.mod_pos_bound x base ltac:(lia)) as Hm. pose proof (Z.div_mod x base ltac:(lia)).
  rewrite (proj1 (tab_ok (x mod base) ltac:(lia))).
  destruct (Z.eqb_spec (x / base) 0) as [E|E]; [simpl; lia|].
  assert (0 <= x / base) by (apply Z.div_pos; lia).
  rewrite Nat2Z.inj_succ, Z.pow_succ_r in Hx by lia.
  rewrite IH; [lia| |].
  - split; [done|]. apply Z.div_lt_upper_bound; lia.
  - destruct f; [simpl in Hx; exfalso; apply E; apply Z.div_small; lia|lia].
Qed.

Lemma digit_loop_length fuel x k :
  0 <= x < base ^ Z.of_nat k -> (0 < k)%nat -> (length (digit_loop tab fuel x base) <= k)%nat.
Proof.
  revert x k. induction fuel as [|f IH]; intros x k Hx Hk; cbn [digit_loop length]; [lia|].
  destruct (Z.eqb_spec (x / base) 0) as [E|E]; [simpl; lia|].
  destruct k as [|k]; [lia|].
  assert (0 <= x / base) by (apply Z.div_pos; lia).
  rewrite Nat2Z.inj_succ, Z.pow_succ_r in Hx by lia.
  destruct k as [|k].
  { exfalso. apply E. apply Z.div_small. simpl in Hx. lia. }
  apply le_n_S. apply IH; [|lia]. split; [done|]. apply Z.div_lt_upper_bound; lia.
Qed.

Lemma digit_loop_head fuel x :
  0 <= x -> Forall (fun c => c <> 45) (digit_loop tab fuel x base).
Proof.
  revert x. induction fuel as [|f IH]; intros x Hx; cbn [digit_loop]; constructor.
  - apply tab_ok. pose proof (Z.mod_pos_bound x base ltac:(lia)). lia.
  - destruct (x / base =? 0); [constructor|]. apply IH. apply Z.div_pos; lia.
Qed.
End Digits.

Lemma read_number_plain base l :
  Forall (fun c => c <> 45) l -> read_number base l = read_digits base (rev l).
Proof.
  destruct l as [|c l]; [done|]. intros [Hc _]%Forall_cons_1. simpl.
  by rewrite (proj2 (Z.eqb_neq c 45)).
Qed.

Lemma printint_value tab base sign xx :
  2 <= base <= 16 ->
  (forall d, 0 <= d < 16 ->
    digit_val (default 0 (tab !! Z.to_nat d)) = d /\ default 0 (tab !! Z.to_nat d) <> 45) ->
  is_s32 xx ->
  read_number base (rev (printint_buf tab xx base sign)) = if sign then xx else u32 xx.
Proof.
  intros Hb Htab Hx. unfold printint_buf.
  assert (forall y, is_u32 y -> read_digits base (digit_loop tab 32 y base) = y) as Hval.
  { intros y Hy. apply digit_loop_value; [done|done| |lia]. unfold is_u32 in Hy.
    split; [lia|]. pose proof (Z.pow_le_mono_l 2 base 32 ltac:(lia)). simpl Z.of_nat. lia. }
  destruct (sign && (xx <? 0)) eqn:E.
  - breflect. subst sign. rewrite rev_app_distr. cbn [rev app read_number]. rewrite Z.eqb_refl, rev_involutive.
    rewrite Hval by apply u32_range. unfold is_s32 in Hx. rewrite u32_small by (unfold is_u32; lia). lia.
  - rewrite app_nil_r, read_number_plain, rev_involutive, Hval.
    + destruct sign; [|done]. simpl in E. breflect. apply u32_small. unfold is_u32, is_s32 in *. lia.
    + apply u32_range.
    + apply Forall_rev. apply digit_loop_head; [done|done|]. apply u32_range.
Qed.

Lemma printint_length tab base sign xx k :
  2 <= base <= 16 -> (0 < k)%nat -> 2 ^ 32 <= base ^ Z.of_nat k ->
  (length (printint_buf tab xx base sign) <= (if sign then S k else k))%nat.
Proof.
  intros Hb Hk Hp. unfold printint_buf. rewrite length_app.
  assert (forall y, is_u32 y -> (length (digit_loop tab 32 y base) <= k)%nat) as Hl.
  { intros y Hy. unfold is_u32 in Hy. apply digit_loop_length; [done|lia|done]. }
  destruct sign; cbn [andb].
  - destruct (xx <? 0); cbn [length].
    + specialize (Hl (u32 (- xx)) (u32_range _)). lia.
    + specialize (Hl (u32 xx) (u32_range _)). lia.
  - specialize (Hl (u32 xx) (u32_range _)). cbn [length]. lia.
Qed.

(** Printed numbers read back: what [printint] gives to the console (or the
    user library to [putc]) in base 10 denotes the argument as a signed
    integer, and in base 16 as an unsigned one, for every 32-bit argument; the
    digits always fit the 16-byte buffer, so the kernel's [printint] returns. *)
Theorem printint_roundtrip xx s :
  is_s32 xx ->
  read_number 10 (rev (printint_buf digits xx 10 true)) = xx /\
  read_number 16 (rev (printint_buf digits xx 16 false)) = u32 xx /\
  read_number 10 (Uprintf.printint xx 10 true) = xx /\
  read_number 16 (Uprintf.printint xx 16 false) = u32 xx /\
  printint xx 10 true s = Ok tt (s <| k_out ::= app (printint_buf digits xx 10 true) |>) /\
  printint xx 16 false s = Ok tt (s <| k_out ::= app (printint_buf digits xx 16 false) |>).
Proof.
  intros Hx.
  pose proof (printint_length digits 10 true xx 10 ltac:(lia) ltac:(lia) ltac:(lia)) as L1.
  pose proof (printint_length digits 16 false xx 8 ltac:(lia) ltac:(lia) ltac:(lia)) as L2.
  cbv iota in L1, L2. unfold Uprintf.printint, printint, BUFLEN.
  rewrite (proj2 (Nat.ltb_ge _ _)) by lia. rewrite (proj2 (Nat.ltb_ge _ _)) by lia.
  rewrite !putc_run, !rev_involutive.
  split_and!; try done; apply printint_value; try done; try lia; intros d Hd; split;
    apply digit_val_ok; done.
Qed.

Lemma printint_roundtrip_witness :
  rev (printint_buf digits (-2147483648) 10 true) = str "-2147483648" /\
  read_number 10 (str "-2147483648") = -2147483648.
Proof.
  split; [vm_compute; reflexivity|].
  exact (proj1 (printint_roundtrip (-2147483648) (kst0 (fun _ => [])) ltac:(unfold is_s32; lia))).
Defined.
