(* ===== verification/Io.v ===== *)
(** * Access to devices, and the interrupt controllers and timer of a PC

    What a device delivers is a function of all accesses so far; which function is left
    open ([Ports]). [picirq.c], [ioapic.c] and [timer.c] are sequences of accesses. *)

From S2P Require Import Prelude Params State Locks Printf.

(** The devices: the byte a port delivers, the words (as bytes) a port delivers, the value
    of a mapped register, and how often a routine that waits for a device polls it before
    the device counts as stuck. *)
Class Ports := {
  port_in : list pio -> Z -> Z;
  port_inl : list pio -> Z -> nat -> list Z;
  reg_in : list pio -> mmio -> Z -> Z;
  patience : nat
}.

Definition set_dev (f : devs -> devs) : K unit := modify (fun s => s <| k_devs ::= f |>).
Definition dev {A} (f : devs -> A) : K A := gets (fun s => f (k_devs s)).
Definition access (e : pio) : K unit := modify (fun s => s <| k_io ::= cons e |>).

(** ** [x86.h] *)

Definition outb (port v : Z) : K unit := access (Out8 port (u8 v)).
Definition outsl (port : Z) (data : list Z) : K unit := access (OutL port data).

Section Devices.
Context `{Ports}.

Definition inb (port : Z) : K Z :=
  s <- get ;;
  let v := u8 (port_in (k_io s) port) in
  access (In8 port v) ;;
  ret v.

(** [cnt] words of 32 bits. *)
Definition insl (port : Z) (cnt : nat) : K (list Z) :=
  s <- get ;;
  let l := port_inl (k_io s) port cnt in
  access (InL port l) ;;
  ret l.

(** Mapped registers hold 32 bits. *)
Definition reg_write (d : mmio) (reg v : Z) : K unit := access (RegW d reg (u32 v)).

Definition reg_read (d : mmio) (reg : Z) : K Z :=
  s <- get ;;
  let v := u32 (reg_in (k_io s) d reg) in
  access (RegR d reg v) ;;
  ret v.

(** Polling: [read] until it delivers a value that passes the test. *)
Fixpoint poll (n : nat) (read : K Z) (test : Z -> bool) : K Z :=
  v <- read ;;
  if test v then ret v else
  match n with
  | O => spin
  | S n' => poll n' read test
  end.
End Devices.

(** ** [picirq.c] *)

Definition IO_PIC1 : Z := 0x20.
Definition IO_PIC2 : Z := 0xA0.
Definition IRQ_SLAVE : Z := 2.

Definition picsetmask (mask : Z) : K unit :=
  set_dev (fun d => d <| d_irqmask := mask |>) ;;
  outb (IO_PIC1 + 1) mask ;;
  outb (IO_PIC2 + 1) (Z.shiftr mask 8).

Definition picenable (irq : Z) : K unit :=
  mask <- dev d_irqmask ;;
  picsetmask (u16 (Z.land mask (Z.lnot (Z.shiftl 1 irq)))).

Definition picinit : K unit :=
  outb (IO_PIC1 + 1) 0xFF ;;
  outb (IO_PIC2 + 1) 0xFF ;;
  outb IO_PIC1 0x11 ;;
  outb (IO_PIC1 + 1) T_IRQ0 ;;
  outb (IO_PIC1 + 1) (Z.shiftl 1 IRQ_SLAVE) ;;
  outb (IO_PIC1 + 1) 0x3 ;;
  outb IO_PIC2 0x11 ;;
  outb (IO_PIC2 + 1) (T_IRQ0 + 8) ;;
  outb (IO_PIC2 + 1) IRQ_SLAVE ;;
  outb (IO_PIC2 + 1) 0x3 ;;
  outb IO_PIC1 0x68 ;;
  outb IO_PIC1 0x0a ;;
  outb IO_PIC2 0x68 ;;
  outb IO_PIC2 0x0a ;;
  mask <- dev d_irqmask ;;
  when (negb (mask =? 0xFFFF)) (picsetmask mask).

(** ** [ioapic.c] *)

Definition REG_ID : Z := 0x00.
Definition REG_VER : Z := 0x01.
Definition REG_TABLE : Z := 0x10.
Definition INT_DISABLED : Z := 0x00010000.

Section Ioapic.
Context `{Ports}.

(** A register of the I/O APIC is selected by a write to [reg]; [data] is then its value.
    The registers of the window are at the word offsets 0 and 4. *)
Definition ioapicread (reg : Z) : K Z := reg_write Ioapic 0 reg ;; reg_read Ioapic 4.
Definition ioapicwrite (reg data : Z) : K unit := reg_write Ioapic 0 reg ;; reg_write Ioapic 4 data.

Definition ioapicinit : K unit :=
  ismp <- dev d_ismp ;;
  if negb ismp then ret tt else
  ver <- ioapicread REG_VER ;;
  let maxintr := Z.land (Z.shiftr ver 16) 0xFF in
  idr <- ioapicread REG_ID ;;
  let id := Z.shiftr idr 24 in
  ioapicid <- dev d_ioapicid ;;
  when (negb (id =? ioapicid)) (cprintf (str "ioapicinit: id isn't equal to ioapicid; not a MP" ++ [10]) []) ;;
  for_each (seqZ 0 (maxintr + 1)) (fun i =>
    ioapicwrite (REG_TABLE + 2 * i) (Z.lor INT_DISABLED (T_IRQ0 + i)) ;;
    ioapicwrite (REG_TABLE + 2 * i + 1) 0).

Definition ioapicenable (irq cpunum : Z) : K unit :=
  ismp <- dev d_ismp ;;
  if negb ismp then ret tt else
  ioapicwrite (REG_TABLE + 2 * irq) (T_IRQ0 + irq) ;;
  ioapicwrite (REG_TABLE + 2 * irq + 1) (Z.shiftl cpunum 24).
End Ioapic.

(** ** [timer.c] *)

Definition IO_TIMER1 : Z := 0x040.
Definition TIMER_FREQ : Z := 1193182.
Definition TIMER_DIV (x : Z) : Z := (TIMER_FREQ + x / 2) / x.
Definition TIMER_MODE : Z := IO_TIMER1 + 3.
Definition TIMER_SEL0 : Z := 0x00.
Definition TIMER_RATEGEN : Z := 0x04.
Definition TIMER_16BIT : Z := 0x30.

Definition timerinit : K unit :=
  outb TIMER_MODE (Z.lor (Z.lor TIMER_SEL0 TIMER_RATEGEN) TIMER_16BIT) ;;
  outb IO_TIMER1 (TIMER_DIV 100 mod 256) ;;
  outb IO_TIMER1 (TIMER_DIV 100 / 256) ;;
  picenable IRQ_TIMER.
