(* ===== verification/Lapic.v ===== *)
(** * The local APIC and the clock chip ([lapic.c])

    The local APIC is a table of registers; the clock chip (CMOS) is read through two
    ports. *)

From S2P Require Import Prelude Params Mem State Locks Printf Io.

(** Registers, as indices of 32-bit words. *)
Definition ID : Z := 0x20 / 4.
Definition VER : Z := 0x30 / 4.
Definition TPR : Z := 0x80 / 4.
Definition EOI : Z := 0xB0 / 4.
Definition SVR : Z := 0xF0 / 4.
Definition ENABLE : Z := 0x100.
Definition ESR : Z := 0x280 / 4.
Definition ICRLO : Z := 0x300 / 4.
Definition INIT : Z := 0x500.
Definition STARTUP : Z := 0x600.
Definition DELIVS : Z := 0x1000.
Definition ASSERT : Z := 0x4000.
Definition LEVEL : Z := 0x8000.
Definition BCAST : Z := 0x80000.
Definition ICRHI : Z := 0x310 / 4.
Definition TIMER : Z := 0x320 / 4.
Definition X1 : Z := 0xB.
Definition PERIODIC : Z := 0x20000.
Definition PCINT : Z := 0x340 / 4.
Definition LINT0 : Z := 0x350 / 4.
Definition LINT1 : Z := 0x360 / 4.
Definition ERROR : Z := 0x370 / 4.
Definition MASKED : Z := 0x10000.
Definition TICR : Z := 0x380 / 4.
Definition TDCR : Z := 0x3E0 / 4.

(** [traps.h] *)
Definition IRQ_ERROR : Z := 19.

Definition CMOS_PORT : Z := 0x70.
Definition CMOS_RETURN : Z := 0x71.

Section Lapic.
Context `{Ports}.

(** Every write is followed by a read of the ID register. *)
Definition lapicw (index value : Z) : K unit :=
  reg_write Lapic index value ;; reg_read Lapic ID ;; ret tt.

Definition lapicinit : K unit :=
  lapic <- dev d_lapic ;;
  if lapic =? 0 then ret tt else
  lapicw SVR (Z.lor ENABLE (T_IRQ0 + IRQ_SPURIOUS)) ;;
  lapicw TDCR X1 ;;
  lapicw TIMER (Z.lor PERIODIC (T_IRQ0 + IRQ_TIMER)) ;;
  lapicw TICR 10000000 ;;
  lapicw LINT0 MASKED ;;
  lapicw LINT1 MASKED ;;
  ver <- reg_read Lapic VER ;;
  when (4 <=? Z.land (Z.shiftr ver 16) 0xFF) (lapicw PCINT MASKED) ;;
  lapicw ERROR (T_IRQ0 + IRQ_ERROR) ;;
  lapicw ESR 0 ;;
  lapicw ESR 0 ;;
  lapicw EOI 0 ;;
  lapicw ICRHI 0 ;;
  lapicw ICRLO (Z.lor (Z.lor BCAST INIT) LEVEL) ;;
  poll patience (reg_read Lapic ICRLO) (fun v => Z.land v DELIVS =? 0) ;;
  lapicw TPR 0.

(** The index of the processor that runs; [pc] is the return address it prints. *)
Definition cpunum (pc : Z) : K nat :=
  fl <- Spin.readeflags_if ;;
  when fl
    (n <- dev d_cpunum_warned ;;
     set_dev (fun d => d <| d_cpunum_warned ::= fun n => s32 (n + 1) |>) ;;
     when (n =? 0) (cprintf (str "cpu called from %x with interrupts enabled" ++ [10]) [PInt pc])) ;;
  lapic <- dev d_lapic ;;
  if lapic =? 0 then ret 0%nat else
  id <- reg_read Lapic ID ;;
  ids <- dev (fun d => take (d_ncpu d) (d_apicid d)) ;;
  match find_from (Z.eqb (Z.shiftr id 24)) 0 ids with
  | Some i => ret i
  | None => panic "unknown apicid"
  end.

Definition lapiceoi : K unit :=
  lapic <- dev d_lapic ;;
  when (negb (lapic =? 0)) (lapicw EOI 0).

(** A 16-bit store at a kernel address. *)
Definition store16 (a v : Z) : K unit :=
  modify (fun s => s <| k_mem ::= fun m => store8 (store8 m (V2P a) v) (V2P a + 1) (Z.shiftr v 8) |>).

Definition lapicstartap (apicid addr : Z) : K unit :=
  outb CMOS_PORT 0xF ;;
  outb (CMOS_PORT + 1) 0x0A ;;
  let wrv := P2V (Z.lor (Z.shiftl 0x40 4) 0x67) in
  store16 wrv 0 ;;
  store16 (wrv + 2) (Z.shiftr addr 4) ;;
  lapicw ICRHI (Z.shiftl apicid 24) ;;
  lapicw ICRLO (Z.lor (Z.lor INIT LEVEL) ASSERT) ;;
  lapicw ICRLO (Z.lor INIT LEVEL) ;;
  for_each [0; 1] (fun _ =>
    lapicw ICRHI (Z.shiftl apicid 24) ;;
    lapicw ICRLO (Z.lor STARTUP (Z.shiftr addr 12))).

(** ** The clock *)

Definition CMOS_STATA : Z := 0x0a.
Definition CMOS_STATB : Z := 0x0b.
Definition CMOS_UIP : Z := Z.shiftl 1 7.

(** [struct rtcdate] *)
Record rtcdate := mkRtcdate { second : Z; minute : Z; hour : Z; day : Z; month : Z; year : Z }.

Definition cmos_read (reg : Z) : K Z := outb CMOS_PORT reg ;; inb CMOS_RETURN.

Definition fill_rtcdate : K rtcdate :=
  s <- cmos_read 0x00 ;;
  mi <- cmos_read 0x02 ;;
  h <- cmos_read 0x04 ;;
  d <- cmos_read 0x07 ;;
  mo <- cmos_read 0x08 ;;
  y <- cmos_read 0x09 ;;
  ret (mkRtcdate s mi h d mo y).

#[export] Instance rtcdate_eq_dec : EqDecision rtcdate.
Proof. solve_decision. Defined.

(** [for(;;)]: until two readings agree with no update in between. *)
Fixpoint stable_date (n : nat) : K rtcdate :=
  t1 <- fill_rtcdate ;;
  let again := match n with O => spin | S n' => stable_date n' end in
  sa <- cmos_read CMOS_STATA ;;
  if nz (Z.land sa CMOS_UIP) then again else
  t2 <- fill_rtcdate ;;
  if bool_decide (t1 = t2) then ret t1 else again.

(** The macro [CONV]. *)
Definition conv (x : Z) : Z := Z.shiftr x 4 * 10 + Z.land x 0xf.

Definition cmostime : K rtcdate :=
  sb <- cmos_read CMOS_STATB ;;
  let bcd := Z.land sb (Z.shiftl 1 2) =? 0 in
  t1 <- stable_date patience ;;
  let t := if bcd then mkRtcdate (conv (second t1)) (conv (minute t1)) (conv (hour t1)) (conv (day t1)) (conv (month t1)) (conv (year t1))
           else t1 in
  ret (mkRtcdate (second t) (minute t) (hour t) (day t) (month t) (year t + 2000)).
End Lapic.
