(* ===== verification/Mp.v ===== *)
(** * Multiprocessor tables ([mp.c])

    The BIOS leaves a description of the processors in memory. [mpinit] looks for it by
    its signature and checksum, and walks the table it points to. For a table made of
    known entries it records exactly its processors and its I/O APIC; an entry of any
    other kind keeps it walking in place for ever. *)

From S2P Require Import Prelude Params Mem Strings State Locks Printf Io.

(** ** The code *)

(** Sizes of the structures of [mp.h], and the types of table entries. *)
Definition MP_SIZE : Z := 16.
Definition MPCONF_SIZE : Z := 44.
Definition MPPROC_SIZE : Z := 20.
Definition MPIOAPIC_SIZE : Z := 8.
Definition MPPROC : Z := 0.
Definition MPBUS : Z := 1.
Definition MPIOAPIC : Z := 2.
Definition MPIOINTR : Z := 3.
Definition MPLINTR : Z := 4.

(** The byte at a kernel address, and [n] of them. *)
Definition at_ (m : mem) (va : Z) : Z := m (V2P va).
Definition bytes_at (m : mem) (va : Z) (n : nat) : list Z := (fun i => at_ m (va + Z.of_nat i)) <$> seq 0 n.

Definition mp_physaddr (m : mem) (mp : Z) : Z := load32 m (V2P (mp + 4)).
Definition mp_imcrp (m : mem) (mp : Z) : Z := at_ m (mp + 12).
Definition conf_length (m : mem) (conf : Z) : Z := at_ m (conf + 4) + 2 ^ 8 * at_ m (conf + 5).
Definition conf_version (m : mem) (conf : Z) : Z := at_ m (conf + 6).
Definition conf_lapicaddr (m : mem) (conf : Z) : Z := load32 m (V2P (conf + 36)).

(** The [sum] is an [int]; at most 65535 bytes are added up. *)
Definition sum (m : mem) (addr len : Z) : Z := u8 (foldl Z.add 0 (bytes_at m addr (Z.to_nat len))).

(** [memcmp] with a literal. *)
Definition has_tag (m : mem) (p : Z) (tag : list Z) : bool := bool_decide (bytes_at m p (length tag) = tag).

Fixpoint mpsearch_loop (n : nat) (m : mem) (p : Z) : Z :=
  match n with
  | O => 0
  | S n' =>
      if has_tag m p (str "_MP_") && (sum m p MP_SIZE =? 0) then p
      else mpsearch_loop n' m (p + MP_SIZE)
  end.

(** [len] is a multiple of [MP_SIZE] in every call. *)
Definition mpsearch1 (m : mem) (a len : Z) : Z := mpsearch_loop (Z.to_nat (len / MP_SIZE)) m (P2V a).

Definition mpsearch (m : mem) : Z :=
  let bda := P2V 0x400 in
  let p := Z.shiftl (Z.lor (Z.shiftl (at_ m (bda + 0x0F)) 8) (at_ m (bda + 0x0E))) 4 in
  let mp :=
    if negb (p =? 0) then mpsearch1 m p 1024
    else mpsearch1 m (u32 (Z.lor (Z.shiftl (at_ m (bda + 0x14)) 8) (at_ m (bda + 0x13)) * 1024 - 1024)) 1024 in
  if negb (mp =? 0) then mp else mpsearch1 m 0xF0000 0x10000.

(** The floating pointer and the table it points to. *)
Definition mpconfig (m : mem) : option (Z * Z) :=
  let mp := mpsearch m in
  if (mp =? 0) || (mp_physaddr m mp =? 0) then None else
  let conf := P2V (mp_physaddr m mp) in
  if negb (has_tag m conf (str "PCMP")) then None else
  if negb (conf_version m conf =? 1) && negb (conf_version m conf =? 4) then None else
  if negb (sum m conf (conf_length m conf) =? 0) then None else
  Some (mp, conf).

Section Mpinit.
Context `{Ports}.

(** The walk; [break] leaves the [switch] only, so an unknown entry is looked at again. *)
Fixpoint mp_walk (fuel : nat) (p e : Z) : K unit :=
  if negb (p <? e) then ret tt else
  match fuel with
  | O => spin
  | S fuel' =>
      s <- get ;;
      let m := k_mem s in
      let ty := at_ m p in
      if ty =? MPPROC then
        set_dev (fun d => if (d_ncpu d <? NCPU)%nat
          then d <| d_apicid ::= <[d_ncpu d := at_ m (p + 1)]> |> <| d_ncpu ::= S |> else d) ;;
        mp_walk fuel' (p + MPPROC_SIZE) e
      else if ty =? MPIOAPIC then
        set_dev (fun d => d <| d_ioapicid := at_ m (p + 1) |>) ;;
        mp_walk fuel' (p + MPIOAPIC_SIZE) e
      else if (ty =? MPBUS) || (ty =? MPIOINTR) || (ty =? MPLINTR) then mp_walk fuel' (p + 8) e
      else
        set_dev (fun d => d <| d_ismp := false |>) ;;
        mp_walk fuel' p e
  end.

Definition mpinit (fuel : nat) : K unit :=
  s <- get ;;
  match mpconfig (k_mem s) with
  | None => ret tt
  | Some (mp, conf) =>
      set_dev (fun d => d <| d_ismp := true |>) ;;
      set_dev (fun d => d <| d_lapic := conf_lapicaddr (k_mem s) conf |>) ;;
      mp_walk fuel (conf + MPCONF_SIZE) (conf + conf_length (k_mem s) conf) ;;
      ismp <- dev d_ismp ;;
      if negb ismp then set_dev (fun d => d <| d_ncpu := 1%nat |> <| d_lapic := 0 |> <| d_ioapicid := 0 |>)
      else
        when (negb (mp_imcrp (k_mem s) mp =? 0))
          (outb 0x22 0x70 ;;
           v <- inb 0x23 ;;
           outb 0x23 (Z.lor v 1))
  end.
End Mpinit.

(** ** What the table says *)

Inductive mpentry := EProc (apicid : Z) | EIoapic (id : Z) | EOther (ty : Z).

Definition entry_size (x : mpentry) : Z := match x with EProc _ => MPPROC_SIZE | _ => 8 end.

Definition entry_at (m : mem) (p : Z) (x : mpentry) : Prop :=
  match x with
  | EProc id => at_ m p = MPPROC /\ at_ m (p + 1) = id
  | EIoapic id => at_ m p = MPIOAPIC /\ at_ m (p + 1) = id
  | EOther ty => at_ m p = ty /\ (ty = MPBUS \/ ty = MPIOINTR \/ ty = MPLINTR)
  end.

Definition known (ty : Z) : Prop := 0 <= ty <= 4.

(** The entries from [p] lead to [p']. *)
Fixpoint entries (m : mem) (p : Z) (es : list mpentry) (e p' : Z) : Prop :=
  match es with
  | [] => p' = p
  | x :: es' => p < e /\ entry_at m p x /\ entries m (p + entry_size x) es' e p'
  end.

Definition processors (es : list mpentry) : list Z := omap (fun x => match x with EProc id => Some id | _ => None end) es.
Definition ioapics (es : list mpentry) : list Z := omap (fun x => match x with EIoapic id => Some id | _ => None end) es.

(** ** The walk *)

Section Walk.
Context `{Ports}.

Definition note_entry (d : devs) (x : mpentry) : devs :=
  match x with
  | EProc id => if (d_ncpu d <? NCPU)%nat then d <| d_apicid ::= <[d_ncpu d := id]> |> <| d_ncpu ::= S |> else d
  | EIoapic id => d <| d_ioapicid := id |>
  | EOther _ => d
  end.

Lemma walk_entry fuel p e x s : p < e -> entry_at (k_mem s) p x ->
  mp_walk (S fuel) p e s = mp_walk fuel (p + entry_size x) e (s <| k_devs ::= fun d => note_entry d x |>).
Proof.
  intros Hp Hx. cbn [mp_walk]. rewrite (proj2 (Z.ltb_lt _ _)) by done. cbv [negb]. mstep. destruct x as [id|id|ty]; destruct Hx as [Ht Hi].
  - rewrite Ht. simpl (_ =? _). cbv iota. unfold set_dev. mstep. rewrite Hi. done.
  - rewrite Ht. simpl (_ =? _). cbv iota. unfold set_dev. mstep. rewrite Hi. done.
  - rewrite Ht. destruct Hi as [->|[->| ->]]; simpl; f_equal; by destruct s.
Qed.

Lemma walk_entries es fuel p e p' s : entries (k_mem s) p es e p' -> (length es <= fuel)%nat ->
  mp_walk fuel p e s = mp_walk (fuel - length es) p' e (s <| k_devs ::= fun d => foldl note_entry d es |>).
Proof.
  revert fuel p s. induction es as [|x es IH]; intros fuel p s Hes Hf; simpl in *.
  - subst p'. rewrite Nat.sub_0_r. f_equal. by destruct s.
  - destruct Hes as (Hp & Hx & Hes). destruct fuel as [|fuel]; [lia|]. rewrite (walk_entry _ _ _ x) by done.
    rewrite (IH fuel); [|exact Hes|lia]. simpl. f_equal.
Qed.

(** An entry of an unknown kind. *)
Lemma walk_stuck fuel p e s : p < e -> ~ known (at_ (k_mem s) p) -> exists s', mp_walk fuel p e s = Spin s'.
Proof.
  intros Hp Hk. unfold known in Hk. revert s Hk. induction fuel as [|fuel IH]; intros s Hk; cbn [mp_walk]; rewrite (proj2 (Z.ltb_lt _ _)) by done; cbv [negb]; [by eexists|].
  mstep. unfold MPPROC, MPIOAPIC, MPBUS, MPIOINTR, MPLINTR. rewrite !(proj2 (Z.eqb_neq (at_ (k_mem s) p) _)) by lia. simpl orb. cbv iota.
  unfold set_dev. mstep. apply (IH (s <| k_devs ::= _ |>)). done.
Qed.

(** ** The processors found *)

#[local] Opaque NCPU.

Lemma last_cons_any {A} (x : A) l a b : List.last (x :: l) a = List.last (x :: l) b.
Proof. revert x. induction l as [|y l IH]; intros x; [done|]. apply IH. Qed.

Lemma noted es d : (d_ncpu d <= NCPU)%nat -> length (d_apicid d) = NCPU ->
  let d' := foldl note_entry d es in
  take (d_ncpu d') (d_apicid d') = take NCPU (take (d_ncpu d) (d_apicid d) ++ processors es) /\
  d_ncpu d' = Nat.min NCPU (d_ncpu d + length (processors es)) /\ d_ioapicid d' = List.last (ioapics es) (d_ioapicid d) /\
  d_ismp d' = d_ismp d /\ d_lapic d' = d_lapic d.
Proof.
  revert d. induction es as [|x es IH]; intros d Hn Hl; simpl.
  - rewrite app_nil_r, take_take, Nat.add_0_r, (Nat.min_r NCPU) by done. done.
  - destruct x as [id|id|ty]; [|pose proof (IH (note_entry d (EIoapic id)) Hn Hl) as (E1 & E2 & E3 & E4 & E5)|by apply IH].
    + simpl. destruct (Nat.ltb_spec (d_ncpu d) NCPU) as [Hlt|Hge].
      * pose proof (IH (note_entry d (EProc id))) as Hd. simpl in Hd. rewrite (proj2 (Nat.ltb_lt _ _) Hlt) in Hd. simpl in Hd.
        destruct Hd as (E1 & E2 & E3); [lia|by rewrite length_insert|]. rewrite E1, E2. split_and!; [|lia|apply E3..]. f_equal.
        rewrite (take_S_r _ _ id) by (apply list_lookup_insert_eq; lia). rewrite take_insert_ge by lia. by rewrite <- (assoc_L (++)).
      * assert (d_ncpu d = NCPU) as En by lia. destruct (IH d Hn Hl) as (E1 & E2 & E3). rewrite E1, E2. split_and!; [|lia|apply E3..].
        rewrite En. rewrite !take_app_le by (rewrite length_take; lia). done.
    + split_and!; [exact E1|exact E2| |exact E4|exact E5]. etransitivity; [exact E3|]. simpl.
      destruct (ioapics es) as [|z l]; [done|]. apply last_cons_any.
Qed.

Lemma entries_bound m es p e p' : entries m p es e p' -> Z.of_nat (length es) <= Z.max 0 (e - p).
Proof.
  revert p. induction es as [|x es IH]; intros p; simpl; [lia|]. intros (Hp & _ & Hes). specialize (IH _ Hes).
  assert (8 <= entry_size x) by (destruct x; simpl; unfold MPPROC_SIZE; lia). lia.
Qed.

Lemma walk_hangs es fuel p e p' s :
  entries (k_mem s) p es e p' -> p' < e -> ~ known (at_ (k_mem s) p') -> exists s', mp_walk fuel p e s = Spin s'.
Proof.
  revert fuel p s. induction es as [|x es IH]; intros fuel p s; cbn [entries].
  - intros ->. apply walk_stuck.
  - intros (Hp & Hx & Hes) Hp' Hk. destruct fuel as [|fuel].
    + cbn [mp_walk]. rewrite (proj2 (Z.ltb_lt _ _)) by done. by eexists.
    + rewrite (walk_entry _ _ _ x) by done. by apply IH.
Qed.

(** C40. [mpinit], once the tables have been found. If every entry is of a known kind it
    returns, and the kernel then knows the processors of the table: as many as there are,
    [NCPU] at most, in order, the address of the local APIC, and the last I/O APIC. If
    there is an entry of any other kind [mpinit] never returns: the code that would fall
    back to one processor is not reached. *)
Theorem mpinit_spec s mp conf :
  mpconfig (k_mem s) = Some (mp, conf) -> d_ncpu (k_devs s) = 0%nat -> length (d_apicid (k_devs s)) = NCPU ->
  let e := conf + conf_length (k_mem s) conf in
  forall es p, entries (k_mem s) (conf + MPCONF_SIZE) es e p ->
  (e <= p -> forall fuel, (Z.to_nat (conf_length (k_mem s) conf) <= fuel)%nat ->
     exists s', mpinit fuel s = Ok tt s' /\ d_ismp (k_devs s') = true /\ d_lapic (k_devs s') = conf_lapicaddr (k_mem s) conf /\
       d_ncpu (k_devs s') = Nat.min NCPU (length (processors es)) /\
       take (d_ncpu (k_devs s')) (d_apicid (k_devs s')) = take NCPU (processors es) /\
       d_ioapicid (k_devs s') = List.last (ioapics es) (d_ioapicid (k_devs s))) /\
  (p < e -> ~ known (at_ (k_mem s) p) -> forall fuel, exists s', mpinit fuel s = Spin s').
Proof.
  intros Hc Hn Hl e es p Hes. set (f := fun d => d <| d_ismp := true |> <| d_lapic := conf_lapicaddr (k_mem s) conf |>).
  set (s1 := s <| k_devs ::= f |>). unfold mpinit, set_dev, dev. split.
  - intros Hp fuel Hf. pose proof (entries_bound _ _ _ _ _ Hes) as Hb. unfold MPCONF_SIZE in Hb.
    set (s2 := s1 <| k_devs ::= fun d => foldl note_entry d es |>).
    assert (mp_walk fuel (conf + MPCONF_SIZE) e s1 = Ok tt s2) as Ew.
    { rewrite (walk_entries es _ _ _ p) by (try exact Hes; lia). generalize (fuel - length es)%nat. intros n.
      destruct n; cbn [mp_walk]; rewrite (proj2 (Z.ltb_ge _ _)) by done; done. }
    destruct (noted es (f (k_devs s))) as (E1 & E2 & E3 & E4 & E5); [simpl; lia|exact Hl|]. simpl in E4, E5.
    assert (forall s3, k_devs s3 = k_devs s2 -> d_ismp (k_devs s3) = true /\ d_lapic (k_devs s3) = conf_lapicaddr (k_mem s) conf /\
      d_ncpu (k_devs s3) = Nat.min NCPU (length (processors es)) /\ take (d_ncpu (k_devs s3)) (d_apicid (k_devs s3)) = take NCPU (processors es) /\
      d_ioapicid (k_devs s3) = List.last (ioapics es) (d_ioapicid (k_devs s))) as Hd.
    { intros s3 ->. change (k_devs s2) with (foldl note_entry (f (k_devs s)) es). 
      split_and!; [exact E4|exact E5|rewrite E2; simpl; by rewrite Hn|rewrite E1; simpl; by rewrite Hn|exact E3]. }
    mstep. rewrite Hc. mstep. fold e. erewrite bind_ok; [|exact Ew]. mstep.
    rewrite (proj1 (Hd s2 eq_refl)). change (negb true) with false. cbv iota. unfold when. destruct (negb _).
    + eexists. split; [reflexivity|]. by apply Hd.
    + exists s2. split; [done|]. by apply Hd.
  - intros Hp Hk fuel. destruct (walk_hangs es fuel (conf + MPCONF_SIZE) e p s1 Hes Hp Hk) as [s' E]. exists s'.
    mstep. rewrite Hc. mstep. fold e. by erewrite bind_spin; [|exact E].
Qed.
End Walk.

(** A machine with two processors, 0 and 1, a bus, and I/O APIC 2: the floating pointer at
    0xF0000 leads to a table at 0xF0100. *)
Definition mp_bytes : list Z :=
  let fp := str "_MP_" ++ [0x00; 0x01; 0x0F; 0x00; 1; 4] in
  let fp' := [0; 0; 0; 0; 0] in
  fp ++ [u8 (- foldl Z.add 0 fp)] ++ fp'.

Definition mp_table : list Z :=
  let head := str "PCMP" ++ [100; 0; 4] in
  let rest := replicate 28 0 ++ [0x00; 0x00; 0xE0; 0xFE] ++ replicate 4 0 ++
    ([0; 0] ++ replicate 18 0) ++ ([0; 1] ++ replicate 18 0) ++ ([1] ++ replicate 7 0) ++ ([2; 2] ++ replicate 6 0) in
  head ++ [u8 (- foldl Z.add 0 (head ++ rest))] ++ rest.

Definition mp_mem : mem := fun a =>
  if (a <? 0xF0000) || (0xF0200 <=? a) then 0
  else if a <? 0xF0100 then nth (Z.to_nat (a - 0xF0000)) mp_bytes 0
  else nth (Z.to_nat (a - 0xF0100)) mp_table 0.

Definition mp_st : kst := (kst0 (fun _ => [])) <| k_mem := mp_mem |>.

#[local] Instance silent_ports : Ports := {| port_in _ _ := 0; port_inl _ _ _ := []; reg_in _ _ _ := 0; patience := 0 |}.

Lemma mpinit_spec_witness : mpconfig (k_mem mp_st) = Some (P2V 0xF0000, P2V 0xF0100) /\
  exists s', mpinit 200 mp_st = Ok tt s' /\ d_ncpu (k_devs s') = 2%nat.
Proof.
  assert (mpconfig (k_mem mp_st) = Some (P2V 0xF0000, P2V 0xF0100)) as Hc by (vm_compute; reflexivity).
  split; [exact Hc|].
  destruct (mpinit_spec mp_st _ _ Hc eq_refl eq_refl [EProc 0; EProc 1; EOther 1; EIoapic 2] (P2V (0xF0100 + 100))) as [H _].
  - cbn [entries]. split; [reflexivity|]. split; [split; reflexivity|]. split; [reflexivity|]. split; [split; reflexivity|].
    split; [reflexivity|]. split; [split; [reflexivity|by left]|]. split; [reflexivity|]. split; [split; reflexivity|]. vm_compute. reflexivity.
  - destruct (H ltac:(vm_compute; discriminate) 200%nat ltac:(apply Nat.leb_le; vm_compute; reflexivity)) as (s' & E & _ & _ & En & _).
    exists s'. split; [exact E|exact En].
Defined.
