(* ===== verification/Screen.v ===== *)
(** * The serial port ([uart.c]) and the text screen ([console.c])

    [Printf.consputc] stands for the console as the rest of the kernel sees it, a sequence
    of characters; here is what [consputc] does to the devices with each of them. The
    screen is memory at [0xb8000], a 16-bit word per character. *)

From S2P Require Import Prelude Params Mem Strings State Locks Printf Io Lapic.

Definition COM1 : Z := 0x3f8.

Section Uart.
Context `{Ports}.

(** [for(i = 0; i < 128 && !(inb(COM1+5) & 0x20); i++)] *)
Fixpoint uart_wait (n : nat) : K unit :=
  match n with
  | O => ret tt
  | S n' =>
      v <- inb (COM1 + 5) ;;
      if nz (Z.land v 0x20) then ret tt else uart_wait n'
  end.

Definition uartputc (c : Z) : K unit :=
  u <- dev d_uart ;;
  if negb u then ret tt else
  uart_wait 128 ;;
  outb COM1 c.

(** The character received, -1 without one. *)
Definition uartgetc : K Z :=
  u <- dev d_uart ;;
  if negb u then ret (-1) else
  v <- inb (COM1 + 5) ;;
  if Z.land v 0x01 =? 0 then ret (-1) else
  inb COM1.

Definition uartinit : K unit :=
  outb (COM1 + 2) 0 ;;
  outb (COM1 + 3) 0x80 ;;
  outb COM1 (115200 / 9600) ;;
  outb (COM1 + 1) 0 ;;
  outb (COM1 + 3) 0x03 ;;
  outb (COM1 + 4) 0 ;;
  outb (COM1 + 1) 0x01 ;;
  v <- inb (COM1 + 5) ;;
  if v =? 0xFF then ret tt else
  set_dev (fun d => d <| d_uart := true |>) ;;
  inb (COM1 + 2) ;;
  inb COM1 ;;
  picenable IRQ_COM1 ;;
  ioapicenable IRQ_COM1 0 ;;
  for_each (str "xv6..." ++ [10]) uartputc.

(** ** The screen *)

Definition CRTPORT : Z := 0x3d4.
Definition BACKSPACE : Z := 0x100.

(** [crt], and the address of a character of it. *)
Definition crt : Z := P2V 0xb8000.
Definition crt_at (pos : Z) : Z := crt + 2 * pos.

(** [memmove] and [memset] on the screen, [n] bytes. *)
Definition crt_move (dst src n : Z) : K unit := modify (fun s => s <| k_mem ::= fun m => memmove m (V2P dst) (V2P src) n |>).
Definition crt_set (dst c n : Z) : K unit := modify (fun s => s <| k_mem ::= fun m => memset m (V2P dst) c n |>).

Definition cgaputc (c : Z) : K unit :=
  outb CRTPORT 14 ;;
  hi <- inb (CRTPORT + 1) ;;
  outb CRTPORT 15 ;;
  lo <- inb (CRTPORT + 1) ;;
  let pos := Z.lor (Z.shiftl hi 8) lo in
  pos <- (if c =? 10 then ret (pos + (80 - pos mod 80))
          else if c =? BACKSPACE then ret (if 0 <? pos then pos - 1 else pos)
          else store16 (crt_at pos) (Z.lor (Z.land c 0xff) 0x0700) ;; ret (pos + 1)) ;;
  if (pos <? 0) || (25 * 80 <? pos) then panic "pos under/overflow" else
  pos <- (if 24 <=? pos / 80 then
            crt_move crt (crt_at 80) (2 * 23 * 80) ;;
            crt_set (crt_at (pos - 80)) 0 (2 * (24 * 80 - (pos - 80))) ;;
            ret (pos - 80)
          else ret pos) ;;
  outb CRTPORT 14 ;;
  outb (CRTPORT + 1) (Z.shiftr pos 8) ;;
  outb CRTPORT 15 ;;
  outb (CRTPORT + 1) pos ;;
  store16 (crt_at pos) (Z.lor 32 0x0700).

(** [consputc], when the kernel has not panicked. *)
Definition consputc_hw (c : Z) : K unit :=
  (if c =? BACKSPACE then uartputc 8 ;; uartputc 32 ;; uartputc 8 else uartputc c) ;;
  cgaputc c.
End Uart.

(** ** The screen shows the end of a page

    The controller of the screen has an index register, which selects one of its other
    registers for the next access; 14 and 15 hold the position of the cursor. *)

(** The index register and the two halves of the cursor after the accesses [h], which
    started with the cursor at [c0]. *)
Fixpoint crt_regs (c0 : Z) (h : list pio) : Z * Z * Z :=
  match h with
  | [] => (0, c0 / 256, c0 mod 256)
  | e :: h' =>
      let '(i, hi, lo) := crt_regs c0 h' in
      match e with
      | Out8 port v =>
          if port =? CRTPORT then (v, hi, lo)
          else if port =? CRTPORT + 1 then
            if i =? 14 then (i, v, lo) else if i =? 15 then (i, hi, v) else (i, hi, lo)
          else (i, hi, lo)
      | _ => (i, hi, lo)
      end
  end.

Definition cursor (c0 : Z) (h : list pio) : Z := let '(_, hi, lo) := crt_regs c0 h in 256 * hi + lo.

(** The word at a position of the screen. *)
Definition cell (m : mem) (i : Z) : Z := m (0xb8000 + 2 * i) + 2 ^ 8 * m (0xb8000 + 2 * i + 1).

(** The page: a word for every position, 80 to a row, without end; where the next
    character goes; and the first row of the page the screen shows. *)
Record page := mkPage { pg_at : Z -> Z; pg_pos : Z; pg_top : Z }.

Definition ink (c : Z) : Z := Z.lor (Z.land c 0xff) 0x0700.

Definition write_at (i v : Z) (f : Z -> Z) : Z -> Z := fun x => if x =? i then v else f x.

(** Where a character takes the cursor. *)
Definition advance (p : page) (c : Z) : Z :=
  if c =? 10 then pg_pos p + (80 - pg_pos p mod 80)
  else if c =? BACKSPACE then (if 80 * pg_top p <? pg_pos p then pg_pos p - 1 else pg_pos p)
  else pg_pos p + 1.

(** The cursor is shown as a blank. *)
Definition page_put (p : page) (c : Z) : page :=
  let f := if (c =? 10) || (c =? BACKSPACE) then pg_at p else write_at (pg_pos p) (ink c) (pg_at p) in
  mkPage (write_at (advance p c) (ink 32) f) (advance p c) (Z.max (pg_top p) (advance p c / 80 - 23)).

Section Shows.
Context `{Ports} (c0 : Z).
Context (crt_ports : forall h i hi lo, crt_regs c0 h = (i, hi, lo) ->
  (i = 14 -> port_in h (CRTPORT + 1) = hi) /\ (i = 15 -> port_in h (CRTPORT + 1) = lo)).

(** The screen shows 24 rows of the page, below which nothing is written, and the cursor
    is on one of them. *)
Record shows (s : kst) (p : page) : Prop := {
  sh_cells : forall i, 0 <= i < 24 * 80 -> cell (k_mem s) i = pg_at p (80 * pg_top p + i);
  sh_blank : forall x, 80 * pg_top p + 24 * 80 <= x -> pg_at p x = 0;
  sh_top : 0 <= pg_top p;
  sh_cursor : cursor c0 (k_io s) = pg_pos p - 80 * pg_top p;
  sh_range : 0 <= pg_pos p - 80 * pg_top p < 24 * 80;
  sh_bytes : exists i hi lo, crt_regs c0 (k_io s) = (i, hi, lo) /\ is_u8 hi /\ is_u8 lo
}.

(** Accesses to other ports. *)
Definition crt_quiet (e : pio) : Prop :=
  match e with
  | Out8 port _ => port <> CRTPORT /\ port <> CRTPORT + 1
  | _ => True
  end.

Lemma quiet_regs e h : crt_quiet e -> crt_regs c0 (e :: h) = crt_regs c0 h.
Proof.
  intros He. simpl. destruct (crt_regs c0 h) as [[i hi] lo]. destruct e; try done. destruct He as [H1 H2].
  by rewrite (proj2 (Z.eqb_neq _ _) H1), (proj2 (Z.eqb_neq _ _) H2).
Qed.

(** [m] only makes accesses that leave the screen alone. *)
Definition off_screen {A} (m : K A) : Prop :=
  forall s, exists a es, m s = Ok a (s <| k_io ::= app es |>) /\ Forall crt_quiet es.

Lemma off_ret {A} (a : A) : off_screen (ret a).
Proof. intros s. exists a, []. split; [by destruct s|constructor]. Qed.

Lemma off_dev {A} (f : devs -> A) : off_screen (dev f).
Proof. intros s. exists (f (k_devs s)), []. split; [by destruct s|constructor]. Qed.

Lemma off_inb port : off_screen (inb port).
Proof.
  intros s. exists (u8 (port_in (k_io s) port)), [In8 port (u8 (port_in (k_io s) port))]. split; [by destruct s|by constructor].
Qed.

Lemma off_outb port v : port <> CRTPORT -> port <> CRTPORT + 1 -> off_screen (outb port v).
Proof. intros H1 H2 s. exists tt, [Out8 port (u8 v)]. split; [by destruct s|by constructor]. Qed.

Lemma off_bind {A B} (m : K A) (f : A -> K B) : off_screen m -> (forall a, off_screen (f a)) -> off_screen (bind m f).
Proof.
  intros Hm Hf s. destruct (Hm s) as (a & es & E & He). destruct (Hf a (s <| k_io ::= app es |>)) as (b & es' & E' & He').
  exists b, (es' ++ es). rewrite (bind_ok _ _ _ _ _ E), E'. split; [|by apply Forall_app].
  f_equal. destruct s. kred. by rewrite (assoc_L (++)).
Qed.

Lemma off_if {A} (b : bool) (m1 m2 : K A) : off_screen m1 -> off_screen m2 -> off_screen (if b then m1 else m2).
Proof. by destruct b. Qed.

Lemma off_uart_wait n : off_screen (uart_wait n).
Proof.
  induction n as [|n IH]; simpl; [apply off_ret|]. apply off_bind; [apply off_inb|]. intros v. apply off_if; [apply off_ret|done].
Qed.

Lemma off_uartputc c : off_screen (uartputc c).
Proof.
  apply off_bind; [apply off_dev|]. intros u. apply off_if; [apply off_ret|]. apply off_bind; [apply off_uart_wait|].
  intros _. apply off_outb; done.
Qed.

Lemma off_uart c : off_screen (if c =? BACKSPACE then uartputc 8 ;; uartputc 32 ;; uartputc 8 else uartputc c).
Proof. apply off_if; [|apply off_uartputc]. repeat (apply off_bind; [apply off_uartputc|intros _]). apply off_uartputc. Qed.

Lemma quiet_app es h : Forall crt_quiet es -> crt_regs c0 (es ++ h) = crt_regs c0 h.
Proof. induction 1 as [|e es He _ IH]; [done|]. rewrite <- app_comm_cons, quiet_regs by done. exact IH. Qed.

Lemma shows_quiet s p es : shows s p -> Forall crt_quiet es -> shows (s <| k_io ::= app es |>) p.
Proof. intros [] He. constructor; try done; cbn; unfold cursor; rewrite quiet_app by done; done. Qed.

(** ** One character *)

(** The memory a character leaves behind, for the cursor at [pos], and the new cursor. *)
Definition cga_at (pos c : Z) : Z :=
  if c =? 10 then pos + (80 - pos mod 80) else if c =? BACKSPACE then (if 0 <? pos then pos - 1 else pos) else pos + 1.

Definition put16 (a v : Z) (m : mem) : mem := store8 (store8 m (V2P a) v) (V2P a + 1) (Z.shiftr v 8).

Definition cga_char (pos c : Z) (m : mem) : mem :=
  if (c =? 10) || (c =? BACKSPACE) then m else put16 (crt_at pos) (ink c) m.

Definition cga_scroll (pos : Z) (m : mem) : mem :=
  if 24 <=? pos / 80 then memset (memmove m (V2P crt) (V2P (crt_at 80)) (2 * 23 * 80)) (V2P (crt_at (pos - 80))) 0 (2 * (24 * 80 - (pos - 80)))
  else m.

Definition cga_pos (pos : Z) : Z := if 24 <=? pos / 80 then pos - 80 else pos.

Lemma read_cursor {A} (k : Z -> Z -> K A) s i hi lo :
  crt_regs c0 (k_io s) = (i, hi, lo) -> is_u8 hi -> is_u8 lo ->
  (outb CRTPORT 14 ;; h <- inb (CRTPORT + 1) ;; outb CRTPORT 15 ;; l <- inb (CRTPORT + 1) ;; k h l) s =
  k hi lo (s <| k_io ::= app [In8 (CRTPORT + 1) lo; Out8 CRTPORT 15; In8 (CRTPORT + 1) hi; Out8 CRTPORT 14] |>).
Proof.
  intros E Hhi Hlo. set (h1 := Out8 CRTPORT 14 :: k_io s).
  assert (crt_regs c0 h1 = (14, hi, lo)) as E1 by (unfold h1; simpl; by rewrite E).
  set (h2 := Out8 CRTPORT 15 :: In8 (CRTPORT + 1) hi :: h1).
  assert (crt_regs c0 h2 = (15, hi, lo)) as E2.
  { unfold h2. cbn [crt_regs]. rewrite E1. done. }
  destruct (crt_ports h1 _ _ _ E1) as [P1 _], (crt_ports h2 _ _ _ E2) as [_ P2].
  unfold outb, inb, access. mstep. cbn [k_io set]. change (u8 14) with 14. change (u8 15) with 15.
  change (k_io (s <| k_io ::= cons (Out8 CRTPORT 14) |>)) with h1. rewrite P1, (u8_small hi) by done. mstep.
  change (k_io _) with h2. rewrite P2, (u8_small lo) by done. by destruct s.
Qed.

Lemma cga_range pos c : 0 <= pos < 24 * 80 -> 0 <= cga_at pos c <= 24 * 80 /\ 0 <= cga_pos (cga_at pos c) < 24 * 80.
Proof.
  intros Hp. assert (0 <= cga_at pos c <= 24 * 80) as Ha.
  { unfold cga_at. destruct (c =? 10), (c =? BACKSPACE), (Z.ltb_spec 0 pos); Z.to_euclidean_division_equations; lia. }
  split; [done|]. unfold cga_pos. destruct (Z.leb_spec 24 (cga_at pos c / 80)); Z.to_euclidean_division_equations; lia.
Qed.

Lemma cgaputc_run s c i hi lo :
  crt_regs c0 (k_io s) = (i, hi, lo) -> is_u8 hi -> is_u8 lo -> 256 * hi + lo < 24 * 80 ->
  let pos := cga_at (256 * hi + lo) c in
  exists es, cgaputc c s =
    Ok tt (s <| k_mem ::= fun m => put16 (crt_at (cga_pos pos)) (ink 32) (cga_scroll pos (cga_char (256 * hi + lo) c m)) |> <| k_io ::= app es |>) /\
    crt_regs c0 (es ++ k_io s) = (15, cga_pos pos / 256, cga_pos pos mod 256).
Proof.
  intros E Hhi Hlo Hlt pos. unfold is_u8 in Hhi, Hlo.
  destruct (cga_range (256 * hi + lo) c) as [Hp Hp2]; [lia|]. fold pos in Hp, Hp2.
  exists [Out8 (CRTPORT + 1) (u8 (cga_pos pos)); Out8 CRTPORT 15; Out8 (CRTPORT + 1) (u8 (Z.shiftr (cga_pos pos) 8)); Out8 CRTPORT 14;
          In8 (CRTPORT + 1) lo; Out8 CRTPORT 15; In8 (CRTPORT + 1) hi; Out8 CRTPORT 14]. split.
  - unfold cgaputc. rewrite (read_cursor _ s i hi lo E Hhi Hlo). rewrite lor_shift_add by lia.
    replace (hi * 2 ^ 8 + lo) with (256 * hi + lo) by lia.
    set (s1 := s <| k_io ::= app _ |>).
    erewrite (bind_ok _ _ s1 pos (s1 <| k_mem ::= cga_char (256 * hi + lo) c |>)).
    2: { unfold pos, cga_at, cga_char, store16. destruct (c =? 10); [by destruct s1|]. destruct (c =? BACKSPACE); [by destruct s1|]. reflexivity. }
    replace ((pos <? 0) || (25 * 80 <? pos)) with false by (symmetry; apply orb_false_iff; lia).
    erewrite (bind_ok _ _ _ (cga_pos pos) (s1 <| k_mem ::= fun m => cga_scroll pos (cga_char (256 * hi + lo) c m) |>)).
    2: { unfold cga_pos, cga_scroll. destruct (24 <=? pos / 80); [|by destruct s1].
         unfold crt_move, crt_set. mstep. destruct s1. kred. reflexivity. }
    unfold outb, access, store16. mstep. unfold s1. destruct s. reflexivity.
  - assert (u8 (Z.shiftr (cga_pos pos) 8) = cga_pos pos / 256) as ->.
    { rewrite Z.shiftr_div_pow2 by lia. apply u8_small. unfold is_u8. Z.to_euclidean_division_equations. lia. }
    cbn [app crt_regs]. rewrite E. done.
Qed.

(** ** Cells *)

Lemma V2P_crt pos : 0 <= pos <= 24 * 80 -> V2P (crt_at pos) = 0xb8000 + 2 * pos.
Proof.
  intros Hp. unfold V2P, crt_at. change crt with 0x800b8000. change KERNBASE with 0x80000000.
  rewrite u32_small; [lia|unfold is_u32; lia].
Qed.

Lemma ink_range c : 0 <= ink c < 2 ^ 16.
Proof.
  unfold ink. assert (0 <= Z.land c 0xff < 2 ^ 8) as Hc by (change 0xff with (Z.ones 8); rewrite Z.land_ones by lia; apply Z.mod_pos_bound; lia).
  rewrite Z.lor_comm. change 0x0700 with (Z.shiftl 7 8). rewrite lor_shift_add by lia. lia.
Qed.

Lemma put16_cell pos v m i :
  0 <= pos <= 24 * 80 -> 0 <= v < 2 ^ 16 -> cell (put16 (crt_at pos) v m) i = if i =? pos then v else cell m i.
Proof.
  intros Hp Hv. unfold put16, cell, store8. rewrite V2P_crt by done. rewrite Z.shiftr_div_pow2 by lia.
  destruct (Z.eqb_spec i pos) as [->|Hne].
  - rewrite (proj2 (Z.eqb_neq _ _)), !Z.eqb_refl by lia. rewrite (u8_small (v / 2 ^ 8)) by (unfold is_u8; Z.to_euclidean_division_equations; lia).
    unfold u8. pose proof (Z.div_mod v (2 ^ 8) ltac:(lia)). lia.
  - by rewrite !(proj2 (Z.eqb_neq _ _)) by lia.
Qed.

Lemma put16_out pos v m x : 0 <= pos < 24 * 80 -> ~ 0xb8000 <= x < 0xb8000 + 2 * 24 * 80 -> put16 (crt_at pos) v m x = m x.
Proof. intros Hp Hx. unfold put16, store8. rewrite V2P_crt by lia. by rewrite !(proj2 (Z.eqb_neq _ _)) by lia. Qed.

Lemma scroll_cell m i :
  0 <= i < 24 * 80 -> cell (cga_scroll (24 * 80) m) i = if i <? 23 * 80 then cell m (i + 80) else 0.
Proof.
  intros Hi. unfold cga_scroll. change (24 <=? 24 * 80 / 80) with true. cbv iota.
  rewrite memset_fill, memmove_copy by lia. change (V2P crt) with 0xb8000. rewrite !V2P_crt by lia. unfold cell, fill, copy.
  repeat match goal with |- context [?a <=? ?b] => destruct (Z.leb_spec a b); try lia end;
  repeat match goal with |- context [?a <? ?b] => destruct (Z.ltb_spec a b); try lia end; cbn [andb]; try done.
  f_equal; [|f_equal]; f_equal; lia.
Qed.

Lemma scroll_out pos m x : 0 <= pos <= 24 * 80 -> ~ 0xb8000 <= x < 0xb8000 + 2 * 24 * 80 -> cga_scroll pos m x = m x.
Proof.
  intros Hp Hx. unfold cga_scroll. destruct (Z.leb_spec 24 (pos / 80)); [|done].
  assert (pos = 24 * 80) as -> by (Z.to_euclidean_division_equations; lia).
  rewrite memset_fill, memmove_copy by lia. change (V2P crt) with 0xb8000. rewrite !V2P_crt by lia. unfold fill, copy.
  repeat match goal with |- context [?a <=? ?b] => destruct (Z.leb_spec a b); try lia end;
  repeat match goal with |- context [?a <? ?b] => destruct (Z.ltb_spec a b); try lia end; cbn [andb]; done.
Qed.

Lemma char_out pos c m x : 0 <= pos < 24 * 80 -> ~ 0xb8000 <= x < 0xb8000 + 2 * 24 * 80 -> cga_char pos c m x = m x.
Proof. intros Hp Hx. unfold cga_char. destruct (_ || _); [done|by apply put16_out]. Qed.

Lemma char_cell pos c m i : 0 <= pos < 24 * 80 ->
  cell (cga_char pos c m) i = if (c =? 10) || (c =? BACKSPACE) then cell m i else if i =? pos then ink c else cell m i.
Proof. intros Hp. unfold cga_char. destruct (_ || _); [done|]. apply put16_cell; [lia|apply ink_range]. Qed.

(** What is on the page under the character, before the cursor is shown. *)
Definition page_ink (p : page) (c : Z) : Z -> Z :=
  if (c =? 10) || (c =? BACKSPACE) then pg_at p else write_at (pg_pos p) (ink c) (pg_at p).

Lemma advance_at p c : cga_at (pg_pos p - 80 * pg_top p) c = advance p c - 80 * pg_top p.
Proof.
  unfold cga_at, advance. rewrite (Z.mul_comm 80), Zminus_mod, Z.mod_mul, Z.sub_0_r, Z.mod_mod by lia.
  destruct (c =? 10); [lia|]. destruct (c =? BACKSPACE); [|lia].
  destruct (Z.ltb_spec 0 (pg_pos p - pg_top p * 80)), (Z.ltb_spec (pg_top p * 80) (pg_pos p)); lia.
Qed.

Lemma advance_top p c : 0 <= advance p c - 80 * pg_top p <= 24 * 80 ->
  cga_pos (advance p c - 80 * pg_top p) = advance p c - 80 * pg_top (page_put p c) /\
  ((advance p c - 80 * pg_top p < 24 * 80 /\ pg_top (page_put p c) = pg_top p) \/
   (advance p c - 80 * pg_top p = 24 * 80 /\ pg_top (page_put p c) = pg_top p + 1)).
Proof.
  intros Ha. unfold cga_pos. simpl. set (a := advance p c) in *.
  destruct (Z.leb_spec 24 ((a - 80 * pg_top p) / 80)); Z.to_euclidean_division_equations; lia.
Qed.

(** The cells of the screen after the character, at the rows the page then shows. *)
Lemma scrolled_cells s p c i : shows s p -> 0 <= i < 24 * 80 ->
  let pos := pg_pos p - 80 * pg_top p in
  cell (cga_scroll (cga_at pos c) (cga_char pos c (k_mem s))) i = page_ink p c (80 * pg_top (page_put p c) + i).
Proof.
  intros Hs Hi pos. pose proof (sh_range _ _ Hs) as Hr. fold pos in Hr.
  assert (forall j, 0 <= j < 24 * 80 -> cell (cga_char pos c (k_mem s)) j = page_ink p c (80 * pg_top p + j)) as Hc.
  { intros j Hj. rewrite char_cell by done. unfold page_ink, write_at. rewrite (sh_cells _ _ Hs) by done. destruct (_ || _); [done|].
    destruct (Z.eqb_spec j pos), (Z.eqb_spec (80 * pg_top p + j) (pg_pos p)); subst pos; try lia; done. }
  destruct (cga_range pos c Hr) as [Ha _]. unfold pos in Ha at 1 2. rewrite advance_at in Ha. unfold pos at 1. rewrite advance_at.
  destruct (advance_top p c Ha) as [_ [[Hlt ->]|[-> ->]]].
  - unfold cga_scroll. rewrite (proj2 (Z.leb_gt _ _)) by (apply Z.div_lt_upper_bound; lia). by apply Hc.
  - rewrite scroll_cell by done. destruct (Z.ltb_spec i (23 * 80)); [rewrite Hc by lia; f_equal; lia|].
    unfold page_ink, write_at. destruct (_ || _); [symmetry; apply (sh_blank _ _ Hs); lia|].
    rewrite (proj2 (Z.eqb_neq _ _)) by lia. symmetry. apply (sh_blank _ _ Hs). lia.
Qed.

Definition screen_bytes (x : Z) : Prop := 0xb8000 <= x < 0xb8000 + 2 * 24 * 80.

(** [s'] differs from [s] in the bytes of the screen and the accesses to the devices. *)
Definition on_screen (s s' : kst) : Prop :=
  exists m es, s' = s <| k_mem := m |> <| k_io ::= app es |> /\ forall x, ~ screen_bytes x -> m x = k_mem s x.

Lemma on_screen_refl s : on_screen s s.
Proof. exists (k_mem s), []. split; [by destruct s|done]. Qed.

Lemma on_screen_trans s1 s2 s3 : on_screen s1 s2 -> on_screen s2 s3 -> on_screen s1 s3.
Proof.
  intros (m & es & -> & Hm) (m' & es' & -> & Hm'). exists m', (es' ++ es). split.
  - destruct s1. kred. by rewrite (assoc_L (++)).
  - intros x Hx. rewrite Hm' by done. apply (Hm x Hx).
Qed.

Lemma cgaputc_shows s p c : shows s p ->
  exists s', cgaputc c s = Ok tt s' /\ shows s' (page_put p c) /\ on_screen s s'.
Proof.
  intros Hs. destruct (sh_bytes _ _ Hs) as (i & hi & lo & E & Hhi & Hlo).
  pose proof (sh_range _ _ Hs) as Hr. pose proof (sh_cursor _ _ Hs) as Hc. unfold cursor in Hc. rewrite E in Hc. rewrite <- Hc in Hr.
  destruct (cgaputc_run s c i hi lo E Hhi Hlo ltac:(lia)) as (es & -> & Er). rewrite Hc in *.
  destruct (cga_range _ c Hr) as [Ha Hp]. eexists. split; [reflexivity|].
  assert (cga_pos (cga_at (pg_pos p - 80 * pg_top p) c) = advance p c - 80 * pg_top (page_put p c)) as Epos.
  { rewrite advance_at in Ha |- *. apply (advance_top p c Ha). }
  split; [constructor|].
  - intros j Hj. cbn [k_mem]. change (k_mem _) with (put16 (crt_at (cga_pos (cga_at (pg_pos p - 80 * pg_top p) c))) (ink 32)
      (cga_scroll (cga_at (pg_pos p - 80 * pg_top p) c) (cga_char (pg_pos p - 80 * pg_top p) c (k_mem s)))).
    rewrite put16_cell by (try apply ink_range; lia). rewrite (scrolled_cells s p c j Hs Hj), Epos.
    change (pg_at (page_put p c)) with (write_at (advance p c) (ink 32) (page_ink p c)). unfold write_at at 1.
    destruct (Z.eqb_spec j (advance p c - 80 * pg_top (page_put p c))), (Z.eqb_spec (80 * pg_top (page_put p c) + j) (advance p c)); lia || done.
  - intros x Hx. change (pg_at (page_put p c)) with (write_at (advance p c) (ink 32) (page_ink p c)). unfold write_at at 1. rewrite advance_at in Ha.
    destruct (advance_top p c Ha) as [_ Ht]. rewrite (proj2 (Z.eqb_neq _ _)) by lia.
    unfold page_ink. destruct (_ || _); [|unfold write_at; rewrite (proj2 (Z.eqb_neq _ _)) by lia]; apply (sh_blank _ _ Hs); lia.
  - pose proof (sh_top _ _ Hs). simpl. lia.
  - unfold cursor. change (k_io _) with (es ++ k_io s). rewrite Er. change (pg_pos (page_put p c)) with (advance p c).
    rewrite <- Epos. symmetry. apply Z.div_mod. lia.
  - change (pg_pos (page_put p c)) with (advance p c). lia.
  - change (k_io _) with (es ++ k_io s). rewrite Er. do 3 eexists. split; [reflexivity|]. unfold is_u8. Z.to_euclidean_division_equations. lia.
  - eexists _, es. split; [by destruct s|]. intros x Hx. rewrite put16_out, scroll_out, char_out by done. done.
Qed.

Lemma consputc_shows s p c : shows s p ->
  exists s', consputc_hw c s = Ok tt s' /\ shows s' (page_put p c) /\ on_screen s s'.
Proof.
  intros Hs. destruct (off_uart c s) as ([] & es & E & He). unfold consputc_hw. rewrite (bind_ok _ _ _ _ _ E).
  destruct (cgaputc_shows _ _ c (shows_quiet _ _ _ Hs He)) as (s' & -> & Hs' & Ho). exists s'. split_and!; [done..|].
  eapply on_screen_trans; [|exact Ho]. exists (k_mem s), es. split; [by destruct s|done].
Qed.

(** C33. The screen is a window on an endless page. Whatever characters are written, and
    whatever the serial line answers meanwhile, [consputc] never panics on the cursor; each
    newline, backspace and character does to the page what it should; once the cursor
    leaves the last row the window follows it by a row; and no byte of memory outside the
    rows shown is touched, nor any other variable of the kernel. *)
Theorem screen_refines_page cs s p : shows s p ->
  exists s', for_each cs consputc_hw s = Ok tt s' /\ shows s' (foldl page_put p cs) /\ on_screen s s'.
Proof.
  revert s p. induction cs as [|c cs IH]; intros s p Hs; simpl; [exists s; split_and!; [done..|apply on_screen_refl]|].
  destruct (consputc_shows s p c Hs) as (s1 & E1 & Hs1 & Ho1). destruct (IH _ _ Hs1) as (s2 & E2 & Hs2 & Ho2).
  exists s2. rewrite (bind_ok _ _ _ _ _ E1). split_and!; [done..|]. by eapply on_screen_trans.
Qed.
End Shows.

Lemma screen_refines_page_witness : exists (P : Ports) s,
  (forall h i hi lo, crt_regs 1919 h = (i, hi, lo) ->
     (i = 14 -> port_in h (CRTPORT + 1) = hi) /\ (i = 15 -> port_in h (CRTPORT + 1) = lo)) /\
  shows 1919 s (mkPage (fun _ => 0) 1919 0) /\
  exists s', for_each (str "ab" ++ [BACKSPACE; 10]) consputc_hw s = Ok tt s' /\
    shows 1919 s' (foldl page_put (mkPage (fun _ => 0) 1919 0) (str "ab" ++ [BACKSPACE; 10])) /\ on_screen s s'.
Proof.
  exists {| port_in := fun h _ => let '(i, hi, lo) := crt_regs 1919 h in if i =? 14 then hi else lo;
            port_inl := fun _ _ _ => []; reg_in := fun _ _ _ => 0; patience := 3 |}, (kst0 (fun _ => [])).
  match goal with |- ?A /\ ?B /\ _ => assert A as HP; [|assert B as HB; [|split; [exact HP|split; [exact HB|exact (screen_refines_page 1919 HP _ _ _ HB)]]]] end.
  - intros h i hi lo E. cbn [port_in]. rewrite E. split; intros ->; done.
  - constructor; try done; try (simpl; lia). exists 0, 7, 127. split_and!; unfold is_u8; done.
Defined.
