(* ===== verification/Kalloc.v ===== *)
(** * The physical page allocator ([kalloc.c])

    Free pages form a linked list through their own first word. The invariant
    describes the list, and the theorems relate [kalloc] and [kfree] to a stack
    of pages. *)

From S2P Require Import Prelude Params State Mem Strings Locks.
Import Spin.

(** ** The code *)

(** The first word of the page at kernel address [r], [r->next]. *)
Definition run_next (m : mem) (r : Z) : Z := load32 m (V2P r).

Definition lock_kmem : K unit :=
  ul <- gets (fun s => use_lock (k_kmem s)) ;; when ul (acquire LKmem).

Definition unlock_kmem : K unit :=
  ul <- gets (fun s => use_lock (k_kmem s)) ;; when ul (release LKmem).

Definition kfree (v : Z) : K unit :=
  s <- get ;;
  if nz (v mod PGSIZE) || (v <? end_ (k_link s)) || (PHYSTOP <=? V2P v)
  then panic "kfree" else
  modify (fun s => s <| k_mem ::= fun m => memset m (V2P v) 1 PGSIZE |>) ;;
  lock_kmem ;;
  modify (fun s => s <| k_mem ::= fun m => store32 m (V2P v) (freelist (k_kmem s)) |>) ;;
  modify (fun s => s <| k_kmem ::= fun km => km <| freelist := v |> |>) ;;
  unlock_kmem.

Definition kalloc : K Z :=
  lock_kmem ;;
  r <- gets (fun s => freelist (k_kmem s)) ;;
  when (nz r) (modify (fun s =>
    s <| k_kmem ::= fun km => km <| freelist := run_next (k_mem s) r |> |>)) ;;
  unlock_kmem ;;
  ret r.

(** [for(; p + PGSIZE <= vend; p += PGSIZE) kfree(p)], at most [n] times. *)
Fixpoint freerange_loop (n : nat) (p vend : Z) : K unit :=
  match n with
  | O => ret tt
  | S n' =>
      if u32 (p + PGSIZE) <=? vend
      then kfree p ;; freerange_loop n' (u32 (p + PGSIZE)) vend
      else ret tt
  end.

(** There are at most [2^20] pages. *)
Definition freerange (vstart vend : Z) : K unit :=
  let p := PGROUNDUP vstart in
  freerange_loop (Z.to_nat ((vend - p) / PGSIZE) + 1) p vend.

Definition kinit1 (vstart vend : Z) : K unit :=
  initlock LKmem ;;
  modify (fun s => s <| k_kmem ::= fun km => km <| use_lock := false |> |>) ;;
  freerange vstart vend.

Definition kinit2 (vstart vend : Z) : K unit :=
  freerange vstart vend ;;
  modify (fun s => s <| k_kmem ::= fun km => km <| use_lock := true |> |>).

(** ** The free list *)

(** [chain m p l]: following [next] from [p] in memory [m] meets exactly the pages [l]. *)
Inductive chain (m : mem) : Z -> list Z -> Prop :=
| chain_nil : chain m 0 []
| chain_cons p l : p <> 0 -> chain m (run_next m p) l -> chain m p (p :: l).

(** The pages [kfree] accepts. *)
Definition page_ok (lk : link) (p : Z) : Prop :=
  p mod PGSIZE = 0 /\ end_ lk <= p < KERNBASE + PHYSTOP.

(** The kernel is linked above [KERNBASE]. *)
Definition link_ok (lk : link) : Prop := KERNBASE < end_ lk.

Definition kmem_inv (s : kst) (l : list Z) : Prop :=
  link_ok (k_link s) /\ chain (k_mem s) (freelist (k_kmem s)) l /\
  NoDup l /\ Forall (page_ok (k_link s)) l.

Lemma V2P_page lk p : link_ok lk -> page_ok lk p -> V2P p = p - KERNBASE.
Proof.
  unfold link_ok, page_ok, V2P, KERNBASE, PHYSTOP. intros H1 [H2 H3].
  apply u32_small. unfold is_u32. lia.
Qed.

Lemma page_ok_nz lk p : link_ok lk -> page_ok lk p -> p <> 0 /\ is_u32 p.
Proof. unfold link_ok, page_ok, KERNBASE, PHYSTOP, is_u32. lia. Qed.

(** Distinct pages do not overlap. *)
Lemma pages_apart lk p q :
  page_ok lk p -> page_ok lk q -> p <> q -> p + PGSIZE <= q \/ q + PGSIZE <= p.
Proof.
  unfold page_ok, PGSIZE. intros [Hp _] [Hq _] Hne.
  pose proof (Z.div_mod p 4096). pose proof (Z.div_mod q 4096). lia.
Qed.

(** The list depends only on the first words of the pages on it. *)
Lemma chain_agree m m' p l :
  chain m p l -> (forall q, q ∈ l -> agree m m' (V2P q) 4) -> chain m' p l.
Proof.
  induction 1 as [|p l Hp Hc IH]; intros Ha; constructor; [done|].
  unfold run_next in *. rewrite <- (load32_agree m m'); [|apply Ha; set_solver].
  apply IH. intros q Hq. apply Ha. set_solver.
Qed.

Lemma chain_head m p l : chain m p l -> p <> 0 -> exists l', l = p :: l' /\ chain m (run_next m p) l'.
Proof. intros H Hp. inversion H; subst; [done|eauto]. Qed.

(** ** Running the code *)

Lemma kfree_run v s :
  link_ok (k_link s) -> page_ok (k_link s) v -> unlocked LKmem s ->
  kfree v s = Ok tt (s
    <| k_mem ::= fun m => store32 (fill m (V2P v) 1 PGSIZE) (V2P v) (freelist (k_kmem s)) |>
    <| k_kmem ::= fun km => km <| freelist := v |> |>
    <| k_cpu ::= lcpu (use_lock (k_kmem s)) |>).
Proof.
  intros Hl Hp [HL Hwf]. pose proof (V2P_page _ _ Hl Hp) as HV. destruct Hp as [Hp1 Hp2].
  unfold kfree. mstep. rewrite Hp1. unfold nz. simpl (negb _).
  rewrite (proj2 (Z.ltb_ge v _)) by lia.
  rewrite (proj2 (Z.leb_gt PHYSTOP _)) by lia. simpl (_ || _). cbv iota. mstep.
  unfold lock_kmem, unlock_kmem. mstep. simpl.
  destruct (use_lock (k_kmem s)) eqn:Eu; unfold when.
  - mcall (acquire_run LKmem); [|done]. mstep. simpl. rewrite Eu.
    rewrite (release_acquired LKmem s); [|done..].
    destruct s. unfold set, set_k_mem. simpl. by rewrite memset_fill.
  - mstep. simpl. rewrite Eu. destruct s. unfold ret, set, set_k_mem. simpl. by rewrite memset_fill.
Qed.

Lemma kalloc_run s :
  unlocked LKmem s ->
  kalloc s = Ok (freelist (k_kmem s)) (s
    <| k_kmem ::= fun km => if nz (freelist km)
                            then km <| freelist := run_next (k_mem s) (freelist km) |> else km |>
    <| k_cpu ::= lcpu (use_lock (k_kmem s)) |>).
Proof.
  intros [HL Hwf]. unfold kalloc, lock_kmem, unlock_kmem. mstep.
  destruct (use_lock (k_kmem s)) eqn:Eu; unfold when.
  - mcall (acquire_run LKmem); [|done]. mstep. simpl.
    destruct (nz (freelist (k_kmem s))) eqn:En; mstep; simpl; rewrite Eu;
      (erewrite bind_ok; [|apply (release_acquired LKmem s); done]);
      destruct s; unfold set, set_k_kmem; simpl in *; by rewrite En.
  - mstep. destruct (nz (freelist (k_kmem s))) eqn:En; mstep; simpl; rewrite Eu;
      mstep; destruct s; unfold set, set_k_kmem; simpl in *; by rewrite En.
Qed.

(** Freeing a page pushes it on the list and leaves the rest of memory alone. *)
Lemma kfree_spec v s l :
  kmem_inv s l -> page_ok (k_link s) v -> v ∉ l -> unlocked LKmem s ->
  exists s', kfree v s = Ok tt s' /\ kmem_inv s' (v :: l) /\
    (forall x, x < V2P v \/ V2P v + PGSIZE <= x -> k_mem s' x = k_mem s x).
Proof.
  intros (Hl & Hc & Hnd & Hok) Hp Hni Hu.
  rewrite kfree_run by done. eexists. split; [reflexivity|].
  pose proof (page_ok_nz _ _ Hl Hp) as [Hnz Hu32].
  split.
  - split_and!; simpl; [done| |by constructor|by constructor].
    constructor; [done|]. unfold run_next. rewrite load32_store32.
    assert (u32 (freelist (k_kmem s)) = freelist (k_kmem s)) as ->.
    { apply u32_small. inversion Hc as [|q l' Hq Hc' Heq]; subst; [unfold is_u32; lia|].
      apply Forall_cons_1 in Hok as [Hq' _]. by apply (page_ok_nz _ _ Hl Hq'). }
    apply (chain_agree (k_mem s)); [done|]. intros q Hq x Hx.
    assert (page_ok (k_link s) q) as Hqok by (rewrite list.Forall_forall in Hok; auto).
    rewrite (V2P_page _ _ Hl Hqok) in Hx.
    destruct (pages_apart _ q v Hqok Hp) as [H|H]; [set_solver| |];
      unfold PGSIZE in H; simpl; rewrite store32_other, fill_out by (rewrite (V2P_page _ _ Hl Hp); unfold PGSIZE; lia); done.
  - intros x Hx. simpl. rewrite store32_other, fill_out; auto. unfold PGSIZE in *. lia.
Qed.

(** Allocation pops the list; memory is not touched. *)
Lemma kalloc_spec s l :
  kmem_inv s l -> unlocked LKmem s ->
  exists s', kalloc s = Ok (default 0 (head l)) s' /\ kmem_inv s' (tail l) /\
    k_mem s' = k_mem s.
Proof.
  intros (Hl & Hc & Hnd & Hok) Hu. rewrite kalloc_run by done.
  destruct l as [|p l]; simpl.
  - inversion Hc as [Heq|]; subst. eexists. split; [reflexivity|]. split; [|done].
    split_and!; simpl; auto. rewrite <- Heq. simpl. rewrite <- Heq. constructor.
  - inversion Hc as [|q l' Hq Hc' Heq]; subst.
    apply list.NoDup_cons in Hnd as [Hni Hnd]. apply Forall_cons_1 in Hok as [Hp Hok].
    eexists. split; [reflexivity|]. split; [|done].
    split_and!; simpl; auto. unfold nz. destruct (Z.eqb_spec (freelist (k_kmem s)) 0); done.
Qed.

(** ** Initialisation *)

(** [n] consecutive pages from [p]. *)
Definition pages (p : Z) (n : nat) : list Z := (fun i => p + PGSIZE * Z.of_nat i) <$> seq 0 n.

Lemma pages_S p n : pages p (S n) = p :: pages (p + PGSIZE) n.
Proof.
  unfold pages. simpl. f_equal; [lia|]. rewrite <- seq_shift, <- list_fmap_compose.
  apply list_fmap_ext. intros i x _. simpl. lia.
Qed.

Lemma elem_of_pages p n q :
  q ∈ pages p n <-> exists i, 0 <= i < Z.of_nat n /\ q = p + PGSIZE * i.
Proof.
  unfold pages. rewrite list_elem_of_fmap. split.
  - intros (i & -> & Hi). apply elem_of_seq in Hi. exists (Z.of_nat i). lia.
  - intros (i & Hi & ->). exists (Z.to_nat i). rewrite Z2Nat.id by lia. split; [done|]. apply elem_of_seq. lia.
Qed.

(** The loop frees every whole page below [vend]; it stops by its own test. *)
Lemma freerange_loop_spec n p vend s l :
  kmem_inv s l -> unlocked LKmem s ->
  p mod PGSIZE = 0 -> end_ (k_link s) <= p -> vend <= KERNBASE + PHYSTOP ->
  (forall q, q ∈ l -> q + PGSIZE <= p) ->
  p <= vend -> n = Z.to_nat ((vend - p) / PGSIZE) ->
  exists s', freerange_loop (S n) p vend s = Ok tt s' /\
    kmem_inv s' (rev (pages p n) ++ l) /\ unlocked LKmem s' /\
    k_link s' = k_link s /\ use_lock (k_kmem s') = use_lock (k_kmem s).
Proof.
  intros Hinv Hu Hal Hend Hvend Hlow Hle Hn. revert p s l Hinv Hu Hal Hend Hlow Hle Hn.
  assert (PGSIZE = 4096) as HP by done. assert (KERNBASE + PHYSTOP = 2382364672) as HK by done.
  induction n as [|n IH]; intros p s l Hinv Hu Hal Hend Hlow Hle Hn;
    pose proof (Z.div_mod (vend - p) PGSIZE ltac:(lia)) as Hdm;
    pose proof (Z.mod_pos_bound (vend - p) PGSIZE ltac:(lia)) as Hmb;
    assert (link_ok (k_link s)) as Hl by apply Hinv; unfold link_ok, KERNBASE in Hl;
    assert (0 <= (vend - p) / PGSIZE) as Hq by (apply Z.div_pos; lia);
    assert (u32 (p + PGSIZE) = p + PGSIZE) as Hw by (apply u32_small; unfold is_u32; lia).
  - cbn [freerange_loop]. rewrite Hw, (proj2 (Z.leb_gt _ _)) by lia.
    exists s. simpl. auto.
  - rewrite pages_S. assert (page_ok (k_link s) p) as Hpok by (split; [done|lia]).
    destruct (kfree_spec p s l Hinv Hpok) as (s1 & Hk & Hinv1 & _); [|done|].
    { intros Hin. specialize (Hlow _ Hin). lia. }
    rewrite kfree_run in Hk by (try done; apply Hinv).
    cbn [freerange_loop]. rewrite Hw, (proj2 (Z.leb_le _ _)) by lia.
    mcall kfree_run; [|apply Hinv|done|done]. injection Hk as Hs1. rewrite Hs1.
    destruct (IH (p + PGSIZE) s1 (p :: l)) as (s' & Hr & Hinv' & Hu' & Hlk & Hul); subst s1; simpl in *.
    + done.
    + destruct Hu as [HL Hwf]. split; simpl; [done|].
      unfold lcpu. destruct (use_lock _); [by rewrite settle_wf|done].
    + rewrite <- Zplus_mod_idemp_l, Hal. by rewrite HP.
    + lia.
    + intros q [->|Hin]%elem_of_cons; [lia|]. specialize (Hlow _ Hin). lia.
    + lia.
    + replace (vend - (p + PGSIZE)) with (vend - p + (-1) * PGSIZE) by lia.
      rewrite Z.div_add by lia. lia.
    + exists s'. split_and!; [exact Hr| |done..].
      by rewrite <- app_assoc.
Qed.

(** [freerange] frees the whole pages between its two bounds, in order. *)
Lemma freerange_spec vstart vend s l :
  kmem_inv s l -> unlocked LKmem s ->
  end_ (k_link s) <= vstart <= vend -> PGROUNDUP vstart <= vend <= KERNBASE + PHYSTOP ->
  (forall q, q ∈ l -> q + PGSIZE <= PGROUNDUP vstart) ->
  exists s', freerange vstart vend s = Ok tt s' /\
    kmem_inv s' (rev (pages (PGROUNDUP vstart)
                       (Z.to_nat ((vend - PGROUNDUP vstart) / PGSIZE))) ++ l) /\
    unlocked LKmem s' /\ k_link s' = k_link s /\ use_lock (k_kmem s') = use_lock (k_kmem s).
Proof.
  intros Hinv Hu Hs Hv Hlow. assert (link_ok (k_link s)) as Hl by apply Hinv.
  assert (PGROUNDUP vstart mod PGSIZE = 0 /\ vstart <= PGROUNDUP vstart < vstart + PGSIZE) as [Ha Hb].
  { apply PGROUNDUP_spec. unfold link_ok, KERNBASE, PHYSTOP, PGSIZE in *. lia. }
  unfold freerange. rewrite Nat.add_1_r.
  apply freerange_loop_spec; auto; lia.
Qed.

(** The pages a range of addresses contains. *)
Lemma elem_of_range_pages a b q :
  a mod PGSIZE = 0 -> b mod PGSIZE = 0 -> a <= b ->
  q ∈ pages a (Z.to_nat ((b - a) / PGSIZE)) <-> q mod PGSIZE = 0 /\ a <= q < b.
Proof.
  unfold PGSIZE. intros Ha Hb Hab. rewrite elem_of_pages. unfold PGSIZE.
  pose proof (Z.div_mod a 4096 ltac:(lia)). pose proof (Z.div_mod b 4096 ltac:(lia)).
  assert (b - a = (b / 4096 - a / 4096) * 4096) as E by lia.
  rewrite E, Z.div_mul, Z2Nat.id by lia. split.
  - intros (i & Hi & ->). split; [|lia]. rewrite Z.mul_comm, Z.mod_add; lia.
  - intros [Hq Hr]. pose proof (Z.div_mod q 4096 ltac:(lia)).
    exists (q / 4096 - a / 4096). lia.
Qed.

Lemma elem_of_rev_pages a b l q :
  a mod PGSIZE = 0 -> b mod PGSIZE = 0 -> a <= b ->
  q ∈ rev (pages a (Z.to_nat ((b - a) / PGSIZE))) ++ l
  <-> (q mod PGSIZE = 0 /\ a <= q < b) \/ q ∈ l.
Proof.
  intros Ha Hb H. rewrite elem_of_app, list_elem_of_In, <- in_rev, <- list_elem_of_In.
  by rewrite elem_of_range_pages.
Qed.

(** [main] boots the allocator with the first 4 megabytes; the kernel's image
    ends below them. *)
Definition boot_limit : Z := P2V (4 * 1024 * 1024).

Definition boot_ok (s : kst) : Prop :=
  KERNBASE < end_ (k_link s) <= boot_limit /\
  freelist (k_kmem s) = 0 /\ cpu_wf (k_cpu s).

Lemma kinit1_spec s :
  boot_ok s ->
  exists s' l, kinit1 (end_ (k_link s)) boot_limit s = Ok tt s' /\ kmem_inv s' l /\
    unlocked LKmem s' /\ k_link s' = k_link s /\ use_lock (k_kmem s') = false /\
    forall q, q ∈ l <-> q mod PGSIZE = 0 /\ end_ (k_link s) <= q < boot_limit.
Proof.
  intros (He & Hf & Hwf). unfold kinit1, initlock. mstep.
  change boot_limit with 0x80400000 in *. unfold KERNBASE in He.
  destruct (PGROUNDUP_spec (end_ (k_link s))) as [Ha Hb]; [unfold PGSIZE; lia|].
  assert (PGROUNDUP (end_ (k_link s)) <= 0x80400000) as Hle.
  { unfold PGSIZE in *. pose proof (Z.div_mod (PGROUNDUP (end_ (k_link s))) 4096 ltac:(lia)). lia. }
  edestruct (freerange_spec (end_ (k_link s)) 0x80400000) as (s1 & Hr1 & Hi1 & Hu1 & Hk1 & Hl1);
    [| | | | |exists s1; eexists; split_and!; [exact Hr1|exact Hi1|exact Hu1|exact Hk1|exact Hl1|]].
  { split_and!; simpl; [unfold link_ok, KERNBASE; simpl; lia| |apply NoDup_nil_2|constructor].
    rewrite Hf. constructor. }
  { split; simpl; [apply lookup_delete_eq|done]. }
  { simpl. lia. }
  { unfold KERNBASE, PHYSTOP. lia. }
  { set_solver. }
  intros q. etransitivity; [apply elem_of_rev_pages; done|]. rewrite elem_of_nil.
  unfold PGSIZE in *. pose proof (Z.div_mod (PGROUNDUP (end_ (k_link s))) 4096 ltac:(lia)).
  pose proof (Z.div_mod q 4096 ltac:(lia)). lia.
Qed.

Lemma kinit2_spec s l :
  kmem_inv s l -> unlocked LKmem s -> end_ (k_link s) <= boot_limit ->
  (forall q, q ∈ l -> q < boot_limit) ->
  exists s' l', kinit2 boot_limit (P2V PHYSTOP) s = Ok tt s' /\ kmem_inv s' l' /\
    unlocked LKmem s' /\ use_lock (k_kmem s') = true /\
    forall q, q ∈ l' <-> (q mod PGSIZE = 0 /\ boot_limit <= q < P2V PHYSTOP) \/ q ∈ l.
Proof.
  intros Hi Hu Hend Hlow. unfold kinit2.
  change boot_limit with 0x80400000 in *. change (P2V PHYSTOP) with (KERNBASE + PHYSTOP).
  assert (PGROUNDUP 0x80400000 = 0x80400000) as H4 by reflexivity.
  destruct (freerange_spec 0x80400000 (KERNBASE + PHYSTOP) s l Hi Hu) as (s2 & Hr2 & Hi2 & Hu2 & Hk2 & Hl2).
  { unfold KERNBASE, PHYSTOP. lia. }
  { rewrite H4. unfold KERNBASE, PHYSTOP. lia. }
  { intros q Hq. rewrite H4. specialize (Hlow q Hq). destruct Hi as (_ & _ & _ & Hok).
    rewrite list.Forall_forall in Hok. destruct (Hok q Hq) as [Hq1 _].
    unfold PGSIZE in *. pose proof (Z.div_mod q 4096 ltac:(lia)). lia. }
  rewrite H4 in Hi2. mcall Hr2. eexists _, _. split; [reflexivity|].
  split_and!; [exact Hi2|done|done|]. intros q. by apply elem_of_rev_pages.
Qed.

(** C9. Booting the allocator gives it all of free memory. [kinit1] returns
    without [panic] and leaves on the free list exactly the pages from the end
    of the kernel's image to 4 megabytes; whatever pages [main] has taken
    since, [kinit2] adds exactly the pages from 4 megabytes to [PHYSTOP] to
    those still free, and turns the lock on. The list never holds a page twice. *)
Theorem kinit_frees_all s :
  boot_ok s ->
  exists s1 l1, kinit1 (end_ (k_link s)) boot_limit s = Ok tt s1 /\ kmem_inv s1 l1 /\
    use_lock (k_kmem s1) = false /\
    (forall q, q ∈ l1 <-> q mod PGSIZE = 0 /\ end_ (k_link s) <= q < boot_limit) /\
    forall s2 l2, kmem_inv s2 l2 -> l2 ⊆ l1 -> unlocked LKmem s2 -> k_link s2 = k_link s ->
      exists s3 l3, kinit2 boot_limit (P2V PHYSTOP) s2 = Ok tt s3 /\ kmem_inv s3 l3 /\
        use_lock (k_kmem s3) = true /\
        forall q, q ∈ l3 <-> (q mod PGSIZE = 0 /\ boot_limit <= q < P2V PHYSTOP) \/ q ∈ l2.
Proof.
  intros Hb. destruct (kinit1_spec s Hb) as (s1 & l1 & H1 & Hi1 & Hu1 & Hk1 & Hul1 & Hl1).
  exists s1, l1. split_and!; [done..|]. intros s2 l2 Hi2 Hsub Hu2 Hk2.
  destruct (kinit2_spec s2 l2 Hi2 Hu2) as (s3 & l3 & H3 & Hi3 & _ & Hul3 & Hl3).
  - rewrite Hk2. apply Hb.
  - intros q Hq. apply Hsub in Hq. apply Hl1 in Hq. lia.
  - exists s3, l3. done.
Qed.

Lemma kinit_frees_all_witness :
  boot_ok (kst0 (fun _ => [])) /\
  exists s' l, kinit1 0x80115000 boot_limit (kst0 (fun _ => [])) = Ok tt s' /\ kmem_inv s' l /\
    0x80116000 ∈ l /\ (boot_limit ∈ l -> False).
Proof.
  assert (boot_ok (kst0 (fun _ => []))) as H
    by (repeat split; change boot_limit with 0x80400000; simpl; unfold KERNBASE; lia).
  split; [exact H|].
  destruct (kinit_frees_all _ H) as (s' & l & H1 & H2 & _ & H3 & _).
  exists s', l. split; [exact H1|]. split; [exact H2|]. rewrite !H3.
  change boot_limit with 0x80400000. simpl. split; [split; [reflexivity|]|]; lia.
Defined.

(** ** The allocator as a stack of pages *)

(** What the rest of the kernel does: it allocates, frees pages it holds, and
    stores bytes into pages it holds. *)
Inductive op := Alloc | Free (v : Z) | Store (a b : Z).

Definition run_op (o : op) : K Z :=
  match o with
  | Alloc => kalloc
  | Free v => kfree v ;; ret 0
  | Store a b => modify (fun s => s <| k_mem ::= fun m => store8 m (V2P a) b |>) ;; ret 0
  end.

Fixpoint run_ops (os : list op) : K (list Z) :=
  match os with
  | [] => ret []
  | o :: os' => r <- run_op o ;; rs <- run_ops os' ;; ret (r :: rs)
  end.

(** The promise: a stack of free pages and the pages handed out. *)
Record pool := mkPool { pool_free : list Z; pool_held : list Z }.

Inductive pool_step : pool -> op -> Z -> pool -> Prop :=
| pool_alloc p l h : pool_step (mkPool (p :: l) h) Alloc p (mkPool l (p :: h))
| pool_empty h : pool_step (mkPool [] h) Alloc 0 (mkPool [] h)
| pool_free_page v l h h' : h ≡ₚ v :: h' -> pool_step (mkPool l h) (Free v) 0 (mkPool (v :: l) h')
| pool_store v a b l h : v ∈ h -> v <= a < v + PGSIZE ->
    pool_step (mkPool l h) (Store a b) 0 (mkPool l h).

Inductive pool_steps : pool -> list op -> list Z -> pool -> Prop :=
| pool_done P : pool_steps P [] [] P
| pool_more P o r P1 os rs P' :
    pool_step P o r P1 -> pool_steps P1 os rs P' -> pool_steps P (o :: os) (r :: rs) P'.

Definition pool_inv (s : kst) (P : pool) : Prop :=
  kmem_inv s (pool_free P) /\ unlocked LKmem s /\
  NoDup (pool_free P ++ pool_held P) /\ Forall (page_ok (k_link s)) (pool_held P).

Lemma kalloc_refines s P p P' :
  pool_inv s P -> pool_step P Alloc p P' -> exists s', kalloc s = Ok p s' /\ pool_inv s' P'.
Proof.
  intros (Hi & Hu & Hnd & Hh) Hs.
  destruct (kalloc_spec s _ Hi Hu) as (s' & Hr & Hi' & _).
  assert (unlocked LKmem s' /\ k_link s' = k_link s) as [Hu' Hk].
  { rewrite kalloc_run in Hr by done. injection Hr as _ <-. destruct Hu.
    split; [split; [done|]|done]. by apply lcpu_wf. }
  inversion Hs; subst; simpl in *; exists s'; (split; [done|]); (split; [done|]); simpl; rewrite Hk.
  - split; [done|]. split; [|constructor; [|done]].
    + by rewrite <- Permutation_middle.
    + destruct Hi as (_ & _ & _ & Hok). by apply Forall_cons_1 in Hok as [? _].
  - auto.
Qed.

Lemma kfree_refines s P v P' r :
  pool_inv s P -> pool_step P (Free v) r P' -> exists s', kfree v s = Ok tt s' /\ pool_inv s' P'.
Proof.
  intros (Hi & Hu & Hnd & Hh) Hs. inversion Hs as [| |? l h h' Hp|]; subst; simpl in *.
  rewrite Hp in Hnd, Hh. apply Forall_cons_1 in Hh as [Hv Hh].
  apply list.NoDup_app in Hnd as (Hnd & Hdis & Hndh). apply list.NoDup_cons in Hndh as [Hvh Hndh].
  assert (v ∉ l) as Hvl by (intros Hin; apply (Hdis v Hin); set_solver).
  destruct (kfree_spec v s l Hi Hv Hvl Hu) as (s' & Hr & Hi' & _).
  assert (unlocked LKmem s' /\ k_link s' = k_link s) as [Hu' Hk].
  { rewrite kfree_run in Hr by (done || apply Hi). injection Hr as <-. destruct Hu.
    split; [split; [done|]|done]. by apply lcpu_wf. }
  exists s'. split; [done|]. split; [done|]. simpl. rewrite Hk. split; [done|]. split; [|done].
  constructor; [set_solver|]. apply list.NoDup_app. split_and!; [done| |done]. set_solver.
Qed.

Lemma store_refines s P a b P' r :
  pool_inv s P -> pool_step P (Store a b) r P' ->
  pool_inv (s <| k_mem ::= fun m => store8 m (V2P a) b |>) P'.
Proof.
  intros (Hi & Hu & Hnd & Hh) Hs. inversion Hs as [| | |v ? ? l h Hin Ha]; subst; simpl in *.
  split; [|done]. destruct Hi as (Hl & Hc & Hnd' & Hok). split_and!; simpl; auto.
  apply (chain_agree (k_mem s)); [done|]. intros q Hq x Hx. simpl.
  rewrite list.Forall_forall in Hok, Hh. specialize (Hok q Hq). specialize (Hh v Hin).
  rewrite (V2P_page _ _ Hl Hok) in Hx.
  assert (V2P a = a - KERNBASE) as Hva.
  { unfold V2P. apply u32_small. unfold page_ok, link_ok, is_u32, PGSIZE, KERNBASE, PHYSTOP in *.
    pose proof (Z.div_mod v 4096 ltac:(lia)). lia. }
  assert (q <> v) as Hne by (intros ->; apply list.NoDup_app in Hnd as (_ & Hd & _); by apply (Hd v)).
  destruct (pages_apart _ q v Hok Hh Hne); unfold store8, PGSIZE in *;
    destruct (Z.eqb_spec x (V2P a)); [lia|done|lia|done].
Qed.

(** C4. The allocator refines a stack of pages. Along any sequence of
    allocations, frees of pages the caller holds, and stores into pages the
    caller holds, [kalloc] and [kfree] return exactly what the stack returns,
    never [panic], and every page is at any time either on the free list or
    held by one caller, never both and never twice; so no page is handed out
    while it is in use, and user data never damages the free list. *)
Theorem kalloc_refines_pool os s P rs P' :
  pool_inv s P -> pool_steps P os rs P' ->
  exists s', run_ops os s = Ok rs s' /\ pool_inv s' P'.
Proof.
  intros Hi Hs. revert s Hi. induction Hs as [P|P o r P1 os rs P' H1 H2 IH]; intros s Hi.
  { exists s. done. }
  assert (exists s1, run_op o s = Ok r s1 /\ pool_inv s1 P1) as (s1 & Hr & Hi1).
  { destruct o; simpl.
    - by eapply kalloc_refines.
    - destruct (kfree_refines _ _ _ _ _ Hi H1) as (s1 & Hr & Hi1).
      exists s1. mcall Hr. split; [|done]. by inversion H1.
    - eexists. mstep. split; [|by eapply store_refines]. by inversion H1. }
  destruct (IH s1 Hi1) as (s' & Hr' & Hi'). exists s'. simpl. mcall Hr. mcall Hr'. done.
Qed.

(** Two free pages; allocate both and a third, store into the first, free it, get it again. *)
Definition pool_mem : mem := store32 (fun _ => 0) (V2P 0x80200000) 0x80201000.

Definition pool_st : kst :=
  (kst0 (fun _ => [])) <| k_mem := pool_mem |> <| k_kmem := mkKmem true 0x80200000 |>.

Definition pool_ops : list op :=
  [Alloc; Alloc; Alloc; Store 0x80200004 7; Free 0x80200000; Alloc].

Lemma kalloc_refines_pool_witness :
  pool_inv pool_st (mkPool [0x80200000; 0x80201000] []) /\
  exists s', run_ops pool_ops pool_st =
    Ok [0x80200000; 0x80201000; 0; 0; 0; 0x80200000] s'.
Proof.
  assert (pool_inv pool_st (mkPool [0x80200000; 0x80201000] [])) as Hi.
  { split; [split_and!|split_and!]; simpl.
    - reflexivity.
    - apply chain_cons; [done|]. apply chain_cons; [done|]. apply chain_nil.
    - apply (bool_decide_unpack _). reflexivity.
    - repeat constructor; unfold KERNBASE, PHYSTOP; simpl; lia.
    - split; [done|]. split; simpl; lia.
    - apply (bool_decide_unpack _). reflexivity.
    - constructor. }
  split; [exact Hi|].
  assert (pool_steps (mkPool [0x80200000; 0x80201000] []) pool_ops
            [0x80200000; 0x80201000; 0; 0; 0; 0x80200000]
            (mkPool [] [0x80200000; 0x80201000])) as Hs.
  { eapply pool_more; [apply pool_alloc|]. eapply pool_more; [apply pool_alloc|].
    eapply pool_more; [apply pool_empty|].
    eapply pool_more; [apply (pool_store 0x80200000); [set_solver|unfold PGSIZE; lia]|].
    eapply pool_more; [apply (pool_free_page 0x80200000 _ _ [0x80201000]); apply Permutation_swap|].
    eapply pool_more; [apply pool_alloc|]. apply pool_done. }
  destruct (kalloc_refines_pool _ _ _ _ _ Hi Hs) as (s' & Hr & _). exists s'. exact Hr.
Defined.
