(* ===== verification/Vm.v ===== *)
(** * Page tables and address spaces ([vm.c])

    Page directories and page tables are pages of physical memory; entries are
    read and written through their kernel addresses. *)

From S2P Require Import Prelude Params State Mem Strings Locks Printf Kalloc.
Import Spin.

(** ** Access to physical memory through the kernel's mapping *)

Definition ld32 (a : Z) : K Z := gets (fun s => load32 (k_mem s) (V2P a)).
Definition st32 (a v : Z) : K unit := modify (fun s => s <| k_mem ::= fun m => store32 m (V2P a) v |>).
Definition memset_k (a c n : Z) : K unit :=
  modify (fun s => s <| k_mem ::= fun m => memset m (V2P a) c n |>).
Definition memmove_k (dst src n : Z) : K unit :=
  modify (fun s => s <| k_mem ::= fun m => memmove m (V2P dst) (V2P src) n |>).

(** Bytes of a kernel object outside the page pool, stored at [a]. *)
Definition put_bytes (m : mem) (a : Z) (l : list Z) : mem := fun x =>
  if (a <=? x) && (x <? a + Z.of_nat (length l)) then default 0 (l !! Z.to_nat (x - a)) else m x.

(** ** The code *)

(** The address of the entry for [va], 0 if there is none. *)
Definition walkpgdir (pgdir va : Z) (alloc : bool) : K Z :=
  let pde := pgdir + 4 * PDX va in
  e <- ld32 pde ;;
  if nz (Z.land e PTE_P) then ret (P2V (PTE_ADDR e) + 4 * PTX va)
  else if negb alloc then ret 0
  else
    pgtab <- kalloc ;;
    if pgtab =? 0 then ret 0 else
    memset_k pgtab 0 PGSIZE ;;
    st32 pde (Z.lor (Z.lor (Z.lor (V2P pgtab) PTE_P) PTE_W) PTE_U) ;;
    ret (pgtab + 4 * PTX va).

(** The loop of [mappages], with the number of pages left. *)
Fixpoint mappages_loop (n : nat) (pgdir a last pa perm : Z) : K Z :=
  match n with
  | O => fault "mappages: loop bound"
  | S n' =>
      pte <- walkpgdir pgdir a true ;;
      if pte =? 0 then ret (-1) else
      e <- ld32 pte ;;
      if nz (Z.land e PTE_P) then panic "remap" else
      st32 pte (Z.lor (Z.lor pa perm) PTE_P) ;;
      if a =? last then ret 0
      else mappages_loop n' pgdir (u32 (a + PGSIZE)) last (u32 (pa + PGSIZE)) perm
  end.

Definition mappages (pgdir va size pa perm : Z) : K Z :=
  let a := PGROUNDDOWN va in
  let last := PGROUNDDOWN (u32 (va + size - 1)) in
  mappages_loop (Z.to_nat (u32 (last - a) / PGSIZE) + 1) pgdir a last pa perm.

(** [struct kmap]: [virt], [phys_start], [phys_end], [perm]. *)
Record kmap_t := mkKmap { virt : Z; phys_start : Z; phys_end : Z; perm : Z }.

Definition kmap (lk : link) : list kmap_t :=
  [ mkKmap KERNBASE 0 EXTMEM PTE_W;
    mkKmap KERNLINK (V2P KERNLINK) (V2P (data_ lk)) 0;
    mkKmap (data_ lk) (V2P (data_ lk)) PHYSTOP PTE_W;
    mkKmap DEVSPACE DEVSPACE 0 PTE_W ].

(** [for(k = kmap; ...) if(mappages(...) < 0) return 0;] *)
Fixpoint setupkvm_loop (pgdir : Z) (ks : list kmap_t) : K Z :=
  match ks with
  | [] => ret pgdir
  | k :: ks' =>
      r <- mappages pgdir (virt k) (u32 (phys_end k - phys_start k)) (phys_start k) (perm k) ;;
      if r <? 0 then ret 0 else setupkvm_loop pgdir ks'
  end.

Definition setupkvm : K Z :=
  pgdir <- kalloc ;;
  if pgdir =? 0 then ret 0 else
  memset_k pgdir 0 PGSIZE ;;
  if DEVSPACE <? P2V PHYSTOP then panic "PHYSTOP too high" else
  lk <- gets k_link ;;
  setupkvm_loop pgdir (kmap lk).

Definition switchkvm : K unit := modify (fun s => s <| k_cr3 := V2P (k_kpgdir s) |>).

Definition kvmalloc : K unit :=
  p <- setupkvm ;;
  modify (fun s => s <| k_kpgdir := p |>) ;;
  switchkvm.

(** The process table entry [i], and the running process. *)
Definition get_proc (i : nat) : K proc :=
  s <- get ;; nth_ok "ptable.proc" (pt_proc (k_ptable s)) i.

Definition set_proc (i : nat) (f : proc -> proc) : K unit :=
  modify (fun s => s <| k_ptable ::= fun t => t <| pt_proc ::= alter f i |> |>).

(** [proc], dereferenced: null is a fault. *)
Definition myproc : K nat :=
  o <- gets k_proc ;;
  match o with Some i => ret i | None => fault "proc" end.

(** The processor's task-state segment, for a process with the kernel stack [kstack]. *)
Definition tss_segs (c : Z) (g : segs) : segs :=
  g <| sg_gdt ::= insert (Z.to_nat SEG_TSS) ((SEG16 STS_T32A (c + cpu_ts) (sizeof_taskstate - 1) 0) <| sd_s := 0 |>) |>
    <| sg_ss0 := Z.shiftl SEG_KDATA 3 |> <| sg_iomb := 0xFFFF |> <| sg_tr := Z.shiftl SEG_TSS 3 |>.

Definition tss_loaded (kstack : Z) (s : kst) : kst :=
  s <| k_segs ::= tss_segs (cpu_addr (k_link s) (k_cpuid s)) |> <| k_esp0 := u32 (kstack + KSTACKSIZE) |>.

Definition switchuvm (p : nat) : K unit :=
  pushcli ;;
  me <- myproc ;;
  mp <- get_proc me ;;
  modify (tss_loaded (p_kstack mp)) ;;
  pp <- get_proc p ;;
  if p_pgdir pp =? 0 then panic "switchuvm: no pgdir" else
  modify (fun s => s <| k_cr3 := V2P (p_pgdir pp) |>) ;;
  popcli.

(** [init] is the initial program, an object outside the page pool. The result of
    [kalloc] is used unchecked: storing through a null pointer faults. *)
Definition inituvm (pgdir : Z) (init : list Z) : K unit :=
  if PGSIZE <=? Z.of_nat (length init) then panic "inituvm: more than a page" else
  mem <- kalloc ;;
  if mem =? 0 then fault "inituvm: null page" else
  memset_k mem 0 PGSIZE ;;
  mappages pgdir 0 PGSIZE (V2P mem) (Z.lor PTE_W PTE_U) ;;
  modify (fun s => s <| k_mem ::= fun m => put_bytes m (V2P mem) init |>).

(** [for(; a < oldsz; a += PGSIZE)] of [deallocuvm]. *)
Fixpoint deallocuvm_loop (n : nat) (pgdir a oldsz : Z) : K unit :=
  if negb (a <? oldsz) then ret tt else
  match n with
  | O => fault "deallocuvm: loop bound"
  | S n' =>
      pte <- walkpgdir pgdir a false ;;
      if pte =? 0 then
        deallocuvm_loop n' pgdir (u32 (u32 (a + (NPTENTRIES - 1) * PGSIZE) + PGSIZE)) oldsz
      else
        e <- ld32 pte ;;
        (if nz (Z.land e PTE_P) then
           let pa := PTE_ADDR e in
           if pa =? 0 then panic "kfree" else
           kfree (P2V pa) ;; st32 pte 0
         else ret tt) ;;
        deallocuvm_loop n' pgdir (u32 (a + PGSIZE)) oldsz
  end.

Definition deallocuvm (pgdir oldsz newsz : Z) : K Z :=
  if oldsz <=? newsz then ret oldsz else
  let a := PGROUNDUP newsz in
  deallocuvm_loop (Z.to_nat ((oldsz - a) / PGSIZE + 1)) pgdir a oldsz ;;
  ret newsz.

Fixpoint allocuvm_loop (n : nat) (pgdir a newsz oldsz : Z) : K Z :=
  if negb (a <? newsz) then ret newsz else
  match n with
  | O => fault "allocuvm: loop bound"
  | S n' =>
      mem <- kalloc ;;
      if mem =? 0 then
        cprintf (str "allocuvm out of memory" ++ [10]) [] ;;
        deallocuvm pgdir newsz oldsz ;;
        ret 0
      else
        memset_k mem 0 PGSIZE ;;
        r <- mappages pgdir a PGSIZE (V2P mem) (Z.lor PTE_W PTE_U) ;;
        if r <? 0 then
          cprintf (str "allocuvm out of memory (2)" ++ [10]) [] ;;
          deallocuvm pgdir newsz oldsz ;;
          kfree mem ;;
          ret 0
        else allocuvm_loop n' pgdir (u32 (a + PGSIZE)) newsz oldsz
  end.

Definition allocuvm (pgdir oldsz newsz : Z) : K Z :=
  if KERNBASE <=? newsz then ret 0 else
  if newsz <? oldsz then ret oldsz else
  let a := PGROUNDUP oldsz in
  allocuvm_loop (Z.to_nat ((newsz - a) / PGSIZE + 1)) pgdir a newsz oldsz.

Definition freevm (pgdir : Z) : K unit :=
  if pgdir =? 0 then panic "freevm: no pgdir" else
  deallocuvm pgdir KERNBASE 0 ;;
  for_each (Z.of_nat <$> seq 0 (Z.to_nat NPDENTRIES)) (fun i =>
    e <- ld32 (pgdir + 4 * i) ;;
    when (nz (Z.land e PTE_P)) (kfree (P2V (PTE_ADDR e)))) ;;
  kfree pgdir.

Definition clearpteu (pgdir uva : Z) : K unit :=
  pte <- walkpgdir pgdir uva false ;;
  if pte =? 0 then panic "clearpteu" else
  e <- ld32 pte ;;
  st32 pte (Z.land e (Z.lnot PTE_U)).

(** The loop of [copyuvm]; [false] is [goto bad]. *)
Fixpoint copyuvm_loop (n : nat) (pgdir d i sz : Z) : K bool :=
  if negb (i <? sz) then ret true else
  match n with
  | O => fault "copyuvm: loop bound"
  | S n' =>
      pte <- walkpgdir pgdir i false ;;
      if pte =? 0 then panic "copyuvm: pte should exist" else
      e <- ld32 pte ;;
      if negb (nz (Z.land e PTE_P)) then panic "copyuvm: page not present" else
      let pa := PTE_ADDR e in
      let flags := PTE_FLAGS e in
      mem <- kalloc ;;
      if mem =? 0 then ret false else
      memmove_k mem (P2V pa) PGSIZE ;;
      r <- mappages d i PGSIZE (V2P mem) flags ;;
      if r <? 0 then ret false else copyuvm_loop n' pgdir d (u32 (i + PGSIZE)) sz
  end.

Definition copyuvm (pgdir sz : Z) : K Z :=
  d <- setupkvm ;;
  if d =? 0 then ret 0 else
  ok <- copyuvm_loop (Z.to_nat (sz / PGSIZE + 1)) pgdir d 0 sz ;;
  if ok : bool then ret d else freevm d ;; ret 0.

(** [walkpgdir] may return null, which [uva2ka] dereferences. *)
Definition uva2ka (pgdir uva : Z) : K Z :=
  pte <- walkpgdir pgdir uva false ;;
  if pte =? 0 then fault "uva2ka: null pte" else
  e <- ld32 pte ;;
  if Z.land e PTE_P =? 0 then ret 0 else
  if Z.land e PTE_U =? 0 then ret 0 else
  ret (P2V (PTE_ADDR e)).

(** [len] bytes [buf] to user address [va]. *)
Fixpoint copyout_loop (n : nat) (pgdir va : Z) (buf : list Z) : K Z :=
  match buf with
  | [] => ret 0
  | _ =>
    match n with
    | O => fault "copyout: loop bound"
    | S n' =>
        let va0 := PGROUNDDOWN va in
        pa0 <- uva2ka pgdir va0 ;;
        if pa0 =? 0 then ret (-1) else
        let n := Z.min (PGSIZE - (va - va0)) (Z.of_nat (length buf)) in
        modify (fun s => s <| k_mem ::= fun m =>
          put_bytes m (V2P (pa0 + (va - va0))) (take (Z.to_nat n) buf) |>) ;;
        copyout_loop n' pgdir (u32 (va0 + PGSIZE)) (drop (Z.to_nat n) buf)
    end
  end.

Definition copyout (pgdir va : Z) (buf : list Z) : K Z :=
  copyout_loop (length buf) pgdir va buf.

(** ** What [switchuvm] does *)

Lemma switchuvm_run p pp s :
  k_proc s = Some p -> pt_proc (k_ptable s) !! p = Some pp -> p_pgdir pp <> 0 ->
  cpu_wf (k_cpu s) ->
  switchuvm p s = Ok tt (tss_loaded (p_kstack pp) s
    <| k_cr3 := V2P (p_pgdir pp) |> <| k_cpu ::= settle |>).
Proof.
  intros Hp Hpp Hd Hwf. unfold switchuvm. rewrite (bind_ok _ _ _ _ _ (pushcli_run s)).
  unfold myproc, get_proc, nth_ok. mstep. simpl. rewrite Hp. mstep. simpl. rewrite Hpp. mstep. simpl.
  rewrite Hpp. mstep. rewrite (proj2 (Z.eqb_neq _ 0)) by done. mstep.
  rewrite popcli_run.
  - destruct s. unfold set, set_k_cpu. simpl in *. by rewrite pop_push.
  - simpl. by apply push_wf.
  - simpl. destruct Hwf. lia.
Qed.
