(* ===== verification/Sched.v ===== *)
(** * Processes and the scheduler ([proc.c])

    The process table, the four scheduling policies, [sched], [yield], [sleep],
    [wakeup], [kill] and [allocproc]. A routine that reaches the [swtch] of
    [sched] stops with [Switch]; what it does when the scheduler comes back to
    it is its [_resume] routine. The scheduler's own [swtch] to a process is the
    argument [run] of [scheduler_body]: it stands for everything the process does
    until it switches back. *)

From S2P Require Import Prelude Params State Mem Strings Float32 Locks Printf Kalloc Vm.
Import Spin.

(** ** Accessors *)

Definition pts (s : kst) : list proc := pt_proc (k_ptable s).

Definition all_procs : list nat := seq 0 NPROC.

Definition pinit : K unit := initlock LPtable.

(** ** Sorting the table (policy [FRR]) *)

(** The inner loop: the last later [RUNNABLE] entry created before entry [i]. *)
Fixpoint sort_inner (ps : list proc) (i : nat) (js : list nat) (minIndex : nat) : nat :=
  match js with
  | [] => minIndex
  | j :: js' =>
      match ps !! i, ps !! j with
      | Some pi, Some pj =>
          sort_inner ps i js'
            (if st_eqb (p_state pj) RUNNABLE && (p_ctime pj <? p_ctime pi) then j else minIndex)
      | _, _ => minIndex
      end
  end.

(** [temp = proc[i]; proc[i] = proc[k]; proc[k] = temp;] *)
Definition swap {A} (l : list A) (i k : nat) : list A :=
  match l !! i, l !! k with
  | Some x, Some y => <[k := x]> (<[i := y]> l)
  | _, _ => l
  end.

Definition sort_step (ps : list proc) (i : nat) : list proc :=
  match ps !! i with
  | Some p =>
      if st_eqb (p_state p) RUNNABLE
      then swap ps i (sort_inner ps i (seq (S i) (length ps - S i)) i)
      else ps
  | None => ps
  end.

Definition sorted_table (ps : list proc) : list proc :=
  fold_left sort_step (seq 0 (length ps)) ps.

Definition sortProcessFIFO : K unit :=
  modify (fun s => s <| k_ptable ::= fun t => t <| pt_proc ::= sorted_table |> |>).

(** ** allocproc *)

(** The layout of a new kernel stack: the trap frame, the return address
    [trapret], and the context that starts at [forkret]. *)
Definition init_kstack (i : nat) (kstack : Z) : K unit :=
  lk <- gets k_link ;;
  let sp := u32 (kstack + KSTACKSIZE) in
  let sp := u32 (sp - sizeof_trapframe) in
  set_proc i (fun p => p <| p_tf := sp |>) ;;
  let sp := u32 (sp - 4) in
  st32 sp (trapret_ lk) ;;
  let sp := u32 (sp - sizeof_context) in
  set_proc i (fun p => p <| p_context := sp |>) ;;
  set_proc i (fun p => p <| p_ctx := mkContext 0 0 0 0 (forkret_ lk) |>).

(** The index of the new process, [None] for a null result. *)
Definition allocproc : K (option nat) :=
  acquire LPtable ;;
  s <- get ;;
  match find_from (fun p => st_eqb (p_state p) UNUSED) 0 (pts s) with
  | None => release LPtable ;; ret None
  | Some i =>
      set_proc i (fun p => p <| p_state := EMBRYO |>) ;;
      s <- get ;;
      set_proc i (fun p => p <| p_pid := nextpid (k_ptable s) |>) ;;
      modify (fun s => s <| k_ptable ::= fun t => t <| nextpid ::= fun n => s32 (n + 1) |> |>) ;;
      set_proc i (fun p => p <| p_rtime := 0 |> <| p_ctime := k_ticks s |> <| p_allChildSize := 0 |>) ;;
      pol <- gets (fun s => policyChooser (k_ptable s)) ;;
      (if pol =? FRR then sortProcessFIFO
       else when (pol =? Q3) (set_proc i (fun p => p <| p_piority := HIGH_PIORITY |>))) ;;
      release LPtable ;;
      kstack <- kalloc ;;
      set_proc i (fun p => p <| p_kstack := kstack |>) ;;
      if kstack =? 0 then
        set_proc i (fun p => p <| p_state := UNUSED |>) ;; ret None
      else init_kstack i kstack ;; ret (Some i)
  end.

(** ** The scheduler *)

Definition runnable_or_running (p : proc) : bool :=
  st_eqb (p_state p) RUNNABLE || st_eqb (p_state p) RUNNING.

(** One round of [checkForHigherPiority]. *)
Definition check_step (t : ptable) (p : proc) : ptable :=
  if runnable_or_running p then
    if p_piority p =? HIGH_PIORITY then t <| GRTExists := 1 |>
    else if p_piority p =? MEDIUM_PIORITY then t <| FRRExists := 1 |>
    else t
  else t.

Definition checkForHigherPiority : K unit :=
  modify (fun s => s <| k_ptable ::= fun t => fold_left check_step (pt_proc t) t |>).

(** [rtime / (ticks - ctime)], 0 for a process created in this tick. *)
Definition procValue (ticks : Z) (p : proc) : f32 :=
  let down := f32_of_uint (u32 (ticks - p_ctime p)) in
  if negb (SFeqb down f32_zero) then f32_div (f32_of_uint (p_rtime p)) down else f32_zero.

(** The loop that looks for the process with the least share; [bestIndex] is
    [None] for -1. *)
Fixpoint grt_loop (policy ticks : Z) (i : nat) (ps : list proc)
    (bestIndex : option nat) (bestProcValue : f32) : option nat :=
  match ps with
  | [] => bestIndex
  | p :: ps' =>
      if negb (st_eqb (p_state p) RUNNABLE) then
        grt_loop policy ticks (S i) ps' bestIndex bestProcValue
      else if (policy =? Q3) && negb (p_piority p =? HIGH_PIORITY) then
        grt_loop policy ticks (S i) ps' bestIndex bestProcValue
      else
        let v := procValue ticks p in
        if SFeqb bestProcValue f32_minus_one || SFltb v bestProcValue
        then grt_loop policy ticks (S i) ps' (Some i) v
        else grt_loop policy ticks (S i) ps' bestIndex bestProcValue
  end.

Definition printAllRunningProcesses : K unit :=
  s <- get ;;
  if printRunningProcIsValid (k_ptable s) =? 1 then
    cprintf ([10] ++ str "$$$$$$$$Running Processes are:") [] ;;
    for_each all_procs (fun i =>
      p <- get_proc i ;;
      when (nz (p_pid p)) (cprintf (str "<%d>") [PInt (p_pid p)])) ;;
    cprintf [10] []
  else ret tt.

Section Scheduler.
Context (run : nat -> K unit).

(** Switch to process [i] until it switches back. *)
Definition dispatch (i : nat) : K unit :=
  modify (fun s => s <| k_proc := Some i |>) ;;
  switchuvm i ;;
  set_proc i (fun p => p <| p_processCounter := 0 |>) ;;
  set_proc i (fun p => p <| p_state := RUNNING |>) ;;
  run i ;;
  switchkvm ;;
  printAllRunningProcesses ;;
  modify (fun s => s <| k_proc := None |>).

(** The [FRR] loop from the entries [ids] on. *)
Fixpoint frr_loop (ids : list nat) : K unit :=
  match ids with
  | [] => ret tt
  | i :: ids' =>
      p <- get_proc i ;;
      pol <- gets (fun s => policyChooser (k_ptable s)) ;;
      if negb (st_eqb (p_state p) RUNNABLE) then frr_loop ids' else
      if (pol =? Q3) && negb (p_piority p =? MEDIUM_PIORITY) then frr_loop ids' else
      when (pol =? Q3) (modify (fun s => s <| k_ptable ::= fun t => t <| FRRExists := 1 |> |>)) ;;
      dispatch i ;;
      pol <- gets (fun s => policyChooser (k_ptable s)) ;;
      if pol =? Q3 then
        checkForHigherPiority ;;
        g <- gets (fun s => GRTExists (k_ptable s)) ;;
        if g =? 1 then ret tt else frr_loop ids'
      else frr_loop ids'
  end.

(** The [RR] loop. *)
Fixpoint rr_loop (ids : list nat) : K unit :=
  match ids with
  | [] => ret tt
  | i :: ids' =>
      p <- get_proc i ;;
      if negb (st_eqb (p_state p) RUNNABLE) then rr_loop ids' else
      if negb (p_piority p =? LOW_PIORITY) then rr_loop ids' else
      dispatch i ;;
      pol <- gets (fun s => policyChooser (k_ptable s)) ;;
      if pol =? Q3 then
        checkForHigherPiority ;;
        t <- gets k_ptable ;;
        if (GRTExists t =? 1) || (FRRExists t =? 1) then ret tt else rr_loop ids'
      else rr_loop ids'
  end.

(** The three parts of the loop's body, under the lock. *)
Definition grt_part : K unit :=
  s <- get ;;
  let pol := policyChooser (k_ptable s) in
  if (pol =? GRT) || (pol =? Q3) then
    match grt_loop pol (k_ticks s) 0 (pts s) None f32_minus_one with
    | Some i => dispatch i
    | None => ret tt
    end
  else ret tt.

Definition frr_part : K unit :=
  t <- gets k_ptable ;;
  when ((policyChooser t =? FRR) || ((policyChooser t =? Q3) && (GRTExists t =? 0)))
    (frr_loop all_procs).

Definition rr_part : K unit :=
  t <- gets k_ptable ;;
  when ((policyChooser t =? RR) ||
        ((policyChooser t =? Q3) && (GRTExists t =? 0) && (FRRExists t =? 0)))
    (rr_loop all_procs).

(** One round of [while(1)]. *)
Definition scheduler_body : K unit :=
  sti ;;
  acquire LPtable ;;
  modify (fun s => s <| k_ptable ::= fun t => t <| GRTExists := 0 |> <| FRRExists := 0 |> |>) ;;
  checkForHigherPiority ;;
  grt_part ;;
  frr_part ;;
  rr_part ;;
  release LPtable.

End Scheduler.

#[global] Arguments frr_loop : simpl never.
#[global] Arguments rr_loop : simpl never.

(** [n] rounds of the loop; [scheduler] never returns. *)
Fixpoint scheduler_rounds (run : nat -> K unit) (n : nat) : K unit :=
  match n with
  | O => ret tt
  | S n' => scheduler_body run ;; scheduler_rounds run n'
  end.

Definition scheduler (run : nat -> K unit) (n : nat) : K unit :=
  modify (fun s => s <| k_ptable ::= fun t => t <| printRunningProcIsValid := 0 |> |>) ;;
  scheduler_rounds run n.

(** ** Giving up the processor *)

Definition sched : K unit :=
  h <- holding LPtable ;;
  if negb h then panic "sched ptable.lock" else
  c <- gets k_cpu ;;
  if negb (ncli c =? 1) then panic "sched locks" else
  me <- myproc ;;
  p <- get_proc me ;;
  if st_eqb (p_state p) RUNNING then panic "sched running" else
  if eflags_if c then panic "sched interruptible" else
  switch.

(** Back from [swtch]: [intena] is what [sched] saved on the thread's stack. *)
Definition sched_resume (saved : bool) : K unit :=
  modify (fun s => s <| k_cpu ::= fun c => c <| intena := saved |> |>).

Definition yield : K unit :=
  t <- gets k_ptable ;;
  if policyChooser t =? GRT then ret tt else
  me <- myproc ;;
  p <- get_proc me ;;
  if (p_piority p =? HIGH_PIORITY) && (policyChooser t =? Q3) then ret tt else
  if p_processCounter p <? QUANTA then
    set_proc me (fun p => p <| p_processCounter ::= fun n => n + 1 |>)
  else
    set_proc me (fun p => p <| p_processCounter := 0 |>) ;;
    acquire LPtable ;;
    set_proc me (fun p => p <| p_state := RUNNABLE |>) ;;
    sched ;;
    release LPtable.

Definition yield_resume (saved : bool) : K unit := sched_resume saved ;; release LPtable.

(** [lk] is never null: callers pass the address of a lock. *)
Definition sleep (c : chan) (lk : lockid) : K unit :=
  o <- gets k_proc ;;
  match o with
  | None => panic "sleep"
  | Some me =>
      when (negb (bool_decide (lk = LPtable))) (acquire LPtable ;; release lk) ;;
      set_proc me (fun p => p <| p_chan := Some c |>) ;;
      set_proc me (fun p => p <| p_state := SLEEPING |>) ;;
      sched
  end.

Definition sleep_resume (saved : bool) (lk : lockid) : K unit :=
  sched_resume saved ;;
  me <- myproc ;;
  set_proc me (fun p => p <| p_chan := None |>) ;;
  when (negb (bool_decide (lk = LPtable))) (release LPtable ;; acquire lk).

(** ** Waking up *)

Definition sleeps_on (c : chan) (p : proc) : bool :=
  st_eqb (p_state p) SLEEPING && bool_decide (p_chan p = Some c).

Definition wake_proc (c : chan) (p : proc) : proc :=
  if sleeps_on c p then p <| p_state := RUNNABLE |> else p.

Definition wakeup1 (c : chan) : K unit :=
  modify (fun s => s <| k_ptable ::= fun t => t <| pt_proc ::= fmap (wake_proc c) |> |>).

Definition wakeup (c : chan) : K unit :=
  acquire LPtable ;; wakeup1 c ;; release LPtable.

Definition kill_proc (p : proc) : proc :=
  let p := p <| p_killed := 1 |> in
  if st_eqb (p_state p) SLEEPING then p <| p_state := RUNNABLE |> else p.

Definition kill (pid : Z) : K Z :=
  acquire LPtable ;;
  s <- get ;;
  match find_from (fun p => p_pid p =? pid) 0 (pts s) with
  | Some i => set_proc i kill_proc ;; release LPtable ;; ret 0
  | None => release LPtable ;; ret (-1)
  end.

(** ** procdump *)

(** [getcallerpcs] of [spinlock.c]: follow the saved frame pointers. *)
Fixpoint getcallerpcs_loop (n : nat) (m : mem) (ebp : Z) : list Z :=
  match n with
  | O => []
  | S n' =>
      if (ebp =? 0) || (ebp <? KERNBASE) || (ebp =? 0xffffffff) then replicate n 0
      else load32 m (V2P (u32 (ebp + 4))) :: getcallerpcs_loop n' m (load32 m (V2P ebp))
  end.

Definition getcallerpcs (m : mem) (v : Z) : list Z := getcallerpcs_loop 10 m (u32 (v - 8)).

Definition state_name (st : procstate) : list Z :=
  match st with
  | UNUSED => str "unused"
  | EMBRYO => str "embryo"
  | SLEEPING => str "sleep "
  | RUNNABLE => str "runble"
  | RUNNING => str "run   "
  | ZOMBIE => str "zombie"
  end.

(** The characters of a name up to its NUL. *)
Fixpoint until_nul (l : list Z) : list Z :=
  match l with
  | [] => []
  | c :: l' => if c =? 0 then [] else c :: until_nul l'
  end.

(** [for(i = 0; i < 10 && pc[i] != 0; i++) cprintf(" %p", pc[i]);] *)
Fixpoint print_pcs (pcs : list Z) : K unit :=
  match pcs with
  | [] => ret tt
  | pc :: pcs' =>
      if pc =? 0 then ret tt else cprintf (str " %p") [PInt (s32 pc)] ;; print_pcs pcs'
  end.

Definition procdump : K unit :=
  for_each all_procs (fun i =>
    p <- get_proc i ;;
    if st_eqb (p_state p) UNUSED then ret tt else
    cprintf (str "%d %s %s")
      [PInt (p_pid p); PStr (Some (state_name (p_state p))); PStr (Some (until_nul (p_name p)))] ;;
    when (st_eqb (p_state p) SLEEPING)
      (m <- gets k_mem ;; print_pcs (getcallerpcs m (u32 (c_ebp (p_ctx p) + 8)))) ;;
    cprintf [10] []).
