(* ===== verification/Policy.v ===== *)
(** * What the scheduler chooses

    The fair-share choice is minimal, and a round of the scheduler switches to a
    process only when the policy allows it. *)

From S2P Require Import Prelude Params State Float32 Locks Printf Kalloc Vm Sched.
Import Spin.

Lemma st_eqb_true a b : st_eqb a b = true <-> a = b.
Proof. unfold st_eqb. apply bool_decide_eq_true. Qed.

(** ** The fair-share choice *)

(** The processes the search considers. *)
Definition candidate (policy : Z) (p : proc) : bool :=
  st_eqb (p_state p) RUNNABLE && negb ((policy =? Q3) && negb (p_piority p =? HIGH_PIORITY)).

Lemma procValue_nonneg ticks p : is_u32 (p_rtime p) -> nonneg (procValue ticks p) = true.
Proof.
  intros Hr. unfold procValue.
  destruct (f32_of_uint_ok (u32 (ticks - p_ctime p)) (u32_range _)) as [D1 D2].
  destruct (f32_of_uint_ok _ Hr) as [R1 R2].
  destruct (SFeqb (f32_of_uint (u32 (ticks - p_ctime p))) f32_zero) eqn:E; simpl; [done|].
  by apply f32_div_ok.
Qed.

Section Least.
Context (policy ticks : Z).
Let v := procValue ticks.

(** Entry [i] is a candidate, no candidate has a smaller share, and none before it
    has one as small. *)
Definition least (ps : list proc) (i : nat) : Prop :=
  exists p, ps !! i = Some p /\ candidate policy p = true /\
    forall j q, ps !! j = Some q -> candidate policy q = true ->
      f32_le (v p) (v q) /\ ((j < i)%nat -> SFltb (v p) (v q) = true).

Definition shares_ok (ps : list proc) : Prop := Forall (fun p => is_u32 (p_rtime p)) ps.

Lemma shares_ok_lookup ps j q : shares_ok ps -> ps !! j = Some q -> nonneg (v q) = true.
Proof. intros H Hj. apply procValue_nonneg. exact (Forall_lookup_1 _ _ _ _ H Hj). Qed.

Lemma least_skip ps p b : least ps b -> candidate policy p = false -> least (ps ++ [p]) b.
Proof.
  intros (pb & Hb & Hc & Hl) Hp. exists pb. rewrite lookup_app_l by eauto using lookup_lt_Some.
  split_and!; [done..|]. intros j q Hj Hq.
  apply lookup_app_Some in Hj as [Hj|[_ Hj]]; [eauto|].
  apply list_lookup_singleton_Some in Hj as [_ <-]. congruence.
Qed.

Lemma least_keep ps p b pb :
  least ps b -> ps !! b = Some pb -> SFltb (v p) (v pb) = false -> least (ps ++ [p]) b.
Proof.
  intros (pb' & Hb & Hc & Hl) Hpb Hlt. rewrite Hb in Hpb. injection Hpb as ->.
  pose proof (lookup_lt_Some _ _ _ Hb) as Hlen. exists pb.
  rewrite lookup_app_l by done. split_and!; [done..|]. intros j q Hj Hq.
  apply lookup_app_Some in Hj as [Hj|[Hge Hj]]; [eauto|].
  apply list_lookup_singleton_Some in Hj as [_ <-]. split; [done|lia].
Qed.

Lemma least_new ps p b pb :
  shares_ok (ps ++ [p]) -> candidate policy p = true ->
  least ps b -> ps !! b = Some pb -> SFltb (v p) (v pb) = true ->
  least (ps ++ [p]) (length ps).
Proof.
  intros [Hs Hsp]%Forall_app Hp (pb' & Hb & Hc & Hl) Hpb Hlt. rewrite Hb in Hpb. injection Hpb as ->.
  assert (nonneg (v p) = true) as Nv by (apply procValue_nonneg; by apply Forall_cons_1 in Hsp as [? _]).
  exists p. rewrite list_lookup_middle by done. split_and!; [done..|]. intros j q Hj Hq.
  apply lookup_app_Some in Hj as [Hj|[Hge Hj]].
  - destruct (Hl j q Hj Hq) as [Hle _].
    assert (SFltb (v p) (v q) = true) as Hlt'.
    { apply SFltb_key; [done|eauto using shares_ok_lookup|]. eapply key_lt_le_trans.
      - apply SFltb_key, Hlt; eauto using shares_ok_lookup.
      - apply f32_le_key; eauto using shares_ok_lookup. }
    split; [|done]. apply f32_le_key; eauto using shares_ok_lookup. apply key_lt_asym.
    apply SFltb_key; eauto using shares_ok_lookup.
  - apply list_lookup_singleton_Some in Hj as [Hjl <-]. split; [|lia].
    apply f32_le_key; [done|done|]. apply key_irrefl.
Qed.

Lemma least_first ps p :
  shares_ok (ps ++ [p]) -> candidate policy p = true ->
  Forall (fun q => candidate policy q = false) ps -> least (ps ++ [p]) (length ps).
Proof.
  intros [Hs Hsp]%Forall_app Hp Hno.
  assert (nonneg (v p) = true) as Nv by (apply procValue_nonneg; by apply Forall_cons_1 in Hsp as [? _]).
  exists p. rewrite list_lookup_middle by done. split_and!; [done..|]. intros j q Hj Hq.
  apply lookup_app_Some in Hj as [Hj|[Hge Hj]].
  - pose proof (Forall_lookup_1 _ _ _ _ Hno Hj). simpl in *. congruence.
  - apply list_lookup_singleton_Some in Hj as [Hjl <-]. split; [|lia].
    apply f32_le_key; [done|done|]. apply key_irrefl.
Qed.

(** What the loop knows after the entries [pre]. *)
Definition best_so_far (pre : list proc) (best : option nat) (bestv : f32) : Prop :=
  match best with
  | None => bestv = f32_minus_one /\ Forall (fun p => candidate policy p = false) pre
  | Some b => least pre b /\ exists p, pre !! b = Some p /\ bestv = v p
  end.

Lemma grt_loop_spec ps pre best bestv :
  shares_ok (pre ++ ps) -> best_so_far pre best bestv ->
  match grt_loop policy ticks (length pre) ps best bestv with
  | None => Forall (fun p => candidate policy p = false) (pre ++ ps)
  | Some i => least (pre ++ ps) i
  end.
Proof.
  revert pre best bestv. induction ps as [|p ps IH]; intros pre best bestv Hok Hb; cbn [grt_loop].
  { rewrite app_nil_r. destruct best; apply Hb. }
  rewrite cons_middle, app_assoc in Hok |- *. specialize (IH (pre ++ [p])).
  rewrite length_app, Nat.add_1_r in IH. pose proof Hok as [Hok1 _]%Forall_app.
  assert (candidate policy p = false -> best_so_far (pre ++ [p]) best bestv) as Hskip.
  { intros Hc. destruct best as [b|]; simpl in *.
    - destruct Hb as [Hl (pb & Hpb & ->)]. split; [by apply least_skip|]. exists pb.
      split; [|done]. by rewrite lookup_app_l by eauto using lookup_lt_Some.
    - split; [apply Hb|]. apply Forall_app; split; [apply Hb|by repeat constructor]. }
  unfold candidate in Hskip.
  destruct (st_eqb (p_state p) RUNNABLE) eqn:E1; simpl in *; [|apply IH; auto].
  destruct ((policy =? Q3) && negb (p_piority p =? HIGH_PIORITY)) eqn:E2; simpl in *; [apply IH; auto|].
  assert (candidate policy p = true) as Hc by (unfold candidate; by rewrite E1, E2).
  assert (best_so_far (pre ++ [p]) (Some (length pre)) (v p) ->
    match grt_loop policy ticks (S (length pre)) ps (Some (length pre)) (v p) with
    | None => Forall (fun p => candidate policy p = false) ((pre ++ [p]) ++ ps)
    | Some i => least ((pre ++ [p]) ++ ps) i end) as Hnew by (intros; by apply IH).
  assert (forall l : list proc, (l ++ [p]) !! length l = Some p) as Hlast by (intros; by apply list_lookup_middle).
  destruct best as [b|]; simpl in Hb.
  - destruct Hb as [Hl (pb & Hpb & ->)].
    assert (shares_ok pre) as Hpre by (by apply Forall_app in Hok1 as [? _]).
    rewrite nonneg_not_minus_one by eauto using shares_ok_lookup. simpl. fold (v p).
    destruct (SFltb (v p) (v pb)) eqn:El.
    + apply Hnew. split; [by eapply least_new|eauto].
    + apply IH; [done|]. split; [by eapply least_keep|]. exists pb.
      split; [|done]. by rewrite lookup_app_l by eauto using lookup_lt_Some.
  - destruct Hb as [-> Hno]. change (SFeqb f32_minus_one f32_minus_one) with true. simpl.
    apply Hnew. split; [by apply least_first|eauto].
Qed.
End Least.

(** C8. The fair-share choice is right: under the policies [GRT] and [Q3] the
    scheduler's search through the table returns nothing only if no process is
    eligible ([RUNNABLE], and of high priority under [Q3]); otherwise it returns
    an eligible process whose share of the processor, run time over lifetime in
    single precision, is least, and the first of those in table order. The
    comparison never meets a NaN and never confuses a share with the initial -1. *)
Theorem grt_choice_minimal policy ticks ps :
  Forall (fun p => is_u32 (p_rtime p)) ps ->
  match grt_loop policy ticks 0 ps None f32_minus_one with
  | None => Forall (fun p => candidate policy p = false) ps
  | Some i => exists p, ps !! i = Some p /\ candidate policy p = true /\
      forall j q, ps !! j = Some q -> candidate policy q = true ->
        f32_le (procValue ticks p) (procValue ticks q) /\
        ((j < i)%nat -> SFltb (procValue ticks p) (procValue ticks q) = true)
  end.
Proof.
  intros Hok. apply (grt_loop_spec policy ticks ps [] None f32_minus_one); [done|].
  by split; [|constructor].
Qed.

(** Three runnable processes with shares 1/2, 1/4 and 1/4 of their time. *)
Definition share_table : list proc :=
  let p c r := zero_proc <| p_state := RUNNABLE |> <| p_piority := HIGH_PIORITY |>
                 <| p_ctime := c |> <| p_rtime := r |> in
  [p 0 50; p 20 20; p 60 10].

Lemma grt_choice_minimal_witness :
  grt_loop Q3 100 0 share_table None f32_minus_one = Some 1%nat /\
  exists p, share_table !! 1%nat = Some p /\ candidate Q3 p = true.
Proof.
  assert (Forall (fun p => is_u32 (p_rtime p)) share_table) as H
    by (repeat constructor; unfold is_u32; simpl; lia).
  pose proof (grt_choice_minimal Q3 100 share_table H) as Hc.
  assert (grt_loop Q3 100 0 share_table None f32_minus_one = Some 1%nat) as E by (vm_compute; reflexivity).
  rewrite E in Hc. split; [exact E|]. destruct Hc as (p & H1 & H2 & _). exists p. split; assumption.
Defined.
