(* ===== verification/Dispatch.v ===== *)
(** * A round of the scheduler respects the priorities

    Under the multi-level policy [Q3] the scheduler runs medium priority
    processes only when no high priority process wants the processor, and low
    priority ones only when no process of higher priority does. The theorem
    compares the scheduler with one that checks this at every switch. *)

From S2P Require Import Prelude Params State Float32 Locks Printf Kalloc Vm Sched Policy.
Import Spin.

(** ** Comparing two computations

    From a state satisfying [P] the two have the same outcome, and if they return,
    [Q] holds. *)

Definition agrees {A} (P : kst -> Prop) (m1 m2 : K A) (Q : A -> kst -> Prop) : Prop :=
  forall s, P s -> m1 s = m2 s /\ forall a s', m1 s = Ok a s' -> Q a s'.

Lemma agrees_bind {A B} P R Q (m1 m2 : K A) (k1 k2 : A -> K B) :
  agrees P m1 m2 R -> (forall a, agrees (R a) (k1 a) (k2 a) Q) ->
  agrees P (bind m1 k1) (bind m2 k2) Q.
Proof.
  intros Hm Hk s Hs. destruct (Hm s Hs) as [E HR]. unfold bind. rewrite <- E.
  destruct (m1 s) eqn:Em; try (split; [done|intros; discriminate]).
  apply Hk. by apply HR.
Qed.

Lemma agrees_same {A} (P : kst -> Prop) (m : K A) (Q : A -> kst -> Prop) :
  (forall s a s', P s -> m s = Ok a s' -> Q a s') -> agrees P m m Q.
Proof. intros H s Hs. split; [done|]. intros a s'. by apply H. Qed.

Lemma agrees_pre {A} (P P' : kst -> Prop) (m1 m2 : K A) Q :
  (forall s, P' s -> P s) -> agrees P m1 m2 Q -> agrees P' m1 m2 Q.
Proof. intros HP H s Hs. apply H. auto. Qed.

Lemma agrees_post {A} (P : kst -> Prop) (m1 m2 : K A) (Q Q' : A -> kst -> Prop) :
  (forall a s, Q a s -> Q' a s) -> agrees P m1 m2 Q -> agrees P m1 m2 Q'.
Proof. intros HQ H s Hs. destruct (H s Hs) as [E HR]. split; [done|]. eauto. Qed.

(** ** When a switch is allowed *)

(** A process of priority [prio] that wants, or has, a processor. *)
Definition active (prio : Z) (p : proc) : bool :=
  runnable_or_running p && (p_piority p =? prio).

Definition no_active (prio : Z) (s : kst) : Prop := Forall (fun p => active prio p = false) (pts s).

#[export] Instance no_active_dec prio s : Decision (no_active prio s).
Proof. unfold no_active. apply _. Defined.

(** The switch to process [i] is allowed: [i] is the current process, marked
    [RUNNING] with a fresh quantum and its own page table loaded, [ptable.lock] is
    held, and no process of higher priority is active. *)
Definition may_run (i : nat) (s : kst) : bool :=
  bool_decide (k_proc s = Some i) && bool_decide (k_locks s !! LPtable = Some (k_cpuid s)) &&
  match pts s !! i with
  | Some p =>
      st_eqb (p_state p) RUNNING && (p_processCounter p =? 0) && (k_cr3 s =? V2P (p_pgdir p)) &&
      ((p_piority p =? HIGH_PIORITY)
       || ((p_piority p =? MEDIUM_PIORITY) && bool_decide (no_active HIGH_PIORITY s))
       || ((p_piority p =? LOW_PIORITY) && bool_decide (no_active HIGH_PIORITY s)
             && bool_decide (no_active MEDIUM_PIORITY s)))
  | None => false
  end.

(** A switch that checks. *)
Definition guarded (run : nat -> K unit) (i : nat) : K unit := fun s =>
  if may_run i s then run i s else Fault "switch not allowed" s.

(** ** What holds under the lock *)

Definition sched_inv (s : kst) : Prop :=
  policyChooser (k_ptable s) = Q3 /\ k_locks s !! LPtable = Some (k_cpuid s) /\
  cpu_wf (k_cpu s) /\ 0 < ncli (k_cpu s).

(** The flags the loop consults. *)
Definition flags (s : kst) : Z * Z := (GRTExists (k_ptable s), FRRExists (k_ptable s)).

Definition flags_bool (s : kst) : Prop :=
  (GRTExists (k_ptable s) = 0 \/ GRTExists (k_ptable s) = 1) /\
  (FRRExists (k_ptable s) = 0 \/ FRRExists (k_ptable s) = 1).

Definition is_high (i : nat) (s : kst) : Prop := exists p, pts s !! i = Some p /\ p_piority p = HIGH_PIORITY.

(** What holds when a process switches back: [ptable.lock] is held again and interrupts are
    off. The flags are shared, and rounds of other processors may have set and cleared them;
    but when the process was chosen for its high priority, [GRTExists] is still set. It is,
    if no other processor has run its scheduler meanwhile, and also if others have and the
    process has kept its priority ([check_sees_running] below). *)
Definition run_contract (run : nat -> K unit) : Prop :=
  forall i s s', sched_inv s -> flags_bool s -> run i s = Ok tt s' ->
  sched_inv s' /\ flags_bool s' /\ (is_high i s -> GRTExists (k_ptable s) = 1 -> GRTExists (k_ptable s') = 1).

Definition eligible (i : nat) (s : kst) : Prop :=
  exists p, pts s !! i = Some p /\
    (p_piority p = HIGH_PIORITY \/
     (p_piority p = MEDIUM_PIORITY /\ no_active HIGH_PIORITY s) \/
     (p_piority p = LOW_PIORITY /\ no_active HIGH_PIORITY s /\ no_active MEDIUM_PIORITY s)).

Lemma switchuvm_inv p pp s u s' :
  k_proc s = Some p -> pts s !! p = Some pp -> cpu_wf (k_cpu s) -> 0 < ncli (k_cpu s) ->
  switchuvm p s = Ok u s' ->
  s' = tss_loaded (p_kstack pp) s <| k_cr3 := V2P (p_pgdir pp) |>.
Proof.
  intros Hp Hpp Hwf Hn H. destruct (Z.eq_dec (p_pgdir pp) 0) as [E|E].
  - exfalso. revert H. unfold switchuvm. rewrite (bind_ok _ _ _ _ _ (pushcli_run s)).
    unfold myproc, get_proc, nth_ok, pts in *. mstep. simpl. rewrite Hp. mstep. simpl. rewrite Hpp.
    mstep. simpl. rewrite Hpp. mstep. rewrite E. done.
  - rewrite (switchuvm_run p pp) in H by done. injection H as _ <-.
    destruct s. unfold set, set_k_cpu. simpl in *. by rewrite settle_nested.
Qed.

Lemma cprintf_nested fmt args s u s' :
  cpu_wf (k_cpu s) -> 0 < ncli (k_cpu s) -> cprintf fmt args s = Ok u s' ->
  exists o, s' = s <| k_out := o |>.
Proof.
  intros Hwf Hn H. apply cprintf_inv in H as [o ->]; [|done]. exists o.
  destruct s. unfold set, set_k_cpu. simpl in *. by rewrite lcpu_nested.
Qed.

Lemma printAll_inv s u s' :
  cpu_wf (k_cpu s) -> 0 < ncli (k_cpu s) -> printAllRunningProcesses s = Ok u s' ->
  exists o, s' = s <| k_out := o |>.
Proof.
  intros Hwf Hn H. unfold printAllRunningProcesses in H. rewrite bind_get in H.
  destruct (_ =? 1) in H; [|injection H as _ <-; exists (k_out s); by destruct s].
  apply bind_inv in H as ([] & s1 & H1 & H). apply cprintf_nested in H1 as [o ->]; [|done..].
  apply bind_inv in H as ([] & s2 & H2 & H).
  assert (exists o, s2 = s <| k_out := o |>) as [o2 ->].
  { revert o H2. generalize all_procs. intros l. induction l as [|i l IH]; intros o H2; cbn [for_each] in H2.
    - injection H2 as <-. eauto.
    - apply bind_inv in H2 as ([] & s3 & H3 & H2). apply bind_inv in H3 as (p & s4 & H4 & H3).
      assert (s4 = s <| k_out := o |>) as ->.
      { unfold get_proc, nth_ok in H4. rewrite bind_get in H4. by destruct (_ !! i); minv. }
      destruct (nz (p_pid p)); simpl in H3.
      + apply cprintf_nested in H3 as [o' ->]; [|done..]. apply (IH o'). rewrite <- H2. by destruct s.
      + injection H3 as <-. eauto. }
  apply cprintf_nested in H as [o3 ->]; [|done..]. exists o3. by destruct s.
Qed.

(** ** One switch *)

(** The state in which [dispatch] calls [run]. *)
Definition running_st (i : nat) (p : proc) (s : kst) : kst :=
  tss_loaded (p_kstack p) (s <| k_proc := Some i |>)
    <| k_cr3 := V2P (p_pgdir p) |>
    <| k_ptable ::= fun t => t <| pt_proc ::= alter (fun p => p <| p_processCounter := 0 |>) i |>
                               <| pt_proc ::= alter (fun p => p <| p_state := RUNNING |>) i |> |>.

Lemma active_low prio p : p_piority p <> prio -> active prio p = false.
Proof. intros H. unfold active. rewrite (proj2 (Z.eqb_neq _ _)) by done. apply andb_false_r. Qed.

Lemma running_no_active prio i p s :
  pts s !! i = Some p -> p_piority p <> prio -> no_active prio s -> no_active prio (running_st i p s).
Proof.
  intros Hp Hne H. unfold no_active, running_st, pts in *. simpl.
  apply Forall_alter; [apply Forall_alter; [done|]|].
  - intros q Hq _. apply active_low. simpl. congruence.
  - intros q Hq _. rewrite list_lookup_alter_eq, Hp in Hq. injection Hq as <-.
    by apply active_low.
Qed.

Lemma running_may_run i p s :
  sched_inv s -> pts s !! i = Some p -> eligible i s -> may_run i (running_st i p s) = true.
Proof.
  intros (Hq & HL & _ & _) Hp (p' & Hp' & He). rewrite Hp in Hp'. injection Hp' as <-.
  unfold may_run. simpl. rewrite !bool_decide_eq_true_2 by done. simpl.
  assert (pts (running_st i p s) !! i =
    Some (p <| p_processCounter := 0 |> <| p_state := RUNNING |>)) as ->.
  { unfold pts, running_st in *. simpl. by rewrite !list_lookup_alter_eq, Hp. }
  simpl. rewrite Z.eqb_refl. simpl.
  destruct He as [->|[[E H]|(E & H1 & H2)]]; [done|..]; rewrite E; simpl.
  - rewrite bool_decide_eq_true_2; [done|]. apply running_no_active; [done|by rewrite E|done].
  - rewrite !bool_decide_eq_true_2; [done|..]; (apply running_no_active; [done|by rewrite E|done]).
Qed.

Section Round.
Context (run : nat -> K unit).
Hypothesis Hrun : run_contract run.

(** [dispatch] up to the switch, and after it. *)
Lemma dispatch_run (r : nat -> K unit) i p s :
  sched_inv s -> pts s !! i = Some p ->
  dispatch r i s =
    match switchuvm i (s <| k_proc := Some i |>) with
    | Ok _ _ => bind (r i) (fun _ => switchkvm ;; printAllRunningProcesses ;;
                  modify (fun s => s <| k_proc := None |>)) (running_st i p s)
    | Panic msg s' => Panic msg s'
    | Fault msg s' => Fault msg s'
    | Switch s' => Switch s'
    | Spin s' => Spin s'
    end.
Proof.
  intros (Hq & HL & Hwf & Hn) Hp. unfold dispatch. rewrite bind_modify.
  unfold bind at 1. destruct (switchuvm i _) as [[] s1| | | |] eqn:E1; try done.
  apply (switchuvm_inv _ p) in E1 as ->; [|done..]. done.
Qed.

Lemma after_switch s s' :
  sched_inv s ->
  bind switchkvm (fun _ => printAllRunningProcesses ;; modify (fun s => s <| k_proc := None |>)) s
    = Ok tt s' ->
  sched_inv s' /\ flags s' = flags s.
Proof.
  intros (Hq & HL & Hwf & Hn) H. unfold switchkvm in H. rewrite bind_modify in H.
  apply bind_inv in H as ([] & s1 & H1 & H). apply printAll_inv in H1 as [o ->]; [|done..].
  injection H as <-. done.
Qed.

Lemma dispatch_agrees i (high : Prop) :
  agrees (fun s => sched_inv s /\ eligible i s /\ flags_bool s /\ (high -> is_high i s /\ GRTExists (k_ptable s) = 1))
    (dispatch run i) (dispatch (guarded run) i)
    (fun _ s => sched_inv s /\ flags_bool s /\ (high -> GRTExists (k_ptable s) = 1)).
Proof.
  intros s (Hi & He & Hf & Hh). pose proof He as (p & Hp & _).
  rewrite !(dispatch_run _ _ p) by done.
  destruct (switchuvm i _); try (split; [done|intros; discriminate]).
  assert (guarded run i (running_st i p s) = run i (running_st i p s)) as Hg.
  { unfold guarded. by rewrite running_may_run. }
  split; [unfold bind; by rewrite Hg|]. intros [] s' H.
  apply bind_inv in H as ([] & s2 & Er & H).
  destruct (Hrun i (running_st i p s) s2) as (Hi2 & Hf2 & Hk2); [done..|].
  apply after_switch in H as [Hi' [= Hg' Hf']]; [|done]. split; [done|]. unfold flags_bool. rewrite Hg', Hf'.
  split; [done|]. intros [(q & Hq & Eq) Hg1]%Hh. rewrite Hp in Hq. injection Hq as <-. apply Hk2; [|done].
  exists (p <| p_processCounter := 0 |> <| p_state := RUNNING |>). split; [|done].
  unfold pts, running_st in *. simpl. by rewrite !list_lookup_alter_eq, Hp.
Qed.

(** ** The flags *)

Lemma check_fold ps t :
  let t' := fold_left check_step ps t in
  pt_proc t' = pt_proc t /\ policyChooser t' = policyChooser t /\
  (GRTExists t' = GRTExists t /\ Forall (fun p => active HIGH_PIORITY p = false) ps \/ GRTExists t' = 1) /\
  (FRRExists t' = FRRExists t /\ Forall (fun p => active MEDIUM_PIORITY p = false) ps \/ FRRExists t' = 1).
Proof.
  revert t. induction ps as [|p ps IH]; intros t; simpl; [auto 7|].
  specialize (IH (check_step t p)). simpl in IH. destruct IH as (H1 & H2 & H3 & H4).
  rewrite H1, H2. unfold check_step in *. unfold active in *.
  rewrite !list.Forall_cons.
  destruct (runnable_or_running p); simpl in *; [|tauto].
  destruct (Z.eqb_spec (p_piority p) HIGH_PIORITY) as [E|E]; simpl in *.
  { rewrite E in *. simpl in *. split_and!; [done|done|right; intuition congruence|tauto]. }
  destruct (Z.eqb_spec (p_piority p) MEDIUM_PIORITY) as [E2|E2]; simpl in *; [|tauto].
  split_and!; [done|done|tauto|right; intuition congruence].
Qed.

(** [GRTExists] is clear only if no high priority process is active, likewise
    [FRRExists] for medium priority. *)
Definition flags_true (s : kst) : Prop :=
  (GRTExists (k_ptable s) = 0 -> no_active HIGH_PIORITY s) /\
  (FRRExists (k_ptable s) = 0 -> no_active MEDIUM_PIORITY s).

Lemma check_run s s' u :
  checkForHigherPiority s = Ok u s' -> sched_inv s ->
  sched_inv s' /\ flags_true s' /\ pts s' = pts s /\
  (GRTExists (k_ptable s') = GRTExists (k_ptable s) \/ GRTExists (k_ptable s') = 1) /\
  (FRRExists (k_ptable s') = FRRExists (k_ptable s) \/ FRRExists (k_ptable s') = 1).
Proof.
  intros H (Hq & HL & Hwf & Hn). injection H as _ <-.
  destruct (check_fold (pt_proc (k_ptable s)) (k_ptable s)) as (H1 & H2 & H3 & H4).
  unfold flags_true, no_active, sched_inv, pts. simpl. rewrite H1, H2.
  split_and!; try done.
  - destruct H3 as [[_ H3]|H3]; [done|]. rewrite H3. done.
  - destruct H4 as [[_ H4]|H4]; [done|]. rewrite H4. done.
  - destruct H3 as [[-> _]|H3]; auto.
  - destruct H4 as [[-> _]|H4]; auto.
Qed.

Lemma check_bool s s' u :
  checkForHigherPiority s = Ok u s' -> sched_inv s -> flags_bool s -> sched_inv s' /\ flags_true s' /\ flags_bool s'.
Proof.
  intros H Hi [Hg Hf]. apply check_run in H as (H1 & H2 & _ & H3 & H4); [|done]. split; [done|]. split; [done|].
  unfold flags_bool. destruct H3 as [->| ->], H4 as [->| ->]; auto.
Qed.

(** ** The three parts *)

Lemma get_proc_inv i s p s' : get_proc i s = Ok p s' -> s' = s /\ pts s !! i = Some p.
Proof.
  unfold get_proc, nth_ok, pts. rewrite bind_get. destruct (_ !! i) eqn:E; intros H; [|done].
  by injection H as <- <-.
Qed.

Lemma frr_loop_agrees ids :
  agrees (fun s => sched_inv s /\ (flags_true s /\ flags_bool s) /\ GRTExists (k_ptable s) = 0)
    (frr_loop run ids) (frr_loop (guarded run) ids)
    (fun _ s => sched_inv s /\ flags_true s /\ flags_bool s).
Proof.
  induction ids as [|i ids IH]; unfold frr_loop; fold frr_loop.
  { apply agrees_same. intros s a s' (H1 & H2 & _) [= _ <-]. done. }
  eapply agrees_bind with (R := fun p s => (sched_inv s /\ (flags_true s /\ flags_bool s) /\ GRTExists (k_ptable s) = 0)
                                            /\ pts s !! i = Some p).
  { apply agrees_same. intros s p s' Hs H. apply get_proc_inv in H as [H1 H2]. by subst s'. }
  intros p. eapply agrees_bind with (R := fun pol s => ((sched_inv s /\ (flags_true s /\ flags_bool s) /\
    GRTExists (k_ptable s) = 0) /\ pts s !! i = Some p) /\ pol = Q3).
  { apply agrees_same. intros s pol s' Hs [= <- <-]. split; [done|]. apply Hs. }
  intros pol. destruct (negb _); [eapply agrees_pre; [|exact IH]; tauto|].
  destruct ((pol =? Q3) && negb (p_piority p =? MEDIUM_PIORITY)) eqn:Em;
    [eapply agrees_pre; [|exact IH]; tauto|].
  eapply agrees_bind with (R := fun _ s => sched_inv s /\ eligible i s /\ flags_bool s /\ (False -> is_high i s /\ GRTExists (k_ptable s) = 1)).
  { apply agrees_same. intros s [] s' (((Hi & [Hft Hfb] & Hg) & Hp) & Hpol) H. rewrite Hpol in Em, H. simpl in Em, H.
    apply negb_false_iff, Z.eqb_eq in Em. injection H as <-. split; [done|].
    split; [|split; [split; [apply Hfb|by right]|done]].
    exists p. split; [done|]. right. left. split; [done|]. by apply (proj1 Hft). }
  intros _. eapply agrees_bind; [apply dispatch_agrees|]. intros u. cbv beta.
  eapply agrees_bind with (R := fun pol s => (sched_inv s /\ flags_bool s) /\ pol = Q3).
  { apply agrees_same. intros s pol2 s' (Hi & Hf & _) [= <- <-]. split; [done|]. apply Hi. }
  intros pol2. destruct (Z.eqb_spec pol2 Q3); [|intros s (_ & ?); done].
  eapply agrees_bind with (R := fun _ s => sched_inv s /\ flags_true s /\ flags_bool s).
  { apply agrees_same. intros s [] s' ((Hi & Hf) & _) H. by eapply check_bool. }
  intros _. eapply agrees_bind with (R := fun g s => (sched_inv s /\ flags_true s /\ flags_bool s) /\ g = GRTExists (k_ptable s)).
  { apply agrees_same. intros s g s' Hs [= <- <-]. done. }
  intros g. destruct (Z.eqb_spec g 1) as [->|Hne].
  - apply agrees_same. intros s a s' (Hs & _) [= _ <-]. tauto.
  - eapply agrees_pre; [|exact IH]. intros s ((Hi & Hft & Hfb) & ->). split; [done|]. split; [done|]. by destruct (proj1 Hfb).
Qed.

Lemma rr_loop_agrees ids :
  agrees (fun s => sched_inv s /\ flags_true s /\ flags s = (0, 0))
    (rr_loop run ids) (rr_loop (guarded run) ids) (fun _ s => sched_inv s).
Proof.
  induction ids as [|i ids IH]; unfold rr_loop; fold rr_loop.
  { apply agrees_same. intros s a s' (H1 & _) [= _ <-]. done. }
  eapply agrees_bind with (R := fun p s => (sched_inv s /\ flags_true s /\ flags s = (0, 0))
                                            /\ pts s !! i = Some p).
  { apply agrees_same. intros s p s' Hs H. apply get_proc_inv in H as [H1 H2]. by subst s'. }
  intros p. destruct (negb _); [eapply agrees_pre; [|exact IH]; tauto|].
  destruct (negb (p_piority p =? LOW_PIORITY)) eqn:El; [eapply agrees_pre; [|exact IH]; tauto|].
  apply negb_false_iff, Z.eqb_eq in El.
  eapply agrees_bind; [eapply agrees_pre; [|apply (dispatch_agrees i False)]|].
  { intros s ((Hi & Hft & Hf) & Hp). injection Hf as Hg Hfr. split; [done|]. split; [|split; [by split; left|done]].
    exists p. split; [done|]. right. right. split; [done|].
    split; [by apply (proj1 Hft)|by apply (proj2 Hft)]. }
  intros u. eapply agrees_bind with (R := fun pol s => (sched_inv s /\ flags_bool s) /\ pol = Q3).
  { apply agrees_same. intros s pol2 s' (Hi & Hf & _) [= <- <-]. split; [done|]. apply Hi. }
  intros pol2. destruct (Z.eqb_spec pol2 Q3); [|intros s (_ & ?); done].
  eapply agrees_bind with (R := fun _ s => sched_inv s /\ flags_true s /\ flags_bool s).
  { apply agrees_same. intros s [] s' ((Hi & Hf) & _) H. by eapply check_bool. }
  intros _. eapply agrees_bind with (R := fun t s => (sched_inv s /\ flags_true s /\ flags_bool s) /\ t = k_ptable s).
  { apply agrees_same. intros s g s' Hs [= <- <-]. done. }
  intros t. destruct ((GRTExists t =? 1) || (FRRExists t =? 1)) eqn:Eg.
  - apply agrees_same. intros s a s' (Hs & _) [= _ <-]. tauto.
  - eapply agrees_pre; [|exact IH]. intros s (Hs & ->). breflect.
    destruct Hs as (? & ? & [?|?] & [?|?]); try done. split_and!; auto. unfold flags. by f_equal.
Qed.

Lemma grt_loop_candidate policy ticks ps i best bestv k :
  grt_loop policy ticks i ps best bestv = Some k ->
  best = Some k \/ exists j p, k = (i + j)%nat /\ ps !! j = Some p /\ candidate policy p = true.
Proof.
  revert i best bestv. induction ps as [|p ps IH]; intros i best bestv H; cbn [grt_loop] in H; [auto|].
  assert (forall best bestv, grt_loop policy ticks (S i) ps best bestv = Some k ->
    best = Some k \/ exists j q, k = (i + j)%nat /\ (p :: ps) !! j = Some q /\ candidate policy q = true) as Hs.
  { intros b bv Hb. apply IH in Hb as [?|(j & q & -> & Hq & Hc)]; [auto|]. right.
    exists (S j), q. split; [lia|auto]. }
  destruct (st_eqb (p_state p) RUNNABLE) eqn:E1; simpl in H; [|eauto].
  destruct ((policy =? Q3) && negb (p_piority p =? HIGH_PIORITY)) eqn:E2; [eauto|].
  destruct (_ || _) in H; [|eauto].
  apply Hs in H as [[= <-]|?]; [|auto]. right. exists 0%nat, p. split; [lia|]. split; [done|].
  unfold candidate. by rewrite E1, E2.
Qed.

Lemma grt_part_agrees :
  agrees (fun s => sched_inv s /\ flags_true s /\ flags_bool s)
    (grt_part run) (grt_part (guarded run))
    (fun _ s => sched_inv s /\ (GRTExists (k_ptable s) = 0 -> flags_true s) /\ flags_bool s).
Proof.
  intros s (Hi & Hft & Hfb). unfold grt_part. rewrite !bind_get. pose proof Hi as (Hq & _). rewrite Hq. simpl.
  destruct (grt_loop Q3 (k_ticks s) 0 (pts s) None f32_minus_one) as [i|] eqn:E.
  - apply grt_loop_candidate in E as [?|(j & p & -> & Hp & Hc)]; [done|]. simpl.
    unfold candidate in Hc. apply andb_true_iff in Hc as [Hc1 Hc2].
    simpl in Hc2. rewrite negb_involutive in Hc2. apply Z.eqb_eq in Hc2.
    assert (GRTExists (k_ptable s) = 1) as Hg1.
    { destruct (proj1 Hfb) as [Hg|Hg]; [|done]. exfalso. pose proof (Forall_lookup_1 _ _ _ _ (proj1 Hft Hg) Hp) as Ha. simpl in Ha.
      unfold active, runnable_or_running in Ha. by rewrite Hc1, Hc2 in Ha. }
    destruct (dispatch_agrees j True s) as [E Hpost]; [split; [done|]; split; [exists p; auto|]; split; [done|]|].
    { intros _. split; [by exists p|done]. }
    split; [done|]. intros u s' H. destruct (Hpost u s' H) as (Hi' & Hf & Hk). split; [done|]. split; [|done].
    intros Hg. rewrite Hk in Hg by done. done.
  - split; [done|]. intros u s' H. injection H as _ <-. auto.
Qed.

Lemma frr_part_agrees :
  agrees (fun s => sched_inv s /\ (GRTExists (k_ptable s) = 0 -> flags_true s) /\ flags_bool s)
    (frr_part run) (frr_part (guarded run))
    (fun _ s => sched_inv s /\ (GRTExists (k_ptable s) = 0 -> flags_true s) /\ flags_bool s).
Proof.
  intros s (Hi & Hft & Hfb). unfold frr_part. rewrite !bind_gets. pose proof Hi as (Hq & _). rewrite Hq.
  change (Q3 =? FRR) with false. rewrite Z.eqb_refl.
  destruct (Z.eqb_spec (GRTExists (k_ptable s)) 0) as [Hg|Hg]; cbn [orb andb]; unfold when.
  - destruct (frr_loop_agrees all_procs s) as [E Hpost]; [auto|]. split; [done|].
    intros u s' H. destruct (Hpost u s' H) as (? & ? & ?). auto.
  - split; [done|]. intros u s' H. injection H as _ <-. auto.
Qed.

Lemma rr_part_agrees :
  agrees (fun s => sched_inv s /\ (GRTExists (k_ptable s) = 0 -> flags_true s) /\ flags_bool s)
    (rr_part run) (rr_part (guarded run)) (fun _ s => sched_inv s).
Proof.
  intros s (Hi & Hft & Hfb). unfold rr_part. rewrite !bind_gets. pose proof Hi as (Hq & _). rewrite Hq.
  change (Q3 =? RR) with false. rewrite Z.eqb_refl.
  destruct (Z.eqb_spec (GRTExists (k_ptable s)) 0) as [Hg|Hg];
    [destruct (Z.eqb_spec (FRRExists (k_ptable s)) 0) as [Hf|Hf]|]; cbn [orb andb]; unfold when;
    [|split; [done|]; intros u s' H; injection H as _ <-; done..].
  apply rr_loop_agrees. split; [done|]. split; [by apply Hft|].
  unfold flags. by rewrite Hg, Hf.
Qed.

Lemma body_agrees :
  agrees (fun s => policyChooser (k_ptable s) = Q3 /\ ncli (k_cpu s) = 0)
    (scheduler_body run) (scheduler_body (guarded run)) (fun _ _ => True).
Proof.
  unfold scheduler_body.
  eapply agrees_bind with (R := fun _ s => policyChooser (k_ptable s) = Q3 /\ ncli (k_cpu s) = 0).
  { apply agrees_same. intros s u s' Hs H. injection H as _ <-. done. }
  intros u. eapply agrees_bind with (R := fun _ s => sched_inv s).
  { apply agrees_same. intros s u' s' [Hq Hn] H. apply acquire_inv in H as [HL Hs']. subst s'.
    unfold sched_inv, lock_st, cpu_wf. simpl. rewrite lookup_insert_eq, Hn. repeat split; try done; lia. }
  intros u1. eapply agrees_bind with (R := fun _ s => sched_inv s /\ flags_bool s).
  { apply agrees_same. intros s u' s' Hs H. injection H as _ <-. split; [done|]. by split; left. }
  intros u2. eapply agrees_bind with (R := fun _ s => sched_inv s /\ flags_true s /\ flags_bool s).
  { apply agrees_same. intros s u' s' [Hs Hfb] H. by eapply check_bool. }
  intros u3. eapply agrees_bind; [apply grt_part_agrees|].
  intros u4. eapply agrees_bind; [apply frr_part_agrees|].
  intros u5. eapply agrees_bind; [apply rr_part_agrees|].
  intros u6. apply agrees_same. done.
Qed.
End Round.

(** C3. Under the multi-level policy a round of the scheduler keeps to the priorities. It
    behaves exactly as if every switch were checked first: the chosen process is current,
    [RUNNING] with a fresh quantum and its page table loaded, the lock is held, and no
    process of higher priority is runnable or running. In particular medium priority
    processes run only when no high priority process is active, and low priority ones only
    when no process of another level is. The processes may do anything while they run, and
    other processors may run their schedulers, which set and clear the same two flags. What
    is assumed ([run_contract]) is that a process comes back with [ptable.lock] held, and
    that [GRTExists] is still set when a process chosen for its high priority comes back.
    Other processors see to that while the process keeps its priority; when it has lowered
    it with [nice] and another processor has started a round, the flag may be clear and the
    priorities can be broken ([stale_flag_breaks_priorities]). *)
Theorem scheduler_respects_priorities run s :
  run_contract run -> policyChooser (k_ptable s) = Q3 -> ncli (k_cpu s) = 0 ->
  scheduler_body run s = scheduler_body (guarded run) s.
Proof. intros Hrun Hq Hn. by apply (body_agrees run Hrun). Qed.

(** A process that runs and goes to sleep, and a table with one process of each level. *)
Definition run_then_sleep (i : nat) : K unit := set_proc i (fun p => p <| p_state := SLEEPING |>).

Definition three_levels : kst :=
  let p prio := zero_proc <| p_state := RUNNABLE |> <| p_pgdir := 0x80400000 |> <| p_piority := prio |> in
  (kst0 (fun _ => [])) <| k_ptable ::= fun t => t <| pt_proc :=
    [p LOW_PIORITY; p MEDIUM_PIORITY; p HIGH_PIORITY] ++ replicate 61 zero_proc |> |>.

Definition states3 (r : res kst unit) : list procstate := p_state <$> take 3 (pts (final r)).

Lemma run_then_sleep_contract : run_contract run_then_sleep.
Proof. intros i s s' Hs Hf H. injection H as <-. done. Qed.

(** Three rounds run the three processes in the order of their levels. *)
Lemma scheduler_respects_priorities_witness :
  run_contract run_then_sleep /\
  scheduler_body run_then_sleep three_levels = scheduler_body (guarded run_then_sleep) three_levels /\
  states3 (scheduler_rounds run_then_sleep 1 three_levels) = [RUNNABLE; RUNNABLE; SLEEPING] /\
  states3 (scheduler_rounds run_then_sleep 2 three_levels) = [RUNNABLE; SLEEPING; SLEEPING] /\
  states3 (scheduler_rounds run_then_sleep 3 three_levels) = [SLEEPING; SLEEPING; SLEEPING].
Proof.
  split; [exact run_then_sleep_contract|].
  split; [apply (scheduler_respects_priorities run_then_sleep three_levels);
          [exact run_then_sleep_contract|reflexivity|reflexivity]|].
  split; [vm_compute; reflexivity|]. split; vm_compute; reflexivity.
Defined.

(** ** When a high priority process runs on another processor *)

Lemma grt_loop_none policy ticks ps i :
  Forall (fun p => candidate policy p = false) ps ->
  grt_loop policy ticks i ps None f32_minus_one = None.
Proof.
  revert i. induction ps as [|p ps IH]; intros i; cbn [grt_loop]; [done|].
  intros [Hp Hps]%Forall_cons_1. unfold candidate in Hp.
  destruct (st_eqb (p_state p) RUNNABLE); simpl in *; [|auto].
  apply negb_false_iff in Hp. rewrite Hp. auto.
Qed.

Lemma check_fold_high ps t p :
  p ∈ ps -> active HIGH_PIORITY p = true -> GRTExists (fold_left check_step ps t) = 1.
Proof.
  intros Hin Ha. destruct (check_fold ps t) as (_ & _ & [[_ H]|H] & _); [|done].
  rewrite list.Forall_forall in H. rewrite (H p Hin) in Ha. done.
Qed.

(** The round of another processor finds a high priority process that is running. *)
Lemma check_sees_running i p s s' u :
  pts s !! i = Some p -> p_state p = RUNNING -> p_piority p = HIGH_PIORITY ->
  checkForHigherPiority s = Ok u s' -> GRTExists (k_ptable s') = 1.
Proof.
  intros Hp Hst Hpr H. injection H as _ <-. simpl. apply (check_fold_high _ _ p); [by eapply list_elem_of_lookup_2|].
  unfold active, runnable_or_running. by rewrite Hst, Hpr.
Qed.

(** Process 0, chosen for its high priority, calls [nice]; another processor starts a round
    and finds no high priority process; then the high priority process 2 wakes up, and
    process 0 gives up the processor. *)
Definition run_lowered (i : nat) : K unit :=
  if (i =? 0)%nat then
    set_proc 0 (fun p => p <| p_piority := MEDIUM_PIORITY |>) ;;
    modify (fun s => s <| k_ptable ::= fun t => t <| GRTExists := 0 |> <| FRRExists := 0 |> |>) ;;
    checkForHigherPiority ;;
    set_proc 2 (fun p => p <| p_state := RUNNABLE |>) ;;
    set_proc 0 (fun p => p <| p_state := RUNNABLE |>)
  else run_then_sleep i.

Definition before_nice : kst :=
  let p st prio := zero_proc <| p_state := st |> <| p_pgdir := 0x80400000 |> <| p_piority := prio |> in
  (kst0 (fun _ => [])) <| k_ptable ::= fun t => t <| pt_proc :=
    [p RUNNABLE HIGH_PIORITY; p RUNNABLE MEDIUM_PIORITY; p SLEEPING HIGH_PIORITY] ++ replicate 61 zero_proc |> |>.

(** The round goes on with a medium priority process while a high priority one is runnable. *)
Lemma stale_flag_breaks_priorities :
  is_ok (scheduler_body run_lowered before_nice) = true /\ is_ok (scheduler_body (guarded run_lowered) before_nice) = false.
Proof. vm_compute. split; reflexivity. Qed.

(** C12. Under [Q3] a processor stays idle while another one runs a high priority
    process: if no high priority process is runnable but one is running, a round
    of the scheduler switches to nothing and leaves the table as it is, however
    many medium and low priority processes are waiting. *)
Theorem scheduler_idles_behind_high run s :
  policyChooser (k_ptable s) = Q3 -> ncli (k_cpu s) = 0 -> k_locks s !! LPtable = None ->
  Forall (fun p => candidate Q3 p = false) (pts s) ->
  Exists (fun p => active HIGH_PIORITY p = true) (pts s) ->
  exists s', scheduler_body run s = Ok tt s' /\ pts s' = pts s /\ k_proc s' = k_proc s.
Proof.
  intros Hq Hn HL Hno Hex. unfold scheduler_body, sti, checkForHigherPiority. mstep.
  mcall (acquire_run LPtable); [|done]. mstep. simpl. unfold grt_part. mstep. simpl.
  destruct (check_fold (pts s) ((k_ptable s) <| GRTExists := 0 |> <| FRRExists := 0 |>)) as (H1 & H2 & _).
  apply Exists_exists in Hex as (p & Hin & Ha). apply list_elem_of_In in Hin.
  pose proof (check_fold_high (pts s) ((k_ptable s) <| GRTExists := 0 |> <| FRRExists := 0 |>) p Hin Ha) as H3.
  unfold pts in *. simpl in *. rewrite H2, Hq. simpl. rewrite H1, grt_loop_none by done. mstep.
  unfold frr_part. mstep. simpl. rewrite H2, Hq, H3. mstep.
  unfold rr_part, when. simpl. mstep. simpl. rewrite H2, Hq, H3. simpl. mstep.
  rewrite release_run; simpl; [|by rewrite lookup_insert_eq|apply push_wf; unfold cpu_wf; simpl; lia|lia].
  eexists. split; [reflexivity|]. split; [exact H1|done].
Qed.

(** A high priority process running elsewhere, a medium priority one waiting. *)
Definition busy_elsewhere : kst :=
  let p st prio := zero_proc <| p_state := st |> <| p_pgdir := 0x80400000 |> <| p_piority := prio |> in
  (kst0 (fun _ => [])) <| k_ptable ::= fun t => t <| pt_proc :=
    [p RUNNING HIGH_PIORITY; p RUNNABLE MEDIUM_PIORITY] ++ replicate 62 zero_proc |> |>.

Lemma scheduler_idles_behind_high_witness :
  Exists (fun p => p_state p = RUNNABLE) (pts busy_elsewhere) /\
  exists s', scheduler_body run_then_sleep busy_elsewhere = Ok tt s' /\ pts s' = pts busy_elsewhere.
Proof.
  split; [apply Exists_cons_tl, Exists_cons_hd; reflexivity|].
  destruct (scheduler_idles_behind_high run_then_sleep busy_elsewhere) as (s' & H1 & H2 & _);
    [reflexivity|reflexivity|reflexivity| |apply Exists_cons_hd; reflexivity|exists s'; split; assumption].
  apply (bool_decide_unpack _). vm_compute. exact I.
Defined.
