(* ===== verification/Wakeup.v ===== *)
(** * No wakeup is lost

    Any number of processes wait for a condition with the pattern of the kernel
    ([acquire(lk); while(!cond) sleep(chan, lk); ...; release(lk)]) while others
    establish it ([acquire(lk); cond = 1; wakeup(chan); release(lk)]), on any
    number of processors. Every statement of [sleep], [sched], [wakeup] and
    [wakeup1] that touches a lock, the process state or the condition is a step
    of its own. *)

From S2P Require Import Prelude.

(** Where a waiting process is. *)
Inductive wloc :=
| WOut                (* before acquire(lk) *)
| WTest               (* holds lk, about to test the condition *)
| WSleep1             (* in sleep: before acquire(&ptable.lock), holds lk *)
| WSleep2             (* before release(lk), holds both locks *)
| WSleep3             (* before proc->state = SLEEPING, holds ptable.lock *)
| WSleep4             (* state is SLEEPING, before swtch, holds ptable.lock *)
| WAsleep             (* switched away; the scheduler has released ptable.lock *)
| WReady              (* state is RUNNABLE, not running *)
| WResume             (* scheduled again, holds ptable.lock *)
| WRelock             (* before acquire(lk) at the end of sleep *)
| WGo.                (* saw the condition, holds lk *)

(** Where a process that establishes the condition is. *)
Inductive nloc :=
| NOut | NSet | NWake1 | NWake2 | NWake3 | NRel.

Inductive loc := W (l : wloc) | N (l : nloc).

#[export] Instance wloc_eq_dec : EqDecision wloc.
Proof. solve_decision. Defined.
#[export] Instance nloc_eq_dec : EqDecision nloc.
Proof. solve_decision. Defined.
#[export] Instance loc_eq_dec : EqDecision loc.
Proof. solve_decision. Defined.

Record sys := mkSys {
  lk : bool;            (* is the condition's lock taken? *)
  pt : bool;            (* is ptable.lock taken? *)
  cond : bool;
  at_ : nat -> loc
}.

Definition upd (f : nat -> loc) (i : nat) (l : loc) : nat -> loc :=
  fun j => if decide (j = i) then l else f j.

(** [wakeup1]: every process sleeping on the channel becomes [RUNNABLE]. *)
Definition wake_all (f : nat -> loc) : nat -> loc :=
  fun j => match f j with W WAsleep => W WReady | l => l end.

(** The next statement of process [i]. *)
Definition step (i : nat) (s : sys) : option sys :=
  let go l := upd (at_ s) i l in
  match at_ s i with
  | W WOut => if lk s then None else Some (mkSys true (pt s) (cond s) (go (W WTest)))
  | W WTest => Some (mkSys (lk s) (pt s) (cond s) (go (W (if cond s then WGo else WSleep1))))
  | W WSleep1 => if pt s then None else Some (mkSys (lk s) true (cond s) (go (W WSleep2)))
  | W WSleep2 => Some (mkSys false (pt s) (cond s) (go (W WSleep3)))
  | W WSleep3 => Some (mkSys (lk s) (pt s) (cond s) (go (W WSleep4)))
  | W WSleep4 => Some (mkSys (lk s) false (cond s) (go (W WAsleep)))
  | W WAsleep => None
  | W WReady => if pt s then None else Some (mkSys (lk s) true (cond s) (go (W WResume)))
  | W WResume => Some (mkSys (lk s) false (cond s) (go (W WRelock)))
  | W WRelock => if lk s then None else Some (mkSys true (pt s) (cond s) (go (W WTest)))
  | W WGo => Some (mkSys false (pt s) false (go (W WOut)))
  | N NOut => if lk s then None else Some (mkSys true (pt s) (cond s) (go (N NSet)))
  | N NSet => Some (mkSys (lk s) (pt s) true (go (N NWake1)))
  | N NWake1 => if pt s then None else Some (mkSys (lk s) true (cond s) (go (N NWake2)))
  | N NWake2 => Some (mkSys (lk s) (pt s) (cond s) (wake_all (go (N NWake3))))
  | N NWake3 => Some (mkSys (lk s) false (cond s) (go (N NRel)))
  | N NRel => Some (mkSys false (pt s) (cond s) (go (N NOut)))
  end.

(** Every process starts outside, the locks free, the condition false. *)
Inductive reachable (start : nat -> loc) : sys -> Prop :=
| reach_init : (forall i, start i = W WOut \/ start i = N NOut) ->
    reachable start (mkSys false false false start)
| reach_step i s s' : reachable start s -> step i s = Some s' -> reachable start s'.

Definition has_lk (l : loc) : bool :=
  match l with
  | W (WTest | WSleep1 | WSleep2 | WGo) | N (NSet | NWake1 | NWake2 | NWake3 | NRel) => true
  | _ => false
  end.

Definition has_pt (l : loc) : bool :=
  match l with
  | W (WSleep2 | WSleep3 | WSleep4 | WResume) | N (NWake2 | NWake3) => true
  | _ => false
  end.

(** On the way into sleep or asleep: only a wakeup makes the process look again. *)
Definition committed (l : loc) : bool :=
  match l with W (WSleep1 | WSleep2 | WSleep3 | WSleep4 | WAsleep) => true | _ => false end.

(** Still going to call [wakeup1]. *)
Definition will_wake (l : loc) : bool :=
  match l with N (NWake1 | NWake2) => true | _ => false end.

(** A lock is taken exactly if one process has it. *)
Definition owned (has : loc -> bool) (taken : bool) (f : nat -> loc) : Prop :=
  if taken then exists o, has (f o) = true /\ forall j, has (f j) = true -> j = o
  else forall j, has (f j) = false.

Definition inv (s : sys) : Prop :=
  owned has_lk (lk s) (at_ s) /\ owned has_pt (pt s) (at_ s) /\
  (forall i, committed (at_ s i) = true -> cond s = true ->
     exists j, will_wake (at_ s j) = true) /\
  (forall i, at_ s i = W WGo -> cond s = true).

Lemma upd_eq f i l : upd f i l i = l.
Proof. unfold upd. by rewrite decide_True. Qed.

Lemma upd_ne f i j l : j <> i -> upd f i l j = f j.
Proof. unfold upd. intros. by rewrite decide_False. Qed.

Lemma wake_all_has (has : loc -> bool) f j :
  has (W WAsleep) = has (W WReady) -> has (wake_all f j) = has (f j).
Proof. unfold wake_all. destruct (f j) as [[]|[]]; congruence. Qed.

(** How a step of process [i] that keeps, takes or gives up a lock changes its owner. *)
Lemma owned_keep has b f i l : owned has b f -> has l = has (f i) -> owned has b (upd f i l).
Proof.
  intros H E. assert (forall j, has (upd f i l j) = has (f j)) as Hj.
  { intros j. unfold upd. case_decide; congruence. }
  destruct b; simpl in *.
  - destruct H as (o & Ho & Hu). exists o. rewrite Hj. split; [done|].
    intros j. rewrite Hj. auto.
  - intros j. by rewrite Hj.
Qed.

Lemma owned_take has f i l : owned has false f -> has l = true -> owned has true (upd f i l).
Proof.
  intros H E. exists i. rewrite upd_eq. split; [done|]. intros j. unfold upd.
  case_decide; [done|]. by rewrite H.
Qed.

Lemma owned_give has b f i l :
  owned has b f -> has (f i) = true -> has l = false -> owned has false (upd f i l).
Proof.
  intros H Hi E j. unfold upd. case_decide as D; [done|]. destruct b; simpl in H.
  - destruct H as (o & Ho & Hu). destruct (has (f j)) eqn:Ej; [|done].
    exfalso. apply D. rewrite (Hu j Ej), (Hu i Hi). done.
  - apply H.
Qed.

Lemma owned_wake has b f :
  has (W WAsleep) = has (W WReady) -> owned has b f -> owned has b (wake_all f).
Proof.
  intros E H. destruct b; simpl in *.
  - destruct H as (o & Ho & Hu). exists o. rewrite wake_all_has by done. split; [done|].
    intros j. rewrite wake_all_has by done. auto.
  - intros j. by rewrite wake_all_has.
Qed.

(** Two processes with the lock are the same. *)
Lemma owned_same has b f i j : owned has b f -> has (f i) = true -> has (f j) = true -> i = j.
Proof.
  destruct b; simpl; [|intros H Hi; by rewrite H in Hi].
  intros (o & _ & Hu) Hi Hj. rewrite (Hu i Hi), (Hu j Hj). done.
Qed.

(** The condition part of the invariant after a step of [i] that changes neither the
    condition nor whether some process will call [wakeup1]. *)
Lemma committed_keep f i l c :
  (forall k, committed (f k) = true -> c = true -> exists j, will_wake (f j) = true) ->
  will_wake l = will_wake (f i) -> (committed l = true -> committed (f i) = true \/ c = false) ->
  forall k, committed (upd f i l k) = true -> c = true -> exists j, will_wake (upd f i l j) = true.
Proof.
  intros H Ew Ec k Hk Hc.
  assert (exists j, will_wake (f j) = true) as [j Hj].
  { unfold upd in Hk. case_decide; [|eauto]. destruct (Ec Hk) as [?|?]; [eauto|congruence]. }
  exists j. unfold upd. case_decide; congruence.
Qed.

Lemma go_keep f i l c :
  (forall k, f k = W WGo -> c = true) -> (l = W WGo -> c = true) ->
  forall k, upd f i l k = W WGo -> c = true.
Proof. intros H Hl k. unfold upd. case_decide; eauto. Qed.

(** After [wakeup1], called with both locks held, nobody is on the way into sleep. *)
Lemma wake_all_committed f i b1 b2 k :
  owned has_lk b1 f -> owned has_pt b2 f -> f i = N NWake2 ->
  committed (wake_all (upd f i (N NWake3)) k) = true -> False.
Proof.
  intros HL HP Hi Hk. unfold wake_all in Hk. destruct (decide (k = i)) as [->|Hne].
  { by rewrite upd_eq in Hk. }
  rewrite upd_ne in Hk by done. apply Hne.
  destruct (f k) as [[]|[]] eqn:Ek; try done;
    [apply (owned_same has_lk b1 f)|apply (owned_same has_pt b2 f)..]; rewrite ?Hi, ?Ek; done.
Qed.

Lemma wakeup_inv start s : reachable start s -> inv s.
Proof.
  induction 1 as [Hs|i s s' _ IH Hst].
  { split_and!; simpl; intros i; destruct (Hs i) as [->| ->]; done. }
  destruct s as [b1 b2 c f]. destruct IH as (HL & HP & HC & HG). unfold step in Hst. simpl in *.
  assert (has_lk (f i) = true -> forall k, f k = W WGo -> k = i) as Hgo.
  { intros Hi k Hk. apply (owned_same _ _ _ _ _ HL); [by rewrite Hk|done]. }
  destruct (f i) as [[]|[]] eqn:Ei; try discriminate;
    try (destruct b1; [discriminate|]); try (destruct b2; [discriminate|]);
    injection Hst as <-; unfold inv; simpl;
    repeat match goal with
    | |- _ /\ _ => split
    | |- owned _ _ (wake_all _) => apply owned_wake; [done|]
    end;
    try (first
      [ apply owned_keep; [assumption|rewrite Ei; try destruct c; done]
      | apply owned_take; [assumption|done]
      | eapply owned_give; [eassumption|by rewrite Ei|done] ]);
    try (apply committed_keep; [assumption|rewrite Ei; try destruct c; done|rewrite Ei; try destruct c; auto]);
    try (apply go_keep; [assumption|try destruct c; done]); try done.
  - intros k Hk. exfalso. destruct (decide (k = i)) as [->|Hne]; [by rewrite upd_eq in Hk|].
    rewrite upd_ne in Hk by done. apply Hne. apply Hgo; rewrite ?Ei; done.
  - intros _ _ _. exists i. by rewrite upd_eq.
  - intros k Hk _. exfalso. eapply (wake_all_committed f i); eassumption.
  - intros k Hk. unfold wake_all in Hk. destruct (decide (k = i)) as [->|Hne].
    + by rewrite upd_eq in Hk.
    + rewrite upd_ne in Hk by done. apply (HG k). by destruct (f k) as [[]|[]].
Qed.

(** C6. No wakeup is lost. In every state that waiting and waking processes can
    reach by interleaving the statements of [sleep] and [wakeup], a process that
    is asleep, or on its way into sleep, while the condition holds is going to be
    woken: some process that has made the condition true has yet to call
    [wakeup1]. Once the condition's lock is free, no process sleeps on a true
    condition. *)
Theorem no_lost_wakeup start s :
  reachable start s ->
  (forall i, committed (at_ s i) = true -> cond s = true ->
     exists j, will_wake (at_ s j) = true) /\
  (lk s = false -> cond s = true -> forall i, committed (at_ s i) = false).
Proof.
  intros (HL & HP & HC & HG)%wakeup_inv. split; [exact HC|].
  intros Hlk Hc i. destruct (committed (at_ s i)) eqn:E; [|done].
  destruct (HC i E Hc) as [j Hj]. rewrite Hlk in HL. simpl in HL. specialize (HL j).
  by destruct (at_ s j) as [[]|[]].
Qed.

(** Process 0 falls asleep; process 1 sets the condition and is about to wake it. *)
Definition wake_start (i : nat) : loc := if decide (i = 0%nat) then W WOut else N NOut.

Fixpoint steps (ids : list nat) (s : sys) : option sys :=
  match ids with
  | [] => Some s
  | i :: ids' => match step i s with Some s' => steps ids' s' | None => None end
  end.

Lemma steps_reachable start ids s s' :
  reachable start s -> steps ids s = Some s' -> reachable start s'.
Proof.
  revert s. induction ids as [|i ids IH]; intros s Hs H; simpl in H; [congruence|].
  destruct (step i s) eqn:E; [|done]. eapply IH; [|exact H]. by eapply reach_step.
Qed.

Definition wake_sched : list nat := [0; 0; 0; 0; 0; 0; 1; 1]%nat.

Lemma no_lost_wakeup_witness :
  exists s, steps wake_sched (mkSys false false false wake_start) = Some s /\
    at_ s 0%nat = W WAsleep /\ cond s = true /\ exists j, will_wake (at_ s j) = true.
Proof.
  destruct (steps wake_sched (mkSys false false false wake_start)) as [s|] eqn:E; [|discriminate E].
  exists s. split; [reflexivity|].
  assert (reachable wake_start s) as Hr.
  { eapply steps_reachable; [|exact E]. apply reach_init.
    intros i. unfold wake_start. destruct (decide (i = 0%nat)); [left|right]; reflexivity. }
  assert (at_ s 0%nat = W WAsleep) as H0 by (injection E as <-; reflexivity).
  assert (cond s = true) as H1 by (injection E as <-; reflexivity).
  split; [exact H0|]. split; [exact H1|].
  apply (proj1 (no_lost_wakeup wake_start s Hr) 0%nat); [rewrite H0; reflexivity|exact H1].
Defined.
