(* ===== verification/Procs.v ===== *)
(** * Process operations: giving up the processor, sleeping, waking, killing, creating *)

From Stdlib Require Import FunctionalExtensionality Sorted.
From S2P Require Import Prelude Params State Mem Strings Locks Printf Kalloc Vm Sched Policy.
Import Spin.

(** ** Shared lemmas *)

Lemma myproc_run me s : k_proc s = Some me -> myproc s = Ok me s.
Proof. intros H. unfold myproc. rewrite bind_gets, H. done. Qed.

Lemma get_proc_run i p s : pts s !! i = Some p -> get_proc i s = Ok p s.
Proof. intros H. unfold get_proc, nth_ok, pts in *. rewrite bind_get, H. done. Qed.

(** The state after [set_proc]. *)
Definition with_proc (i : nat) (f : proc -> proc) (s : kst) : kst :=
  s <| k_ptable ::= fun t => t <| pt_proc ::= alter f i |> |>.

Lemma set_proc_run i f s : set_proc i f s = Ok tt (with_proc i f s).
Proof. done. Qed.

Lemma pts_with_proc i f s : pts (with_proc i f s) = alter f i (pts s).
Proof. done. Qed.

Lemma pts_with_proc_eq i f s p :
  pts s !! i = Some p -> pts (with_proc i f s) !! i = Some (f p).
Proof. intros H. by rewrite pts_with_proc, list_lookup_alter_eq, H. Qed.

Lemma with_proc_twice i f g s : with_proc i g (with_proc i f s) = with_proc i (g ∘ f) s.
Proof.
  destruct s. unfold with_proc, set, set_k_ptable, set_pt_proc. simpl.
  by rewrite list_alter_alter_eq.
Qed.

Lemma with_proc_ext i f g s :
  (forall p, pts s !! i = Some p -> f p = g p) -> with_proc i f s = with_proc i g s.
Proof.
  intros H. destruct s as [? ? ? ? ? ? ? ? ? ? ? []].
  unfold with_proc, set, set_k_ptable, set_pt_proc. simpl. do 2 f_equal.
  by apply list_alter_ext.
Qed.

Lemma with_proc_id i f s : (forall p, pts s !! i = Some p -> f p = p) -> with_proc i f s = s.
Proof.
  intros H. rewrite (with_proc_ext i f id) by done. destruct s as [? ? ? ? ? ? ? ? ? ? ? []].
  unfold with_proc, set, set_k_ptable, set_pt_proc. simpl. do 2 f_equal. by apply list_alter_id.
Qed.

Lemma lock_st_with_proc lk i f s : lock_st lk (with_proc i f s) = with_proc i f (lock_st lk s).
Proof. by destruct s. Qed.

(** [sched] switches when it is called as it should be. *)
Lemma sched_run me p s :
  k_locks s !! LPtable = Some (k_cpuid s) -> ncli (k_cpu s) = 1 -> eflags_if (k_cpu s) = false ->
  k_proc s = Some me -> pts s !! me = Some p -> p_state p <> RUNNING ->
  sched s = Switch s.
Proof.
  intros HL Hn Hi Hme Hp Hst. unfold sched. mcall holding_run.
  rewrite bool_decide_eq_true_2 by done. simpl. mstep. rewrite Hn. simpl.
  mcall myproc_run; [|done]. mcall get_proc_run; [|done].
  destruct (st_eqb (p_state p) RUNNING) eqn:E; [by apply st_eqb_true in E|].
  by rewrite Hi.
Qed.

(** ** yield *)

(** Does the policy let a timer tick preempt this process? *)
Definition preemptible (policy : Z) (p : proc) : bool :=
  negb (policy =? GRT) && negb ((p_piority p =? HIGH_PIORITY) && (policy =? Q3)).

Lemma yield_short me p s :
  k_proc s = Some me -> pts s !! me = Some p ->
  preemptible (policyChooser (k_ptable s)) p = true -> p_processCounter p < QUANTA ->
  yield s = Ok tt (with_proc me (fun p => p <| p_processCounter ::= fun n => n + 1 |>) s).
Proof.
  intros Hme Hp Hpre Hc. apply andb_true_iff in Hpre as [H1 H2].
  apply negb_true_iff in H1, H2. unfold yield. mstep. rewrite H1.
  mcall myproc_run; [|done]. mcall get_proc_run; [|done]. rewrite H2. by rewrite (proj2 (Z.ltb_lt _ _)).
Qed.

Lemma yield_switches me p s :
  k_proc s = Some me -> pts s !! me = Some p ->
  preemptible (policyChooser (k_ptable s)) p = true -> QUANTA <= p_processCounter p ->
  unlocked LPtable s -> ncli (k_cpu s) = 0 ->
  yield s = Switch (with_proc me (fun p => p <| p_processCounter := 0 |> <| p_state := RUNNABLE |>)
                     (lock_st LPtable s)).
Proof.
  intros Hme Hp Hpre Hc [HL Hwf] Hn. apply andb_true_iff in Hpre as [H1 H2].
  apply negb_true_iff in H1, H2. unfold yield. mstep. rewrite H1.
  mcall myproc_run; [|done]. mcall get_proc_run; [|done]. rewrite H2. rewrite (proj2 (Z.ltb_ge _ _)) by done.
  mcall set_proc_run. mcall acquire_run; [|done]. mcall set_proc_run.
  unfold bind. rewrite (sched_run me (p <| p_processCounter := 0 |> <| p_state := RUNNABLE |>)).
  - by rewrite lock_st_with_proc, with_proc_twice.
  - simpl. apply lookup_insert_eq.
  - simpl. lia.
  - done.
  - done.
  - erewrite pts_with_proc_eq; [|by apply pts_with_proc_eq]. done.
  - done.
Qed.

Fixpoint yield_n (n : nat) : K unit :=
  match n with O => ret tt | S n' => yield_n n' ;; yield end.

(** C11. The quantum: a preemptible process that has just been switched to keeps the
    processor through [QUANTA] timer ticks, each counted in [processCounter], and
    loses it at the next one, becoming [RUNNABLE] with its counter cleared and
    [ptable.lock] held for the scheduler; under [GRT], and for a high priority
    process under [Q3], a tick never takes the processor away. *)
Theorem yield_quantum me p s :
  k_proc s = Some me -> pts s !! me = Some p -> p_processCounter p = 0 ->
  unlocked LPtable s -> ncli (k_cpu s) = 0 ->
  if preemptible (policyChooser (k_ptable s)) p then
    (forall n, Z.of_nat n <= QUANTA ->
      yield_n n s = Ok tt (with_proc me (fun p => p <| p_processCounter ::= fun c => c + Z.of_nat n |>) s)) /\
    exists s', yield_n (S (Z.to_nat QUANTA)) s = Switch s' /\
      pts s' !! me = Some (p <| p_state := RUNNABLE |>) /\
      k_locks s' !! LPtable = Some (k_cpuid s)
  else forall n, yield_n n s = Ok tt s.
Proof.
  intros Hme Hp Hc Hu Hn. destruct (preemptible _ p) eqn:Hpre.
  - assert (forall n, Z.of_nat n <= QUANTA -> yield_n n s =
      Ok tt (with_proc me (fun p => p <| p_processCounter ::= fun c => c + Z.of_nat n |>) s)) as Hn'.
    { induction n as [|n IH]; intros Hle.
      - simpl. unfold ret. f_equal. symmetry. apply with_proc_id. intros [] _.
        unfold compose, set, set_p_processCounter. simpl. f_equal. lia.
      - cbn [yield_n]. mcall IH; [|lia].
        erewrite yield_short; [|done|by apply pts_with_proc_eq|done|simpl; lia].
        rewrite with_proc_twice. f_equal. apply with_proc_ext. intros [] _.
        unfold compose, set, set_p_processCounter. simpl. f_equal. lia. }
    split; [done|]. eexists. split; [cbn [yield_n]; mcall Hn'; [|done];
      eapply yield_switches; [done|by apply pts_with_proc_eq|done| |done|done]|].
    { simpl. rewrite Hc. done. }
    split; [|simpl; apply lookup_insert_eq].
    erewrite pts_with_proc_eq; [|apply pts_with_proc_eq, Hp]. destruct p. unfold set. simpl in *. by subst.
  - induction n as [|n IH]; cbn [yield_n]; [done|]. mcall IH.
    unfold yield, preemptible in *. mstep.
    destruct (policyChooser (k_ptable s) =? GRT); [done|]. simpl in Hpre. apply negb_false_iff in Hpre.
    mcall myproc_run; [|done]. mcall get_proc_run; [|done]. by rewrite Hpre.
Qed.

(** Process 0 running with medium priority. *)
Definition running0 : proc := zero_proc <| p_state := RUNNING |> <| p_pid := 1 |> <| p_piority := MEDIUM_PIORITY |>.

Definition one_proc : kst :=
  (kst0 (fun _ => [])) <| k_proc := Some 0%nat |>
    <| k_ptable ::= fun t => t <| pt_proc := running0 :: replicate 63 zero_proc |> |>.

Lemma yield_quantum_witness :
  (exists s', yield_n 6 one_proc = Switch s' /\ pts s' !! 0%nat = Some (running0 <| p_state := RUNNABLE |>)) /\
  yield_n 5 one_proc = Ok tt (with_proc 0 (fun p => p <| p_processCounter ::= fun c => c + 5 |>) one_proc).
Proof.
  destruct (yield_quantum 0 running0 one_proc) as [H1 (s' & H2 & H3 & _)];
    [reflexivity|reflexivity|reflexivity|split; [reflexivity|split; simpl; lia]|reflexivity|].
  split; [exists s'; split; assumption|]. apply (H1 5%nat). unfold QUANTA. lia.
Defined.

(** ** sleep and wakeup *)

(** The part of [sleep] after the lock exchange. *)
Lemma sleep_tail me p c s :
  k_proc s = Some me -> pts s !! me = Some p ->
  k_locks s !! LPtable = Some (k_cpuid s) -> ncli (k_cpu s) = 1 -> eflags_if (k_cpu s) = false ->
  (set_proc me (fun p => p <| p_chan := Some c |>) ;;
   set_proc me (fun p => p <| p_state := SLEEPING |>) ;; sched) s =
  Switch (with_proc me (fun p => p <| p_chan := Some c |> <| p_state := SLEEPING |>) s).
Proof.
  intros Hme Hp HL Hn Hi. mcall set_proc_run. mcall set_proc_run.
  rewrite (sched_run me (p <| p_chan := Some c |> <| p_state := SLEEPING |>)); try done.
  - by rewrite with_proc_twice.
  - erewrite pts_with_proc_eq; [|by apply pts_with_proc_eq]. done.
Qed.

(** The locks after [sleep] has exchanged [lk] for [ptable.lock]. *)
Definition exchanged (lk : lockid) (s : kst) : kst :=
  if bool_decide (lk = LPtable) then s
  else s <| k_locks := delete lk (<[LPtable := k_cpuid s]> (k_locks s)) |> <| k_cpu ::= pop ∘ push |>.

Lemma sleep_run me p c lk s :
  k_proc s = Some me -> pts s !! me = Some p ->
  k_locks s !! lk = Some (k_cpuid s) -> (lk <> LPtable -> k_locks s !! LPtable = None) ->
  cpu_wf (k_cpu s) -> ncli (k_cpu s) = 1 ->
  sleep c lk s = Switch (with_proc me (fun p => p <| p_chan := Some c |> <| p_state := SLEEPING |>)
                          (exchanged lk s)).
Proof.
  intros Hme Hp HL HP Hwf Hn. unfold sleep. mstep. rewrite Hme. unfold exchanged.
  case_bool_decide as E.
  - subst lk. simpl. mstep. rewrite (sleep_tail me p); try done. by apply Hwf; lia.
  - simpl. mstep. mcall acquire_run; [|auto].
    mcall release_run; simpl.
    + rewrite (sleep_tail me p); try done; simpl.
      * rewrite lookup_delete_ne by done. apply lookup_insert_eq.
      * lia.
      * rewrite Hn. done.
    + by rewrite lookup_insert_ne.
    + by apply push_wf.
    + lia.
Qed.

(** [sleep] gives up its lock and the processor in one step as far as other
    processors can tell: it reaches the switch with the caller's lock released,
    [ptable.lock] held (so no [wakeup] can run in between), and the process
    [SLEEPING] on the channel, no other process being changed. A [wakeup] of the
    channel makes [RUNNABLE] exactly the processes sleeping on it, the sleeper
    among them; and when the scheduler comes back, [sleep] returns with the
    caller's lock held again, [ptable.lock] free and the channel cleared. *)
Theorem sleep_wakeup me p c lk s :
  k_proc s = Some me -> pts s !! me = Some p ->
  lk <> LPtable -> k_locks s !! lk = Some (k_cpuid s) -> k_locks s !! LPtable = None ->
  cpu_wf (k_cpu s) -> ncli (k_cpu s) = 1 ->
  exists s1, sleep c lk s = Switch s1 /\
    pts s1 = <[me := p <| p_chan := Some c |> <| p_state := SLEEPING |>]> (pts s) /\
    k_locks s1 = <[LPtable := k_cpuid s]> (delete lk (k_locks s)) /\
    ncli (k_cpu s1) = 1 /\
    (forall s2 u s3, pts s2 !! me = pts s1 !! me -> wakeup c s2 = Ok u s3 ->
      pts s3 !! me = Some (p <| p_chan := Some c |> <| p_state := RUNNABLE |>) /\
      forall j q, pts s2 !! j = Some q ->
        pts s3 !! j = Some (if st_eqb (p_state q) SLEEPING && bool_decide (p_chan q = Some c)
                            then q <| p_state := RUNNABLE |> else q)) /\
    (forall saved s4 u s5, k_proc s4 = Some me -> k_locks s4 !! LPtable = Some (k_cpuid s4) ->
      cpu_wf (k_cpu s4) -> ncli (k_cpu s4) = 1 ->
      sleep_resume saved lk s4 = Ok u s5 ->
      k_locks s5 = <[lk := k_cpuid s4]> (delete LPtable (k_locks s4)) /\
      pts s5 = alter (fun p => p <| p_chan := None |>) me (pts s4)).
Proof.
  intros Hme Hp Hne HL HP Hwf Hn. eexists. split; [by apply (sleep_run me p)|].
  unfold exchanged. rewrite bool_decide_eq_false_2 by done.
  assert (pts (with_proc me (fun p => p <| p_chan := Some c |> <| p_state := SLEEPING |>) s)
    = <[me := p <| p_chan := Some c |> <| p_state := SLEEPING |>]> (pts s)) as Epts.
  { rewrite pts_with_proc. by rewrite (alter_as_insert _ _ _ p Hp). }
  split_and!.
  - exact Epts.
  - simpl. by rewrite delete_insert_ne.
  - simpl. lia.
  - intros s2 u s3 H2 Hw. unfold wakeup in Hw.
    apply bind_inv in Hw as ([] & sa & Ha & Hw). apply acquire_inv in Ha as [_ ->].
    apply bind_inv in Hw as ([] & sb & Hb & Hw). injection Hb as <-.
    assert (pts s3 = wake_proc c <$> pts s2) as E3.
    { apply release_inv in Hw as [_ [cc ->]]. done. }
    assert (pts s2 !! me = Some (p <| p_chan := Some c |> <| p_state := SLEEPING |>)) as H2'.
    { rewrite H2.
      exact (pts_with_proc_eq me (fun p => p <| p_chan := Some c |> <| p_state := SLEEPING |>) s p Hp). }
    split.
    + rewrite E3, list_lookup_fmap, H2'. unfold wake_proc, sleeps_on. simpl.
      rewrite bool_decide_eq_true_2 by done. done.
    + intros j q Hj. by rewrite E3, list_lookup_fmap, Hj.
  - intros saved s4 u s5 Hme4 HL4 Hwf4 Hn4 H. unfold sleep_resume, sched_resume in H.
    rewrite bind_modify in H. erewrite bind_ok in H; [|by apply myproc_run]. cbv beta in H.
    rewrite (bind_ok _ _ _ _ _ (set_proc_run _ _ _)) in H.
    rewrite bool_decide_eq_false_2 in H by done. simpl in H.
    erewrite bind_ok in H; [|apply release_run; [done|done|simpl; lia]]. cbv beta in H.
    apply acquire_inv in H as [_ ->]. done.
Qed.

(** Process 0 in [sys_sleep], holding [tickslock]. *)
Definition sleeping_st : kst :=
  one_proc <| k_locks := {[LTicks := 0%nat]} |> <| k_cpu := mkCpu 1 true false |>.

Lemma sleep_wakeup_witness :
  exists s1, sleep ChTicks LTicks sleeping_st = Switch s1 /\
    pts s1 = <[0%nat := running0 <| p_chan := Some ChTicks |> <| p_state := SLEEPING |>]> (pts sleeping_st).
Proof.
  destruct (sleep_wakeup 0 running0 ChTicks LTicks sleeping_st) as (s1 & H1 & H2 & _);
    [reflexivity|reflexivity|discriminate|reflexivity|reflexivity|split; simpl; [lia|reflexivity]|reflexivity|].
  exists s1. split; assumption.
Defined.

Lemma wakeup_run c s :
  unlocked LPtable s ->
  wakeup c s = Ok tt (s <| k_ptable ::= fun t => t <| pt_proc ::= fmap (wake_proc c) |> |>
                        <| k_cpu ::= settle |>).
Proof.
  intros [HL Hwf]. unfold wakeup, wakeup1. mcall acquire_run; [|done]. mstep.
  rewrite (release_acquired LPtable s) by done. by destruct s.
Qed.

(** ** kill *)

(** [kill] marks the first process with the given pid, and makes it
    [RUNNABLE] if it was sleeping, so that a sleeper cannot outlive the mark;
    nothing else in the table changes, and the result is 0. If no entry has the
    pid the result is -1 and the table is as before. *)
Theorem kill_spec pid s :
  unlocked LPtable s ->
  match find_from (fun p => p_pid p =? pid) 0 (pts s) with
  | Some i => exists p s', pts s !! i = Some p /\ p_pid p = pid /\
      kill pid s = Ok 0 s' /\ pts s' = <[i := kill_proc p]> (pts s) /\
      p_killed (kill_proc p) = 1 /\ p_state (kill_proc p) <> SLEEPING
  | None => exists s', kill pid s = Ok (-1) s' /\ pts s' = pts s /\
      forall p, p ∈ pts s -> p_pid p <> pid
  end.
Proof.
  intros [HL Hwf]. destruct (find_from _ 0 (pts s)) as [i|] eqn:E.
  - pose proof E as (p & Hp & Hpid & _)%find_from_Some. apply Z.eqb_eq in Hpid.
    eexists p, _. split; [done|]. split; [done|]. unfold kill.
    mcall acquire_run; [|done]. mstep. change (pts (lock_st LPtable s)) with (pts s). rewrite E.
    mcall set_proc_run. erewrite bind_ok; [|by apply (release_acquired LPtable s)].
    split; [reflexivity|]. split; [by apply (alter_as_insert kill_proc (pts s) i p)|].
    unfold kill_proc. destruct (st_eqb _ SLEEPING) eqn:Es; simpl; [done|]. split; [done|].
    intros Hs. simpl in Es. rewrite Hs in Es. done.
  - eexists. unfold kill. mcall acquire_run; [|done]. mstep.
    change (pts (lock_st LPtable s)) with (pts s). rewrite E.
    erewrite bind_ok; [|by apply (release_acquired LPtable s)]. split; [reflexivity|]. split; [done|].
    intros p Hp Heq. rewrite find_from_None in E. apply list_elem_of_lookup_1 in Hp as [k Hk].
    specialize (E k p Hk). simpl in E. lia.
Qed.

Lemma kill_spec_witness :
  exists s', kill 1 one_proc = Ok 0 s' /\ pts s' !! 0%nat = Some (kill_proc running0).
Proof.
  assert (unlocked LPtable one_proc) as Hu by (split; [reflexivity|split; simpl; lia]).
  destruct (kill_spec 1 one_proc Hu) as (p & s' & Hp & _ & H1 & H2 & _).
  exists s'. split; [exact H1|]. rewrite H2. injection Hp as <-. reflexivity.
Defined.

(** ** Sorting the table *)

Lemma swap_perm {A} (l : list A) i k : swap l i k ≡ₚ l.
Proof.
  unfold swap. destruct (l !! i) as [x|] eqn:Ei; [|done]. destruct (l !! k) as [y|] eqn:Ek; [|done].
  destruct (decide (i = k)) as [->|Hne].
  - rewrite Ei in Ek. injection Ek as ->. by rewrite list_insert_insert_eq, list_insert_id.
  - assert (k < length l)%nat by eauto using lookup_lt_Some.
    assert (i < length l)%nat by eauto using lookup_lt_Some.
    apply (Permutation_inj). split; [by rewrite !length_insert|].
    exists (fun j => if decide (j = i) then k else if decide (j = k) then i else j).
    split; [intros a b; repeat case_decide; congruence|]. intros j.
    destruct (decide (j = k)) as [->|Hk].
    + rewrite list_lookup_insert_eq by (by rewrite length_insert).
      repeat case_decide; congruence.
    + rewrite list_lookup_insert_ne by done. destruct (decide (j = i)) as [->|Hi].
      * by rewrite list_lookup_insert_eq, Ek by done.
      * by rewrite list_lookup_insert_ne.
Qed.

Lemma sort_step_perm ps i : sort_step ps i ≡ₚ ps.
Proof.
  unfold sort_step. destruct (ps !! i); [|done]. destruct (st_eqb _ _); [|done]. apply swap_perm.
Qed.

(** The inner loop picks a [RUNNABLE] entry, whatever an entry that is not [RUNNABLE] holds. *)
Lemma sort_inner_insert ps i x p j js m :
  ps !! i = Some p -> p_state p <> RUNNABLE -> p_state x <> RUNNABLE -> j <> i -> m <> i ->
  sort_inner (<[i := x]> ps) j js m = sort_inner ps j js m /\ sort_inner ps j js m <> i.
Proof.
  intros Hp Hnp Hnx Hj. revert m. induction js as [|k js IH]; intros m Hm; cbn [sort_inner]; [done|].
  rewrite (list_lookup_insert_ne _ i j) by done. destruct (ps !! j) as [pj|]; [|done].
  assert (forall q, p_state q <> RUNNABLE -> st_eqb (p_state q) RUNNABLE = false) as Hno.
  { intros q Hq. destruct (st_eqb _ _) eqn:E; [|done]. by apply st_eqb_true in E. }
  destruct (decide (k = i)) as [->|Hk].
  - rewrite list_lookup_insert_eq, Hp by by eapply lookup_lt_Some. rewrite (Hno x Hnx), (Hno p Hnp). by apply IH.
  - rewrite list_lookup_insert_ne by done. destruct (ps !! k); [|done]. apply IH. by case_match.
Qed.

Lemma swap_insert {A} (l : list A) i j k x :
  j <> i -> k <> i -> swap (<[i := x]> l) j k = <[i := x]> (swap l j k) /\ swap l j k !! i = l !! i.
Proof.
  intros Hj Hk. unfold swap. rewrite !list_lookup_insert_ne by done. destruct (l !! j), (l !! k); try done.
  rewrite (list_insert_insert_ne l j i), list_insert_insert_ne by done. split; [done|]. by rewrite !list_lookup_insert_ne.
Qed.

(** The sort neither moves nor looks at an entry that is not [RUNNABLE]. *)
Lemma sort_step_insert ps i x p j :
  ps !! i = Some p -> p_state p <> RUNNABLE -> p_state x <> RUNNABLE ->
  sort_step (<[i := x]> ps) j = <[i := x]> (sort_step ps j) /\ sort_step ps j !! i = Some p.
Proof.
  intros Hp Hnp Hnx. unfold sort_step. destruct (decide (j = i)) as [->|Hj].
  - rewrite list_lookup_insert_eq, Hp by by eapply lookup_lt_Some.
    destruct (st_eqb (p_state p) _) eqn:E; [by apply st_eqb_true in E|].
    destruct (st_eqb (p_state x) _) eqn:E'; [by apply st_eqb_true in E'|done].
  - rewrite list_lookup_insert_ne by done. destruct (ps !! j); [|done]. destruct (st_eqb _ _); [|done].
    rewrite length_insert. destruct (sort_inner_insert ps i x p j (seq (S j) (length ps - S j)) j Hp Hnp Hnx Hj Hj) as [-> Hne].
    destruct (swap_insert ps i j _ x Hj Hne) as [-> ->]. done.
Qed.

Lemma sorted_insert ps i x p :
  ps !! i = Some p -> p_state p <> RUNNABLE -> p_state x <> RUNNABLE ->
  sorted_table (<[i := x]> ps) = <[i := x]> (sorted_table ps) /\ sorted_table ps !! i = Some p.
Proof.
  unfold sorted_table. rewrite length_insert. generalize (seq 0 (length ps)) as l. intros l Hp Hnp Hnx. revert ps Hp.
  induction l as [|j l IH]; intros ps Hp; simpl; [done|].
  destruct (sort_step_insert ps i x p j Hp Hnp Hnx) as [-> Hp']. by apply IH.
Qed.

Lemma sorted_perm ps : sorted_table ps ≡ₚ ps.
Proof.
  unfold sorted_table. generalize (seq 0 (length ps)). intros l. revert ps.
  induction l as [|i l IH]; intros ps; simpl; [done|]. rewrite IH. apply sort_step_perm.
Qed.

(** Three runnable processes created at ticks 3, 1 and 2. *)
Definition fifo_table : list proc :=
  (fun c => zero_proc <| p_state := RUNNABLE |> <| p_ctime := c |>) <$> [3; 1; 2].

(** [sortProcessFIFO] rearranges the table without losing or duplicating an
    entry, but it does not sort it: its inner loop compares with entry [i] and not
    with the least entry found so far, so it may leave processes created at ticks
    3, 1, 2 in the order 2, 1, 3. *)
Theorem sort_permutes_but_does_not_sort :
  (forall ps, sorted_table ps ≡ₚ ps) /\
  p_ctime <$> sorted_table fifo_table = [2; 1; 3] /\
  ~ Sorted Z.le (p_ctime <$> sorted_table fifo_table).
Proof.
  split; [|split].
  - exact sorted_perm.
  - vm_compute. reflexivity.
  - assert (p_ctime <$> sorted_table fifo_table = [2; 1; 3]) as -> by (vm_compute; reflexivity).
    intros H. inversion H as [|? ? _ Hr]; subst. inversion Hr as [|? ? Hle]; subst. lia.
Qed.

(** The table as the policy has [allocproc] leave it: sorted under [FRR]. *)
Definition placed (s : kst) (ps : list proc) : list proc :=
  if policyChooser (k_ptable s) =? FRR then sorted_table ps else ps.

Lemma placed_perm s ps : placed s ps ≡ₚ ps.
Proof. unfold placed. destruct (_ =? FRR); [apply sorted_perm|done]. Qed.

(** An entry that is not [RUNNABLE] has no part in it. *)
Lemma placed_insert s ps i x p :
  ps !! i = Some p -> p_state p <> RUNNABLE -> p_state x <> RUNNABLE ->
  placed s (<[i := x]> ps) = <[i := x]> (placed s ps) /\ placed s ps !! i = Some p.
Proof. intros Hp Hnp Hnx. unfold placed. destruct (_ =? FRR); [by apply (sorted_insert ps i x p)|done]. Qed.

Lemma placed_stays s ps i p : ps !! i = Some p -> p_state p <> RUNNABLE -> placed s ps !! i = Some p.
Proof. intros Hp Hnp. by apply (placed_insert s ps i p p). Qed.

Lemma placed_facts s ps :
  placed s ps ≡ₚ ps /\ forall j q, ps !! j = Some q -> p_state q <> RUNNABLE -> placed s ps !! j = Some q.
Proof. split; [apply placed_perm|]. intros j q. apply placed_stays. Qed.

(** ** allocproc *)

Lemma alter_elem_of {A} (f : A -> A) (l : list A) i x :
  x ∈ alter f i l -> x ∈ l \/ exists y, l !! i = Some y /\ x = f y.
Proof.
  intros [j Hj]%list_elem_of_lookup_1. destruct (decide (i = j)) as [->|Hne].
  - rewrite list_lookup_alter_eq in Hj. destruct (l !! j); [|done]. injection Hj as <-. eauto.
  - rewrite list_lookup_alter_ne in Hj by done. left. by eapply list_elem_of_lookup_2.
Qed.

(** What the first critical section of [allocproc] makes of a free entry. *)
Definition embryo (s : kst) (p : proc) : proc :=
  let p := p <| p_state := EMBRYO |> <| p_pid := nextpid (k_ptable s) |>
             <| p_rtime := 0 |> <| p_ctime := k_ticks s |> <| p_allChildSize := 0 |> in
  if policyChooser (k_ptable s) =? Q3 then p <| p_piority := HIGH_PIORITY |> else p.

(** What [init_kstack] adds. *)
Definition kstack_proc (lk : link) (k : Z) (p : proc) : proc :=
  p <| p_kstack := k |> <| p_tf := k + KSTACKSIZE - sizeof_trapframe |>
    <| p_context := k + KSTACKSIZE - sizeof_trapframe - 4 - sizeof_context |>
    <| p_ctx := mkContext 0 0 0 0 (forkret_ lk) |>.

Definition alloc_st (i : nat) (s : kst) : kst :=
  s <| k_ptable ::= fun t => t <| pt_proc := placed s (alter (embryo s) i (pts s)) |> <| nextpid ::= fun n => s32 (n + 1) |> |>
    <| k_cpu ::= settle |>.

Lemma alloc_merge i (f1 f2 f3 f : proc -> proc) G g s :
  (forall q, f3 (f2 (f1 q)) = f q) ->
  (with_proc i f3 ((with_proc i f2 (with_proc i f1 (lock_st LPtable s)))
     <| k_ptable ::= fun t => t <| nextpid ::= g |> |>)) <| k_ptable ::= fun t => t <| pt_proc ::= G |> |>
     <| k_locks := k_locks s |> <| k_cpu := settle (k_cpu s) |> =
  s <| k_ptable ::= fun t => t <| pt_proc := G (alter f i (pts s)) |> <| nextpid ::= g |> |> <| k_cpu ::= settle |>.
Proof.
  intros H. destruct s as [? ? ? ? ? ? ? ? ? ? ? []].
  unfold with_proc, lock_st, pts. kred.
  do 3 f_equal. rewrite !list_alter_alter_eq. apply list_alter_ext; [|done]. intros q Hq. apply H.
Qed.

(** What the policy adds to the first critical section. *)
Lemma alloc_policy_run i pol s :
  (if pol =? FRR then sortProcessFIFO else when (pol =? Q3) (set_proc i (fun p => p <| p_piority := HIGH_PIORITY |>))) s =
  Ok tt (s <| k_ptable ::= fun t => t <| pt_proc ::= fun ps =>
    if pol =? FRR then sorted_table ps else if pol =? Q3 then alter (fun p => p <| p_piority := HIGH_PIORITY |>) i ps else ps |> |>).
Proof. destruct (pol =? FRR); [done|]. destruct (pol =? Q3); [done|]. by destruct s as [? ? ? ? ? ? ? ? ? ? ? []]. Qed.

(** The first critical section. *)
Lemma allocproc_found i p s :
  unlocked LPtable s ->
  find_from (fun p => st_eqb (p_state p) UNUSED) 0 (pts s) = Some i -> pts s !! i = Some p ->
  allocproc s =
    bind kalloc (fun kstack =>
      set_proc i (fun p => p <| p_kstack := kstack |>) ;;
      if kstack =? 0 then set_proc i (fun p => p <| p_state := UNUSED |>) ;; ret None
      else init_kstack i kstack ;; ret (Some i)) (alloc_st i s).
Proof.
  intros [HL Hwf] Hf Hp. unfold allocproc. mcall acquire_run; [|done]. mstep.
  change (pts (lock_st LPtable s)) with (pts s). rewrite Hf.
  mcall set_proc_run. mstep. mcall set_proc_run. mstep. mcall set_proc_run. mstep.
  rewrite (bind_ok _ _ _ _ _ (alloc_policy_run _ _ _)).
  erewrite bind_ok; [|apply (release_acquired LPtable s); done].
  cbv beta. f_equal. rewrite alloc_merge with (f := fun q => q <| p_state := EMBRYO |> <| p_pid := nextpid (k_ptable s) |>
    <| p_rtime := 0 |> <| p_ctime := k_ticks s |> <| p_allChildSize := 0 |>) by done.
  unfold alloc_st, placed, embryo. cbn. destruct (policyChooser (k_ptable s) =? FRR) eqn:E.
  - apply Z.eqb_eq in E. by rewrite E.
  - destruct (policyChooser (k_ptable s) =? Q3); [|done]. by rewrite list_alter_alter_eq.
Qed.

Lemma alloc_st_pts i p s :
  pts s !! i = Some p -> p_state p = UNUSED -> pts (alloc_st i s) = <[i := embryo s p]> (placed s (pts s)).
Proof.
  intros Hp Hu. change (pts (alloc_st i s)) with (placed s (alter (embryo s) i (pts s))).
  rewrite (alter_as_insert _ _ _ p Hp). apply (placed_insert s (pts s) i _ p); [done|by rewrite Hu|].
  unfold embryo. by destruct (_ =? Q3).
Qed.

Lemma alloc_st_alter f i p s :
  pts s !! i = Some p -> p_state p = UNUSED -> alter f i (pts (alloc_st i s)) = <[i := f (embryo s p)]> (placed s (pts s)).
Proof.
  intros Hp Hu. rewrite (alloc_st_pts i p) by done.
  rewrite (alter_as_insert _ _ _ (embryo s p)), list_insert_insert_eq; [done|].
  apply list_lookup_insert_eq. rewrite placed_perm. by eapply lookup_lt_Some.
Qed.

Lemma allocproc_none s :
  unlocked LPtable s -> find_from (fun p => st_eqb (p_state p) UNUSED) 0 (pts s) = None ->
  exists s', allocproc s = Ok None s' /\ k_ptable s' = k_ptable s.
Proof.
  intros [HL Hwf] E. eexists. unfold allocproc. mcall acquire_run; [|done]. mstep.
  change (pts (lock_st LPtable s)) with (pts s). rewrite E.
  erewrite bind_ok; [|by apply (release_acquired LPtable s)]. done.
Qed.

(** The stack page after [init_kstack]. *)
Definition kstack_mem (lk : link) (k : Z) (m : mem) : mem :=
  store32 m (V2P (k + KSTACKSIZE - sizeof_trapframe - 4)) (trapret_ lk).

Lemma init_kstack_run i k s :
  link_ok (k_link s) -> page_ok (k_link s) k ->
  init_kstack i k (with_proc i (fun p => p <| p_kstack := k |>) s) =
  Ok tt (with_proc i (kstack_proc (k_link s) k) s <| k_mem ::= kstack_mem (k_link s) k |>).
Proof.
  intros Hl Hp. unfold init_kstack. mstep. cbv zeta.
  change (k_link (with_proc i _ s)) with (k_link s).
  assert (forall d, 0 <= d <= 4096 -> is_u32 (k + d)) as Hu.
  { unfold link_ok, page_ok, KERNBASE, PHYSTOP, is_u32 in *. lia. }
  unfold KSTACKSIZE, sizeof_trapframe, sizeof_context.
  rewrite (u32_small (k + 4096)) by (apply Hu; lia).
  replace (k + 4096 - 76) with (k + 4020) by lia. rewrite (u32_small (k + 4020)) by (apply Hu; lia).
  replace (k + 4020 - 4) with (k + 4016) by lia. rewrite (u32_small (k + 4016)) by (apply Hu; lia).
  replace (k + 4016 - 20) with (k + 3996) by lia. rewrite (u32_small (k + 3996)) by (apply Hu; lia).
  mcall set_proc_run. unfold st32. mstep. mcall set_proc_run. rewrite set_proc_run. f_equal.
  unfold kstack_mem, KSTACKSIZE, sizeof_trapframe. replace (k + 4096 - 76 - 4) with (k + 4016) by lia.
  destruct s as [? ? ? ? ? ? ? ? ? ? ? []]. unfold with_proc. kred.
  do 2 f_equal. rewrite !list_alter_alter_eq. apply list_alter_ext; [|done]. intros q Hq.
  unfold kstack_proc, KSTACKSIZE, sizeof_trapframe, sizeof_context, compose.
  by replace (k + 4096 - 76) with (k + 4020) by lia; replace (k + 4020 - 4 - 20) with (k + 3996) by lia.
Qed.

(** [allocproc] leaves the free list alone but for the page it takes. *)
Lemma kstack_mem_inv lk m k h l :
  link_ok lk -> page_ok lk k -> k ∉ l -> chain m h l -> Forall (page_ok lk) l ->
  chain (kstack_mem lk k m) h l.
Proof.
  intros Hl Hk Hni Hc Hok. apply (chain_agree m); [done|]. intros q Hq x Hx.
  rewrite list.Forall_forall in Hok. specialize (Hok q Hq).
  rewrite (V2P_page _ _ Hl Hok) in Hx. unfold kstack_mem. rewrite store32_other; [done|].
  assert (V2P (k + KSTACKSIZE - sizeof_trapframe - 4) = k - KERNBASE + 4016) as ->.
  { unfold V2P, KSTACKSIZE, sizeof_trapframe. rewrite u32_small; [lia|].
    unfold link_ok, page_ok, KERNBASE, PHYSTOP, is_u32 in *. lia. }
  destruct (pages_apart _ q k Hok Hk) as [H|H]; [set_solver|..]; unfold PGSIZE in H; lia.
Qed.

(** Live processes have distinct positive pids, all already handed out. *)
Definition pids_ok (s : kst) : Prop :=
  (forall i j p q, pts s !! i = Some p -> pts s !! j = Some q ->
     p_state p <> UNUSED -> p_state q <> UNUSED -> p_pid p = p_pid q -> i = j) /\
  (forall i p, pts s !! i = Some p -> p_state p <> UNUSED -> 0 < p_pid p < nextpid (k_ptable s)) /\
  0 < nextpid (k_ptable s).

Lemma pids_ok_alloc s s' ps i p' :
  pids_ok s -> nextpid (k_ptable s) < 2 ^ 31 - 1 -> ps ≡ₚ pts s ->
  pts s' = <[i := p']> ps -> p_pid p' = nextpid (k_ptable s) ->
  nextpid (k_ptable s') = s32 (nextpid (k_ptable s) + 1) -> pids_ok s'.
Proof.
  intros (H1 & H2 & H3) Hlt (_ & f & Hf & Hperm)%Permutation_inj Hpts Hpid Hnext.
  rewrite s32_small in Hnext by (unfold is_s32; lia).
  assert (forall j q, pts s' !! j = Some q -> p_state q <> UNUSED ->
    (j = i /\ q = p') \/ (j <> i /\ pts s !! f j = Some q /\ 0 < p_pid q < nextpid (k_ptable s))) as Hc.
  { intros j q Hj Hq. rewrite Hpts in Hj. apply list_lookup_insert_Some in Hj as [(-> & -> & _)|[Hne Hj]].
    - auto.
    - rewrite Hperm in Hj. right. split; [auto|]. split; [done|]. eapply H2; eauto. }
  split_and!.
  - intros a b p q Ha Hb La Lb E.
    destruct (Hc a p Ha La) as [[-> ->]|(Na & Pa & Ra)], (Hc b q Hb Lb) as [[-> ->]|(Nb & Pb & Rb)].
    + done.
    + rewrite Hpid in E. lia.
    + rewrite Hpid in E. lia.
    + apply (inj f). eapply H1; eauto.
  - intros j q Hj Lq. rewrite Hnext. destruct (Hc j q Hj Lq) as [[-> ->]|(_ & _ & ?)]; lia.
  - lia.
Qed.


(** A table with init running, and one free page. *)
Definition alloc_start : kst :=
  one_proc <| k_kmem := mkKmem true 0x80200000 |>
    <| k_ptable ::= fun t => t <| nextpid := 2 |> |>.

