(* ===== verification/Uaccess.v ===== *)
(** * User memory and system call arguments (the first half of [syscall.c])

    The kernel runs on the page table of the process whose call it serves, so a user
    address is translated by the page directory in [cr3], the way the hardware does;
    an access without a mapping is a fault. *)

From S2P Require Import Prelude Params State Mem Strings Locks Kalloc Vm Sched Procs.
Import Spin.

(** ** Address translation *)

(** The entry for [va] in the page directory at physical address [cr3], 0 for none. *)
Definition pte_of (m : mem) (cr3 va : Z) : Z :=
  let e := load32 m (cr3 + 4 * PDX va) in
  if nz (Z.land e PTE_P) then load32 m (PTE_ADDR e + 4 * PTX va) else 0.

(** Where a load, and a store, by the kernel at [va] go. *)
Definition translate (m : mem) (cr3 va : Z) : option Z :=
  let e := pte_of m cr3 va in
  if nz (Z.land e PTE_P) then Some (PTE_ADDR e + va mod PGSIZE) else None.

Definition translate_w (m : mem) (cr3 va : Z) : option Z :=
  if nz (Z.land (pte_of m cr3 va) PTE_W) then translate m cr3 va else None.

(** The byte a load at [va] sees. *)
Definition ubyte (s : kst) (va : Z) : option Z := k_mem s <$> translate (k_mem s) (k_cr3 s) va.

Definition uload8 (va : Z) : K Z :=
  o <- gets (fun s => ubyte s va) ;;
  match o with Some b => ret b | None => fault "page fault" end.

Definition uload32 (va : Z) : K Z :=
  b0 <- uload8 va ;; b1 <- uload8 (u32 (va + 1)) ;; b2 <- uload8 (u32 (va + 2)) ;; b3 <- uload8 (u32 (va + 3)) ;;
  ret (word_of b0 b1 b2 b3).

Definition ustore8 (va b : Z) : K unit :=
  o <- gets (fun s => translate_w (k_mem s) (k_cr3 s) va) ;;
  match o with
  | Some pa => modify (fun s => s <| k_mem ::= fun m => store8 m pa b |>)
  | None => fault "page fault"
  end.

(** A block stored from [va] on. *)
Fixpoint ustore (va : Z) (l : list Z) : K unit :=
  match l with
  | [] => ret tt
  | b :: l' => ustore8 va b ;; ustore (u32 (va + 1)) l'
  end.

Definition le32 (v : Z) : list Z := [byte_of v 0; byte_of v 1; byte_of v 2; byte_of v 3].
Definition le16 (v : Z) : list Z := [byte_of v 0; byte_of v 1].

(** A block of [n] bytes loaded from [va] on. *)
Fixpoint uload (va : Z) (n : nat) : K (list Z) :=
  match n with
  | O => ret []
  | S n' => b <- uload8 va ;; l <- uload (u32 (va + 1)) n' ;; ret (b :: l)
  end.

(** ** Fetching arguments *)

(** [*proc] *)
Definition cur : K proc := me <- myproc ;; get_proc me.

(** The integer, [None] for -1. *)
Definition fetchint (addr : Z) : K (option Z) :=
  p <- cur ;;
  if (p_sz p <=? addr) || (p_sz p <? u32 (addr + 4)) then ret None else
  v <- uload32 addr ;;
  ret (Some (s32 v)).

(** [for(s = *pp; s < ep; s++)]: the characters before the first NUL among the [n] from
    [s] on. *)
Fixpoint fetchstr_loop (n : nat) (s : Z) : K (option (list Z)) :=
  match n with
  | O => ret None
  | S n' =>
      b <- uload8 s ;;
      if b =? 0 then ret (Some []) else
      r <- fetchstr_loop n' (s + 1) ;;
      ret (cons b <$> r)
  end.

(** The string that [*pp] points to and whose length is returned, [None] for -1. *)
Definition fetchstr (addr : Z) : K (option (list Z)) :=
  p <- cur ;;
  if p_sz p <=? addr then ret None else
  fetchstr_loop (Z.to_nat (p_sz p - addr)) addr.

Definition argint (n : Z) : K (option Z) :=
  p <- cur ;;
  fetchint (u32 (tf_esp (p_tfregs p) + 4 + 4 * n)).

(** The pointer, [None] for -1. *)
Definition argptr (n size : Z) : K (option Z) :=
  o <- argint n ;;
  match o with
  | None => ret None
  | Some i =>
      p <- cur ;;
      if (size <? 0) || (p_sz p <=? u32 i) || (p_sz p <? u32 (u32 i + size)) then ret None else
      ret (Some (u32 i))
  end.

(** [argArray] stores the address as an integer. *)
Definition argArray (n size : Z) : K (option Z) :=
  o <- argint n ;;
  match o with
  | None => ret None
  | Some i =>
      p <- cur ;;
      if (size <? 0) || (p_sz p <=? u32 i) || (p_sz p <? u32 (u32 i + size)) then ret None else
      ret (Some i)
  end.

Definition argstr (n : Z) : K (option (list Z)) :=
  o <- argint n ;;
  match o with
  | None => ret None
  | Some addr => fetchstr (u32 addr)
  end.

(** ** What the arguments are *)

(** Process [p] runs, its [sz] bytes are below the kernel and mapped. *)
Definition in_user (p : proc) (s : kst) : Prop :=
  (exists me, k_proc s = Some me /\ pts s !! me = Some p) /\
  0 <= p_sz p <= KERNBASE /\ forall va, 0 <= va < p_sz p -> is_Some (ubyte s va).

(** The bytes of the process. *)
Definition umem (s : kst) (va : Z) : Z := default 0 (ubyte s va).

Lemma cur_run p s : in_user p s -> cur s = Ok p s.
Proof.
  intros ((me & Hme & Hp) & _). unfold cur. rewrite (bind_ok _ _ _ _ _ (myproc_run me s Hme)).
  by apply get_proc_run.
Qed.

Lemma uload8_run p s va : in_user p s -> 0 <= va < p_sz p -> uload8 va s = Ok (umem s va) s.
Proof.
  intros (_ & _ & Hm) Hva. unfold uload8, umem. rewrite bind_gets. destruct (Hm va Hva) as [b ->]. done.
Qed.

Lemma uload32_run p s va :
  in_user p s -> 0 <= va -> va + 4 <= p_sz p ->
  uload32 va s = Ok (word_of (umem s va) (umem s (va + 1)) (umem s (va + 2)) (umem s (va + 3))) s.
Proof.
  intros Hu H0 H4. pose proof Hu as (_ & Hsz & _). unfold KERNBASE in Hsz. unfold uload32.
  do 4 (erewrite bind_ok; [cbv beta|apply (uload8_run p s); [done|rewrite ?u32_small by (unfold is_u32; lia); lia]]).
  unfold ret. by rewrite !u32_small by (unfold is_u32; lia).
Qed.

Lemma fetchint_run p s addr :
  in_user p s -> is_u32 addr ->
  fetchint addr s = Ok (if addr + 4 <=? p_sz p
    then Some (s32 (word_of (umem s addr) (umem s (addr + 1)) (umem s (addr + 2)) (umem s (addr + 3)))) else None) s.
Proof.
  intros Hu Ha. pose proof Hu as (_ & Hsz & _). unfold KERNBASE, is_u32 in *. unfold fetchint.
  rewrite (bind_ok _ _ _ _ _ (cur_run p s Hu)).
  destruct (Z.leb_spec (p_sz p) addr), (Z.leb_spec (addr + 4) (p_sz p)); cbv [orb]; try lia; [done| |];
    rewrite u32_small by (unfold is_u32; lia).
  - rewrite (proj2 (Z.ltb_ge _ _)) by lia. cbv iota. by rewrite (bind_ok _ _ _ _ _ (uload32_run p s addr Hu ltac:(lia) ltac:(lia))).
  - by rewrite (proj2 (Z.ltb_lt _ _)) by lia.
Qed.

(** The string at [addr] in the memory [f], among [n] bytes. *)
Fixpoint string_at (f : Z -> Z) (n : nat) (addr : Z) : option (list Z) :=
  match n with
  | O => None
  | S n' => if f addr =? 0 then Some [] else cons (f addr) <$> string_at f n' (addr + 1)
  end.

Lemma string_at_spec f n addr l :
  string_at f n addr = Some l <->
  (length l < n)%nat /\ (forall k b, l !! k = Some b -> b = f (addr + Z.of_nat k) /\ b <> 0) /\
  f (addr + Z.of_nat (length l)) = 0.
Proof.
  revert addr l. induction n as [|n IH]; intros addr l; simpl; [split; [done|lia]|].
  destruct (Z.eqb_spec (f addr) 0) as [E|E].
  - split.
    + intros [= <-]. simpl. split_and!; [lia| |by rewrite Z.add_0_r]. intros k b. by rewrite lookup_nil.
    + intros (_ & Hb & _). destruct l as [|b l]; [done|]. destruct (Hb 0%nat b eq_refl) as [-> Hne].
      by rewrite Z.add_0_r in Hne.
  - split.
    + intros (l' & E' & ->)%fmap_Some. apply IH in E' as (Hl & Hb & H0). simpl. split_and!; [lia| |].
      * intros [|k] b; simpl; [intros [= <-]; by rewrite Z.add_0_r|]. intros Hk. apply Hb in Hk.
        by replace (addr + Z.of_nat (S k)) with (addr + 1 + Z.of_nat k) by lia.
      * by replace (addr + Z.of_nat (S (length l'))) with (addr + 1 + Z.of_nat (length l')) by lia.
    + intros (Hl & Hb & H0). destruct l as [|b l]; [simpl in H0; by rewrite Z.add_0_r in H0|].
      destruct (Hb 0%nat b eq_refl) as [-> _]. rewrite Z.add_0_r. simpl in Hl.
      assert (string_at f n (addr + 1) = Some l) as ->; [|done]. apply IH. split_and!; [lia| |].
      * intros k c Hk. replace (addr + 1 + Z.of_nat k) with (addr + Z.of_nat (S k)) by lia. by apply Hb.
      * simpl in H0. by replace (addr + 1 + Z.of_nat (length l)) with (addr + Z.of_nat (S (length l))) by lia.
Qed.

Lemma fetchstr_loop_run p s n addr :
  in_user p s -> 0 <= addr -> addr + Z.of_nat n <= p_sz p ->
  fetchstr_loop n addr s = Ok (string_at (umem s) n addr) s.
Proof.
  intros Hu. revert addr. induction n as [|n IH]; intros addr H0 Hn; [done|]. simpl.
  rewrite (bind_ok _ _ _ _ _ (uload8_run p s addr Hu ltac:(lia))).
  destruct (umem s addr =? 0); [done|]. by rewrite (bind_ok _ _ _ _ _ (IH (addr + 1) ltac:(lia) ltac:(lia))).
Qed.

Lemma fetchstr_run p s addr :
  in_user p s -> 0 <= addr -> fetchstr addr s = Ok (string_at (umem s) (Z.to_nat (p_sz p - addr)) addr) s.
Proof.
  intros Hu H0. unfold fetchstr. rewrite (bind_ok _ _ _ _ _ (cur_run p s Hu)).
  destruct (Z.leb_spec (p_sz p) addr).
  - by replace (Z.to_nat (p_sz p - addr)) with 0%nat by lia.
  - apply (fetchstr_loop_run p); [done|done|lia].
Qed.

(** ** Arguments stay inside the process *)

(** The [n]th word above the saved [esp], if it lies in the process. *)
Definition arg_word (p : proc) (s : kst) (n : Z) : option Z :=
  let a := u32 (tf_esp (p_tfregs p) + 4 + 4 * n) in
  if a + 4 <=? p_sz p
  then Some (u32 (word_of (umem s a) (umem s (a + 1)) (umem s (a + 2)) (umem s (a + 3)))) else None.

Lemma argint_run p s n :
  in_user p s -> exists o, argint n s = Ok o s /\ u32 <$> o = arg_word p s n.
Proof.
  intros Hu. unfold argint. rewrite (bind_ok _ _ _ _ _ (cur_run p s Hu)).
  rewrite (fetchint_run p) by (done || apply u32_range). eexists. split; [done|].
  unfold arg_word. cbv zeta. destruct (_ <=? _); [|done]. simpl. by rewrite u32_s32.
Qed.

Lemma argptr_run p s n size :
  in_user p s -> is_s32 size ->
  argptr n size s = Ok (a ← arg_word p s n; if (0 <=? size) && (a <? p_sz p) && (a + size <=? p_sz p) then Some a else None) s.
Proof.
  intros Hu Hs. unfold argptr. destruct (argint_run p s n Hu) as (o & E & Ew). rewrite (bind_ok _ _ _ _ _ E), <- Ew.
  destruct o as [i|]; [|done]. simpl. rewrite (bind_ok _ _ _ _ _ (cur_run p s Hu)).
  pose proof (u32_range i) as Hr. pose proof Hu as (_ & Hsz & _). unfold is_s32, is_u32, KERNBASE in *.
  destruct (Z.ltb_spec size 0), (Z.leb_spec 0 size); try lia; simpl andb; simpl orb; [done|].
  destruct (Z.leb_spec (p_sz p) (u32 i)), (Z.ltb_spec (u32 i) (p_sz p)); try lia; simpl andb; simpl orb; [done|].
  rewrite (u32_small (u32 i + size)) by (unfold is_u32; lia).
  destruct (Z.ltb_spec (p_sz p) (u32 i + size)), (Z.leb_spec (u32 i + size) (p_sz p)); done || lia.
Qed.

(** C22. Pointers and strings passed to system calls lie inside the process. In a process
    whose memory is mapped up to [sz], [argptr] and [argstr] always return; [argptr]
    accepts exactly the blocks that end at or below [sz], with no wrap-around of the
    32-bit sum, and [argstr] exactly the strings whose terminating NUL is below [sz]. *)
Theorem args_in_bounds p s n size :
  in_user p s -> is_s32 size ->
  (exists o, argptr n size s = Ok o s /\
     forall a, o = Some a <-> arg_word p s n = Some a /\ 0 <= size /\ a < p_sz p /\ a + size <= p_sz p) /\
  (exists o, argstr n s = Ok o s /\
     forall l, o = Some l <-> exists a, arg_word p s n = Some a /\ a + Z.of_nat (length l) < p_sz p /\
       (forall k b, l !! k = Some b -> b = umem s (a + Z.of_nat k) /\ b <> 0) /\
       umem s (a + Z.of_nat (length l)) = 0).
Proof.
  intros Hu Hs. split.
  - rewrite (argptr_run p) by done. eexists. split; [done|]. intros a.
    destruct (arg_word p s n) as [w|]; simpl; [|split; [done|by intros [? _]]].
    destruct (Z.leb_spec 0 size), (Z.ltb_spec w (p_sz p)), (Z.leb_spec (w + size) (p_sz p)); simpl;
      (split; [|intros ([= <-] & ?)]); try done; try lia. by intros [= <-].
  - unfold argstr. destruct (argint_run p s n Hu) as (o & E & Ew). rewrite (bind_ok _ _ _ _ _ E), <- Ew.
    destruct o as [i|]; simpl.
    + pose proof (u32_range i) as Hr. unfold is_u32 in Hr.
      rewrite (fetchstr_run p) by (done || lia). eexists. split; [done|]. intros l. rewrite string_at_spec. split.
      * intros (Hl & Hb & H0). exists (u32 i). split_and!; auto. lia.
      * intros (a & [= <-] & Hl & Hb & H0). split_and!; auto. lia.
    + eexists. split; [done|]. intros l. split; [done|]. by intros (a & ? & _).
Qed.

(** A process of 32 bytes: its argument points to the string "hi" at 12. *)
Definition user_proc : proc := running0 <| p_sz := 32 |>.

Definition user_st : kst :=
  one_proc <| k_ptable ::= fun t => t <| pt_proc ::= <[0%nat := user_proc]> |> |>
    <| k_cr3 := 0x1000 |>
    <| k_mem := put_bytes (put_bytes (put_bytes (fun _ => 0) 0x1000 (le32 0x2007)) 0x2000 (le32 0x3007)) 0x3000
                  [0; 0; 0; 0; 12; 0; 0; 0; 0; 0; 0; 0; 104; 105; 0] |>.

Lemma user_st_ok : in_user user_proc user_st.
Proof.
  split; [by exists 0%nat|]. split; [split; vm_compute; discriminate|].
  assert (forallb (fun k => bool_decide (is_Some (ubyte user_st (Z.of_nat k)))) (seq 0 32) = true) as F by by vm_compute.
  rewrite forallb_forall in F. intros va Hva. change (p_sz user_proc) with 32 in Hva.
  rewrite <- (Z2Nat.id va) by lia. eapply bool_decide_eq_true, F, in_seq. lia.
Qed.

Lemma args_in_bounds_witness :
  argptr 0 20 user_st = Ok (Some 12) user_st /\ argptr 0 21 user_st = Ok None user_st /\
  argstr 0 user_st = Ok (Some [104; 105]) user_st.
Proof.
  assert (arg_word user_proc user_st 0 = Some 12) as Hw by by vm_compute.
  destruct (args_in_bounds user_proc user_st 0 20 user_st_ok) as [(o & E & Ho) (q & E' & Hq)]; [split; vm_compute; congruence|].
  destruct (args_in_bounds user_proc user_st 0 21 user_st_ok) as [(o2 & E2 & Ho2) _]; [split; vm_compute; congruence|].
  split; [|split].
  - rewrite E. f_equal. apply Ho. split_and!; [done|by vm_compute..].
  - rewrite E2. f_equal. destruct o2 as [a|]; [|done]. exfalso.
    destruct (proj1 (Ho2 a) eq_refl) as (Ha & _ & _ & Hsz). assert (a = 12) as -> by congruence. change (p_sz user_proc) with 32 in Hsz. lia.
  - rewrite E'. f_equal. apply Hq. exists 12. split_and!; [done|by vm_compute| |by vm_compute].
    intros [|[|[|k]]] b Hb; try discriminate Hb; injection Hb as <-; vm_compute; (split; [reflexivity|discriminate]).
Defined.
