(* ===== verification/Sleeplock.v ===== *)
(** * Sleep-locks ([sleeplock.c])

    A locked sleep-lock is an entry of [k_sleep] with the pid of its holder. *)

From S2P Require Import Prelude Params State Locks Kalloc Vm Sched Policy Procs.
Import Spin.

Definition initsleeplock (l : slid) : K unit :=
  initlock (LSleep l) ;;
  modify (fun s => s <| k_sleep ::= delete l |>).

(** [while(lk->locked) sleep(lk, &lk->lk)] and what follows it. *)
Definition acquiresleep_loop (l : slid) : K unit :=
  s <- get ;;
  match k_sleep s !! l with
  | Some _ => sleep (ChSleep l) (LSleep l)
  | None =>
      me <- myproc ;;
      p <- get_proc me ;;
      modify (fun s => s <| k_sleep ::= <[l := p_pid p]> |>) ;;
      release (LSleep l)
  end.

Definition acquiresleep (l : slid) : K unit := acquire (LSleep l) ;; acquiresleep_loop l.

(** Woken up in [acquiresleep]. *)
Definition acquiresleep_resume (saved : bool) (l : slid) : K unit :=
  sleep_resume saved (LSleep l) ;; acquiresleep_loop l.

Definition releasesleep (l : slid) : K unit :=
  acquire (LSleep l) ;;
  modify (fun s => s <| k_sleep ::= delete l |>) ;;
  wakeup (ChSleep l) ;;
  release (LSleep l).

Definition holdingsleep (l : slid) : K bool :=
  acquire (LSleep l) ;;
  r <- gets (fun s => bool_decide (is_Some (k_sleep s !! l))) ;;
  release (LSleep l) ;;
  ret r.

(** ** Running without contention

    [calm]: no spinlock is held and the processor has settled, so that a critical
    section leaves the processor exactly as it was. *)

Definition calm (s : kst) : Prop :=
  k_locks s = ∅ /\ cpu_wf (k_cpu s) /\ settle (k_cpu s) = k_cpu s.

(** A process is running. *)
Definition inproc (s : kst) : Prop :=
  exists me p, k_proc s = Some me /\ pts s !! me = Some p.

Lemma calm_unlocked lk s : calm s -> unlocked lk s.
Proof. intros (HL & Hwf & _). split; [by rewrite HL|done]. Qed.

Lemma calm_acquire lk s : calm s -> acquire lk s = Ok tt (lock_st lk s).
Proof. intros (HL & _). apply acquire_run. by rewrite HL. Qed.

Lemma calm_release lk s s1 :
  calm s -> k_cpuid s1 = k_cpuid s -> k_locks s1 = <[lk := k_cpuid s]> (k_locks s) ->
  k_cpu s1 = push (k_cpu s) ->
  release lk s1 = Ok tt (s1 <| k_locks := k_locks s |> <| k_cpu := k_cpu s |>).
Proof.
  intros (HL & Hwf & Hset) HI HL1 HC.
  rewrite (release_acquired lk s); [by rewrite Hset|by rewrite HL|done..].
Qed.

(** Wake the processes sleeping on [c]. *)
Definition woken (c : chan) (s : kst) : kst :=
  s <| k_ptable ::= fun t => t <| pt_proc ::= fmap (wake_proc c) |> |>.

Lemma woken_inproc c s : inproc s -> inproc (woken c s).
Proof.
  intros (me & p & Hme & Hp). exists me, (wake_proc c p). split; [done|].
  unfold pts in *. simpl. by rewrite list_lookup_fmap, Hp.
Qed.

Lemma calm_wakeup c s : calm s -> wakeup c s = Ok tt (woken c s).
Proof.
  intros Hc. rewrite wakeup_run by by apply calm_unlocked. destruct Hc as (_ & _ & Hset).
  f_equal. destruct s. unfold woken. kred. simpl in Hset. by rewrite Hset.
Qed.

(** A wakeup inside a critical section. *)
(** A critical section that changes [s] into [s1] leaves [s1]. *)
Lemma leave lk s s1 :
  calm s -> k_cpuid s1 = k_cpuid s -> k_locks s1 = k_locks s -> k_cpu s1 = k_cpu s ->
  release lk (lock_st lk s1) = Ok tt s1.
Proof.
  intros Hc E1 E2 E3. rewrite (calm_release lk s) by (simpl; congruence).
  f_equal. destruct s, s1. unfold lock_st. kred. simpl in *. by subst.
Qed.

Lemma nested_wakeup c lk s :
  calm s -> lk <> LPtable -> wakeup c (lock_st lk s) = Ok tt (woken c (lock_st lk s)).
Proof.
  intros (HL & Hwf & Hset) Hne. rewrite wakeup_run.
  - f_equal. destruct s. unfold woken, lock_st. kred. simpl in *. rewrite settle_nested; [done|].
    unfold push. simpl. destruct Hwf. lia.
  - split; simpl; [by rewrite HL, lookup_insert_ne|by apply push_wf].
Qed.

Lemma acquiresleep_run l me p s :
  calm s -> k_sleep s !! l = None -> k_proc s = Some me -> pts s !! me = Some p ->
  acquiresleep l s = Ok tt (s <| k_sleep ::= <[l := p_pid p]> |>).
Proof.
  intros Hc Hl Hme Hp. unfold acquiresleep. mcall calm_acquire; [|done].
  unfold acquiresleep_loop. mstep. simpl. rewrite Hl.
  mcall myproc_run; [|done]. mcall get_proc_run; [|done]. mstep.
  rewrite (calm_release _ s) by done. f_equal; destruct s; reflexivity.
Qed.

Lemma releasesleep_run l s :
  calm s -> releasesleep l s = Ok tt (woken (ChSleep l) (s <| k_sleep ::= delete l |>)).
Proof.
  intros Hc. unfold releasesleep. mcall calm_acquire; [|done]. mstep.
  change ((lock_st (LSleep l) s) <| k_sleep ::= delete l |>)
    with (lock_st (LSleep l) (s <| k_sleep ::= delete l |>)).
  mcall nested_wakeup; [|done|done].
  rewrite (calm_release _ s) by done. f_equal; destruct s; reflexivity.
Qed.

Lemma holdingsleep_run l s :
  calm s -> holdingsleep l s = Ok (bool_decide (is_Some (k_sleep s !! l))) s.
Proof.
  intros Hc. unfold holdingsleep. mcall calm_acquire; [|done]. mstep.
  erewrite bind_ok; [|by apply (calm_release _ s)]. unfold ret. f_equal; destruct s; reflexivity.
Qed.

(** A process that finds the lock taken goes to sleep on it with nothing held. *)
Lemma acquiresleep_blocks l me p q s :
  calm s -> ncli (k_cpu s) = 0 -> k_sleep s !! l = Some q -> k_proc s = Some me -> pts s !! me = Some p ->
  exists s', acquiresleep l s = Switch s' /\ k_sleep s' = k_sleep s /\
    k_locks s' = {[LPtable := k_cpuid s]} /\
    pts s' !! me = Some (p <| p_chan := Some (ChSleep l) |> <| p_state := SLEEPING |>).
Proof.
  intros Hc Hn Hl Hme Hp. unfold acquiresleep. mcall calm_acquire; [|done].
  unfold acquiresleep_loop. mstep. simpl. rewrite Hl. destruct Hc as (HL & Hwf & _).
  eexists. split; [apply (sleep_run me p)|]; try done; simpl.
  - apply lookup_insert_eq.
  - intros _. by rewrite HL.
  - by apply push_wf.
  - lia.
  - unfold exchanged. rewrite bool_decide_eq_false_2 by done. simpl. split; [done|]. split.
    + rewrite HL. rewrite insert_insert_ne by done. rewrite delete_insert_id; [done|].
      by rewrite lookup_insert_ne.
    + exact (pts_with_proc_eq me (fun p => p <| p_chan := Some (ChSleep l) |> <| p_state := SLEEPING |>) s p Hp).
Qed.

(** Scheduled again after [sleep]: the caller's lock is taken as from a quiet state. *)
Lemma sleep_back saved lk me s :
  k_locks s = {[LPtable := k_cpuid s]} -> ncli (k_cpu s) = 1 -> eflags_if (k_cpu s) = false -> k_proc s = Some me -> lk <> LPtable ->
  sleep_resume saved lk s =
    Ok tt (lock_st lk (with_proc me (fun p => p <| p_chan := None |>) s <| k_locks := ∅ |> <| k_cpu := mkCpu 0 saved saved |>)).
Proof.
  intros HL Hn Hi Hme Hne. unfold sleep_resume, sched_resume. mstep. mcall myproc_run; [|done]. mcall set_proc_run.
  rewrite bool_decide_eq_false_2 by done. simpl. mcall release_run; simpl.
  - rewrite acquire_run.
    + f_equal. unfold lock_st, unlock_st, with_proc. destruct s as [? [nc ie fl]]. simpl in Hn, Hi, HL. subst.
      unfold push, pop. kred. simpl. rewrite delete_singleton_eq. destruct saved; reflexivity.
    + simpl. rewrite HL. by rewrite delete_singleton_eq.
  - rewrite HL. apply lookup_singleton_eq.
  - split; simpl; [lia|done].
  - lia.
Qed.
