(* ===== verification/VmSpec.v ===== *)
(** * Address spaces: pages, tables and entries

    The allocator's pages as a pool, the two-level page tables as a directory, a map of
    tables and a function from page numbers to entries, and what walking and mapping do
    to them. *)

From S2P Require Import Prelude Params State Mem Strings Locks Printf Kalloc Vm Sched Policy Procs Uaccess Sleeplock.
Import Spin.

(** ** The allocator inside and outside critical sections *)

(** The locks of the allocator and of the console are free, and taking and releasing one
    leaves the processor as it was. *)
Definition steady (s : kst) : Prop :=
  k_locks s !! LKmem = None /\ k_locks s !! LCons = None /\ cpu_wf (k_cpu s) /\ settle (k_cpu s) = k_cpu s.

Lemma calm_steady s : calm s -> steady s.
Proof. intros (HL & Hwf & Hs). split_and!; by rewrite ?HL. Qed.

Lemma locked_steady lk s : calm s -> lk <> LKmem -> lk <> LCons -> steady (lock_st lk s).
Proof.
  intros (HL & Hwf & Hs) H1 H2. split_and!; simpl.
  - by rewrite lookup_insert_ne, HL by done.
  - by rewrite lookup_insert_ne, HL by done.
  - by apply push_wf.
  - apply settle_nested. unfold push. simpl. destruct Hwf. lia.
Qed.

(** The state after [kalloc], and after [kfree]. *)
Definition popped (s : kst) : kst :=
  s <| k_kmem ::= fun km => if nz (freelist km) then km <| freelist := run_next (k_mem s) (freelist km) |> else km |>.
Definition pushed (v : Z) (s : kst) : kst :=
  s <| k_mem ::= fun m => store32 (fill m (V2P v) 1 PGSIZE) (V2P v) (freelist (k_kmem s)) |>
    <| k_kmem ::= fun km => km <| freelist := v |> |>.

Lemma steady_lcpu b s : steady s -> s <| k_cpu ::= lcpu b |> = s.
Proof. intros (_ & _ & _ & Hs). destruct s. unfold lcpu. kred. simpl in Hs. destruct b; by rewrite ?Hs. Qed.

Lemma steady_unlocked s : steady s -> unlocked LKmem s.
Proof. intros (H1 & _ & H2 & _). done. Qed.

Lemma steady_kalloc s l :
  steady s -> kmem_inv s l -> kalloc s = Ok (default 0 (head l)) (popped s) /\ kmem_inv (popped s) (tail l).
Proof.
  intros Hc Hk. destruct (kalloc_spec s l Hk (steady_unlocked _ Hc)) as (s' & E & Hk' & _).
  rewrite kalloc_run in E by by apply steady_unlocked. injection E as Eh Es.
  assert (s' = popped s) as ->.
  { rewrite <- Es. apply (steady_lcpu (use_lock (k_kmem s)) (popped s)). exact Hc. }
  split; [|done]. rewrite kalloc_run by by apply steady_unlocked. rewrite Eh. f_equal. exact Es.
Qed.

Lemma steady_kfree v s l :
  steady s -> kmem_inv s l -> page_ok (k_link s) v -> v ∉ l ->
  kfree v s = Ok tt (pushed v s) /\ kmem_inv (pushed v s) (v :: l).
Proof.
  intros Hc Hk Hv Hni. destruct (kfree_spec v s l Hk Hv Hni (steady_unlocked _ Hc)) as (s' & E & Hk' & _).
  rewrite kfree_run in E by (by apply steady_unlocked || done || apply Hk). injection E as Es.
  assert (s' = pushed v s) as ->.
  { rewrite <- Es. apply (steady_lcpu (use_lock (k_kmem s)) (pushed v s)). exact Hc. }
  split; [|done]. rewrite kfree_run by (by apply steady_unlocked || done || apply Hk). f_equal. exact Es.
Qed.

Lemma calm_kalloc s l :
  calm s -> kmem_inv s l -> kalloc s = Ok (default 0 (head l)) (popped s) /\ kmem_inv (popped s) (tail l).
Proof. intros Hc. apply steady_kalloc. by apply calm_steady. Qed.

Lemma calm_kfree v s l :
  calm s -> kmem_inv s l -> page_ok (k_link s) v -> v ∉ l ->
  kfree v s = Ok tt (pushed v s) /\ kmem_inv (pushed v s) (v :: l).
Proof. intros Hc. apply steady_kfree. by apply calm_steady. Qed.

(** Printing a message without conversions. *)
Lemma cprintf_plain fmt s : Forall (fun c => c <> 37) fmt -> steady s -> exists o, cprintf fmt [] s = Ok tt (s <| k_out := o |>).
Proof.
  intros Hf (_ & HL & Hwf & Hs).
  assert (forall s, exists o, cprintf_loop fmt [] s = Ok tt (s <| k_out := o |>)) as Hloop.
  { clear - Hf. induction Hf as [|c fmt Hc _ IH]; intros s; cbn [cprintf_loop]; [exists (k_out s); by destruct s|].
    rewrite (proj2 (Z.eqb_neq c 37)) by done. cbv [negb]. unfold consputc. rewrite bind_modify.
    destruct (IH (s <| k_out ::= cons c |>)) as [o ->]. exists o. by destruct s. }
  unfold cprintf. rewrite bind_gets. destruct (k_locking s); cbv [when].
  - rewrite (bind_ok _ _ _ _ _ (acquire_run LCons s HL)). destruct (Hloop (lock_st LCons s)) as [o Eo].
    rewrite (bind_ok _ _ _ _ _ Eo), (release_acquired LCons s) by done. exists o. rewrite Hs. by destruct s.
  - rewrite bind_ret. destruct (Hloop s) as [o Eo]. rewrite (bind_ok _ _ _ _ _ Eo). by exists o.
Qed.

(** ** The pool *)

(** What the routines below may change, besides the pages they say. *)
Definition vm_frame (s s' : kst) : Prop :=
  exists m km o, s' = s <| k_mem := m |> <| k_kmem := km |> <| k_out := o |>.

(** The pages outside [ps] keep their bytes. *)
Definition untouched (lk : link) (ps : list Z) (m m' : mem) : Prop :=
  forall q, page_ok lk q -> q ∉ ps -> agree m m' (V2P q) PGSIZE.

Definition vstep (ps : list Z) (s s' : kst) : Prop := vm_frame s s' /\ untouched (k_link s) ps (k_mem s) (k_mem s').

(** [l]: the free pages, in order; [h]: pages in use. *)
Definition vm (s : kst) (l h : list Z) : Prop :=
  steady s /\ kmem_inv s l /\ NoDup (l ++ h) /\ Forall (page_ok (k_link s)) h.

Lemma vm_frame_link s s' : vm_frame s s' -> k_link s' = k_link s.
Proof. by intros (m & km & o & ->). Qed.

Lemma vm_frame_steady s s' : vm_frame s s' -> steady s -> steady s'.
Proof. by intros (m & km & o & ->). Qed.

Lemma vstep_refl s ps : vstep ps s s.
Proof. split; [|by intros q _ _ x _]. exists (k_mem s), (k_kmem s), (k_out s). by destruct s. Qed.

Lemma vstep_trans ps s s1 s2 : vstep ps s s1 -> vstep ps s1 s2 -> vstep ps s s2.
Proof.
  intros [F1 H1] [F2 H2]. split.
  - destruct F1 as (m & km & o & ->), F2 as (m2 & km2 & o2 & ->). exists m2, km2, o2. by destruct s.
  - intros q Hq Hn x Hx. rewrite (H1 q Hq Hn x Hx). apply (H2 q); [|done..]. by rewrite (vm_frame_link s s1).
Qed.

Lemma vstep_mono ps qs s s' : vstep ps s s' -> ps ⊆ qs -> vstep qs s s'.
Proof. intros [F H] Hs. split; [done|]. intros q Hq Hn. apply H; [done|]. intros Hin. by apply Hn, Hs. Qed.

Lemma vstep_nil ps s s' : vstep [] s s' -> vstep ps s s'.
Proof. intros H. eapply vstep_mono; [exact H|]. apply list_subseteq_nil. Qed.

Lemma vm_perm s l h h' : vm s l h -> h ≡ₚ h' -> vm s l h'.
Proof. intros (H1 & H2 & H3 & H4) Hp. split_and!; [done|done| |]; by rewrite <- Hp. Qed.

Lemma vm_link s l h : vm s l h -> link_ok (k_link s).
Proof. intros (_ & (H & _) & _). done. Qed.

Lemma vm_page s l h p : vm s l h -> p ∈ l ++ h -> page_ok (k_link s) p.
Proof.
  intros (_ & (_ & _ & _ & Hl) & _ & Hh) [Hp|Hp]%elem_of_app.
  - by apply (proj1 (list.Forall_forall _ _) Hl).
  - by apply (proj1 (list.Forall_forall _ _) Hh).
Qed.

Lemma V2P_in lk p i : link_ok lk -> page_ok lk p -> 0 <= i < PGSIZE -> V2P (p + i) = V2P p + i.
Proof.
  intros Hl Hp Hi. rewrite (V2P_page _ _ Hl Hp). unfold link_ok, page_ok, V2P, KERNBASE, PHYSTOP, PGSIZE in *.
  rewrite u32_small; [lia|]. unfold is_u32. lia.
Qed.

(** Distinct pages are apart in physical memory too. *)
Lemma V2P_apart lk p q :
  link_ok lk -> page_ok lk p -> page_ok lk q -> p <> q -> V2P p + PGSIZE <= V2P q \/ V2P q + PGSIZE <= V2P p.
Proof.
  intros Hl Hp Hq Hne. rewrite (V2P_page _ _ Hl Hp), (V2P_page _ _ Hl Hq). destruct (pages_apart lk p q Hp Hq Hne); lia.
Qed.

(** Storing in the page [p] touches no other. *)
Lemma untouched_page lk p m m' :
  link_ok lk -> page_ok lk p -> (forall x, x < V2P p \/ V2P p + PGSIZE <= x -> m' x = m x) -> untouched lk [p] m m'.
Proof.
  intros Hl Hp H q Hq Hn x Hx. symmetry. apply H. destruct (V2P_apart lk p q Hl Hp Hq); [set_solver|lia|lia].
Qed.

(** A change of memory outside the free pages keeps the pool. *)
Lemma vm_store s l h p m :
  vm s l h -> p ∈ h -> (forall x, x < V2P p \/ V2P p + PGSIZE <= x -> m x = k_mem s x) ->
  vm (s <| k_mem := m |>) l h /\ vstep [p] s (s <| k_mem := m |>).
Proof.
  intros Hv Hp Hm. pose proof Hv as (Hs & (Hl & Hc & Hn & Hf) & Hnd & Hh).
  assert (untouched (k_link s) [p] (k_mem s) m) as Hu.
  { apply untouched_page; [done| |done]. by apply (proj1 (list.Forall_forall _ _) Hh). }
  split.
  - split; [done|]. split; [|done]. split_and!; [done| |done|done]. simpl. apply (chain_agree (k_mem s)); [done|].
    intros q Hq x Hx. apply (Hu q); [by apply (proj1 (list.Forall_forall _ _) Hf)| |unfold PGSIZE; lia].
    intros ->%list_elem_of_singleton. apply list.NoDup_app in Hnd as (_ & Hnd & _). by apply (Hnd p).
  - split; [|done]. exists m, (k_kmem s), (k_out s). by destruct s.
Qed.

Lemma wp_kalloc s l h :
  vm s l h ->
  wp kalloc (fun p s' => vstep [] s s' /\ k_mem s' = k_mem s /\
    match l with [] => p = 0 /\ vm s' [] h | q :: l' => p = q /\ vm s' l' (q :: h) end) s.
Proof.
  intros (Hs & Hk & Hnd & Hh). destruct (steady_kalloc s l Hs Hk) as [E Hk']. apply (wp_ok _ _ _ _ _ E).
  assert (vstep [] s (popped s)) as Hv.
  { split; [|by intros q _ _ x _]. exists (k_mem (popped s)), (k_kmem (popped s)), (k_out (popped s)). by destruct s. }
  split; [done|]. split; [done|]. destruct l as [|q l']; simpl.
  - done.
  - split; [done|]. split; [done|]. split; [done|]. split.
    + simpl in Hnd. rewrite <- Permutation_middle. done.
    + constructor; [|done]. destruct Hk as (_ & _ & _ & Hk). by apply Forall_cons_1 in Hk as [? _].
Qed.

Lemma wp_kfree s l h p :
  vm s l (p :: h) -> wp (kfree p) (fun _ s' => vstep [p] s s' /\ vm s' (p :: l) h) s.
Proof.
  intros (Hs & Hk & Hnd & Hh). apply Forall_cons_1 in Hh as [Hp Hh]. rewrite <- Permutation_middle in Hnd.
  assert (p ∉ l) as Hn. { apply list.NoDup_cons in Hnd as [Hn _]. set_solver. }
  destruct (steady_kfree p s l Hs Hk Hp Hn) as [E Hk']. apply (wp_ok _ _ _ _ _ E). split.
  - split; [exists (k_mem (pushed p s)), (k_kmem (pushed p s)), (k_out (pushed p s)); by destruct s|].
    apply untouched_page; [apply Hk|done|]. intros x Hx. simpl. rewrite store32_other, fill_out; [done|done|].
    unfold PGSIZE in Hx. lia.
  - split_and!; done.
Qed.

Lemma vm_push s l h p : vm s l (p :: h) -> vm (pushed p s) (p :: l) h /\ vstep [p] s (pushed p s).
Proof.
  intros Hv. pose proof (wp_kfree s l h p Hv) as (u & s' & E & V & Hv')%wp_run.
  destruct Hv as (Hs & Hk & Hnd & Hh). apply Forall_cons_1 in Hh as [Hp _]. rewrite <- Permutation_middle in Hnd.
  destruct (steady_kfree p s l Hs Hk Hp) as [E2 _]; [apply list.NoDup_cons in Hnd as [Hn _]; set_solver|].
  rewrite E2 in E. by injection E as _ <-.
Qed.

Lemma wp_memset s l h p :
  vm s l h -> p ∈ h ->
  wp (memset_k p 0 PGSIZE) (fun _ s' => vstep [p] s s' /\ vm s' l h /\ k_mem s' = fill (k_mem s) (V2P p) 0 PGSIZE) s.
Proof.
  intros Hv Hp. apply (wp_ok _ _ _ tt (s <| k_mem := fill (k_mem s) (V2P p) 0 PGSIZE |>)).
  - unfold memset_k, modify. f_equal. destruct s. kred. by rewrite memset_fill.
  - destruct (vm_store s l h p (fill (k_mem s) (V2P p) 0 PGSIZE) Hv Hp); [|done]. intros x Hx. by apply fill_out.
Qed.

(** A word stored in a page in use. *)
Lemma wp_st32 s l h p i v :
  vm s l h -> p ∈ h -> 0 <= i <= PGSIZE - 4 ->
  wp (st32 (p + i) v) (fun _ s' => vstep [p] s s' /\ vm s' l h /\ k_mem s' = store32 (k_mem s) (V2P p + i) v) s.
Proof.
  intros Hv Hp Hi. assert (V2P (p + i) = V2P p + i) as Ha.
  { apply (V2P_in (k_link s)); [by eapply vm_link|eapply vm_page; [exact Hv|set_solver]|unfold PGSIZE in *; lia]. }
  apply (wp_ok _ _ _ tt (s <| k_mem := store32 (k_mem s) (V2P p + i) v |>)).
  - unfold st32, modify. f_equal. destruct s. kred. by rewrite Ha.
  - destruct (vm_store s l h p (store32 (k_mem s) (V2P p + i) v) Hv Hp); [|done]. intros x Hx. apply store32_other. unfold PGSIZE in *. lia.
Qed.

(** ** Entries *)

(** An entry: a page address and flags. *)
Lemma pte_parts x f :
  x mod PGSIZE = 0 -> 0 <= f < PGSIZE -> Z.lor x f = x + f /\ PTE_ADDR (x + f) = x /\ PTE_FLAGS (x + f) = f.
Proof.
  unfold PGSIZE. intros Hx Hf. pose proof (Z.div_mod x 4096 ltac:(lia)) as Hd. rewrite Hx in Hd.
  assert ((x + f) / 4096 = x / 4096) as Hq. { rewrite Hd at 1. rewrite Z.add_0_r, Z.mul_comm, Z.add_comm, Z.div_add, Z.div_small by lia. lia. }
  split_and!.
  - replace x with (Z.shiftl (x / 4096) 12) by (rewrite Z.shiftl_mul_pow2 by lia; lia).
    rewrite lor_shift_add by lia. change (2 ^ 12) with 4096. rewrite Z.shiftl_mul_pow2 by lia. lia.
  - unfold PTE_ADDR. change 4095 with (2 ^ 12 - 1). rewrite land_lnot_ones by lia. change (2 ^ 12) with 4096. rewrite Hq. lia.
  - unfold PTE_FLAGS. change 4095 with (Z.ones 12). rewrite Z.land_ones by lia. change (2 ^ 12) with 4096.
    rewrite Zplus_mod, Hx, Z.add_0_l, Zmod_mod. apply Z.mod_small. lia.
Qed.

Lemma land_P e : Z.land e PTE_P = e mod 2.
Proof. unfold PTE_P. change 1 with (Z.ones 1). by rewrite Z.land_ones. Qed.

Lemma PDX_spec va : 0 <= va < 2 ^ 32 -> PDX va = va / PGSIZE / 1024 /\ 0 <= PDX va < 1024.
Proof.
  intros Hva. unfold PDX, PDXSHIFT, PGSIZE. change 0x3FF with (Z.ones 10). rewrite Z.land_ones, Z.shiftr_div_pow2 by lia.
  rewrite Z.div_div by lia. change (4096 * 1024) with (2 ^ 22). change (2 ^ 10) with 1024.
  assert (0 <= va / 2 ^ 22 < 1024). { change (2 ^ 22) with 4194304. Z.to_euclidean_division_equations. lia. }
  rewrite Z.mod_small by lia. lia.
Qed.

Lemma PTX_spec va : PTX va = va / PGSIZE mod 1024 /\ 0 <= PTX va < 1024.
Proof.
  unfold PTX, PTXSHIFT, PGSIZE. change 0x3FF with (Z.ones 10). rewrite Z.land_ones, Z.shiftr_div_pow2 by lia.
  change (2 ^ 10) with 1024. change (2 ^ 12) with 4096. pose proof (Z.mod_pos_bound (va / 4096) 1024). lia.
Qed.

(** The page number of an address, from its two indices. *)
Lemma page_number va : 0 <= va < 2 ^ 32 -> 1024 * PDX va + PTX va = va / PGSIZE.
Proof.
  intros Hva. rewrite (proj1 (PDX_spec va Hva)), (proj1 (PTX_spec va)). symmetry. apply Z.div_mod. lia.
Qed.

Lemma V2P_aligned lk p : link_ok lk -> page_ok lk p -> V2P p mod PGSIZE = 0 /\ 0 < V2P p < 2 ^ 32 - PGSIZE /\ P2V (V2P p) = p.
Proof.
  intros Hl Hp. rewrite (V2P_page _ _ Hl Hp). unfold link_ok, page_ok, P2V, KERNBASE, PHYSTOP, PGSIZE in *. destruct Hp as [Hp1 Hp2].
  split_and!; [|lia|lia|].
  - replace (p - 0x80000000) with (p + (-524288) * 4096) by lia. by rewrite Z_mod_plus_full.
  - rewrite u32_small; [lia|]. unfold is_u32. lia.
Qed.

(** ** Address spaces *)

(** The directory, the tables by index, and the entries by page number. *)
Record aspace := mkAspace { as_dir : Z; as_tabs : gmap Z Z; as_ents : Z -> Z }.

(** The pages an address space is made of, without those it maps. *)
Definition tables (A : aspace) : list Z := as_dir A :: (snd <$> map_to_list (as_tabs A)).

Definition space (m : mem) (A : aspace) : Prop :=
  (forall i t, as_tabs A !! i = Some t -> 0 <= i < 1024) /\
  forall i, 0 <= i < 1024 ->
    match as_tabs A !! i with
    | Some t => load32 m (V2P (as_dir A) + 4 * i) = V2P t + 7 /\
                forall j, 0 <= j < 1024 -> load32 m (V2P t + 4 * j) = as_ents A (1024 * i + j)
    | None => load32 m (V2P (as_dir A) + 4 * i) mod 2 = 0 /\ forall j, 0 <= j < 1024 -> as_ents A (1024 * i + j) = 0
    end.

Lemma dir_tables A : as_dir A ∈ tables A.
Proof. unfold tables. set_solver. Qed.

Lemma tab_tables A i t : as_tabs A !! i = Some t -> t ∈ tables A.
Proof.
  intros Hi. unfold tables. apply elem_of_cons. right. apply list_elem_of_fmap. exists (i, t). split; [done|].
  by apply elem_of_map_to_list.
Qed.

(** An address space lives in its own pages. *)
Lemma space_untouched lk ps m m' A :
  Forall (page_ok lk) (tables A) -> untouched lk ps m m' -> (forall p, p ∈ tables A -> p ∉ ps) -> space m A -> space m' A.
Proof.
  intros Hok Hu Hd [Hk Hs]. split; [done|]. intros i Hi. specialize (Hs i Hi).
  assert (forall p j, p ∈ tables A -> 0 <= j < 1024 -> load32 m' (V2P p + 4 * j) = load32 m (V2P p + 4 * j)) as Hl.
  { intros p j Hp Hj. symmetry. apply load32_agree. intros x Hx.
    apply (Hu p); [by apply (proj1 (list.Forall_forall _ _) Hok)|by apply Hd|unfold PGSIZE; lia]. }
  rewrite Hl by (done || apply dir_tables). destruct (as_tabs A !! i) as [t|] eqn:Et; [|done].
  destruct Hs as [H1 H2]. split; [done|]. intros j Hj. rewrite Hl by (done || by eapply tab_tables). by apply H2.
Qed.

Lemma vm_tables s l A h : vm s l (tables A ++ h) -> Forall (page_ok (k_link s)) (tables A).
Proof. intros (_ & _ & _ & H). by apply Forall_app in H as [? _]. Qed.

Lemma NoDup_snd {X Y} (l : list (X * Y)) x x' y : NoDup (snd <$> l) -> (x, y) ∈ l -> (x', y) ∈ l -> x = x'.
Proof.
  intros Hnd [a Ha]%list_elem_of_lookup [b Hb]%list_elem_of_lookup.
  assert (a = b) as ->; [|congruence]. apply (NoDup_lookup (snd <$> l) a b y Hnd); rewrite list_lookup_fmap; by rewrite ?Ha, ?Hb.
Qed.

Lemma dir_page s l A h : vm s l (tables A ++ h) -> page_ok (k_link s) (as_dir A).
Proof. intros Hv%vm_tables. apply (proj1 (list.Forall_forall _ _) Hv), dir_tables. Qed.

Lemma tab_page s l A h i t : vm s l (tables A ++ h) -> as_tabs A !! i = Some t -> page_ok (k_link s) t.
Proof. intros Hv%vm_tables Hi. apply (proj1 (list.Forall_forall _ _) Hv). by eapply tab_tables. Qed.

(** The tables are apart. *)
Lemma vm_tables_ne s l A h i t :
  vm s l (tables A ++ h) -> as_tabs A !! i = Some t ->
  t <> as_dir A /\ forall j t', as_tabs A !! j = Some t' -> i <> j -> t <> t'.
Proof.
  intros (_ & _ & Hnd & _) Hi. apply list.NoDup_app in Hnd as (_ & _ & Hnd). apply list.NoDup_app in Hnd as (Hnd & _ & _).
  unfold tables in Hnd. apply list.NoDup_cons in Hnd as [Hn Hnd]. split.
  - intros ->. apply Hn, list_elem_of_fmap. exists (i, as_dir A). split; [done|]. by apply elem_of_map_to_list.
  - intros j t' Hj Hne <-. apply Hne. apply (NoDup_snd _ i j t Hnd); by apply elem_of_map_to_list.
Qed.

(** ** Walking *)

(** The kernel address of the entry for [va], 0 for none. *)
Definition slot (A : aspace) (va : Z) : Z :=
  match as_tabs A !! PDX va with Some t => t + 4 * PTX va | None => 0 end.

Lemma ld32_run a s : ld32 a s = Ok (load32 (k_mem s) (V2P a)) s.
Proof. done. Qed.

(** The directory entry the walk reads. *)
Lemma walk_dir s l A h va :
  vm s l (tables A ++ h) -> 0 <= va < 2 ^ 32 ->
  ld32 (as_dir A + 4 * PDX va) s = Ok (load32 (k_mem s) (V2P (as_dir A) + 4 * PDX va)) s.
Proof.
  intros Hv Hva. rewrite ld32_run, (V2P_in (k_link s)); [done|by eapply vm_link|by eapply dir_page|].
  pose proof (PDX_spec va Hva). unfold PGSIZE. lia.
Qed.

Lemma walk_have s l A h va alloc t :
  vm s l (tables A ++ h) -> space (k_mem s) A -> 0 <= va < 2 ^ 32 -> as_tabs A !! PDX va = Some t ->
  walkpgdir (as_dir A) va alloc s = Ok (t + 4 * PTX va) s.
Proof.
  intros Hv [_ Hs] Hva Ht. unfold walkpgdir. rewrite (bind_ok _ _ _ _ _ (walk_dir s l A h va Hv Hva)).
  specialize (Hs (PDX va) (proj2 (PDX_spec va Hva))). rewrite Ht in Hs. destruct Hs as [-> _].
  assert (page_ok (k_link s) t) as Hp by by eapply tab_page.
  destruct (V2P_aligned (k_link s) t) as (Ha & Hr & HP); [by eapply vm_link|done|].
  destruct (pte_parts (V2P t) 7 Ha) as (_ & -> & _); [unfold PGSIZE; lia|]. rewrite HP, land_P, Zplus_mod.
  assert (V2P t mod 2 = 0) as ->. { unfold PGSIZE in Ha. Z.to_euclidean_division_equations. lia. }
  done.
Qed.

Lemma walk_none s l A h va :
  vm s l (tables A ++ h) -> space (k_mem s) A -> 0 <= va < 2 ^ 32 -> as_tabs A !! PDX va = None ->
  walkpgdir (as_dir A) va false s = Ok 0 s.
Proof.
  intros Hv [_ Hs] Hva Ht. unfold walkpgdir. rewrite (bind_ok _ _ _ _ _ (walk_dir s l A h va Hv Hva)).
  specialize (Hs (PDX va) (proj2 (PDX_spec va Hva))). rewrite Ht in Hs. destruct Hs as [E _]. by rewrite land_P, E.
Qed.

Lemma walk_get s l A h va :
  vm s l (tables A ++ h) -> space (k_mem s) A -> 0 <= va < 2 ^ 32 -> walkpgdir (as_dir A) va false s = Ok (slot A va) s.
Proof.
  intros Hv Hs Hva. unfold slot. destruct (as_tabs A !! PDX va) eqn:Et; [by eapply walk_have|by eapply walk_none].
Qed.

(** The entry read through its slot. *)
Lemma slot_read s l A h va t :
  vm s l (tables A ++ h) -> space (k_mem s) A -> 0 <= va < 2 ^ 32 -> as_tabs A !! PDX va = Some t ->
  ld32 (t + 4 * PTX va) s = Ok (as_ents A (va / PGSIZE)) s /\ t + 4 * PTX va <> 0.
Proof.
  intros Hv [_ Hs] Hva Ht. pose proof (PTX_spec va) as [_ Hx].
  assert (page_ok (k_link s) t) as Hp by by eapply tab_page.
  assert (link_ok (k_link s)) as Hl by by eapply vm_link. split.
  - rewrite ld32_run, (V2P_in (k_link s)) by (done || unfold PGSIZE; lia).
    specialize (Hs (PDX va) (proj2 (PDX_spec va Hva))). rewrite Ht in Hs. destruct Hs as [_ ->]; [|done]. by rewrite page_number.
  - destruct (page_ok_nz _ _ Hl Hp). unfold link_ok, page_ok, KERNBASE in *. lia.
Qed.

Lemma ents_none m A va :
  space m A -> 0 <= va < 2 ^ 32 -> as_tabs A !! PDX va = None -> as_ents A (va / PGSIZE) = 0.
Proof.
  intros [_ Hs] Hva Ht. specialize (Hs (PDX va) (proj2 (PDX_spec va Hva))). rewrite Ht in Hs. destruct Hs as [_ Hs].
  rewrite <- page_number by done. apply Hs. by apply PTX_spec.
Qed.

(** ** Growing the tables *)

(** [A'] is [A] with more tables, taken from the free pages. *)
Definition grown (A : aspace) (l : list Z) (A' : aspace) (l' : list Z) : Prop :=
  as_dir A' = as_dir A /\ as_tabs A ⊆ as_tabs A' /\ l ++ tables A ≡ₚ l' ++ tables A'.

Lemma grown_refl A l : grown A l A l.
Proof. done. Qed.

Lemma grown_trans A l A1 l1 A2 l2 : grown A l A1 l1 -> grown A1 l1 A2 l2 -> grown A l A2 l2.
Proof. intros (H1 & H2 & H3) (H4 & H5 & H6). split_and!; [congruence|by etrans|by etrans]. Qed.

Lemma grown_step A l A' l' s s' : grown A l A' l' -> vstep (l' ++ tables A') s s' -> vstep (l ++ tables A) s s'.
Proof. intros (_ & _ & Hp) H. eapply vstep_mono; [exact H|]. intros x. by rewrite Hp. Qed.

(** The state of one address space among other pages [h]. *)
Definition holds (s : kst) (l : list Z) (A : aspace) (h : list Z) : Prop := vm s l (tables A ++ h) /\ space (k_mem s) A.

Definition add_table (A : aspace) (i t : Z) : aspace := A <| as_tabs ::= <[i := t]> |>.

Lemma tables_add A i t : as_tabs A !! i = None -> tables (add_table A i t) ≡ₚ t :: tables A.
Proof.
  intros Hi. unfold tables, add_table. simpl. rewrite map_to_list_insert by done. simpl. apply Permutation_swap.
Qed.

Lemma load32_fill m a n x : a <= x -> x + 4 <= a + n -> load32 (fill m a 0 n) x = 0.
Proof. intros H1 H2. unfold load32. rewrite !fill_in by lia. done. Qed.

(** A cleared page entered in the directory. *)
Lemma space_add m A i t lk :
  link_ok lk -> page_ok lk t -> page_ok lk (as_dir A) -> t <> as_dir A -> 0 <= i < 1024 -> as_tabs A !! i = None ->
  (forall j, 0 <= j < 1024 -> load32 m (V2P t + 4 * j) = 0) ->
  (forall k t', as_tabs A !! k = Some t' -> page_ok lk t' /\ t' <> as_dir A) -> space m A ->
  space (store32 m (V2P (as_dir A) + 4 * i) (Z.lor (Z.lor (Z.lor (V2P t) PTE_P) PTE_W) PTE_U)) (add_table A i t).
Proof.
  intros Hl Ht Hd Hne Hi Hnone Hz Htabs [Hk Hs]. destruct (V2P_aligned lk t Hl Ht) as (Ha & Hr & _).
  assert (Z.lor (Z.lor (Z.lor (V2P t) PTE_P) PTE_W) PTE_U = V2P t + 7) as ->.
  { rewrite <- !Z.lor_assoc. change (Z.lor PTE_P (Z.lor PTE_W PTE_U)) with 7. apply pte_parts; [done|unfold PGSIZE; lia]. }
  set (m' := store32 _ _ _).
  assert (forall p j, page_ok lk p -> p <> as_dir A -> 0 <= j < 1024 -> load32 m' (V2P p + 4 * j) = load32 m (V2P p + 4 * j)) as Hother.
  { intros p j Hp Hpd Hj. apply load32_agree. intros x Hx. apply store32_other.
    destruct (V2P_apart lk p (as_dir A) Hl Hp Hd Hpd); unfold PGSIZE in *; lia. }
  split.
  { intros k t'. simpl. intros [[<- _]|[_ Hk']]%lookup_insert_Some; [done|by eapply Hk]. }
  intros k Hki. simpl. destruct (decide (i = k)) as [<-|Hik].
  - rewrite lookup_insert_eq. split.
    + unfold m'. rewrite load32_store32. apply u32_small. unfold is_u32, PGSIZE in *. lia.
    + intros j Hj. rewrite Hother by done. rewrite Hz by done. specialize (Hs i Hi). rewrite Hnone in Hs. by rewrite (proj2 Hs).
  - rewrite lookup_insert_ne by done. specialize (Hs k Hki).
    assert (load32 m' (V2P (as_dir A) + 4 * k) = load32 m (V2P (as_dir A) + 4 * k)) as ->.
    { apply load32_agree. intros x Hx. apply store32_other. lia. }
    destruct (as_tabs A !! k) as [t'|] eqn:Ek; [|done]. destruct Hs as [E1 E2]. split; [done|].
    intros j Hj. destruct (Htabs k t' Ek). rewrite Hother by done. by apply E2.
Qed.

(** [walkpgdir] that may allocate: it returns the slot of the entry in a space that has
    its table, or 0 when no page is left for it. *)
Lemma wp_walk_alloc s l A h va :
  holds s l A h -> 0 <= va < 2 ^ 32 ->
  wp (walkpgdir (as_dir A) va true) (fun r s' =>
    vstep (l ++ tables A) s s' /\
    ((r = 0 /\ l = [] /\ holds s' [] A h) \/
     exists A' l' t, grown A l A' l' /\ as_ents A' = as_ents A /\ holds s' l' A' h /\
       as_tabs A' !! PDX va = Some t /\ r = t + 4 * PTX va)) s.
Proof.
  intros [Hv Hs] Hva. destruct (as_tabs A !! PDX va) as [t|] eqn:Et.
  { apply (wp_ok _ _ _ _ _ (walk_have s l A h va true t Hv Hs Hva Et)). split; [apply vstep_refl|]. right. by exists A, l, t. }
  pose proof (proj2 (PDX_spec va Hva)) as Hi. unfold walkpgdir.
  eapply wp_bind, wp_ok; [by eapply walk_dir|]. pose proof Hs as [_ Hd]. specialize (Hd _ Hi). rewrite Et in Hd. destruct Hd as [Hd _].
  rewrite land_P, Hd. change (nz 0) with false. cbv [negb]. cbv iota. wcall (wp_kalloc s l _ Hv).
  intros p s1 (V1 & M1 & Hp). destruct l as [|q l]; destruct Hp as [-> Hv1].
  { change (0 =? 0) with true. cbv iota. split; [exact (vstep_nil _ _ _ V1)|]. left. split; [done|]. split; [done|]. split; [done|]. by rewrite M1. }
  assert (page_ok (k_link s) q) as Hq by (eapply vm_page; [exact Hv|]; apply list_elem_of_here).
  rewrite (proj2 (Z.eqb_neq q 0) (proj1 (page_ok_nz _ _ (vm_link _ _ _ Hv) Hq))). cbv iota.
  wcall (wp_memset s1 l _ q Hv1); [apply list_elem_of_here|]. intros _ s2 (V2 & Hv2 & M2).
  assert (q ∉ tables A ++ h) as Hqn. { destruct Hv1 as (_ & _ & Hn & _). apply list.NoDup_app in Hn as (_ & _ & Hn). by apply list.NoDup_cons in Hn as [Hn _]. }
  assert (space (k_mem s2) A) as Hs2.
  { apply (space_untouched (k_link s) [q] (k_mem s1)); [by eapply vm_tables|rewrite <- (vm_frame_link s s1) by apply V1; apply V2| |by rewrite M1].
    intros x Hx ->%list_elem_of_singleton. apply Hqn, elem_of_app. by left. }
  wcall (wp_st32 s2 l _ (as_dir A) (4 * PDX va) _ Hv2); [apply list_elem_of_further, elem_of_app; left; apply dir_tables|unfold PGSIZE; lia|].
  intros _ s3 (V3 & Hv3 & M3). assert (k_link s2 = k_link s) as Hlk by (etrans; by eapply vm_frame_link, V2 || by eapply vm_frame_link, V1).
  split.
  - apply (vstep_trans _ s s1); [exact (vstep_nil _ _ _ V1)|]. apply (vstep_trans _ s1 s2); (eapply vstep_mono; [eassumption|]).
    + intros x ->%list_elem_of_singleton. apply list_elem_of_here.
    + intros x ->%list_elem_of_singleton. apply elem_of_app. right. apply dir_tables.
  - right. exists (add_table A (PDX va) q), l, q.
    assert (tables (add_table A (PDX va) q) ≡ₚ q :: tables A) as Hpt by by apply tables_add.
    split; [|split; [done|split; [split|split; [apply lookup_insert_eq|done]]]].
    + split; [done|]. split; [by apply insert_subseteq|]. rewrite Hpt. apply Permutation_middle.
    + eapply vm_perm; [exact Hv3|]. by rewrite Hpt.
    + rewrite M3. apply (space_add _ _ _ _ (k_link s)); try done.
      * by eapply vm_link.
      * by eapply dir_page.
      * intros ->. apply Hqn, elem_of_app. left. apply dir_tables.
      * intros j Hj. rewrite M2. apply load32_fill; unfold PGSIZE; lia.
      * intros k t' Hk. split; [by eapply tab_page|]. exact (proj1 (vm_tables_ne _ _ _ _ _ _ Hv Hk)).
Qed.

(** ** Writing entries *)

Definition set_ent (A : aspace) (v e : Z) : aspace := A <| as_ents ::= fun f x => if x =? v then e else f x |>.

Lemma space_set m A va t e lk :
  link_ok lk -> Forall (page_ok lk) (tables A) -> as_tabs A !! PDX va = Some t -> 0 <= va < 2 ^ 32 ->
  (t <> as_dir A /\ forall j t', as_tabs A !! j = Some t' -> PDX va <> j -> t <> t') -> is_u32 e -> space m A ->
  space (store32 m (V2P t + 4 * PTX va) e) (set_ent A (va / PGSIZE) e).
Proof.
  intros Hl Hok Ht Hva [Hne1 Hne2] He [Hk Hs]. split; [done|]. intros i Hi. simpl. specialize (Hs i Hi).
  pose proof (proj2 (PTX_spec va)) as Hx. pose proof (page_number va Hva) as Hpn.
  assert (page_ok lk t) as Htok by (apply (proj1 (list.Forall_forall _ _) Hok); by eapply tab_tables).
  assert (forall p j, p ∈ tables A -> p <> t -> 0 <= j < 1024 ->
    load32 (store32 m (V2P t + 4 * PTX va) e) (V2P p + 4 * j) = load32 m (V2P p + 4 * j)) as Hother.
  { intros p j Hp Hpt Hj. apply load32_agree. intros x Hxx. apply store32_other.
    pose proof (proj1 (list.Forall_forall _ _) Hok p Hp). destruct (V2P_apart lk p t); unfold PGSIZE in *; (done || lia). }
  rewrite Hother by (done || apply dir_tables). destruct (as_tabs A !! i) as [t'|] eqn:Ei.
  - destruct Hs as [E1 E2]. split; [done|]. intros j Hj. rewrite <- Hpn. destruct (decide (PDX va = i)) as [<-|Hii].
    + assert (t' = t) as -> by congruence. destruct (decide (j = PTX va)) as [->|Hj'].
      * by rewrite load32_store32, u32_small, Z.eqb_refl.
      * rewrite (proj2 (Z.eqb_neq _ _)) by lia. rewrite <- E2 by done. apply load32_agree. intros x Hxx. apply store32_other. lia.
    + rewrite (proj2 (Z.eqb_neq _ _)) by lia. rewrite <- E2 by done. apply Hother; [by eapply tab_tables| |done].
      intros ->. by eapply Hne2.
  - destruct Hs as [E1 E2]. split; [done|]. intros j Hj. rewrite <- Hpn, (proj2 (Z.eqb_neq _ _)); [by apply E2|].
    intros Heq. assert (i = PDX va) as -> by lia. congruence.
Qed.

Lemma wp_set_ent s l A h va t e :
  holds s l A h -> 0 <= va < 2 ^ 32 -> as_tabs A !! PDX va = Some t -> is_u32 e ->
  wp (st32 (t + 4 * PTX va) e) (fun _ s' => vstep (tables A) s s' /\ holds s' l (set_ent A (va / PGSIZE) e) h) s.
Proof.
  intros [Hv Hs] Hva Ht He. pose proof (proj2 (PTX_spec va)) as Hx. pose proof (tab_tables _ _ _ Ht) as Hin.
  eapply wp_mono; [eapply (wp_st32 s l _ t (4 * PTX va) e Hv)|]; [apply elem_of_app; by left|unfold PGSIZE; lia|].
  intros _ s' (V & Hv' & M). split.
  - eapply vstep_mono; [exact V|]. by intros x ->%list_elem_of_singleton.
  - split; [exact Hv'|]. rewrite M. apply (space_set _ _ _ _ _ (k_link s)); try done.
    + by eapply vm_link.
    + by eapply vm_tables.
    + by apply (vm_tables_ne s l A h).
Qed.

(** ** Mapping *)

(** The entries [f] with the [k] pages from number [v0] mapped from [pa] on with flags [fl]. *)
Definition map_ents (f : Z -> Z) (v0 k pa fl : Z) : Z -> Z := fun v =>
  if (v0 <=? v) && (v <? v0 + k) then pa + PGSIZE * (v - v0) + fl else f v.

Lemma map_ents_in f v0 k pa fl v : v0 <= v < v0 + k -> map_ents f v0 k pa fl v = pa + PGSIZE * (v - v0) + fl.
Proof. intros H. unfold map_ents. destruct (Z.leb_spec v0 v), (Z.ltb_spec v (v0 + k)); try done; lia. Qed.

Lemma map_ents_out f v0 k pa fl v : v < v0 \/ v0 + k <= v -> map_ents f v0 k pa fl v = f v.
Proof. intros H. unfold map_ents. destruct (Z.leb_spec v0 v), (Z.ltb_spec v (v0 + k)); try done; lia. Qed.

(** One entry and the rest. *)
Lemma map_ents_cons f v0 k pa fl v :
  0 <= k ->
  map_ents (fun x => if x =? v0 then pa + fl else f x) (v0 + 1) k (pa + PGSIZE) fl v = map_ents f v0 (k + 1) pa fl v.
Proof.
  intros Hk. destruct (decide (v = v0)) as [->|Hv].
  - rewrite map_ents_out, map_ents_in, Z.eqb_refl by lia. lia.
  - destruct (decide (v0 + 1 <= v < v0 + 1 + k)).
    + rewrite !map_ents_in by lia. lia.
    + rewrite !map_ents_out, (proj2 (Z.eqb_neq v v0)) by lia. done.
Qed.

Lemma map_ents_nil f v0 pa fl v : map_ents f v0 0 pa fl v = f v.
Proof. apply map_ents_out. lia. Qed.

Lemma page_div a : a mod PGSIZE = 0 -> a = PGSIZE * (a / PGSIZE).
Proof. unfold PGSIZE. intros H. pose proof (Z.div_mod a 4096). lia. Qed.

Lemma page_succ a : (a + PGSIZE) / PGSIZE = a / PGSIZE + 1 /\ (a mod PGSIZE = 0 -> (a + PGSIZE) mod PGSIZE = 0).
Proof.
  unfold PGSIZE. replace (a + 4096) with (a + 1 * 4096) by lia. split; [by rewrite Z.div_add|]. intros H. by rewrite Z_mod_plus_full.
Qed.

(** One round of the loop of [mappages], and what comes after it. *)
Lemma wp_map_one s l A h a pa perm (k : K Z) (Q : Z -> kst -> Prop) :
  holds s l A h -> 0 <= a < 2 ^ 32 -> pa mod PGSIZE = 0 -> 0 <= pa < 2 ^ 32 -> 0 <= Z.lor perm PTE_P < PGSIZE ->
  as_ents A (a / PGSIZE) mod 2 = 0 ->
  (forall s1, vstep (l ++ tables A) s s1 -> l = [] -> holds s1 [] A h -> Q (-1) s1) ->
  (forall s2 A1 l1, vstep (l ++ tables A) s s2 -> grown A l A1 l1 -> as_ents A1 = as_ents A ->
     holds s2 l1 (set_ent A1 (a / PGSIZE) (pa + Z.lor perm PTE_P)) h -> wp k Q s2) ->
  wp (pte <- walkpgdir (as_dir A) a true ;;
      if pte =? 0 then ret (-1) else
      e <- ld32 pte ;;
      if nz (Z.land e PTE_P) then panic "remap" else
      st32 pte (Z.lor (Z.lor pa perm) PTE_P) ;; k) Q s.
Proof.
  intros Hh Ha Hp Hp1 Hperm Hfree Hno Hyes. wcall (wp_walk_alloc s l A h a Hh); [done|].
  intros r s1 (V1 & [(-> & -> & Hh1)|(A1 & l1 & t & G1 & E1 & Hh1 & Ht & ->)]); [by apply Hno|].
  destruct (slot_read s1 l1 A1 h a t (proj1 Hh1) (proj2 Hh1) Ha Ht) as [Er Hnz].
  rewrite (proj2 (Z.eqb_neq _ 0) Hnz). cbv iota. eapply wp_bind, wp_ok; [exact Er|].
  rewrite E1, land_P, Hfree. change (nz 0) with false. cbv iota.
  rewrite <- Z.lor_assoc. rewrite (proj1 (pte_parts pa (Z.lor perm PTE_P) Hp Hperm)).
  wcall (wp_set_ent s1 l1 A1 h a t (pa + Z.lor perm PTE_P) Hh1); [done|done| |].
  - unfold is_u32, PGSIZE in *. pose proof (page_div pa Hp). unfold PGSIZE in *.
    assert (pa / 4096 < 2 ^ 20) by (apply Z.div_lt_upper_bound; lia). lia.
  - intros _ s2 [V2 Hh2]. apply (Hyes s2 A1 l1); [|done..]. eapply vstep_trans; [exact V1|]. eapply grown_step; [exact G1|].
    eapply vstep_mono; [exact V2|]. intros x Hx. apply elem_of_app. by right.
Qed.

Lemma grown_set A l A1 l1 v e : grown A l A1 l1 -> grown A l (set_ent A1 v e) l1.
Proof. done. Qed.

Lemma wp_map_loop n s l A h a pa perm :
  holds s l A h -> a mod PGSIZE = 0 -> 0 <= a -> a + PGSIZE * Z.of_nat n < 2 ^ 32 ->
  pa mod PGSIZE = 0 -> 0 <= pa -> pa + PGSIZE * Z.of_nat n < 2 ^ 32 -> 0 <= Z.lor perm PTE_P < PGSIZE ->
  (forall v, a / PGSIZE <= v <= a / PGSIZE + Z.of_nat n -> as_ents A v mod 2 = 0) ->
  wp (mappages_loop (S n) (as_dir A) a (a + PGSIZE * Z.of_nat n) pa perm) (fun r s' =>
    vstep (l ++ tables A) s s' /\
    exists A' l' k, grown A l A' l' /\ holds s' l' A' h /\
      (forall v, as_ents A' v = map_ents (as_ents A) (a / PGSIZE) k pa (Z.lor perm PTE_P) v) /\
      ((r = 0 /\ k = Z.of_nat n + 1) \/ (r = -1 /\ l' = [] /\ 0 <= k <= Z.of_nat n))) s.
Proof.
  assert (PGSIZE = 4096) as HPG by done.
  revert s l A a pa. induction n as [|n IH]; intros s l A a pa Hh Ha Ha0 Ha1 Hp Hp0 Hp1 Hperm Hfree.
  all: cbn [mappages_loop]; apply wp_map_one with (l := l) (h := h); [done|lia|done|lia|done|apply Hfree; lia| |].
  1,3: intros s1 V1 -> Hh1; (split; [done|]); exists A, [], 0; (split; [apply grown_refl|]); (split; [done|]);
    (split; [intros v; by rewrite map_ents_nil|]); right; (split; [done|]); (split; [done|]); lia.
  all: intros s2 A1 l1 V2 G1 E1 Hh2.
  - rewrite (proj2 (Z.eqb_eq a _)) by lia. split; [done|]. exists (set_ent A1 (a / PGSIZE) (pa + Z.lor perm PTE_P)), l1, 1.
    split; [by apply grown_set|]. split; [done|]. split; [|left; split; [done|lia]].
    intros v. simpl. rewrite <- (map_ents_cons _ _ 0), map_ents_nil by lia. by rewrite E1.
  - rewrite (proj2 (Z.eqb_neq a _)) by lia. pose proof (page_succ a) as [Hs1 Hs2]. pose proof (page_succ pa) as [_ Hs4].
    rewrite !u32_small by (unfold is_u32; lia).
    set (A2 := set_ent A1 (a / PGSIZE) (pa + Z.lor perm PTE_P)) in *.
    replace (a + PGSIZE * Z.of_nat (S n)) with (a + PGSIZE + PGSIZE * Z.of_nat n) by lia.
    replace (as_dir A) with (as_dir A2) by apply G1.
    eapply wp_mono; [apply (IH s2 l1 A2 (a + PGSIZE) (pa + PGSIZE)); try done; try auto; try lia|].
    + intros v Hv. simpl. rewrite (proj2 (Z.eqb_neq _ _)) by lia. rewrite E1. apply Hfree. lia.
    + intros r s' (V3 & A' & l' & k & G & Hh' & He & Hr). split; [eapply vstep_trans; [exact V2|]; by eapply grown_step|].
      exists A', l', (k + 1). split; [by eapply grown_trans; [apply grown_set|]|]. split; [done|]. split.
      * intros v. rewrite He, Hs1. simpl. rewrite E1. apply map_ents_cons. destruct Hr as [[_ ->]|(_ & _ & ?)]; lia.
      * destruct Hr as [[-> ->]|(-> & -> & ?)]; [left|right]; (split; [done|]); [lia|]. split; [done|lia].
Qed.

(** [mappages] of [n + 1] whole pages. *)
Lemma wp_mappages n s l A h va pa perm :
  holds s l A h -> va mod PGSIZE = 0 -> 0 <= va -> va + PGSIZE * Z.of_nat n < 2 ^ 32 ->
  pa mod PGSIZE = 0 -> 0 <= pa -> pa + PGSIZE * Z.of_nat n < 2 ^ 32 -> 0 <= Z.lor perm PTE_P < PGSIZE ->
  (forall v, va / PGSIZE <= v <= va / PGSIZE + Z.of_nat n -> as_ents A v mod 2 = 0) ->
  wp (mappages (as_dir A) va (PGSIZE * (Z.of_nat n + 1)) pa perm) (fun r s' =>
    vstep (l ++ tables A) s s' /\
    exists A' l' k, grown A l A' l' /\ holds s' l' A' h /\
      (forall v, as_ents A' v = map_ents (as_ents A) (va / PGSIZE) k pa (Z.lor perm PTE_P) v) /\
      ((r = 0 /\ k = Z.of_nat n + 1) \/ (r = -1 /\ l' = [] /\ 0 <= k <= Z.of_nat n))) s.
Proof.
  intros Hh Ha Ha0 Ha1 Hp Hp0 Hp1 Hperm Hfree. unfold mappages.
  pose proof (page_div va Ha) as Hd. assert (va / PGSIZE + Z.of_nat n < 2 ^ 20) as Hq by (unfold PGSIZE in *; lia).
  rewrite (u32_small (va + PGSIZE * (Z.of_nat n + 1) - 1)) by (unfold is_u32, PGSIZE in *; lia). rewrite !PGROUNDDOWN_spec, <- Hd.
  assert ((va + PGSIZE * (Z.of_nat n + 1) - 1) / PGSIZE = va / PGSIZE + Z.of_nat n) as ->.
  { symmetry. apply (Z.div_unique_pos _ _ _ (PGSIZE - 1)); unfold PGSIZE in *; lia. }
  replace (PGSIZE * (va / PGSIZE + Z.of_nat n)) with (va + PGSIZE * Z.of_nat n) by lia.
  rewrite (u32_small (_ - _)) by (unfold is_u32, PGSIZE in *; lia).
  replace (va + PGSIZE * Z.of_nat n - va) with (Z.of_nat n * PGSIZE) by lia. rewrite Z.div_mul by done.
  rewrite Nat2Z.id, Nat.add_1_r. by apply wp_map_loop.
Qed.

(** ** The tables of a space, in the order of the directory *)

(** The tables with the indices [ks]. *)
Definition tabs_at (A : aspace) (ks : list Z) : list Z := omap (fun i => as_tabs A !! i) ks.

Definition indices : list Z := Z.of_nat <$> seq 0 (Z.to_nat NPDENTRIES).

#[global] Arguments indices : simpl never.

Lemma elem_of_indices i : i ∈ indices <-> 0 <= i < 1024.
Proof.
  unfold indices. rewrite list_elem_of_fmap. change (Z.to_nat NPDENTRIES) with 1024%nat. split.
  - intros (k & -> & Hk%elem_of_seq). lia.
  - intros Hi. exists (Z.to_nat i). split; [lia|]. apply elem_of_seq. lia.
Qed.

Lemma tabs_at_all m A : space m A -> snd <$> map_to_list (as_tabs A) ≡ₚ tabs_at A indices.
Proof.
  intros [Hk _].
  assert (map_to_list (as_tabs A) ≡ₚ omap (fun i => (i,.) <$> as_tabs A !! i) indices) as ->.
  { apply NoDup_Permutation.
    - apply NoDup_map_to_list.
    - apply (NoDup_fmap_1 fst). assert (forall ks, NoDup ks -> NoDup (fst <$> omap (fun i => (i,.) <$> as_tabs A !! i) ks)) as H.
      { induction 1 as [|i ks Hi _ IH]; simpl; [constructor|]. destruct (as_tabs A !! i) as [t|]; simpl; [|done]. constructor; [|done].
        intros ([j t'] & -> & (k & Hin & E)%list_elem_of_omap)%list_elem_of_fmap. simpl in *. destruct (as_tabs A !! k); simpl in E; congruence. }
      apply H. unfold indices. apply (NoDup_fmap_2 _), NoDup_seq.
    - intros [i t]. rewrite elem_of_map_to_list, list_elem_of_omap. split.
      + intros Hi. exists i. rewrite elem_of_indices, Hi. split; [by eapply Hk|done].
      + intros (j & _ & E). destruct (as_tabs A !! j) eqn:Ej; simpl in E; [|done]. by injection E as <- <-. }
  unfold tabs_at. generalize indices. intros ks. induction ks as [|i ks IH]; [done|]. simpl. by destruct (as_tabs A !! i); simpl; rewrite IH.
Qed.

Lemma tables_bound m A : space m A -> (length (tables A) <= 1025)%nat.
Proof.
  intros Hs. unfold tables. simpl. rewrite (Permutation_length (tabs_at_all m A Hs)). unfold tabs_at.
  assert (forall ks, (length (omap (fun i => as_tabs A !! i) ks) <= length ks)%nat) as H.
  { induction ks as [|i ks IH]; simpl; [lia|]. destruct (as_tabs A !! i); simpl; [by apply le_n_S|by apply Nat.le_le_succ_r]. }
  specialize (H indices). assert (length indices = 1024%nat) as E by (unfold indices; rewrite length_fmap, length_seq; done).
  rewrite E in H. by apply le_n_S.
Qed.

(** ** The kernel's mapping *)

(** The kernel's image as the linker lays it out: the data starts on a page after the text. *)
Definition image_ok (lk : link) : Prop :=
  link_ok lk /\ data_ lk mod PGSIZE = 0 /\ KERNLINK < data_ lk < KERNBASE + PHYSTOP.

(** The entries every address space has above [KERNBASE]. *)
Definition kernel_ents (lk : link) : Z -> Z :=
  let f := map_ents (fun _ => 0) (KERNBASE / PGSIZE) (EXTMEM / PGSIZE) 0 3 in
  let f := map_ents f (KERNLINK / PGSIZE) ((data_ lk - KERNLINK) / PGSIZE) EXTMEM 1 in
  let f := map_ents f (data_ lk / PGSIZE) ((KERNBASE + PHYSTOP - data_ lk) / PGSIZE) (data_ lk - KERNBASE) 3 in
  map_ents f (DEVSPACE / PGSIZE) (2 ^ 20 - DEVSPACE / PGSIZE) DEVSPACE 3.

(** A segment of the table mapped in full, or memory is exhausted. *)
Lemma wp_segment s l A h va size pa perm fl (k : K Z) (Q : Z -> kst -> Prop) ps :
  holds s l A h -> va mod PGSIZE = 0 -> 0 <= va -> size mod PGSIZE = 0 -> 0 < size -> va + size <= 2 ^ 32 ->
  pa mod PGSIZE = 0 -> 0 <= pa -> pa + size <= 2 ^ 32 -> Z.lor perm PTE_P = fl -> 0 <= fl < PGSIZE ->
  (forall v, va / PGSIZE <= v < va / PGSIZE + size / PGSIZE -> as_ents A v mod 2 = 0) ->
  l ++ tables A ⊆ ps ->
  (forall s', vstep ps s s' -> vm s' [] (l ++ tables A ++ h) -> (length (l ++ tables A) <= 1025)%nat -> Q 0 s') ->
  (forall s' A' l', vstep ps s s' -> grown A l A' l' -> holds s' l' A' h ->
     (forall v, as_ents A' v = map_ents (as_ents A) (va / PGSIZE) (size / PGSIZE) pa fl v) -> wp k Q s') ->
  wp (r <- mappages (as_dir A) va size pa perm ;; if r <? 0 then ret 0 else k) Q s.
Proof.
  intros Hh Ha Ha0 Hs Hs0 Ha1 Hp Hp0 Hp1 Hfl Hflr Hfree Hps Hno Hyes.
  pose proof (page_div size Hs) as Hd. assert (1 <= size / PGSIZE) as Hq by (unfold PGSIZE in *; lia).
  replace size with (PGSIZE * (Z.of_nat (Z.to_nat (size / PGSIZE - 1)) + 1)) by (rewrite Z2Nat.id by lia; lia).
  wcall (wp_mappages (Z.to_nat (size / PGSIZE - 1)) s l A h va pa perm Hh); rewrite ?Z2Nat.id, ?Hfl by lia; try done;
    [unfold PGSIZE in *; lia|unfold PGSIZE in *; lia|intros v Hv; apply Hfree; lia|].
  intros r s' (V & A' & l' & k' & G & Hh' & He & [[-> ->]|(-> & -> & _)]).
  - change (0 <? 0) with false. cbv iota. apply (Hyes s' A' l'); [by eapply vstep_mono|done|done|]. intros v. rewrite He. f_equal. lia.
  - change (-1 <? 0) with true. cbv iota. apply Hno; [by eapply vstep_mono| |]; destruct Hh' as [Hv Hsp], G as (_ & _ & Hperm).
    + eapply vm_perm; [exact Hv|]. rewrite app_assoc, Hperm. done.
    + rewrite Hperm. by eapply tables_bound.
Qed.

Lemma empty_space m p : (forall j, 0 <= j < 1024 -> load32 m (V2P p + 4 * j) = 0) -> space m (mkAspace p ∅ (fun _ => 0)).
Proof. intros Hz. split; [done|]. intros i Hi. simpl. rewrite lookup_empty. by rewrite Hz. Qed.

(** The sizes of the second and third segment, and where they lie, in pages: [data_ lk] is
    the page number [dp]. *)
Lemma kmap_sizes lk :
  image_ok lk ->
  let dp := data_ lk / PGSIZE in
  524544 < dp < 581632 /\ data_ lk = dp * 4096 /\ V2P (data_ lk) = data_ lk - KERNBASE /\
  u32 (V2P (data_ lk) - V2P KERNLINK) = data_ lk - KERNLINK /\
  u32 (PHYSTOP - V2P (data_ lk)) = KERNBASE + PHYSTOP - data_ lk /\
  (data_ lk - KERNLINK) / PGSIZE = dp - 524544 /\ (KERNBASE + PHYSTOP - data_ lk) / PGSIZE = 581632 - dp.
Proof.
  intros (Hlk & Hda & Hd) dp. pose proof (page_div _ Hda) as Hq. fold dp in Hq.
  unfold PGSIZE, KERNLINK, KERNBASE, EXTMEM, PHYSTOP in Hd, Hq. change (4096 * 4096) with 16777216 in *.
  assert (V2P (data_ lk) = data_ lk - KERNBASE) as Ed by (unfold V2P, KERNBASE; rewrite u32_small; [done|unfold is_u32; lia]).
  rewrite Ed. change (V2P KERNLINK) with EXTMEM. unfold KERNLINK, KERNBASE, PHYSTOP, EXTMEM.
  split; [lia|]. split; [lia|]. split; [done|]. rewrite !u32_small by (unfold is_u32; lia). split; [lia|]. split; [lia|].
  unfold PGSIZE. split.
  - replace (data_ lk - _) with ((dp - 524544) * 4096) by lia. by rewrite Z.div_mul.
  - replace (_ - data_ lk) with ((581632 - dp) * 4096) by lia. by rewrite Z.div_mul.
Qed.

(** The four segments of [kmap], from an empty directory. *)
Lemma wp_kmap s l A0 h lk (Q : Z -> kst -> Prop) ps :
  holds s l A0 h -> image_ok lk -> (forall v, as_ents A0 v = 0) -> ps = l ++ tables A0 ->
  (forall s' A l', vstep ps s s' -> grown A0 l A l' -> vm s' [] (l' ++ tables A ++ h) -> (length (l' ++ tables A) <= 1025)%nat -> Q 0 s') ->
  (forall s' A l', vstep ps s s' -> grown A0 l A l' -> holds s' l' A h -> (forall v, as_ents A v = kernel_ents lk v) -> Q (as_dir A) s') ->
  wp (setupkvm_loop (as_dir A0) (kmap lk)) Q s.
Proof.
  intros H0 Himg Hz Eps Hfail Hdone. destruct (kmap_sizes lk Himg) as (Hdp & Eda & Ed & Es2 & Es3 & Eq2 & Eq3).
  set (dp := data_ lk / PGSIZE) in *.
  assert (forall A l', grown A0 l A l' -> l' ++ tables A ⊆ ps) as Hsub by (intros A l' (_ & _ & G) x; by rewrite Eps, G).
  unfold kmap. cbn [setupkvm_loop virt phys_start phys_end perm]. change (u32 (EXTMEM - 0)) with EXTMEM.
  apply (wp_segment s l A0 h) with (fl := 3) (ps := ps); try done; [intros v _; by rewrite Hz|by subst ps|by intros; eapply Hfail|].
  intros s1 A1 l1 V1 G1 H1 E1. replace (as_dir A0) with (as_dir A1) by apply G1. rewrite Es2. change (V2P KERNLINK) with EXTMEM.
  assert (forall f v0 k pa fl v, f v mod 2 = 0 -> (v < v0 \/ v0 + k <= v) -> map_ents f v0 k pa fl v mod 2 = 0) as Heven
    by (intros; by rewrite map_ents_out).
  apply (wp_segment s1 l1 A1 h) with (fl := 1) (ps := ps); try done.
  { replace (data_ lk - KERNLINK) with ((dp - 524544) * PGSIZE) by (unfold KERNLINK, KERNBASE, EXTMEM, PGSIZE; lia). apply Z.mod_mul. done. }
  { unfold KERNLINK, KERNBASE, EXTMEM. lia. }
  { lia. }
  { unfold KERNLINK, KERNBASE, EXTMEM. lia. }
  { intros v Hv. rewrite E1. apply Heven; [by rewrite Hz|]. change (KERNLINK / PGSIZE) with 524544 in Hv.
    change (KERNBASE / PGSIZE) with 524288. change (EXTMEM / PGSIZE) with 256. lia. }
  { by apply Hsub. }
  { intros s' V' Hv' Hb. apply (Hfail s' A1 l1); [by eapply vstep_trans|done|done|done]. }
  intros s2 A2 l2 V2 G2 H2 E2. replace (as_dir A1) with (as_dir A2) by apply G2. rewrite Es3, Ed.
  assert (vstep ps s s2) as V12 by by eapply vstep_trans. assert (grown A0 l A2 l2) as G12 by by eapply grown_trans.
  apply (wp_segment s2 l2 A2 h) with (fl := 3) (ps := ps); try done.
  { apply Himg. }
  { lia. }
  { replace (KERNBASE + PHYSTOP - data_ lk) with ((581632 - dp) * PGSIZE) by (unfold KERNBASE, PHYSTOP, PGSIZE; lia). apply Z.mod_mul. done. }
  { unfold KERNBASE, PHYSTOP. lia. }
  { unfold KERNBASE, PHYSTOP. lia. }
  { replace (data_ lk - KERNBASE) with ((dp - 524288) * PGSIZE) by (unfold KERNBASE, PGSIZE; lia). apply Z.mod_mul. done. }
  { unfold KERNBASE. lia. }
  { unfold KERNBASE, PHYSTOP. lia. }
  { intros v Hv. fold dp in Hv. rewrite E2. apply Heven; [rewrite E1; apply Heven; [by rewrite Hz|]|].
    - change (KERNBASE / PGSIZE) with 524288. change (EXTMEM / PGSIZE) with 256. lia.
    - change (KERNLINK / PGSIZE) with 524544. lia. }
  { by apply Hsub. }
  { intros s' V' Hv' Hb. apply (Hfail s' A2 l2); [by eapply vstep_trans|done|done|done]. }
  intros s3 A3 l3 V3 G3 H3 E3. replace (as_dir A2) with (as_dir A3) by apply G3.
  assert (vstep ps s s3) as V13 by by eapply vstep_trans. assert (grown A0 l A3 l3) as G13 by by eapply grown_trans.
  change (u32 (0 - DEVSPACE)) with 33554432.
  apply (wp_segment s3 l3 A3 h) with (fl := 3) (ps := ps); try done.
  { intros v Hv. fold dp in E3. change (DEVSPACE / PGSIZE) with 1040384 in Hv. change (33554432 / PGSIZE) with 8192 in Hv. rewrite E3.
    apply Heven; [rewrite E2; apply Heven; [rewrite E1; apply Heven; [by rewrite Hz|]|]|].
    - change (KERNBASE / PGSIZE) with 524288. change (EXTMEM / PGSIZE) with 256. lia.
    - change (KERNLINK / PGSIZE) with 524544. lia.
    - lia. }
  { by apply Hsub. }
  { intros s' V' Hv' Hb. apply (Hfail s' A3 l3); [by eapply vstep_trans|done|done|done]. }
  intros s4 A4 l4 V4 G4 H4 E4. replace (as_dir A3) with (as_dir A4) by apply G4.
  apply (Hdone s4 A4 l4); [by eapply vstep_trans|by eapply grown_trans|done|].
  intros v. rewrite E4. unfold kernel_ents, map_ents. change (33554432 / PGSIZE) with (2 ^ 20 - DEVSPACE / PGSIZE).
  destruct (_ && _); [done|]. rewrite E3. unfold map_ents. destruct (_ && _); [done|]. rewrite E2. unfold map_ents.
  destruct (_ && _); [done|]. rewrite E1. unfold map_ents. by destruct (_ && _); rewrite ?Hz.
Qed.

(** [setupkvm]: the kernel's mapping in tables of its own; or 0, and then no free page is
    left: the directory and the tables it had built are not given back. *)
Lemma wp_setupkvm s l h :
  vm s l h -> image_ok (k_link s) ->
  wp setupkvm (fun r s' => vstep l s s' /\
    ((r = 0 /\ vm s' [] (l ++ h) /\ (length l <= 1025)%nat) \/
     exists A l', as_dir A = r /\ r <> 0 /\ holds s' l' A h /\ l ≡ₚ l' ++ tables A /\
       forall v, as_ents A v = kernel_ents (k_link s) v)) s.
Proof.
  intros Hv (Hlk & Hda & Hd). unfold setupkvm. wcall (wp_kalloc s l h Hv). intros p s1 (V1 & M1 & Hp).
  destruct l as [|q l]; destruct Hp as [-> Hv1]; [split; [done|left; split; [done|]; split; [done|simpl; lia]]|].
  assert (page_ok (k_link s) q) as Hq by (eapply vm_page; [exact Hv|apply list_elem_of_here]).
  pose proof (proj1 (page_ok_nz _ _ Hlk Hq)) as Hqz. rewrite (proj2 (Z.eqb_neq q 0) Hqz). cbv iota.
  wcall (wp_memset s1 l _ q Hv1); [apply list_elem_of_here|]. intros _ s2 (V2 & Hv2 & M2).
  assert (vstep (q :: l) s s2) as V.
  { eapply vstep_trans; [exact (vstep_nil _ _ _ V1)|]. eapply vstep_mono; [exact V2|]. intros x ->%list_elem_of_singleton. apply list_elem_of_here. }
  set (A0 := mkAspace q ∅ (fun _ => 0)).
  assert (holds s2 l A0 h) as H0.
  { split; [exact Hv2|]. apply empty_space. intros j Hj. rewrite M2. apply load32_fill; unfold PGSIZE; lia. }
  change (DEVSPACE <? P2V PHYSTOP) with false. cbv iota. eapply wp_bind, wp_ok; [reflexivity|]. rewrite (vm_frame_link s s2) by apply V.
  set (Q := fun (r : Z) (s' : kst) => _). set (lk := k_link s) in *. set (ps := l ++ tables A0).
  assert (forall s' A l', vstep ps s2 s' -> grown A0 l A l' -> vm s' [] (l' ++ tables A ++ h) -> (length (l' ++ tables A) <= 1025)%nat -> Q 0 s') as Hfail.
  { intros s' A l' V' (_ & _ & G) Hv' Hbound. split; [eapply vstep_trans; [exact V|]; eapply vstep_mono; [exact V'|]; unfold ps; simpl; set_solver|].
    left. split; [done|]. assert (tables A0 = [q]) as Et by (unfold tables; simpl; by rewrite map_to_list_empty). rewrite Et in G. split.
    - eapply vm_perm; [exact Hv'|]. rewrite app_assoc, <- G, <- app_assoc. simpl. by rewrite <- Permutation_middle.
    - rewrite <- G, length_app in Hbound. simpl in *. lia. }
  assert (forall s' A l', vstep ps s2 s' -> grown A0 l A l' -> holds s' l' A h -> (forall v, as_ents A v = kernel_ents lk v) -> Q (as_dir A) s') as Hdone.
  { intros s' A l' V' (Ea & _ & G) Hv' He. split; [eapply vstep_trans; [exact V|]; eapply vstep_mono; [exact V'|]; unfold ps; simpl; set_solver|].
    right. exists A, l'. split; [done|]. split; [by rewrite Ea|]. split; [done|]. split; [|done]. rewrite <- G. unfold tables. simpl.
    rewrite map_to_list_empty. simpl. apply Permutation_cons_append. }
  clear V1 V2 V. change q with (as_dir A0). revert H0 Hfail Hdone. generalize s2. clear - Hlk Hda Hd.
  intros s2 H0 Hfail Hdone. by apply (wp_kmap s2 l A0 h lk Q ps).
Qed.
