(* ===== verification/VmUser.v ===== *)
(** * User memory: an address space as a list of pages

    The user part of an address space is the list of its pages, from page number 0 on,
    each with its flags. [allocuvm] extends the list, [deallocuvm] cuts it, [copyuvm]
    copies it and [freevm] gives everything back. *)

From S2P Require Import Prelude Params State Mem Strings Locks Printf Kalloc Vm Sched Policy Procs Uaccess Sleeplock VmSpec.
Import Spin.

(** ** The pages of a process *)

(** Page numbers below [KERNBASE]. *)
Definition UPAGES : Z := KERNBASE / PGSIZE.

Definition frames (fs : list (Z * Z)) : list Z := fst <$> fs.

(** The entry of page number [v]. *)
Definition uent (fs : list (Z * Z)) (v : Z) : Z :=
  match fs !! Z.to_nat v with Some (p, f) => V2P p + f | None => 0 end.

Definition flag_ok (f : Z) : Prop := 0 <= f < PGSIZE /\ f mod 2 = 1.

Definition user (A : aspace) (fs : list (Z * Z)) : Prop :=
  Forall (fun pf => flag_ok (snd pf)) fs /\ Z.of_nat (length fs) <= UPAGES /\
  forall v, 0 <= v < UPAGES -> as_ents A v = uent fs v.

(** The part above [KERNBASE] is the same. *)
Definition same_kernel (A A' : aspace) : Prop := forall v, UPAGES <= v -> as_ents A' v = as_ents A v.

Lemma uent_Some fs i p f : fs !! i = Some (p, f) -> uent fs (Z.of_nat i) = V2P p + f.
Proof. intros H. unfold uent. by rewrite Nat2Z.id, H. Qed.

Lemma uent_None fs v : Z.of_nat (length fs) <= v -> uent fs v = 0.
Proof. intros H. unfold uent. by rewrite (proj2 (lookup_ge_None fs (Z.to_nat v))) by lia. Qed.

(** A present entry: its parts. *)
Lemma uent_parts lk p f : link_ok lk -> page_ok lk p -> flag_ok f ->
  (V2P p + f) mod 2 = 1 /\ PTE_ADDR (V2P p + f) = V2P p /\ PTE_FLAGS (V2P p + f) = f /\ P2V (V2P p) = p /\ V2P p <> 0 /\ V2P p + f <> 0.
Proof.
  intros Hl Hp [Hf1 Hf2]. destruct (V2P_aligned lk p Hl Hp) as (Ha & Hr & HP). destruct (pte_parts (V2P p) f Ha Hf1) as (_ & E1 & E2).
  assert (V2P p mod 2 = 0) as E0. { unfold PGSIZE in Ha. Z.to_euclidean_division_equations. lia. }
  split; [by rewrite Zplus_mod, E0, Hf2|]. split; [done|]. split; [done|]. split; [done|]. split; lia.
Qed.

(** ** Giving pages back *)

Lemma page_of_index i : 0 <= i < UPAGES -> 0 <= PGSIZE * i < 2 ^ 32 /\ PGSIZE * i / PGSIZE = i /\ PGSIZE * (i + 1) <= KERNBASE.
Proof. intros Hi. change UPAGES with 524288 in Hi. rewrite Z.mul_comm, Z.div_mul by done. unfold PGSIZE, KERNBASE. lia. Qed.

(** Past the last page the loop of [deallocuvm] finds nothing, and stops. *)
Lemma dealloc_idle n s l A h i oldsz :
  holds s l A h -> 0 <= i -> oldsz <= KERNBASE -> oldsz <= PGSIZE * (i + Z.of_nat n) ->
  (forall v, i <= v < UPAGES -> as_ents A v = 0) ->
  deallocuvm_loop n (as_dir A) (PGSIZE * i) oldsz s = Ok tt s.
Proof.
  intros [Hv Hs] Hi Ho. revert i Hi. induction n as [|n IH]; intros i Hi Hn Hz; cbn [deallocuvm_loop].
  { rewrite (proj2 (Z.ltb_ge _ _)) by lia. done. }
  destruct (Z.ltb_spec (PGSIZE * i) oldsz) as [Hlt|Hge]; [|done]. cbv [negb].
  assert (0 <= i < UPAGES) as Hi2 by (change UPAGES with 524288; unfold KERNBASE, PGSIZE in *; lia).
  destruct (page_of_index i Hi2) as (Ha & Hd & Hk). change (2 ^ 32) with 4294967296 in *. unfold KERNBASE in *.
  rewrite (bind_ok _ _ _ _ _ (walk_get s l A h (PGSIZE * i) Hv Hs Ha)). unfold slot.
  destruct (as_tabs A !! PDX (PGSIZE * i)) as [t|] eqn:Et.
  - destruct (slot_read s l A h (PGSIZE * i) t Hv Hs Ha Et) as [Er Hnz]. rewrite (proj2 (Z.eqb_neq _ 0) Hnz). cbv iota.
    rewrite (bind_ok _ _ _ _ _ Er), Hd, Hz by lia. change (nz (Z.land 0 PTE_P)) with false. cbv iota. rewrite bind_ret.
    rewrite u32_small by (unfold is_u32, PGSIZE in *; lia). replace (PGSIZE * i + PGSIZE) with (PGSIZE * (i + 1)) by lia.
    apply IH; [lia|lia|]. intros v Hvv. apply Hz. lia.
  - change (0 =? 0) with true. cbv iota. change ((NPTENTRIES - 1) * PGSIZE) with 4190208.
    rewrite !u32_small by (unfold is_u32, PGSIZE in *; rewrite ?u32_small; unfold is_u32; lia).
    replace (PGSIZE * i + 4190208 + PGSIZE) with (PGSIZE * (i + 1024)) by (unfold PGSIZE; lia).
    apply IH; [lia|unfold PGSIZE in *; lia|]. intros v Hvv. apply Hz. lia.
Qed.

(** The entries while the pages from [n] on are being freed, up to [i]. *)
Definition cut_at (A : aspace) (fs : list (Z * Z)) (n i : nat) : Prop :=
  forall v, 0 <= v < UPAGES -> as_ents A v = if (Z.of_nat n <=? v) && (v <? Z.of_nat i) then 0 else uent fs v.

Lemma cut_done A fs n i : (length fs <= i)%nat -> cut_at A fs n i -> forall v, 0 <= v < UPAGES -> as_ents A v = uent (take n fs) v.
Proof.
  intros Hl Hc v Hv. rewrite (Hc v Hv). unfold uent. destruct (Z.leb_spec (Z.of_nat n) v); simpl.
  - rewrite (lookup_take_ge fs n) by lia. destruct (Z.ltb_spec v (Z.of_nat i)); [done|].
    by rewrite (proj2 (lookup_ge_None fs _)) by lia.
  - by rewrite lookup_take_lt by lia.
Qed.

(** The space after a page it does not use has been freed. *)
Lemma free_page s l A h p :
  holds s l A (p :: h) ->
  wp (kfree p) (fun _ s' => vstep [p] s s' /\ holds s' (p :: l) A h) s.
Proof.
  intros [Hv Hs]. assert (vm s l (p :: tables A ++ h)) as Hv1 by (eapply vm_perm; [exact Hv|]; by rewrite <- Permutation_middle).
  eapply wp_mono; [by apply (wp_kfree s l)|]. intros _ s' [V Hv']. split; [done|]. split; [done|].
  apply (space_untouched (k_link s) [p] (k_mem s)); [by eapply vm_tables|apply V| |done].
  intros x Hx ->%list_elem_of_singleton. destruct Hv1 as (_ & _ & Hn & _). apply list.NoDup_app in Hn as (_ & _ & Hn).
  apply list.NoDup_cons in Hn as [Hn _]. apply Hn, elem_of_app. by left.
Qed.

Lemma holds_perm s l A h h' : holds s l A h -> h ≡ₚ h' -> holds s l A h'.
Proof. intros [Hv Hs] Hp. split; [|done]. eapply vm_perm; [exact Hv|]. by rewrite Hp. Qed.

Lemma frames_app fs gs : frames (fs ++ gs) = frames fs ++ frames gs.
Proof. apply fmap_app. Qed.

(** One page taken out: the round of the loop for a mapped page, and what comes after it. *)
Lemma wp_drop_page s l A h p f i (none : K unit) (k : K unit) (Q : unit -> kst -> Prop) :
  holds s l A (p :: h) -> 0 <= i < UPAGES -> flag_ok f -> as_ents A i = V2P p + f ->
  (forall s2, vstep (p :: tables A) s s2 -> holds s2 (p :: l) (set_ent A i 0) h -> wp k Q s2) ->
  wp (pte <- walkpgdir (as_dir A) (PGSIZE * i) false ;;
      if pte =? 0 then none else
      e <- ld32 pte ;;
      (if nz (Z.land e PTE_P) then
         let pa := PTE_ADDR e in
         if pa =? 0 then panic "kfree" else
         kfree (P2V pa) ;; st32 pte 0
       else ret tt) ;; k) Q s.
Proof.
  intros Hh Hi Hf He Hk. pose proof Hh as [Hv Hs]. destruct (page_of_index i Hi) as (Ha & Hd & _).
  assert (page_ok (k_link s) p) as Hp.
  { eapply vm_page; [exact Hv|]. apply elem_of_app. right. apply elem_of_app. right. apply list_elem_of_here. }
  destruct (uent_parts (k_link s) p f) as (E1 & E2 & _ & E3 & E4 & E5); [by eapply vm_link|done|done|].
  eapply wp_bind, wp_ok; [by eapply walk_get|]. unfold slot.
  destruct (as_tabs A !! PDX (PGSIZE * i)) as [t|] eqn:Et.
  2:{ exfalso. apply E5. rewrite <- He. rewrite <- Hd at 1. by eapply ents_none. }
  destruct (slot_read s l A _ (PGSIZE * i) t Hv Hs Ha Et) as [Er Hnz]. rewrite (proj2 (Z.eqb_neq _ 0) Hnz). cbv iota.
  eapply wp_bind, wp_ok; [exact Er|]. rewrite Hd, He, land_P, E1. change (nz 1) with true. cbv iota zeta. rewrite E2, E3.
  rewrite (proj2 (Z.eqb_neq _ 0) E4). eapply wp_bind. wcall (free_page s l A h p Hh). intros _ s1 [V1 Hh1].
  eapply wp_mono; [apply (wp_set_ent s1 (p :: l) A h (PGSIZE * i) t 0 Hh1 Ha Et); unfold is_u32; lia|].
  intros _ s2 [V2 Hh2]. rewrite Hd in Hh2. apply Hk; [|done]. eapply vstep_trans; (eapply vstep_mono; [eassumption|]).
  - intros x ->%list_elem_of_singleton. apply list_elem_of_here.
  - intros x Hx. by apply list_elem_of_further.
Qed.

Lemma wp_dealloc_loop k s l A h fs n i oldsz :
  holds s l A (frames (take n fs ++ drop i fs) ++ h) -> Forall (fun pf => flag_ok (snd pf)) fs ->
  cut_at A fs n i -> (n <= i)%nat -> Z.of_nat (length fs) <= UPAGES -> oldsz <= KERNBASE ->
  PGSIZE * (Z.of_nat (length fs) - 1) < oldsz -> oldsz <= PGSIZE * (Z.of_nat i + Z.of_nat k) ->
  wp (deallocuvm_loop k (as_dir A) (PGSIZE * Z.of_nat i) oldsz) (fun _ s' =>
    vstep (frames (drop i fs) ++ tables A) s s' /\
    exists A', as_dir A' = as_dir A /\ as_tabs A' = as_tabs A /\ same_kernel A A' /\ user A' (take n fs) /\
      holds s' (rev (frames (drop i fs)) ++ l) A' (frames (take n fs) ++ h)) s.
Proof.
  intros Hh Hfl Hc Hni Hlen Ho Hcov Hk. revert s l A i Hh Hc Hni Hk.
  assert (PGSIZE = 4096 /\ KERNBASE = 2147483648 /\ UPAGES = 524288) as (HPG & HKB & HUP) by done.
  induction k as [|k IH]; intros s l A i Hh Hc Hni Hk; (destruct (decide (length fs <= i)%nat) as [Hge|Hlt]; [|apply Nat.nle_gt in Hlt]).
  1,3: (eapply wp_ok; [apply (dealloc_idle _ s l A _ (Z.of_nat i) oldsz Hh); try lia|]);
    [intros v Hv; rewrite (Hc v) by lia; (destruct (_ && _); [done|]); apply uent_None; lia|];
    (split; [apply vstep_refl|]); exists A; (split; [done|]); (split; [done|]); (split; [done|]);
    rewrite (drop_ge fs i) in * by lia; rewrite app_nil_r in Hh; split; [|done];
    (split; [by apply Forall_take|]); (split; [rewrite length_take; lia|]); by eapply cut_done.
  { exfalso. lia. }
  destruct (lookup_lt_is_Some_2 fs i Hlt) as [[p f] Hi]. pose proof (proj1 (Forall_lookup _ _) Hfl i _ Hi) as Hf. simpl in Hf.
  assert (as_ents A (Z.of_nat i) = V2P p + f) as Hent.
  { rewrite Hc by lia. rewrite (proj2 (Z.ltb_ge (Z.of_nat i) _)), andb_false_r by lia. by apply uent_Some. }
  rewrite (drop_S fs (p, f) i Hi) in *. change (frames ((p, f) :: drop (S i) fs)) with (p :: frames (drop (S i) fs)).
  cbn [deallocuvm_loop]. rewrite (proj2 (Z.ltb_lt _ _)) by lia. cbv [negb].
  apply (wp_drop_page s l A (frames (take n fs ++ drop (S i) fs) ++ h) p f); [|lia|done|done|].
  { eapply holds_perm; [exact Hh|]. rewrite !frames_app, <- !app_assoc.
    change (frames ((p, f) :: drop (S i) fs) ++ h) with (p :: frames (drop (S i) fs) ++ h). by rewrite <- Permutation_middle. }
  intros s2 V2 Hh2. rewrite u32_small by (unfold is_u32; lia).
  replace (PGSIZE * Z.of_nat i + PGSIZE) with (PGSIZE * Z.of_nat (S i)) by lia.
  change (as_dir A) with (as_dir (set_ent A (Z.of_nat i) 0)).
  eapply wp_mono; [apply (IH s2 (p :: l) (set_ent A (Z.of_nat i) 0) (S i) Hh2); [|lia|lia]|].
  - intros v Hv. simpl. rewrite (Hc v Hv). destruct (Z.eqb_spec v (Z.of_nat i)) as [->|Hne].
    + rewrite (proj2 (Z.leb_le _ _)), (proj2 (Z.ltb_lt _ _)) by lia. done.
    + destruct (Z.ltb_spec v (Z.of_nat i)), (Z.ltb_spec v (Z.of_nat (S i))); try done; lia.
  - intros _ s' (V3 & A' & E1 & E2 & E3 & E4 & E5). split.
    + eapply vstep_trans; (eapply vstep_mono; [eassumption|]); intros x; rewrite ?elem_of_cons, ?elem_of_app, ?elem_of_cons; tauto.
    + exists A'. split; [done|]. split; [done|]. split; [|split; [done|]].
      * intros v Hv. rewrite (E3 v Hv). simpl. rewrite (proj2 (Z.eqb_neq _ _)) by lia. done.
      * simpl. by rewrite <- app_assoc.
Qed.

(** The number of pages of a process of size [sz]. *)
Definition pages_of (sz : Z) : nat := Z.to_nat (PGROUNDUP sz / PGSIZE).

Lemma pages_of_spec sz :
  0 <= sz <= KERNBASE ->
  PGROUNDUP sz = PGSIZE * Z.of_nat (pages_of sz) /\ sz <= PGSIZE * Z.of_nat (pages_of sz) < sz + PGSIZE /\ Z.of_nat (pages_of sz) <= UPAGES.
Proof.
  intros Hs. destruct (PGROUNDUP_spec sz) as [Hm Hr]; [unfold KERNBASE, PGSIZE in *; lia|]. unfold pages_of.
  pose proof (page_div _ Hm) as Hd. change UPAGES with 524288. unfold KERNBASE, PGSIZE in *. rewrite Z2Nat.id by lia. lia.
Qed.

Lemma pages_of_mono a b : 0 <= a <= b -> b <= KERNBASE -> (pages_of a <= pages_of b)%nat.
Proof.
  intros Ha Hb. destruct (pages_of_spec a) as (_ & Ha2 & _); [lia|]. destruct (pages_of_spec b) as (_ & Hb2 & _); [lia|].
  unfold PGSIZE in *. lia.
Qed.

(** A process' memory: its space, its pages, and the other pages in use. *)
Definition uspace (s : kst) (l : list Z) (A : aspace) (fs : list (Z * Z)) (h : list Z) : Prop :=
  holds s l A (frames fs ++ h) /\ user A fs.

(** [deallocuvm] cuts the list of pages at the new size, and gives the rest back. The old
    size may be larger than the process. *)
Lemma wp_deallocuvm s l A fs h oldsz newsz :
  uspace s l A fs h -> 0 <= newsz < oldsz -> oldsz <= KERNBASE -> PGSIZE * (Z.of_nat (length fs) - 1) < oldsz ->
  let n := pages_of newsz in
  wp (deallocuvm (as_dir A) oldsz newsz) (fun r s' =>
    r = newsz /\ vstep (frames (drop n fs) ++ tables A) s s' /\
    exists A', as_dir A' = as_dir A /\ as_tabs A' = as_tabs A /\ same_kernel A A' /\
      uspace s' (rev (frames (drop n fs)) ++ l) A' (take n fs) h) s.
Proof.
  intros [Hh (Hf & Hl & He)] Hn Ho Hc n. unfold deallocuvm. rewrite (proj2 (Z.leb_gt _ _)) by lia.
  destruct (pages_of_spec newsz) as (E1 & E2 & E3); [lia|]. fold n in E1, E2, E3. rewrite E1.
  wcall (wp_dealloc_loop (Z.to_nat ((oldsz - PGSIZE * Z.of_nat n) / PGSIZE + 1)) s l A h fs n n oldsz); try done.
  - by rewrite take_drop.
  - intros v Hv. rewrite (He v Hv). destruct (Z.leb_spec (Z.of_nat n) v), (Z.ltb_spec v (Z.of_nat n)); try done; lia.
  - pose proof (Z.div_mod (oldsz - PGSIZE * Z.of_nat n) PGSIZE). pose proof (Z.mod_pos_bound (oldsz - PGSIZE * Z.of_nat n) PGSIZE).
    unfold PGSIZE in *. lia.
  - intros _ s' (V & A' & H1 & H2 & H3 & H4 & H5). split; [done|]. split; [done|]. by exists A'.
Qed.

(** ** Growing *)

(** A page of zeroes. *)
Definition zeroed (m : mem) (p : Z) : Prop := forall x, V2P p <= x < V2P p + PGSIZE -> m x = 0.

Lemma untouched_zeroed lk ps m m' p : untouched lk ps m m' -> page_ok lk p -> p ∉ ps -> zeroed m p -> zeroed m' p.
Proof. intros Hu Hp Hn Hz x Hx. rewrite <- (Hu p Hp Hn x Hx). by apply Hz. Qed.

(** A mapped page at the end of the list. *)
Lemma user_snoc A A' fs p f :
  user A fs -> Z.of_nat (length fs) < UPAGES -> flag_ok f ->
  (forall v, as_ents A' v = map_ents (as_ents A) (Z.of_nat (length fs)) 1 (V2P p) f v) -> user A' (fs ++ [(p, f)]) /\ same_kernel A A'.
Proof.
  intros (Hf & Hl & He) Hlt Hfl H. split.
  - split; [apply Forall_app; split; [done|by constructor]|]. split; [rewrite length_app; simpl; lia|].
    intros v Hv. rewrite H. unfold uent. destruct (decide (v = Z.of_nat (length fs))) as [->|Hne].
    + rewrite map_ents_in, Nat2Z.id by lia. rewrite lookup_app_r, Nat.sub_diag by lia. simpl. lia.
    + rewrite map_ents_out by lia. rewrite (He v Hv). unfold uent. destruct (decide (v < Z.of_nat (length fs))).
      * rewrite lookup_app_l by lia. done.
      * rewrite (proj2 (lookup_ge_None fs _)) by lia. rewrite (proj2 (lookup_ge_None (fs ++ _) _)); [done|]. rewrite length_app. simpl. lia.
  - intros v Hv. rewrite H. apply map_ents_out. lia.
Qed.

Lemma user_same A A' fs : user A fs -> (forall v, as_ents A' v = as_ents A v) -> user A' fs /\ same_kernel A A'.
Proof. intros (H1 & H2 & H3) H. split; [|by intros v _]. split; [done|]. split; [done|]. intros v Hv. rewrite H. by apply H3. Qed.

(** The page [q] mapped after the last one; or no page is left for a table. *)
Lemma wp_map_end s l A fs h q perm :
  holds s l A (q :: frames fs ++ h) -> user A fs -> Z.of_nat (length fs) < UPAGES -> flag_ok (Z.lor perm PTE_P) ->
  wp (mappages (as_dir A) (PGSIZE * Z.of_nat (length fs)) PGSIZE (V2P q) perm) (fun r s' =>
    vstep (l ++ tables A) s s' /\
    exists A' l', grown A l A' l' /\ same_kernel A A' /\
      ((r = 0 /\ uspace s' l' A' (fs ++ [(q, Z.lor perm PTE_P)]) h) \/
       (r = -1 /\ l' = [] /\ holds s' [] A' (q :: frames fs ++ h) /\ user A' fs))) s.
Proof.
  intros Hh Hu Hlt Hfl. destruct (page_of_index (Z.of_nat (length fs))) as (Ha & Hd & Hk); [lia|].
  assert (page_ok (k_link s) q) as Hq.
  { eapply vm_page; [apply Hh|]. apply elem_of_app. right. apply elem_of_app. right. apply list_elem_of_here. }
  destruct (V2P_aligned (k_link s) q) as (Hqa & Hqr & _); [eapply vm_link; apply Hh|done|].
  eapply wp_mono; [apply (wp_mappages 0 s l A (q :: frames fs ++ h) (PGSIZE * Z.of_nat (length fs)) (V2P q) perm Hh)|];
    try (done || lia || apply Hfl || (unfold PGSIZE in *; lia)).
  - rewrite Z.mul_comm. by apply Z.mod_mul.
  - intros v Hv. rewrite Hd in Hv. simpl in Hv. replace v with (Z.of_nat (length fs)) by lia. destruct Hu as (_ & _ & He).
    rewrite He, uent_None by lia. done.
  - intros r s' (V & A' & l' & k & G & Hh' & He & Hr). split; [done|]. exists A', l'. split; [done|]. rewrite Hd in He.
    destruct Hr as [[-> ->]|(-> & -> & Hk0)].
    + destruct (user_snoc A A' fs q (Z.lor perm PTE_P) Hu Hlt Hfl He) as [Hu' Hsk]. split; [done|]. left. split; [done|].
      split; [|done]. eapply holds_perm; [exact Hh'|]. rewrite frames_app, <- app_assoc. simpl. by rewrite <- Permutation_middle.
    + destruct (user_same A A' fs Hu) as [Hu' Hsk]; [intros v; rewrite He; apply map_ents_out; simpl in Hk0; lia|].
      split; [done|]. right. done.
Qed.

(** What [allocuvm] leaves: the pages [fs0] and new zeroed ones; or, when memory runs out,
    [fs0] alone. *)
Definition grown_to (s : kst) (l : list Z) (A : aspace) (fs0 fs : list (Z * Z)) (h : list Z) (newsz r : Z) (s' : kst) : Prop :=
  exists A' l', as_dir A' = as_dir A /\ as_tabs A ⊆ as_tabs A' /\ same_kernel A A' /\
  ((exists ps, r = newsz /\ vstep (l ++ tables A) s s' /\
      uspace s' l' A' (fs ++ ((fun p => (p, 7)) <$> ps)) h /\ length (fs ++ ((fun p => (p, 7)) <$> ps)) = pages_of newsz /\
      Forall (zeroed (k_mem s')) ps /\ l ++ tables A ≡ₚ l' ++ tables A' ++ ps) \/
   (r = 0 /\ vstep (l ++ tables A ++ frames (drop (length fs0) fs)) s s' /\ uspace s' l' A' fs0 h /\
      l ++ tables A ++ frames (drop (length fs0) fs) ≡ₚ l' ++ tables A')).

(** A page from the pool, next to a space; and a page cleared. *)
Lemma take_page s l A h :
  holds s l A h ->
  wp kalloc (fun p s' => vstep [] s s' /\ k_mem s' = k_mem s /\
    match l with [] => p = 0 /\ holds s' [] A h | q :: l' => p = q /\ q <> 0 /\ page_ok (k_link s) q /\ holds s' l' A (q :: h) end) s.
Proof.
  intros [Hv Hs]. eapply wp_mono; [by apply (wp_kalloc s l)|]. intros p s' (V & M & Hp). split; [done|]. split; [done|].
  destruct l as [|q l]; destruct Hp as [-> Hv']; [split; [done|]; split; [done|by rewrite M]|].
  assert (page_ok (k_link s) q) as Hq by (eapply vm_page; [exact Hv|apply list_elem_of_here]).
  split; [done|]. split; [by apply (page_ok_nz (k_link s)); [eapply vm_link|]|]. split; [done|]. split; [|by rewrite M].
  eapply vm_perm; [exact Hv'|]. by rewrite <- Permutation_middle.
Qed.

Lemma not_table s l A q h : holds s l A (q :: h) -> q ∉ tables A /\ q ∉ l /\ q ∉ h.
Proof.
  intros [(_ & _ & Hn & _) _]. apply list.NoDup_app in Hn as (_ & Hd & Hn). split; [|split].
  - intros Hq. apply list.NoDup_app in Hn as (_ & Hn & _). apply (Hn q Hq), list_elem_of_here.
  - intros Hq. apply (Hd q Hq), elem_of_app. right. apply list_elem_of_here.
  - apply list.NoDup_app in Hn as (_ & _ & Hn). by apply list.NoDup_cons in Hn as [Hn _].
Qed.

Lemma clear_page s l A h q :
  holds s l A (q :: h) ->
  wp (memset_k q 0 PGSIZE) (fun _ s' => vstep [q] s s' /\ holds s' l A (q :: h) /\ zeroed (k_mem s') q) s.
Proof.
  intros Hh. pose proof Hh as [Hv Hs]. eapply wp_mono; [apply (wp_memset s l _ q Hv)|].
  - apply elem_of_app. right. apply list_elem_of_here.
  - intros _ s' (V & Hv' & M). split; [done|]. split; [split; [done|]|].
    + apply (space_untouched (k_link s) [q] (k_mem s)); [by eapply vm_tables|apply V| |done].
      intros x Hx ->%list_elem_of_singleton. destruct (not_table s l A q h Hh). done.
    + intros x Hx. rewrite M. by apply fill_in.
Qed.

(** Printing changes nothing here. *)
Lemma holds_out s l A h o : holds s l A h -> holds (s <| k_out := o |>) l A h.
Proof. done. Qed.

Lemma vstep_out ps s o : vstep ps s (s <| k_out := o |>).
Proof. split; [|by intros q _ _ x _]. exists (k_mem s), (k_kmem s), o. by destruct s. Qed.

Lemma wp_alloc_fail s l A fs0 fs h newsz oldsz s1 l1 A1 :
  fs0 `prefix_of` fs -> length fs0 = pages_of oldsz -> 0 <= oldsz <= newsz -> newsz < KERNBASE -> (length fs <= pages_of newsz)%nat ->
  (length fs < pages_of newsz)%nat ->
  grown A l A1 l1 -> same_kernel A A1 -> vstep (l ++ tables A) s s1 -> uspace s1 l1 A1 fs h ->
  wp (deallocuvm (as_dir A1) newsz oldsz) (fun _ s' => exists A' l', as_dir A' = as_dir A /\ as_tabs A ⊆ as_tabs A' /\ same_kernel A A' /\
    vstep (l ++ tables A ++ frames (drop (length fs0) fs)) s s' /\ uspace s' l' A' fs0 h /\
    l ++ tables A ++ frames (drop (length fs0) fs) ≡ₚ l' ++ tables A') s1.
Proof.
  intros [gs ->] Hn Ho Hk Hle Hlt (Ga & Gb & Gc) Hsk V Hu.
  destruct (pages_of_spec newsz) as (_ & P1 & _); [lia|]. destruct (pages_of_spec oldsz) as (_ & P2 & _); [lia|].
  assert (oldsz < newsz) as Hsz. { destruct (decide (oldsz = newsz)) as [->|]; [rewrite length_app in Hlt; lia|lia]. }
  eapply wp_mono; [apply (wp_deallocuvm s1 l1 A1 _ h newsz oldsz Hu); [lia|lia|unfold PGSIZE in *; lia]|].
  rewrite <- Hn. intros r s' (_ & V2 & A' & E1 & E2 & E3 & Hu').
  rewrite !drop_app_length, take_app_length in *. exists A', (rev (frames gs) ++ l1).
  split; [congruence|]. split; [by rewrite E2|]. split; [intros v Hv; rewrite (E3 v Hv); by apply Hsk|]. split; [|split; [done|]].
  - eapply vstep_trans; (eapply vstep_mono; [eassumption|]).
    + intros x. rewrite !elem_of_app. tauto.
    + intros x. rewrite !elem_of_app. intros [Hx|Hx]; [tauto|].
      assert (x ∈ l ++ tables A) as Hin by (rewrite Gc; apply elem_of_app; by right). apply elem_of_app in Hin. tauto.
  - assert (tables A' = tables A1) as -> by (unfold tables; by rewrite E1, E2).
    rewrite app_assoc, Gc, <- Permutation_rev, <- (app_assoc (frames gs)). apply Permutation_app_comm.
Qed.

(** The outcome after one more page, seen from before it. *)
Lemma grown_more s q l A fs0 fs h newsz s2 s3 l3 A3 r s' :
  fs0 `prefix_of` fs -> holds s2 l A (q :: frames fs ++ h) -> page_ok (k_link s) q -> zeroed (k_mem s2) q ->
  vstep [q] s s2 -> vstep (l ++ tables A) s2 s3 -> grown A l A3 l3 -> same_kernel A A3 ->
  grown_to s3 l3 A3 fs0 (fs ++ [(q, 7)]) h newsz r s' -> grown_to s (q :: l) A fs0 fs h newsz r s'.
Proof.
  intros [gs ->] Hh2 Hq Hz V2 V3 (Ga & Gb & Gc) K3 (A' & l' & E1 & E2 & E3 & Hr). destruct (not_table _ _ _ _ _ Hh2) as (Hn1 & Hn2 & Hn3).
  assert (forall x, x ∈ l3 ++ tables A3 -> x ∈ l ++ tables A) as Hin by (intros x; by rewrite Gc).
  exists A', l'. split; [congruence|]. split; [by etrans|]. split; [intros v Hv; rewrite (E3 v Hv); by apply K3|].
  destruct Hr as [(ps & -> & V4 & Hu & Hlen & Hzs & Hperm)|(-> & V4 & Hu & Hperm)]; [left; exists (q :: ps)|right].
  - assert (vstep (l ++ tables A) s2 s') as V24 by (eapply vstep_trans; [exact V3|]; by eapply vstep_mono).
    split; [done|]. split; [|rewrite <- app_assoc in Hu, Hlen; split; [exact Hu|split; [exact Hlen|split]]].
    + eapply vstep_trans; (eapply vstep_mono; [eassumption|]); intros x; rewrite ?list_elem_of_singleton, ?elem_of_cons, ?elem_of_app, ?elem_of_cons; tauto.
    + constructor; [|done]. eapply untouched_zeroed; [apply V24|by rewrite (vm_frame_link s s2) by apply V2| |done].
      rewrite elem_of_app. tauto.
    + change ((q :: l) ++ tables A) with (q :: (l ++ tables A)). rewrite Gc, Hperm, !app_assoc. apply Permutation_middle.
  - rewrite !drop_app_length in *. rewrite <- app_assoc, drop_app_length, frames_app in V4, Hperm. split; [done|]. split; [|split; [done|]].
    + eapply vstep_trans; [eapply vstep_mono; [exact V2|]|eapply vstep_trans; [eapply vstep_mono; [exact V3|]|eapply vstep_mono; [exact V4|]]];
        intros x; rewrite ?list_elem_of_singleton, ?elem_of_cons, ?elem_of_app, ?elem_of_cons; try tauto.
      intros Hx. assert (x ∈ l3 ++ tables A3 \/ x ∈ frames gs \/ x = q) as [Hx'%Hin|[Hx'|Hx']].
      { rewrite elem_of_app. simpl in Hx. rewrite list_elem_of_singleton in Hx. tauto. }
      all: rewrite ?elem_of_app in Hx'; tauto.
    + rewrite <- Hperm, !app_assoc, <- Gc. change (frames [(q, 7)]) with [q]. change ((q :: l) ++ tables A) with (q :: (l ++ tables A)).
      rewrite <- (Permutation_middle _ [] q), app_nil_r. done.
Qed.

Lemma wp_alloc_loop k s l A fs0 fs h newsz oldsz :
  uspace s l A fs h -> fs0 `prefix_of` fs -> length fs0 = pages_of oldsz -> 0 <= oldsz <= newsz -> newsz < KERNBASE ->
  (length fs <= pages_of newsz)%nat -> (pages_of newsz <= length fs + k)%nat ->
  wp (allocuvm_loop k (as_dir A) (PGSIZE * Z.of_nat (length fs)) newsz oldsz) (grown_to s l A fs0 fs h newsz) s.
Proof.
  intros Hu Hpre Hn Ho Hk. destruct (pages_of_spec newsz) as (_ & P1 & P2); [lia|].
  revert s l A fs Hu Hpre. induction k as [|k IH]; intros s l A fs Hu Hpre Hle Hfuel; cbn [allocuvm_loop];
    (destruct (decide (length fs = pages_of newsz)) as [Heq|Hne];
     [rewrite (proj2 (Z.ltb_ge _ _)) by lia; cbv [negb]|rewrite (proj2 (Z.ltb_lt _ _)) by (unfold PGSIZE in *; lia); cbv [negb]]).
  1,3: exists A, l; (split; [done|]); (split; [done|]); (split; [done|]); left; exists []; simpl; rewrite !app_nil_r;
    (split; [done|]); (split; [apply vstep_refl|]); done.
  { lia. }
  pose proof Hu as [Hh Huser]. wcall (take_page s l A _ Hh). intros p s1 (V1 & M1 & Hp). destruct l as [|q l].
  { destruct Hp as [-> Hh1]. change (0 =? 0) with true. cbv iota.
    destruct (cprintf_plain (str "allocuvm out of memory" ++ [10]) s1) as [o Eo]; [by repeat constructor|apply Hh1|].
    eapply wp_bind, wp_ok; [exact Eo|]. wcall (wp_alloc_fail s [] A fs0 fs h newsz oldsz (s1 <| k_out := o |>) [] A Hpre Hn); try done; [lia| |].
    - eapply vstep_trans; [exact (vstep_nil _ _ _ V1)|apply vstep_out].
    - intros _ s2 (A' & l' & E1 & E2 & E3 & E4). exists A', l'. split; [done|]. split; [done|]. split; [done|]. right. done. }
  destruct Hp as (-> & Hqz & Hq & Hh1). rewrite (proj2 (Z.eqb_neq q 0) Hqz). cbv iota.
  wcall (clear_page s1 l A _ q Hh1). intros _ s2 (V2 & Hh2 & Z2).
  wcall (wp_map_end s2 l A fs h q (Z.lor PTE_W PTE_U) Hh2 Huser); [unfold PGSIZE in *; lia|by split|].
  assert (vstep [q] s s2) as V12 by (eapply vstep_trans; [exact (vstep_nil _ _ _ V1)|done]).
  intros r s3 (V3 & A3 & l3 & G3 & K3 & [[-> Hu3]|(-> & -> & Hh3 & Hu3)]).
  - change (0 <? 0) with false. cbv iota. replace (u32 (PGSIZE * Z.of_nat (length fs) + PGSIZE)) with (PGSIZE * Z.of_nat (length (fs ++ [(q, 7)]))).
    2:{ rewrite length_app, u32_small by (unfold is_u32, PGSIZE, KERNBASE in *; lia). simpl. lia. }
    replace (as_dir A) with (as_dir A3) by apply G3.
    eapply wp_mono; [apply (IH s3 l3 A3 (fs ++ [(q, 7)]) Hu3); [by apply prefix_app_r|rewrite length_app; simpl; lia..]|].
    intros r s' Hr. by eapply grown_more.
  - change (-1 <? 0) with true. cbv iota.
    destruct (cprintf_plain (str "allocuvm out of memory (2)" ++ [10]) s3) as [o Eo]; [by repeat constructor|apply Hh3|].
    eapply wp_bind, wp_ok; [exact Eo|]. replace (as_dir A) with (as_dir A3) by apply G3.
    assert (uspace (s3 <| k_out := o |>) [] A3 fs (q :: h)) as Hu4.
    { split; [|done]. eapply holds_perm; [apply (holds_out s3 [] A3 _ o Hh3)|]. by rewrite Permutation_middle. }
    wcall (wp_alloc_fail s2 l A fs0 fs (q :: h) newsz oldsz (s3 <| k_out := o |>) [] A3 Hpre Hn); try done; [lia| |].
    { eapply vstep_trans; [exact V3|apply vstep_out]. }
    intros _ s4 (A' & l' & E1 & E2 & E3 & V4 & [Hh4 Hu5] & E4). eapply wp_bind.
    eapply wp_mono; [apply (free_page s4 l' A' (frames fs0 ++ h) q); eapply holds_perm; [exact Hh4|]; by rewrite <- Permutation_middle|].
    intros _ s5 [V5 Hh5]. exists A', (q :: l'). split; [done|]. split; [done|]. split; [done|]. right. split; [done|]. split; [|split; [done|]].
    + eapply vstep_trans; [eapply vstep_mono; [exact V12|]|eapply vstep_trans; [eapply vstep_mono; [exact V4|]|eapply vstep_mono; [exact V5|]]];
        intros x; rewrite ?list_elem_of_singleton, ?elem_of_cons, ?elem_of_app, ?elem_of_cons; tauto.
    + simpl. by rewrite E4.
Qed.

(** ** What the process sees *)

(** The byte at user address [va] under a page directory. *)
Definition view (m : mem) (dir va : Z) : option Z := m <$> translate m (V2P dir) va.

Lemma pte_of_space s l A h va :
  holds s l A h -> 0 <= va < 2 ^ 32 -> pte_of (k_mem s) (V2P (as_dir A)) va = as_ents A (va / PGSIZE).
Proof.
  intros [Hv [Hk Hs]] Hva. destruct (PDX_spec va Hva) as [_ Hi]. destruct (PTX_spec va) as [_ Hj]. rewrite <- page_number by done.
  unfold pte_of. specialize (Hs _ Hi). destruct (as_tabs A !! PDX va) as [t|] eqn:Et.
  - destruct Hs as [-> Hs]. assert (page_ok (k_link s) t) as Ht by by eapply tab_page.
    destruct (uent_parts (k_link s) t 7) as (E1 & E2 & _); [by eapply vm_link|done|by split|].
    rewrite land_P, E1, E2. change (nz 1) with true. cbv iota. by apply Hs.
  - destruct Hs as [E Hs]. rewrite land_P, E. change (nz 0) with false. cbv iota. by rewrite Hs.
Qed.

Lemma uframe_page s l A fs h i p f : uspace s l A fs h -> fs !! i = Some (p, f) -> page_ok (k_link s) p /\ p ∈ frames fs.
Proof.
  intros [[Hv _] _] Hi. assert (p ∈ frames fs) as Hin. { apply list_elem_of_fmap. exists (p, f). split; [done|]. by eapply list_elem_of_lookup_2. }
  split; [|done]. eapply vm_page; [exact Hv|]. rewrite !elem_of_app. tauto.
Qed.

Lemma view_uspace s l A fs h va :
  uspace s l A fs h -> 0 <= va < KERNBASE ->
  view (k_mem s) (as_dir A) va =
  match fs !! Z.to_nat (va / PGSIZE) with Some (p, _) => Some (k_mem s (V2P p + va mod PGSIZE)) | None => None end.
Proof.
  intros Hu Hva. pose proof Hu as [Hh (Hf & Hl & He)]. unfold view, translate.
  assert (0 <= va / PGSIZE < UPAGES) as Hp. { change UPAGES with 524288. unfold KERNBASE, PGSIZE in *. Z.to_euclidean_division_equations. lia. }
  rewrite (pte_of_space s l A (frames fs ++ h)) by (done || unfold KERNBASE in *; lia). rewrite He by done. unfold uent.
  destruct (fs !! Z.to_nat (va / PGSIZE)) as [[p f]|] eqn:Ei; [|done].
  destruct (uframe_page s l A fs h _ _ _ Hu Ei) as [Hpo _].
  destruct (uent_parts (k_link s) p f) as (E1 & E2 & _);
    [eapply vm_link; apply Hh|done|exact (proj1 (Forall_lookup _ _) Hf _ _ Ei)|].
  rewrite land_P, E1, E2. done.
Qed.

(** Pages in use that a step does not touch read the same. *)
Lemma frames_kept s l A fs h ps s' :
  uspace s l A fs h -> vstep ps s s' -> ps ⊆ l ++ tables A -> Forall (fun p => agree (k_mem s) (k_mem s') (V2P p) PGSIZE) (frames fs ++ h).
Proof.
  intros [[Hv _] _] [_ V] Hps. apply list.Forall_forall. intros p Hp. apply V.
  - eapply vm_page; [exact Hv|]. rewrite !elem_of_app in *. tauto.
  - intros Hin%Hps. destruct Hv as (_ & _ & Hn & _). rewrite app_assoc in Hn. apply list.NoDup_app in Hn as (_ & Hn & _). by apply (Hn p).
Qed.

(** Two spaces with the same pages in the same places, unchanged, are the same to the process. *)
Lemma view_kept s l A fs h s' l' A' h' va :
  uspace s l A fs h -> uspace s' l' A' fs h' -> Forall (fun p => agree (k_mem s) (k_mem s') (V2P p) PGSIZE) (frames fs) -> 0 <= va < KERNBASE ->
  view (k_mem s') (as_dir A') va = view (k_mem s) (as_dir A) va.
Proof.
  intros Hu Hu' Ha Hva. rewrite (view_uspace s l A fs h), (view_uspace s' l' A' fs h') by done.
  destruct (fs !! _) as [[p f]|] eqn:Ei; [|done]. f_equal. symmetry. apply (proj1 (list.Forall_forall _ _) Ha p).
  - by eapply uframe_page.
  - pose proof (Z.mod_pos_bound va PGSIZE). unfold PGSIZE in *. lia.
Qed.

(** ** Freeing a space *)

(** [for(i = 0; i < NPDENTRIES; i++) if(pgdir[i] & PTE_P) kfree(...)]. *)
Lemma wp_free_tables ks s l A h :
  vm s l (tabs_at A ks ++ as_dir A :: h) -> (forall i, i ∈ ks -> 0 <= i < 1024) ->
  (forall i, i ∈ ks -> match as_tabs A !! i with
     | Some t => load32 (k_mem s) (V2P (as_dir A) + 4 * i) = V2P t + 7
     | None => load32 (k_mem s) (V2P (as_dir A) + 4 * i) mod 2 = 0 end) ->
  wp (for_each ks (fun i => e <- ld32 (as_dir A + 4 * i) ;; when (nz (Z.land e PTE_P)) (kfree (P2V (PTE_ADDR e)))))
    (fun _ s' => vstep (tabs_at A ks) s s' /\ vm s' (rev (tabs_at A ks) ++ l) (as_dir A :: h)) s.
Proof.
  revert s l. induction ks as [|i ks IH]; intros s l Hv Hr Hd; cbn [for_each]; [split; [apply vstep_refl|done]|].
  assert (page_ok (k_link s) (as_dir A)) as Hdir by (eapply vm_page; [exact Hv|]; rewrite !elem_of_app, elem_of_cons; tauto).
  pose proof (Hr i (list_elem_of_here _ _)) as Hi. specialize (Hd i (list_elem_of_here _ _)) as Hdi.
  assert (ld32 (as_dir A + 4 * i) s = Ok (load32 (k_mem s) (V2P (as_dir A) + 4 * i)) s) as El.
  { rewrite ld32_run, (V2P_in (k_link s)); [done|by eapply vm_link|done|unfold PGSIZE; lia]. }
  unfold tabs_at in *. simpl in *. destruct (as_tabs A !! i) as [t|] eqn:Et; simpl in *.
  - assert (page_ok (k_link s) t) as Ht by (eapply vm_page; [exact Hv|]; rewrite elem_of_app, elem_of_cons; tauto).
    destruct (uent_parts (k_link s) t 7) as (E1 & E2 & _ & E3 & _); [by eapply vm_link|done|by split|].
    eapply wp_bind, wp_bind, wp_ok; [exact El|]. rewrite Hdi, land_P, E1, E2, E3. change (nz 1) with true. cbv [when].
    eapply wp_mono; [apply (wp_kfree s l _ t Hv)|]. intros _ s1 [V1 Hv1].
    assert (t ∉ (omap (fun i => as_tabs A !! i) ks ++ as_dir A :: h)) as Hnt.
    { destruct Hv as (_ & _ & Hn & _). apply list.NoDup_app in Hn as (_ & _ & Hn). by apply list.NoDup_cons in Hn as [Hn _]. }
    eapply wp_mono; [apply (IH s1 (t :: l) Hv1)|].
    + intros j Hj. apply Hr. by apply list_elem_of_further.
    + intros j Hj. specialize (Hd j (list_elem_of_further _ _ _ Hj)). pose proof (Hr j (list_elem_of_further _ _ _ Hj)).
      assert (load32 (k_mem s1) (V2P (as_dir A) + 4 * j) = load32 (k_mem s) (V2P (as_dir A) + 4 * j)) as ->; [|done].
      symmetry. apply load32_agree. intros x Hx. apply (proj2 V1 (as_dir A)); [done| |unfold PGSIZE; lia].
      intros E%list_elem_of_singleton. apply Hnt. rewrite elem_of_app, elem_of_cons. rewrite E. tauto.
    + intros _ s' [V2 Hv2]. split; [|by rewrite <- app_assoc].
      eapply vstep_trans; (eapply vstep_mono; [eassumption|]); intros x; rewrite ?list_elem_of_singleton, ?elem_of_cons; tauto.
  - eapply wp_bind, wp_bind, wp_ok; [exact El|]. rewrite land_P, Hdi. change (nz 0) with false. cbv [when].
    apply (wp_ok _ _ _ tt s); [done|]. apply (IH s l Hv); intros j Hj; [apply Hr|apply Hd]; by apply list_elem_of_further.
Qed.

(** [freevm] gives back the pages of the process, its tables and its directory. *)
Lemma wp_freevm s l A fs h :
  uspace s l A fs h ->
  wp (freevm (as_dir A)) (fun _ s' => vstep (frames fs ++ tables A) s s' /\
    exists l', l' ≡ₚ l ++ tables A ++ frames fs /\ vm s' l' h) s.
Proof.
  intros Hu. pose proof Hu as [[Hv _] (_ & Hlen & _)].
  assert (page_ok (k_link s) (as_dir A)) as Hd by by eapply dir_page.
  unfold freevm. rewrite (proj2 (Z.eqb_neq _ 0) (proj1 (page_ok_nz _ _ (vm_link _ _ _ Hv) Hd))).
  wcall (wp_deallocuvm s l A fs h KERNBASE 0 Hu); [done|done|unfold KERNBASE, PGSIZE; change UPAGES with 524288 in Hlen; lia|].
  change (pages_of 0) with 0%nat. rewrite drop_0, take_0. intros _ s1 (_ & V1 & A1 & E1 & E2 & _ & [[Hv1 Hs1] _]).
  assert (tables A1 = tables A) as Et by (unfold tables; by rewrite E1, E2).
  set (l1 := rev (frames fs) ++ l) in *. change (frames [] ++ h) with h in Hv1.
  pose proof (tabs_at_all _ _ Hs1) as Htabs. rewrite <- E1.
  wcall (wp_free_tables indices s1 l1 A1 h).
  { eapply vm_perm; [exact Hv1|]. unfold tables. rewrite Htabs, <- app_comm_cons. apply Permutation_middle. }
  { intros i. apply elem_of_indices. }
  { intros i Hi%elem_of_indices. destruct Hs1 as [_ Hs1]. specialize (Hs1 i Hi). destruct (as_tabs A1 !! i); apply Hs1. }
  intros _ s2 [V2 Hv2]. eapply wp_mono; [apply (wp_kfree s2 _ h (as_dir A1) Hv2)|]. intros _ s3 [V3 Hv3].
  assert (forall x, x ∈ tabs_at A1 indices -> x ∈ tables A) as Hsub.
  { intros x Hx. rewrite <- Et. unfold tables. rewrite Htabs. by apply list_elem_of_further. }
  split.
  - eapply vstep_trans; [exact V1|]. eapply vstep_trans; (eapply vstep_mono; [eassumption|]); intros x; rewrite ?list_elem_of_singleton, elem_of_app.
    + intros Hx. right. by apply Hsub.
    + intros ->. right. rewrite E1. apply dir_tables.
  - eexists. split; [|exact Hv3]. rewrite <- Et. unfold tables. rewrite Htabs, <- !Permutation_rev. unfold l1. rewrite <- Permutation_rev, <- app_comm_cons.
    rewrite <- Permutation_middle. constructor. rewrite (app_assoc _ (frames fs) l). rewrite Permutation_app_comm.
    apply Permutation_app_head. done.
Qed.

(** ** Copying a space *)

(** The same page, in a copy. *)
Definition copied (m : mem) (pf qg : Z * Z) : Prop :=
  snd qg = snd pf /\ forall o, 0 <= o < PGSIZE -> m (V2P (fst qg) + o) = m (V2P (fst pf) + o).

Lemma lor_odd f : f mod 2 = 1 -> Z.lor f 1 = f.
Proof.
  intros Hf. apply Z.bits_inj'. intros n Hn. rewrite Z.lor_spec. destruct (decide (n = 0)) as [->|Hne].
  - rewrite Z.bit0_odd, Zodd_mod. rewrite Hf. done.
  - assert (Z.testbit 1 n = false) as -> by (apply Z.bits_above_log2; simpl; lia). apply orb_false_r.
Qed.

(** A page's bytes moved into another. *)
Lemma move_page s l A h q p :
  holds s l A (q :: h) -> page_ok (k_link s) p -> p <> q ->
  wp (memmove_k q p PGSIZE) (fun _ s' => vstep [q] s s' /\ holds s' l A (q :: h) /\
    forall o, 0 <= o < PGSIZE -> k_mem s' (V2P q + o) = k_mem s (V2P p + o)) s.
Proof.
  intros Hh Hp Hne. pose proof Hh as [Hv Hs]. set (m := copy (k_mem s) (V2P q) (V2P p) PGSIZE).
  apply (wp_ok _ _ _ tt (s <| k_mem := m |>)).
  { unfold memmove_k, modify, m. f_equal. destruct s. kred. by rewrite memmove_copy. }
  destruct (vm_store s l _ q m Hv) as [Hv' V].
  { apply elem_of_app. right. apply list_elem_of_here. }
  { intros x Hx. unfold m, copy. destruct (Z.leb_spec (V2P q) x), (Z.ltb_spec x (V2P q + PGSIZE)); try done; lia. }
  split; [done|]. split; [split; [done|]|].
  - apply (space_untouched (k_link s) [q] (k_mem s)); [by eapply vm_tables|apply V| |done].
    intros x Hx ->%list_elem_of_singleton. by destruct (not_table s l A q h Hh).
  - intros o Ho. simpl. unfold m, copy. rewrite (proj2 (Z.leb_le _ _)), (proj2 (Z.ltb_lt _ _)) by lia. simpl. f_equal. lia.
Qed.

(** Copying [fs], the pages of the space [A], into the space [D], with [gs] copied so far. *)
Definition copying (s : kst) (l : list Z) (D : aspace) (gs : list (Z * Z)) (A : aspace) (fs : list (Z * Z)) (h : list Z) : Prop :=
  uspace s l D gs (tables A ++ frames fs ++ h) /\ space (k_mem s) A /\ user A fs /\
  Forall2 (copied (k_mem s)) (take (length gs) fs) gs.

Lemma copying_parent s l D gs A fs h : copying s l D gs A fs h -> uspace s l A fs (tables D ++ frames gs ++ h).
Proof.
  intros ([[Hv _] _] & Hs & Hu & _). split; [split; [|done]|done]. eapply vm_perm; [exact Hv|].
  rewrite !app_assoc. apply Permutation_app_tail. rewrite <- !app_assoc. rewrite (app_assoc (tables D)).
  rewrite Permutation_app_comm. by rewrite <- !app_assoc.
Qed.

(** Copies stay copies while their pages are not touched. *)
Lemma copied_kept m m' lk ps fs gs :
  untouched lk ps m m' -> Forall (page_ok lk) (frames fs ++ frames gs) -> (forall p, p ∈ frames fs ++ frames gs -> p ∉ ps) ->
  Forall2 (copied m) fs gs -> Forall2 (copied m') fs gs.
Proof.
  intros Hu Hok Hn H. induction H as [|[p f] [q g] fs gs [E1 E2] H IH]; constructor.
  - split; [done|]. simpl in *. intros o Ho.
    assert (forall r, r ∈ p :: frames fs ++ q :: frames gs -> m' (V2P r + o) = m (V2P r + o)) as Hr.
    { intros r Hr. symmetry. apply (Hu r); [by apply (proj1 (list.Forall_forall _ _) Hok)|by apply Hn|lia]. }
    rewrite !Hr, E2; [done|done| |]; rewrite elem_of_cons, elem_of_app, elem_of_cons; tauto.
  - apply IH.
    + change (frames ((p, f) :: fs) ++ frames ((q, g) :: gs)) with (p :: frames fs ++ q :: frames gs) in Hok.
      apply Forall_cons_1 in Hok as [_ [Hok1 [_ Hok2]%Forall_cons_1]%Forall_app]. by apply Forall_app.
    + intros r Hr. apply Hn. change (frames ((p, f) :: fs) ++ frames ((q, g) :: gs)) with (p :: frames fs ++ q :: frames gs).
      rewrite elem_of_app in Hr. rewrite elem_of_cons, elem_of_app, elem_of_cons. tauto.
Qed.

Lemma take_elem {X} (l : list X) n x : x ∈ take n l -> x ∈ l.
Proof. intros H. rewrite <- (take_drop n l). apply elem_of_app. by left. Qed.

(** The same for a step of the copy. *)
Lemma copying_kept s l D gs A fs h s' ps :
  copying s l D gs A fs h -> vstep ps s s' -> (forall p, p ∈ ps -> p ∈ l ++ tables D \/ p ∉ l ++ tables D ++ frames gs ++ tables A ++ frames fs ++ h) ->
  space (k_mem s') A /\ Forall2 (copied (k_mem s')) (take (length gs) fs) gs.
Proof.
  intros Hc [_ V] Hps. pose proof (copying_parent _ _ _ _ _ _ _ Hc) as [[Hva _] _]. destruct Hc as ([[Hv _] _] & Hs & Hu & Hcp).
  assert (forall p, p ∈ frames gs ++ tables A ++ frames fs -> p ∉ ps) as Hn.
  { intros p Hp Hin. destruct (Hps p Hin) as [Hl|Hno].
    - destruct Hv as (_ & _ & Hn & _). rewrite app_assoc in Hn. apply list.NoDup_app in Hn as (_ & Hn & _). apply (Hn p Hl). rewrite !elem_of_app in *. tauto.
    - apply Hno. rewrite !elem_of_app in *. tauto. }
  assert (forall p, p ∈ frames gs ++ tables A ++ frames fs -> page_ok (k_link s) p) as Hok.
  { intros p Hp. eapply vm_page; [exact Hv|]. rewrite !elem_of_app in *. tauto. }
  split.
  - eapply space_untouched; [by eapply vm_tables|exact V| |done]. intros p Hp. apply Hn. rewrite !elem_of_app. tauto.
  - assert (forall p, p ∈ frames (take (length gs) fs) ++ frames gs -> p ∈ frames gs ++ tables A ++ frames fs) as Hin.
    { intros p. rewrite !elem_of_app. intros [Hp|Hp]; [|tauto]. right. right. unfold frames in *. rewrite fmap_take in Hp. by eapply take_elem. }
    eapply copied_kept; [exact V| |intros p Hp; by apply Hn, Hin|done]. apply list.Forall_forall. intros p Hp. by apply Hok, Hin.
Qed.

(** What the copy loop leaves; a page it had taken and could not map is lost. *)
Definition copy_done (s : kst) (l : list Z) (D : aspace) (gs : list (Z * Z)) (A : aspace) (fs : list (Z * Z)) (h : list Z) (ok : bool) (s' : kst) : Prop :=
  vstep (l ++ tables D) s s' /\
  exists D' l' gs' lost, as_dir D' = as_dir D /\ same_kernel D D' /\ copying s' l' D' gs' A fs (lost ++ h) /\
    l ++ tables D ++ frames gs ≡ₚ l' ++ lost ++ tables D' ++ frames gs' /\ (length lost <= 1)%nat /\
    (if ok then length gs' = length fs /\ lost = [] else l' = []).

Lemma copying_perm s l D gs A fs h h' : copying s l D gs A fs h -> h ≡ₚ h' -> copying s l D gs A fs h'.
Proof. intros ([Hh Hu] & H) Hp. split; [|done]. split; [|done]. eapply holds_perm; [exact Hh|]. by rewrite Hp. Qed.

(** One page copied and mapped. *)
Lemma copied_page s l D gs A fs h q p f s1 s2 s3 l3 D3 :
  copying s (q :: l) D gs A fs h -> fs !! length gs = Some (p, f) ->
  vstep [] s s1 -> vstep [q] s1 s2 -> (forall o, 0 <= o < PGSIZE -> k_mem s2 (V2P q + o) = k_mem s1 (V2P p + o)) ->
  holds s2 l D (q :: frames gs ++ tables A ++ frames fs ++ h) ->
  vstep (l ++ tables D) s2 s3 -> uspace s3 l3 D3 (gs ++ [(q, f)]) (tables A ++ frames fs ++ h) ->
  copying s3 l3 D3 (gs ++ [(q, f)]) A fs h.
Proof.
  intros Hc Hi V1 V2 Hm Hh2 V3 Hu3. pose proof Hc as (_ & _ & HuA & _).
  assert (vstep (q :: l ++ tables D) s s3) as V.
  { eapply vstep_trans; [exact (vstep_nil _ _ _ V1)|]. eapply vstep_trans; (eapply vstep_mono; [eassumption|]);
      intros x; rewrite ?list_elem_of_singleton, ?elem_of_cons; tauto. }
  destruct (copying_kept s (q :: l) D gs A fs h s3 _ Hc V) as [Hs3 Hc3].
  { intros x Hx. left. rewrite <- app_comm_cons. done. }
  split; [done|]. split; [done|]. split; [done|].
  rewrite length_app. simpl. rewrite Nat.add_1_r, (take_S_r fs _ _ Hi). apply Forall2_app; [done|]. constructor; [|constructor].
  split; [done|]. simpl. intros o Ho. destruct (not_table _ _ _ _ _ Hh2) as (Hn1 & Hn2 & Hn3).
  pose proof Hh2 as [Hv2 _].
  assert (k_link s2 = k_link s) as Hl2 by (etrans; [eapply vm_frame_link, V2|eapply vm_frame_link, V1]).
  assert (p ∈ frames fs) as Hpin. { apply list_elem_of_fmap. exists (p, f). split; [done|]. by eapply list_elem_of_lookup_2. }
  assert (page_ok (k_link s2) q /\ page_ok (k_link s2) p) as [Hq Hp].
  { split; (eapply vm_page; [exact Hv2|]); rewrite !elem_of_app, elem_of_cons, !elem_of_app; tauto. }
  assert (p ∉ l ++ tables D) as Hpn.
  { intros Hin. destruct Hv2 as (_ & _ & Hn & _). rewrite app_assoc in Hn. apply list.NoDup_app in Hn as (_ & Hn & _). apply (Hn p Hin).
    rewrite elem_of_cons, !elem_of_app. tauto. }
  rewrite <- (proj2 V3 q Hq ltac:(rewrite elem_of_app; tauto) (V2P q + o)) by lia.
  rewrite <- (proj2 V3 p Hp Hpn (V2P p + o)) by lia. rewrite Hm by done. apply (proj2 V2 p); [by rewrite <- (vm_frame_link s1 s2) by apply V2| |lia].
  intros ->%list_elem_of_singleton. apply Hn3. rewrite !elem_of_app. tauto.
Qed.

Lemma copy_more s q l D gs A fs h f s2 s3 l3 D3 ok s' :
  vstep (q :: l ++ tables D) s s2 -> vstep (l ++ tables D) s2 s3 -> grown D l D3 l3 -> same_kernel D D3 ->
  copy_done s3 l3 D3 (gs ++ [(q, f)]) A fs h ok s' -> copy_done s (q :: l) D gs A fs h ok s'.
Proof.
  intros V2 V3 (Ga & Gb & Gc) K3 (V4 & D' & l' & gs' & lost & E1 & E2 & E3 & E4 & E5). split.
  - rewrite <- app_comm_cons. eapply vstep_trans; [exact V2|]. eapply vstep_trans; (eapply vstep_mono; [eassumption|]); intros x; rewrite <- ?Gc; apply list_elem_of_further.
  - exists D', l', gs', lost. split; [congruence|]. split; [intros v Hv; rewrite (E2 v Hv); by apply K3|]. split; [done|]. split; [|done].
    rewrite <- E4, frames_app, !app_assoc, <- Gc. change (frames [(q, f)]) with [q]. rewrite <- app_comm_cons.
    rewrite <- (Permutation_middle _ [] q), app_nil_r. done.
Qed.

Lemma wp_copy_loop k s l D gs A fs h sz :
  copying s l D gs A fs h -> length fs = pages_of sz -> 0 <= sz < KERNBASE -> (length gs <= length fs)%nat -> (length fs <= length gs + k)%nat ->
  wp (copyuvm_loop k (as_dir A) (as_dir D) (PGSIZE * Z.of_nat (length gs)) sz) (copy_done s l D gs A fs h) s.
Proof.
  intros Hc Hn Hsz. destruct (pages_of_spec sz) as (_ & P1 & P2); [lia|].
  revert s l D gs Hc. induction k as [|k IH]; intros s l D gs Hc Hle Hfuel; cbn [copyuvm_loop];
    (destruct (decide (length gs = length fs)) as [Heq|Hne];
     [rewrite (proj2 (Z.ltb_ge _ _)) by lia; cbv [negb]|rewrite (proj2 (Z.ltb_lt _ _)) by (unfold PGSIZE in *; lia); cbv [negb]]).
  1,3: (split; [apply vstep_refl|]); exists D, l, gs, [];
    (split; [done|]); (split; [done|]); (split; [exact Hc|]); (split; [done|]); (split; [simpl; lia|done]).
  { lia. }
  destruct (lookup_lt_is_Some_2 fs (length gs)) as [[p f] Hi]; [lia|].
  pose proof (copying_parent _ _ _ _ _ _ _ Hc) as HuA. pose proof HuA as [[HvA HsA] (HfA & HlA & HeA)].
  destruct (page_of_index (Z.of_nat (length gs))) as (Ha & Hd & _); [lia|].
  destruct (uframe_page _ _ _ _ _ _ _ _ HuA Hi) as [Hp Hpin].
  pose proof (proj1 (Forall_lookup _ _) HfA _ _ Hi) as Hfl. simpl in Hfl.
  destruct (uent_parts (k_link s) p f) as (E1 & E2 & E3 & E4 & E5 & E6); [by eapply vm_link|done|done|].
  assert (as_ents A (Z.of_nat (length gs)) = V2P p + f) as Hent by (rewrite HeA by lia; by apply uent_Some).
  eapply wp_bind, wp_ok; [by eapply walk_get|]. unfold slot. destruct (as_tabs A !! PDX _) as [t|] eqn:Et.
  2:{ exfalso. apply E6. rewrite <- Hent. rewrite <- Hd at 1. by eapply ents_none. }
  destruct (slot_read s l A _ _ t HvA HsA Ha Et) as [Er Hnz]. rewrite (proj2 (Z.eqb_neq _ 0) Hnz). cbv iota.
  eapply wp_bind, wp_ok; [exact Er|]. rewrite Hd, Hent, land_P, E1, E2, E3. change (nz 1) with true. cbv [negb]. cbv iota zeta. rewrite E4.
  destruct Hc as ([HhD HuD] & Hrest) eqn:EHc. clear EHc. wcall (take_page s l D _ HhD). intros q' s1 (V1 & M1 & Hq). destruct l as [|q l].
  { destruct Hq as [-> Hh1]. change (0 =? 0) with true. cbv iota. split; [exact (vstep_nil _ _ _ V1)|]. exists D, [], gs, [].
    split; [done|]. split; [done|]. split; [|split; [done|split; [simpl; lia|done]]]. split; [done|]. by rewrite M1. }
  destruct Hq as (-> & Hqz & Hq & Hh1). rewrite (proj2 (Z.eqb_neq q 0) Hqz). cbv iota.
  destruct (not_table _ _ _ _ _ Hh1) as (Hn1 & Hn2 & Hn3).
  wcall (move_page s1 l D _ q p Hh1); [by rewrite (vm_frame_link s s1) by apply V1| |].
  { intros ->. apply Hn3. rewrite !elem_of_app. tauto. }
  intros _ s2 (V2 & Hh2 & Hm).
  wcall (wp_map_end s2 l D gs (tables A ++ frames fs ++ h) q f Hh2 HuD); [unfold PGSIZE in *; lia|by unfold PTE_P; rewrite lor_odd by apply Hfl|].
  unfold PTE_P. rewrite lor_odd by apply Hfl.
  assert (vstep (q :: l ++ tables D) s s2) as V12.
  { eapply vstep_trans; [exact (vstep_nil _ _ _ V1)|]. eapply vstep_mono; [exact V2|]. intros x ->%list_elem_of_singleton. apply list_elem_of_here. }
  intros r s3 (V3 & D3 & l3 & G3 & K3 & [[-> Hu3]|(-> & -> & Hh3 & Hu3)]).
  - change (0 <? 0) with false. cbv iota.
    assert (copying s3 l3 D3 (gs ++ [(q, f)]) A fs h) as Hc3 by (eapply copied_page; [split; [split|]|..]; eassumption).
    replace (u32 (PGSIZE * Z.of_nat (length gs) + PGSIZE)) with (PGSIZE * Z.of_nat (length (gs ++ [(q, f)]))).
    2:{ rewrite length_app, u32_small by (unfold is_u32, PGSIZE, KERNBASE in *; lia). simpl. lia. }
    replace (as_dir D) with (as_dir D3) by apply G3.
    eapply wp_mono; [apply (IH s3 l3 D3 _ Hc3); rewrite length_app; simpl; lia|].
    intros ok s' Hok. by eapply copy_more.
  - change (-1 <? 0) with true. cbv iota.
    assert (vstep (q :: l ++ tables D) s s3) as V.
    { eapply vstep_trans; [exact V12|]. eapply vstep_mono; [exact V3|]. intros x. apply list_elem_of_further. }
    split; [done|]. exists D3, [], gs, [q]. split; [apply G3|]. split; [done|]. split; [|split; [|split; [simpl; lia|done]]].
    + destruct (copying_kept s (q :: l) D gs A fs h s3 _ (conj (conj HhD HuD) Hrest) V) as [Hs3 Hc3].
      { intros x Hx. left. rewrite <- app_comm_cons. done. }
      split; [|by destruct Hrest as (_ & ? & _)]. split; [|done]. eapply holds_perm; [exact Hh3|].
      change ([q] ++ h) with (q :: h). rewrite !app_assoc. apply Permutation_middle.
    + destruct G3 as (_ & _ & G3). rewrite <- app_comm_cons. constructor. rewrite app_assoc, G3. done.
Qed.

Lemma kernel_ents_user lk v : image_ok lk -> 0 <= v < UPAGES -> kernel_ents lk v = 0.
Proof.
  intros (_ & Hda & Hd) Hv. change UPAGES with 524288 in Hv. pose proof (page_div _ Hda). unfold PGSIZE, KERNLINK, KERNBASE, EXTMEM in *.
  unfold kernel_ents. rewrite !map_ents_out; [done|..].
  - change (KERNBASE / PGSIZE) with 524288. lia.
  - change (KERNLINK / PGSIZE) with 524544. lia.
  - unfold PGSIZE. lia.
  - change (DEVSPACE / PGSIZE) with 1040384. lia.
Qed.

Lemma wp_copyuvm s l A fs h sz :
  uspace s l A fs h -> length fs = pages_of sz -> 0 <= sz < KERNBASE -> image_ok (k_link s) ->
  wp (copyuvm (as_dir A) sz) (fun d s' => vstep l s s' /\
    ((d <> 0 /\ exists D gs l', as_dir D = d /\ copying s' l' D gs A fs h /\ length gs = length fs /\
        l ≡ₚ l' ++ tables D ++ frames gs /\ forall v, UPAGES <= v -> as_ents D v = kernel_ents (k_link s) v) \/
     (d = 0 /\ (length l < 1027 + length fs)%nat /\ exists l' lost, uspace s' l' A fs (lost ++ h) /\ l ≡ₚ l' ++ lost))) s.
Proof.
  intros Hu Hn Hsz Himg. pose proof Hu as [[Hv Hs] Hus]. unfold copyuvm. wcall (wp_setupkvm s l _ Hv Himg). intros d s1 [V1 Hd].
  assert (forall p, p ∈ tables A -> p ∉ l) as Hnl.
  { intros p Hp Hl. destruct Hv as (_ & _ & Hnd & _). apply list.NoDup_app in Hnd as (_ & Hnd & _). apply (Hnd p Hl), elem_of_app. by left. }
  assert (space (k_mem s1) A) as Hs1 by (eapply space_untouched; [by eapply vm_tables|apply V1|exact Hnl|done]).
  destruct Hd as [(-> & Hv1 & Hb)|(D & l1 & Ed & Hdz & [Hv1 HsD] & Hp1 & HeD)].
  { change (0 =? 0) with true. cbv iota. split; [done|]. right. split; [done|]. split; [lia|]. exists [], l. split; [|done].
    split; [split; [|done]|done]. eapply vm_perm; [exact Hv1|]. rewrite (app_assoc l), (Permutation_app_comm l), <- app_assoc.
    apply Permutation_app_head. rewrite !app_assoc. apply Permutation_app_tail, Permutation_app_comm. }
  rewrite (proj2 (Z.eqb_neq d 0) Hdz). cbv iota.
  assert (copying s1 l1 D [] A fs h) as Hc.
  { split; [split; [split; [exact Hv1|done]|]|split; [done|split; [done|constructor]]].
    split; [constructor|]. split; [simpl; by change UPAGES with 524288; lia|]. intros v Hvv. rewrite HeD. by apply kernel_ents_user. }
  rewrite <- Ed. change 0 with (PGSIZE * Z.of_nat (length (@nil (Z * Z)))) at 1.
  wcall (wp_copy_loop (Z.to_nat (sz / PGSIZE + 1)) s1 l1 D [] A fs h sz Hc Hn Hsz); [simpl; lia| |].
  { destruct (pages_of_spec sz) as (_ & P & _); [lia|]. pose proof (Z.div_mod sz PGSIZE). pose proof (Z.mod_pos_bound sz PGSIZE).
    rewrite Hn. unfold PGSIZE in *. simpl. lia. }
  intros ok s2 (V2 & D2 & l2 & gs & lost & E1 & E2 & Hc2 & Hp2 & Hlost & Hok). change (frames []) with (@nil Z) in Hp2. rewrite app_nil_r in Hp2.
  assert (vstep l s s2) as V12.
  { eapply vstep_trans; [exact V1|]. eapply vstep_mono; [exact V2|]. intros x. by rewrite Hp1. }
  destruct ok.
  - destruct Hok as [Hl2 ->]. split; [done|]. left. split; [by rewrite Ed|]. exists D2, gs, l2. split; [done|]. split; [done|]. split; [done|].
    split; [by rewrite Hp1, Hp2|]. intros v Hvv. by rewrite (E2 v Hvv), HeD.
  - subst l2. rewrite <- E1. pose proof Hc2 as (HuD & HsA & HuA & Hcp).
    pose proof (copying_parent _ _ _ _ _ _ _ Hc2) as [[Hv2 _] _].
    assert (l ≡ₚ lost ++ tables D2 ++ frames gs) as Hl by (by rewrite Hp1, Hp2).
    assert (length l < 1027 + length fs)%nat as Hlen.
    { apply Forall2_length in Hcp. rewrite length_take in Hcp. apply Permutation_length in Hl. rewrite !length_app in Hl. unfold frames in Hl.
      rewrite length_fmap in Hl. pose proof (tables_bound _ _ (proj2 (proj1 HuD))). lia. }
    wcall (wp_freevm s2 [] D2 gs _ HuD). intros _ s3 (V3 & l3 & Hp3 & Hv3). split.
    { eapply vstep_trans; [exact V12|]. eapply vstep_mono; [exact V3|]. intros x. rewrite Hl, !elem_of_app. tauto. }
    right. split; [done|]. split; [done|]. exists l3, lost. split; [|by rewrite Hp3, Hl, Permutation_app_comm].
    split; [split; [exact Hv3|]|done].
    apply (space_untouched (k_link s2) (frames gs ++ tables D2) (k_mem s2)); [by eapply vm_tables|apply V3| |done].
    intros p Hp Hin. destruct Hv2 as (_ & _ & Hnd & _). rewrite app_nil_l in Hnd. apply list.NoDup_app in Hnd as (_ & Hnd & _). apply (Hnd p Hp).
    rewrite !elem_of_app in *. tauto.
Qed.

(** The memory of a process that was given zeroed pages. *)
Lemma view_grown s l A fs h s' l' A' ps h' va :
  uspace s l A fs h -> uspace s' l' A' (fs ++ ((fun p => (p, 7)) <$> ps)) h' -> as_dir A' = as_dir A ->
  Forall (fun p => agree (k_mem s) (k_mem s') (V2P p) PGSIZE) (frames fs) -> Forall (zeroed (k_mem s')) ps -> 0 <= va < KERNBASE ->
  view (k_mem s') (as_dir A') va =
    if va <? PGSIZE * Z.of_nat (length fs) then view (k_mem s) (as_dir A') va
    else if va <? PGSIZE * Z.of_nat (length (fs ++ ((fun p => (p, 7)) <$> ps))) then Some 0 else None.
Proof.
  intros Hu Hu' Ea Hk Hz Hva. rewrite (view_uspace s' l' A' _ h' va Hu' Hva).
  pose proof (Z.div_mod va PGSIZE ltac:(done)) as Hdm. pose proof (Z.mod_pos_bound va PGSIZE ltac:(done)) as Hm.
  destruct (Z.ltb_spec va (PGSIZE * Z.of_nat (length fs))) as [Hlt|Hge].
  - rewrite Ea, (view_uspace s l A fs h va Hu Hva), lookup_app_l by (unfold PGSIZE in *; lia).
    destruct (fs !! _) as [[p f]|] eqn:Ei; [|done]. f_equal. symmetry. apply (proj1 (list.Forall_forall _ _) Hk p); [|lia].
    by eapply uframe_page.
  - rewrite lookup_app_r by (unfold PGSIZE in *; lia). rewrite length_app, length_fmap, list_lookup_fmap.
    destruct (Z.ltb_spec va (PGSIZE * Z.of_nat (length fs + length ps))).
    + destruct (lookup_lt_is_Some_2 ps (Z.to_nat (va / PGSIZE) - length fs)) as [p Hp]; [unfold PGSIZE in *; lia|].
      rewrite Hp. simpl. f_equal. apply (proj1 (Forall_lookup _ _) Hz _ _ Hp). lia.
    + rewrite (proj2 (lookup_ge_None ps _)) by (unfold PGSIZE in *; lia). done.
Qed.

(** ** The theorems *)

(** Other processes' pages keep their bytes. *)
Definition kept (s s' : kst) (h : list Z) : Prop := Forall (fun p => agree (k_mem s) (k_mem s') (V2P p) PGSIZE) h.

(** C28. Growing a process is all or nothing. [allocuvm] returns, and either it reports the
    new size, and then every address below the old end reads as before, every address of
    the new pages reads zero and nothing else is mapped; or it reports failure, and then
    the process sees exactly the memory it saw before, and every page taken on the way is
    free again or one of its page tables. The pages in use elsewhere are not touched. *)
Theorem allocuvm_all_or_nothing s l A fs h oldsz newsz :
  uspace s l A fs h -> length fs = pages_of oldsz -> 0 <= oldsz <= newsz -> newsz < KERNBASE ->
  exists r s' A' l', allocuvm (as_dir A) oldsz newsz s = Ok r s' /\ vm_frame s s' /\ as_dir A' = as_dir A /\ kept s s' h /\
    ((r = newsz /\ exists new, uspace s' l' A' (fs ++ new) h /\ length (fs ++ new) = pages_of newsz /\
        forall va, 0 <= va < KERNBASE -> view (k_mem s') (as_dir A) va =
          if va <? PGSIZE * Z.of_nat (length fs) then view (k_mem s) (as_dir A) va
          else if va <? PGSIZE * Z.of_nat (pages_of newsz) then Some 0 else None) \/
     (r = 0 /\ uspace s' l' A' fs h /\ l ++ tables A ≡ₚ l' ++ tables A' /\
        forall va, 0 <= va < KERNBASE -> view (k_mem s') (as_dir A) va = view (k_mem s) (as_dir A) va)).
Proof.
  intros Hu Hn Hsz Hk. destruct (pages_of_spec oldsz) as (E0 & _); [lia|].
  assert (wp (allocuvm (as_dir A) oldsz newsz) (grown_to s l A fs fs h newsz) s) as Hwp.
  { unfold allocuvm. rewrite (proj2 (Z.leb_gt _ _)), (proj2 (Z.ltb_ge newsz _)), E0, <- Hn by lia.
    apply wp_alloc_loop; try done; [rewrite Hn; apply pages_of_mono; lia|].
    destruct (pages_of_spec newsz) as (_ & P & _); [lia|]. rewrite Hn.
    pose proof (Z.div_mod (newsz - PGSIZE * Z.of_nat (pages_of oldsz)) PGSIZE).
    pose proof (Z.mod_pos_bound (newsz - PGSIZE * Z.of_nat (pages_of oldsz)) PGSIZE). unfold PGSIZE in *. lia. }
  apply wp_run in Hwp as (r & s' & E & A' & l' & Ea & _ & _ & Hr). exists r, s', A', l'. split; [done|].
  rewrite drop_all in Hr. change (frames []) with (@nil Z) in Hr. rewrite app_nil_r in Hr.
  assert (vstep (l ++ tables A) s s') as V by by destruct Hr as [(ps & _ & V & _)|(_ & V & _)].
  pose proof (frames_kept s l A fs h _ s' Hu V ltac:(done)) as Hkept. apply Forall_app in Hkept as [Hkf Hkh].
  split; [apply V|]. split; [done|]. split; [done|].
  destruct Hr as [(ps & -> & _ & Hu' & Hlen & Hz & _)|(-> & _ & Hu' & Hp)]; [left|right].
  - split; [done|]. exists ((fun p => (p, 7)) <$> ps). split; [done|]. split; [done|]. intros va Hva. rewrite <- Ea.
    rewrite <- Hlen. by apply (view_grown s l A fs h s' l' A' ps h va).
  - split; [done|]. split; [done|]. split; [done|]. intros va Hva. rewrite <- (view_kept s l A fs h s' l' A' h) by done. by rewrite Ea.
Qed.

(** The memory of a copy. *)
Lemma view_copied s l D gs A fs h va :
  copying s l D gs A fs h -> length gs = length fs -> 0 <= va < KERNBASE -> view (k_mem s) (as_dir D) va = view (k_mem s) (as_dir A) va.
Proof.
  intros Hc Hl Hva. pose proof (copying_parent _ _ _ _ _ _ _ Hc) as Hp. destruct Hc as (Hu & _ & _ & Hcp).
  rewrite (view_uspace _ _ _ _ _ va Hu Hva), (view_uspace _ _ _ _ _ va Hp Hva). rewrite Hl, take_ge in Hcp by lia.
  destruct (fs !! Z.to_nat (va / PGSIZE)) as [[p f]|] eqn:Ei.
  - destruct (Forall2_lookup_l _ _ _ _ _ Hcp Ei) as ([q g] & -> & _ & E). f_equal. apply E. pose proof (Z.mod_pos_bound va PGSIZE). unfold PGSIZE in *. lia.
  - by rewrite (Forall2_lookup_None_r _ _ _ _ Hcp Ei) || by rewrite (proj2 (lookup_ge_None gs _)) by (apply lookup_ge_None in Ei; lia).
Qed.

(** C27. A copied address space is a faithful copy. [copyuvm] returns; the process it copies
    sees the same memory as before, and pages in use elsewhere are not touched. Either it
    gives a new page directory, under which every user address reads the byte the
    original reads, with the same flags, in pages and tables of its own (no page is shared
    with the original or with anything else), and with the kernel's mapping above
    [KERNBASE]; or it gives 0, which happens only when there are fewer free pages than
    1027 more than the process has. *)
Theorem copyuvm_copies s l A fs h sz :
  uspace s l A fs h -> length fs = pages_of sz -> 0 <= sz < KERNBASE -> image_ok (k_link s) ->
  exists d s', copyuvm (as_dir A) sz s = Ok d s' /\ vm_frame s s' /\ kept s s' h /\
    (forall va, 0 <= va < KERNBASE -> view (k_mem s') (as_dir A) va = view (k_mem s) (as_dir A) va) /\
    ((d <> 0 /\ exists D gs l', as_dir D = d /\ uspace s' l' D gs (tables A ++ frames fs ++ h) /\ gs.*2 = fs.*2 /\
        (forall va, 0 <= va < KERNBASE -> view (k_mem s') d va = view (k_mem s) (as_dir A) va) /\
        (forall v, UPAGES <= v -> as_ents D v = kernel_ents (k_link s) v)) \/
     (d = 0 /\ (length l < 1027 + length fs)%nat /\ exists l' lost, uspace s' l' A fs (lost ++ h))).
Proof.
  intros Hu Hn Hsz Himg. pose proof (wp_copyuvm s l A fs h sz Hu Hn Hsz Himg) as Hwp.
  apply wp_run in Hwp as (d & s' & E & V & Hd). exists d, s'. split; [done|]. split; [apply V|].
  pose proof (frames_kept s l A fs h _ s' Hu V ltac:(intros x; rewrite elem_of_app; tauto)) as Hkept. apply Forall_app in Hkept as [Hkf Hkh].
  split; [done|].
  destruct Hd as [(Hdz & D & gs & l' & <- & Hc & Hl & _ & He)|(-> & Hlt & l' & lost & Hu' & _)].
  - pose proof (copying_parent _ _ _ _ _ _ _ Hc) as Hp.
    assert (forall va, 0 <= va < KERNBASE -> view (k_mem s') (as_dir A) va = view (k_mem s) (as_dir A) va) as Hview
      by (intros va Hva; by apply (view_kept s l A fs h s' l' A (tables D ++ frames gs ++ h))).
    split; [done|]. left. split; [done|]. exists D, gs, l'. split; [done|]. split; [apply Hc|]. split; [|split; [|done]].
    + destruct Hc as (_ & _ & _ & Hcp). rewrite Hl, take_ge in Hcp by lia. clear - Hcp. induction Hcp as [|pf qg fs gs [E _] _ IH]; [done|]. rewrite !fmap_cons. by rewrite E, IH.
    + intros va Hva. rewrite <- Hview by done. by apply (view_copied s' l' D gs A fs h).
  - split; [intros va Hva; by apply (view_kept s l A fs h s' l' A (lost ++ h))|]. right. split; [done|]. split; [done|]. by exists l', lost.
Qed.

(** C29. Nothing leaks when a process is torn down: [freevm] returns, and the free pages are
    then those that were free, the pages of the process, its page tables and its
    directory, each exactly once. The pages in use elsewhere are not touched. *)
Theorem freevm_frees_all s l A fs h :
  uspace s l A fs h ->
  exists s' l', freevm (as_dir A) s = Ok tt s' /\ vm_frame s s' /\ kept s s' h /\
    vm s' l' h /\ l' ≡ₚ l ++ tables A ++ frames fs.
Proof.
  intros Hu. pose proof (wp_freevm s l A fs h Hu) as Hwp. apply wp_run in Hwp as ([] & s' & E & V & l' & Hp & Hv).
  exists s', l'. split; [done|]. split; [apply V|]. split; [|done].
  destruct Hu as [[Hvm _] _]. apply list.Forall_forall. intros p Hin. apply V.
  - eapply vm_page; [exact Hvm|]. rewrite !elem_of_app. tauto.
  - intros Hx. destruct Hvm as (_ & _ & Hnd & _). apply list.NoDup_app in Hnd as (_ & _ & Hnd). rewrite app_assoc in Hnd.
    apply list.NoDup_app in Hnd as (_ & Hnd & _). apply (Hnd p); [|done]. rewrite elem_of_app in *. tauto.
Qed.

(** ** Running out of memory in [setupkvm] *)

(** Every page of the kernel's mapping has an entry. *)
Lemma kernel_ents_present lk v :
  image_ok lk -> UPAGES <= v < (KERNBASE + PHYSTOP) / PGSIZE \/ DEVSPACE / PGSIZE <= v < 2 ^ 20 -> kernel_ents lk v <> 0.
Proof.
  intros (_ & Hda & Hd) Hv. change UPAGES with 524288 in Hv. change ((KERNBASE + PHYSTOP) / PGSIZE) with 581632 in Hv.
  change (DEVSPACE / PGSIZE) with 1040384 in Hv. pose proof (page_div _ Hda) as Hq. set (dp := data_ lk / PGSIZE) in *.
  unfold KERNLINK, KERNBASE, EXTMEM, PHYSTOP, PGSIZE in Hd, Hq.
  assert ((data_ lk - KERNLINK) / PGSIZE = dp - 524544) as E2.
  { replace (data_ lk - KERNLINK) with ((dp - 524544) * PGSIZE) by (unfold KERNLINK, KERNBASE, EXTMEM, PGSIZE; lia). by rewrite Z.div_mul. }
  assert ((KERNBASE + PHYSTOP - data_ lk) / PGSIZE = 581632 - dp) as E3.
  { replace (KERNBASE + PHYSTOP - data_ lk) with ((581632 - dp) * PGSIZE) by (unfold KERNBASE, PHYSTOP, PGSIZE; lia). by rewrite Z.div_mul. }
  unfold kernel_ents. cbv zeta. fold dp. rewrite E2, E3. unfold map_ents. change (KERNBASE / PGSIZE) with 524288. change (EXTMEM / PGSIZE) with 256.
  change (KERNLINK / PGSIZE) with 524544. change (DEVSPACE / PGSIZE) with 1040384. unfold KERNBASE, EXTMEM, DEVSPACE, PGSIZE.
  repeat match goal with |- context [(?a <=? ?b) && (?c <? ?d)] => destruct (Z.leb_spec a b), (Z.ltb_spec c d); cbn [andb] end; lia.
Qed.

(** The directory indices of the kernel's mapping. *)
Definition kernel_indices : list Z := (Z.of_nat <$> seq 512 56) ++ (Z.of_nat <$> seq 1016 8).

Lemma kernel_tables m A lk :
  image_ok lk -> space m A -> (forall v, as_ents A v = kernel_ents lk v) -> (65 <= length (tables A))%nat.
Proof.
  intros Himg [_ Hs] He. unfold tables. simpl. rewrite length_fmap, length_map_to_list, <- size_dom. apply le_n_S.
  transitivity (size (list_to_set kernel_indices : gset Z)).
  - rewrite size_list_to_set; [done|]. unfold kernel_indices. rewrite <- fmap_app. apply (NoDup_fmap_2 _), list.NoDup_app.
    split; [apply NoDup_seq|]. split; [|apply NoDup_seq]. intros x. rewrite !elem_of_seq. lia.
  - apply subseteq_size. intros i Hi%elem_of_list_to_set. apply elem_of_dom.
    assert (512 <= i < 568 \/ 1016 <= i < 1024) as Hr.
    { unfold kernel_indices in Hi. rewrite elem_of_app, !list_elem_of_fmap in Hi. destruct Hi as [(k & -> & Hk%elem_of_seq)|(k & -> & Hk%elem_of_seq)]; lia. }
    specialize (Hs i ltac:(lia)). destruct (as_tabs A !! i) as [t|]; [by exists t|]. destruct Hs as [_ Hz]. exfalso.
    specialize (Hz 0 ltac:(lia)). rewrite He in Hz. revert Hz. apply kernel_ents_present; [done|].
    change UPAGES with 524288. change ((KERNBASE + PHYSTOP) / PGSIZE) with 581632. change (DEVSPACE / PGSIZE) with 1040384. lia.
Qed.

(** C31. When fewer than 65 pages are free [setupkvm] does not only fail: it returns 0 with no
    page left on the free list. The directory and the tables it had allocated are not
    given back, so every page that was free is lost, neither free nor in use by anyone. *)
Theorem setupkvm_loses_memory s l h :
  vm s l h -> image_ok (k_link s) -> (length l < 65)%nat ->
  exists s', setupkvm s = Ok 0 s' /\ vm_frame s s' /\ vm s' [] (l ++ h) /\ freelist (k_kmem s') = 0.
Proof.
  intros Hv Himg Hl. pose proof (wp_setupkvm s l h Hv Himg) as (r & s' & E & V & [(-> & Hv' & _)|Hok])%wp_run.
  - exists s'. split; [done|]. split; [apply V|]. split; [done|]. destruct Hv' as (_ & (_ & Hc & _) & _). by inversion Hc.
  - destruct Hok as (A & l' & _ & _ & [_ Hs] & Hp & He). pose proof (kernel_tables _ _ _ Himg Hs He). apply Permutation_length in Hp.
    rewrite length_app in Hp. lia.
Qed.

(** ** A small machine *)

(** A page directory with nothing mapped, and three free pages. *)
Definition dir0 : Z := 0x80200000.
Definition free0 : list Z := [0x80201000; 0x80202000; 0x80203000].

Definition bare : kst := (kst0 (fun _ => [])) <| k_cpu ::= settle |>.

(** The machine with the pages [ps] on the free list. *)
Definition stocked (ps : list Z) : kst := foldr pushed bare ps.

Definition small : kst := stocked free0.
Definition space0 : aspace := mkAspace dir0 ∅ (fun _ => 0).

Lemma stocked_vm ps h :
  NoDup (ps ++ h) -> Forall (page_ok (k_link bare)) (ps ++ h) -> vm (stocked ps) ps h /\ vstep ps bare (stocked ps).
Proof.
  revert h. induction ps as [|p ps IH]; intros h Hn Hok; simpl.
  - split; [|apply vstep_refl]. split; [done|]. split; [split; [done|]; split; [constructor|]; split; [constructor|constructor]|]. done.
  - destruct (IH (p :: h)) as [Hv V]; [by rewrite <- Permutation_middle|by rewrite <- Permutation_middle|].
    destruct (vm_push _ _ _ _ Hv) as [Hv' V']. split; [done|]. eapply vstep_trans; (eapply vstep_mono; [eassumption|]).
    + intros x. apply list_elem_of_further.
    + intros x ->%list_elem_of_singleton. apply list_elem_of_here.
Qed.

(** A process without memory. *)
Lemma stocked_space ps h :
  NoDup (ps ++ dir0 :: h) -> Forall (page_ok (k_link bare)) (ps ++ dir0 :: h) -> uspace (stocked ps) ps space0 [] h.
Proof.
  intros Hn Hok. destruct (stocked_vm ps (dir0 :: h) Hn Hok) as [Hv [_ V]]. split; [split|].
  - exact Hv.
  - apply empty_space. intros j Hj. transitivity (load32 (k_mem bare) (V2P dir0 + 4 * j)); [|done]. symmetry. apply load32_agree.
    intros x Hx. apply (V dir0); [|apply list.NoDup_app in Hn as (_ & Hn & _)|unfold PGSIZE; lia].
    + apply (proj1 (list.Forall_forall _ _) Hok). apply elem_of_app. right. apply list_elem_of_here.
    + intros Hin. apply (Hn _ Hin), list_elem_of_here.
  - split; [constructor|]. split; [simpl; change UPAGES with 524288; lia|]. intros v _. unfold uent. by rewrite lookup_nil.
Qed.

Lemma small_pages : NoDup (free0 ++ [dir0]) /\ Forall (page_ok (k_link bare)) (free0 ++ [dir0]).
Proof.
  split; [by apply (bool_decide_unpack _)|].
  repeat (apply Forall_cons_2; [split; [reflexivity|unfold KERNBASE, PHYSTOP; simpl; unfold dir0; lia]|]). apply Forall_nil_2.
Qed.

Lemma small_vm : vm small free0 [dir0].
Proof. apply stocked_vm; apply small_pages. Qed.

Lemma small_uspace : uspace small free0 space0 [] [].
Proof. apply stocked_space; apply small_pages. Qed.

Lemma allocuvm_all_or_nothing_witness :
  uspace small free0 space0 [] [] /\
  exists r s' A' l', allocuvm dir0 0 4096 small = Ok r s' /\ vm_frame small s' /\ as_dir A' = dir0 /\ kept small s' [] /\
    ((r = 4096 /\ exists new, uspace s' l' A' new [] /\ length new = 1%nat /\
        forall va, 0 <= va < KERNBASE -> view (k_mem s') dir0 va =
          if va <? 0 then view (k_mem small) dir0 va else if va <? PGSIZE * 1 then Some 0 else None) \/
     (r = 0 /\ uspace s' l' A' [] [] /\ free0 ++ tables space0 ≡ₚ l' ++ tables A' /\
        forall va, 0 <= va < KERNBASE -> view (k_mem s') dir0 va = view (k_mem small) dir0 va)).
Proof.
  split; [exact small_uspace|]. apply (allocuvm_all_or_nothing small free0 space0 [] [] 0 4096 small_uspace); [reflexivity|lia|unfold KERNBASE; lia].
Defined.

Lemma small_image : image_ok (k_link small).
Proof. split; [|split]; [unfold link_ok, KERNBASE; simpl; lia|reflexivity|unfold KERNLINK, KERNBASE, EXTMEM, PHYSTOP; simpl; lia]. Qed.

Lemma setupkvm_loses_memory_witness :
  vm small free0 [dir0] /\
  exists s', setupkvm small = Ok 0 s' /\ vm_frame small s' /\ vm s' [] (free0 ++ [dir0]) /\ freelist (k_kmem s') = 0.
Proof.
  split; [exact small_vm|]. apply (setupkvm_loses_memory small free0 [dir0] small_vm small_image). simpl. lia.
Defined.

Lemma copyuvm_copies_witness :
  uspace small free0 space0 [] [] /\ image_ok (k_link small) /\
  exists d s', copyuvm dir0 0 small = Ok d s' /\ vm_frame small s' /\ kept small s' [] /\
    (forall va, 0 <= va < KERNBASE -> view (k_mem s') dir0 va = view (k_mem small) dir0 va).
Proof.
  split; [exact small_uspace|]. split; [exact small_image|].
  destruct (copyuvm_copies small free0 space0 [] [] 0 small_uspace) as (d & s' & E & F & K & V & _); [reflexivity|unfold KERNBASE; lia|exact small_image|].
  exists d, s'. exact (conj E (conj F (conj K V))).
Defined.

Lemma freevm_frees_all_witness :
  exists s' l', freevm dir0 small = Ok tt s' /\ vm_frame small s' /\ kept small s' [] /\ vm s' l' [] /\ l' ≡ₚ free0 ++ tables space0 ++ [].
Proof. exact (freevm_frees_all small free0 space0 [] [] small_uspace). Defined.
