(* ===== verification/Discipline.v ===== *)
(** * The lock discipline: rules

    A judgement in the manner of an effect system: [disc L m L'] says that a routine
    entered by a processor that holds exactly the spinlocks [L] returns with exactly [L']
    held and interrupts as they were outside its critical sections, and that if it hands
    the processor to the scheduler it holds [ptable.lock] alone. The rules follow the
    structure of the code; this file has those for the locks themselves and for the
    routines every component uses. *)

From S2P Require Import Prelude Params State Mem Strings Locks Printf Kalloc Vm Sched Policy Procs Uaccess Sleeplock.
Import Spin.

(** ** Which locks a processor holds *)

(** [e] is the interrupt flag outside critical sections. *)
Definition holds (e : bool) (L : list lockid) (s : kst) : Prop :=
  NoDup L /\ (forall lk, k_locks s !! lk = Some (k_cpuid s) <-> lk ∈ L) /\
  ncli (k_cpu s) = Z.of_nat (length L) /\
  match L with
  | [] => eflags_if (k_cpu s) = e
  | _ :: _ => eflags_if (k_cpu s) = false /\ intena (k_cpu s) = e
  end.

(** Every outcome that goes on running keeps to the discipline. *)
Definition lawful {A} (e : bool) (L' : list lockid) (r : res kst A) : Prop :=
  match r with
  | Ok _ s => holds e L' s
  | Switch s => holds e [LPtable] s
  | _ => True
  end.

Definition disc {A} (L : list lockid) (m : K A) (L' : list lockid) : Prop :=
  forall e s, holds e L s -> lawful e L' (m s).

(** The part of the state the judgement is about. *)
Definition lkpart (s : kst) : gmap lockid nat * nat * cpu := (k_locks s, k_cpuid s, k_cpu s).

Lemma holds_lkpart e L s s' : lkpart s' = lkpart s -> holds e L s -> holds e L s'.
Proof. unfold lkpart, holds. by intros [= -> -> ->]. Qed.

(** ** Rules for the monad *)

Create HintDb disc discriminated.
#[global] Hint Constants Opaque : disc.

Lemma disc_bind {A B} L L1 L2 (m : K A) (f : A -> K B) : disc L m L1 -> (forall a, disc L1 (f a) L2) -> disc L (bind m f) L2.
Proof. intros Hm Hf e s Hs. specialize (Hm e s Hs). unfold bind. destruct (m s); try done. by apply Hf. Qed.

Section Rules.
Context {A : Type}.
Implicit Types L : list lockid.

Lemma disc_ret L (a : A) : disc L (ret a) L.
Proof. by intros e s. Qed.

Lemma disc_gets L (f : kst -> A) : disc L (gets f) L.
Proof. by intros e s. Qed.

Lemma disc_panic L L' msg : disc L (panic (A := A) msg) L'.
Proof. by intros e s. Qed.

Lemma disc_fault L L' msg : disc L (fault (A := A) msg) L'.
Proof. by intros e s. Qed.

Lemma disc_spin L L' : disc L (spin (A := A)) L'.
Proof. by intros e s. Qed.

Lemma disc_switch L' : disc [LPtable] (switch (A := A)) L'.
Proof. by intros e s. Qed.

Lemma disc_nth_ok L msg (l : list A) i : disc L (nth_ok msg l i) L.
Proof. unfold nth_ok. destruct (l !! i); [apply disc_ret|apply disc_fault]. Qed.

Lemma disc_for_each L (l : list A) (body : A -> K unit) : (forall x, disc L (body x) L) -> disc L (for_each l body) L.
Proof. intros Hb. induction l as [|x l IH]; cbn [for_each]; [by intros e s|]. eapply disc_bind; [apply Hb|intros _; exact IH]. Qed.
End Rules.

Lemma disc_bind_assoc {A B C} L L' (m : K A) (f : A -> K B) (g : B -> K C) :
  disc L (x <- m ;; y <- f x ;; g y) L' -> disc L (y <- (x <- m ;; f x) ;; g y) L'.
Proof. intros H e s Hs. rewrite bind_assoc. by apply H. Qed.

Lemma disc_get L : disc L get L.
Proof. by intros e s. Qed.

Lemma disc_modify L f : (forall s, lkpart (f s) = lkpart s) -> disc L (modify f) L.
Proof. intros Hf e s Hs. by apply (holds_lkpart e L s). Qed.

Lemma disc_when L b (m : K unit) : disc L m L -> disc L (when b m) L.
Proof. destruct b; [done|]. intros _. apply disc_ret. Qed.

#[export] Hint Resolve disc_switch disc_ret disc_get disc_gets disc_panic disc_fault disc_spin disc_nth_ok : disc.
#[export] Hint Extern 1 (disc _ (modify _) _) => apply disc_modify; intros; reflexivity : disc.

(** Follow the code; a routine that is called has its rule in the database. *)
Ltac disc_leaf := solve [eauto 2 with disc nocore].

Ltac disc :=
  cbv beta zeta;
  lazymatch goal with
  | |- disc _ (bind (bind _ _) _) _ => apply disc_bind_assoc; disc
  | |- disc _ (bind _ _) _ => eapply disc_bind; [disc_first|intros ?; disc]
  | |- disc _ (if ?b then _ else _) _ => destruct b; disc
  | |- disc _ (match ?x with _ => _ end) _ => destruct x; disc
  | |- disc _ (when _ _) _ => first [disc_leaf|apply disc_when; disc]
  | |- disc _ (for_each _ _) _ => first [disc_leaf|apply disc_for_each; intros ?; disc]
  | |- _ => disc_leaf
  end
with disc_first :=
  first [disc_leaf | match goal with |- disc ?L _ ?L1 => unify L L1 end; disc].

(** ** Locks *)

Lemma disc_acquire L lk : disc L (acquire lk) (lk :: L).
Proof.
  intros e s (Hnd & Hl & Hn & He). destruct (acquire lk s) as [u s'| | |s'|] eqn:E; try done.
  - apply acquire_inv in E as [Hf ->]. assert (lk ∉ L) by (rewrite <- Hl; by rewrite Hf).
    split; [by constructor|]. split; [|split].
    + intros lk'. simpl. rewrite elem_of_cons, <- Hl. destruct (decide (lk' = lk)) as [->|Hne].
      * rewrite lookup_insert_eq. naive_solver.
      * rewrite lookup_insert_ne by done. naive_solver.
    + simpl. rewrite Hn. lia.
    + simpl. split; [done|]. rewrite Hn. destruct L; [done|]. destruct He as [_ <-]. by rewrite (proj2 (Z.eqb_neq _ _)) by (simpl; lia).
  - exfalso. revert E. unfold acquire. rewrite (bind_ok _ _ _ _ _ (pushcli_run s)). unfold holding. rewrite bind_assoc, bind_get.
    rewrite bind_ret. destruct (bool_decide _); [done|]. rewrite bind_get. by destruct (_ !! lk).
Qed.

Lemma filter_other (lk : lockid) (L : list lockid) : lk ∉ L -> filter (fun l => l <> lk) L = L.
Proof.
  induction L as [|x L IH]; intros Hn; [done|]. apply not_elem_of_cons in Hn as [Hx Hn].
  rewrite filter_cons_True by (intros ->; done). by rewrite IH.
Qed.

(** Any lock that is held can be released; the others stay. *)
Lemma release_holds e L lk s : holds e L s -> lawful e (filter (fun l => l <> lk) L) (release lk s).
Proof.
  intros (Hnd & Hl & Hn & He). destruct (decide (lk ∈ L)) as [Hin|Hin].
  2:{ unfold release. rewrite (bind_ok _ _ _ _ _ (holding_run lk s)). rewrite bool_decide_eq_false_2; [done|]. by rewrite Hl. }
  assert (0 < ncli (k_cpu s)) as H0 by (rewrite Hn; destruct L; [by apply not_elem_of_nil in Hin|simpl; lia]).
  assert (eflags_if (k_cpu s) = false /\ intena (k_cpu s) = e) as [Hi He'] by (destruct L; [simpl in *; lia|done]).
  rewrite release_run; [|by apply Hl|split; [lia|done]|done]. simpl.
  assert (Z.of_nat (length (filter (fun l => l <> lk) L)) = ncli (k_cpu s) - 1) as Hlen.
  { rewrite Hn. clear - Hnd Hin. apply elem_of_Permutation in Hin as [L' HL]. rewrite HL in Hnd |- *.
    apply list.NoDup_cons in Hnd as [Hni Hnd]. rewrite filter_cons_False by (intros H; by apply H).
    rewrite filter_other by done. simpl. lia. }
  split; [by apply list.NoDup_filter|]. split; [|split].
  - intros lk'. simpl. rewrite list_elem_of_filter, <- Hl. destruct (decide (lk' = lk)) as [->|Hne].
    + rewrite lookup_delete_eq. naive_solver.
    + rewrite lookup_delete_ne by done. naive_solver.
  - simpl. by rewrite Hlen.
  - simpl. rewrite He'. destruct (filter _ L) as [|x L'] eqn:E; simpl in Hlen |- *.
    + replace (ncli (k_cpu s)) with 1 by lia. done.
    + by rewrite (proj2 (Z.eqb_neq (ncli (k_cpu s)) 1)) by lia.
Qed.

Lemma disc_release L lk : disc (lk :: L) (release lk) L.
Proof.
  intros e s Hs. pose proof (release_holds _ _ lk _ Hs) as Hr. destruct Hs as (Hnd & _). apply list.NoDup_cons in Hnd as [Hni _].
  rewrite filter_cons_False in Hr by (intros H; by apply H). by rewrite filter_other in Hr.
Qed.

Lemma disc_holding L lk : disc L (holding lk) L.
Proof. by intros e s. Qed.

(** A lock that is not held may be initialised. *)
Lemma disc_initlock L lk : lk ∉ L -> disc L (initlock lk) L.
Proof.
  intros Hni e s (Hnd & Hl & Hn & He). split; [done|]. split; [|done]. intros lk'. simpl. rewrite <- Hl.
  destruct (decide (lk' = lk)) as [->|Hne]; [|by rewrite lookup_delete_ne].
  rewrite lookup_delete_eq. split; [done|]. rewrite Hl. done.
Qed.

#[export] Hint Resolve disc_acquire disc_release disc_holding : disc.

(** A section under a lock that is taken only if [b]. *)
Lemma disc_section {A} L lk (b : bool) (m : K A) :
  (forall L, disc L m L) -> disc L (when b (acquire lk) ;; r <- m ;; when b (release lk) ;; ret r) L.
Proof. intros Hm. destruct b; cbn [when]; disc. Qed.

(** ** The processor and the process table *)

Lemma disc_myproc L : disc L myproc L.
Proof. unfold myproc. disc. Qed.
Lemma disc_get_proc L i : disc L (get_proc i) L.
Proof. unfold get_proc. disc. Qed.
Lemma disc_set_proc L i f : disc L (set_proc i f) L.
Proof. unfold set_proc. disc. Qed.
#[export] Hint Resolve disc_myproc disc_get_proc disc_set_proc : disc.

(** [sched] goes on to the scheduler with [ptable.lock] alone, or stops the kernel. *)
Lemma disc_sched L L' : disc L sched L'.
Proof.
  intros e s Hs. unfold sched. rewrite (bind_ok _ _ _ _ _ (holding_run LPtable s)).
  case_bool_decide as Hp; [|done]. change (negb true) with false. cbv iota. rewrite bind_gets.
  destruct (Z.eqb_spec (ncli (k_cpu s)) 1) as [H1|]; [|done]. change (negb true) with false. cbv iota.
  assert (L = [LPtable]) as ->.
  { destruct Hs as (_ & Hl & Hn & _). apply Hl in Hp. destruct L as [|x [|y L]]; simpl in Hn; try lia.
    apply list_elem_of_singleton in Hp. by subst. }
  unfold myproc, get_proc, nth_ok. unfold bind, gets, get. destruct (k_proc s) as [me|]; [|done]. simpl.
  destruct (pt_proc (k_ptable s) !! me) as [p|]; [|done]. simpl. destruct (st_eqb (p_state p) RUNNING); [done|].
  destruct (eflags_if (k_cpu s)); [done|]. exact Hs.
Qed.
#[export] Hint Resolve disc_sched : disc.

(** Whatever it holds, a process that goes to sleep keeps to the discipline or panics. *)
Lemma disc_sleep L L' c lk : disc L (sleep c lk) L'.
Proof.
  unfold sleep. eapply disc_bind; [disc_leaf|]. intros [me|]; [|disc]. case_bool_decide; cbn [negb when].
  - eapply disc_bind; [disc_leaf|]. intros _. disc.
  - apply disc_bind_assoc. eapply disc_bind; [disc_leaf|]. intros _.
    eapply disc_bind; [intros e s Hs; apply release_holds; exact Hs|]. intros _. disc.
Qed.

Lemma disc_yield L : disc L yield L.
Proof. unfold yield. disc. Qed.
Lemma disc_wakeup1 L c : disc L (wakeup1 c) L.
Proof. unfold wakeup1. disc. Qed.
#[export] Hint Resolve disc_sleep disc_yield disc_wakeup1 : disc.
Lemma disc_wakeup L c : disc L (wakeup c) L.
Proof. unfold wakeup. disc. Qed.
Lemma disc_kill L pid : disc L (kill pid) L.
Proof. unfold kill. disc. Qed.
#[export] Hint Resolve disc_wakeup disc_kill : disc.

(** ** Printing and pages *)

Lemma disc_consputc L (c : Z) : disc L (consputc c) L.
Proof. unfold consputc. disc. Qed.
#[export] Hint Resolve disc_consputc : disc.
Lemma disc_printint L (xx base : Z) (sign : bool) : disc L (printint xx base sign) L.
Proof. unfold printint. disc. Qed.
#[export] Hint Resolve disc_printint : disc.
Lemma disc_cprintf_loop L (fmt : list Z) (args : list parg) : disc L (cprintf_loop fmt args) L.
Proof.
  revert args. induction fmt as [fmt IH] using (induction_ltof1 _ length). intros args. unfold ltof in IH.
  destruct fmt as [|c f]; cbn [cprintf_loop]; [disc|].
  assert (forall args, disc L (cprintf_loop f args) L) as Hf by (apply IH; simpl; lia).
  destruct (negb (c =? 37)); [disc|]. destruct f as [|c2 f]; [disc|].
  assert (forall args, disc L (cprintf_loop f args) L) as Hf2 by (apply IH; simpl; lia). clear IH Hf. disc.
Qed.
#[export] Hint Resolve disc_cprintf_loop : disc.
Lemma disc_cprintf L (fmt : list Z) (args : list parg) : disc L (cprintf fmt args) L.
Proof. unfold cprintf. eapply disc_bind; [disc_leaf|]. intros []; cbn [when]; disc. Qed.
#[export] Hint Resolve disc_cprintf : disc.


(** The allocator's lock is used once the kernel has started; no section changes that. *)
Lemma disc_kmem {A} L (m : K A) :
  (forall L, disc L m L) -> (forall s, use_lock (k_kmem (final (m s))) = use_lock (k_kmem s)) ->
  disc L (lock_kmem ;; r <- m ;; unlock_kmem ;; ret r) L.
Proof.
  intros Hm Hu e s Hs. unfold lock_kmem. rewrite bind_assoc, bind_gets. destruct (use_lock (k_kmem s)) eqn:E; cbn [when].
  - pose proof (disc_acquire L LKmem e s Hs) as Ha. unfold bind at 1. destruct (acquire LKmem s) as [u s1| | | |] eqn:Ea; try done.
    apply acquire_inv in Ea as [_ ->]. pose proof (Hm _ e _ Ha) as H1. specialize (Hu (lock_st LKmem s)).
    unfold bind at 1. destruct (m (lock_st LKmem s)) as [a s1| | | |]; try done.
    unfold unlock_kmem. rewrite bind_assoc, bind_gets. simpl in Hu. rewrite Hu, E.
    pose proof (disc_release L LKmem e s1 H1) as Hr. cbn [when]. unfold bind. by destruct (release LKmem s1).
  - rewrite bind_ret. pose proof (Hm _ e _ Hs) as H1. specialize (Hu s). unfold bind at 1. destruct (m s) as [a s1| | | |]; try done.
    unfold unlock_kmem. rewrite bind_assoc, bind_gets. simpl in Hu. by rewrite Hu, E.
Qed.

Lemma disc_ext {A} L L' (m m' : K A) : (forall s, m s = m' s) -> disc L m' L' -> disc L m L'.
Proof. intros He Hm e s Hs. rewrite He. by apply Hm. Qed.

Lemma disc_kfree L (v : Z) : disc L (kfree v) L.
Proof.
  unfold kfree. eapply disc_bind; [disc_leaf|]. intros s0. destruct (_ || _); [disc|]. eapply disc_bind; [disc_leaf|]. intros _.
  eapply disc_ext; [|apply (disc_kmem L (modify (fun s => s <| k_mem ::= fun m => store32 m (V2P v) (freelist (k_kmem s)) |>
    <| k_kmem ::= fun km => km <| freelist := v |> |>))); [intros; disc|done]].
  intros s. unfold bind. destruct (lock_kmem s); try done. simpl. by destruct (unlock_kmem _) as [[]| | | |].
Qed.
#[export] Hint Resolve disc_kfree : disc.
Lemma disc_kalloc L : disc L kalloc L.
Proof.
  unfold kalloc. eapply disc_ext; [|apply (disc_kmem L (r <- gets (fun s => freelist (k_kmem s)) ;;
    when (nz r) (modify (fun s => s <| k_kmem ::= fun km => km <| freelist := run_next (k_mem s) r |> |>)) ;; ret r))].
  - intros s. unfold bind. destruct (lock_kmem s) as [u s1| | | |]; try done. simpl. by destruct (nz _).
  - intros. disc.
  - intros s. unfold bind. simpl. by destruct (nz _).
Qed.
#[export] Hint Resolve disc_kalloc : disc.
Lemma disc_freerange_loop L (n : nat) (p vend : Z) : disc L (freerange_loop n p vend) L.
Proof. revert p vend. induction n; intros; cbn [freerange_loop]; disc. Qed.
#[export] Hint Resolve disc_freerange_loop : disc.
Lemma disc_freerange L (vstart vend : Z) : disc L (freerange vstart vend) L.
Proof. unfold freerange. disc. Qed.
#[export] Hint Resolve disc_freerange : disc.

Lemma disc_ld32 L (a : Z) : disc L (ld32 a) L.
Proof. unfold ld32. disc. Qed.
#[export] Hint Resolve disc_ld32 : disc.
Lemma disc_st32 L (a v : Z) : disc L (st32 a v) L.
Proof. unfold st32. disc. Qed.
#[export] Hint Resolve disc_st32 : disc.
Lemma disc_memset_k L (a c n : Z) : disc L (memset_k a c n) L.
Proof. unfold memset_k. disc. Qed.
#[export] Hint Resolve disc_memset_k : disc.
Lemma disc_memmove_k L (dst src n : Z) : disc L (memmove_k dst src n) L.
Proof. unfold memmove_k. disc. Qed.
#[export] Hint Resolve disc_memmove_k : disc.
Lemma disc_walkpgdir L (pgdir va : Z) (alloc : bool) : disc L (walkpgdir pgdir va alloc) L.
Proof. unfold walkpgdir. disc. Qed.
#[export] Hint Resolve disc_walkpgdir : disc.
Lemma disc_mappages_loop L (n : nat) (pgdir a last pa perm : Z) : disc L (mappages_loop n pgdir a last pa perm) L.
Proof. revert pgdir a last pa perm. induction n; intros; cbn [mappages_loop]; disc. Qed.
#[export] Hint Resolve disc_mappages_loop : disc.
Lemma disc_mappages L (pgdir va size pa perm : Z) : disc L (mappages pgdir va size pa perm) L.
Proof. unfold mappages. disc. Qed.
#[export] Hint Resolve disc_mappages : disc.
Lemma disc_setupkvm_loop L (pgdir : Z) (ks : list kmap_t) : disc L (setupkvm_loop pgdir ks) L.
Proof. induction ks; intros; cbn [setupkvm_loop]; disc. Qed.
#[export] Hint Resolve disc_setupkvm_loop : disc.
Lemma disc_setupkvm L : disc L setupkvm L.
Proof. unfold setupkvm. disc. Qed.
#[export] Hint Resolve disc_setupkvm : disc.
Lemma disc_switchkvm L : disc L switchkvm L.
Proof. unfold switchkvm. disc. Qed.
#[export] Hint Resolve disc_switchkvm : disc.
Lemma disc_kvmalloc L : disc L kvmalloc L.
Proof. unfold kvmalloc. disc. Qed.
#[export] Hint Resolve disc_kvmalloc : disc.

Lemma holds_wf e L s : holds e L s -> cpu_wf (k_cpu s).
Proof. intros (_ & _ & Hn & He). split; [lia|]. intros H0. destruct L; [simpl in *; lia|]. by destruct He. Qed.

Lemma holds_settle e L s : holds e L s -> holds e L (s <| k_cpu ::= settle |>).
Proof.
  intros (Hnd & Hl & Hn & He). split; [done|]. split; [done|]. split; [done|]. destruct L; [done|].
  destruct He as [H1 H2]. split; [done|]. simpl. by rewrite (proj2 (Z.eqb_neq _ _)) by (rewrite Hn; simpl; lia).
Qed.

(** Interrupts are off in [switchuvm] without a lock. *)
Lemma disc_switchuvm L (p : nat) : disc L (switchuvm p) L.
Proof.
  intros e s Hs. pose proof (holds_wf _ _ _ Hs) as Hwf. unfold switchuvm. rewrite (bind_ok _ _ _ _ _ (pushcli_run s)).
  unfold myproc, get_proc, nth_ok. unfold bind at 1 2. simpl. destruct (k_proc s) as [me|]; [|done]. simpl. unfold bind at 1 2, get. simpl.
  destruct (pt_proc (k_ptable s) !! me) as [mp|]; [|done]. simpl. unfold bind at 1 2 3, get. simpl.
  destruct (pt_proc (k_ptable s) !! p) as [pp|]; [|done]. simpl. destruct (p_pgdir pp =? 0); [done|]. unfold bind, modify. rewrite popcli_run.
  - simpl. eapply holds_lkpart; [|exact (holds_settle _ _ _ Hs)]. unfold lkpart. simpl. by rewrite pop_push.
  - by apply push_wf.
  - simpl. destruct Hwf. lia.
Qed.
#[export] Hint Resolve disc_switchuvm : disc.
Lemma disc_inituvm L (pgdir : Z) (init : list Z) : disc L (inituvm pgdir init) L.
Proof. unfold inituvm. disc. Qed.
#[export] Hint Resolve disc_inituvm : disc.
Lemma disc_deallocuvm_loop L (n : nat) (pgdir a oldsz : Z) : disc L (deallocuvm_loop n pgdir a oldsz) L.
Proof. revert pgdir a oldsz. induction n; intros; cbn [deallocuvm_loop]; disc. Qed.
#[export] Hint Resolve disc_deallocuvm_loop : disc.
Lemma disc_deallocuvm L (pgdir oldsz newsz : Z) : disc L (deallocuvm pgdir oldsz newsz) L.
Proof. unfold deallocuvm. disc. Qed.
#[export] Hint Resolve disc_deallocuvm : disc.
Lemma disc_allocuvm_loop L (n : nat) (pgdir a newsz oldsz : Z) : disc L (allocuvm_loop n pgdir a newsz oldsz) L.
Proof. revert pgdir a newsz oldsz. induction n; intros; cbn [allocuvm_loop]; disc. Qed.
#[export] Hint Resolve disc_allocuvm_loop : disc.
Lemma disc_allocuvm L (pgdir oldsz newsz : Z) : disc L (allocuvm pgdir oldsz newsz) L.
Proof. unfold allocuvm. disc. Qed.
#[export] Hint Resolve disc_allocuvm : disc.
Lemma disc_freevm L (pgdir : Z) : disc L (freevm pgdir) L.
Proof. unfold freevm. disc. Qed.
#[export] Hint Resolve disc_freevm : disc.
Lemma disc_clearpteu L (pgdir uva : Z) : disc L (clearpteu pgdir uva) L.
Proof. unfold clearpteu. disc. Qed.
#[export] Hint Resolve disc_clearpteu : disc.
Lemma disc_copyuvm_loop L (n : nat) (pgdir d i sz : Z) : disc L (copyuvm_loop n pgdir d i sz) L.
Proof. revert pgdir d i sz. induction n; intros; cbn [copyuvm_loop]; disc. Qed.
#[export] Hint Resolve disc_copyuvm_loop : disc.
Lemma disc_copyuvm L (pgdir sz : Z) : disc L (copyuvm pgdir sz) L.
Proof. unfold copyuvm. disc. Qed.
#[export] Hint Resolve disc_copyuvm : disc.
Lemma disc_uva2ka L (pgdir uva : Z) : disc L (uva2ka pgdir uva) L.
Proof. unfold uva2ka. disc. Qed.
#[export] Hint Resolve disc_uva2ka : disc.
Lemma disc_copyout_loop L (n : nat) (pgdir va : Z) (buf : list Z) : disc L (copyout_loop n pgdir va buf) L.
Proof. revert pgdir va buf. induction n; intros; cbn [copyout_loop]; disc. Qed.
#[export] Hint Resolve disc_copyout_loop : disc.
Lemma disc_copyout L (pgdir va : Z) (buf : list Z) : disc L (copyout pgdir va buf) L.
Proof. unfold copyout. disc. Qed.
#[export] Hint Resolve disc_copyout : disc.

Lemma disc_uload8 L (va : Z) : disc L (uload8 va) L.
Proof. unfold uload8. disc. Qed.
#[export] Hint Resolve disc_uload8 : disc.
Lemma disc_uload32 L (va : Z) : disc L (uload32 va) L.
Proof. unfold uload32. disc. Qed.
#[export] Hint Resolve disc_uload32 : disc.
Lemma disc_ustore8 L (va b : Z) : disc L (ustore8 va b) L.
Proof. unfold ustore8. disc. Qed.
#[export] Hint Resolve disc_ustore8 : disc.
Lemma disc_ustore L (va : Z) (l : list Z) : disc L (ustore va l) L.
Proof. revert va. induction l; intros; cbn [ustore]; disc. Qed.
#[export] Hint Resolve disc_ustore : disc.
Lemma disc_uload L (va : Z) (n : nat) : disc L (uload va n) L.
Proof. revert va. induction n; intros; cbn [uload]; disc. Qed.
#[export] Hint Resolve disc_uload : disc.
Lemma disc_cur L : disc L cur L.
Proof. unfold cur. disc. Qed.
#[export] Hint Resolve disc_cur : disc.
Lemma disc_fetchint L (addr : Z) : disc L (fetchint addr) L.
Proof. unfold fetchint. disc. Qed.
#[export] Hint Resolve disc_fetchint : disc.
Lemma disc_fetchstr_loop L (n : nat) (s : Z) : disc L (fetchstr_loop n s) L.
Proof. revert s. induction n; intros; cbn [fetchstr_loop]; disc. Qed.
#[export] Hint Resolve disc_fetchstr_loop : disc.
Lemma disc_fetchstr L (addr : Z) : disc L (fetchstr addr) L.
Proof. unfold fetchstr. disc. Qed.
#[export] Hint Resolve disc_fetchstr : disc.
Lemma disc_argint L (n : Z) : disc L (argint n) L.
Proof. unfold argint. disc. Qed.
#[export] Hint Resolve disc_argint : disc.
Lemma disc_argptr L (n size : Z) : disc L (argptr n size) L.
Proof. unfold argptr. disc. Qed.
#[export] Hint Resolve disc_argptr : disc.
Lemma disc_argArray L (n size : Z) : disc L (argArray n size) L.
Proof. unfold argArray. disc. Qed.
#[export] Hint Resolve disc_argArray : disc.
Lemma disc_argstr L (n : Z) : disc L (argstr n) L.
Proof. unfold argstr. disc. Qed.
#[export] Hint Resolve disc_argstr : disc.

Lemma disc_acquiresleep_loop L (l : slid) : disc (LSleep l :: L) (acquiresleep_loop l) L.
Proof. unfold acquiresleep_loop. disc. Qed.
#[export] Hint Resolve disc_acquiresleep_loop : disc.
Lemma disc_acquiresleep L (l : slid) : disc L (acquiresleep l) L.
Proof. unfold acquiresleep. disc. Qed.
#[export] Hint Resolve disc_acquiresleep : disc.
Lemma disc_releasesleep L (l : slid) : disc L (releasesleep l) L.
Proof. unfold releasesleep. disc. Qed.
#[export] Hint Resolve disc_releasesleep : disc.
Lemma disc_holdingsleep L (l : slid) : disc L (holdingsleep l) L.
Proof. unfold holdingsleep. disc. Qed.
#[export] Hint Resolve disc_holdingsleep : disc.


(** ** The rest of [proc.c] below processes *)

Lemma disc_sortProcessFIFO L : disc L sortProcessFIFO L.
Proof. unfold sortProcessFIFO. disc. Qed.
#[export] Hint Resolve disc_sortProcessFIFO : disc.
Lemma disc_init_kstack L (i : nat) (kstack : Z) : disc L (init_kstack i kstack) L.
Proof. unfold init_kstack. disc. Qed.
#[export] Hint Resolve disc_init_kstack : disc.
Lemma disc_allocproc L : disc L allocproc L.
Proof. unfold allocproc. disc. Qed.
#[export] Hint Resolve disc_allocproc : disc.
Lemma disc_checkForHigherPiority L : disc L checkForHigherPiority L.
Proof. unfold checkForHigherPiority. disc. Qed.
#[export] Hint Resolve disc_checkForHigherPiority : disc.
Lemma disc_printAllRunningProcesses L : disc L printAllRunningProcesses L.
Proof. unfold printAllRunningProcesses. disc. Qed.
#[export] Hint Resolve disc_printAllRunningProcesses : disc.
Lemma disc_print_pcs L (pcs : list Z) : disc L (print_pcs pcs) L.
Proof. induction pcs; intros; cbn [print_pcs]; disc. Qed.
#[export] Hint Resolve disc_print_pcs : disc.
Lemma disc_procdump L : disc L procdump L.
Proof. unfold procdump. disc. Qed.
#[export] Hint Resolve disc_procdump : disc.

(** ** Being scheduled again

    The scheduler resumes a process with [ptable.lock] held and whatever [intena] it had
    itself; the process brings back the flag it saved. *)

Definition resumes {A} (m : bool -> K A) (L' : list lockid) : Prop :=
  forall e e' s, holds e' [LPtable] s -> lawful e L' (m e s).

Lemma resumes_bind {A B} L1 L2 (m : bool -> K A) (f : A -> K B) :
  resumes m L1 -> (forall a, disc L1 (f a) L2) -> resumes (fun saved => x <- m saved ;; f x) L2.
Proof. intros Hm Hf e e' s Hs. specialize (Hm e e' s Hs). unfold bind. destruct (m e s); try done. by apply Hf. Qed.

Lemma resumes_sched : resumes sched_resume [LPtable].
Proof. intros e e' s (Hnd & Hl & Hn & He & _). done. Qed.

Lemma resumes_yield : resumes yield_resume [].
Proof. apply (resumes_bind [LPtable]); [apply resumes_sched|]. intros. disc. Qed.

Lemma resumes_sleep lk : resumes (fun saved => sleep_resume saved lk) [lk].
Proof.
  apply (resumes_bind [LPtable]); [apply resumes_sched|]. intros _. eapply disc_bind; [disc_leaf|]. intros me.
  eapply disc_bind; [disc_leaf|]. intros _. case_bool_decide as H; cbn [negb when]; [subst; disc|disc].
Qed.

Lemma resumes_acquiresleep l : resumes (fun saved => acquiresleep_resume saved l) [].
Proof. apply (resumes_bind [LSleep l]); [apply resumes_sleep|]. intros. disc. Qed.
