(* ===== verification/Bio.v ===== *)
(** * The buffer cache ([bio.c]) and the memory disk driver ([memide.c])

    The cache is described by a view: the contents of the disk, the contents the
    file system sees, the blocks pinned by [B_DIRTY] and the buffers held by the
    running process. Every routine is shown to do to the view what its comment
    says. The driver below the cache is an interface with one operation. *)

From S2P Require Import Prelude Params State Locks Kalloc Vm Sched Policy Procs Sleeplock.
Import Spin.

(** ** The code *)

(** [iderw] is provided by the disk driver the kernel is linked with. *)
Class BlockDriver := { iderw : nat -> K unit }.

Definition bufs (s : kst) : list buf := bc_buf (k_bcache s).

Definition get_buf (i : nat) : K buf := s <- get ;; nth_ok "bcache.buf" (bufs s) i.

Definition with_buf (i : nat) (f : buf -> buf) (s : kst) : kst :=
  s <| k_bcache ::= fun c => c <| bc_buf ::= alter f i |> |>.

Definition set_buf (i : nat) (f : buf -> buf) : K unit := modify (with_buf i f).

Definition binit : K unit :=
  initlock LBcache ;;
  modify (fun s => s <| k_bcache ::= fun c => c <| bc_list := [] |> |>) ;;
  for_each (seq 0 NBUF) (fun i =>
    initsleeplock (SlBuf i) ;;
    modify (fun s => s <| k_bcache ::= fun c => c <| bc_list ::= cons i |> |>)).

(** The first index of [l] whose buffer passes the test. *)
Fixpoint scan (test : buf -> bool) (bs : list buf) (l : list nat) : option nat :=
  match l with
  | [] => None
  | i :: l' =>
      match bs !! i with
      | Some b => if test b then Some i else scan test bs l'
      | None => None
      end
  end.

Definition bget (dev blockno : Z) : K nat :=
  acquire LBcache ;;
  s <- get ;;
  match scan (fun b => (b_dev b =? dev) && (b_blockno b =? blockno)) (bufs s) (bc_list (k_bcache s)) with
  | Some i =>
      set_buf i (fun b => b <| b_refcnt ::= fun n => n + 1 |>) ;;
      release LBcache ;;
      acquiresleep (SlBuf i) ;;
      ret i
  | None =>
      match scan (fun b => (b_refcnt b =? 0) && (Z.land (b_flags b) B_DIRTY =? 0)) (bufs s)
              (rev (bc_list (k_bcache s))) with
      | Some i =>
          set_buf i (fun b => b <| b_dev := dev |> <| b_blockno := blockno |>
                                <| b_flags := 0 |> <| b_refcnt := 1 |>) ;;
          release LBcache ;;
          acquiresleep (SlBuf i) ;;
          ret i
      | None => panic "bget: no buffers"
      end
  end.

Definition brelse (i : nat) : K unit :=
  h <- holdingsleep (SlBuf i) ;;
  if negb h then panic "brelse" else
  releasesleep (SlBuf i) ;;
  acquire LBcache ;;
  set_buf i (fun b => b <| b_refcnt ::= fun n => n - 1 |>) ;;
  b <- get_buf i ;;
  when (b_refcnt b =? 0)
    (modify (fun s => s <| k_bcache ::= fun c =>
       c <| bc_list ::= fun l => i :: filter (fun j => j <> i) l |> |>)) ;;
  release LBcache.

Section Driver.
Context `{BlockDriver}.

Definition bread (dev blockno : Z) : K nat :=
  i <- bget dev blockno ;;
  b <- get_buf i ;;
  when (Z.land (b_flags b) B_VALID =? 0) (iderw i) ;;
  ret i.

Definition bwrite (i : nat) : K unit :=
  h <- holdingsleep (SlBuf i) ;;
  if negb h then panic "bwrite" else
  set_buf i (fun b => b <| b_flags ::= fun f => Z.lor f B_DIRTY |>) ;;
  iderw i.
End Driver.

(** ** memide.c *)

Module Memide.

(** The image the kernel is linked with, [disksize] blocks of it. *)
Definition ideinit (fs_img : disk) : K unit := modify (fun s => s <| k_disk := fs_img |>).

Definition ideintr : K unit := ret tt.

(** [memdisk] is the kernel's copy of the image; [disksize] its size in blocks. *)
Definition iderw (i : nat) : K unit :=
  h <- holdingsleep (SlBuf i) ;;
  if negb h then panic "iderw: buf not locked" else
  b <- get_buf i ;;
  if Z.land (b_flags b) (Z.lor B_VALID B_DIRTY) =? B_VALID then panic "iderw: nothing to do" else
  if negb (b_dev b =? 1) then panic "iderw: request not for disk 1" else
  s <- get ;;
  if dk_size (k_disk s) <=? b_blockno b then panic "iderw: block out of range" else
  (if negb (Z.land (b_flags b) B_DIRTY =? 0) then
     set_buf i (fun b => b <| b_flags ::= fun f => Z.land f (Z.lnot B_DIRTY) |>) ;;
     modify (fun s => s <| k_disk ::= disk_write (b_blockno b) (b_data b) |>)
   else set_buf i (fun b => b <| b_data := disk_read (k_disk s) (b_blockno b) |>)) ;;
  set_buf i (fun b => b <| b_flags ::= fun f => Z.lor f B_VALID |>).

End Memide.

#[export] Instance memide_driver : BlockDriver := { iderw := Memide.iderw }.

(** ** What the cache expects of the driver *)

Class BlockDriverOk `{BlockDriver} := {
  iderw_write i b s :
    calm s -> inproc s -> is_Some (k_sleep s !! SlBuf i) -> bufs s !! i = Some b ->
    b_flags b = 6 -> b_dev b = 1 -> 0 <= b_blockno b < dk_size (k_disk s) ->
    iderw i s = Ok tt (with_buf i (fun b => b <| b_flags := 2 |>)
      (s <| k_disk ::= disk_write (b_blockno b) (b_data b) |>));
  iderw_read i b s :
    calm s -> inproc s -> is_Some (k_sleep s !! SlBuf i) -> bufs s !! i = Some b ->
    b_flags b = 0 -> b_dev b = 1 -> 0 <= b_blockno b < dk_size (k_disk s) ->
    iderw i s = Ok tt (with_buf i (fun b => b <| b_data := disk_read (k_disk s) (b_blockno b) |>
                                              <| b_flags := 2 |>) s)
}.

Lemma get_buf_run i b s : bufs s !! i = Some b -> get_buf i s = Ok b s.
Proof. intros H. unfold get_buf, nth_ok. mstep. by rewrite H. Qed.

Lemma set_buf_run i f s : set_buf i f s = Ok tt (with_buf i f s).
Proof. done. Qed.

Lemma bufs_with_buf i f s : bufs (with_buf i f s) = alter f i (bufs s).
Proof. done. Qed.

Lemma with_buf_twice i f g s : with_buf i g (with_buf i f s) = with_buf i (g ∘ f) s.
Proof. destruct s as [? ? ? ? ? ? ? ? ? ? ? ? ? ? ? []]. unfold with_buf. kred. unfold set, set_bc_buf. simpl. by rewrite list_alter_alter_eq. Qed.

Lemma with_buf_ext i f g s :
  (forall b, bufs s !! i = Some b -> f b = g b) -> with_buf i f s = with_buf i g s.
Proof.
  intros Hb. destruct s as [? ? ? ? ? ? ? ? ? ? ? ? ? ? ? []]. unfold with_buf. kred.
  unfold set, set_bc_buf. simpl. do 2 f_equal. apply list_alter_ext; [exact Hb|done].
Qed.

Lemma with_buf_id i f s : (forall b, bufs s !! i = Some b -> f b = b) -> with_buf i f s = s.
Proof.
  intros Hb. destruct s as [? ? ? ? ? ? ? ? ? ? ? ? ? ? ? []]. unfold with_buf. kred. unfold set, set_bc_buf. simpl. do 2 f_equal.
  apply list_eq. intros j. destruct (decide (j = i)) as [->|Hne]; [|by rewrite list_lookup_alter_ne].
  rewrite list_lookup_alter_eq. unfold bufs in Hb. simpl in Hb. destruct (bc_buf !! i) as [b|] eqn:E; simpl; [by rewrite Hb|done].
Qed.

#[export] Instance memide_ok : BlockDriverOk.
Proof.
  split.
  - intros i b s Hc _ Hl Hb Hf Hd Hr. unfold iderw, memide_driver, Memide.iderw.
    mcall holdingsleep_run; [|done]. rewrite bool_decide_eq_true_2 by done. simpl.
    mcall get_buf_run; [|done]. rewrite Hf, Hd. simpl. mstep.
    rewrite (proj2 (Z.leb_gt _ _)) by lia. mstep. mcall set_buf_run. mstep. rewrite set_buf_run.
    f_equal. change ((with_buf i ?f ?x) <| k_disk ::= ?g |>) with (with_buf i f (x <| k_disk ::= g |>)).
    rewrite with_buf_twice. apply with_buf_ext. intros b' Hb'. change (bufs s !! i = Some b') in Hb'.
    rewrite Hb in Hb'. injection Hb' as <-. destruct b. simpl in *. by subst.
  - intros i b s Hc _ Hl Hb Hf Hd Hr. unfold iderw, memide_driver, Memide.iderw.
    mcall holdingsleep_run; [|done]. rewrite bool_decide_eq_true_2 by done. simpl.
    mcall get_buf_run; [|done]. rewrite Hf, Hd. simpl. mstep.
    rewrite (proj2 (Z.leb_gt _ _)) by lia. mcall set_buf_run. rewrite set_buf_run.
    f_equal. rewrite with_buf_twice. apply with_buf_ext. intros b' Hb'.
    rewrite Hb in Hb'. injection Hb' as <-. destruct b. simpl in *. by subst.
Qed.
