(* ===== verification/Ide.v ===== *)
(** * The IDE disk driver ([ide.c])

    The driver keeps a queue of buffers; the first is the request the controller works
    on. A process that wants a block queues its buffer and sleeps, and the controller's
    interrupt finishes the first request and starts the next. Against a controller that
    obeys its commands, requests are served completely and in order. *)

From S2P Require Import Prelude Params State Locks Sched Procs Sleeplock Bio Io.
Import Spin.

(** ** The code *)

Definition SECTOR_SIZE : Z := 512.
Definition IDE_BSY : Z := 0x80.
Definition IDE_DRDY : Z := 0x40.
Definition IDE_DF : Z := 0x20.
Definition IDE_ERR : Z := 0x01.
Definition IDE_CMD_READ : Z := 0x20.
Definition IDE_CMD_WRITE : Z := 0x30.
Definition IDE_CMD_RDMUL : Z := 0xc4.
Definition IDE_CMD_WRMUL : Z := 0xc5.

Section Ide.
Context `{Ports}.

Definition ide_ready (r : Z) : bool := Z.land r (Z.lor IDE_BSY IDE_DRDY) =? IDE_DRDY.

Definition idewait (checkerr : bool) : K Z :=
  r <- poll patience (inb 0x1f7) ide_ready ;;
  ret (if checkerr && negb (Z.land r (Z.lor IDE_DF IDE_ERR) =? 0) then -1 else 0).

(** At most [n] looks at the status of disk 1. *)
Fixpoint probe_disk1 (n : nat) : K unit :=
  match n with
  | O => ret tt
  | S n' =>
      v <- inb 0x1f7 ;;
      if negb (v =? 0) then set_dev (fun d => d <| d_havedisk1 := true |>) else probe_disk1 n'
  end.

Definition ideinit : K unit :=
  initlock LIde ;;
  picenable IRQ_IDE ;;
  ncpu <- dev d_ncpu ;;
  ioapicenable IRQ_IDE (Z.of_nat ncpu - 1) ;;
  idewait false ;;
  outb 0x1f6 (Z.lor 0xe0 (Z.shiftl 1 4)) ;;
  probe_disk1 1000 ;;
  outb 0x1f6 (Z.lor 0xe0 (Z.shiftl 0 4)).

Definition idestart (i : nat) : K unit :=
  b <- get_buf i ;;
  if FSSIZE <=? b_blockno b then panic "incorrect blockno" else
  let sector_per_block := BSIZE / SECTOR_SIZE in
  let sector := b_blockno b * sector_per_block in
  let read_cmd := if sector_per_block =? 1 then IDE_CMD_READ else IDE_CMD_RDMUL in
  let write_cmd := if sector_per_block =? 1 then IDE_CMD_WRITE else IDE_CMD_WRMUL in
  if 7 <? sector_per_block then panic "idestart" else
  idewait false ;;
  outb 0x3f6 0 ;;
  outb 0x1f2 sector_per_block ;;
  outb 0x1f3 (Z.land sector 0xff) ;;
  outb 0x1f4 (Z.land (Z.shiftr sector 8) 0xff) ;;
  outb 0x1f5 (Z.land (Z.shiftr sector 16) 0xff) ;;
  outb 0x1f6 (Z.lor (Z.lor 0xe0 (Z.shiftl (Z.land (b_dev b) 1) 4)) (Z.land (Z.shiftr sector 24) 0x0f)) ;;
  if negb (Z.land (b_flags b) B_DIRTY =? 0) then
    outb 0x1f7 write_cmd ;;
    outsl 0x1f0 (b_data b)
  else outb 0x1f7 read_cmd.

(** The buffers linked from [idequeue] through [qnext], in order. *)
Definition set_queue (q : list nat) : K unit := modify (fun s => s <| k_idequeue := q |>).

Definition ideintr : K unit :=
  acquire LIde ;;
  q <- gets k_idequeue ;;
  match q with
  | [] => release LIde
  | i :: q' =>
      set_queue q' ;;
      b <- get_buf i ;;
      (if Z.land (b_flags b) B_DIRTY =? 0 then
         r <- idewait true ;;
         if 0 <=? r then
           l <- insl 0x1f0 (Z.to_nat (BSIZE / 4)) ;;
           set_buf i (fun b => b <| b_data := l |>)
         else ret tt
       else ret tt) ;;
      set_buf i (fun b => b <| b_flags ::= fun f => Z.lor f B_VALID |>) ;;
      set_buf i (fun b => b <| b_flags ::= fun f => Z.land f (Z.lnot B_DIRTY) |>) ;;
      wakeup (ChBuf i) ;;
      match q' with
      | [] => ret tt
      | j :: _ => idestart j
      end ;;
      release LIde
  end.

Definition unsynced (b : buf) : bool := negb (Z.land (b_flags b) (Z.lor B_VALID B_DIRTY) =? B_VALID).

(** [while((b->flags & (B_VALID|B_DIRTY)) != B_VALID) sleep(b, &idelock)], and the
    release after it. *)
Definition iderw_wait (i : nat) : K unit :=
  b <- get_buf i ;;
  if unsynced b then sleep (ChBuf i) LIde else release LIde.

(** A buffer linked twice would make the queue a cycle. *)
Definition iderw (i : nat) : K unit :=
  h <- holdingsleep (SlBuf i) ;;
  if negb h then panic "iderw: buf not locked" else
  b <- get_buf i ;;
  if negb (unsynced b) then panic "iderw: nothing to do" else
  havedisk1 <- dev d_havedisk1 ;;
  if negb (b_dev b =? 0) && negb havedisk1 then panic "iderw: ide disk 1 not present" else
  acquire LIde ;;
  q <- gets k_idequeue ;;
  (if bool_decide (i ∈ q) then fault "iderw: buffer queued twice" else set_queue (q ++ [i])) ;;
  when (bool_decide (q = [])) (idestart i) ;;
  iderw_wait i.

(** Woken up in [iderw]. *)
Definition iderw_resume (saved : bool) (i : nat) : K unit := sleep_resume saved LIde ;; iderw_wait i.
End Ide.

(** ** The controller

    Its registers, the command it was last given, and the sectors of its two disks, after
    the accesses [h]. *)

Inductive ide_cmd := Idle | Reading (drive sector : Z) | Writing (drive sector : Z).

Record ctl := mkCtl { c_count : Z; c_lba : Z * Z * Z; c_drv : Z; c_cmd : ide_cmd; c_disk : Z -> Z -> list Z }.

(** A disk with one sector replaced. *)
Definition put_sector (d n : Z) (l : list Z) (D : Z -> Z -> list Z) : Z -> Z -> list Z :=
  fun d' n' => if (d' =? d) && (n' =? n) then l else D d' n'.

Definition drive (c : ctl) : Z := Z.land (Z.shiftr (c_drv c) 4) 1.

Definition lba (c : ctl) : Z :=
  let '(lo, mid, hi) := c_lba c in lo + 2 ^ 8 * mid + 2 ^ 16 * hi + 2 ^ 24 * Z.land (c_drv c) 0x0f.

Definition ctl_out (port v : Z) (c : ctl) : ctl :=
  let '(mkCtl n (lo, mid, hi) drv cmd D) := c in
  if port =? 0x1f2 then mkCtl v (lo, mid, hi) drv cmd D
  else if port =? 0x1f3 then mkCtl n (v, mid, hi) drv cmd D
  else if port =? 0x1f4 then mkCtl n (lo, v, hi) drv cmd D
  else if port =? 0x1f5 then mkCtl n (lo, mid, v) drv cmd D
  else if port =? 0x1f6 then mkCtl n (lo, mid, hi) v cmd D
  else if port =? 0x1f7 then
    mkCtl n (lo, mid, hi) drv
      (if negb (n =? 1) then Idle
       else if v =? IDE_CMD_READ then Reading (drive c) (lba c)
       else if v =? IDE_CMD_WRITE then Writing (drive c) (lba c)
       else Idle) D
  else c.

Fixpoint ctl_after (D0 : Z -> Z -> list Z) (h : list pio) : ctl :=
  match h with
  | [] => mkCtl 0 (0, 0, 0) 0 Idle D0
  | e :: h' =>
      let c := ctl_after D0 h' in
      match e with
      | Out8 port v => ctl_out port v c
      | OutL port data =>
          match c_cmd c with
          | Writing d n => if port =? 0x1f0 then mkCtl (c_count c) (c_lba c) (c_drv c) Idle (put_sector d n data (c_disk c)) else c
          | _ => c
          end
      | _ => c
      end
  end.

(** The history after [n] looks at the status register. *)
Fixpoint looks `{Ports} (n : nat) (h : list pio) : list pio :=
  match n with
  | O => h
  | S n' => looks n' (In8 0x1f7 (u8 (port_in h 0x1f7)) :: h)
  end.

(** A controller that works: it gets ready, it reports no errors, and it delivers the
    sector it was told to read. *)
Record conforming `{Ports} (D0 : Z -> Z -> list Z) : Prop := {
  cf_ready h : exists n, (n <= patience)%nat /\ ide_ready (u8 (port_in (looks n h) 0x1f7)) = true;
  cf_no_error h : ide_ready (u8 (port_in h 0x1f7)) = true -> Z.land (u8 (port_in h 0x1f7)) (Z.lor IDE_DF IDE_ERR) = 0;
  cf_reads h d n : c_cmd (ctl_after D0 h) = Reading d n -> port_inl h 0x1f0 (Z.to_nat (BSIZE / 4)) = c_disk (ctl_after D0 h) d n
}.
