(* ===== verification/IdeSpec.v ===== *)
(** * The IDE driver serves requests in order *)

From S2P Require Import Prelude Params State Locks Sched Procs Sleeplock Bio Io Ide.
Import Spin.

Definition dirty (b : buf) : bool := negb (Z.land (b_flags b) B_DIRTY =? 0).
Definition synced (f : Z) : Z := Z.land (Z.lor f B_VALID) (Z.lnot B_DIRTY).

(** ** What a request does *)

(** The disk and the buffer after a request. *)
Definition serve1 (D : Z -> Z -> list Z) (b : buf) : (Z -> Z -> list Z) * buf :=
  if dirty b then (put_sector (b_dev b mod 2) (b_blockno b) (b_data b) D, b <| b_flags ::= synced |>)
  else (D, b <| b_data := D (b_dev b mod 2) (b_blockno b) |> <| b_flags ::= synced |>).

(** Requests one after the other, with what each of them ends with. *)
Fixpoint serve (D : Z -> Z -> list Z) (bs : list buf) : (Z -> Z -> list Z) * list buf :=
  match bs with
  | [] => (D, [])
  | b :: bs' => let '(D1, b1) := serve1 D b in let '(D2, bs2) := serve D1 bs' in (D2, b1 :: bs2)
  end.

Lemma serve_app D bs bs' :
  serve D (bs ++ bs') = ((serve (serve D bs).1 bs').1, (serve D bs).2 ++ (serve (serve D bs).1 bs').2).
Proof.
  revert D. induction bs as [|b0 bs IH]; intros D; simpl; [by destruct (serve D bs')|].
  destruct (serve1 D b0) as [D1 b1]. rewrite IH. by destruct (serve D1 bs).
Qed.

Lemma serve_length D bs : length (serve D bs).2 = length bs.
Proof.
  revert D. induction bs as [|b bs IH]; intros D; simpl; [done|]. destruct (serve1 D b) as [D1 b1].
  specialize (IH D1). destruct (serve D1 bs). simpl in *. by rewrite IH.
Qed.

Lemma synced_clean f : Z.land (synced f) (Z.lor B_VALID B_DIRTY) = B_VALID.
Proof.
  unfold synced. rewrite <- Z.land_assoc. change (Z.land (Z.lnot B_DIRTY) (Z.lor B_VALID B_DIRTY)) with B_VALID.
  rewrite Z.land_comm. apply Z.bits_inj'. intros n _. rewrite Z.land_spec, Z.lor_spec. destruct (Z.testbit B_VALID n), (Z.testbit f n); done.
Qed.

Lemma serve1_synced D b : unsynced (serve1 D b).2 = false.
Proof. unfold serve1, unsynced. destruct (dirty b); simpl; by rewrite synced_clean. Qed.

Lemma serve_synced D bs : Forall (fun b => unsynced b = false) (serve D bs).2.
Proof.
  revert D. induction bs as [|b bs IH]; intros D; simpl; [constructor|]. pose proof (serve1_synced D b) as Hb.
  destruct (serve1 D b) as [D1 b1]. specialize (IH D1). destruct (serve D1 bs). by constructor.
Qed.

Section Serving.
Context `{Ports} (D0 : Z -> Z -> list Z) (Hcf : conforming D0).

Notation ctl_of s := (ctl_after D0 (k_io s)).

(** ** The routines, one at a time *)

Lemma poll_run n s :
  (exists k, (k <= n)%nat /\ ide_ready (u8 (port_in (looks k (k_io s)) 0x1f7)) = true) ->
  exists es r h, poll n (inb 0x1f7) ide_ready s = Ok r (s <| k_io ::= app es |>) /\ ide_ready r = true /\
    r = u8 (port_in h 0x1f7) /\ ctl_after D0 (es ++ k_io s) = ctl_of s.
Proof.
  revert s. induction n as [|n IH]; intros s (k & Hk & Hr).
  - assert (k = 0%nat) as -> by lia. simpl in Hr. exists [In8 0x1f7 (u8 (port_in (k_io s) 0x1f7))], (u8 (port_in (k_io s) 0x1f7)), (k_io s).
    cbn [poll]. unfold inb, access. mstep. rewrite Hr. by destruct s.
  - set (v := u8 (port_in (k_io s) 0x1f7)). set (s1 := s <| k_io ::= cons (In8 0x1f7 v) |>).
    assert (inb 0x1f7 s = Ok v s1) as E by done. cbn [poll]. rewrite (bind_ok _ _ _ _ _ E).
    destruct (ide_ready v) eqn:Ev; [exists [In8 0x1f7 v], v, (k_io s); split_and!; [by destruct s|done..]|].
    destruct k as [|k]; [simpl in Hr; unfold v in Ev; congruence|].
    destruct (IH s1) as (es & r & h & E1 & Hr1 & Hh & Hc); [exists k; split; [lia|exact Hr]|].
    exists (es ++ [In8 0x1f7 v]), r, h. split_and!; [|done|done|].
    + rewrite E1. f_equal. unfold s1. destruct s. kred. by rewrite <- (assoc_L (++)).
    + rewrite <- (assoc_L (++)). exact Hc.
Qed.

Lemma idewait_run ck s :
  exists es, idewait ck s = Ok 0 (s <| k_io ::= app es |>) /\ ctl_after D0 (es ++ k_io s) = ctl_of s.
Proof.
  destruct (poll_run patience s (cf_ready _ Hcf (k_io s))) as (es & r & h & E & Hr & -> & Hc).
  exists es. split; [|done]. unfold idewait. rewrite (bind_ok _ _ _ _ _ E), (cf_no_error _ Hcf _ Hr). by rewrite andb_false_r.
Qed.

(** The controller is at work on [b], whose effect on the disk, if any, is already made. *)
Definition works_on (c : ctl) (D : Z -> Z -> list Z) (b : buf) : Prop :=
  if dirty b then c_disk c = put_sector (b_dev b mod 2) (b_blockno b) (b_data b) D
  else c_disk c = D /\ c_cmd c = Reading (b_dev b mod 2) (b_blockno b).

Lemma drive_reg d (n : Z) : 0 <= n < FSSIZE ->
  let v := u8 (Z.lor (Z.lor 0xe0 (Z.shiftl (Z.land d 1) 4)) (Z.land (Z.shiftr n 24) 0x0f)) in
  Z.land (Z.shiftr v 4) 1 = d mod 2 /\ Z.land v 0x0f = 0.
Proof.
  intros Hn. unfold FSSIZE in Hn.
  rewrite (Z.shiftr_div_pow2 n 24), (Z.div_small n) by lia.
  change (Z.land d 1) with (Z.land d (Z.ones 1)). rewrite Z.land_ones by lia. change (2 ^ 1) with 2.
  destruct (Z.mod_pos_bound d 2 ltac:(lia)). assert (d mod 2 = 0 \/ d mod 2 = 1) as [->| ->] by lia; done.
Qed.

Lemma lba_regs n : 0 <= n < FSSIZE ->
  u8 (Z.land n 0xff) + 2 ^ 8 * u8 (Z.land (Z.shiftr n 8) 0xff) + 2 ^ 16 * u8 (Z.land (Z.shiftr n 16) 0xff) + 2 ^ 24 * 0 = n.
Proof.
  intros Hn. unfold FSSIZE in Hn. change 0xff with (Z.ones 8). rewrite !Z.land_ones, !Z.shiftr_div_pow2 by lia.
  unfold u8. Z.to_euclidean_division_equations. lia.
Qed.

Lemma outb_bind {A} port v (k : K A) s : (outb port v ;; k) s = k (s <| k_io ::= cons (Out8 port (u8 v)) |>).
Proof. reflexivity. Qed.

(** The command the controller takes from its registers. *)
Lemma ctl_command v lo mid hi drv cmd D :
  let c := mkCtl 1 (lo, mid, hi) drv cmd D in
  ctl_out 0x1f7 v c = mkCtl 1 (lo, mid, hi) drv
    (if v =? IDE_CMD_READ then Reading (drive c) (lba c) else if v =? IDE_CMD_WRITE then Writing (drive c) (lba c) else Idle) D.
Proof. reflexivity. Qed.

Lemma ctl_registers c lo mid hi drv v :
  ctl_out 0x1f6 drv (ctl_out 0x1f5 hi (ctl_out 0x1f4 mid (ctl_out 0x1f3 lo (ctl_out 0x1f2 1 (ctl_out 0x3f6 v c))))) =
  mkCtl 1 (lo, mid, hi) drv (c_cmd c) (c_disk c).
Proof. destruct c as [n [[l0 m0] h0] d0 cmd D]. reflexivity. Qed.

(** What [idestart] writes to the registers for block [n] of disk [d], the latest first. *)
Definition start_regs (d n : Z) : list pio :=
  [Out8 0x1f6 (u8 (Z.lor (Z.lor 0xe0 (Z.shiftl (Z.land d 1) 4)) (Z.land (Z.shiftr n 24) 0x0f)));
   Out8 0x1f5 (u8 (Z.land (Z.shiftr n 16) 0xff)); Out8 0x1f4 (u8 (Z.land (Z.shiftr n 8) 0xff));
   Out8 0x1f3 (u8 (Z.land n 0xff)); Out8 0x1f2 1; Out8 0x3f6 0].

Definition start_cmd (b : buf) : list pio :=
  if dirty b then [OutL 0x1f0 (b_data b); Out8 0x1f7 IDE_CMD_WRITE] else [Out8 0x1f7 IDE_CMD_READ].

Lemma start_works b h : 0 <= b_blockno b < FSSIZE ->
  works_on (ctl_after D0 (start_cmd b ++ start_regs (b_dev b) (b_blockno b) ++ h)) (c_disk (ctl_after D0 h)) b.
Proof.
  intros Hn. destruct (drive_reg (b_dev b) (b_blockno b) Hn) as [Hd Hl]. pose proof (lba_regs _ Hn) as Hb. rewrite <- Hl in Hb.
  unfold start_regs. set (drv := u8 (Z.lor _ _)) in *.
  set (lo := u8 (Z.land (b_blockno b) 0xff)) in *. set (mid := u8 (Z.land (Z.shiftr (b_blockno b) 8) 0xff)) in *.
  set (hi := u8 (Z.land (Z.shiftr (b_blockno b) 16) 0xff)) in *. clearbody drv lo mid hi.
  unfold works_on, start_cmd. rewrite <- Hd, <- Hb.
  destruct (dirty b); cbn [app ctl_after]; rewrite ctl_registers, ctl_command; done.
Qed.

Lemma idestart_run i b s :
  bufs s !! i = Some b -> 0 <= b_blockno b < FSSIZE ->
  exists es, idestart i s = Ok tt (s <| k_io ::= app es |>) /\ works_on (ctl_after D0 (es ++ k_io s)) (c_disk (ctl_of s)) b.
Proof.
  intros Hb Hn. destruct (idewait_run false s) as (es & E & Hc).
  exists (start_cmd b ++ start_regs (b_dev b) (b_blockno b) ++ es). split.
  - unfold idestart. mcall get_buf_run; [|done]. rewrite (proj2 (Z.leb_gt _ _)) by lia. cbv zeta.
    change (BSIZE / SECTOR_SIZE) with 1. rewrite Z.mul_1_r. cbv iota. change (7 <? 1) with false. cbv iota.
    rewrite (bind_ok _ _ _ _ _ E), !outb_bind. unfold start_cmd, dirty.
    destruct (negb _); rewrite ?outb_bind; unfold outb, outsl, access, modify; f_equal; destruct s; reflexivity.
  - rewrite <- !(assoc_L (++)), <- Hc. by apply start_works.
Qed.

(** ** Requests in flight *)

Definition request_ok (s : kst) (r : nat * buf) : Prop :=
  bufs s !! r.1 = Some r.2 /\ unsynced r.2 = true /\ 0 <= b_blockno r.2 < FSSIZE.

(** [q] is waiting, the controller works on its first request, and [D] is the disk the
    requests before it have left. *)
Record serving (s : kst) (D : Z -> Z -> list Z) (q : list (nat * buf)) : Prop := {
  sv_queue : k_idequeue s = q.*1;
  sv_nodup : NoDup q.*1;
  sv_bufs : Forall (request_ok s) q;
  sv_work : match q with [] => c_disk (ctl_of s) = D | r :: _ => works_on (ctl_of s) D r.2 end
}.

Lemma request_ok_bufs s s' q : bufs s' = bufs s -> Forall (request_ok s) q -> Forall (request_ok s') q.
Proof. intros E Hq. eapply Forall_impl; [|exact Hq]. intros r. unfold request_ok. by rewrite E. Qed.

Lemma request_ok_other s i f q : i ∉ q.*1 -> Forall (request_ok s) q -> Forall (request_ok (with_buf i f s)) q.
Proof.
  intros Hi Hq. rewrite list.Forall_forall in *. intros r Hr. destruct (Hq r Hr) as (Hb & Hu & Hn).
  split; [|done]. rewrite bufs_with_buf, list_lookup_alter_ne; [done|]. intros ->. apply Hi. apply list_elem_of_fmap. by exists r.
Qed.

(** A caller of [iderw]. *)
Definition asks (s : kst) (i : nat) (b : buf) : Prop :=
  calm s /\ ncli (k_cpu s) = 0 /\ inproc s /\ is_Some (k_sleep s !! SlBuf i) /\ i ∉ k_idequeue s /\
  request_ok s (i, b) /\ (b_dev b = 0 \/ d_havedisk1 (k_devs s) = true).

(** What [iderw] has done when it waits. *)
Definition queued (i me : nat) (s s' : kst) : Prop :=
  exists es, s' = with_proc me (fun p => p <| p_chan := Some (ChBuf i) |> <| p_state := SLEEPING |>)
    (exchanged LIde (lock_st LIde (s <| k_idequeue ::= fun q => q ++ [i] |> <| k_io ::= app es |>))).

Lemma iderw_run s D q i b : serving s D q -> asks s i b ->
  exists s' me, k_proc s = Some me /\ iderw i s = Switch s' /\ queued i me s s' /\ serving s' D (q ++ [(i, b)]).
Proof.
  intros Hs (Hc & Hn & (me & p & Hme & Hp) & Hl & Hi & (Hb & Hu & Hrange) & Hdev).
  cbn [fst snd] in Hb, Hu, Hrange. set (s1 := lock_st LIde (s <| k_idequeue ::= fun q => q ++ [i] |>)).
  assert (exists es, when (bool_decide (k_idequeue s = [])) (idestart i) s1 = Ok tt (s1 <| k_io ::= app es |>) /\
    match q ++ [(i, b)] with [] => True | r :: _ => works_on (ctl_after D0 (es ++ k_io s)) D r.2 end) as (es & Es & Hw).
  { pose proof (sv_queue _ _ _ Hs) as Eq. pose proof (sv_work _ _ _ Hs) as Hw. rewrite Eq. destruct q as [|r q]; simpl.
    - destruct (idestart_run i b s1 Hb Hrange) as (es & E & Hw'). exists es. rewrite <- Hw. split; [exact E|exact Hw'].
    - exists []. split; [by destruct s|exact Hw]. }
  exists (with_proc me (fun p => p <| p_chan := Some (ChBuf i) |> <| p_state := SLEEPING |>) (exchanged LIde (s1 <| k_io ::= app es |>))), me.
  split_and!; [done|..].
  - unfold iderw. mcall holdingsleep_run; [|done]. rewrite bool_decide_eq_true_2 by done. change (negb true) with false. cbv iota.
    mcall get_buf_run; [|done]. rewrite Hu. change (negb true) with false. cbv iota. unfold dev. mstep.
    replace (negb (b_dev b =? 0) && negb (d_havedisk1 (k_devs s))) with false
      by (destruct Hdev as [->| ->]; [done|by rewrite andb_false_r]).
    cbv iota.
    mcall calm_acquire; [|done]. mstep. change (k_idequeue (lock_st LIde s)) with (k_idequeue s).
    rewrite bool_decide_eq_false_2 by done. unfold set_queue. mstep.
    rewrite (bind_ok _ _ _ _ _ Es). unfold iderw_wait. mcall get_buf_run; [|exact Hb]. rewrite Hu.
    destruct Hc as (HL & Hwf & _). apply (sleep_run me p); try done; simpl.
    + apply lookup_insert_eq.
    + intros _. by rewrite HL.
    + by apply push_wf.
    + lia.
  - by exists es.
  - constructor.
    + change (k_idequeue _) with (k_idequeue s ++ [i]). rewrite (sv_queue _ _ _ Hs), fmap_app. done.
    + rewrite fmap_app. simpl. apply list.NoDup_app. split_and!; [apply Hs| |apply NoDup_singleton].
      intros x Hx ->%list_elem_of_singleton. rewrite (sv_queue _ _ _ Hs) in Hi. done.
    + apply Forall_app. split; [apply (request_ok_bufs s); [done|apply Hs]|]. by constructor.
    + change (k_io _) with (es ++ k_io s). destruct q; exact Hw.
Qed.

(** The transfer at the start of the interrupt: the buffer of a read gets its sector. *)
Definition transfer (i : nat) (b : buf) : K unit :=
  if Z.land (b_flags b) B_DIRTY =? 0 then
    r <- idewait true ;;
    if 0 <=? r then
      l <- insl 0x1f0 (Z.to_nat (BSIZE / 4)) ;;
      set_buf i (fun b => b <| b_data := l |>)
    else ret tt
  else ret tt.

Lemma transfer_run i b s D : bufs s !! i = Some b -> works_on (ctl_of s) D b ->
  exists es l, transfer i b s = Ok tt (with_buf i (fun b => b <| b_data := l |>) (s <| k_io ::= app es |>)) /\
    serve1 D b = (c_disk (ctl_after D0 (es ++ k_io s)), b <| b_data := l |> <| b_flags ::= synced |>).
Proof.
  intros Hb Hw. unfold transfer, works_on, serve1, dirty in *. destruct (Z.land (b_flags b) B_DIRTY =? 0); simpl in *.
  - destruct Hw as [Hd Hcmd]. destruct (idewait_run true s) as (es & E & Hc).
    set (s1 := s <| k_io ::= app es |>). set (l := port_inl (k_io s1) 0x1f0 (Z.to_nat (BSIZE / 4))).
    exists (InL 0x1f0 l :: es), l. split.
    + rewrite (bind_ok _ _ _ _ _ E). simpl. unfold insl, access. mstep. reflexivity.
    + cbn [app ctl_after]. change (es ++ k_io s) with (k_io s1) in *. rewrite Hc, Hd. do 3 f_equal.
      unfold l. rewrite (cf_reads _ Hcf _ (b_dev b mod 2) (b_blockno b)); [by rewrite Hc, Hd|by rewrite Hc].
  - exists [], (b_data b). split.
    + rewrite with_buf_id; [by destruct s|]. intros b' Hb'. assert (b' = b) as -> by (unfold bufs in *; simpl in Hb'; congruence). by destruct b.
    + simpl. rewrite Hw. by destruct b.
Qed.

(** The rest of the interrupt, from the wakeup. *)
Lemma next_run i s q D :
  calm s -> k_idequeue s = q.*1 -> NoDup q.*1 -> Forall (request_ok s) q -> c_disk (ctl_of s) = D ->
  exists s', (wakeup (ChBuf i) ;; (match q.*1 with [] => ret tt | j :: _ => idestart j end) ;; release LIde) (lock_st LIde s) = Ok tt s' /\
    serving s' D q /\ bufs s' = bufs s /\ pts s' = wake_proc (ChBuf i) <$> pts s /\ calm s'.
Proof.
  intros Hc Hq Hnd Hok HD. set (s1 := woken (ChBuf i) s).
  assert (exists es, (match q.*1 with [] => ret tt | j :: _ => idestart j end) (lock_st LIde s1) = Ok tt (lock_st LIde s1 <| k_io ::= app es |>) /\
    match q with [] => c_disk (ctl_after D0 (es ++ k_io s)) = D | r :: _ => works_on (ctl_after D0 (es ++ k_io s)) D r.2 end) as (es & E & Hw).
  { destruct q as [|[j b] q]; [exists []; split; [by destruct s|done]|]. apply list.Forall_cons in Hok as [(Hb & _ & Hn) _].
    destruct (idestart_run j b (lock_st LIde s1) Hb Hn) as (es & E & Hw). exists es. split; [exact E|]. rewrite <- HD. exact Hw. }
  exists (s1 <| k_io ::= app es |>). split_and!.
  - mcall nested_wakeup; [|done..]. change (woken (ChBuf i) (lock_st LIde s)) with (lock_st LIde s1). rewrite (bind_ok _ _ _ _ _ E).
    by rewrite (calm_release LIde s).
  - constructor; [done|done| |exact Hw]. by apply (request_ok_bufs s).
  - done.
  - done.
  - exact Hc.
Qed.

Lemma woken_awake c ps : Forall (fun p => sleeps_on c p = false) (wake_proc c <$> ps).
Proof.
  apply list.Forall_forall. intros p (p0 & -> & _)%list_elem_of_fmap. unfold wake_proc. destruct (sleeps_on c p0) eqn:E; [|done].
  unfold sleeps_on. done.
Qed.

Lemma ideintr_run s D i b q : serving s D ((i, b) :: q) -> calm s ->
  exists s', ideintr s = Ok tt s' /\ serving s' (serve1 D b).1 q /\ bufs s' !! i = Some (serve1 D b).2 /\
    Forall (fun p => sleeps_on (ChBuf i) p = false) (pts s') /\ calm s'.
Proof.
  intros [Hq Hnd Hok Hw] Hc. apply list.Forall_cons in Hok as [(Hb & Hu & Hn) Hok]. apply list.NoDup_cons in Hnd as [Hi Hnd]. simpl in Hb, Hi, Hw.
  set (s0 := s <| k_idequeue := q.*1 |>).
  destruct (transfer_run i b (lock_st LIde s0) D Hb Hw) as (es & l & Et & Es).
  set (s2 := with_buf i (fun b => b <| b_data := l |> <| b_flags ::= synced |>) (s0 <| k_io ::= app es |>)).
  destruct (next_run i s2 q (serve1 D b).1) as (s' & E & Hs' & Hb' & Hp' & Hc').
  - exact Hc.
  - done.
  - done.
  - apply request_ok_other; [done|]. by apply (request_ok_bufs s).
  - rewrite Es. done.
  - exists s'. split_and!; [|done| | |done].
    + unfold ideintr. mcall calm_acquire; [|done]. mstep. change (k_idequeue (lock_st LIde s)) with (k_idequeue s). rewrite Hq.
      cbn [fmap list_fmap fst]. unfold set_queue. mstep. mcall get_buf_run; [|exact Hb]. fold (transfer i b).
      change (_ <| k_idequeue := _ |>) with (lock_st LIde s0). rewrite (bind_ok _ _ _ _ _ Et).
      mcall set_buf_run. mcall set_buf_run. rewrite !with_buf_twice. exact E.
    + rewrite Hb', Es. unfold s2. rewrite bufs_with_buf, list_lookup_alter_eq. change (bufs _) with (bufs s). by rewrite Hb.
    + rewrite Hp'. apply woken_awake.
Qed.

Lemma ideintr_idle s D : serving s D [] -> calm s -> exists s', ideintr s = Ok tt s' /\ serving s' D [] /\ calm s'.
Proof.
  intros Hs Hc. exists s. split_and!; [|done..]. unfold ideintr. mcall calm_acquire; [|done]. mstep.
  change (k_idequeue (lock_st LIde s)) with (k_idequeue s). rewrite (sv_queue _ _ _ Hs). simpl.
  rewrite (calm_release LIde s); [|done..]. f_equal. by destruct s.
Qed.

(** A process scheduled again in [iderw] after its request was served returns. *)
Lemma iderw_resume_run saved me i b s :
  k_locks s = {[LPtable := k_cpuid s]} -> ncli (k_cpu s) = 1 -> eflags_if (k_cpu s) = false -> k_proc s = Some me ->
  bufs s !! i = Some b -> unsynced b = false -> exists s', iderw_resume saved i s = Ok tt s' /\ calm s' /\ bufs s' = bufs s.
Proof.
  intros HL Hn Hi Hme Hb Hu. unfold iderw_resume. mcall sleep_back; [|done..]. set (s0 := _ <| k_cpu := _ |>).
  unfold iderw_wait. mcall get_buf_run; [|exact Hb]. rewrite Hu.
  assert (calm s0) as Hc by (split; [done|split; [split; simpl; lia|done]]).
  eexists. split; [by apply (calm_release LIde s0)|done].
Qed.

(** ** Any sequence of requests and interrupts *)

(** The rest of the kernel leaves the queue, the buffers on it and the controller alone. *)
Definition elsewhere (s s' : kst) : Prop :=
  k_idequeue s' = k_idequeue s /\ ctl_of s' = ctl_of s /\ forall i, i ∈ k_idequeue s -> bufs s' !! i = bufs s !! i.

(** What has happened since the disk held [D]: the requests made, in order, and the
    buffers interrupts have handed back, in order. *)
Inductive disk_trace (D : Z -> Z -> list Z) : kst -> list (nat * buf) -> list buf -> Prop :=
| dt_start s : k_idequeue s = [] -> c_disk (ctl_of s) = D -> disk_trace D s [] []
| dt_request s s' rs outs i b :
    disk_trace D s rs outs -> asks s i b -> iderw i s = Switch s' -> disk_trace D s' (rs ++ [(i, b)]) outs
| dt_interrupt s s' rs outs :
    disk_trace D s rs outs -> calm s -> ideintr s = Ok tt s' ->
    disk_trace D s' rs (outs ++ omap (fun i => bufs s' !! i) (take 1 (k_idequeue s)))
| dt_other s s' rs outs : disk_trace D s rs outs -> elsewhere s s' -> disk_trace D s' rs outs.

Lemma trace_serving D s rs outs : disk_trace D s rs outs ->
  exists old q, rs = old ++ q /\ outs = (serve D old.*2).2 /\ serving s (serve D old.*2).1 q.
Proof.
  induction 1 as [s Hq HD|s s' rs outs i b _ (old & q & -> & -> & Hs) Ha E|s s' rs outs _ (old & q & -> & -> & Hs) Hc E|s s' rs outs _ (old & q & -> & -> & Hs) (E1 & E2 & E3)].
  - exists [], []. split_and!; [done|done|]. constructor; [done|constructor|constructor|done].
  - destruct (iderw_run _ _ _ _ _ Hs Ha) as (s1 & me & _ & E' & _ & Hs1). rewrite E in E'. injection E' as <-.
    exists old, (q ++ [(i, b)]). by rewrite (assoc_L (++)).
  - rewrite (sv_queue _ _ _ Hs). destruct q as [|[i b] q].
    + destruct (ideintr_idle _ _ Hs Hc) as (s1 & E' & Hs1 & _). rewrite E in E'. injection E' as <-.
      exists old, []. simpl. by rewrite !app_nil_r.
    + destruct (ideintr_run _ _ _ _ _ Hs Hc) as (s1 & E' & Hs1 & Hb & _). rewrite E in E'. injection E' as <-.
      exists (old ++ [(i, b)]), q. rewrite fmap_app, serve_app, <- (assoc_L (++)). simpl. rewrite Hb. simpl.
      destruct (serve1 (serve D old.*2).1 b). done.
  - exists old, q. split_and!; [done|done|]. destruct Hs as [Hq Hnd Hok Hw]. constructor; [congruence|done| |by rewrite E2].
    rewrite Hq in E3. rewrite list.Forall_forall in *. intros r Hr. destruct (Hok r Hr) as (Hb & Hu & Hn). split; [|done].
    rewrite E3; [done|]. apply list_elem_of_fmap. by exists r.
Qed.

(** C37. The IDE driver, on a controller that obeys its commands. Whatever processes and
    interrupts do, and in whatever order: the buffers handed back so far are those of the
    first requests made, each as if the requests had been carried out one after the
    other; the others are queued in the order they came; when none is left the disk is
    what the writes have made of it. Every further request is accepted and leaves its
    process asleep on its buffer, and every interrupt returns, handing back the first
    buffer valid and clean, with no process left asleep on it. *)
Theorem ide_serves_in_order D s rs outs : disk_trace D s rs outs ->
  outs = take (length outs) (serve D rs.*2).2 /\
  k_idequeue s = drop (length outs) rs.*1 /\
  (k_idequeue s = [] -> c_disk (ctl_of s) = (serve D rs.*2).1) /\
  (forall i b, asks s i b -> exists s' me, k_proc s = Some me /\ iderw i s = Switch s' /\ queued i me s s') /\
  (calm s -> exists s', ideintr s = Ok tt s' /\
     forall i q, k_idequeue s = i :: q ->
       (exists b, bufs s' !! i = Some b /\ unsynced b = false) /\ Forall (fun p => sleeps_on (ChBuf i) p = false) (pts s')).
Proof.
  intros Ht. destruct (trace_serving _ _ _ _ Ht) as (old & q & -> & -> & Hs). rewrite !fmap_app, serve_app, serve_length. simpl. split_and!.
  - rewrite take_app_le by (rewrite serve_length; lia). by rewrite take_ge by (rewrite serve_length; lia).
  - rewrite (sv_queue _ _ _ Hs). rewrite drop_app_ge by (rewrite !length_fmap; lia). by rewrite !length_fmap, Nat.sub_diag.
  - intros Hq. rewrite (sv_queue _ _ _ Hs) in Hq. destruct q; [|done]. exact (sv_work _ _ _ Hs).
  - intros i b Ha. destruct (iderw_run _ _ _ _ _ Hs Ha) as (s' & me & Hme & E & Hq & _). by exists s', me.
  - intros Hc. rewrite (sv_queue _ _ _ Hs). destruct q as [|[i b] q].
    + destruct (ideintr_idle _ _ Hs Hc) as (s' & E & _). by exists s'.
    + destruct (ideintr_run _ _ _ _ _ Hs Hc) as (s' & E & _ & Hb & Hp & _). exists s'. split; [done|].
      intros i' q' [= <- <-]. split; [|done]. eexists. split; [exact Hb|apply serve1_synced].
Qed.
End Serving.

(** A controller that is always ready and keeps what it is given. *)
Definition disk_ports (D : Z -> Z -> list Z) : Ports := {|
  port_in := fun _ _ => IDE_DRDY;
  port_inl := fun h _ _ => match c_cmd (ctl_after D h) with Reading d n => c_disk (ctl_after D h) d n | _ => [] end;
  reg_in := fun _ _ _ => 0;
  patience := 0
|}.

Lemma disk_ports_conforming D : @conforming (disk_ports D) D.
Proof.
  split.
  - intros h. exists 0%nat. done.
  - done.
  - intros h d n E. cbn [port_inl disk_ports]. by rewrite E.
Qed.

Definition test_disk : Z -> Z -> list Z := fun _ n => [n].

#[local] Instance ready_ports : Ports := disk_ports test_disk.

Lemma ready_conforming : conforming test_disk.
Proof. exact (disk_ports_conforming test_disk). Qed.

(** Process 0 holds buffers 0 and 1: block 5, to be read, and block 5, changed. *)
Definition disk_st : kst :=
  one_proc <| k_cpu := mkCpu 0 true true |> <| k_sleep := {[SlBuf 0 := 1; SlBuf 1 := 1]} |>
    <| k_devs ::= fun d => d <| d_havedisk1 := true |> |>
    <| k_bcache ::= fun c => c <| bc_buf := [mkBuf 0 1 5 1 []; mkBuf 6 1 5 1 [7]] |> |>.

Definition disk_st1 : kst := final (iderw 0 disk_st).

(** The scheduler has let the process go on. *)
Definition disk_st2 : kst := disk_st1 <| k_locks := ∅ |> <| k_cpu := mkCpu 0 true true |>.
Definition disk_st3 : kst := final (ideintr disk_st2).

Lemma disk_st_calm : calm disk_st.
Proof. split; [reflexivity|]. split; [split; [discriminate|discriminate]|reflexivity]. Qed.

Lemma disk_st2_calm : calm disk_st2.
Proof. split; [reflexivity|]. split; [split; [discriminate|discriminate]|reflexivity]. Qed.

Lemma elsewhere_locks `{Ports} D s l c : elsewhere D s (s <| k_locks := l |> <| k_cpu := c |>).
Proof. done. Qed.

Lemma disk_st_asks : iderw 0 disk_st = Switch disk_st1.
Proof. unfold disk_st1. apply switch_final. vm_compute. reflexivity. Qed.

Lemma disk_st_intr : ideintr disk_st2 = Ok tt disk_st3.
Proof. unfold disk_st3. apply ok_final. vm_compute. reflexivity. Qed.

Lemma ide_serves_in_order_witness :
  conforming test_disk /\ disk_trace test_disk test_disk disk_st3 [(0%nat, mkBuf 0 1 5 1 [])] [mkBuf 2 1 5 1 [5]] /\ k_idequeue disk_st3 = [].
Proof.
  assert (disk_trace test_disk test_disk disk_st3 [(0%nat, mkBuf 0 1 5 1 [])] [mkBuf 2 1 5 1 [5]]) as Ht.
  { assert ([mkBuf 2 1 5 1 [5]] = [] ++ omap (fun i => bufs disk_st3 !! i) (take 1 (k_idequeue disk_st2))) as -> by (vm_compute; reflexivity).
    apply (dt_interrupt test_disk test_disk disk_st2 disk_st3 _ []); [|exact disk_st2_calm|exact disk_st_intr].
    apply (dt_other _ _ disk_st1); [|apply elsewhere_locks].
    apply (dt_request _ _ disk_st disk_st1 [] [] 0 (mkBuf 0 1 5 1 [])); [by apply dt_start| |exact disk_st_asks].
    split; [exact disk_st_calm|]. split; [done|]. split; [exists 0%nat, running0; done|].
    split; [exists 1; vm_compute; reflexivity|]. split; [apply not_elem_of_nil|]. split; [|by right]. split; [done|]. split; [done|]. simpl. unfold FSSIZE. lia. }
  split; [exact ready_conforming|]. split; [exact Ht|].
  destruct (ide_serves_in_order test_disk ready_conforming _ _ _ _ Ht) as (_ & Hq & _). exact Hq.
Defined.
