(* ===== verification/BioSpec.v ===== *)
(** * What the buffer cache promises its clients

    The view of the cache, the relation between the view and the kernel state, and
    the effect of [bread], [bwrite], [brelse] and of changing a held buffer on it. *)

From S2P Require Import Prelude Params State Locks Kalloc Vm Sched Policy Procs Sleeplock Bio.
Import Spin.

(** ** The view *)

(** Disk 1 as the device has it and as readers of the cache see it, the blocks
    pinned in the cache, and the buffers the process holds with their blocks. *)
Record bview := mkView {
  v_disk : Z -> list Z;
  v_data : Z -> list Z;
  v_dirty : gset Z;
  v_held : list (nat * Z)
}.

#[export] Instance set_v_disk : Setter v_disk := ltac:(setter bview v_disk).
#[export] Instance set_v_data : Setter v_data := ltac:(setter bview v_data).
#[export] Instance set_v_dirty : Setter v_dirty := ltac:(setter bview v_dirty).
#[export] Instance set_v_held : Setter v_held := ltac:(setter bview v_held).

(** The contents of one block changed. *)
Definition upd_blk (f : Z -> list Z) (blk : Z) (d : list Z) : Z -> list Z :=
  fun b => if b =? blk then d else f b.

Lemma upd_blk_eq f blk d : upd_blk f blk d blk = d.
Proof. unfold upd_blk. by rewrite Z.eqb_refl. Qed.

Lemma upd_blk_ne f blk d b : b <> blk -> upd_blk f blk d b = f b.
Proof. intros H. unfold upd_blk. by rewrite (proj2 (Z.eqb_neq b blk)). Qed.

(** Reading the disk back. *)
Lemma disk_read_write b v d b' :
  disk_read (disk_write b v d) b' = upd_blk (disk_read d) b v b'.
Proof. unfold disk_read, disk_write, upd_blk. simpl. by rewrite (Z.eqb_sym b b'). Qed.

(** A buffer is unused, or caches a block of disk 1: clean, or dirty if pinned. It is
    referenced exactly while it is held. *)
Definition buf_ok (v : bview) (i : nat) (b : buf) : Prop :=
  ((b_dev b = 0 /\ b_flags b = 0) \/
   (b_dev b = 1 /\ b_data b = v_data v (b_blockno b) /\
    (b_flags b = 2 /\ b_blockno b ∉ v_dirty v \/ b_flags b = 6 /\ b_blockno b ∈ v_dirty v))) /\
  b_refcnt b = if bool_decide (i ∈ (v_held v).*1) then 1 else 0.

Record cache_ok (bs : list buf) (v : bview) : Prop := {
  co_len : length bs = NBUF;
  co_buf i b : bs !! i = Some b -> buf_ok v i b;
  co_uniq i j b c : bs !! i = Some b -> bs !! j = Some c -> b_dev b = 1 -> b_dev c = 1 ->
    b_blockno b = b_blockno c -> i = j;
  co_dirty blk : blk ∈ v_dirty v -> exists i b, bs !! i = Some b /\ b_dev b = 1 /\ b_blockno b = blk;
  co_held i blk : (i, blk) ∈ v_held v -> exists b, bs !! i = Some b /\ b_dev b = 1 /\ b_blockno b = blk;
  co_nodup : NoDup (v_held v).*1
}.

Definition bio_rel (s : kst) (v : bview) : Prop :=
  calm s /\ inproc s /\ bc_list (k_bcache s) ≡ₚ seq 0 NBUF /\ cache_ok (bufs s) v /\
  (forall i, is_Some (k_sleep s !! SlBuf i) <-> i ∈ (v_held v).*1) /\
  (forall blk, disk_read (k_disk s) blk = v_disk v blk) /\
  (forall blk, blk ∉ v_dirty v -> blk ∉ (v_held v).*2 -> v_data v blk = v_disk v blk).

(** What the cache's routines leave alone. *)
Definition bio_frame (s s' : kst) : Prop :=
  s' = s <| k_bcache := k_bcache s' |> <| k_sleep := k_sleep s' |> <| k_disk := k_disk s' |>
         <| k_ptable := k_ptable s' |> /\
  dk_size (k_disk s') = dk_size (k_disk s).

Lemma bio_frame_refl s : bio_frame s s.
Proof. split; [by destruct s|done]. Qed.

Lemma bio_frame_trans s1 s2 s3 : bio_frame s1 s2 -> bio_frame s2 s3 -> bio_frame s1 s3.
Proof.
  intros [E1 D1] [E2 D2]. split; [|congruence]. rewrite E2 at 1. rewrite E1 at 1. by destruct s1.
Qed.

Lemma bio_frame_log s s' : bio_frame s s' -> k_log s' = k_log s.
Proof. intros [-> _]. done. Qed.

Lemma bio_frame_size s s' : bio_frame s s' -> dk_size (k_disk s') = dk_size (k_disk s).
Proof. intros [_ E]. done. Qed.

(** ** Searching the list *)

Lemma scan_Some test bs l i :
  scan test bs l = Some i -> exists b, i ∈ l /\ bs !! i = Some b /\ test b = true.
Proof.
  induction l as [|j l IH]; simpl; [done|]. destruct (bs !! j) as [b|] eqn:Eb; [|done].
  destruct (test b) eqn:Et; intros H.
  - injection H as <-. exists b. split; [set_solver|done].
  - destruct (IH H) as (c & Hc & ? & ?). exists c. split; [set_solver|done].
Qed.

Lemma scan_None test bs l :
  scan test bs l = None -> (forall i, i ∈ l -> is_Some (bs !! i)) ->
  forall i b, i ∈ l -> bs !! i = Some b -> test b = false.
Proof.
  induction l as [|j l IH]; simpl; intros H Hall i b Hi Hb; [set_solver|].
  destruct (Hall j) as [c Ec]; [set_solver|]. rewrite Ec in H. destruct (test c) eqn:Et; [done|].
  apply elem_of_cons in Hi as [->|Hi]; [congruence|].
  apply (IH H) with (i := i); auto. intros k Hk. apply Hall. set_solver.
Qed.

Lemma cache_index bs v i : cache_ok bs v -> i ∈ seq 0 NBUF <-> is_Some (bs !! i).
Proof. intros H. rewrite elem_of_seq, lookup_lt_is_Some, (co_len _ _ H). lia. Qed.

(** ** Changing one buffer *)

Lemma cache_insert bs v v' i b b' :
  cache_ok bs v -> bs !! i = Some b -> buf_ok v' i b' ->
  (forall j c, j <> i -> bs !! j = Some c -> buf_ok v j c -> buf_ok v' j c) ->
  (b_dev b' = 1 -> forall j c, j <> i -> bs !! j = Some c -> b_dev c = 1 -> b_blockno c <> b_blockno b') ->
  (forall blk, blk ∈ v_dirty v' -> (b_dev b' = 1 /\ b_blockno b' = blk) \/
     (blk ∈ v_dirty v /\ ~ (b_dev b = 1 /\ b_blockno b = blk))) ->
  (forall j blk, (j, blk) ∈ v_held v' -> (j = i /\ b_dev b' = 1 /\ b_blockno b' = blk) \/
     (j <> i /\ (j, blk) ∈ v_held v)) ->
  NoDup (v_held v').*1 ->
  cache_ok (<[i := b']> bs) v'.
Proof.
  intros H Hb Hok Hother Huniq Hdirty Hheld Hnd.
  assert (i < length bs)%nat as Hi by eauto using lookup_lt_Some.
  split; [by rewrite length_insert, (co_len _ _ H)|..|exact Hnd].
  - intros j c [(-> & -> & _)|[Hne Hj]]%list_lookup_insert_Some; [done|].
    apply Hother; auto. by apply (co_buf _ _ H).
  - intros j k c d [(-> & -> & _)|[Hnj Hj]]%list_lookup_insert_Some
                   [(-> & -> & _)|[Hnk Hk]]%list_lookup_insert_Some Hc Hd Heq.
    + done.
    + exfalso. by apply (Huniq Hc k d).
    + exfalso. by apply (Huniq Hd j c).
    + by apply (co_uniq _ _ H j k c d).
  - intros blk [[Hd Hn]|[Hin Hne]]%Hdirty.
    + exists i, b'. split; [by rewrite list_lookup_insert_eq|done].
    + destruct (co_dirty _ _ H blk Hin) as (j & c & Hj & Hc & Hcb).
      assert (j <> i) as Hji by (intros ->; apply Hne; rewrite Hb in Hj; injection Hj as ->; done).
      exists j, c. split; [by rewrite list_lookup_insert_ne|done].
  - intros j blk [(-> & Hd & Hn)|[Hne Hin]]%Hheld.
    + exists b'. split; [by rewrite list_lookup_insert_eq|done].
    + destruct (co_held _ _ H j blk Hin) as (c & Hj & Hc). exists c.
      split; [by rewrite list_lookup_insert_ne|done].
Qed.

Lemma held_lookup v i blk : (i, blk) ∈ v_held v -> i ∈ (v_held v).*1 /\ blk ∈ (v_held v).*2.
Proof. intros H. split; apply list_elem_of_fmap; by exists (i, blk). Qed.

(** A held index has one block. *)
Lemma held_fun v i b1 b2 :
  NoDup (v_held v).*1 -> (i, b1) ∈ v_held v -> (i, b2) ∈ v_held v -> b1 = b2.
Proof.
  induction (v_held v) as [|[j b] l IH]; simpl; [set_solver|].
  intros [Hni Hnd]%list.NoDup_cons H1 H2.
  rewrite elem_of_cons in H1, H2. destruct H1 as [[= -> ->]|H1], H2 as [[= ]|H2].
  - done.
  - exfalso. apply Hni. apply list_elem_of_fmap. by exists (j, b2).
  - subst. exfalso. apply Hni. apply list_elem_of_fmap. by exists (j, b1).
  - auto.
Qed.

(** The blocks that keep a buffer from being recycled. *)
Definition in_use (v : bview) : gset Z := v_dirty v ∪ list_to_set (v_held v).*2.

(** With fewer blocks in use than buffers, one can be recycled. *)
Lemma free_buffer bs v :
  cache_ok bs v -> (size (in_use v) < NBUF)%nat ->
  exists i b, bs !! i = Some b /\ b_refcnt b = 0 /\ b_flags b <> 6.
Proof.
  intros H Hsz.
  destruct (decide (Exists (fun b => b_refcnt b = 0 /\ b_flags b <> 6) bs)) as [Hex|Hno].
  { apply Exists_exists in Hex as (b & Hin & Hb). apply list_elem_of_In in Hin.
    apply list_elem_of_lookup_1 in Hin as [i Hi]. eauto. }
  exfalso. apply not_Exists_Forall in Hno; [|apply _].
  assert (forall i b, bs !! i = Some b -> b_dev b = 1 /\ b_blockno b ∈ in_use v) as Hall.
  { intros i b Hi. pose proof (Forall_lookup_1 _ _ _ _ Hno Hi) as Hn. simpl in Hn.
    destruct (co_buf _ _ H i b Hi) as [Hk Hr]. unfold in_use.
    case_bool_decide as Eh.
    - apply list_elem_of_fmap in Eh as ([j blk] & Ei & Hin).
      simpl in Ei. subst i. destruct (co_held _ _ H _ _ Hin) as (c & Hc & Hd & Hn'). rewrite Hi in Hc. injection Hc as <-.
      split; [done|]. apply elem_of_union_r, elem_of_list_to_set. subst.
      by apply (held_lookup v j).
    - destruct Hk as [[Hd Hf]|(Hd & _ & [[Hf _]|[Hf Hin]])].
      + exfalso. apply Hn. split; [done|]. rewrite Hf. done.
      + exfalso. apply Hn. split; [done|]. rewrite Hf. done.
      + split; [done|]. by apply elem_of_union_l. }
  assert (NoDup (b_blockno <$> bs)) as Hnd.
  { apply NoDup_alt. intros i j x Hi Hj. rewrite list_lookup_fmap in Hi, Hj.
    apply fmap_Some in Hi as (b & Hi & ->). apply fmap_Some in Hj as (c & Hj & Heq).
    destruct (Hall i b Hi), (Hall j c Hj). by apply (co_uniq _ _ H i j b c). }
  assert (size (list_to_set (b_blockno <$> bs) : gset Z) = NBUF) as Hs.
  { rewrite size_list_to_set by done. by rewrite length_fmap, (co_len _ _ H). }
  assert ((list_to_set (b_blockno <$> bs) : gset Z) ⊆ in_use v) as Hsub.
  { intros x Hx. apply elem_of_list_to_set, list_elem_of_fmap in Hx as (b & -> & Hb).
    apply list_elem_of_lookup_1 in Hb as [i Hi]. by apply (Hall i b). }
  apply subseteq_size in Hsub. lia.
Qed.

(** ** bget and bread *)

(** The end of both paths of [bget]. *)
Lemma bget_tail i f me p s :
  calm s -> k_sleep s !! SlBuf i = None -> k_proc s = Some me -> pts s !! me = Some p ->
  (set_buf i f ;; release LBcache ;; acquiresleep (SlBuf i) ;; ret i) (lock_st LBcache s) =
  Ok i ((with_buf i f s) <| k_sleep ::= <[SlBuf i := p_pid p]> |>).
Proof.
  intros Hc Hl Hme Hp. mcall set_buf_run.
  erewrite bind_ok; [|by apply (calm_release _ s)]. cbv beta.
  assert ((with_buf i f (lock_st LBcache s)) <| k_locks := k_locks s |> <| k_cpu := k_cpu s |>
    = with_buf i f s) as -> by (by destruct s).
  mcall (acquiresleep_run (SlBuf i) me p); done.
Qed.

(** Taking a reference. *)
Lemma bio_rel_hold s v i b blk pid :
  bio_rel s v -> bufs s !! i = Some b -> i ∉ (v_held v).*1 -> b_dev b = 1 -> b_blockno b = blk ->
  bio_rel ((with_buf i (fun b => b <| b_refcnt ::= fun n => n + 1 |>) s) <| k_sleep ::= <[SlBuf i := pid]> |>)
    (v <| v_held ::= cons (i, blk) |>).
Proof.
  intros (Hc & Hin & Hp & Hok & Hsl & Hdk & Hdd) Hb Hni Hdev Hblk.
  split; [exact Hc|]. split; [exact Hin|]. split; [exact Hp|]. split.
  { change (bufs _) with (alter (fun b => b <| b_refcnt ::= fun n => n + 1 |>) i (bufs s)).
    rewrite (alter_as_insert _ _ _ b Hb).
    destruct (co_buf _ _ Hok i b Hb) as [Hkind Href]. rewrite bool_decide_eq_false_2 in Href by done.
    apply (cache_insert _ v _ i b); simpl; auto.
    - split; simpl; [exact Hkind|]. rewrite bool_decide_eq_true_2 by set_solver. lia.
    - intros j c Hne Hj [Hk Hr]. split; simpl; [exact Hk|]. rewrite Hr.
      repeat case_bool_decide; set_solver.
    - intros _ j c Hne Hj Hd Heq. apply Hne. by apply (co_uniq _ _ Hok j i c b).
    - intros blk' Hin'. destruct (decide (b_blockno b = blk')); [left; auto|right; split; [done|]]. tauto.
    - intros j blk' [[= -> ->]|Hin']%elem_of_cons; [auto|]. right. split; [|done].
      intros ->. apply Hni. by apply (held_lookup v i blk').
    - constructor; [done|]. apply (co_nodup _ _ Hok). }
  simpl. split; [|split; [exact Hdk|]].
  - intros j. rewrite elem_of_cons. destruct (decide (j = i)) as [->|Hne].
    + rewrite lookup_insert_eq. split; [auto|eauto].
    + rewrite lookup_insert_ne by congruence. rewrite Hsl. set_solver.
  - intros blk' H1 H2. apply Hdd; set_solver.
Qed.

(** Recycling a buffer for a block that is not cached. *)
Lemma bio_rel_recycle s v i b blk pid :
  bio_rel s v -> bufs s !! i = Some b -> i ∉ (v_held v).*1 -> b_flags b <> 6 ->
  (forall j c, bufs s !! j = Some c -> b_dev c = 1 -> b_blockno c <> blk) ->
  bio_rel ((with_buf i (fun _ => mkBuf 2 1 blk 1 (v_disk v blk)) s) <| k_sleep ::= <[SlBuf i := pid]> |>)
    (v <| v_held ::= cons (i, blk) |>).
Proof.
  intros (Hc & Hin & Hp & Hok & Hsl & Hdk & Hdd) Hb Hni Hf Hnc.
  assert (blk ∉ v_dirty v) as Hnd.
  { intros Hd. destruct (co_dirty _ _ Hok blk Hd) as (j & c & Hj & H1 & H2). by apply (Hnc j c). }
  assert (blk ∉ (v_held v).*2) as Hnh.
  { intros ([j blk'] & Heq & Hh)%list_elem_of_fmap. simpl in Heq. subst blk'.
    destruct (co_held _ _ Hok j blk Hh) as (c & Hj & H1 & H2). by apply (Hnc j c). }
  split; [exact Hc|]. split; [exact Hin|]. split; [exact Hp|]. split.
  { change (bufs _) with (alter (fun _ : buf => mkBuf 2 1 blk 1 (v_disk v blk)) i (bufs s)).
    rewrite (alter_as_insert _ _ _ b Hb).
    apply (cache_insert _ v _ i b); simpl; auto.
    - split; simpl; [right|by rewrite bool_decide_eq_true_2 by set_solver].
      split; [done|]. split; [symmetry; by apply Hdd|auto].
    - intros j c Hne Hj [Hk Hr]. split; simpl; [exact Hk|]. rewrite Hr.
      repeat case_bool_decide; set_solver.
    - intros _ j c Hne Hj Hd. by apply (Hnc j c).
    - intros blk' Hin'. right. split; [done|]. intros [Hd Heq].
      destruct (co_buf _ _ Hok i b Hb) as [[[? _]|(_ & _ & [[_ Hn]|[? _]])] _]; congruence.
    - intros j blk' [[= -> ->]|Hin']%elem_of_cons; [auto|]. right. split; [|done].
      intros ->. apply Hni. by apply (held_lookup v i blk').
    - constructor; [done|]. apply (co_nodup _ _ Hok). }
  simpl. split; [|split; [exact Hdk|]].
  - intros j. rewrite elem_of_cons. destruct (decide (j = i)) as [->|Hne].
    + rewrite lookup_insert_eq. split; [auto|eauto].
    + rewrite lookup_insert_ne by congruence. rewrite Hsl. set_solver.
  - intros blk' H1 H2. apply Hdd; set_solver.
Qed.

Section Specs.
Context `{BlockDriverOk}.

(** The cached copy of a block, if there is one. *)
Lemma scan_block s v blk :
  bio_rel s v ->
  match scan (fun b => (b_dev b =? 1) && (b_blockno b =? blk)) (bufs s) (bc_list (k_bcache s)) with
  | Some i => exists b, bufs s !! i = Some b /\ b_dev b = 1 /\ b_blockno b = blk
  | None => forall j c, bufs s !! j = Some c -> b_dev c = 1 -> b_blockno c <> blk
  end.
Proof.
  intros (_ & _ & Hp & Hok & _). destruct (scan _ _ _) as [i|] eqn:E.
  - apply scan_Some in E as (b & _ & Hb & Ht). exists b. breflect. done.
  - intros j c Hj Hd Hblk.
    assert (forall k, k ∈ bc_list (k_bcache s) -> is_Some (bufs s !! k)) as Hall.
    { intros k Hk. rewrite Hp in Hk. by apply (cache_index _ _ _ Hok). }
    assert (j ∈ bc_list (k_bcache s)) as Hjl.
    { rewrite Hp. apply (cache_index _ _ _ Hok). eauto. }
    pose proof (scan_None _ _ _ E Hall j c Hjl Hj) as Ht. simpl in Ht.
    rewrite Hd, Hblk, !Z.eqb_refl in Ht. done.
Qed.

Lemma scan_free s v :
  bio_rel s v -> (size (in_use v) < NBUF)%nat ->
  exists i b, scan (fun b => (b_refcnt b =? 0) && (Z.land (b_flags b) B_DIRTY =? 0)) (bufs s)
                (rev (bc_list (k_bcache s))) = Some i /\
    bufs s !! i = Some b /\ i ∉ (v_held v).*1 /\ b_flags b <> 6.
Proof.
  intros (_ & _ & Hp & Hok & _) Hsz. destruct (scan _ _ _) as [i|] eqn:E.
  - apply scan_Some in E as (b & _ & Hb & Ht). exists i, b. breflect. split_and!; [done|done|..].
    + destruct (co_buf _ _ Hok i b Hb) as [_ Hr]. case_bool_decide; [lia|done].
    + intros Hf. rewrite Hf in *. done.
  - exfalso. destruct (free_buffer _ _ Hok Hsz) as (i & b & Hb & Hr & Hf).
    assert (forall k, k ∈ rev (bc_list (k_bcache s)) <-> is_Some (bufs s !! k)) as Hall.
    { intros k. rewrite rev_alt, <- rev_alt. rewrite list_elem_of_In, <- in_rev, <- list_elem_of_In.
      rewrite Hp. by apply (cache_index _ _ _ Hok). }
    pose proof (scan_None _ _ _ E (fun k => proj1 (Hall k)) i b) as Ht.
    rewrite Hall in Ht. specialize (Ht ltac:(eauto) Hb). simpl in Ht. rewrite Hr in Ht. simpl in Ht.
    destruct (co_buf _ _ Hok i b Hb) as [[[_ Hfl]|(_ & _ & [[Hfl _]|[Hfl _]])] _];
      rewrite Hfl in Ht; done.
Qed.

(** [bread]: the process now holds a buffer with the block's contents. *)
Lemma bread_spec s v blk :
  bio_rel s v -> 0 <= blk < dk_size (k_disk s) -> blk ∉ (v_held v).*2 ->
  blk ∈ v_dirty v \/ (size (in_use v) < NBUF)%nat ->
  exists i s', bread 1 blk s = Ok i s' /\ bio_rel s' (v <| v_held ::= cons (i, blk) |>) /\
    bio_frame s s' /\ k_disk s' = k_disk s.
Proof.
  intros Hrel Hblk Hnh Hcap. pose proof Hrel as (Hc & (me & p & Hme & Hp) & Hperm & Hok & Hsl & Hdk & Hdd).
  unfold bread, bget. pose proof (scan_block s v blk Hrel) as Hscan.
  assert (forall i, i ∉ (v_held v).*1 -> k_sleep s !! SlBuf i = None) as Hnone.
  { intros i Hni. apply eq_None_not_Some. by rewrite Hsl. }
  mstep. mcall calm_acquire; [|done]. mstep.
  change (bufs (lock_st LBcache s)) with (bufs s).
  change (k_bcache (lock_st LBcache s)) with (k_bcache s).
  destruct (scan _ _ (bc_list (k_bcache s))) as [i|] eqn:E.
  - destruct Hscan as (b & Hb & Hd & Hn).
    assert (i ∉ (v_held v).*1) as Hni.
    { intros ([j blk'] & Heq & Hin)%list_elem_of_fmap. simpl in Heq. subst j.
      destruct (co_held _ _ Hok i blk' Hin) as (c & Hi & _ & Hc'). rewrite Hb in Hi. injection Hi as <-.
      apply Hnh. rewrite <- Hn, Hc'. by apply (held_lookup v i). }
    erewrite bind_ok; [|apply (bget_tail i _ me p s); auto]. cbv beta.
    erewrite bind_ok; [|apply get_buf_run; change (bufs _) with
      (alter (fun b => b <| b_refcnt ::= fun n => n + 1 |>) i (bufs s));
      rewrite list_lookup_alter_eq, Hb; reflexivity]. cbv beta.
    eexists i, _. split; [|split; [by apply (bio_rel_hold s v i b)|]].
    + assert ((Z.land (b_flags b) B_VALID =? 0) = false) as Hv.
      { destruct (co_buf _ _ Hok i b Hb) as [[[? _]|(_ & _ & [[-> _]|[-> _]])] _]; [congruence|done|done]. }
      simpl. rewrite Hv. reflexivity.
    + split; [|done]. split; [|done]. destruct s; reflexivity.
  - destruct Hcap as [Hd|Hsz].
    { exfalso. destruct (co_dirty _ _ Hok blk Hd) as (j & c & Hj & H1 & H2). by apply (Hscan j c). }
    destruct (scan_free s v Hrel Hsz) as (i & b & -> & Hb & Hni & Hf).
    erewrite bind_ok; [|apply (bget_tail i _ me p s); auto]. cbv beta.
    set (f := fun b : buf => b <| b_dev := 1 |> <| b_blockno := blk |> <| b_flags := 0 |> <| b_refcnt := 1 |>).
    set (s1 := (with_buf i f s) <| k_sleep ::= <[SlBuf i := p_pid p]> |>).
    assert (bufs s1 !! i = Some (f b)) as Hb1.
    { change (bufs s1) with (alter f i (bufs s)). by rewrite list_lookup_alter_eq, Hb. }
    mcall get_buf_run; [|exact Hb1]. simpl (b_flags (f b)). change (Z.land 0 B_VALID =? 0) with true.
    unfold when. erewrite bind_ok; [|apply (iderw_read i (f b) s1); try done].
    2:{ exists me, p. done. }
    2:{ simpl. rewrite lookup_insert_eq. eauto. }
    cbv beta. eexists i, _. split; [reflexivity|]. split.
    + pose proof (bio_rel_recycle s v i b blk (p_pid p) Hrel Hb Hni Hf Hscan) as Hr.
      match goal with |- bio_rel ?x _ => match type of Hr with bio_rel ?y _ => replace x with y end end; [exact Hr|].
      subst s1. change (with_buf i ?g ((with_buf i f s) <| k_sleep ::= ?h |>))
        with ((with_buf i g (with_buf i f s)) <| k_sleep ::= h |>).
      rewrite with_buf_twice. f_equal. apply with_buf_ext. intros c _. simpl. rewrite Hdk. by destruct c.
    + split; [|done]. split; [|done]. subst s1. destruct s; reflexivity.
Qed.

(** Changing the data of a held buffer changes what readers see. *)
Lemma bio_rel_data s v i blk d :
  bio_rel s v -> (i, blk) ∈ v_held v ->
  bio_rel (with_buf i (fun b => b <| b_data := d |>) s) (v <| v_data ::= fun f => upd_blk f blk d |>).
Proof.
  intros (Hc & Hin & Hp & Hok & Hsl & Hdk & Hdd) Hh.
  destruct (co_held _ _ Hok i blk Hh) as (b & Hb & Hdev & Hblk).
  split; [exact Hc|]. split; [exact Hin|]. split; [exact Hp|].
  split; [|split; [exact Hsl|split; [exact Hdk|]]].
  - rewrite bufs_with_buf, (alter_as_insert _ _ _ b Hb).
    destruct (co_buf _ _ Hok i b Hb) as [Hkind Href].
    apply (cache_insert _ v _ i b); simpl; auto.
    + split; simpl; [|exact Href]. right. destruct Hkind as [[? _]|(_ & _ & Hf)]; [congruence|].
      rewrite Hblk, upd_blk_eq. rewrite Hblk in Hf. done.
    + intros j c Hne Hj [Hk Hr]. split; simpl; [|exact Hr].
      destruct Hk as [?|(Hd & Hdat & Hf)]; [auto|right].
      rewrite upd_blk_ne; [done|]. intros Heq. apply Hne. apply (co_uniq _ _ Hok j i c b); congruence.
    + intros _ j c Hne Hj Hd Heq. apply Hne. by apply (co_uniq _ _ Hok j i c b).
    + intros blk' Hin'. destruct (decide (b_blockno b = blk')); [left; auto|right; split; [done|]]. tauto.
    + intros j blk' Hin'. destruct (decide (j = i)) as [->|Hne]; [left|right; done].
      split; [done|]. split; [done|]. rewrite Hblk. eapply held_fun; eauto. apply (co_nodup _ _ Hok).
    + apply (co_nodup _ _ Hok).
  - intros blk' H1 H2. simpl in *. rewrite upd_blk_ne; [by apply Hdd|].
    intros ->. apply H2. by apply (held_lookup v i).
Qed.

(** Marking a held buffer [B_DIRTY] pins its block. *)
Lemma bio_rel_pin s v i blk :
  bio_rel s v -> (i, blk) ∈ v_held v ->
  bio_rel (with_buf i (fun b => b <| b_flags ::= fun f => Z.lor f B_DIRTY |>) s)
    (v <| v_dirty ::= fun D => {[blk]} ∪ D |>).
Proof.
  intros (Hc & Hin & Hp & Hok & Hsl & Hdk & Hdd) Hh.
  destruct (co_held _ _ Hok i blk Hh) as (b & Hb & Hdev & Hblk).
  split; [exact Hc|]. split; [exact Hin|]. split; [exact Hp|].
  split; [|split; [exact Hsl|split; [exact Hdk|]]].
  - rewrite bufs_with_buf, (alter_as_insert _ _ _ b Hb).
    destruct (co_buf _ _ Hok i b Hb) as [Hkind Href].
    apply (cache_insert _ v _ i b); simpl; auto.
    + split; simpl; [|exact Href]. right. destruct Hkind as [[? _]|(_ & Hdat & Hf)]; [congruence|].
      split; [done|]. split; [done|]. right. split; [destruct Hf as [[-> _]|[-> _]]; done|set_solver].
    + intros j c Hne Hj [Hk Hr]. split; simpl; [|exact Hr].
      destruct Hk as [?|(Hd & Hdat & Hf)]; [auto|right]. split; [done|]. split; [done|].
      assert (b_blockno c <> blk) as Hcb
        by (intros Heq; apply Hne; apply (co_uniq _ _ Hok j i c b); congruence).
      destruct Hf as [[? ?]|[? ?]]; [left|right]; set_solver.
    + intros _ j c Hne Hj Hd Heq. apply Hne. by apply (co_uniq _ _ Hok j i c b).
    + intros blk' [->%elem_of_singleton|Hin']%elem_of_union; [auto|].
      destruct (decide (b_blockno b = blk')); [left; auto|right; split; [done|]]. tauto.
    + intros j blk' Hin'. destruct (decide (j = i)) as [->|Hne]; [left|right; done].
      split; [done|]. split; [done|]. rewrite Hblk. eapply held_fun; eauto. apply (co_nodup _ _ Hok).
    + apply (co_nodup _ _ Hok).
  - intros blk' H1 H2. simpl in *. apply Hdd; set_solver.
Qed.

(** A pinned buffer written to the disk is clean again. *)
Lemma bio_rel_clean s v i blk :
  bio_rel s v -> (i, blk) ∈ v_held v -> blk ∈ v_dirty v ->
  bio_rel (with_buf i (fun b => b <| b_flags := 2 |>) (s <| k_disk ::= disk_write blk (v_data v blk) |>))
    (v <| v_dirty ::= fun D => D ∖ {[blk]} |> <| v_disk ::= fun f => upd_blk f blk (v_data v blk) |>).
Proof.
  intros (Hc & Hin & Hp & Hok & Hsl & Hdk & Hdd) Hh Hd.
  destruct (co_held _ _ Hok i blk Hh) as (b & Hb & Hdev & Hblk).
  split; [exact Hc|]. split; [exact Hin|]. split; [exact Hp|].
  split; [|split; [exact Hsl|split]].
  - rewrite bufs_with_buf.
    change (bufs (s <| k_disk ::= disk_write blk (v_data v blk) |>)) with (bufs s).
    rewrite (alter_as_insert _ _ _ b Hb).
    destruct (co_buf _ _ Hok i b Hb) as [Hkind Href].
    apply (cache_insert _ v _ i b); simpl; auto.
    + split; simpl; [|exact Href]. right. destruct Hkind as [[? _]|(_ & Hdat & Hf)]; [congruence|].
      split; [done|]. split; [done|]. left. split; [done|set_solver].
    + intros j c Hne Hj [Hk Hr]. split; simpl; [|exact Hr].
      destruct Hk as [?|(Hdc & Hdat & Hf)]; [auto|right]. split; [done|]. split; [done|].
      assert (b_blockno c <> blk) as Hcb
        by (intros Heq; apply Hne; apply (co_uniq _ _ Hok j i c b); congruence).
      destruct Hf as [[? ?]|[? ?]]; [left|right]; set_solver.
    + intros _ j c Hne Hj Hdc Heq. apply Hne. by apply (co_uniq _ _ Hok j i c b).
    + intros blk' Hin'. right. split; [set_solver|]. intros [_ Heq]. set_solver.
    + intros j blk' Hin'. destruct (decide (j = i)) as [->|Hne]; [left|right; done].
      split; [done|]. split; [done|]. rewrite Hblk. eapply held_fun; eauto. apply (co_nodup _ _ Hok).
    + apply (co_nodup _ _ Hok).
  - intros blk'. simpl. rewrite disk_read_write. unfold upd_blk. by rewrite Hdk.
  - intros blk' H1 H2. simpl in *. destruct (decide (blk' = blk)) as [->|Hne].
    + by rewrite upd_blk_eq.
    + rewrite upd_blk_ne by done. apply Hdd; set_solver.
Qed.

(** [bwrite]: the block's contents go to the disk, and the block is no longer pinned. *)
Lemma bwrite_spec s v i blk :
  bio_rel s v -> (i, blk) ∈ v_held v -> 0 <= blk < dk_size (k_disk s) ->
  exists s', bwrite i s = Ok tt s' /\
    bio_rel s' (v <| v_dirty ::= fun D => D ∖ {[blk]} |> <| v_disk ::= fun f => upd_blk f blk (v_data v blk) |>) /\
    bio_frame s s' /\ k_disk s' = disk_write blk (v_data v blk) (k_disk s).
Proof.
  intros Hrel Hh Hblk. pose proof (bio_rel_pin s v i blk Hrel Hh) as Hpin.
  pose proof Hrel as (Hc & Hin & _ & Hok & Hsl & _). pose proof Hpin as (Hc1 & Hin1 & _ & Hok1 & Hsl1 & _).
  destruct (co_held _ _ Hok1 i blk Hh) as (b & Hb & Hdev & Hbno).
  destruct (co_buf _ _ Hok1 i b Hb) as [[[? _]|(_ & Hdat & [[_ ?]|[Hf _]])] _]; [congruence|set_solver|].
  simpl in Hdat. rewrite Hbno in Hdat.
  unfold bwrite. mcall holdingsleep_run; [|done]. rewrite bool_decide_eq_true_2.
  2:{ apply Hsl. by apply (held_lookup v i blk). }
  simpl. mcall set_buf_run. eexists. split; [apply (iderw_write i b); try done|].
  - apply Hsl1. by apply (held_lookup v i blk).
  - by rewrite Hbno.
  - rewrite Hbno, Hdat. split; [|split; [|done]].
    + pose proof (bio_rel_clean _ _ i blk Hpin Hh ltac:(set_solver)) as Hcl. simpl in Hcl.
      assert ((v <| v_dirty ::= fun D => {[blk]} ∪ D |> <| v_dirty ::= fun D => D ∖ {[blk]} |>
                 <| v_disk ::= fun f => upd_blk f blk (v_data v blk) |>) =
              (v <| v_dirty ::= fun D => D ∖ {[blk]} |> <| v_disk ::= fun f => upd_blk f blk (v_data v blk) |>)) as <-.
      { destruct v. unfold set, set_v_dirty, set_v_disk. simpl. f_equal. set_solver. }
      exact Hcl.
    + split; [|done]. destruct s; reflexivity.
Qed.

Lemma move_to_front l i : i ∈ l -> NoDup l -> i :: filter (fun j : nat => j <> i) l ≡ₚ l.
Proof.
  induction l as [|j l IH]; intros Hin Hnd; [set_solver|].
  apply list.NoDup_cons in Hnd as [Hni Hnd]. rewrite filter_cons. case_decide as E.
  - apply elem_of_cons in Hin as [?|Hin]; [congruence|]. rewrite Permutation_swap. by rewrite IH.
  - destruct (decide (j = i)) as [->|?]; [|tauto]. f_equiv.
    clear IH Hin. induction l as [|k l IH]; [done|]. rewrite filter_cons.
    apply list.NoDup_cons in Hnd as [_ Hnd]. rewrite decide_True by set_solver.
    f_equiv. apply IH; [set_solver|done].
Qed.

Lemma brelse_run i b s :
  calm s -> is_Some (k_sleep s !! SlBuf i) -> bufs s !! i = Some b -> b_refcnt b = 1 ->
  brelse i s = Ok tt (s
    <| k_bcache ::= fun c => mkBcache (alter (fun b => b <| b_refcnt ::= fun n => n - 1 |>) i (bc_buf c))
                               (i :: filter (fun j => j <> i) (bc_list c)) |>
    <| k_sleep ::= delete (SlBuf i) |>
    <| k_ptable ::= fun t => t <| pt_proc ::= fmap (wake_proc (ChSleep (SlBuf i))) |> |>).
Proof.
  intros Hc Hl Hb Href. unfold brelse. mcall holdingsleep_run; [|done].
  rewrite bool_decide_eq_true_2 by done. simpl (negb true). cbv iota.
  mcall releasesleep_run; [|done].
  set (s1 := woken (ChSleep (SlBuf i)) (s <| k_sleep ::= delete (SlBuf i) |>)).
  assert (calm s1) as Hc1 by exact Hc. mcall calm_acquire; [|exact Hc1].
  set (f := fun b : buf => b <| b_refcnt ::= fun n => n - 1 |>). mcall set_buf_run.
  assert (bufs s1 = bufs s) as Eb by reflexivity.
  erewrite bind_ok; [|apply (get_buf_run i (f b)); rewrite bufs_with_buf;
    change (bufs (lock_st LBcache s1)) with (bufs s1); by rewrite Eb, list_lookup_alter_eq, Hb].
  cbv beta. change (b_refcnt (f b)) with (b_refcnt b - 1). rewrite Href.
  change (1 - 1 =? 0) with true. unfold when. rewrite bind_modify.
  rewrite (calm_release _ s1); [|done..]. f_equal.
Qed.

(** [brelse]: the buffer is given back. Unless the block is pinned, its contents must
    be those of the disk. *)
Lemma brelse_spec s v i blk l :
  bio_rel s v -> v_held v ≡ₚ (i, blk) :: l -> blk ∈ v_dirty v \/ v_data v blk = v_disk v blk ->
  exists s', brelse i s = Ok tt s' /\ bio_rel s' (v <| v_held := l |>) /\
    bio_frame s s' /\ k_disk s' = k_disk s.
Proof.
  intros (Hc & Hin & Hp & Hok & Hsl & Hdk & Hdd) Hperm Hclean.
  assert ((i, blk) ∈ v_held v) as Hh by (rewrite Hperm; set_solver).
  assert (i ∈ (v_held v).*1) as Hi by (by apply (held_lookup v i blk)).
  destruct (co_held _ _ Hok i blk Hh) as (b & Hb & Hdev & Hbno).
  destruct (co_buf _ _ Hok i b Hb) as [Hkind Href]. rewrite bool_decide_eq_true_2 in Href by done.
  assert (NoDup ((i, blk) :: l).*1) as Hnd by (rewrite <- Hperm; apply (co_nodup _ _ Hok)).
  simpl in Hnd. apply list.NoDup_cons in Hnd as [Hni Hnd].
  assert (forall j, j ∈ (v_held v).*1 <-> j = i \/ j ∈ l.*1) as Hidx.
  { intros j. rewrite Hperm. simpl. by rewrite elem_of_cons. }
  eexists. split; [apply (brelse_run i b); auto; by apply Hsl|].
  split; [|split; [split; [destruct s; kred; reflexivity|done]|done]].
  split; [exact Hc|]. split; [exact (woken_inproc _ _ Hin)|]. split.
  { change (bc_list _) with (i :: filter (fun j => j <> i) (bc_list (k_bcache s))).
    rewrite move_to_front; [exact Hp| |].
    - rewrite Hp. apply (cache_index _ _ _ Hok). eauto.
    - rewrite Hp. apply NoDup_seq. }
  split; [|split; [|split; [exact Hdk|]]].
  - change (bufs _) with (alter (fun b => b <| b_refcnt ::= fun n => n - 1 |>) i (bufs s)).
    rewrite (alter_as_insert _ _ _ b Hb).
    apply (cache_insert _ v _ i b); simpl; auto.
    + split; simpl; [exact Hkind|]. rewrite bool_decide_eq_false_2 by done. lia.
    + intros j c Hne Hj [Hk Hr]. split; simpl; [exact Hk|]. rewrite Hr.
      assert (j ∈ (v_held v).*1 <-> j ∈ l.*1) as Hj' by (rewrite Hidx; tauto).
      by rewrite (bool_decide_ext _ _ Hj').
    + intros _ j c Hne Hj Hd Heq. apply Hne. by apply (co_uniq _ _ Hok j i c b).
    + intros blk' Hin'. destruct (decide (b_blockno b = blk')); [left; auto|right; split; [done|]]. tauto.
    + intros j blk' Hin'. right. split; [|rewrite Hperm; set_solver].
      intros ->. apply Hni. apply list_elem_of_fmap. by exists (i, blk').
  - intros j. simpl. destruct (decide (j = i)) as [->|Hne].
    + rewrite lookup_delete_eq. split; [by intros []|done].
    + rewrite lookup_delete_ne by congruence. rewrite Hsl, Hidx. tauto.
  - intros blk' H1 H2. simpl in *. destruct (decide (blk' = blk)) as [->|Hne]; [tauto|].
    apply Hdd; [done|]. rewrite Hperm. simpl. set_solver.
Qed.

(** ** The cache and the disk as one array of blocks *)

Inductive bop := BRead (blk : Z) | BWrite (blk : Z) (d : list Z).

Definition bop_blk (o : bop) : Z := match o with BRead b => b | BWrite b _ => b end.

(** A client of the cache: a block read, or a block overwritten and written out. *)
Definition run_bop (o : bop) : K (list Z) :=
  i <- bread 1 (bop_blk o) ;;
  b <- get_buf i ;;
  match o with
  | BRead _ => brelse i
  | BWrite _ d => set_buf i (fun b => b <| b_data := d |>) ;; bwrite i ;; brelse i
  end ;;
  ret (b_data b).

Fixpoint run_bops (os : list bop) : K (list (list Z)) :=
  match os with
  | [] => ret []
  | o :: os' => r <- run_bop o ;; rs <- run_bops os' ;; ret (r :: rs)
  end.

(** The same on an array. *)
Fixpoint array_bops (f : Z -> list Z) (os : list bop) : list (list Z) * (Z -> list Z) :=
  match os with
  | [] => ([], f)
  | BRead b :: os' => let '(rs, f') := array_bops f os' in (f b :: rs, f')
  | BWrite b d :: os' => let '(rs, f') := array_bops (upd_blk f b d) os' in (f b :: rs, f')
  end.

Definition flat (f : Z -> list Z) : bview := mkView f f ∅ [].

Lemma run_bop_run s f o :
  bio_rel s (flat f) -> 0 <= bop_blk o < dk_size (k_disk s) ->
  exists s', run_bop o s = Ok (f (bop_blk o)) s' /\ bio_frame s s' /\
    bio_rel s' (flat (match o with BRead _ => f | BWrite b d => upd_blk f b d end)).
Proof.
  intros R Hb. unfold run_bop.
  destruct (bread_spec s _ (bop_blk o) R Hb) as (i & s1 & E1 & R1 & F1 & D1); [set_solver|right; vm_compute; lia|].
  pose proof R1 as (_ & _ & _ & Hok & _).
  destruct (co_held _ _ Hok i (bop_blk o)) as (b & Hbuf & Hdev & Hno); [simpl; set_solver|].
  assert (b_data b = f (bop_blk o)) as Hd.
  { destruct (co_buf _ _ Hok i b Hbuf) as [[[? _]|(_ & -> & _)] _]; [congruence|]. by rewrite Hno. }
  mcall E1. mcall get_buf_run; [|done]. rewrite Hd. destruct o as [blk|blk d]; simpl bop_blk in *.
  - destruct (brelse_spec s1 _ i blk [] R1) as (s2 & E2 & R2 & F2 & D2); [done|by right|].
    exists s2. mcall E2. split; [done|]. split; [by eapply bio_frame_trans|done].
  - assert ((i, blk) ∈ v_held ((flat f) <| v_held ::= cons (i, blk) |>)) as Hh by (simpl; set_solver).
    destruct (bwrite_spec _ _ i blk (bio_rel_data s1 _ i blk d R1 Hh) Hh) as (s2 & E2 & R2 & F2 & D2).
    { change (k_disk (with_buf _ _ _)) with (k_disk s1). by rewrite D1. }
    destruct (brelse_spec s2 _ i blk [] R2) as (s3 & E3 & R3 & F3 & D3).
    { done. } { right. simpl. by rewrite !upd_blk_eq. }
    exists s3. rewrite bind_assoc. mcall set_buf_run. rewrite bind_assoc. mcall E2. mcall E3.
    split; [done|]. split.
    + eapply bio_frame_trans; [exact F1|]. eapply bio_frame_trans; [|exact F3].
      eapply bio_frame_trans; [|exact F2]. split; [by destruct s1|done].
    + simpl in R3. rewrite upd_blk_eq in R3.
      match goal with |- bio_rel _ ?v => match type of R3 with bio_rel _ ?w => replace v with w; [done|] end end.
      assert ((∅ : gset Z) ∖ {[blk]} = ∅) as E by set_solver. unfold flat. by rewrite <- E at 2.
Qed.

(** C5. Through any number of reads and writes of any blocks the buffer cache
    behaves as an array of blocks: every [bread] finds what was last written to its
    block, however the 30 buffers were recycled in between, and the disk ends up
    with the array's contents. *)
Theorem bcache_refines_array (os : list bop) (s : kst) (f : Z -> list Z) :
  bio_rel s (flat f) -> Forall (fun o => 0 <= bop_blk o < dk_size (k_disk s)) os ->
  exists s', run_bops os s = Ok (array_bops f os).1 s' /\
    bio_rel s' (flat (array_bops f os).2) /\
    (forall b, disk_read (k_disk s') b = (array_bops f os).2 b).
Proof.
  revert s f. induction os as [|o os IH]; intros s f R Hos.
  { exists s. split; [done|]. split; [done|]. intros b. destruct R as (_ & _ & _ & _ & _ & Hd & _). apply Hd. }
  apply list.Forall_cons in Hos as [Ho Hos].
  destruct (run_bop_run s f o R Ho) as (s1 & E1 & F1 & R1).
  destruct (IH s1 _ R1) as (s2 & E2 & R2 & D2); [by rewrite (bio_frame_size _ _ F1)|].
  exists s2. cbn [run_bops]. mcall E1. mcall E2.
  destruct o as [b|b d]; simpl in *; destruct (array_bops _ os) as [rs f']; done.
Qed.
End Specs.

(** ** binit *)

Lemma binit_loop l s :
  k_locks s = ∅ -> k_sleep s = ∅ ->
  for_each l (fun i => initsleeplock (SlBuf i) ;;
    modify (fun s => s <| k_bcache ::= fun c => c <| bc_list ::= cons i |> |>)) s =
  Ok tt (s <| k_bcache ::= fun c => c <| bc_list ::= app (rev l) |> |>).
Proof.
  revert s. induction l as [|i l IH]; intros s HL HS; cbn [for_each].
  { simpl. unfold ret. f_equal. by destruct s as [? ? ? ? ? ? ? ? ? ? ? ? ? ? ? []]. }
  unfold initsleeplock at 1, initlock. mstep. rewrite IH.
  - f_equal. destruct s as [? ? ? ? ? ? ? ? ? ? ? ? ? ? ? []]. kred. simpl in HL, HS. rewrite HL, HS, !delete_empty.
    unfold set, set_bc_list. simpl. by rewrite <- app_assoc.
  - simpl. by rewrite HL, delete_empty.
  - simpl. by rewrite HS, delete_empty.
Qed.

(** After [binit] the cache is empty and agrees with the disk. *)
Lemma binit_rel s :
  calm s -> inproc s -> k_sleep s = ∅ -> bufs s = replicate NBUF zero_buf ->
  exists s', binit s = Ok tt s' /\ bio_rel s' (flat (disk_read (k_disk s))) /\
    s' = s <| k_bcache ::= fun c => c <| bc_list := rev (seq 0 NBUF) |> |>.
Proof.
  intros Hc Hin HS HB. pose proof Hc as (HL & _).
  assert (forall i b, bufs s !! i = Some b -> b = zero_buf) as Hz.
  { intros i b Hi. rewrite HB in Hi. by apply lookup_replicate in Hi as [-> _]. }
  eexists. split; [|split; [|reflexivity]].
  - unfold binit, initlock. mstep. rewrite binit_loop; [|simpl; by rewrite HL, delete_empty|done].
    f_equal. destruct s as [? ? ? ? ? ? ? ? ? ? ? ? ? ? ? []]. kred. simpl in HL. rewrite HL, delete_empty.
    unfold set, set_bc_list. reflexivity.
  - split; [exact Hc|]. split; [exact Hin|]. split; [symmetry; apply (Permutation_rev (seq 0 NBUF))|].
    split; [|split; [intros i; simpl; rewrite HS, lookup_empty; split; [by intros []|by rewrite elem_of_nil]|done]].
    change (bufs _) with (bufs s). constructor; simpl.
    + by rewrite HB, length_replicate.
    + intros i b Hi. rewrite (Hz i b Hi). split; [by left|]. rewrite bool_decide_eq_false_2; [done|apply not_elem_of_nil].
    + intros i j b c Hi. by rewrite (Hz i b Hi).
    + set_solver.
    + set_solver.
    + constructor.
Qed.

(** One process running, on a processor that has released a lock before. *)
Definition settled_proc : kst := one_proc <| k_cpu := mkCpu 0 true true |>.

(** An empty cache. *)
Definition cache0 (image : Z -> list Z) : kst :=
  settled_proc <| k_disk := mkDisk FSSIZE image [] |>
           <| k_bcache ::= fun c => c <| bc_list := rev (seq 0 NBUF) |> |>.

Lemma settled_proc_calm : calm settled_proc /\ inproc settled_proc.
Proof.
  split; [split; [done|split; [split; simpl; [lia|lia]|reflexivity]]|]. by exists 0%nat, running0.
Qed.

Lemma cache0_rel image : bio_rel (cache0 image) (flat image).
Proof.
  destruct settled_proc_calm as [Hc Hin].
  destruct (binit_rel (settled_proc <| k_disk := mkDisk FSSIZE image [] |>)) as (s' & _ & R & E); try done.
  rewrite E in R. exact R.
Qed.

Lemma bcache_refines_array_witness :
  exists s', run_bops (H := memide_driver)
    [BWrite 3 [7]; BRead 5; BRead 3; BWrite 3 [8]; BRead 3] (cache0 (fun b => [b])) =
    Ok [[3]; [5]; [7]; [7]; [8]] s' /\ disk_read (k_disk s') 3 = [8].
Proof.
  destruct (bcache_refines_array (H := memide_driver) [BWrite 3 [7]; BRead 5; BRead 3; BWrite 3 [8]; BRead 3]
    (cache0 (fun b => [b])) (fun b => [b]) (cache0_rel _)) as (s' & E & _ & D).
  - repeat constructor; vm_compute; congruence.
  - exists s'. split; [exact E|]. by rewrite D.
Defined.
