(* ===== verification/Log.v ===== *)
(** * The write-ahead log ([log.c])

    File system updates reach the disk in transactions: the new blocks are
    written to the log, the header block commits them, they are copied home, and
    the header is cleared. *)

From S2P Require Import Prelude Params State Mem Strings Locks Kalloc Vm Sched Policy Procs Sleeplock Bio BioSpec.
Import Spin.

(** ** The header block *)

Definition sizeof_logheader : Z := 4 + 4 * LOGSIZE.

(** [int] number [k] of a block: [n] is number 0 and [block[i]] number [i + 1]. *)
Definition hdr_int (d : list Z) (k : nat) : Z := s32 (get32 d (4 * k)).

(** [hb->n = lh.n; for(i = 0; i < lh.n; i++) hb->block[i] = lh.block[i];] *)
Fixpoint put_blocks (d : list Z) (i : nat) (bl : list Z) : list Z :=
  match bl with
  | [] => d
  | b :: bl' => put_blocks (put32 d (4 * S i) b) (S i) bl'
  end.

Definition hdr_put (d : list Z) (lh : logheader) : list Z :=
  put_blocks (put32 d 0 (lh_n lh)) 0 (take (Z.to_nat (lh_n lh)) (lh_block lh)).

Section Driver.
Context `{BlockDriver}.

(** ** Superblock ([readsb] of [fs.c]) *)

Definition sb_of_block (d : list Z) : superblock :=
  mkSuperblock (get32 d 0) (get32 d 4) (get32 d 8) (get32 d 12) (get32 d 16) (get32 d 20) (get32 d 24).

Definition readsb (dev : Z) : K superblock :=
  bp <- bread dev 1 ;;
  b <- get_buf bp ;;
  brelse bp ;;
  ret (sb_of_block (b_data b)).

(** ** The log *)

Definition get_log : K log := gets k_log.
Definition set_log (f : log -> log) : K unit := modify (fun s => s <| k_log ::= f |>).

(** [log.lh.block[i]] *)
Definition log_block (i : nat) : K Z :=
  lg <- get_log ;; nth_ok "log.lh.block" (lh_block (lg_lh lg)) i.

(** One round of [install_trans]. *)
Definition install_block (tail : nat) : K unit :=
  lg <- get_log ;;
  lbuf <- bread (u32 (lg_dev lg)) (u32 (lg_start lg + Z.of_nat tail + 1)) ;;
  blk <- log_block tail ;;
  dbuf <- bread (u32 (lg_dev lg)) (u32 blk) ;;
  lb <- get_buf lbuf ;;
  set_buf dbuf (fun b => b <| b_data := b_data lb |>) ;;
  bwrite dbuf ;;
  brelse lbuf ;;
  brelse dbuf.

Definition install_trans : K unit :=
  lg <- get_log ;;
  for_each (seq 0 (Z.to_nat (lh_n (lg_lh lg)))) install_block.

(** The loop of [read_head]; a header with [n > LOGSIZE] overruns [log.lh.block]. *)
Definition read_block (d : list Z) (i : nat) : K unit :=
  lg <- get_log ;;
  if (length (lh_block (lg_lh lg)) <=? i)%nat then fault "log.lh.block" else
  set_log (fun lg => lg <| lg_lh ::= fun lh => lh <| lh_block ::= <[i := hdr_int d (S i)]> |> |>).

Definition read_head : K unit :=
  lg <- get_log ;;
  bf <- bread (u32 (lg_dev lg)) (u32 (lg_start lg)) ;;
  b <- get_buf bf ;;
  set_log (fun lg => lg <| lg_lh ::= fun lh => lh <| lh_n := hdr_int (b_data b) 0 |> |>) ;;
  lg <- get_log ;;
  for_each (seq 0 (Z.to_nat (lh_n (lg_lh lg)))) (read_block (b_data b)) ;;
  brelse bf.

Definition write_head : K unit :=
  lg <- get_log ;;
  bf <- bread (u32 (lg_dev lg)) (u32 (lg_start lg)) ;;
  set_buf bf (fun b => b <| b_data ::= fun d => hdr_put d (lg_lh lg) |>) ;;
  bwrite bf ;;
  brelse bf.

Definition clear_n : K unit := set_log (fun lg => lg <| lg_lh ::= fun lh => lh <| lh_n := 0 |> |>).

Definition recover_from_log : K unit :=
  read_head ;;
  install_trans ;;
  clear_n ;;
  write_head.

Definition initlog (dev : Z) : K unit :=
  if BSIZE <=? sizeof_logheader then panic "initlog: too big logheader" else
  initlock LLog ;;
  sb <- readsb dev ;;
  set_log (fun lg => lg <| lg_start := s32 (sb_logstart sb) |> <| lg_size := s32 (sb_nlog sb) |>
                        <| lg_dev := dev |>) ;;
  recover_from_log.

(** [while(1)] of [begin_op]. *)
Definition begin_op_loop : K unit :=
  lg <- get_log ;;
  if nz (lg_committing lg) then sleep ChLog LLog
  else if LOGSIZE <? lh_n (lg_lh lg) + (lg_outstanding lg + 1) * MAXOPBLOCKS then sleep ChLog LLog
  else
    set_log (fun lg => lg <| lg_outstanding ::= fun n => n + 1 |>) ;;
    release LLog.

Definition begin_op : K unit := acquire LLog ;; begin_op_loop.

Definition begin_op_resume (saved : bool) : K unit := sleep_resume saved LLog ;; begin_op_loop.

(** One round of [write_log]. *)
Definition log_one (tail : nat) : K unit :=
  lg <- get_log ;;
  to <- bread (u32 (lg_dev lg)) (u32 (lg_start lg + Z.of_nat tail + 1)) ;;
  blk <- log_block tail ;;
  from <- bread (u32 (lg_dev lg)) (u32 blk) ;;
  fb <- get_buf from ;;
  set_buf to (fun b => b <| b_data := b_data fb |>) ;;
  bwrite to ;;
  brelse from ;;
  brelse to.

Definition write_log : K unit :=
  lg <- get_log ;;
  for_each (seq 0 (Z.to_nat (lh_n (lg_lh lg)))) log_one.

Definition commit : K unit :=
  lg <- get_log ;;
  when (0 <? lh_n (lg_lh lg))
    (write_log ;;
     write_head ;;
     install_trans ;;
     clear_n ;;
     write_head).

Definition end_op : K unit :=
  acquire LLog ;;
  set_log (fun lg => lg <| lg_outstanding ::= fun n => n - 1 |>) ;;
  lg <- get_log ;;
  if nz (lg_committing lg) then panic "log.committing" else
  let do_commit := lg_outstanding lg =? 0 in
  (if do_commit then set_log (fun lg => lg <| lg_committing := 1 |>) else wakeup ChLog) ;;
  release LLog ;;
  when do_commit
    (commit ;;
     acquire LLog ;;
     set_log (fun lg => lg <| lg_committing := 0 |>) ;;
     wakeup ChLog ;;
     release LLog).

(** The index of the block in the header, or the first free one. *)
Definition log_index (lh : logheader) (blockno : Z) : nat :=
  let bl := take (Z.to_nat (lh_n lh)) (lh_block lh) in
  default (length bl) (find_from (fun b => u32 b =? blockno) 0 bl).

Definition log_write (i : nat) : K unit :=
  lg <- get_log ;;
  if (LOGSIZE <=? lh_n (lg_lh lg)) || (lg_size lg - 1 <=? lh_n (lg_lh lg))
  then panic "too big a transaction" else
  if lg_outstanding lg <? 1 then panic "log_write outside of trans" else
  acquire LLog ;;
  b <- get_buf i ;;
  lg <- get_log ;;
  let k := log_index (lg_lh lg) (b_blockno b) in
  set_log (fun lg => lg <| lg_lh ::= fun lh => lh <| lh_block ::= <[k := s32 (b_blockno b)]> |> |>) ;;
  when (Z.of_nat k =? lh_n (lg_lh lg))
    (set_log (fun lg => lg <| lg_lh ::= fun lh => lh <| lh_n ::= fun n => n + 1 |> |>)) ;;
  set_buf i (fun b => b <| b_flags ::= fun f => Z.lor f B_DIRTY |>) ;;
  release LLog.
End Driver.
