(* ===== verification/LogDisk.v ===== *)
(** * Crash safety of the log's disk writes

    The log as a sequence of block writes: what is on the disk after any prefix of
    the writes of a commit, and what recovery makes of it. Block writes are atomic
    and reach the disk in the order they are issued. *)

From S2P Require Import Prelude Params State Mem BioSpec Log.

(** ** Sequences of block writes *)

Definition apply_writes (d : Z -> list Z) (ws : list (Z * list Z)) : Z -> list Z :=
  fold_left (fun d w => upd_blk d (fst w) (snd w)) ws d.

Lemma apply_writes_app d ws1 ws2 : apply_writes d (ws1 ++ ws2) = apply_writes (apply_writes d ws1) ws2.
Proof. apply fold_left_app. Qed.

Lemma apply_writes_cons d w ws : apply_writes d (w :: ws) = apply_writes (apply_writes d [w]) ws.
Proof. done. Qed.

Lemma apply_notin d ws b : b ∉ ws.*1 -> apply_writes d ws b = d b.
Proof.
  revert d. induction ws as [|[b' v] ws IH]; intros d Hb; simpl; [done|].
  simpl in Hb. rewrite IH by set_solver. apply upd_blk_ne. set_solver.
Qed.

Lemma apply_in d ws b v : NoDup ws.*1 -> (b, v) ∈ ws -> apply_writes d ws b = v.
Proof.
  revert d. induction ws as [|[b' v'] ws IH]; intros d Hnd Hin; [set_solver|].
  simpl in Hnd. apply list.NoDup_cons in Hnd as [Hni Hnd].
  apply elem_of_cons in Hin as [[= -> ->]|Hin]; simpl.
  - rewrite apply_notin by done. apply upd_blk_eq.
  - by apply IH.
Qed.

(** ** The header block *)

Lemma length_put_blocks d i bl : length (put_blocks d i bl) = length d.
Proof. revert d i. induction bl as [|b bl IH]; intros d i; simpl; [done|]. by rewrite IH, length_put32. Qed.

Lemma hdr_put_length d lh : length (hdr_put d lh) = length d.
Proof. unfold hdr_put. by rewrite length_put_blocks, length_put32. Qed.

Lemma put_blocks_low d i bl k :
  (k <= i)%nat -> (4 * (i + length bl + 1) <= length d)%nat ->
  hdr_int (put_blocks d i bl) k = hdr_int d k.
Proof.
  revert d i. induction bl as [|b bl IH]; intros d i Hk Hd; cbn [put_blocks]; [done|].
  simpl length in Hd. rewrite IH; [|lia|rewrite length_put32; lia].
  unfold hdr_int. rewrite get32_put32_ne by lia. done.
Qed.

Lemma put_blocks_get d i bl j b :
  bl !! j = Some b -> (4 * (i + length bl + 1) <= length d)%nat ->
  hdr_int (put_blocks d i bl) (S (i + j)) = s32 b.
Proof.
  revert d i j. induction bl as [|b' bl IH]; intros d i j Hj Hd; [done|]. cbn [put_blocks].
  simpl length in Hd. destruct j as [|j]; simpl in Hj.
  - injection Hj as ->. rewrite Nat.add_0_r, put_blocks_low; [|lia|rewrite length_put32; lia].
    unfold hdr_int. rewrite get32_put32_eq by lia. apply s32_u32.
  - replace (i + S j)%nat with (S i + j)%nat by lia. apply IH; [done|]. rewrite length_put32. lia.
Qed.

(** The transaction a header block describes. *)
Definition hdr_blocks (d : list Z) : list Z :=
  (fun i => hdr_int d (S i)) <$> seq 0 (Z.to_nat (hdr_int d 0)).

Lemma hdr_put_n d lh :
  length d = Z.to_nat BSIZE -> is_s32 (lh_n lh) -> (length (lh_block lh) <= Z.to_nat LOGSIZE)%nat ->
  hdr_int (hdr_put d lh) 0 = lh_n lh.
Proof.
  intros Hd Hn Hl. unfold hdr_put.
  change (Z.to_nat BSIZE) with 512%nat in Hd. change (Z.to_nat LOGSIZE) with 30%nat in Hl.
  pose proof (length_take_le (lh_block lh) (Z.to_nat (lh_n lh))) as Ht.
  assert (length (take (Z.to_nat (lh_n lh)) (lh_block lh)) <= 30)%nat as Ht'.
  { rewrite length_take. lia. }
  rewrite put_blocks_low by (rewrite ?length_put32; lia). unfold hdr_int. simpl Nat.mul.
  rewrite get32_put32_eq by lia. rewrite s32_u32. by apply s32_small.
Qed.

Lemma hdr_put_blocks d lh bl :
  length d = Z.to_nat BSIZE -> (length (lh_block lh) <= Z.to_nat LOGSIZE)%nat ->
  Z.of_nat (length bl) = lh_n lh -> take (length bl) (lh_block lh) = bl -> Forall is_s32 bl ->
  hdr_blocks (hdr_put d lh) = bl.
Proof.
  intros Hd Hl Hn Hbl Hs. unfold hdr_blocks.
  assert (length bl <= length (lh_block lh))%nat as Hle by (rewrite <- Hbl, length_take; lia).
  assert (Z.to_nat LOGSIZE = 30%nat) as E30 by reflexivity.
  rewrite hdr_put_n by (try done; unfold is_s32; lia).
  rewrite <- Hn, Nat2Z.id. apply list_eq. intros i. rewrite list_lookup_fmap.
  destruct (decide (i < length bl)%nat) as [Hi|Hi].
  - rewrite lookup_seq_lt by done. simpl. destruct (lookup_lt_is_Some_2 _ _ Hi) as [b Hb].
    rewrite Hb. f_equal. unfold hdr_put. rewrite <- Hn, Nat2Z.id, Hbl.
    rewrite (put_blocks_get _ 0 bl i b Hb).
    + apply s32_small. exact (Forall_lookup_1 _ _ _ _ Hs Hb).
    + rewrite length_put32. change (Z.to_nat BSIZE) with 512%nat in Hd. lia.
  - rewrite lookup_seq_ge by lia. rewrite lookup_ge_None_2 by lia. done.
Qed.

(** ** The writes of the log *)

Section LogWrites.
Context (start size : Z).

(** The log's block number [t], and the blocks outside the log. *)
Definition slot (t : nat) : Z := start + Z.of_nat t + 1.
Definition outside (b : Z) : Prop := b < start \/ start + LOGSIZE <= b.

(** The blocks of a transaction: distinct, outside the log, and few enough. *)
Definition blocks_ok (bl : list Z) : Prop :=
  NoDup bl /\ Forall (fun b => 0 <= b < size /\ outside b) bl /\ (length bl < Z.to_nat LOGSIZE)%nat.

(** [write_log] and [install_trans], from block number [t] on. *)
Fixpoint log_ws (new : Z -> list Z) (t : nat) (bl : list Z) : list (Z * list Z) :=
  match bl with
  | [] => []
  | b :: bl' => (slot t, new b) :: log_ws new (S t) bl'
  end.

Fixpoint install_ws (d : Z -> list Z) (t : nat) (bl : list Z) : list (Z * list Z) :=
  match bl with
  | [] => []
  | b :: bl' => (b, d (slot t)) :: install_ws d (S t) bl'
  end.

Definition head_w (d : Z -> list Z) (lh : logheader) : Z * list Z := (start, hdr_put (d start) lh).

Lemma log_ws_keys new t bl : (log_ws new t bl).*1 = slot <$> seq t (length bl).
Proof. revert t. induction bl as [|b bl IH]; intros t; simpl; [done|]. by rewrite IH. Qed.

Lemma install_ws_keys d t bl : (install_ws d t bl).*1 = bl.
Proof. revert t. induction bl as [|b bl IH]; intros t; simpl; [done|]. by rewrite IH. Qed.

Lemma install_ws_lookup d t bl j b :
  bl !! j = Some b -> (b, d (slot (t + j))) ∈ install_ws d t bl.
Proof.
  revert t j. induction bl as [|b' bl IH]; intros t [|j] Hj; simpl in *; try done.
  - injection Hj as ->. rewrite Nat.add_0_r. set_solver.
  - apply elem_of_cons. right. replace (t + S j)%nat with (S t + j)%nat by lia. by apply IH.
Qed.

Lemma log_ws_lookup new t bl j b :
  bl !! j = Some b -> (slot (t + j), new b) ∈ log_ws new t bl.
Proof.
  revert t j. induction bl as [|b' bl IH]; intros t [|j] Hj; simpl in *; try done.
  - injection Hj as ->. rewrite Nat.add_0_r. set_solver.
  - apply elem_of_cons. right. replace (t + S j)%nat with (S t + j)%nat by lia. by apply IH.
Qed.

Lemma install_ws_ext d d' t bl :
  (forall u, (t <= u < t + length bl)%nat -> d (slot u) = d' (slot u)) ->
  install_ws d t bl = install_ws d' t bl.
Proof.
  revert t. induction bl as [|b bl IH]; intros t Hd; simpl in *; [done|].
  rewrite (Hd t) by lia. f_equal. apply IH. intros u Hu. apply Hd. lia.
Qed.

Lemma log_ws_ext new new' t bl :
  (forall b, b ∈ bl -> new b = new' b) -> log_ws new t bl = log_ws new' t bl.
Proof.
  revert t. induction bl as [|b bl IH]; intros t Hd; simpl in *; [done|].
  rewrite (Hd b) by set_solver. f_equal. apply IH. set_solver.
Qed.

(** Recovery: the blocks the header lists are copied home, then the header is cleared. *)
Definition recover_ws (d : Z -> list Z) : list (Z * list Z) :=
  let bl := hdr_blocks (d start) in
  let w := install_ws d 0 bl in
  w ++ [head_w (apply_writes d w) (mkLogheader 0 bl)].

Definition recovered (d : Z -> list Z) : Z -> list Z := apply_writes d (recover_ws d).

(** A commit, from disk [d]: log, header, installation, cleared header. *)
Definition commit_ws (d new : Z -> list Z) (lb bl : list Z) : list (Z * list Z) :=
  let w1 := log_ws new 0 bl in
  let d1 := apply_writes d w1 in
  let w2 := head_w d1 (mkLogheader (Z.of_nat (length bl)) lb) in
  let d2 := apply_writes d1 [w2] in
  let w3 := install_ws d2 0 bl in
  let d3 := apply_writes d2 w3 in
  w1 ++ [w2] ++ w3 ++ [head_w d3 (mkLogheader 0 lb)].

(** The disk after the transaction. *)
Definition updated (d new : Z -> list Z) (bl : list Z) (b : Z) : list Z :=
  if bool_decide (b ∈ bl) then new b else d b.

(** The disk's log holds the transaction [bl], with which its contents are [t]. *)
Record logged (d : Z -> list Z) (bl : list Z) (t : Z -> list Z) : Prop := {
  lo_len : length (d start) = Z.to_nat BSIZE;
  lo_hdr : hdr_blocks (d start) = bl;
  lo_ok : blocks_ok bl;
  lo_slot j b : bl !! j = Some b -> d (slot j) = t b;
  lo_home b : outside b -> b ∉ bl -> d b = t b
}.

Lemma outside_slot b t : outside b -> (t < Z.to_nat LOGSIZE - 1)%nat -> b <> slot t.
Proof. unfold outside, slot. change LOGSIZE with 30. change (Z.to_nat 30) with 30%nat. lia. Qed.

Lemma outside_start b : outside b -> b <> start.
Proof. unfold outside. change LOGSIZE with 30. lia. Qed.

Lemma slot_start t : slot t <> start.
Proof. unfold slot. lia. Qed.

Lemma slot_inj t u : slot t = slot u -> t = u.
Proof. unfold slot. lia. Qed.

Lemma blocks_ok_nil : blocks_ok [].
Proof. split; [constructor|]. split; [constructor|]. vm_compute. lia. Qed.

Lemma blocks_ok_slot bl j : blocks_ok bl -> (j < length bl)%nat -> slot j ∉ bl.
Proof.
  intros (_ & Hall & Hlen) Hj Hin. rewrite list.Forall_forall in Hall.
  destruct (Hall _ Hin) as [_ Ho]. apply (outside_slot _ j Ho); [lia|done].
Qed.

Lemma blocks_ok_start bl : blocks_ok bl -> start ∉ bl.
Proof.
  intros (_ & Hall & _) Hin. rewrite list.Forall_forall in Hall.
  destruct (Hall _ Hin) as [_ Ho]. by apply (outside_start _ Ho).
Qed.

(** Writing home blocks of the logged transaction changes nothing. *)
Lemma logged_home d bl t ws :
  logged d bl t -> (forall b, b ∈ ws.*1 -> b ∈ bl) -> logged (apply_writes d ws) bl t.
Proof.
  intros H Hws. pose proof (lo_ok _ _ _ H) as Hok.
  assert (apply_writes d ws start = d start) as Es.
  { apply apply_notin. intros Hin. apply (blocks_ok_start bl Hok). auto. }
  constructor; try rewrite Es; try apply H.
  - intros j b Hj. rewrite apply_notin; [by apply (lo_slot _ _ _ H)|].
    intros Hin. apply (blocks_ok_slot bl j Hok); [by apply lookup_lt_Some in Hj|auto].
  - intros b Hb Hni. rewrite apply_notin by auto. by apply (lo_home _ _ _ H).
Qed.

(** With an empty log, writing the log's blocks changes nothing. *)
Lemma logged_slots d t ws :
  logged d [] t -> (forall b, b ∈ ws.*1 -> b <> start /\ ~ outside b) -> logged (apply_writes d ws) [] t.
Proof.
  intros H Hws. assert (apply_writes d ws start = d start) as Es.
  { apply apply_notin. intros Hin. by apply Hws in Hin as [[] _]. }
  constructor; try rewrite Es; try apply H; try done.
  intros b Hb Hni. rewrite apply_notin; [by apply (lo_home _ _ _ H)|]. intros Hin. by apply Hws in Hin as [_ []].
Qed.

(** Clearing the header once the blocks are home. *)
Lemma logged_clear d t bl lb :
  logged d bl t -> (length lb <= Z.to_nat LOGSIZE)%nat -> (forall b, b ∈ bl -> d b = t b) ->
  logged (apply_writes d [head_w d (mkLogheader 0 lb)]) [] t.
Proof.
  intros H Hlb Hhome. simpl. constructor; try done.
  - rewrite upd_blk_eq, hdr_put_length. apply H.
  - rewrite upd_blk_eq. apply hdr_put_blocks; try done. apply H.
  - apply blocks_ok_nil.
  - intros b Hb _. rewrite upd_blk_ne by (by apply outside_start).
    destruct (decide (b ∈ bl)); [by apply Hhome|by apply (lo_home _ _ _ H)].
Qed.

Lemma install_home d bl t b :
  logged d bl t -> b ∈ bl -> apply_writes d (install_ws d 0 bl) b = t b.
Proof.
  intros H Hb. apply list_elem_of_lookup_1 in Hb as [j Hj].
  rewrite (apply_in d _ b (d (slot j))).
  - by apply (lo_slot _ _ _ H).
  - rewrite install_ws_keys. apply (lo_ok _ _ _ H).
  - exact (install_ws_lookup d 0 bl j b Hj).
Qed.

Lemma logged_install d bl t : logged d bl t -> logged (apply_writes d (install_ws d 0 bl)) bl t.
Proof. intros H. apply logged_home; [done|]. by rewrite install_ws_keys. Qed.

Lemma logged_len d bl t : logged d bl t -> (length bl <= Z.to_nat LOGSIZE)%nat.
Proof. intros H. destruct (lo_ok _ _ _ H) as (_ & _ & ?). lia. Qed.

(** Any part of an installation, from the log of the disk. *)
Lemma logged_part d bl t k :
  logged d bl t -> logged (apply_writes d (take k (install_ws d 0 bl))) bl t.
Proof.
  intros H. apply logged_home; [done|]. intros b. rewrite fmap_take, install_ws_keys.
  intros Hb. rewrite <- (take_drop k bl). set_solver.
Qed.

(** An installation followed by the clearing of the header, cut anywhere. *)
Lemma logged_cut d bl t lb k :
  logged d bl t -> (length lb <= Z.to_nat LOGSIZE)%nat ->
  let w := install_ws d 0 bl in
  exists bl', logged (apply_writes d (take k (w ++ [head_w (apply_writes d w) (mkLogheader 0 lb)]))) bl' t /\
    ((length w < k)%nat -> bl' = []).
Proof.
  intros H Hlb w. rewrite take_app. destruct (decide (length w < k)%nat) as [Hk|Hk].
  - exists []. split; [|done]. rewrite (take_ge w) by lia. rewrite (take_ge [_]) by (simpl; lia).
    rewrite apply_writes_app. apply (logged_clear _ _ bl); [by apply logged_install|done|].
    intros b Hb. by apply install_home.
  - exists bl. split; [|lia]. replace (k - length w)%nat with 0%nat by lia. simpl.
    rewrite app_nil_r. by apply logged_part.
Qed.

Lemma recover_cut d bl t k :
  logged d bl t -> exists bl', logged (apply_writes d (take k (recover_ws d))) bl' t.
Proof.
  intros H. unfold recover_ws. rewrite (lo_hdr _ _ _ H).
  destruct (logged_cut d bl t bl k H (logged_len _ _ _ H)) as (bl' & H' & _). eauto.
Qed.

Lemma recovered_logged d bl t : logged d bl t -> logged (recovered d) [] t.
Proof.
  intros H. unfold recovered, recover_ws. rewrite (lo_hdr _ _ _ H).
  set (w := install_ws d 0 bl).
  destruct (logged_cut d bl t bl (S (length w)) H (logged_len _ _ _ H)) as (bl' & H' & E).
  fold w in H', E. rewrite E in H' by lia. rewrite take_ge in H'; [done|].
  rewrite length_app. simpl. lia.
Qed.

(** The log written, the header still empty: nothing happened. *)
Lemma log_ws_cut d t new bl k :
  logged d [] t -> (length bl < Z.to_nat LOGSIZE)%nat ->
  logged (apply_writes d (take k (log_ws new 0 bl))) [] t.
Proof.
  intros H Hlen. apply logged_slots; [done|]. intros b. rewrite fmap_take, log_ws_keys.
  intros Hb. assert (b ∈ slot <$> seq 0 (length bl)) as Hb'.
  { rewrite <- (take_drop k (slot <$> _)). set_solver. }
  apply list_elem_of_fmap in Hb' as (j & -> & Hj). apply elem_of_seq in Hj.
  split; [apply slot_start|]. intros Ho. by apply (outside_slot _ j Ho); [lia|].
Qed.

(** The header written: the transaction is committed. *)
Lemma logged_commit d t new lb bl :
  size <= 2 ^ 31 -> logged d [] t -> blocks_ok bl -> take (length bl) lb = bl -> (length lb <= Z.to_nat LOGSIZE)%nat ->
  let d1 := apply_writes d (log_ws new 0 bl) in
  logged (apply_writes d1 [head_w d1 (mkLogheader (Z.of_nat (length bl)) lb)]) bl (updated t new bl).
Proof.
  intros Hsz H Hok Hbl Hlb d1. pose proof Hok as (Hnd & Hall & Hlen).
  pose proof (log_ws_cut d t new bl (length (log_ws new 0 bl)) H Hlen) as H1.
  rewrite take_ge in H1 by done. fold d1 in H1. simpl. constructor; try done.
  - rewrite upd_blk_eq, hdr_put_length. apply H1.
  - rewrite upd_blk_eq. apply hdr_put_blocks; try done; [apply H1|].
    rewrite list.Forall_forall in Hall |- *. intros b Hin. destruct (Hall b Hin) as [Hb _]. unfold is_s32. lia.
  - intros j b Hj. rewrite upd_blk_ne by apply slot_start. unfold updated.
    rewrite bool_decide_eq_true_2 by (by eapply list_elem_of_lookup_2).
    apply apply_in; [|exact (log_ws_lookup new 0 bl j b Hj)]. rewrite log_ws_keys.
    apply NoDup_fmap_2; [intros ? ?; apply slot_inj|apply NoDup_seq].
  - intros b Ho Hni. rewrite upd_blk_ne by (by apply outside_start). unfold updated.
    rewrite bool_decide_eq_false_2 by done. apply (lo_home _ _ _ H1); [done|set_solver].
Qed.

(** A commit cut anywhere leaves the old contents or the new ones. *)
Lemma commit_cut d t new lb bl k :
  size <= 2 ^ 31 -> logged d [] t -> blocks_ok bl -> take (length bl) lb = bl -> (length lb <= Z.to_nat LOGSIZE)%nat ->
  let d' := apply_writes d (take k (commit_ws d new lb bl)) in
  exists bl', ((k <= length bl)%nat /\ logged d' bl' t) \/
              ((length bl < k)%nat /\ logged d' bl' (updated t new bl)).
Proof.
  intros Hsz H Hok Hbl Hlb. pose proof Hok as (_ & _ & Hlen). unfold commit_ws.
  assert (length (log_ws new 0 bl) = length bl) as Ew.
  { by rewrite <- (length_fmap fst), log_ws_keys, length_fmap, length_seq. }
  rewrite take_app, Ew. destruct (decide (k <= length bl)%nat) as [Hk|Hk]; simpl.
  - exists []. left. split; [done|]. replace (k - length bl)%nat with 0%nat by lia. simpl.
    rewrite app_nil_r. by apply log_ws_cut.
  - rewrite (take_ge (log_ws _ _ _)) by lia. destruct (k - length bl)%nat as [|m] eqn:Em; [lia|].
    rewrite firstn_cons, apply_writes_app, apply_writes_cons.
    pose proof (logged_commit d t new lb bl Hsz H Hok Hbl Hlb) as H2.
    destruct (logged_cut _ bl _ lb m H2 Hlb) as (bl' & H' & _). exists bl'. right. split; [lia|exact H'].
Qed.

(** Run to its end, it leaves the new contents and an empty log. *)
Lemma commit_full d t new lb bl :
  size <= 2 ^ 31 -> logged d [] t -> blocks_ok bl -> take (length bl) lb = bl ->
  (length lb <= Z.to_nat LOGSIZE)%nat ->
  logged (apply_writes d (commit_ws d new lb bl)) [] (updated t new bl).
Proof.
  intros Hsz H Hok Hbl Hlb. unfold commit_ws. rewrite apply_writes_app. cbn [app].
  rewrite apply_writes_cons. pose proof (logged_commit d t new lb bl Hsz H Hok Hbl Hlb) as H2.
  set (d2 := apply_writes (apply_writes d _) _) in *.
  destruct (logged_cut d2 bl _ lb (S (length (install_ws d2 0 bl))) H2 Hlb) as (bl' & H' & E).
  rewrite E in H' by lia. rewrite take_ge in H'; [exact H'|]. rewrite length_app. simpl. lia.
Qed.

Lemma logged_self d t : logged d [] t -> logged d [] d.
Proof. intros H. constructor; try apply H; done. Qed.

Lemma commit_ws_length d new lb bl : length (commit_ws d new lb bl) = (2 * length bl + 2)%nat.
Proof.
  unfold commit_ws. rewrite !length_app. simpl length.
  rewrite <- (length_fmap fst (log_ws _ _ _)), log_ws_keys, length_fmap, length_seq.
  rewrite <- (length_fmap fst (install_ws _ _ _)), install_ws_keys. lia.
Qed.
End LogWrites.
