(* ===== verification/LogSpec.v ===== *)
(** * The log implements atomic transactions

    [commit] and [recover_from_log] run through the buffer cache and issue exactly
    the block writes of [LogDisk]; with them, a transaction is atomic across
    crashes. *)

From S2P Require Import Prelude Params State Mem Strings Locks Kalloc Vm Sched Policy Procs Sleeplock Bio BioSpec Log LogDisk.
Import Spin.

(** ** Writes through the cache *)

Definition v_write (v : bview) (w : Z * list Z) : bview :=
  mkView (upd_blk (v_disk v) (fst w) (snd w)) (upd_blk (v_data v) (fst w) (snd w))
         (v_dirty v ∖ {[fst w]}) (v_held v).

Definition v_writes (v : bview) (ws : list (Z * list Z)) : bview := fold_left v_write ws v.

Lemma v_writes_app v ws1 ws2 : v_writes v (ws1 ++ ws2) = v_writes (v_writes v ws1) ws2.
Proof. apply fold_left_app. Qed.

Lemma v_writes_disk v ws : v_disk (v_writes v ws) = apply_writes (v_disk v) ws.
Proof. revert v. induction ws as [|w ws IH]; intros v; simpl; [done|]. by rewrite IH. Qed.

Lemma v_writes_data v ws : v_data (v_writes v ws) = apply_writes (v_data v) ws.
Proof. revert v. induction ws as [|w ws IH]; intros v; simpl; [done|]. by rewrite IH. Qed.

Lemma v_writes_held v ws : v_held (v_writes v ws) = v_held v.
Proof. revert v. induction ws as [|w ws IH]; intros v; simpl; [done|]. by rewrite IH. Qed.

Lemma v_writes_dirty v ws : v_dirty (v_writes v ws) = v_dirty v ∖ list_to_set ws.*1.
Proof. revert v. induction ws as [|w ws IH]; intros v; simpl; [set_solver|]. rewrite IH. simpl. set_solver. Qed.

Definition disk_writes (ws : list (Z * list Z)) (d : disk) : disk := d <| dk_hist ::= app (rev ws) |>.

Lemma disk_writes_nil d : disk_writes [] d = d.
Proof. by destruct d. Qed.

Lemma disk_writes_app ws1 ws2 d : disk_writes (ws1 ++ ws2) d = disk_writes ws2 (disk_writes ws1 d).
Proof. destruct d. unfold disk_writes, set, set_dk_hist. simpl. by rewrite rev_app_distr, <- app_assoc. Qed.

(** From [s] with view [v], the blocks [ws] have been written. *)
Definition wrote (s : kst) (v : bview) (ws : list (Z * list Z)) (s' : kst) : Prop :=
  bio_rel s' (v_writes v ws) /\ bio_frame s s' /\ k_disk s' = disk_writes ws (k_disk s).

Lemma wrote_nil s v : bio_rel s v -> wrote s v [] s.
Proof. intros H. split; [done|]. split; [apply bio_frame_refl|]. by rewrite disk_writes_nil. Qed.

Lemma wrote_trans s1 s2 s3 v ws1 ws2 :
  wrote s1 v ws1 s2 -> wrote s2 (v_writes v ws1) ws2 s3 -> wrote s1 v (ws1 ++ ws2) s3.
Proof.
  intros (R1 & F1 & D1) (R2 & F2 & D2). split; [by rewrite v_writes_app|].
  split; [by eapply bio_frame_trans|]. by rewrite D2, D1, disk_writes_app.
Qed.

Lemma wrote_cons s1 s2 s3 v w ws :
  wrote s1 v [w] s2 -> wrote s2 (v_write v w) ws s3 -> wrote s1 v (w :: ws) s3.
Proof. apply (wrote_trans s1 s2 s3 v [w] ws). Qed.

Section Driver.
Context `{BlockDriverOk}.

Lemma get_held s v i blk :
  bio_rel s v -> (i, blk) ∈ v_held v -> exists b, get_buf i s = Ok b s /\ b_data b = v_data v blk.
Proof.
  intros (_ & _ & _ & Hok & _) Hh. destruct (co_held _ _ Hok i blk Hh) as (b & Hb & Hdev & Hblk).
  exists b. split; [by apply get_buf_run|].
  destruct (co_buf _ _ Hok i b Hb) as [[[? _]|(_ & Hd & _)] _]; [congruence|]. by rewrite Hd, Hblk.
Qed.

(** Filling a held buffer and writing it out. *)
Lemma write_held s v i blk d :
  bio_rel s v -> (i, blk) ∈ v_held v -> 0 <= blk < dk_size (k_disk s) ->
  exists s', bwrite i (with_buf i (fun b => b <| b_data := d |>) s) = Ok tt s' /\
    bio_rel s' (v_write v (blk, d)) /\ bio_frame s s' /\ k_disk s' = disk_write blk d (k_disk s).
Proof.
  intros Hrel Hh Hblk.
  destruct (bwrite_spec _ _ i blk (bio_rel_data s v i blk d Hrel Hh) Hh Hblk) as (s' & Hw & R & F & D).
  simpl in R, D. rewrite upd_blk_eq in R, D. exists s'. split; [done|]. split; [by destruct v|].
  split; [|done]. eapply bio_frame_trans; [|done]. split; [by destruct s|done].
Qed.

(** The log's place on the disk, and the transaction it holds in memory. *)
Definition log_at (s : kst) (start n : Z) (lb : list Z) : Prop :=
  lg_dev (k_log s) = 1 /\ lg_start (k_log s) = start /\ lg_lh (k_log s) = mkLogheader n lb /\
  0 <= start /\ start + LOGSIZE <= dk_size (k_disk s) /\ dk_size (k_disk s) <= 2 ^ 31.

Lemma log_at_frame s s' start n lb : log_at s start n lb -> bio_frame s s' -> log_at s' start n lb.
Proof.
  intros (H1 & H2 & H3 & H4) F. unfold log_at.
  by rewrite (bio_frame_log _ _ F), (bio_frame_size _ _ F).
Qed.

Lemma log_block_run s start n lb t blk :
  log_at s start n lb -> lb !! t = Some blk -> log_block t s = Ok blk s.
Proof.
  intros (_ & _ & E & _) Ht. unfold log_block, get_log, nth_ok. mstep. rewrite E. simpl. by rewrite Ht.
Qed.

(** Blocks [b1] and [b2] read in turn. *)
Lemma bread_pair s v b1 b2 :
  bio_rel s v -> v_held v = [] -> b1 <> b2 -> b1 ∉ v_dirty v ->
  0 <= b1 < dk_size (k_disk s) -> 0 <= b2 < dk_size (k_disk s) ->
  (size ({[b2]} ∪ v_dirty v) < NBUF)%nat ->
  exists i j s1 s2, bread 1 b1 s = Ok i s1 /\ bread 1 b2 s1 = Ok j s2 /\
    bio_frame s s1 /\ bio_rel s2 (v <| v_held := [(j, b2); (i, b1)] |>) /\
    bio_frame s s2 /\ k_disk s2 = k_disk s.
Proof.
  intros Hrel Hh Hne Hnd H1 H2 Hsz.
  assert (size (v_dirty v) < NBUF)%nat as Hd.
  { eapply Nat.le_lt_trans; [|exact Hsz]. apply subseteq_size. set_solver. }
  destruct (bread_spec s v b1 Hrel H1) as (i & s1 & E1 & R1 & F1 & D1).
  { rewrite Hh. set_solver. }
  { right. unfold in_use. rewrite Hh. simpl. by rewrite union_empty_r_L. }
  destruct (bread_spec s1 _ b2 R1) as (j & s2 & E2 & R2 & F2 & D2).
  { by rewrite D1. }
  { simpl. rewrite Hh. simpl. set_solver. }
  { simpl. unfold in_use. simpl. rewrite Hh. simpl.
    destruct (decide (b2 ∈ v_dirty v)) as [?|Hn]; [by left|right].
    rewrite union_empty_r_L. rewrite size_union in Hsz |- * by set_solver.
    rewrite !size_singleton in *. lia. }
  exists i, j, s1, s2. split; [done|]. split; [done|]. split; [done|].
  split; [|split; [by eapply bio_frame_trans|by rewrite D2]].
  replace (v <| v_held := _ |>) with (v <| v_held ::= cons (i, b1) |> <| v_held ::= cons (j, b2) |>); [done|].
  destruct v; simpl in *; subst; done.
Qed.

(** Two held blocks released. *)
Lemma brelse_pair s v i1 b1 i2 b2 :
  bio_rel s v -> v_held v ≡ₚ [(i1, b1); (i2, b2)] ->
  b1 ∈ v_dirty v \/ v_data v b1 = v_disk v b1 -> b2 ∈ v_dirty v \/ v_data v b2 = v_disk v b2 ->
  exists s', (brelse i1 ;; brelse i2) s = Ok tt s' /\ bio_rel s' (v <| v_held := [] |>) /\
    bio_frame s s' /\ k_disk s' = k_disk s.
Proof.
  intros Hrel Hh H1 H2.
  destruct (brelse_spec s v i1 b1 [(i2, b2)] Hrel Hh H1) as (s1 & E1 & R1 & F1 & D1).
  destruct (brelse_spec s1 _ i2 b2 [] R1) as (s2 & E2 & R2 & F2 & D2); [done|done|].
  exists s2. mcall E1. split; [done|]. split; [by destruct v|].
  split; [by eapply bio_frame_trans|by rewrite D2].
Qed.

Lemma bio_clean s v b : bio_rel s v -> v_held v = [] -> b ∈ v_dirty v \/ v_data v b = v_disk v b.
Proof.
  intros (_ & _ & _ & _ & _ & _ & Hdd) Hh. destruct (decide (b ∈ v_dirty v)); [by left|right].
  apply Hdd; [done|]. rewrite Hh. set_solver.
Qed.

(** One round of [install_trans]: block [t] of the log goes home. *)
Lemma install_block_run s v start n lb t blk :
  bio_rel s v -> v_held v = [] -> log_at s start n lb -> lb !! t = Some blk ->
  (t < Z.to_nat LOGSIZE - 1)%nat -> 0 <= blk < dk_size (k_disk s) -> outside start blk ->
  slot start t ∉ v_dirty v -> (size ({[blk]} ∪ v_dirty v) < NBUF)%nat ->
  exists s', install_block t s = Ok tt s' /\ wrote s v [(blk, v_data v (slot start t))] s'.
Proof.
  intros Hrel Hh Hlog Ht Htl Hblk Ho Hnd Hsz. pose proof Hlog as (Ed & Es & _ & Hs0 & Hs1 & Hs2).
  assert (blk <> slot start t) as Hne by (by apply outside_slot).
  assert (0 <= slot start t < dk_size (k_disk s)) as Hsl.
  { unfold slot. change (Z.to_nat LOGSIZE) with 30%nat in Htl. change LOGSIZE with 30 in Hs1. lia. }
  destruct (bread_pair s v (slot start t) blk) as (i & j & s1 & s2 & E1 & E2 & F1 & R2 & F2 & D2); auto.
  assert (v_held (v <| v_held := [(j, blk); (i, slot start t)] |>) = [(j, blk); (i, slot start t)]) as Eh by (by destruct v).
  destruct (get_held s2 _ i (slot start t) R2) as (b & Eb & Ebd); [rewrite Eh; set_solver|].
  destruct (write_held s2 _ j blk (b_data b) R2) as (s3 & E3 & R3 & F3 & D3); [rewrite Eh; set_solver|by rewrite D2|].
  destruct (brelse_pair s3 _ i (slot start t) j blk R3) as (s4 & E4 & R4 & F4 & D4).
  { simpl. constructor. }
  { simpl. rewrite !upd_blk_ne by auto. destruct (bio_clean s v (slot start t) Hrel Hh); [set_solver|auto]. }
  { right. simpl. by rewrite !upd_blk_eq. }
  exists s4. unfold install_block, get_log. mstep. rewrite Ed, Es.
  change (u32 1) with 1. rewrite (u32_small (start + _ + 1)) by (unfold slot in Hsl; unfold is_u32; lia).
  mcall E1. mcall (log_block_run s1 start n lb t blk); [|by eapply log_at_frame|done].
  rewrite (u32_small blk) by (unfold is_u32; lia). mcall E2. mcall Eb. mcall set_buf_run. mcall E3.
  split; [done|]. rewrite Ebd in *. split; [|split].
  - by destruct v; simpl in *; subst.
  - eapply bio_frame_trans; [exact F2|]. eapply bio_frame_trans; eauto.
  - by rewrite D4, D3, D2.
Qed.

(** One round of [write_log]: a cached block goes to block [t] of the log. *)
Lemma log_one_run s v start n lb t blk :
  bio_rel s v -> v_held v = [] -> log_at s start n lb -> lb !! t = Some blk ->
  (t < Z.to_nat LOGSIZE - 1)%nat -> 0 <= blk < dk_size (k_disk s) -> outside start blk ->
  slot start t ∉ v_dirty v -> (size ({[blk]} ∪ v_dirty v) < NBUF)%nat ->
  exists s', log_one t s = Ok tt s' /\ wrote s v [(slot start t, v_data v blk)] s'.
Proof.
  intros Hrel Hh Hlog Ht Htl Hblk Ho Hnd Hsz. pose proof Hlog as (Ed & Es & _ & Hs0 & Hs1 & Hs2).
  assert (blk <> slot start t) as Hne by (by apply outside_slot).
  assert (0 <= slot start t < dk_size (k_disk s)) as Hsl.
  { unfold slot. change (Z.to_nat LOGSIZE) with 30%nat in Htl. change LOGSIZE with 30 in Hs1. lia. }
  destruct (bread_pair s v (slot start t) blk) as (i & j & s1 & s2 & E1 & E2 & F1 & R2 & F2 & D2); auto.
  assert (v_held (v <| v_held := [(j, blk); (i, slot start t)] |>) = [(j, blk); (i, slot start t)]) as Eh by (by destruct v).
  destruct (get_held s2 _ j blk R2) as (b & Eb & Ebd); [rewrite Eh; set_solver|].
  destruct (write_held s2 _ i (slot start t) (b_data b) R2) as (s3 & E3 & R3 & F3 & D3);
    [rewrite Eh; set_solver|by rewrite D2|].
  destruct (brelse_pair s3 _ j blk i (slot start t) R3) as (s4 & E4 & R4 & F4 & D4).
  { done. }
  { simpl. rewrite !upd_blk_ne by auto. destruct (bio_clean s v blk Hrel Hh); [left; set_solver|auto]. }
  { right. simpl. by rewrite !upd_blk_eq. }
  exists s4. unfold log_one, get_log. mstep. rewrite Ed, Es.
  change (u32 1) with 1. rewrite (u32_small (start + _ + 1)) by (unfold slot in Hsl; unfold is_u32; lia).
  mcall E1. mcall (log_block_run s1 start n lb t blk); [|by eapply log_at_frame|done].
  rewrite (u32_small blk) by (unfold is_u32; lia). mcall E2. mcall Eb. mcall set_buf_run. mcall E3.
  split; [done|]. rewrite Ebd in *. split; [|split].
  - by destruct v; simpl in *; subst.
  - eapply bio_frame_trans; [exact F2|]. eapply bio_frame_trans; eauto.
  - by rewrite D4, D3, D2.
Qed.

(** ** The loops *)

(** The transaction [bl] fits the log and the disk. *)
Definition trans_ok (s : kst) (start : Z) (bl : list Z) : Prop :=
  blocks_ok start (dk_size (k_disk s)) bl.

Lemma trans_ok_frame s s' start bl : trans_ok s start bl -> bio_frame s s' -> trans_ok s' start bl.
Proof. intros Htr F. unfold trans_ok. by rewrite (bio_frame_size _ _ F). Qed.

Lemma trans_block s start bl b :
  trans_ok s start bl -> b ∈ bl -> 0 <= b < dk_size (k_disk s) /\ outside start b.
Proof. intros (_ & Hall & _) Hb. rewrite list.Forall_forall in Hall. by apply Hall. Qed.

Lemma trans_room s start bl b (D : gset Z) :
  trans_ok s start bl -> D ⊆ list_to_set bl -> b ∈ bl -> (size ({[b]} ∪ D) < NBUF)%nat.
Proof.
  intros (Hnd & _ & Hlen) HD Hb. change (Z.to_nat LOGSIZE) with 30%nat in Hlen.
  eapply Nat.le_lt_trans; [apply (subseteq_size _ (list_to_set bl : gset Z)); set_solver|].
  by rewrite size_list_to_set.
Qed.

Lemma trans_slot s start bl t (D : gset Z) :
  trans_ok s start bl -> D ⊆ list_to_set bl -> (t < length bl)%nat -> slot start t ∉ D.
Proof.
  intros Hok HD Ht Hin. apply (blocks_ok_slot start _ bl t Hok Ht). apply HD in Hin. set_solver.
Qed.

Lemma install_loop start n lb bl bl2 : forall t s v,
  bio_rel s v -> v_held v = [] -> log_at s start n lb -> take (length bl) lb = bl ->
  trans_ok s start bl -> v_dirty v ⊆ list_to_set bl -> drop t bl = bl2 ->
  exists s', for_each (seq t (length bl2)) install_block s = Ok tt s' /\
    wrote s v (install_ws start (v_data v) t bl2) s'.
Proof.
  induction bl2 as [|b bl2 IH]; intros t s v Hrel Hh Hlog Hlb Htr HD Hdrop.
  { exists s. split; [done|]. by apply wrote_nil. }
  assert (bl !! t = Some b) as Hb by (rewrite <- (Nat.add_0_r t), <- lookup_drop, Hdrop; done).
  pose proof (list_elem_of_lookup_2 _ _ _ Hb) as Hin. apply lookup_lt_Some in Hb as Ht.
  destruct (trans_block s start bl b Htr Hin) as [Hrange Ho].
  destruct (install_block_run s v start n lb t b) as (s1 & E1 & W1); auto.
  { rewrite <- Hlb in Hb. by apply lookup_take_Some in Hb as [? _]. }
  { destruct Htr as (_ & _ & Hlen). lia. }
  { by apply (trans_slot s start bl). }
  { by apply (trans_room s start bl). }
  pose proof W1 as (R1 & F1 & _).
  destruct (IH (S t) s1 _ R1) as (s2 & E2 & W2); auto.
  { by eapply log_at_frame. } { by eapply trans_ok_frame. } { simpl. set_solver. }
  { rewrite <- (Nat.add_1_r t), <- drop_drop, Hdrop. done. }
  exists s2. simpl. mcall E1. split; [done|].
  eapply wrote_cons; [exact W1|]. rewrite (install_ws_ext start _ (v_data v)) in W2; [exact W2|].
  intros u Hu. simpl. apply upd_blk_ne. intros E. apply (blocks_ok_slot start _ bl u Htr).
  - apply (f_equal length) in Hdrop. rewrite length_drop in Hdrop. simpl in Hdrop. lia.
  - by rewrite E.
Qed.

Lemma log_loop start n lb bl bl2 : forall t s v,
  bio_rel s v -> v_held v = [] -> log_at s start n lb -> take (length bl) lb = bl ->
  trans_ok s start bl -> v_dirty v ⊆ list_to_set bl -> drop t bl = bl2 ->
  exists s', for_each (seq t (length bl2)) log_one s = Ok tt s' /\
    wrote s v (log_ws start (v_data v) t bl2) s'.
Proof.
  induction bl2 as [|b bl2 IH]; intros t s v Hrel Hh Hlog Hlb Htr HD Hdrop.
  { exists s. split; [done|]. by apply wrote_nil. }
  assert (bl !! t = Some b) as Hb by (rewrite <- (Nat.add_0_r t), <- lookup_drop, Hdrop; done).
  pose proof (list_elem_of_lookup_2 _ _ _ Hb) as Hin. apply lookup_lt_Some in Hb as Ht.
  destruct (trans_block s start bl b Htr Hin) as [Hrange Ho].
  destruct (log_one_run s v start n lb t b) as (s1 & E1 & W1); auto.
  { rewrite <- Hlb in Hb. by apply lookup_take_Some in Hb as [? _]. }
  { destruct Htr as (_ & _ & Hlen). lia. }
  { by apply (trans_slot s start bl). }
  { by apply (trans_room s start bl). }
  pose proof W1 as (R1 & F1 & _).
  destruct (IH (S t) s1 _ R1) as (s2 & E2 & W2); auto.
  { by eapply log_at_frame. } { by eapply trans_ok_frame. } { simpl. set_solver. }
  { rewrite <- (Nat.add_1_r t), <- drop_drop, Hdrop. done. }
  exists s2. simpl. mcall E1. split; [done|].
  eapply wrote_cons; [exact W1|]. rewrite (log_ws_ext start _ (v_data v)) in W2; [exact W2|].
  intros c Hc. simpl. apply upd_blk_ne. intros ->. apply (blocks_ok_slot start _ bl t Htr); [done|].
  rewrite <- (take_drop t bl), Hdrop. set_solver.
Qed.

(** [write_head]: the header block, with the transaction of the log in memory. *)
Lemma write_head_run s v start n lb :
  bio_rel s v -> v_held v = [] -> log_at s start n lb -> (size (v_dirty v) < NBUF)%nat ->
  exists s', write_head s = Ok tt s' /\
    wrote s v [head_w start (v_data v) (mkLogheader n lb)] s'.
Proof.
  intros Hrel Hh (Ed & Es & El & Hs0 & Hs1 & Hs2) Hsz. change LOGSIZE with 30 in Hs1.
  assert (0 <= start < dk_size (k_disk s)) as Hst by lia.
  destruct (bread_spec s v start Hrel Hst) as (i & s1 & E1 & R1 & F1 & D1).
  { rewrite Hh. set_solver. }
  { right. unfold in_use. rewrite Hh. simpl. by rewrite union_empty_r_L. }
  assert ((i, start) ∈ v_held (v <| v_held ::= cons (i, start) |>)) as Hi by (simpl; set_solver).
  destruct (get_held s1 _ i start R1 Hi) as (b & Eb & Ebd). simpl in Ebd.
  destruct (write_held s1 _ i start (hdr_put (v_data v start) (mkLogheader n lb)) R1 Hi)
    as (s2 & E2 & R2 & F2 & D2); [by rewrite D1|].
  destruct (brelse_spec s2 _ i start [] R2) as (s3 & E3 & R3 & F3 & D3).
  { simpl. by rewrite Hh. } { right. simpl. by rewrite !upd_blk_eq. }
  exists s3. unfold write_head, get_log. mstep. rewrite Ed, Es, El.
  change (u32 1) with 1. rewrite (u32_small start) by (unfold is_u32; lia). mcall E1.
  mcall set_buf_run.
  erewrite (with_buf_ext i _ (fun b => b <| b_data := hdr_put (v_data v start) (mkLogheader n lb) |>) s1).
  2:{ intros c Hc. rewrite (get_buf_run i c s1 Hc) in Eb. injection Eb as ->.
      rewrite <- Ebd. by destruct b. }
  mcall E2. split; [exact E3|]. split; [|split].
  - by destruct v; simpl in *; subst.
  - eapply bio_frame_trans; [exact F1|]. eapply bio_frame_trans; eauto.
  - by rewrite D3, D2, D1.
Qed.

(** ** Commit *)

(** [log.lh.n = 0] *)
Definition cleared (s : kst) : kst := s <| k_log ::= set lg_lh (set lh_n (fun _ => 0)) |>.

Lemma clear_n_run s : clear_n s = Ok tt (cleared s).
Proof. done. Qed.

Lemma log_at_clear s start n lb : log_at s start n lb -> log_at (cleared s) start 0 lb.
Proof.
  intros (H1 & H2 & H3 & H4). unfold log_at. change (k_log (cleared s)) with (set lg_lh (set lh_n (fun _ => 0)) (k_log s)).
  change (k_disk (cleared s)) with (k_disk s). destruct (k_log s). simpl in *. subst. done.
Qed.

Lemma bio_frame_clear s s' : bio_frame s s' -> bio_frame (cleared s) (cleared s').
Proof. intros [E D]. split; [rewrite E at 1; done|done]. Qed.

Lemma wrote_clear s v ws s' : wrote s v ws s' -> wrote (cleared s) v ws (cleared s').
Proof. intros (R & F & D). split; [exact R|]. split; [by apply bio_frame_clear|exact D]. Qed.

Lemma bio_data_disk s v b : bio_rel s v -> v_held v = [] -> b ∉ v_dirty v -> v_data v b = v_disk v b.
Proof. intros R Hh Hb. by destruct (bio_clean s v b R Hh). Qed.

Lemma dirty_size (bl : list Z) (D : gset Z) :
  D ⊆ list_to_set bl -> (length bl < NBUF)%nat -> (size D < NBUF)%nat.
Proof.
  intros HD Hl. eapply Nat.le_lt_trans; [apply subseteq_size, HD|].
  eapply Nat.le_lt_trans; [|exact Hl]. clear HD Hl. induction bl as [|b bl IH]; simpl; [done|].
  rewrite size_union_alt. pose proof (subseteq_size (list_to_set bl ∖ {[b]}) (list_to_set bl : gset Z) ltac:(set_solver)).
  rewrite size_singleton. lia.
Qed.

(** Installing the transaction and clearing the header. *)
Lemma install_clear_run s v start n lb bl :
  bio_rel s v -> v_held v = [] -> log_at s start n lb -> Z.to_nat n = length bl ->
  take (length bl) lb = bl -> trans_ok s start bl -> v_dirty v ⊆ list_to_set bl ->
  let w := install_ws start (v_disk v) 0 bl in
  exists s', (install_trans ;; clear_n ;; write_head) s = Ok tt s' /\
    wrote (cleared s) v (w ++ [head_w start (apply_writes (v_disk v) w) (mkLogheader 0 lb)]) s'.
Proof.
  intros R Hh Hlog Hn Hlb Htr HD w. pose proof Htr as (_ & _ & Hlen).
  destruct (install_loop start _ lb bl bl 0 s v R Hh Hlog Hlb Htr HD eq_refl) as (s1 & E1 & W1).
  rewrite (install_ws_ext start _ (v_disk v)) in W1.
  2:{ intros u Hu. apply (bio_data_disk s); [done|done|]. apply (trans_slot s start bl); auto; lia. }
  fold w in W1. pose proof (wrote_clear _ _ _ _ W1) as (R1 & F1 & D1).
  destruct (write_head_run (cleared s1) (v_writes v w) start 0 lb) as (s2 & E2 & W2); auto.
  { by rewrite v_writes_held. }
  { apply (log_at_clear _ _ n). eapply log_at_frame; [exact Hlog|apply W1]. }
  { apply (dirty_size bl); [rewrite v_writes_dirty; set_solver|exact Hlen]. }
  exists s2. split.
  - unfold install_trans at 1, get_log. rewrite bind_assoc. mstep. destruct Hlog as (_ & _ & -> & _). simpl lh_n.
    rewrite Hn. mcall E1. mcall clear_n_run. exact E2.
  - eapply wrote_trans; [by apply wrote_clear|]. unfold head_w in *.
    rewrite (bio_data_disk _ _ start R1) in W2; [by rewrite v_writes_disk in W2|by rewrite v_writes_held|].
    rewrite v_writes_dirty. pose proof (blocks_ok_start start _ bl Htr). set_solver.
Qed.

(** [commit] issues the writes [commit_ws] and empties the log in memory. *)
Lemma commit_run s v start lb bl :
  bio_rel s v -> v_held v = [] -> log_at s start (Z.of_nat (length bl)) lb -> bl <> [] ->
  take (length bl) lb = bl -> trans_ok s start bl -> v_dirty v ⊆ list_to_set bl ->
  exists s', commit s = Ok tt s' /\ wrote (cleared s) v (commit_ws start (v_disk v) (v_data v) lb bl) s'.
Proof.
  intros R Hh Hlog Hne Hlb Htr HD. pose proof Htr as (_ & _ & Hlen).
  pose proof (blocks_ok_start start _ bl Htr) as Hst.
  destruct (log_loop start _ lb bl bl 0 s v R Hh Hlog Hlb Htr HD eq_refl) as (s1 & E1 & W1).
  set (w1 := log_ws start (v_data v) 0 bl) in *. pose proof W1 as (R1 & F1 & D1).
  destruct (write_head_run s1 (v_writes v w1) start (Z.of_nat (length bl)) lb) as (s2 & E2 & W2); auto.
  { by rewrite v_writes_held. } { by eapply log_at_frame. }
  { apply (dirty_size bl); [rewrite v_writes_dirty; set_solver|exact Hlen]. }
  unfold head_w in W2. rewrite (bio_data_disk _ _ start R1), v_writes_disk in W2;
    [|by rewrite v_writes_held|rewrite v_writes_dirty; set_solver].
  pose proof (wrote_trans _ _ _ _ _ _ W1 W2) as W12. set (w2 := (start, _)) in W12.
  pose proof W12 as (R2 & F2 & D2).
  destruct (install_clear_run s2 (v_writes v (w1 ++ [w2])) start (Z.of_nat (length bl)) lb bl)
    as (s3 & E3 & W3); auto.
  { by rewrite v_writes_held. } { by eapply log_at_frame. } { apply Nat2Z.id. } { by eapply trans_ok_frame. }
  { rewrite v_writes_dirty. set_solver. }
  exists s3. split.
  - unfold commit, get_log. mstep. pose proof Hlog as (_ & _ & El & _). rewrite El. simpl lh_n.
    rewrite (proj2 (Z.ltb_lt _ _)) by (destruct bl; [done|simpl; lia]). unfold when, write_log, get_log.
    rewrite bind_assoc. mstep. rewrite El. simpl lh_n. rewrite Nat2Z.id. mcall E1. mcall E2. exact E3.
  - unfold commit_ws. fold w1. rewrite (app_assoc w1). eapply wrote_trans; [by apply wrote_clear|].
    rewrite v_writes_disk, apply_writes_app in W3. exact W3.
Qed.

(** ** Recovery *)

(** [log.lh] replaced. *)
Definition with_lh (lh : logheader) (s : kst) : kst := s <| k_log ::= set lg_lh (fun _ => lh) |>.

Lemma with_lh_twice lh lh' s : with_lh lh (with_lh lh' s) = with_lh lh s.
Proof. destruct s as [? ? ? ? ? ? ? ? ? ? ? ? ? ? ? ? []]. done. Qed.

Lemma with_lh_lh lh s : lg_lh (k_log (with_lh lh s)) = lh.
Proof. destruct s as [? ? ? ? ? ? ? ? ? ? ? ? ? ? ? ? []]. done. Qed.

Lemma with_lh_set f s :
  s <| k_log ::= fun lg => lg <| lg_lh ::= f |> |> = with_lh (f (lg_lh (k_log s))) s.
Proof. destruct s as [? ? ? ? ? ? ? ? ? ? ? ? ? ? ? ? []]. done. Qed.

Lemma read_loop d n m : forall t lb s,
  lg_lh (k_log s) = mkLogheader n lb -> (t + m <= length lb)%nat ->
  exists lb', for_each (seq t m) (read_block d) s = Ok tt (with_lh (mkLogheader n lb') s) /\
    length lb' = length lb /\ take (t + m) lb' = take t lb ++ ((fun i => hdr_int d (S i)) <$> seq t m).
Proof.
  induction m as [|m IH]; intros t lb s Hlh Hlen.
  { exists lb. rewrite Nat.add_0_r, app_nil_r. split; [|done]. simpl. rewrite <- Hlh.
    f_equal. destruct s as [? ? ? ? ? ? ? ? ? ? ? ? ? ? ? ? []]. done. }
  cbn [seq for_each]. unfold read_block at 1, get_log, set_log. mstep. rewrite Hlh. simpl lh_block.
  rewrite (proj2 (Nat.leb_gt _ _)) by lia. mstep. rewrite with_lh_set, Hlh.
  set (lb1 := <[t:=hdr_int d (S t)]> lb).
  change ((mkLogheader n lb) <| lh_block ::= <[t:=hdr_int d (S t)]> |>) with (mkLogheader n lb1).
  destruct (IH (S t) lb1 (with_lh (mkLogheader n lb1) s)) as (lb' & E & L & T).
  { apply with_lh_lh. } { unfold lb1. rewrite length_insert. lia. }
  exists lb'. rewrite E, with_lh_twice. split; [done|]. unfold lb1 in L, T. rewrite length_insert in L.
  split; [done|]. replace (t + S m)%nat with (S t + m)%nat by lia. rewrite T.
  rewrite (take_S_r _ t (hdr_int d (S t))) by (apply list_lookup_insert_eq; lia).
  rewrite take_insert_ge by lia. by rewrite <- app_assoc.
Qed.

Lemma bio_rel_lh s v lh : bio_rel s v -> bio_rel (with_lh lh s) v.
Proof. intros R. exact R. Qed.

Lemma log_at_lh s start n lb n' lb' : log_at s start n lb -> log_at (with_lh (mkLogheader n' lb') s) start n' lb'.
Proof.
  intros (H1 & H2 & H3 & H4). unfold log_at. change (k_disk (with_lh _ s)) with (k_disk s).
  destruct s as [? ? ? ? ? ? ? ? ? ? ? ? ? ? ? ? []]. simpl in *. done.
Qed.

Lemma hdr_blocks_length d : length (hdr_blocks d) = Z.to_nat (hdr_int d 0).
Proof. unfold hdr_blocks. by rewrite length_fmap, length_seq. Qed.

(** [read_head] loads the transaction of the header block. *)
Lemma read_head_run s v start n lb :
  bio_rel s v -> v_held v = [] -> v_dirty v = ∅ -> log_at s start n lb -> length lb = Z.to_nat LOGSIZE ->
  (length (hdr_blocks (v_disk v start)) <= Z.to_nat LOGSIZE)%nat ->
  exists lb' s', read_head s = Ok tt s' /\ bio_rel s' v /\ k_disk s' = k_disk s /\
    log_at s' start (hdr_int (v_disk v start) 0) lb' /\ length lb' = Z.to_nat LOGSIZE /\
    take (length (hdr_blocks (v_disk v start))) lb' = hdr_blocks (v_disk v start).
Proof.
  intros R Hh HD Hlog Hlb Hlen. pose proof Hlog as (Ed & Es & El & Hs0 & Hs1 & Hs2). change LOGSIZE with 30 in Hs1.
  destruct (bread_spec s v start R) as (i & s1 & E1 & R1 & F1 & D1); [lia|rewrite Hh; set_solver| |].
  { right. unfold in_use. rewrite Hh, HD. vm_compute. lia. }
  destruct (get_held s1 _ i start R1) as (b & Eb & Ebd); [simpl; set_solver|]. simpl in Ebd.
  rewrite (bio_data_disk s v start R Hh) in Ebd by (rewrite HD; set_solver).
  set (d := v_disk v start) in *. set (s2 := with_lh (mkLogheader (hdr_int d 0) lb) s1).
  rewrite hdr_blocks_length in *.
  destruct (read_loop d (hdr_int d 0) (Z.to_nat (hdr_int d 0)) 0 lb s2) as (lb' & E2 & L & T).
  { apply with_lh_lh. } { lia. }
  destruct (brelse_spec (with_lh (mkLogheader (hdr_int d 0) lb') s2) (v <| v_held ::= cons (i, start) |>) i start [])
    as (s3 & E3 & R3 & F3 & D3); [exact R1|simpl; by rewrite Hh| |].
  { simpl. right. apply (bio_data_disk s v start R Hh). rewrite HD. set_solver. }
  exists lb', s3. split; [|split; [|split; [|split]]].
  - unfold read_head, get_log. mstep. rewrite Ed, Es. change (u32 1) with 1.
    rewrite (u32_small start) by (unfold is_u32; lia). mcall E1. mcall Eb. unfold set_log. mstep.
    rewrite with_lh_set, (bio_frame_log _ _ F1), El, Ebd.
    change ((mkLogheader n lb) <| lh_n := hdr_int d 0 |>) with (mkLogheader (hdr_int d 0) lb). fold s2.
    unfold s2 at 1. rewrite with_lh_lh. mcall E2. exact E3.
  - by destruct v; simpl in *; subst.
  - by rewrite D3, <- D1.
  - eapply log_at_frame; [|exact F3]. eapply log_at_lh, log_at_lh, log_at_frame; [exact Hlog|exact F1].
  - split; [by rewrite L|]. exact T.
Qed.

Lemma recover_run s v start n lb :
  bio_rel s v -> v_held v = [] -> v_dirty v = ∅ -> log_at s start n lb -> length lb = Z.to_nat LOGSIZE ->
  trans_ok s start (hdr_blocks (v_disk v start)) ->
  exists s', recover_from_log s = Ok tt s' /\ bio_rel s' (v_writes v (recover_ws start (v_disk v))) /\
    k_disk s' = disk_writes (recover_ws start (v_disk v)) (k_disk s).
Proof.
  intros R Hh HD Hlog Hlb Htr. pose proof Htr as (_ & _ & Hlen).
  destruct (read_head_run s v start n lb) as (lb' & s1 & E1 & R1 & D1 & Hlog1 & Hlb1 & Htk); auto; [lia|].
  destruct (install_clear_run s1 v start _ lb' (hdr_blocks (v_disk v start)) R1 Hh Hlog1)
    as (s2 & E2 & R2 & F2 & D2); auto.
  { by rewrite hdr_blocks_length. } { unfold trans_ok. by rewrite D1. } { rewrite HD. set_solver. }
  exists s2. unfold recover_from_log. mcall E1. split; [exact E2|]. split; [exact R2|]. by rewrite <- D1.
Qed.
End Driver.
