(* ===== verification/Trans.v ===== *)
(** * File system transactions

    [log_write] records blocks in the log's header, [begin_op] and [end_op] bracket
    a transaction. A transaction of at most [MAXOPBLOCKS] block updates is atomic:
    whenever the machine stops, recovery finds all of the updates or none. *)

From Stdlib Require Import FunctionalExtensionality.
From S2P Require Import Prelude Params State Mem Strings Locks Kalloc Vm Sched Policy Procs Sleeplock Bio BioSpec Log LogDisk LogSpec.
Import Spin.

(** ** The header in memory *)

(** The header [lh] lists the blocks [bl]. *)
Definition lh_repr (lh : logheader) (bl : list Z) : Prop :=
  lh_n lh = Z.of_nat (length bl) /\ take (length bl) (lh_block lh) = bl /\
  length (lh_block lh) = Z.to_nat LOGSIZE.

(** What [log_write] does to it. *)
Definition lh_add (lh : logheader) (b : Z) : logheader :=
  let k := log_index lh b in
  mkLogheader (if Z.of_nat k =? lh_n lh then lh_n lh + 1 else lh_n lh) (<[k := s32 b]> (lh_block lh)).

(** A block already listed is absorbed. *)
Definition bl_add (bl : list Z) (b : Z) : list Z := if bool_decide (b ∈ bl) then bl else bl ++ [b].

Lemma lh_add_repr lh bl b :
  lh_repr lh bl -> Forall (fun b => 0 <= b < 2 ^ 31) bl -> 0 <= b < 2 ^ 31 ->
  (length bl < Z.to_nat LOGSIZE)%nat -> lh_repr (lh_add lh b) (bl_add bl b).
Proof.
  intros (Hn & Ht & Hl) Hall Hb Hlen. unfold lh_add, bl_add, log_index.
  rewrite Hn, Nat2Z.id, Ht. rewrite (s32_small b) by (unfold is_s32; lia).
  destruct (find_from _ 0 bl) as [j|] eqn:E; simpl default.
  - apply find_from_Some in E as (x & Hx & Hxb & _). apply Z.eqb_eq in Hxb.
    pose proof (Forall_lookup_1 _ _ _ _ Hall Hx) as Hxr. simpl in Hxr.
    rewrite u32_small in Hxb by (unfold is_u32; lia). subst x.
    rewrite bool_decide_eq_true_2 by (by eapply list_elem_of_lookup_2).
    pose proof (lookup_lt_Some _ _ _ Hx) as Hj. rewrite (proj2 (Z.eqb_neq _ _)) by lia.
    split; [done|]. simpl. rewrite length_insert. split; [|done].
    rewrite list_insert_id; [done|]. rewrite <- Ht in Hx. by apply lookup_take_Some in Hx as [? _].
  - rewrite bool_decide_eq_false_2.
    2:{ intros Hin. apply list_elem_of_lookup_1 in Hin as [j Hj].
        pose proof (proj1 (find_from_None _ _) E j b Hj) as Hf. simpl in Hf.
        rewrite u32_small, Z.eqb_refl in Hf by (unfold is_u32; lia). done. }
    rewrite Z.eqb_refl. unfold lh_repr. simpl. rewrite length_app, length_insert. simpl.
    split; [lia|]. split; [|done]. rewrite Nat.add_1_r.
    rewrite (take_S_r _ _ b) by (apply list_lookup_insert_eq; lia). by rewrite take_insert_ge, Ht by lia.
Qed.

Lemma bl_add_elem bl b x : x ∈ bl_add bl b <-> x ∈ bl \/ x = b.
Proof. unfold bl_add. case_bool_decide; set_solver. Qed.

Lemma bl_add_length bl b : (length (bl_add bl b) <= S (length bl))%nat.
Proof. unfold bl_add. case_bool_decide; rewrite ?length_app; simpl; lia. Qed.

Lemma bl_add_NoDup bl b : NoDup bl -> NoDup (bl_add bl b).
Proof.
  intros Hnd. unfold bl_add. case_bool_decide; [done|]. apply list.NoDup_app. split; [done|].
  split; [set_solver|]. apply NoDup_singleton.
Qed.

Section Driver.
Context `{BlockDriverOk}.

(** ** log_write *)

Definition pin (i : nat) (s : kst) : kst := with_buf i (fun b => b <| b_flags ::= fun f => Z.lor f B_DIRTY |>) s.

Lemma log_write_run i b s :
  calm s -> bufs s !! i = Some b ->
  lh_n (lg_lh (k_log s)) < LOGSIZE -> lh_n (lg_lh (k_log s)) < lg_size (k_log s) - 1 ->
  1 <= lg_outstanding (k_log s) ->
  log_write i s = Ok tt (pin i (with_lh (lh_add (lg_lh (k_log s)) (b_blockno b)) s)).
Proof.
  intros Hc Hb H1 H2 H3. unfold log_write, get_log. mstep.
  rewrite (proj2 (Z.leb_gt _ _)), (proj2 (Z.leb_gt _ _)), (proj2 (Z.ltb_ge _ _)) by lia. cbn [orb].
  mcall calm_acquire; [|done]. mcall get_buf_run; [|exact Hb]. unfold set_log. mstep.
  change (k_log (lock_st LLog s)) with (k_log s). rewrite with_lh_set.
  change (k_log (lock_st LLog s)) with (k_log s).
  set (k := log_index (lg_lh (k_log s)) (b_blockno b)).
  set (lh1 := (lg_lh (k_log s)) <| lh_block ::= <[k:=s32 (b_blockno b)]> |>).
  assert (when (Z.of_nat k =? lh_n (lg_lh (k_log s)))
    (modify (fun s => s <| k_log ::= fun lg => lg <| lg_lh ::= fun lh => lh <| lh_n ::= fun n => n + 1 |> |> |>))
    (with_lh lh1 (lock_st LLog s)) = Ok tt (with_lh (lh_add (lg_lh (k_log s)) (b_blockno b)) (lock_st LLog s))) as Hw.
  { unfold lh_add. fold k. destruct (Z.of_nat k =? _); simpl; [|unfold ret, lh1; by destruct (lg_lh (k_log s))].
    unfold modify. rewrite with_lh_set, with_lh_lh, with_lh_twice. unfold lh1. by destruct (lg_lh (k_log s)). }
  mcall Hw. mcall set_buf_run. rewrite (calm_release _ s) by done.
  reflexivity.
Qed.

(** ** begin_op and end_op *)

Definition with_log (f : log -> log) (s : kst) : kst := s <| k_log ::= f |>.

(** A transaction starts at once when its blocks are sure to fit. *)
Lemma begin_op_run s :
  calm s -> lg_committing (k_log s) = 0 ->
  lh_n (lg_lh (k_log s)) + (lg_outstanding (k_log s) + 1) * MAXOPBLOCKS <= LOGSIZE ->
  begin_op s = Ok tt (with_log (fun lg => lg <| lg_outstanding ::= fun n => n + 1 |>) s).
Proof.
  intros Hc Hcom Hfit. unfold begin_op. mcall calm_acquire; [|done]. unfold begin_op_loop, get_log, set_log. mstep.
  change (k_log (lock_st LLog s)) with (k_log s). rewrite Hcom. simpl. rewrite (proj2 (Z.ltb_ge _ _)) by lia.
  mstep. rewrite (calm_release _ s) by done. reflexivity.
Qed.

(** The states around the commit of [end_op]. *)
Definition committing_st (s : kst) : kst :=
  with_log (fun lg => lg <| lg_outstanding ::= fun n => n - 1 |> <| lg_committing := 1 |>) s.

Definition committed_st (s : kst) : kst :=
  woken ChLog (with_log (fun lg => lg <| lg_committing := 0 |>) s).

(** The last transaction to end commits. *)
Lemma end_op_run s s1 :
  calm s -> lg_committing (k_log s) = 0 -> lg_outstanding (k_log s) = 1 ->
  commit (committing_st s) = Ok tt s1 -> calm s1 -> end_op s = Ok tt (committed_st s1).
Proof.
  intros Hc Hcom Hout Hrun Hc1. unfold end_op, get_log, set_log. mcall calm_acquire; [|done]. mstep.
  simpl. rewrite Hcom, Hout. simpl. mstep.
  erewrite bind_ok; [|by apply (calm_release _ s)]. cbv beta.
  match goal with |- bind _ _ ?x = _ => replace x with (committing_st s) end.
  - unfold when. mcall Hrun. mcall calm_acquire; [|done]. mstep.
    change ((lock_st LLog s1) <| k_log ::= ?f |>) with (lock_st LLog (with_log f s1)).
    mcall nested_wakeup; [|exact Hc1|done]. rewrite (calm_release _ s1) by done. reflexivity.
  - destruct s as [? ? ? ? ? ? ? ? ? ? ? ? ? ? ? ? []]. reflexivity.
Qed.

(** ** A transaction *)

(** One block updated: read, modified, recorded in the log, released. *)
Definition update_block (u : Z * list Z) : K unit :=
  i <- bread 1 (fst u) ;;
  set_buf i (fun b => b <| b_data := snd u |>) ;;
  log_write i ;;
  brelse i.

Definition transaction (us : list (Z * list Z)) : K unit :=
  begin_op ;; for_each us update_block ;; end_op.

(** Inside a transaction over a disk with contents [f]: the blocks [bl] are in the
    log and the cache shows [g]. *)
Record in_trans (s : kst) (start : Z) (f g : Z -> list Z) (bl : list Z) : Prop := {
  it_rel : bio_rel s (mkView f g (list_to_set bl) []);
  it_lh : lh_repr (lg_lh (k_log s)) bl;
  it_at : log_at s start (lh_n (lg_lh (k_log s))) (lh_block (lg_lh (k_log s)));
  it_ok : trans_ok s start bl;
  it_size : lg_size (k_log s) = LOGSIZE;
  it_out : lg_outstanding (k_log s) = 1;
  it_com : lg_committing (k_log s) = 0
}.

Lemma trans_add s start bl b :
  trans_ok s start bl -> 0 <= b < dk_size (k_disk s) -> outside start b ->
  (S (length bl) < Z.to_nat LOGSIZE)%nat -> trans_ok s start (bl_add bl b).
Proof.
  intros (Hnd & Hall & Hlen) Hb Ho Hl. split; [by apply bl_add_NoDup|]. split.
  - rewrite list.Forall_forall in Hall |- *. intros x Hx. apply bl_add_elem in Hx as [Hx| ->]; [by apply Hall|done].
  - pose proof (bl_add_length bl b). lia.
Qed.

Lemma update_block_run s start f g bl b d :
  in_trans s start f g bl -> 0 <= b < dk_size (k_disk s) -> outside start b ->
  (S (length bl) < Z.to_nat LOGSIZE)%nat ->
  exists s', update_block (b, d) s = Ok tt s' /\ in_trans s' start f (upd_blk g b d) (bl_add bl b) /\
    k_disk s' = k_disk s.
Proof.
  intros [R Hlh Hat Hok Hsz Hout Hcom] Hb Ho Hl.
  pose proof Hat as (_ & _ & _ & _ & _ & Hs2). pose proof Hok as (Hnd & Hall & Hlen).
  pose proof Hlh as (Hn & Ht & Hll). change (Z.to_nat LOGSIZE) with 30%nat in *. change LOGSIZE with 30 in *.
  destruct (bread_spec s _ b R Hb) as (i & s1 & E1 & R1 & F1 & D1); [set_solver| |].
  { right. unfold in_use. simpl. rewrite union_empty_r_L, size_list_to_set by done. unfold NBUF, MAXOPBLOCKS. lia. }
  set (v1 := (mkView f g (list_to_set bl) []) <| v_held ::= cons (i, b) |>) in *.
  assert ((i, b) ∈ v_held v1) as Hh by (unfold v1; simpl; set_solver).
  pose proof (bio_rel_data s1 v1 i b d R1 Hh) as R2. set (s2 := with_buf i _ s1) in R2.
  pose proof R2 as (Hc2 & _ & _ & Hok2 & _). destruct (co_held _ _ Hok2 i b Hh) as (c & Hcb & _ & Hcno).
  assert (k_log s2 = k_log s) as Elog by (exact (bio_frame_log _ _ F1)).
  assert (0 <= b < 2 ^ 31) as Hb31 by lia.
  pose proof (log_write_run i c s2 Hc2 Hcb) as Hw. rewrite Elog, Hcno, Hn, Hsz, Hout in Hw.
  change LOGSIZE with 30 in Hw. specialize (Hw ltac:(lia) ltac:(lia) ltac:(lia)).
  set (lh' := lh_add (lg_lh (k_log s)) b) in Hw. pose proof (bio_rel_pin _ _ i b (bio_rel_lh _ _ lh' R2) Hh) as R3.
  destruct (brelse_spec _ _ i b [] R3) as (s4 & E4 & R4 & F4 & D4); [done|left; simpl; set_solver|].
  exists s4. unfold update_block. cbn [fst snd]. mcall E1. mcall set_buf_run. fold s2. mcall Hw. split; [exact E4|].
  assert (k_log s4 = set lg_lh (fun _ => lh') (k_log s)) as Elog4.
  { rewrite (bio_frame_log _ _ F4). rewrite <- Elog. done. }
  assert (k_disk s4 = k_disk s) as Edisk by (rewrite D4, <- D1; done).
  split; [|done]. constructor.
  - assert (list_to_set (bl_add bl b) = {[b]} ∪ (list_to_set bl : gset Z)) as ->; [|exact R4].
    apply set_eq. intros x.
    rewrite elem_of_union, elem_of_singleton, !elem_of_list_to_set, bl_add_elem. tauto.
  - rewrite Elog4. change (lg_lh (set lg_lh (fun _ => lh') (k_log s))) with lh'. apply lh_add_repr; auto.
    rewrite list.Forall_forall in Hall |- *. intros x Hx. destruct (Hall x Hx). lia.
  - destruct Hat as (A1 & A2 & A3 & A4). unfold log_at. rewrite Elog4, Edisk.
    change (lg_lh (set lg_lh (fun _ => lh') (k_log s))) with lh'. by destruct lh'.
  - unfold trans_ok. rewrite Edisk. by apply trans_add.
  - by rewrite Elog4.
  - by rewrite Elog4.
  - by rewrite Elog4.
Qed.

Lemma updates_run us : forall s start f g bl,
  in_trans s start f g bl -> Forall (fun u => 0 <= fst u < dk_size (k_disk s) /\ outside start (fst u)) us ->
  (length bl + length us < Z.to_nat LOGSIZE)%nat ->
  exists s', for_each us update_block s = Ok tt s' /\
    in_trans s' start f (apply_writes g us) (fold_left bl_add us.*1 bl) /\ k_disk s' = k_disk s.
Proof.
  induction us as [|[b d] us IH]; intros s start f g bl Hin Hus Hl; [by exists s|].
  apply list.Forall_cons in Hus as [[Hb Ho] Hus]. simpl in Hl, Hb, Ho.
  destruct (update_block_run s start f g bl b d Hin Hb Ho) as (s1 & E1 & Hin1 & D1); [lia|].
  pose proof (bl_add_length bl b).
  destruct (IH s1 start f _ _ Hin1) as (s2 & E2 & Hin2 & D2); [by rewrite D1|lia|].
  exists s2. cbn [for_each]. mcall E1. split; [exact E2|]. split; [exact Hin2|]. by rewrite D2.
Qed.

(** ** Atomicity *)

(** No transaction is open, the log is empty and disk and cache hold [f]. *)
Record quiescent (s : kst) (start : Z) (f : Z -> list Z) : Prop := {
  qu_rel : bio_rel s (flat f);
  qu_lh : lh_repr (lg_lh (k_log s)) [];
  qu_at : log_at s start 0 (lh_block (lg_lh (k_log s)));
  qu_size : lg_size (k_log s) = LOGSIZE;
  qu_out : lg_outstanding (k_log s) = 0;
  qu_com : lg_committing (k_log s) = 0;
  qu_disk : logged start (dk_size (k_disk s)) f [] f
}.

(** The state in which [recover_from_log] runs after a reboot: nothing cached, the
    log located, the disk holding [d]. *)
Record rebooted (r : kst) (start size : Z) (d : Z -> list Z) : Prop := {
  rb_rel : bio_rel r (flat d);
  rb_at : exists n lb, log_at r start n lb /\ length lb = Z.to_nat LOGSIZE;
  rb_size : dk_size (k_disk r) = size
}.

Lemma bio_rel_flat s v : bio_rel s v -> v_held v = [] -> v_dirty v = ∅ -> bio_rel s (flat (v_disk v)).
Proof.
  intros R Hh HD. assert (v_data v = v_disk v) as E.
  { extensionality b. apply (bio_data_disk s v b R Hh). rewrite HD. set_solver. }
  destruct v; simpl in *; subst; done.
Qed.

(** The disks that stops during recovery, any number of them, leave behind: each time
    [recover_from_log] is started on the disk [d'] of the last stop, and is cut short after
    [k] of the blocks it writes. *)
Inductive crashed (start size : Z) : (Z -> list Z) -> (Z -> list Z) -> Prop :=
| crashed_none d : crashed start size d d
| crashed_again d d' r r' ws k :
    crashed start size d d' -> rebooted r start size d' ->
    recover_from_log r = Ok tt r' -> k_disk r' = disk_writes ws (k_disk r) ->
    crashed start size d (apply_writes d' (take k ws)).

Lemma disk_writes_inj ws ws' d : disk_writes ws d = disk_writes ws' d -> ws = ws'.
Proof.
  intros E. apply (f_equal dk_hist) in E. apply (inj (.++ dk_hist d)) in E. by rewrite <- (rev_involutive ws), E, rev_involutive.
Qed.

(** Recovery of a disk whose log is intact. *)
Lemma recover_logged r start size d bl t :
  rebooted r start size d -> logged start size d bl t ->
  exists r', recover_from_log r = Ok tt r' /\ k_disk r' = disk_writes (recover_ws start d) (k_disk r) /\
    bio_rel r' (flat (recovered start d)) /\ logged start size (recovered start d) [] t.
Proof.
  intros [R (n & lb & Hat & Hlb) Hsz] Hlog. pose proof (lo_hdr _ _ _ _ _ Hlog) as Hh.
  destruct (recover_run r (flat d) start n lb R) as (r' & E & R' & D'); try done.
  { simpl. rewrite Hh. unfold trans_ok. rewrite Hsz. apply Hlog. }
  exists r'. split; [done|]. split; [done|]. split; [|by eapply recovered_logged].
  apply bio_rel_flat in R'; [|by rewrite v_writes_held|rewrite v_writes_dirty; set_solver].
  by rewrite v_writes_disk in R'.
Qed.

(** A stop during recovery leaves the log intact. *)
Lemma crashed_logged start size d d' bl t :
  crashed start size d d' -> logged start size d bl t -> exists bl', logged start size d' bl' t.
Proof.
  intros Hc Hl0. induction Hc as [d|d d' r r' ws k Hc IH Hrb E D]; [eauto|]. destruct (IH Hl0) as [bl' Hlog].
  destruct (recover_logged r start size d' bl' t Hrb Hlog) as (r1 & E1 & D1 & _). rewrite E in E1. injection E1 as <-.
  rewrite D in D1. apply disk_writes_inj in D1 as ->. by eapply recover_cut.
Qed.

Lemma crash_recovers start size d d' bl t r :
  crashed start size d d' -> logged start size d bl t -> rebooted r start size d' ->
  exists r' rws, recover_from_log r = Ok tt r' /\ k_disk r' = disk_writes rws (k_disk r) /\
    bio_rel r' (flat (apply_writes d' rws)) /\ logged start size (apply_writes d' rws) [] t.
Proof.
  intros Hcr Hlog Hrb. destruct (crashed_logged start size d d' bl t Hcr Hlog) as [bl' Hlog'].
  destruct (recover_logged r start size d' bl' t Hrb Hlog') as (r' & Hr). by exists r', (recover_ws start d').
Qed.

Lemma bl_adds_elem l bl x : x ∈ fold_left bl_add l bl <-> x ∈ bl \/ x ∈ l.
Proof. revert bl. induction l as [|b l IH]; intros bl; simpl; [set_solver|]. rewrite IH, bl_add_elem. set_solver. Qed.

Lemma updates_updated f us : updated f (apply_writes f us) (fold_left bl_add us.*1 []) = apply_writes f us.
Proof.
  extensionality b. unfold updated. case_bool_decide as Hb; [done|]. rewrite apply_notin; [done|].
  intros Hin. apply Hb, bl_adds_elem. by right.
Qed.

(** The [commit] of [end_op], and the state it leaves. *)
Lemma commit_in_trans s start f g bl :
  in_trans s start f g bl -> bl <> [] ->
  let ws := commit_ws start f g (lh_block (lg_lh (k_log s))) bl in
  exists s1, commit (committing_st s) = Ok tt s1 /\
    wrote (cleared (committing_st s)) (mkView f g (list_to_set bl) []) ws s1.
Proof.
  intros [R (Hn & Ht & Hl) Hat Hok Hsz Hout Hcom] Hne ws.
  destruct (commit_run (committing_st s) (mkView f g (list_to_set bl) []) start (lh_block (lg_lh (k_log s))) bl)
    as (s1 & E & W); try done; eauto.
  rewrite Hn in Hat. exact Hat.
Qed.

(** The end of a transaction, from the state of the log in memory after [commit]. *)
Lemma quiescent_end s s1 start f h :
  k_log s1 = k_log (cleared (committing_st s)) -> dk_size (k_disk s1) = dk_size (k_disk s) ->
  log_at s start (lh_n (lg_lh (k_log s))) (lh_block (lg_lh (k_log s))) ->
  length (lh_block (lg_lh (k_log s))) = Z.to_nat LOGSIZE ->
  lg_size (k_log s) = LOGSIZE -> lg_outstanding (k_log s) = 1 ->
  bio_rel s1 (flat h) -> logged start (dk_size (k_disk s)) h [] f ->
  quiescent (committed_st s1) start h.
Proof.
  intros Elog Esz (A1 & A2 & A3 & A4) Hl Hsz Hout (Rc & Ri & R3 & R4) Hlg.
  assert (k_log (committed_st s1) = set lg_committing (fun _ => 0) (k_log (cleared (committing_st s)))) as E.
  { rewrite <- Elog. done. }
  constructor.
  - split; [exact Rc|]. split; [by apply woken_inproc|]. split; [exact R3|exact R4].
  - rewrite E. split; [done|]. split; [done|exact Hl].
  - unfold log_at. rewrite E. change (k_disk (committed_st s1)) with (k_disk s1). rewrite Esz.
    split; [exact A1|]. split; [exact A2|]. split; [by destruct (k_log s) as [? ? ? ? ? []]|exact A4].
  - by rewrite E.
  - rewrite E. simpl. by rewrite Hout.
  - by rewrite E.
  - change (k_disk (committed_st s1)) with (k_disk s1). rewrite Esz. by eapply logged_self.
Qed.

(** Ending the only transaction: the writes of a commit, if it updated anything. *)
Lemma end_trans s start f g bl :
  in_trans s start f g bl -> logged start (dk_size (k_disk s)) f [] f ->
  exists s' ws, end_op s = Ok tt s' /\ k_disk s' = disk_writes ws (k_disk s) /\
    quiescent s' start (apply_writes f ws) /\
    (bl = [] /\ ws = [] \/ bl <> [] /\ ws = commit_ws start f g (lh_block (lg_lh (k_log s))) bl).
Proof.
  intros Hin Hlg. pose proof Hin as [R Hlh Hat Hok Hsz Hout Hcom]. pose proof Hlh as (Hn & Ht & Hl).
  pose proof R as (Hc & _). pose proof Hat as (_ & _ & _ & _ & _ & Hs2).
  destruct (decide (bl = [])) as [Hbl|Hne].
  - assert (commit (committing_st s) = Ok tt (committing_st s)) as E.
    { unfold commit, get_log. mstep. change (k_log (committing_st s)) with
        ((k_log s) <| lg_outstanding ::= fun n => n - 1 |> <| lg_committing := 1 |>).
      simpl. rewrite Hn, Hbl. done. }
    exists (committed_st (committing_st s)), []. split; [by apply end_op_run|].
    split; [by rewrite disk_writes_nil|]. split; [|by left]. apply (quiescent_end s _ start f); auto.
    + change (k_log (cleared (committing_st s))) with (set lg_lh (set lh_n (fun _ => 0)) (k_log (committing_st s))).
      change (k_log (committing_st s)) with
        ((k_log s) <| lg_outstanding ::= fun n => n - 1 |> <| lg_committing := 1 |>).
      destruct (k_log s) as [? ? ? ? ? []]. simpl in *. rewrite Hn, Hbl. done.
    + rewrite Hbl in R. exact (bio_rel_flat (committing_st s) _ R eq_refl eq_refl).
  - destruct (commit_in_trans s start f g bl Hin Hne) as (s1 & E & R1 & F1 & D1).
    set (ws := commit_ws _ _ _ _ _) in *. exists (committed_st s1), ws.
    split; [apply end_op_run; auto; apply R1|]. split; [exact D1|]. split; [|by right].
    pose proof (commit_full start _ f f g (lh_block (lg_lh (k_log s))) bl Hs2 Hlg Hok Ht) as Hfull.
    fold ws in Hfull. apply (quiescent_end s s1 start (updated f g bl)); auto.
    + exact (bio_frame_log _ _ F1).
    + exact (bio_frame_size _ _ F1).
    + apply bio_rel_flat in R1; [by rewrite v_writes_disk in R1|by rewrite v_writes_held|].
      rewrite v_writes_dirty. simpl. apply set_eq. intros x. rewrite elem_of_difference, !elem_of_list_to_set.
      split; [|set_solver]. intros [Hx Hnx]. exfalso. apply Hnx. unfold ws, commit_ws.
      rewrite !fmap_app, install_ws_keys. set_solver.
    + apply Hfull. rewrite Hl. done.
Qed.

Lemma begin_trans s start f :
  quiescent s start f ->
  exists s', begin_op s = Ok tt s' /\ in_trans s' start f f [] /\ k_disk s' = k_disk s.
Proof.
  intros [R (Hn & Ht & Hl) Hat Hsz Hout Hcom Hlg]. pose proof R as (Hc & _).
  eexists. split; [apply begin_op_run; [done|done|]|].
  { rewrite Hn, Hout. vm_compute. congruence. }
  split; [|done]. constructor; simpl; try done.
  - rewrite Hn. exact Hat.
  - apply blocks_ok_nil.
  - by rewrite Hout.
Qed.

(** C1. A file system transaction is atomic and durable. A transaction over a quiet
    file system runs to its end, and leaves the disk with its updates; [ws] are the blocks
    it writes, in order. If the machine stops after any number [k] of them, and stops again
    any number of times after any number of the blocks that [recover_from_log] writes, then
    at the next start [recover_from_log] completes. The blocks it leaves outside the log
    have all of the updates or none of them: all of them if the transaction had completed. *)
Theorem transaction_atomic (s : kst) (start : Z) (f : Z -> list Z) (us : list (Z * list Z)) :
  quiescent s start f -> (length us <= Z.to_nat MAXOPBLOCKS)%nat ->
  Forall (fun u => 0 <= fst u < dk_size (k_disk s) /\ outside start (fst u)) us ->
  exists s' f' ws, transaction us s = Ok tt s' /\ k_disk s' = disk_writes ws (k_disk s) /\
    quiescent s' start f' /\ (forall b, outside start b -> f' b = apply_writes f us b) /\
    forall k d r, crashed start (dk_size (k_disk s)) (apply_writes f (take k ws)) d -> rebooted r start (dk_size (k_disk s)) d ->
    exists r' rws, recover_from_log r = Ok tt r' /\ k_disk r' = disk_writes rws (k_disk r) /\
      bio_rel r' (flat (apply_writes d rws)) /\ logged start (dk_size (k_disk s)) (apply_writes d rws) [] (apply_writes d rws) /\
      ((forall b, outside start b -> apply_writes d rws b = apply_writes f us b) \/
       (k < length ws)%nat /\ (forall b, outside start b -> apply_writes d rws b = f b)).
Proof.
  intros Hq Hlen Hus. pose proof (qu_disk _ _ _ Hq) as Hlg. pose proof (qu_at _ _ _ Hq) as (_ & _ & _ & _ & _ & Hs2).
  destruct (begin_trans s start f Hq) as (s1 & E1 & Hin1 & D1).
  destruct (updates_run us s1 start f f [] Hin1) as (s2 & E2 & Hin2 & D2).
  { by rewrite D1. } { change (Z.to_nat MAXOPBLOCKS) with 10%nat in Hlen. change (Z.to_nat LOGSIZE) with 30%nat. simpl. lia. }
  set (bl := fold_left bl_add us.*1 []) in *. assert (k_disk s2 = k_disk s) as D12 by congruence.
  destruct (end_trans s2 start f _ bl Hin2) as (s3 & ws & E3 & D3 & Hq3 & Hws); [by rewrite D12|].
  pose proof Hin2 as [_ (_ & Ht & Hl) _ Hok _ _ _]. unfold trans_ok in Hok. rewrite D12 in *.
  assert (forall k, exists bl', logged start (dk_size (k_disk s)) (apply_writes f (take k ws)) bl' (apply_writes f us) \/
    (k < length ws)%nat /\ logged start (dk_size (k_disk s)) (apply_writes f (take k ws)) bl' f) as Hcut.
  { intros k. rewrite <- (updates_updated f us). fold bl. destruct Hws as [[Hbl ->]|[Hne ->]].
    - exists []. left. rewrite Hbl, take_nil. exact Hlg.
    - destruct (commit_cut start (dk_size (k_disk s)) f f (apply_writes f us) (lh_block (lg_lh (k_log s2))) bl k)
        as (bl' & [[Hk Hc]|[Hk Hc]]); auto; [by rewrite Hl| |]; exists bl'; [right|by left].
      rewrite commit_ws_length. split; [lia|done]. }
  exists s3, (apply_writes f ws), ws. split; [|split; [done|split; [done|split]]].
  - unfold transaction. mcall E1. mcall E2. exact E3.
  - intros b Hb. destruct (Hcut (length ws)) as (bl' & [Hc|[Hk _]]); [|lia]. rewrite take_ge in Hc by done.
    pose proof (lo_hdr _ _ _ _ _ Hc) as E. rewrite (lo_hdr _ _ _ _ _ (qu_disk _ _ _ Hq3)) in E. subst bl'.
    apply (lo_home _ _ _ _ _ Hc); [done|set_solver].
  - intros k d r Hcr Hrb. destruct (Hcut k) as (bl' & [Hc|[Hk Hc]]);
      destruct (crash_recovers start _ _ d _ _ r Hcr Hc Hrb) as (r' & rws & Er & Dr & Rr & Lr); exists r', rws;
      (split; [done|]; split; [done|]; split; [done|]; split; [by eapply logged_self|]).
    + left. intros b Hb. apply (lo_home _ _ _ _ _ Lr); [done|set_solver].
    + right. split; [done|]. intros b Hb. apply (lo_home _ _ _ _ _ Lr); [done|set_solver].
Qed.
End Driver.

(** An empty file system on a disk of zeroes, its log at block 2. *)
Definition fresh_log : kst :=
  with_log (fun _ => mkLog 2 LOGSIZE 0 0 1 (mkLogheader 0 (replicate (Z.to_nat LOGSIZE) 0)))
    (cache0 (fun _ => replicate (Z.to_nat BSIZE) 0)).

Lemma with_log_rel g s v : bio_rel s v -> bio_rel (with_log g s) v.
Proof. intros R. exact R. Qed.

Lemma fresh_log_quiescent : quiescent fresh_log 2 (fun _ => replicate (Z.to_nat BSIZE) 0).
Proof.
  constructor.
  - apply with_log_rel, cache0_rel.
  - split; [reflexivity|]. split; reflexivity.
  - split; [reflexivity|]. split; [reflexivity|]. split; [reflexivity|].
    split; [|split]; vm_compute; congruence.
  - reflexivity.
  - reflexivity.
  - reflexivity.
  - constructor; try reflexivity; apply blocks_ok_nil.
Qed.

Lemma fresh_log_rebooted : rebooted fresh_log 2 (dk_size (k_disk fresh_log)) (fun _ => replicate (Z.to_nat BSIZE) 0).
Proof.
  constructor; [exact (qu_rel _ _ _ fresh_log_quiescent)| |reflexivity].
  exists 0, (replicate (Z.to_nat LOGSIZE) 0). split; [exact (qu_at _ _ _ fresh_log_quiescent)|reflexivity].
Qed.

Lemma transaction_atomic_witness :
  exists s' f', transaction (H := memide_driver) [(40, [1; 2]); (41, [3]); (40, [4])] fresh_log = Ok tt s' /\
    quiescent s' 2 f' /\ f' 40 = [4] /\ f' 41 = [3] /\
    exists r' rws, recover_from_log (H := memide_driver) fresh_log = Ok tt r' /\ k_disk r' = disk_writes rws (k_disk fresh_log).
Proof.
  destruct (transaction_atomic (H := memide_driver) fresh_log 2 (fun _ => replicate (Z.to_nat BSIZE) 0)
    [(40, [1; 2]); (41, [3]); (40, [4])] fresh_log_quiescent) as (s' & f' & ws & E & _ & Hq & Hf & Hcr).
  - vm_compute. lia.
  - repeat (apply list.Forall_cons; split; [split; [split; vm_compute; congruence|right; vm_compute; congruence]|]).
    apply list.Forall_nil; exact I.
  - exists s', f'. split; [exact E|]. split; [exact Hq|].
    split; [rewrite Hf; [reflexivity|right; vm_compute; congruence]|].
    split; [rewrite Hf; [reflexivity|right; vm_compute; congruence]|].
    destruct (Hcr 0%nat (fun _ => replicate (Z.to_nat BSIZE) 0) fresh_log) as (r' & rws & Er & Dr & _).
    + apply crashed_none.
    + exact fresh_log_rebooted.
    + exists r', rws. split; assumption.
Defined.
