(* ===== verification/Pipe.v ===== *)
(** * Pipes ([pipe.c])

    A pipe lives in a page of its own and is found by its address. The data of a
    read or a write are passed as a list; a call that goes to sleep is continued by
    its [_resume] routine with the bytes it has left. *)

From S2P Require Import Prelude Params State Mem Strings Locks Kalloc Vm Sched Policy Procs Sleeplock.
Import Spin.

Definition PIPESIZE : Z := 512.

Definition get_pipe (p : Z) : K pipe :=
  o <- gets (fun s => k_pipes s !! p) ;;
  match o with Some pi => ret pi | None => fault "pipe" end.

Definition with_pipe (p : Z) (f : pipe -> pipe) (s : kst) : kst := s <| k_pipes ::= alter f p |>.
Definition set_pipe (p : Z) (f : pipe -> pipe) : K unit := modify (with_pipe p f).

(** [proc->killed] *)
Definition killed : K bool :=
  me <- myproc ;; p <- get_proc me ;; ret (nz (p_killed p)).

Definition pipeclose (p : Z) (writable : bool) : K unit :=
  acquire (LPipe p) ;;
  (if writable then
     set_pipe p (fun pi => pi <| pi_writeopen := false |>) ;; wakeup (ChPipeR p)
   else
     set_pipe p (fun pi => pi <| pi_readopen := false |>) ;; wakeup (ChPipeW p)) ;;
  pi <- get_pipe p ;;
  if negb (pi_readopen pi) && negb (pi_writeopen pi) then
    release (LPipe p) ;;
    modify (fun s => s <| k_pipes ::= delete p |>) ;;
    kfree p
  else release (LPipe p).

(** [p->nwrite == p->nread + PIPESIZE] *)
Definition pipe_full (pi : pipe) : bool := pi_nwrite pi =? u32 (pi_nread pi + PIPESIZE).

(** [p->data[p->nwrite++ % PIPESIZE] = b] *)
Definition pipe_put (b : Z) (pi : pipe) : pipe :=
  pi <| pi_data ::= <[Z.to_nat (pi_nwrite pi mod PIPESIZE) := b]> |> <| pi_nwrite := u32 (pi_nwrite pi + 1) |>.

(** The loop of [pipewrite]; [n] is the length of the whole write. *)
Fixpoint pipewrite_loop (p n : Z) (src : list Z) : K Z :=
  match src with
  | [] => wakeup (ChPipeR p) ;; release (LPipe p) ;; ret n
  | b :: src' =>
      pi <- get_pipe p ;;
      if pipe_full pi then
        k <- killed ;;
        if negb (pi_readopen pi) || k then release (LPipe p) ;; ret (-1) else
        wakeup (ChPipeR p) ;;
        sleep (ChPipeW p) (LPipe p) ;;
        switch
      else
        set_pipe p (pipe_put b) ;;
        pipewrite_loop p n src'
  end.

Definition pipewrite (p : Z) (src : list Z) : K Z :=
  acquire (LPipe p) ;; pipewrite_loop p (Z.of_nat (length src)) src.

Definition pipewrite_resume (saved : bool) (p n : Z) (src : list Z) : K Z :=
  sleep_resume saved (LPipe p) ;; pipewrite_loop p n src.

(** [for(i = 0; i < n; i++)] of [piperead]: the bytes copied and the pipe. *)
Fixpoint pipe_take (n : nat) (pi : pipe) : list Z * pipe :=
  match n with
  | O => ([], pi)
  | S n' =>
      if pi_nread pi =? pi_nwrite pi then ([], pi) else
      let b := nth (Z.to_nat (pi_nread pi mod PIPESIZE)) (pi_data pi) 0 in
      let '(l, pi') := pipe_take n' (pi <| pi_nread := u32 (pi_nread pi + 1) |>) in
      (b :: l, pi')
  end.

(** The bytes read, or [None] for -1. *)
Definition piperead_loop (p n : Z) : K (option (list Z)) :=
  pi <- get_pipe p ;;
  if (pi_nread pi =? pi_nwrite pi) && pi_writeopen pi then
    k <- killed ;;
    if (k : bool) then release (LPipe p) ;; ret None else
    sleep (ChPipeR p) (LPipe p) ;;
    switch
  else
    let '(l, pi') := pipe_take (Z.to_nat n) pi in
    set_pipe p (fun _ => pi') ;;
    wakeup (ChPipeW p) ;;
    release (LPipe p) ;;
    ret (Some l).

Definition piperead (p n : Z) : K (option (list Z)) := acquire (LPipe p) ;; piperead_loop p n.

Definition piperead_resume (saved : bool) (p n : Z) : K (option (list Z)) :=
  sleep_resume saved (LPipe p) ;; piperead_loop p n.

(** ** The ring buffer is a queue *)

Definition pipe_count (pi : pipe) : Z := u32 (pi_nwrite pi - pi_nread pi).

Definition pipe_ok (pi : pipe) : Prop :=
  length (pi_data pi) = Z.to_nat PIPESIZE /\ is_u32 (pi_nread pi) /\ is_u32 (pi_nwrite pi) /\
  pipe_count pi <= PIPESIZE.

Definition pipe_byte (pi : pipe) (i : nat) : Z :=
  nth (Z.to_nat ((pi_nread pi + Z.of_nat i) mod PIPESIZE)) (pi_data pi) 0.

Definition queue (pi : pipe) : list Z := pipe_byte pi <$> seq 0 (Z.to_nat (pipe_count pi)).

Lemma queue_length pi : Z.of_nat (length (queue pi)) = pipe_count pi.
Proof.
  unfold queue. rewrite length_fmap, length_seq. apply Z2Nat.id. unfold pipe_count.
  pose proof (u32_range (pi_nwrite pi - pi_nread pi)). unfold is_u32 in *. lia.
Qed.

Lemma pipe_count_cases pi :
  is_u32 (pi_nread pi) -> is_u32 (pi_nwrite pi) ->
  pi_nread pi <= pi_nwrite pi /\ pipe_count pi = pi_nwrite pi - pi_nread pi \/
  pi_nwrite pi < pi_nread pi /\ pipe_count pi = pi_nwrite pi - pi_nread pi + 2 ^ 32.
Proof.
  unfold is_u32, pipe_count, u32. intros Hr Hw.
  destruct (Z_le_gt_dec (pi_nread pi) (pi_nwrite pi)); [left|right]; (split; [lia|]).
  - apply Z.mod_small. lia.
  - rewrite <- (Z.mod_add _ 1) by lia. apply Z.mod_small. lia.
Qed.

Lemma pipe_full_iff pi : pipe_ok pi -> pipe_full pi = (pipe_count pi =? PIPESIZE).
Proof.
  intros (_ & Hr & Hw & Hc). unfold pipe_full. destruct (pipe_count_cases pi Hr Hw) as [[H1 H2]|[H1 H2]];
    rewrite H2 in *; unfold u32, is_u32, PIPESIZE in *.
  - destruct (Z_lt_ge_dec (pi_nread pi + 512) (2 ^ 32)).
    + rewrite Z.mod_small by lia. apply Bool.eq_iff_eq_true. rewrite !Z.eqb_eq. lia.
    + rewrite <- (Z.mod_add _ (-1)), Z.mod_small by lia. apply Bool.eq_iff_eq_true. rewrite !Z.eqb_eq. lia.
  - rewrite <- (Z.mod_add _ (-1)), Z.mod_small by lia. apply Bool.eq_iff_eq_true. rewrite !Z.eqb_eq. lia.
Qed.

Lemma pipe_empty_iff pi : pipe_ok pi -> (pi_nread pi =? pi_nwrite pi) = (pipe_count pi =? 0).
Proof.
  intros (_ & Hr & Hw & Hc). apply Bool.eq_iff_eq_true. rewrite !Z.eqb_eq.
  destruct (pipe_count_cases pi Hr Hw) as [[H1 H2]|[H1 H2]]; rewrite H2 in *; unfold is_u32 in *; lia.
Qed.

Lemma pipe_put_index pi :
  pipe_ok pi -> pi_nwrite pi mod PIPESIZE = (pi_nread pi + pipe_count pi) mod PIPESIZE.
Proof.
  intros (_ & Hr & Hw & _). destruct (pipe_count_cases pi Hr Hw) as [[_ ->]|[_ ->]].
  - f_equal. lia.
  - replace (pi_nread pi + (pi_nwrite pi - pi_nread pi + 2 ^ 32)) with (pi_nwrite pi + 2 ^ 23 * PIPESIZE)
      by (unfold PIPESIZE; lia).
    by rewrite Z.mod_add by discriminate.
Qed.

Lemma mod_apart a i j : 0 <= i < j -> j < i + PIPESIZE -> (a + i) mod PIPESIZE <> (a + j) mod PIPESIZE.
Proof.
  unfold PIPESIZE. intros Hi Hj E. pose proof (Z.div_mod (a + i) 512). pose proof (Z.div_mod (a + j) 512). lia.
Qed.

Lemma pipe_index_lt z : (Z.to_nat (z mod PIPESIZE) < Z.to_nat PIPESIZE)%nat.
Proof. pose proof (Z.mod_pos_bound z PIPESIZE ltac:(reflexivity)). unfold PIPESIZE in *. lia. Qed.

Lemma pipe_put_count b pi :
  pipe_ok pi -> pipe_count pi < PIPESIZE -> pipe_count (pipe_put b pi) = pipe_count pi + 1.
Proof.
  intros (_ & Hr & Hw & Hc) Hlt. unfold pipe_count in *. simpl. unfold u32, PIPESIZE in *.
  rewrite Zminus_mod_idemp_l. replace (pi_nwrite pi + 1 - pi_nread pi) with (pi_nwrite pi - pi_nread pi + 1) by lia.
  rewrite <- Zplus_mod_idemp_l. apply Z.mod_small. pose proof (Z.mod_pos_bound (pi_nwrite pi - pi_nread pi) (2 ^ 32)). lia.
Qed.

Lemma queue_put b pi :
  pipe_ok pi -> pipe_count pi < PIPESIZE -> pipe_ok (pipe_put b pi) /\ queue (pipe_put b pi) = queue pi ++ [b].
Proof.
  intros Hok Hlt. pose proof Hok as (Hl & Hr & Hw & Hc). pose proof (pipe_put_count b pi Hok Hlt) as Hpc.
  split.
  { split; [simpl; by rewrite length_insert|]. split; [done|]. split; [apply u32_range|]. lia. }
  pose proof (u32_range (pi_nwrite pi - pi_nread pi)) as Hu. fold (pipe_count pi) in Hu. unfold is_u32 in Hu.
  unfold queue. rewrite Hpc. rewrite Z2Nat.inj_add by lia. rewrite seq_app, fmap_app. f_equal.
  - apply list_fmap_ext. intros i x Hx. apply lookup_seq in Hx as [-> Hi]. unfold pipe_byte. simpl.
    rewrite pipe_put_index, nth_insert by (done || (rewrite Hl; apply pipe_index_lt)).
    destruct (Nat.eqb_spec (Z.to_nat ((pi_nread pi + Z.of_nat i) mod PIPESIZE))
      (Z.to_nat ((pi_nread pi + pipe_count pi) mod PIPESIZE))) as [E|E]; [|done].
    exfalso. apply (mod_apart (pi_nread pi) (Z.of_nat i) (pipe_count pi)); [lia|lia|].
    pose proof (Z.mod_pos_bound (pi_nread pi + pipe_count pi) PIPESIZE ltac:(reflexivity)).
    pose proof (Z.mod_pos_bound (pi_nread pi + Z.of_nat i) PIPESIZE ltac:(reflexivity)). lia.
  - simpl. f_equal. unfold pipe_byte. simpl. rewrite Z2Nat.id by lia.
    rewrite pipe_put_index, nth_insert by (done || (rewrite Hl; apply pipe_index_lt)). by rewrite Nat.eqb_refl.
Qed.

Lemma queue_take n pi :
  pipe_ok pi -> exists pi', pipe_take n pi = (take n (queue pi), pi') /\ pipe_ok pi' /\
    queue pi' = drop n (queue pi) /\ pi_writeopen pi' = pi_writeopen pi /\ pi_readopen pi' = pi_readopen pi.
Proof.
  revert pi. induction n as [|n IH]; intros pi Hok; [by exists pi|]. cbn [pipe_take].
  rewrite (pipe_empty_iff pi Hok). destruct (Z.eqb_spec (pipe_count pi) 0) as [E0|Hne].
  { exists pi. assert (queue pi = []) as -> by (unfold queue; by rewrite E0). by rewrite drop_nil. }
  pose proof Hok as (Hl & Hr & Hw & Hc). pose proof (u32_range (pi_nwrite pi - pi_nread pi)) as Hu.
  fold (pipe_count pi) in Hu. unfold is_u32 in Hu.
  set (pi1 := pi <| pi_nread := u32 (pi_nread pi + 1) |>).
  assert (pipe_count pi1 = pipe_count pi - 1) as Hc1.
  { unfold pi1, pipe_count in *. simpl. unfold u32 in *. rewrite Zminus_mod_idemp_r.
    replace (pi_nwrite pi - (pi_nread pi + 1)) with (pi_nwrite pi - pi_nread pi - 1) by lia.
    rewrite <- Zminus_mod_idemp_l. apply Z.mod_small. lia. }
  assert (pipe_ok pi1) as Hok1.
  { split; [done|]. split; [apply u32_range|]. split; [done|lia]. }
  destruct (IH pi1 Hok1) as (pi' & E & Hok' & Hq & Hwo & Hro). rewrite E. exists pi'.
  assert (queue pi = pipe_byte pi 0 :: queue pi1) as Hqq.
  { unfold queue. rewrite Hc1. destruct (Z.to_nat (pipe_count pi)) as [|k] eqn:Ek; [lia|].
    replace (Z.to_nat (pipe_count pi - 1)) with k by lia. cbn [seq fmap list_fmap]. f_equal.
    rewrite <- fmap_S_seq, <- list_fmap_compose. apply list_fmap_ext. intros i x _. unfold pipe_byte, pi1. simpl.
    f_equal. f_equal. unfold u32. destruct (Z.eq_dec (pi_nread pi + 1) (2 ^ 32)) as [E32|Hn32].
    - rewrite E32, Z_mod_same_full. unfold is_u32 in Hr. replace (pi_nread pi + Z.of_nat (S x)) with (Z.of_nat x + 2 ^ 23 * PIPESIZE)
        by (unfold PIPESIZE; lia). rewrite Z.mod_add by discriminate. done.
    - rewrite (Z.mod_small (pi_nread pi + 1) (2 ^ 32)) by (unfold is_u32 in Hr; lia). f_equal. lia. }
  rewrite Hqq. cbn [take drop]. split; [|done]. unfold pipe_byte. by rewrite Z.add_0_r.
Qed.

(** ** The calls *)

Definition set_pi (p : Z) (pi : pipe) (s : kst) : kst := s <| k_pipes ::= <[p := pi]> |>.

Definition puts (l : list Z) (pi : pipe) : pipe := fold_left (fun pi b => pipe_put b pi) l pi.

Lemma queue_puts l : forall pi,
  pipe_ok pi -> pipe_count pi + Z.of_nat (length l) <= PIPESIZE ->
  pipe_ok (puts l pi) /\ queue (puts l pi) = queue pi ++ l /\
  pi_readopen (puts l pi) = pi_readopen pi /\ pi_writeopen (puts l pi) = pi_writeopen pi /\
  pi_nread (puts l pi) = pi_nread pi.
Proof.
  induction l as [|b l IH]; intros pi Hok Hc; simpl in *; [by rewrite app_nil_r|].
  destruct (queue_put b pi Hok) as [Hok1 Hq1]; [lia|].
  pose proof (pipe_put_count b pi Hok ltac:(lia)) as Hc1.
  destruct (IH (pipe_put b pi) Hok1) as (Hok2 & Hq2 & Hr & Hw & Hn); [lia|].
  split; [done|]. rewrite Hq2, Hq1, <- app_assoc. done.
Qed.

Lemma get_pipe_run p pi s : k_pipes s !! p = Some pi -> get_pipe p s = Ok pi s.
Proof. intros H. unfold get_pipe. mstep. by rewrite H. Qed.

Lemma set_pipe_run p f pi s : k_pipes s !! p = Some pi -> set_pipe p f s = Ok tt (set_pi p (f pi) s).
Proof.
  intros H. unfold set_pipe, modify, with_pipe, set_pi. f_equal. destruct s. kred. simpl in H. f_equal.
  apply map_eq. intros q. destruct (decide (q = p)) as [->|Hne].
  - by rewrite lookup_alter_eq, lookup_insert_eq, H.
  - by rewrite lookup_alter_ne, lookup_insert_ne.
Qed.

Lemma set_pi_twice p pi pi' s : set_pi p pi (set_pi p pi' s) = set_pi p pi s.
Proof. destruct s. unfold set_pi. kred. f_equal. apply insert_insert_eq. Qed.

Lemma set_pi_same p pi s : k_pipes s !! p = Some pi -> set_pi p pi s = s.
Proof. intros H. destruct s. unfold set_pi. kred. simpl in H. f_equal. by apply insert_id. Qed.

(** A process that has not been killed, outside any critical section. *)
Definition ready (me : nat) (s : kst) : Prop :=
  calm s /\ k_proc s = Some me /\ exists pr, pts s !! me = Some pr /\ p_killed pr = 0.

Lemma killed_run me s p : ready me s -> killed (lock_st p s) = Ok false (lock_st p s).
Proof.
  intros (_ & Hme & pr & Hpr & Hk). unfold killed. mcall myproc_run; [|done]. mcall get_proc_run; [|done].
  by rewrite Hk.
Qed.

(** Bytes for which there is room are stored. *)
Lemma pipewrite_puts p n l l2 : forall pi s,
  k_pipes s !! p = Some pi -> pipe_ok pi -> pipe_count pi + Z.of_nat (length l) <= PIPESIZE ->
  pipewrite_loop p n (l ++ l2) (lock_st (LPipe p) s) =
  pipewrite_loop p n l2 (lock_st (LPipe p) (set_pi p (puts l pi) s)).
Proof.
  induction l as [|b l IH]; intros pi s Hp Hok Hc; simpl length in Hc.
  { simpl. by rewrite set_pi_same. }
  cbn [app pipewrite_loop]. mcall get_pipe_run; [|exact Hp]. rewrite pipe_full_iff by done.
  rewrite (proj2 (Z.eqb_neq _ _)) by lia. mcall set_pipe_run; [|exact Hp].
  change (set_pi p (pipe_put b pi) (lock_st (LPipe p) s)) with (lock_st (LPipe p) (set_pi p (pipe_put b pi) s)).
  destruct (queue_put b pi Hok) as [Hok1 _]; [lia|]. pose proof (pipe_put_count b pi Hok ltac:(lia)) as Hc1.
  rewrite (IH (pipe_put b pi)); [by rewrite set_pi_twice| |done|lia].
  simpl. apply lookup_insert_eq.
Qed.

Lemma pipewrite_done p n s :
  calm s -> pipewrite_loop p n [] (lock_st (LPipe p) s) = Ok n (woken (ChPipeR p) s).
Proof.
  intros Hc. cbn [pipewrite_loop]. mcall nested_wakeup; [|done|done].
  erewrite bind_ok; [|by apply (calm_release _ s)]. reflexivity.
Qed.

Lemma woken_ready c me s : ready me s -> ready me (woken c s).
Proof.
  intros (Hc & Hme & pr & Hpr & Hk). split; [exact Hc|]. split; [exact Hme|]. exists (wake_proc c pr).
  split; [unfold pts in *; simpl; by rewrite list_lookup_fmap, Hpr|].
  unfold wake_proc. by destruct (sleeps_on c pr).
Qed.

(** Every process that sleeps on [c] is made runnable; the rest of the table is as it was. *)
Definition wakes (c : chan) (ps ps' : list proc) : Prop :=
  length ps' = length ps /\
  forall j q, ps !! j = Some q ->
    ps' !! j = Some (if decide (p_state q = SLEEPING /\ p_chan q = Some c) then q <| p_state := RUNNABLE |> else q).

(** Process [me] goes to sleep on [c]; the rest of the table is as it was. *)
Definition sleeps (me : nat) (c : chan) (ps ps' : list proc) : Prop :=
  ps' = alter (fun q => q <| p_chan := Some c |> <| p_state := SLEEPING |>) me ps.

Lemma wakes_fmap c ps : wakes c ps (wake_proc c <$> ps).
Proof.
  split; [apply length_fmap|]. intros j q Hj. rewrite list_lookup_fmap, Hj. simpl. f_equal. unfold wake_proc, sleeps_on.
  destruct (decide _) as [[-> ->]|Hn]; [by rewrite bool_decide_eq_true_2|].
  destruct (st_eqb _ _) eqn:E; [|done]. apply st_eqb_true in E. simpl. rewrite bool_decide_eq_false_2; [done|tauto].
Qed.

(** Going to sleep inside the critical section of a pipe. *)
Lemma sleep_locked me c lk s :
  ready me s -> ncli (k_cpu s) = 0 -> lk <> LPtable ->
  exists s', sleep c lk (lock_st lk s) = Switch s' /\ (k_pipes s' = k_pipes s /\ k_input s' = k_input s) /\ sleeps me c (pts s) (pts s').
Proof.
  intros ((HL & Hwf & _) & Hme & pr & Hpr & _) Hn Hne.
  eexists. split; [apply (sleep_run me pr); try done; simpl|].
  - apply lookup_insert_eq.
  - intros _. by rewrite HL, lookup_insert_ne.
  - by apply push_wf.
  - lia.
  - unfold exchanged. rewrite bool_decide_eq_false_2 by done. done.
Qed.

Lemma pipewrite_full p n b l pi me s :
  ready me s -> ncli (k_cpu s) = 0 -> k_pipes s !! p = Some pi -> pipe_ok pi -> pipe_count pi = PIPESIZE ->
  if pi_readopen pi
  then exists s', pipewrite_loop p n (b :: l) (lock_st (LPipe p) s) = Switch s' /\ k_pipes s' = k_pipes s /\
         sleeps me (ChPipeW p) (wake_proc (ChPipeR p) <$> pts s) (pts s')
  else pipewrite_loop p n (b :: l) (lock_st (LPipe p) s) = Ok (-1) s.
Proof.
  intros Hr Hn Hp Hok Hc. pose proof Hr as (Hcalm & _). cbn [pipewrite_loop].
  assert (get_pipe p (lock_st (LPipe p) s) = Ok pi (lock_st (LPipe p) s)) as E by (by apply get_pipe_run).
  assert (pipe_full pi = true) as Ef by (rewrite pipe_full_iff by done; rewrite Hc; done).
  destruct (pi_readopen pi) eqn:Ero.
  - destruct (sleep_locked me (ChPipeW p) (LPipe p) (woken (ChPipeR p) s)) as (s' & Es & [Hs1 _] & Hs2);
      [by apply woken_ready|done|done|].
    exists s'. split; [|exact (conj Hs1 Hs2)]. mcall E. rewrite Ef. mcall killed_run; [|exact Hr]. rewrite Ero. simpl.
    mcall nested_wakeup; [|done|done].
    change (woken (ChPipeR p) (lock_st (LPipe p) s)) with (lock_st (LPipe p) (woken (ChPipeR p) s)).
    unfold bind at 1. by rewrite Es.
  - mcall E. rewrite Ef. mcall killed_run; [|exact Hr]. rewrite Ero. simpl.
    erewrite bind_ok; [|by apply (calm_release _ s)]. unfold ret. f_equal; destruct s; reflexivity.
Qed.

(** A write, from inside the critical section: what fits is appended, and the call
    returns, goes to sleep, or fails for want of a reader. *)
Lemma pipewrite_loop_spec p n l pi me s :
  ready me s -> ncli (k_cpu s) = 0 -> k_pipes s !! p = Some pi -> pipe_ok pi ->
  let k := Z.to_nat (PIPESIZE - pipe_count pi) in
  exists pi', pipe_ok pi' /\ queue pi' = queue pi ++ take k l /\ pi_readopen pi' = pi_readopen pi /\
    pi_writeopen pi' = pi_writeopen pi /\ pi_nread pi' = pi_nread pi /\
    if decide (length l <= k)%nat
    then exists s', pipewrite_loop p n l (lock_st (LPipe p) s) = Ok n s' /\
           k_pipes s' = <[p := pi']> (k_pipes s) /\ ready me s' /\ wakes (ChPipeR p) (pts s) (pts s')
    else if pi_readopen pi
    then exists s' ps, pipewrite_loop p n l (lock_st (LPipe p) s) = Switch s' /\
           k_pipes s' = <[p := pi']> (k_pipes s) /\ wakes (ChPipeR p) (pts s) ps /\ sleeps me (ChPipeW p) ps (pts s')
    else exists s', pipewrite_loop p n l (lock_st (LPipe p) s) = Ok (-1) s' /\
           k_pipes s' = <[p := pi']> (k_pipes s) /\ ready me s' /\ pts s' = pts s.
Proof.
  intros Hr Hn Hp Hok k. pose proof Hr as (Hcalm & _). pose proof Hok as (_ & _ & _ & Hle).
  assert (pipe_count pi + Z.of_nat (length (take k l)) <= PIPESIZE) as Hfit by (rewrite length_take; lia).
  destruct (queue_puts (take k l) pi Hok Hfit) as (Hok1 & Hq1 & Hro & Hwo & Hnr).
  pose proof (pipewrite_puts p n (take k l) (drop k l) pi s Hp Hok Hfit) as E. rewrite take_drop in E.
  set (s1 := set_pi p (puts (take k l) pi) s) in *.
  assert (k_pipes s1 = <[p := puts (take k l) pi]> (k_pipes s)) as Hk1 by done.
  exists (puts (take k l) pi). split_and!; try done. rewrite E.
  destruct (decide (length l <= k)%nat) as [Hd|Hd].
  - rewrite drop_ge by done. rewrite pipewrite_done by exact Hcalm. eexists. split; [done|]. split; [done|].
    split; [by apply woken_ready|]. apply (wakes_fmap (ChPipeR p) (pts s)).
  - destruct (drop k l) as [|b l2] eqn:Ed.
    { apply (f_equal length) in Ed. rewrite length_drop in Ed. simpl in Ed. lia. }
    assert (pipe_count (puts (take k l) pi) = PIPESIZE) as Hfull.
    { rewrite <- queue_length, Hq1, length_app, Nat2Z.inj_add, queue_length, length_take. lia. }
    pose proof (pipewrite_full p n b l2 (puts (take k l) pi) me s1 Hr Hn) as H.
    rewrite Hk1, lookup_insert_eq in H. specialize (H eq_refl Hok1 Hfull). rewrite Hro in H.
    destruct (pi_readopen pi); [|by eauto]. destruct H as (s' & Es & Hk & Hs).
    exists s', (wake_proc (ChPipeR p) <$> pts s). split; [done|]. split; [done|]. split; [apply wakes_fmap|exact Hs].
Qed.

(** A read, from inside the critical section: the front of the queue, or sleep if it
    is empty and there is a writer. *)
Lemma piperead_loop_spec p n pi me s :
  ready me s -> ncli (k_cpu s) = 0 -> k_pipes s !! p = Some pi -> pipe_ok pi ->
  if bool_decide (queue pi = []) && pi_writeopen pi
  then exists s', piperead_loop p n (lock_st (LPipe p) s) = Switch s' /\ k_pipes s' = k_pipes s /\
         sleeps me (ChPipeR p) (pts s) (pts s')
  else exists s' pi', piperead_loop p n (lock_st (LPipe p) s) = Ok (Some (take (Z.to_nat n) (queue pi))) s' /\
         k_pipes s' = <[p := pi']> (k_pipes s) /\ (ready me s' /\ wakes (ChPipeW p) (pts s) (pts s')) /\
         pipe_ok pi' /\ queue pi' = drop (Z.to_nat n) (queue pi) /\
         pi_writeopen pi' = pi_writeopen pi /\ pi_readopen pi' = pi_readopen pi.
Proof.
  intros Hr Hn Hp Hok. pose proof Hr as (Hcalm & _). unfold piperead_loop.
  assert (get_pipe p (lock_st (LPipe p) s) = Ok pi (lock_st (LPipe p) s)) as E by (by apply get_pipe_run).
  assert ((pi_nread pi =? pi_nwrite pi) = bool_decide (queue pi = [])) as Ee.
  { rewrite pipe_empty_iff by done. apply Bool.eq_iff_eq_true. rewrite Z.eqb_eq, bool_decide_eq_true.
    rewrite <- queue_length. destruct (queue pi); simpl; split; (lia || done). }
  rewrite <- Ee. destruct ((pi_nread pi =? pi_nwrite pi) && pi_writeopen pi) eqn:Eb.
  - destruct (sleep_locked me (ChPipeR p) (LPipe p) s) as (s' & Es & [Hs1 _] & Hs2); [done|done|done|].
    exists s'. split; [|exact (conj Hs1 Hs2)]. mcall E. rewrite Eb. mcall killed_run; [|exact Hr].
    cbv iota. unfold bind at 1. by rewrite Es.
  - destruct (queue_take (Z.to_nat n) pi Hok) as (pi' & Et & Hok' & Hq & Hwo & Hro).
    exists (woken (ChPipeW p) (set_pi p pi' s)), pi'. split; [|split; [done|split; [|by split_and!]]].
    + mcall E. rewrite Eb, Et. mcall set_pipe_run; [|exact Hp]. cbv beta.
      change (set_pi p pi' (lock_st (LPipe p) s)) with (lock_st (LPipe p) (set_pi p pi' s)).
      mcall nested_wakeup; [|exact Hcalm|done].
      erewrite bind_ok; [|by apply (calm_release _ (set_pi p pi' s))]. unfold ret.
      f_equal; destruct s; reflexivity.
    + split; [exact (woken_ready (ChPipeW p) me (set_pi p pi' s) Hr)|apply (wakes_fmap (ChPipeW p) (pts s))].
Qed.

(** Coming back from [sleep] inside a call on a pipe. *)
Definition resumed (me : nat) (s : kst) : Prop :=
  k_locks s = {[LPtable := k_cpuid s]} /\ ncli (k_cpu s) = 1 /\ eflags_if (k_cpu s) = false /\
  k_proc s = Some me /\ exists pr, pts s !! me = Some pr /\ p_killed pr = 0.

Lemma sleep_resume_run saved lk me s :
  resumed me s -> lk <> LPtable ->
  exists s0, sleep_resume saved lk s = Ok tt (lock_st lk s0) /\ ready me s0 /\ ncli (k_cpu s0) = 0 /\
    k_pipes s0 = k_pipes s /\ pts s0 = alter (fun q => q <| p_chan := None |>) me (pts s) /\
    (k_input s0, k_sleep s0, k_icache s0) = (k_input s, k_sleep s, k_icache s).
Proof.
  intros (HL & Hn & Hi & Hme & pr & Hpr & Hk) Hne. eexists. split_and!; [by apply sleep_back|..].
  - split; [|split; [done|]].
    + split; [done|]. split; [split; simpl; lia|done].
    + eexists. split; [exact (pts_with_proc_eq me (fun p => p <| p_chan := None |>) s pr Hpr)|done].
  - done.
  - done.
  - done.
  - done.
Qed.

(** ** Closing a pipe's end *)

Definition close_end (w : bool) (pi : pipe) : pipe :=
  if w then pi <| pi_writeopen := false |> else pi <| pi_readopen := false |>.

Definition half_closed (p : Z) (w : bool) (s : kst) : kst :=
  woken (if w then ChPipeR p else ChPipeW p) (with_pipe p (close_end w) s).

Lemma pipeclose_run p w pi s :
  calm s -> k_pipes s !! p = Some pi ->
  pipeclose p w s =
  if negb (pi_readopen (close_end w pi)) && negb (pi_writeopen (close_end w pi))
  then kfree p ((half_closed p w s) <| k_pipes ::= delete p |>)
  else Ok tt (half_closed p w s).
Proof.
  intros Hc Hp. unfold pipeclose. mcall calm_acquire; [|done].
  assert ((if w then set_pipe p (fun pi => pi <| pi_writeopen := false |>) ;; wakeup (ChPipeR p)
           else set_pipe p (fun pi => pi <| pi_readopen := false |>) ;; wakeup (ChPipeW p)) (lock_st (LPipe p) s)
          = Ok tt (lock_st (LPipe p) (half_closed p w s))) as E.
  { unfold set_pipe. destruct w; mstep.
    - exact (nested_wakeup (ChPipeR p) (LPipe p) (with_pipe p (close_end true) s) Hc ltac:(done)).
    - exact (nested_wakeup (ChPipeW p) (LPipe p) (with_pipe p (close_end false) s) Hc ltac:(done)). }
  rewrite (bind_ok _ _ _ _ _ E).
  mcall get_pipe_run; [|unfold half_closed; simpl; by rewrite lookup_alter_eq, Hp].
  destruct (_ && _).
  - mcall (leave (LPipe p) s); [|done..]. by mstep.
  - by apply (leave (LPipe p) s).
Qed.
(** ** A pipe in use *)

(** The bytes a call that went to sleep has stored: how far [p->nwrite] moved. *)
Definition stored (p : Z) (s s' : kst) : nat :=
  match k_pipes s !! p, k_pipes s' !! p with
  | Some pi, Some pi' => Z.to_nat (u32 (pi_nwrite pi' - pi_nwrite pi))
  | _, _ => 0%nat
  end.

(** [stream p s sent got rest]: from an empty pipe at [p], calls and anything else the
    kernel does that leaves the pipe alone have led to [s]. The bytes of the writes
    so far are [sent], those returned by reads [got]; [rest] is what the writer that
    sleeps has left. One process writes at a time, any number read; an end may be closed
    while the other is open. *)
Inductive stream (p : Z) : kst -> list Z -> list Z -> list Z -> Prop :=
| stream_new s pi :
    k_pipes s !! p = Some pi -> pipe_ok pi -> queue pi = [] -> stream p s [] [] []
| stream_other s s' sent got rest :
    stream p s sent got rest -> k_pipes s' !! p = k_pipes s !! p -> stream p s' sent got rest
| stream_write s s' me l sent got :
    stream p s sent got [] -> ready me s -> ncli (k_cpu s) = 0 ->
    pipewrite p l s = Ok (Z.of_nat (length l)) s' -> stream p s' (sent ++ l) got []
| stream_write_sleep s s' me l sent got :
    stream p s sent got [] -> ready me s -> ncli (k_cpu s) = 0 ->
    pipewrite p l s = Switch s' -> stream p s' (sent ++ l) got (drop (stored p s s') l)
| stream_resume s s' me saved n sent got rest :
    stream p s sent got rest -> resumed me s -> 0 <= n ->
    pipewrite_resume saved p n rest s = Ok n s' -> stream p s' sent got []
| stream_resume_sleep s s' me saved n sent got rest :
    stream p s sent got rest -> resumed me s -> 0 <= n ->
    pipewrite_resume saved p n rest s = Switch s' -> stream p s' sent got (drop (stored p s s') rest)
| stream_read s s' me n l sent got rest :
    stream p s sent got rest -> ready me s -> ncli (k_cpu s) = 0 ->
    piperead p n s = Ok (Some l) s' -> stream p s' sent (got ++ l) rest
| stream_read_resume s s' me saved n l sent got rest :
    stream p s sent got rest -> resumed me s ->
    piperead_resume saved p n s = Ok (Some l) s' -> stream p s' sent (got ++ l) rest
| stream_close s s' me (w : bool) pi sent got rest :
    stream p s sent got rest -> ready me s -> k_pipes s !! p = Some pi ->
    (if w then pi_readopen pi else pi_writeopen pi) = true ->
    pipeclose p w s = Ok tt s' -> stream p s' sent got rest.

Lemma nwrite_moved pi pi' :
  pi_nread pi' = pi_nread pi -> (length (queue pi) <= length (queue pi'))%nat ->
  Z.to_nat (u32 (pi_nwrite pi' - pi_nwrite pi)) = (length (queue pi') - length (queue pi))%nat.
Proof.
  intros Hn Hl. pose proof (queue_length pi) as Hq. pose proof (queue_length pi') as Hq'.
  assert (u32 (pi_nwrite pi' - pi_nwrite pi) = pipe_count pi' - pipe_count pi) as ->; [|lia].
  pose proof (u32_range (pi_nwrite pi' - pi_nread pi')) as Hu. fold (pipe_count pi') in Hu. unfold is_u32 in Hu.
  unfold u32. replace (pi_nwrite pi' - pi_nwrite pi) with
    ((pi_nwrite pi' - pi_nread pi') - (pi_nwrite pi - pi_nread pi)) by (rewrite Hn; lia).
  rewrite Zminus_mod. fold (u32 (pi_nwrite pi' - pi_nread pi')) (u32 (pi_nwrite pi - pi_nread pi)).
  fold (pipe_count pi') (pipe_count pi). apply Z.mod_small. lia.
Qed.

(** The same ends are open. *)
Definition same_ends (pi pi' : pipe) : Prop := pi_readopen pi' = pi_readopen pi /\ pi_writeopen pi' = pi_writeopen pi.

(** The queue after a write that returned, or that went to sleep. *)
Lemma write_effect p n l pi me s r :
  ready me s -> ncli (k_cpu s) = 0 -> k_pipes s !! p = Some pi -> pipe_ok pi -> 0 <= n ->
  pipewrite_loop p n l (lock_st (LPipe p) s) = r ->
  match r with
  | Ok v s' => v = n -> exists pi', k_pipes s' !! p = Some pi' /\ pipe_ok pi' /\ queue pi' = queue pi ++ l /\ same_ends pi pi'
  | Switch s' => exists pi', k_pipes s' !! p = Some pi' /\ pipe_ok pi' /\
      queue pi ++ l = queue pi' ++ drop (stored p s s') l /\ same_ends pi pi'
  | _ => False
  end.
Proof.
  intros Hr Hc Hp Hok Hn <-.
  destruct (pipewrite_loop_spec p n l pi me s Hr Hc Hp Hok) as (pi' & Hok' & Hq & Hro & Hwo & Hnr & H).
  destruct (decide _) as [Hd|Hd].
  - destruct H as (s' & -> & Hk & _). intros _. exists pi'. rewrite Hk, lookup_insert_eq.
    split; [done|]. split; [done|]. by rewrite Hq, take_ge.
  - destruct (pi_readopen pi) eqn:Ero.
    + destruct H as (s' & pr & -> & Hk & _). exists pi'. unfold stored. rewrite Hk, lookup_insert_eq, Hp.
      split; [done|]. split; [done|]. split; [|split; congruence]. rewrite nwrite_moved; [|done|rewrite Hq, length_app; lia].
      rewrite Hq, <- app_assoc. f_equal. rewrite length_app, length_take.
      replace (_ + _ - _)%nat with (Z.to_nat (PIPESIZE - pipe_count pi)) by lia. by rewrite take_drop.
    + destruct H as (s' & -> & _). lia.
Qed.

Lemma read_effect p n pi me s l s' :
  ready me s -> ncli (k_cpu s) = 0 -> k_pipes s !! p = Some pi -> pipe_ok pi ->
  piperead_loop p n (lock_st (LPipe p) s) = Ok (Some l) s' ->
  exists pi', k_pipes s' !! p = Some pi' /\ pipe_ok pi' /\ queue pi = l ++ queue pi' /\ same_ends pi pi' /\
    (l = [] -> 0 < n -> queue pi = [] /\ pi_writeopen pi = false).
Proof.
  intros Hr Hc Hp Hok E. pose proof (piperead_loop_spec p n pi me s Hr Hc Hp Hok) as H.
  destruct (_ && _) eqn:Eb.
  - destruct H as (? & E' & _). congruence.
  - destruct H as (s1 & pi' & E' & Hk & _ & Hok' & Hq & Hwo & Hro). rewrite E in E'. injection E' as -> ->.
    exists pi'. rewrite Hk, lookup_insert_eq, Hq, take_drop. do 4 (split; [done|]). intros Hl Hn.
    destruct (queue pi) as [|b q]; [by rewrite bool_decide_eq_true_2 in Eb|]. destruct (Z.to_nat n) eqn:En; [lia|done].
Qed.

Lemma pipewrite_enter me p l s :
  ready me s -> pipewrite p l s = pipewrite_loop p (Z.of_nat (length l)) l (lock_st (LPipe p) s).
Proof. intros (Hc & _). unfold pipewrite. by mcall calm_acquire. Qed.

Lemma piperead_enter me p n s : ready me s -> piperead p n s = piperead_loop p n (lock_st (LPipe p) s).
Proof. intros (Hc & _). unfold piperead. by mcall calm_acquire. Qed.

Definition carried (p : Z) (s : kst) (sent got rest : list Z) : Prop :=
  exists pi, k_pipes s !! p = Some pi /\ pipe_ok pi /\ sent = got ++ queue pi ++ rest.

Lemma carried_write p n l me s s' sent got :
  carried p s sent got [] -> ready me s -> ncli (k_cpu s) = 0 -> 0 <= n ->
  pipewrite_loop p n l (lock_st (LPipe p) s) = Ok n s' -> carried p s' (sent ++ l) got [].
Proof.
  intros (pi & Hp & Hok & E) Hr Hc Hn H.
  destruct (write_effect _ _ _ pi me s _ Hr Hc Hp Hok Hn H eq_refl) as (pi' & Hp' & Hok' & Hq & _).
  exists pi'. split; [done|]. split; [done|]. rewrite Hq, E. by rewrite !app_nil_r, app_assoc.
Qed.

Lemma carried_sleep p n l me s s' sent got :
  carried p s sent got [] -> ready me s -> ncli (k_cpu s) = 0 -> 0 <= n ->
  pipewrite_loop p n l (lock_st (LPipe p) s) = Switch s' ->
  carried p s' (sent ++ l) got (drop (stored p s s') l).
Proof.
  intros (pi & Hp & Hok & E) Hr Hc Hn H.
  destruct (write_effect _ _ _ pi me s _ Hr Hc Hp Hok Hn H) as (pi' & Hp' & Hok' & Hq & _).
  exists pi'. split; [done|]. split; [done|]. rewrite <- Hq, E. by rewrite app_nil_r, app_assoc.
Qed.

Lemma carried_read p n l me s s' sent got rest :
  carried p s sent got rest -> ready me s -> ncli (k_cpu s) = 0 ->
  piperead_loop p n (lock_st (LPipe p) s) = Ok (Some l) s' -> carried p s' sent (got ++ l) rest.
Proof.
  intros (pi & Hp & Hok & E) Hr Hc H.
  destruct (read_effect p n pi me s l s' Hr Hc Hp Hok H) as (pi' & Hp' & Hok' & Hq & _).
  exists pi'. split; [done|]. split; [done|]. rewrite E, Hq. by rewrite <- !app_assoc.
Qed.

Lemma stream_carried p s sent got rest : stream p s sent got rest -> carried p s sent got rest.
Proof.
  intros H. induction H as [s pi Hp Hok Hq|s s' sent got rest _ (pi & IH) Hk|s s' me l sent got _ IH Hr Hc E
    |s s' me l sent got _ IH Hr Hc E|s s' me saved n sent got rest _ (pi & Hp & Hok & IH) Hr Hn E
    |s s' me saved n sent got rest _ (pi & Hp & Hok & IH) Hr Hn E|s s' me n l sent got rest _ IH Hr Hc E
    |s s' me saved n l sent got rest _ (pi & IH) Hr E|s s' me w pi0 sent got rest _ (pi & Hp & Hok & IH) Hr Hp0 Ho E].
  - exists pi. by rewrite Hq.
  - exists pi. by rewrite Hk.
  - rewrite (pipewrite_enter me) in E by done. eapply (carried_write p (Z.of_nat (length l))); [exact IH|exact Hr|exact Hc|lia|exact E].
  - rewrite (pipewrite_enter me) in E by done. eapply (carried_sleep p (Z.of_nat (length l))); [exact IH|exact Hr|exact Hc|lia|exact E].
  - destruct (sleep_resume_run saved (LPipe p) me s Hr ltac:(done)) as (s0 & E0 & Hr0 & Hc0 & Hk0 & _).
    unfold pipewrite_resume in E. erewrite bind_ok in E by exact E0. rewrite <- Hk0 in Hp.
    destruct (write_effect _ _ _ pi me s0 _ Hr0 Hc0 Hp Hok Hn E eq_refl) as (pi' & Hp' & Hok' & Hq & _).
    exists pi'. split; [done|]. split; [done|]. by rewrite Hq, app_nil_r.
  - destruct (sleep_resume_run saved (LPipe p) me s Hr ltac:(done)) as (s0 & E0 & Hr0 & Hc0 & Hk0 & _).
    unfold pipewrite_resume in E. erewrite bind_ok in E by exact E0. rewrite <- Hk0 in Hp.
    destruct (write_effect _ _ _ pi me s0 _ Hr0 Hc0 Hp Hok Hn E) as (pi' & Hp' & Hok' & Hq & _).
    exists pi'. split; [done|]. split; [done|]. unfold stored in *. rewrite Hk0 in Hq. by rewrite <- Hq.
  - rewrite (piperead_enter me) in E by done. by apply (carried_read p n l me s).
  - destruct (sleep_resume_run saved (LPipe p) me s Hr ltac:(done)) as (s0 & E0 & Hr0 & Hc0 & Hk0 & _).
    unfold piperead_resume in E. erewrite bind_ok in E by exact E0.
    apply (carried_read p n l me s0); [|done..]. exists pi. by rewrite Hk0.
  - rewrite Hp in Hp0. injection Hp0 as <-. rewrite (pipeclose_run p w pi s (proj1 Hr) Hp) in E.
    assert (negb (pi_readopen (close_end w pi)) && negb (pi_writeopen (close_end w pi)) = false) as Eo.
    { destruct w; simpl; by rewrite Ho. }
    rewrite Eo in E. injection E as <-. exists (close_end w pi). split; [simpl; by rewrite lookup_alter_eq, Hp|]. by destruct w.
Qed.

(** C15. A pipe is a first-in, first-out channel that loses nothing: however reads, writes
    and the scheduling of the processes interleave, the bytes written so far are the
    bytes read, followed by those in the pipe's 512-byte buffer, followed by those the
    sleeping writer has yet to store. *)
Theorem pipe_fifo p s sent got rest :
  stream p s sent got rest ->
  exists pi, k_pipes s !! p = Some pi /\ pipe_ok pi /\ sent = got ++ queue pi ++ rest /\
    Z.of_nat (length (queue pi)) <= PIPESIZE.
Proof.
  intros H. destruct (stream_carried p s sent got rest H) as (pi & Hp & Hok & E).
  exists pi. rewrite queue_length. split_and!; try done. apply Hok.
Qed.

(** What a write of [l] that returns [n] does to a pipe [pi] and the process table [ps]: as
    many bytes as there is room for are appended. If they are all, it returns, and the
    sleeping readers are woken. If not, it wakes the readers and sleeps on the full pipe,
    or returns -1 if there are none. *)
Definition write_outcome (p n : Z) (l : list Z) (pi : pipe) (me : nat) (s : kst) (ps : list proc) (r : res kst Z) : Prop :=
  let room := Z.to_nat (PIPESIZE - Z.of_nat (length (queue pi))) in
  exists s' pi', k_pipes s' = <[p := pi']> (k_pipes s) /\ pipe_ok pi' /\ queue pi' = queue pi ++ take room l /\
    pi_readopen pi' = pi_readopen pi /\ pi_writeopen pi' = pi_writeopen pi /\
    if decide (length l <= room)%nat then r = Ok n s' /\ ready me s' /\ wakes (ChPipeR p) ps (pts s')
    else if pi_readopen pi then r = Switch s' /\ exists ps', wakes (ChPipeR p) ps ps' /\ sleeps me (ChPipeW p) ps' (pts s')
    else r = Ok (-1) s' /\ ready me s' /\ pts s' = ps.

(** What a read of [n] bytes does: it sleeps on an empty pipe that can be written, and
    otherwise takes bytes from the front, and wakes the sleeping writers. *)
Definition read_outcome (p n : Z) (pi : pipe) (me : nat) (s : kst) (ps : list proc) (r : res kst (option (list Z))) : Prop :=
  exists s' pi', k_pipes s' = <[p := pi']> (k_pipes s) /\ pipe_ok pi' /\
    pi_readopen pi' = pi_readopen pi /\ pi_writeopen pi' = pi_writeopen pi /\
    if bool_decide (queue pi = []) && pi_writeopen pi
    then r = Switch s' /\ queue pi' = [] /\ sleeps me (ChPipeR p) ps (pts s')
    else r = Ok (Some (take (Z.to_nat n) (queue pi))) s' /\ queue pi' = drop (Z.to_nat n) (queue pi) /\
      ready me s' /\ wakes (ChPipeW p) ps (pts s').

Lemma write_loop_outcome p n l pi me s :
  ready me s -> ncli (k_cpu s) = 0 -> k_pipes s !! p = Some pi -> pipe_ok pi ->
  write_outcome p n l pi me s (pts s) (pipewrite_loop p n l (lock_st (LPipe p) s)).
Proof.
  intros Hr Hc Hp Hok. destruct (pipewrite_loop_spec p n l pi me s Hr Hc Hp Hok) as (pi' & Hok' & Hq & Hro & Hwo & _ & H).
  unfold write_outcome. rewrite queue_length. destruct (decide _).
  - destruct H as (s' & E & Hk & Hs). exists s', pi'. by repeat (split; [done|]).
  - destruct (pi_readopen pi).
    + destruct H as (s' & ps & E & Hk & Hs1 & Hs2). exists s', pi'. do 5 (split; [done|]). split; [done|]. by exists ps.
    + destruct H as (s' & E & Hk & Hs). exists s', pi'. by repeat (split; [done|]).
Qed.

Lemma read_loop_outcome p n pi me s :
  ready me s -> ncli (k_cpu s) = 0 -> k_pipes s !! p = Some pi -> pipe_ok pi ->
  read_outcome p n pi me s (pts s) (piperead_loop p n (lock_st (LPipe p) s)).
Proof.
  intros Hr Hc Hp Hok. pose proof (piperead_loop_spec p n pi me s Hr Hc Hp Hok) as H. unfold read_outcome.
  destruct (_ && _) eqn:Eb.
  - destruct H as (s' & E & Hk & Hs). exists s', pi. apply andb_true_iff in Eb as [Eb%bool_decide_eq_true _].
    rewrite Hk, insert_id by done. by repeat (split; [done|]).
  - destruct H as (s' & pi' & E & Hk & [Hs1 Hs2] & Hok' & Hq & Hwo & Hro). exists s', pi'. by repeat (split; [done|]).
Qed.

(** C20. Calls on a pipe make progress, from their start and when they come back from sleep.
    A write stores as many bytes as there is room for, behind those already there. If
    that is all of them it wakes the sleeping readers and returns its length; otherwise
    the pipe is full and it wakes the readers and sleeps, or returns -1 if the reading end
    is closed. A read of a pipe that holds bytes, or that nobody can write, takes the
    bytes at its front, as many as it holds and asked for, leaves the rest, and wakes the
    sleeping writers; otherwise the reader sleeps. *)
Theorem pipe_progress p pi me s :
  k_pipes s !! p = Some pi -> pipe_ok pi ->
  (ready me s -> ncli (k_cpu s) = 0 -> forall l n,
     write_outcome p (Z.of_nat (length l)) l pi me s (pts s) (pipewrite p l s) /\
     read_outcome p n pi me s (pts s) (piperead p n s)) /\
  (resumed me s -> forall saved l n m,
     let ps := alter (fun q => q <| p_chan := None |>) me (pts s) in
     write_outcome p n l pi me s ps (pipewrite_resume saved p n l s) /\
     read_outcome p m pi me s ps (piperead_resume saved p m s)).
Proof.
  intros Hp Hok. split.
  - intros Hr Hc l n. rewrite (pipewrite_enter me), (piperead_enter me) by done.
    split; [by apply write_loop_outcome|by apply read_loop_outcome].
  - intros Hr saved l n m ps. destruct (sleep_resume_run saved (LPipe p) me s Hr ltac:(done)) as (s0 & E0 & Hr0 & Hc0 & Hk0 & Hps & _).
    unfold pipewrite_resume, piperead_resume. rewrite !(bind_ok _ _ _ _ _ E0). unfold ps. rewrite <- Hps.
    unfold write_outcome, read_outcome. rewrite <- Hk0 in Hp |- *. split; [by apply write_loop_outcome|by apply read_loop_outcome].
Qed.

(** An empty pipe at page 0x80200000. *)
Definition empty_pipe : pipe := mkPipe (replicate (Z.to_nat PIPESIZE) 0) 0 0 true true.

Definition pipe_st : kst :=
  (one_proc <| k_cpu := mkCpu 0 true true |>) <| k_pipes := {[0x80200000 := empty_pipe]} |>.

Lemma pipe_st_ready : ready 0 pipe_st.
Proof.
  split; [split; [reflexivity|split; [split; [discriminate|discriminate]|reflexivity]]|]. split; [reflexivity|].
  exists running0. split; reflexivity.
Qed.

Lemma empty_pipe_ok : pipe_ok empty_pipe.
Proof.
  split; [reflexivity|]. split; [unfold is_u32; simpl; lia|]. split; [unfold is_u32; simpl; lia|]. discriminate.
Qed.

(** The same pipe, when its process comes back from a sleep. *)
Definition back_st : kst := pipe_st <| k_locks := {[LPtable := 0%nat]} |> <| k_cpu := mkCpu 1 true false |>.

Lemma pipe_progress_witness :
  (exists s1 pi, pipewrite 0x80200000 [104; 105] pipe_st = Ok 2 s1 /\ k_pipes s1 !! 0x80200000 = Some pi /\ queue pi = [104; 105]) /\
  (exists s2, piperead_resume true 0x80200000 1 back_st = Switch s2 /\
     sleeps 0 (ChPipeR 0x80200000) (alter (fun q => q <| p_chan := None |>) 0%nat (pts back_st)) (pts s2)).
Proof.
  split.
  - destruct (pipe_progress 0x80200000 empty_pipe 0 pipe_st eq_refl empty_pipe_ok) as [Hnew _].
    destruct (Hnew pipe_st_ready eq_refl [104; 105] 1) as [(s1 & pi & Hk & _ & Hq & _ & _ & E & _) _].
    exists s1, pi. split; [exact E|]. split; [rewrite Hk; apply lookup_insert_eq|exact Hq].
  - destruct (pipe_progress 0x80200000 empty_pipe 0 back_st eq_refl empty_pipe_ok) as [_ Hback].
    assert (resumed 0 back_st) as Hr.
    { split; [reflexivity|]. split; [reflexivity|]. split; [reflexivity|]. split; [reflexivity|]. exists running0. split; reflexivity. }
    destruct (Hback Hr true [] 0 1) as [_ (s2 & pi & _ & _ & _ & _ & E & _ & Hs)].
    exists s2. split; [exact E|exact Hs].
Defined.

(** A write and a read of one byte. *)
Definition after_write : kst := match pipewrite 0x80200000 [104; 105] pipe_st with Ok _ s => s | _ => pipe_st end.
Definition after_read : kst := match piperead 0x80200000 1 after_write with Ok _ s => s | _ => pipe_st end.

Lemma pipe_fifo_witness :
  stream 0x80200000 after_read [104; 105] [104] [] /\
  exists pi, k_pipes after_read !! 0x80200000 = Some pi /\ [104; 105] = [104] ++ queue pi ++ [].
Proof.
  assert (stream 0x80200000 after_read [104; 105] [104] []) as H.
  { apply (stream_read 0x80200000 after_write after_read 0 1 [104] [104; 105] [] []).
    - apply (stream_write 0x80200000 pipe_st after_write 0 [104; 105] [] []).
      + exact (stream_new 0x80200000 pipe_st empty_pipe eq_refl empty_pipe_ok eq_refl).
      + exact pipe_st_ready.
      + reflexivity.
      + vm_compute. reflexivity.
    - split; [split; [reflexivity|split; [split; vm_compute; congruence|reflexivity]]|]. split; [reflexivity|].
      exists running0. split; reflexivity.
    - reflexivity.
    - vm_compute. reflexivity. }
  split; [exact H|]. destruct (pipe_fifo 0x80200000 after_read [104; 105] [104] [] H) as (pi & H1 & _ & H2 & _).
  exists pi. split; [exact H1|exact H2].
Defined.
