(* ===== verification/Fs.v ===== *)
(** * The file system ([fs.c])

    Blocks, inodes, directories and path names over the buffer cache and the log.
    Pointers to cached inodes are indices of [icache.inode]; names and paths are
    lists of non-zero bytes; the data of a read or a write are passed as a list. A
    call that finds a sleep-lock taken ends in [Switch]. *)

From S2P Require Import Prelude Params State Mem Strings Locks Printf Kalloc Vm Sched Procs Sleeplock Bio Log.
Import Spin.

(** ** On-disk structures *)

(** The 16-bit integer at byte [k]. *)
Definition get16 (d : list Z) (k : nat) : Z := nth k d 0 + 2 ^ 8 * nth (k + 1) d 0.
Definition put16 (d : list Z) (k : nat) (v : Z) : list Z :=
  <[k := byte_of v 0]> (<[(k + 1)%nat := byte_of v 1]> d).

(** Bytes [k .. k + n - 1], and their replacement by [l]. *)
Definition sub (k n : nat) (d : list Z) : list Z := take n (drop k d).
Definition splice (k : nat) (l d : list Z) : list Z := take k d ++ l ++ drop (k + length l) d.

Definition IBLOCK (i : Z) (sb : superblock) : Z := u32 (i / IPB + sb_inodestart sb).
Definition BBLOCK (b : Z) (sb : superblock) : Z := u32 (b / BPB + sb_bmapstart sb).

Definition sizeof_dinode : Z := 64.
Definition sizeof_dirent : Z := 16.

(** The byte at which inode [inum] starts in its block. *)
Definition dinode_at (inum : Z) : nat := Z.to_nat (sizeof_dinode * (inum mod IPB)).

Definition dinode_type (d : list Z) (k : nat) : Z := s16 (get16 d k).

(** The copy of [ilock], and that of [iupdate]. *)
Definition load_dinode (d : list Z) (k : nat) (ip : inode) : inode :=
  ip <| i_type := s16 (get16 d k) |> <| i_major := s16 (get16 d (k + 2)) |>
     <| i_minor := s16 (get16 d (k + 4)) |> <| i_nlink := s16 (get16 d (k + 6)) |>
     <| i_size := get32 d (k + 8) |>
     <| i_addrs := (fun j => get32 d (k + 12 + 4 * j)) <$> seq 0 (Z.to_nat (NDIRECT + 1)) |>.

Fixpoint put_words (d : list Z) (k : nat) (l : list Z) : list Z :=
  match l with
  | [] => d
  | a :: l' => put_words (put32 d k a) (k + 4) l'
  end.

Definition store_dinode (d : list Z) (k : nat) (ip : inode) : list Z :=
  put_words
    (put32 (put16 (put16 (put16 (put16 d k (i_type ip)) (k + 2) (i_major ip)) (k + 4) (i_minor ip))
       (k + 6) (i_nlink ip)) (k + 8) (i_size ip))
    (k + 12) (i_addrs ip).

(** [strncmp] and [strncpy] on strings given as lists. *)
Fixpoint strncmp_l (n : nat) (p q : list Z) : Z :=
  match n with
  | O => 0
  | S n' =>
      let a := hd 0 p in let b := hd 0 q in
      if nz a && (a =? b) then strncmp_l n' (tl p) (tl q) else u8 a - u8 b
  end.

Definition namecmp (s t : list Z) : Z := strncmp_l (Z.to_nat DIRSIZ) s t.

Section Driver.
Context `{BlockDriver}.

(** ** Blocks *)

Definition set_data (i : nat) (f : list Z -> list Z) : K unit := set_buf i (fun b => b <| b_data ::= f |>).

Definition bzero (dev bno : Z) : K unit :=
  bp <- bread dev bno ;;
  set_data bp (fun _ => replicate (Z.to_nat BSIZE) 0) ;;
  log_write bp ;;
  brelse bp.

(** [1 << (bi % 8)], and the bit of block [bi] in a bitmap block. *)
Definition bit_mask (bi : Z) : Z := Z.shiftl 1 (bi mod 8).
Definition bit_byte (bi : Z) : nat := Z.to_nat (bi / 8).
Definition bit_clear (d : list Z) (bi : nat) : bool :=
  Z.land (nth (bit_byte (Z.of_nat bi)) d 0) (bit_mask (Z.of_nat bi)) =? 0.

Definition set_bit (bi : Z) (d : list Z) : list Z :=
  alter (fun x => u8 (Z.lor x (bit_mask bi))) (bit_byte bi) d.
Definition clear_bit (bi : Z) (d : list Z) : list Z :=
  alter (fun x => u8 (Z.land x (Z.lnot (bit_mask bi)))) (bit_byte bi) d.

(** [bi < BPB && b + bi < sb.size] bounds the inner loop. *)
Definition bits_from (b : Z) (sb : superblock) : nat := Z.to_nat (Z.min BPB (sb_size sb - b)).

(** The outer loop of [balloc], over the blocks [bs] that start a bitmap block. *)
Fixpoint balloc_loop (dev : Z) (bs : list Z) : K Z :=
  match bs with
  | [] => panic "balloc: out of blocks"
  | b :: bs' =>
      sb <- gets k_sb ;;
      bp <- bread dev (BBLOCK b sb) ;;
      c <- get_buf bp ;;
      match find_from (bit_clear (b_data c)) 0 (seq 0 (bits_from b sb)) with
      | Some bi =>
          set_data bp (set_bit (Z.of_nat bi)) ;;
          log_write bp ;;
          brelse bp ;;
          bzero dev (b + Z.of_nat bi) ;;
          ret (b + Z.of_nat bi)
      | None => brelse bp ;; balloc_loop dev bs'
      end
  end.

(** [for(b = 0; b < sb.size; b += BPB)] *)
Definition bitmap_starts (size : Z) : list Z :=
  (fun k => BPB * Z.of_nat k) <$> seq 0 (Z.to_nat ((size + BPB - 1) / BPB)).

Definition balloc (dev : Z) : K Z :=
  sb <- gets k_sb ;;
  balloc_loop dev (bitmap_starts (sb_size sb)).

Definition bfree (dev b : Z) : K unit :=
  sb <- readsb dev ;;
  modify (fun s => s <| k_sb := sb |>) ;;
  bp <- bread dev (BBLOCK b sb) ;;
  c <- get_buf bp ;;
  if bit_clear (b_data c) (Z.to_nat (b mod BPB)) then panic "freeing free block" else
  set_data bp (clear_bit (b mod BPB)) ;;
  log_write bp ;;
  brelse bp.

(** ** Inodes *)

Definition inodes (s : kst) : list inode := k_icache s.
Definition get_inode (i : nat) : K inode := s <- get ;; nth_ok "icache.inode" (inodes s) i.
Definition with_inode (i : nat) (f : inode -> inode) (s : kst) : kst := s <| k_icache ::= alter f i |>.
Definition set_inode (i : nat) (f : inode -> inode) : K unit := modify (with_inode i f).

Definition iinit (dev : Z) : K unit :=
  initlock LIcache ;;
  for_each (seq 0 NINODE) (fun i => initsleeplock (SlInode i)) ;;
  sb <- readsb dev ;;
  modify (fun s => s <| k_sb := sb |>) ;;
  cprintf (str "sb: size %d nblocks %d ninodes %d nlog %d logstart %d inodestart %d bmap start %d" ++ [10])
    [PInt (sb_size sb); PInt (sb_nblocks sb); PInt (sb_ninodes sb); PInt (sb_nlog sb); PInt (sb_logstart sb);
     PInt (sb_inodestart sb); PInt (sb_bmapstart sb)].

(** The slot of a cached inode, or else the first empty one. *)
Definition cached (dev inum : Z) (ip : inode) : bool :=
  (0 <? i_ref ip) && (i_dev ip =? dev) && (i_inum ip =? inum).

Definition iget (dev inum : Z) : K nat :=
  acquire LIcache ;;
  s <- get ;;
  match find_from (cached dev inum) 0 (inodes s) with
  | Some i =>
      set_inode i (fun ip => ip <| i_ref ::= fun n => n + 1 |>) ;;
      release LIcache ;;
      ret i
  | None =>
      match find_from (fun ip => i_ref ip =? 0) 0 (inodes s) with
      | None => panic "iget: no inodes"
      | Some i =>
          set_inode i (fun ip => ip <| i_dev := dev |> <| i_inum := inum |> <| i_ref := 1 |> <| i_flags := 0 |>) ;;
          release LIcache ;;
          ret i
      end
  end.

Definition idup (i : nat) : K nat :=
  acquire LIcache ;;
  set_inode i (fun ip => ip <| i_ref ::= fun n => n + 1 |>) ;;
  release LIcache ;;
  ret i.

(** [for(inum = 1; inum < sb.ninodes; inum++)] *)
Fixpoint ialloc_loop (dev type : Z) (inums : list Z) : K nat :=
  match inums with
  | [] => panic "ialloc: no inodes"
  | inum :: inums' =>
      sb <- gets k_sb ;;
      bp <- bread dev (IBLOCK inum sb) ;;
      c <- get_buf bp ;;
      if dinode_type (b_data c) (dinode_at inum) =? 0 then
        set_data bp (fun d => put16 (splice (dinode_at inum) (replicate (Z.to_nat sizeof_dinode) 0) d)
                                (dinode_at inum) type) ;;
        log_write bp ;;
        brelse bp ;;
        iget dev inum
      else
        brelse bp ;;
        ialloc_loop dev type inums'
  end.

Definition ialloc (dev type : Z) : K nat :=
  sb <- gets k_sb ;;
  ialloc_loop dev type ((fun k => 1 + Z.of_nat k) <$> seq 0 (Z.to_nat (sb_ninodes sb - 1))).

Definition iupdate (i : nat) : K unit :=
  ip <- get_inode i ;;
  sb <- gets k_sb ;;
  bp <- bread (i_dev ip) (IBLOCK (i_inum ip) sb) ;;
  set_data bp (fun d => store_dinode d (dinode_at (i_inum ip)) ip) ;;
  log_write bp ;;
  brelse bp.

(** The inode is never null: callers pass a cached inode. *)
Definition ilock (i : nat) : K unit :=
  ip <- get_inode i ;;
  if i_ref ip <? 1 then panic "ilock" else
  acquiresleep (SlInode i) ;;
  ip <- get_inode i ;;
  when (Z.land (i_flags ip) I_VALID =? 0)
    (sb <- gets k_sb ;;
     bp <- bread (i_dev ip) (IBLOCK (i_inum ip) sb) ;;
     c <- get_buf bp ;;
     set_inode i (load_dinode (b_data c) (dinode_at (i_inum ip))) ;;
     brelse bp ;;
     set_inode i (fun ip => ip <| i_flags ::= fun f => Z.lor f I_VALID |>) ;;
     ip <- get_inode i ;;
     if i_type ip =? 0 then panic "ilock: no type" else ret tt).

Definition iunlock (i : nat) : K unit :=
  h <- holdingsleep (SlInode i) ;;
  ip <- get_inode i ;;
  if negb h || (i_ref ip <? 1) then panic "iunlock" else
  releasesleep (SlInode i).

(** ** Inode content *)

(** [ip->addrs[bn]], allocated if it is zero. *)
Definition inode_addr (i : nat) (bn : Z) : K Z :=
  ip <- get_inode i ;;
  addr <- nth_ok "ip->addrs" (i_addrs ip) (Z.to_nat bn) ;;
  if addr =? 0 then
    a <- balloc (i_dev ip) ;;
    set_inode i (fun ip => ip <| i_addrs ::= <[Z.to_nat bn := a]> |>) ;;
    ret a
  else ret addr.

Definition bmap (i : nat) (bn : Z) : K Z :=
  if bn <? NDIRECT then inode_addr i bn
  else if bn - NDIRECT <? NINDIRECT then
    addr <- inode_addr i NDIRECT ;;
    ip <- get_inode i ;;
    bp <- bread (i_dev ip) addr ;;
    c <- get_buf bp ;;
    let k := Z.to_nat (4 * (bn - NDIRECT)) in
    let addr := get32 (b_data c) k in
    addr <- (if addr =? 0 then
               a <- balloc (i_dev ip) ;;
               set_data bp (fun d => put32 d k a) ;;
               log_write bp ;;
               ret a
             else ret addr) ;;
    brelse bp ;;
    ret addr
  else panic "bmap: out of range".

(** The direct blocks of [itrunc], and the indirect ones. *)
Definition trunc_direct (i k : nat) : K unit :=
  ip <- get_inode i ;;
  addr <- nth_ok "ip->addrs" (i_addrs ip) k ;;
  when (nz addr)
    (bfree (i_dev ip) addr ;;
     set_inode i (fun ip => ip <| i_addrs ::= <[k := 0]> |>)).

Definition itrunc (i : nat) : K unit :=
  for_each (seq 0 (Z.to_nat NDIRECT)) (trunc_direct i) ;;
  ip <- get_inode i ;;
  addr <- nth_ok "ip->addrs" (i_addrs ip) (Z.to_nat NDIRECT) ;;
  when (nz addr)
    (bp <- bread (i_dev ip) addr ;;
     for_each (seq 0 (Z.to_nat NINDIRECT)) (fun j =>
       c <- get_buf bp ;;
       let a := get32 (b_data c) (4 * j) in
       when (nz a) (bfree (i_dev ip) a)) ;;
     brelse bp ;;
     bfree (i_dev ip) addr ;;
     set_inode i (fun ip => ip <| i_addrs ::= <[Z.to_nat NDIRECT := 0]> |>)) ;;
  set_inode i (fun ip => ip <| i_size := 0 |>) ;;
  iupdate i.

Definition iput (i : nat) : K unit :=
  acquire LIcache ;;
  ip <- get_inode i ;;
  when ((i_ref ip =? 1) && nz (Z.land (i_flags ip) I_VALID) && (i_nlink ip =? 0))
    (release LIcache ;;
     itrunc i ;;
     set_inode i (fun ip => ip <| i_type := 0 |>) ;;
     iupdate i ;;
     acquire LIcache ;;
     set_inode i (fun ip => ip <| i_flags := 0 |>)) ;;
  set_inode i (fun ip => ip <| i_ref ::= fun n => n - 1 |>) ;;
  release LIcache.

Definition iunlockput (i : nat) : K unit := iunlock i ;; iput i.

(** [struct stat]: type, dev, ino, nlink, size. *)
Record stat := mkStat { st_type : Z; st_dev : Z; st_ino : Z; st_nlink : Z; st_size : Z }.

Definition stati (i : nat) : K stat :=
  ip <- get_inode i ;;
  ret (mkStat (i_type ip) (i_dev ip) (i_inum ip) (i_nlink ip) (i_size ip)).

(** [devsw]: the reading and writing routines of the devices, by major number. *)
Class Devices := {
  dev_read : Z -> option (nat -> Z -> K (option (list Z)));
  dev_write : Z -> option (nat -> list Z -> K Z)
}.

Context `{Devices}.

(** [for(tot=0; tot<n; tot+=m, off+=m, dst+=m)] of [readi]: the bytes read. Every
    round transfers at least a byte, so [n] rounds are enough. *)
Fixpoint readi_loop (fuel : nat) (i : nat) (off left : Z) : K (list Z) :=
  match fuel with
  | O => ret []
  | S fuel' =>
      if left <=? 0 then ret [] else
      blk <- bmap i (off / BSIZE) ;;
      ip <- get_inode i ;;
      bp <- bread (i_dev ip) blk ;;
      let m := Z.min left (BSIZE - off mod BSIZE) in
      c <- get_buf bp ;;
      let l := sub (Z.to_nat (off mod BSIZE)) (Z.to_nat m) (b_data c) in
      brelse bp ;;
      l' <- readi_loop fuel' i (off + m) (left - m) ;;
      ret (l ++ l')
  end.

(** The bytes read, or [None] for -1. *)
Definition readi (i : nat) (off n : Z) : K (option (list Z)) :=
  ip <- get_inode i ;;
  if i_type ip =? T_DEV then
    if (i_major ip <? 0) || (NDEV <=? i_major ip) then ret None else
    match dev_read (i_major ip) with
    | None => ret None
    | Some rd => rd i n
    end
  else
  if (i_size ip <? off) || (u32 (off + n) <? off) then ret None else
  let n := if i_size ip <? off + n then i_size ip - off else n in
  l <- readi_loop (Z.to_nat n) i off n ;;
  ret (Some l).

(** The loop of [writei]; [src] is what is left to write. *)
Fixpoint writei_loop (fuel : nat) (i : nat) (off : Z) (src : list Z) : K unit :=
  match fuel with
  | O => ret tt
  | S fuel' =>
      match src with
      | [] => ret tt
      | _ =>
          blk <- bmap i (off / BSIZE) ;;
          ip <- get_inode i ;;
          bp <- bread (i_dev ip) blk ;;
          let m := Z.min (Z.of_nat (length src)) (BSIZE - off mod BSIZE) in
          set_data bp (splice (Z.to_nat (off mod BSIZE)) (take (Z.to_nat m) src)) ;;
          log_write bp ;;
          brelse bp ;;
          writei_loop fuel' i (off + m) (drop (Z.to_nat m) src)
      end
  end.

Definition writei (i : nat) (src : list Z) (off : Z) : K Z :=
  ip <- get_inode i ;;
  let n := Z.of_nat (length src) in
  if i_type ip =? T_DEV then
    if (i_major ip <? 0) || (NDEV <=? i_major ip) then ret (-1) else
    match dev_write (i_major ip) with
    | None => ret (-1)
    | Some wr => wr i src
    end
  else
  if (i_size ip <? off) || (u32 (off + n) <? off) then ret (-1) else
  if MAXFILE * BSIZE <? off + n then ret (-1) else
  writei_loop (length src) i off src ;;
  ip <- get_inode i ;;
  when ((0 <? n) && (i_size ip <? off + n))
    (set_inode i (fun ip => ip <| i_size := off + n |>) ;; iupdate i) ;;
  ret n.

(** ** Directories *)

(** An entry: its inode number and the 14 bytes of its name. *)
Definition de_inum (de : list Z) : Z := get16 de 0.
Definition de_name (de : list Z) : list Z := sub 2 (Z.to_nat DIRSIZ) de.
Definition mk_dirent (inum : Z) (name : list Z) : list Z :=
  byte_of inum 0 :: byte_of inum 1 :: strncpy_l (Z.to_nat DIRSIZ) name.

(** One entry read; anything but 16 bytes is a [panic]. *)
Definition read_dirent (i : nat) (off : Z) : K (list Z) :=
  r <- readi i off sizeof_dirent ;;
  match r with
  | Some de => if Z.of_nat (length de) =? sizeof_dirent then ret de else panic "dirlink read"
  | None => panic "dirlink read"
  end.

(** [for(off = 0; off < dp->size; off += sizeof(de))]; [fuel] bounds the entries. *)
Fixpoint dirlookup_loop (fuel : nat) (i : nat) (name : list Z) (off : Z) : K (option (nat * Z)) :=
  match fuel with
  | O => spin
  | S fuel' =>
      dp <- get_inode i ;;
      if i_size dp <=? off then ret None else
      de <- read_dirent i off ;;
      if (negb (de_inum de =? 0)) && (namecmp name (de_name de) =? 0) then
        ip <- iget (i_dev dp) (de_inum de) ;;
        ret (Some (ip, off))
      else dirlookup_loop fuel' i name (off + sizeof_dirent)
  end.

(** Enough rounds for a directory of the given size. *)
Definition dir_fuel (size : Z) : nat := S (Z.to_nat ((size + sizeof_dirent - 1) / sizeof_dirent)).

(** The inode found and the offset of its entry. *)
Definition dirlookup (i : nat) (name : list Z) : K (option (nat * Z)) :=
  dp <- get_inode i ;;
  if negb (i_type dp =? T_DIR) then panic "dirlookup not DIR" else
  dirlookup_loop (dir_fuel (i_size dp)) i name 0.

(** The offset of the first empty entry, or the end of the directory. *)
Fixpoint empty_dirent (fuel : nat) (i : nat) (off : Z) : K Z :=
  match fuel with
  | O => spin
  | S fuel' =>
      dp <- get_inode i ;;
      if i_size dp <=? off then ret off else
      de <- read_dirent i off ;;
      if de_inum de =? 0 then ret off else empty_dirent fuel' i (off + sizeof_dirent)
  end.

Definition dirlink (i : nat) (name : list Z) (inum : Z) : K Z :=
  r <- dirlookup i name ;;
  match r with
  | Some (ip, _) => iput ip ;; ret (-1)
  | None =>
      dp <- get_inode i ;;
      off <- empty_dirent (dir_fuel (i_size dp)) i 0 ;;
      w <- writei i (mk_dirent inum name) off ;;
      if w =? sizeof_dirent then ret 0 else panic "dirlink"
  end.

(** ** Paths *)

Fixpoint skip_slashes (path : list Z) : list Z :=
  match path with
  | 47 :: path' => skip_slashes path'
  | _ => path
  end.

(** The characters up to the next slash, and the rest. *)
Fixpoint span_elem (path : list Z) : list Z * list Z :=
  match path with
  | [] => ([], [])
  | c :: path' => if c =? 47 then ([], path) else let '(e, r) := span_elem path' in (c :: e, r)
  end.

(** The name, cut to [DIRSIZ] characters, and what follows it. *)
Definition skipelem (path : list Z) : option (list Z * list Z) :=
  match skip_slashes path with
  | [] => None
  | path' =>
      let '(e, r) := span_elem path' in
      Some (take (Z.to_nat DIRSIZ) e, skip_slashes r)
  end.

(** [while((path = skipelem(path, name)) != 0)]; every round shortens the path. The
    result is the inode and the last name. *)
Fixpoint namex_loop (fuel : nat) (i : nat) (path : list Z) (parent : bool) : K (option (nat * list Z)) :=
  match fuel with
  | O => spin
  | S fuel' =>
      match skipelem path with
      | None => if parent then iput i ;; ret None else ret (Some (i, []))
      | Some (name, path') =>
          ilock i ;;
          ip <- get_inode i ;;
          if negb (i_type ip =? T_DIR) then iunlockput i ;; ret None else
          if parent && bool_decide (path' = []) then iunlock i ;; ret (Some (i, name)) else
          r <- dirlookup i name ;;
          match r with
          | None => iunlockput i ;; ret None
          | Some (next, _) => iunlockput i ;; namex_loop fuel' next path' parent
          end
      end
  end.

Definition namex (path : list Z) (parent : bool) : K (option (nat * list Z)) :=
  i <- (match path with
        | 47 :: _ => iget ROOTDEV ROOTINO
        | _ =>
            me <- myproc ;;
            p <- get_proc me ;;
            match p_cwd p with Some c => idup c | None => fault "proc->cwd" end
        end) ;;
  namex_loop (S (length path)) i path parent.

Definition namei (path : list Z) : K (option nat) :=
  r <- namex path false ;; ret (fst <$> r).

Definition nameiparent (path : list Z) : K (option (nat * list Z)) := namex path true.
End Driver.

Lemma mk_dirent_length inum name : length (mk_dirent inum name) = 16%nat.
Proof. unfold mk_dirent, strncpy_l. cbn [length]. change (Z.to_nat DIRSIZ) with 14%nat. rewrite length_take, length_app, length_replicate. lia. Qed.
