(* ===== verification/FsTx.v ===== *)
(** * Block operations inside a transaction

    The state of a running transaction, with the buffers the process holds, and what
    each routine of the cache and the log does to it. The specifications of the file
    system above are stated over this view: contents [g] of the blocks. *)

From S2P Require Import Prelude Params State Mem Strings Locks Kalloc Vm Sched Procs Sleeplock Bio BioSpec Log LogDisk LogSpec Trans Fs.
Import Spin.

(** The blocks [bl] are in the log, the cache shows [g], the buffers [h] are held. *)
Record tx (s : kst) (start : Z) (f g : Z -> list Z) (bl : list Z) (h : list (nat * Z)) : Prop := {
  tx_rel : bio_rel s (mkView f g (list_to_set bl) h);
  tx_lh : lh_repr (lg_lh (k_log s)) bl;
  tx_at : log_at s start (lh_n (lg_lh (k_log s))) (lh_block (lg_lh (k_log s)));
  tx_ok : trans_ok s start bl;
  tx_size : lg_size (k_log s) = LOGSIZE;
  tx_out : 1 <= lg_outstanding (k_log s)
}.

(** What these routines leave alone. *)
Definition tx_frame (s s' : kst) : Prop :=
  s' = s <| k_bcache := k_bcache s' |> <| k_sleep := k_sleep s' |> <| k_log := k_log s' |>
         <| k_ptable := k_ptable s' |>.

Lemma tx_frame_refl s : tx_frame s s.
Proof. by destruct s. Qed.

Lemma tx_frame_trans s1 s2 s3 : tx_frame s1 s2 -> tx_frame s2 s3 -> tx_frame s1 s3.
Proof. unfold tx_frame. intros E1 E2. rewrite E2 at 1. rewrite E1 at 1. by destruct s1. Qed.

Lemma tx_frame_bio s s' : bio_frame s s' -> k_disk s' = k_disk s -> tx_frame s s'.
Proof.
  intros [E _] D. unfold tx_frame. rewrite E at 1. rewrite D.
  assert (k_log s' = k_log s) as -> by (by rewrite E). by destruct s.
Qed.

Lemma tx_frame_sb s s' : tx_frame s s' -> k_sb s' = k_sb s.
Proof. intros ->. done. Qed.

Lemma tx_frame_icache s s' : tx_frame s s' -> k_icache s' = k_icache s.
Proof. intros ->. done. Qed.

Lemma tx_frame_disk s s' : tx_frame s s' -> k_disk s' = k_disk s.
Proof. intros ->. done. Qed.

(** A block of the disk that is not in the log. *)
Definition blk_ok (s : kst) (start b : Z) : Prop := 0 <= b < dk_size (k_disk s) /\ outside start b.

Lemma blk_ok_frame s s' start b : tx_frame s s' -> blk_ok s start b -> blk_ok s' start b.
Proof. intros F. unfold blk_ok. by rewrite (tx_frame_disk _ _ F). Qed.

Section Driver.
Context `{BlockDriverOk}.

(** Room for one more buffer. *)
Definition room (bl : list Z) (h : list (nat * Z)) : Prop := (length bl + length h < NBUF)%nat.

Lemma tx_bread s start f g bl h b :
  tx s start f g bl h -> 0 <= b < dk_size (k_disk s) -> b ∉ h.*2 -> room bl h ->
  exists i s', bread 1 b s = Ok i s' /\ tx s' start f g bl ((i, b) :: h) /\ tx_frame s s'.
Proof.
  intros [R Hlh Hat Hok Hsz Hout] Hb Hh Hroom.
  destruct (bread_spec s _ b R Hb Hh) as (i & s' & E & R' & F & D).
  { right. eapply Nat.le_lt_trans; [|exact Hroom]. unfold in_use. simpl.
    rewrite size_union_alt. pose proof (subseteq_size (list_to_set h.*2 ∖ list_to_set bl) (list_to_set h.*2 : gset Z) ltac:(set_solver)).
    assert (forall l : list Z, (size (list_to_set l : gset Z) <= length l)%nat) as Hl.
    { induction l as [|x l IH]; simpl; [done|]. rewrite size_union_alt, size_singleton.
      pose proof (subseteq_size (list_to_set l ∖ {[x]}) (list_to_set l : gset Z) ltac:(set_solver)). lia. }
    pose proof (Hl bl). pose proof (Hl h.*2) as Hl2. rewrite length_fmap in Hl2. lia. }
  exists i, s'. split; [done|]. split; [|by apply tx_frame_bio].
  constructor; try (by rewrite (bio_frame_log _ _ F)).
  - exact R'.
  - rewrite (bio_frame_log _ _ F). by eapply log_at_frame.
  - by eapply trans_ok_frame.
Qed.

Lemma tx_get s start f g bl h i b :
  tx s start f g bl h -> (i, b) ∈ h -> exists c, get_buf i s = Ok c s /\ b_data c = g b.
Proof. intros [R _ _ _ _ _] Hi. by apply (get_held s _ i b R). Qed.

Lemma tx_set s start f g bl h i b fn :
  tx s start f g bl h -> (i, b) ∈ h ->
  exists s', set_data i fn s = Ok tt s' /\ tx s' start f (upd_blk g b (fn (g b))) bl h /\ tx_frame s s'.
Proof.
  intros [R Hlh Hat Hok Hsz Hout] Hi. destruct (get_held s _ i b R Hi) as (c & Ec & Ecd). simpl in Ecd.
  exists (with_buf i (fun c => c <| b_data := fn (g b) |>) s). split.
  - unfold set_data, set_buf, modify. f_equal. apply with_buf_ext. intros c' Hc'.
    rewrite (get_buf_run i c' s Hc') in Ec. injection Ec as ->. rewrite <- Ecd. by destruct c.
  - split; [|by destruct s]. constructor; try done. exact (bio_rel_data s _ i b (fn (g b)) R Hi).
Qed.

(** [log_write] adds the block to the transaction. *)
Lemma tx_log_write s start f g bl h i b :
  tx s start f g bl h -> (i, b) ∈ h -> blk_ok s start b -> (S (length bl) < Z.to_nat LOGSIZE)%nat ->
  exists s', log_write i s = Ok tt s' /\ tx s' start f g (bl_add bl b) h /\ tx_frame s s'.
Proof.
  intros [R Hlh Hat Hok Hsz Hout] Hi [Hb Ho] Hl. pose proof Hat as (_ & _ & _ & _ & _ & Hs2).
  pose proof Hok as (Hnd & Hall & Hlen). pose proof Hlh as (Hn & Ht & Hll).
  pose proof R as (Hc & _ & _ & Hcok & _). destruct (co_held _ _ Hcok i b Hi) as (c & Hcb & _ & Hcno).
  change (Z.to_nat LOGSIZE) with 30%nat in *.
  pose proof (log_write_run i c s Hc Hcb) as Hw. rewrite Hcno, Hn, Hsz in Hw. change LOGSIZE with 30 in Hw.
  specialize (Hw ltac:(lia) ltac:(lia) Hout). set (lh' := lh_add (lg_lh (k_log s)) b) in Hw.
  assert (k_log (pin i (with_lh lh' s)) = set lg_lh (fun _ => lh') (k_log s)) as Elog by done.
  eexists. split; [exact Hw|]. split; [|by destruct s]. constructor; try (rewrite Elog; done).
  - assert (list_to_set (bl_add bl b) = {[b]} ∪ (list_to_set bl : gset Z)) as ->.
    { apply set_eq. intros x. rewrite elem_of_union, elem_of_singleton, !elem_of_list_to_set, bl_add_elem. tauto. }
    exact (bio_rel_pin _ _ i b (bio_rel_lh _ _ lh' R) Hi).
  - rewrite Elog. change (lg_lh (set lg_lh (fun _ => lh') (k_log s))) with lh'. apply lh_add_repr; auto; try lia.
    rewrite list.Forall_forall in Hall |- *. intros x Hx. destruct (Hall x Hx). lia.
  - destruct Hat as (A1 & A2 & A3 & A4). unfold log_at. rewrite Elog.
    change (k_disk (pin i (with_lh lh' s))) with (k_disk s).
    change (lg_lh (set lg_lh (fun _ => lh') (k_log s))) with lh'. by destruct lh'.
  - unfold trans_ok. change (k_disk (pin i (with_lh lh' s))) with (k_disk s). by apply trans_add.
Qed.

Lemma tx_brelse s start f g bl h h' i b :
  tx s start f g bl h -> h ≡ₚ (i, b) :: h' -> b ∈ bl \/ g b = f b ->
  exists s', brelse i s = Ok tt s' /\ tx s' start f g bl h' /\ tx_frame s s'.
Proof.
  intros [R Hlh Hat Hok Hsz Hout] Hh Hb.
  destruct (brelse_spec s _ i b h' R Hh) as (s' & E & R' & F & D); [simpl; set_solver|].
  exists s'. split; [done|]. split; [|by apply tx_frame_bio].
  constructor; try (by rewrite (bio_frame_log _ _ F)).
  - exact R'.
  - rewrite (bio_frame_log _ _ F). by eapply log_at_frame.
  - by eapply trans_ok_frame.
Qed.

(** A block nobody holds is unchanged or in the log. *)
Lemma tx_clean s start f g bl h b : tx s start f g bl h -> b ∉ h.*2 -> b ∈ bl \/ g b = f b.
Proof.
  intros [(_ & _ & _ & _ & _ & _ & Hdd) _ _ _ _ _] Hb. destruct (decide (b ∈ bl)); [by left|right].
  apply (Hdd b); simpl; [set_solver|done].
Qed.

(** Reading a block and releasing it. *)
Lemma tx_peek s start f g bl h b :
  tx s start f g bl h -> 0 <= b < dk_size (k_disk s) -> b ∉ h.*2 -> room bl h ->
  exists i s1 c s2, bread 1 b s = Ok i s1 /\ get_buf i s1 = Ok c s1 /\ b_data c = g b /\
    brelse i s1 = Ok tt s2 /\ tx s2 start f g bl h /\ tx_frame s s2 /\
    tx s1 start f g bl ((i, b) :: h) /\ tx_frame s s1.
Proof.
  intros T Hb Hh Hr. destruct (tx_bread s start f g bl h b T Hb Hh Hr) as (i & s1 & E1 & T1 & F1).
  destruct (tx_get s1 start f g bl _ i b T1) as (c & Ec & Hc); [set_solver|].
  destruct (tx_brelse s1 start f g bl _ h i b T1) as (s2 & E2 & T2 & F2); [done|by apply (tx_clean s start f g bl h)|].
  exists i, s1, c, s2. split_and!; try done. by eapply tx_frame_trans.
Qed.

(** Changing a held block, recording it and releasing it. *)
Lemma tx_modify s start f g bl h h' i b fn :
  tx s start f g bl h -> h ≡ₚ (i, b) :: h' -> blk_ok s start b -> (S (length bl) < Z.to_nat LOGSIZE)%nat ->
  exists s', (set_data i fn ;; log_write i ;; brelse i) s = Ok tt s' /\
    tx s' start f (upd_blk g b (fn (g b))) (bl_add bl b) h' /\ tx_frame s s'.
Proof.
  intros T Hh Hb Hl. assert ((i, b) ∈ h) as Hi by (rewrite Hh; set_solver).
  destruct (tx_set s start f g bl h i b fn T Hi) as (s1 & E1 & T1 & F1).
  destruct (tx_log_write s1 start f _ bl h i b T1 Hi) as (s2 & E2 & T2 & F2); [by eapply blk_ok_frame|done|].
  destruct (tx_brelse s2 start f _ _ h h' i b T2 Hh) as (s3 & E3 & T3 & F3); [left; apply bl_add_elem; by right|].
  exists s3. mcall E1. mcall E2. split; [done|]. split; [done|].
  eapply tx_frame_trans; [exact F1|]. by eapply tx_frame_trans.
Qed.
End Driver.
