(* ===== verification/FsBlocks.v ===== *)
(** * The free map: [balloc] and [bfree]

    The bitmap blocks describe the set of used blocks. [balloc] takes the lowest
    free block, marks it and zeroes it; [bfree] gives a block back. *)

From S2P Require Import Prelude Params State Mem Strings Locks Kalloc Vm Sched Procs Sleeplock Bio BioSpec Log LogDisk LogSpec Trans Fs FsTx.
Import Spin.

(** ** Bits *)

Lemma bit_clear_testbit d j :
  bit_clear d j = negb (Z.testbit (nth (j / 8) d 0) (Z.of_nat (j mod 8))).
Proof.
  unfold bit_clear, bit_byte, bit_mask.
  rewrite (Nat2Z.inj_mod j 8). change (Z.of_nat 8) with 8.
  replace (Z.to_nat (Z.of_nat j / 8)) with (j / 8)%nat by (rewrite Z2Nat.inj_div, Nat2Z.id by lia; done).
  set (x := nth (j / 8) d 0). set (k := Z.of_nat j mod 8).
  assert (0 <= k < 8) as Hk by (apply Z.mod_pos_bound; lia).
  destruct (Z.testbit x k) eqn:E; simpl.
  - apply Z.eqb_neq. intros H0. apply (f_equal (fun z => Z.testbit z k)) in H0.
    rewrite Z.land_spec, E, Z.shiftl_spec, Z.sub_diag, Z.bits_0 in H0 by lia. done.
  - apply Z.eqb_eq. apply Z.bits_inj'. intros n Hn. rewrite Z.land_spec, Z.shiftl_spec, Z.bits_0 by lia.
    destruct (Z.eq_dec n k) as [->|Hne]; [by rewrite E|].
    destruct (Z.lt_ge_cases n k); [rewrite (Z.testbit_neg_r 1) by lia; apply andb_false_r|].
    rewrite (Z.bits_above_log2 1 (n - k)) by (simpl; lia). apply andb_false_r.
Qed.

Lemma testbit_u8 z k : 0 <= k < 8 -> Z.testbit (u8 z) k = Z.testbit z k.
Proof. intros Hk. unfold u8. apply Z.mod_pow2_bits_low. lia. Qed.

Lemma testbit_one_shift m k : 0 <= m -> 0 <= k -> Z.testbit (Z.shiftl 1 m) k = (k =? m).
Proof.
  intros Hm Hk. rewrite Z.shiftl_spec by lia. destruct (Z.eqb_spec k m) as [->|Hne]; [by rewrite Z.sub_diag|].
  destruct (Z.lt_ge_cases k m); [by rewrite Z.testbit_neg_r by lia|].
  apply Z.bits_above_log2; simpl; lia.
Qed.

Lemma div_mod_8 i j : (i / 8 = j / 8 -> i mod 8 = j mod 8 -> i = j)%nat.
Proof. intros H1 H2. rewrite (Nat.div_mod_eq i 8), (Nat.div_mod_eq j 8). lia. Qed.

Lemma nth_alter (d : list Z) k j fn :
  (k < length d)%nat -> nth j (alter fn k d) 0 = if (j =? k)%nat then fn (nth k d 0) else nth j d 0.
Proof.
  intros Hk. rewrite !nth_lookup. destruct (Nat.eqb_spec j k) as [->|Hne].
  - rewrite list_lookup_alter_eq. destruct (lookup_lt_is_Some_2 d k Hk) as [x ->]. done.
  - by rewrite list_lookup_alter_ne.
Qed.

Lemma bit_byte_nat j : bit_byte (Z.of_nat j) = (j / 8)%nat.
Proof. unfold bit_byte. rewrite Z2Nat.inj_div, Nat2Z.id by lia. done. Qed.

Lemma bit_index (d : list Z) i : length d = Z.to_nat BSIZE -> (i < Z.to_nat BPB)%nat -> (i / 8 < length d)%nat.
Proof.
  intros Hd Hi. rewrite Hd. change (Z.to_nat BPB) with (8 * Z.to_nat BSIZE)%nat in Hi.
  by apply Nat.Div0.div_lt_upper_bound.
Qed.

Lemma bit_clear_set d i j :
  length d = Z.to_nat BSIZE -> (i < Z.to_nat BPB)%nat ->
  bit_clear (set_bit (Z.of_nat i) d) j = if (j =? i)%nat then false else bit_clear d j.
Proof.
  intros Hd Hi. rewrite !bit_clear_testbit. unfold set_bit, bit_mask. rewrite bit_byte_nat.
  rewrite nth_alter by (by apply bit_index). pose proof (Nat.mod_upper_bound j 8 ltac:(lia)).
  destruct (Nat.eqb_spec (j / 8) (i / 8)) as [E|E].
  - rewrite testbit_u8, Z.lor_spec by lia. change 8 with (Z.of_nat 8) at 1. rewrite <- (Nat2Z.inj_mod i 8).
    rewrite testbit_one_shift by lia. rewrite E. destruct (Nat.eqb_spec j i) as [->|Hne].
    + by rewrite Z.eqb_refl, orb_true_r.
    + rewrite (proj2 (Z.eqb_neq _ _)), orb_false_r; [done|]. intros Hm. apply Hne, div_mod_8; [done|lia].
  - destruct (Nat.eqb_spec j i) as [->|Hne]; [done|]. done.
Qed.

Lemma bit_clear_clear d i j :
  length d = Z.to_nat BSIZE -> (i < Z.to_nat BPB)%nat ->
  bit_clear (clear_bit (Z.of_nat i) d) j = if (j =? i)%nat then true else bit_clear d j.
Proof.
  intros Hd Hi. rewrite !bit_clear_testbit. unfold clear_bit, bit_mask. rewrite bit_byte_nat.
  rewrite nth_alter by (by apply bit_index). pose proof (Nat.mod_upper_bound j 8 ltac:(lia)).
  destruct (Nat.eqb_spec (j / 8) (i / 8)) as [E|E].
  - rewrite testbit_u8, Z.land_spec, Z.lnot_spec by lia. change 8 with (Z.of_nat 8) at 1. rewrite <- (Nat2Z.inj_mod i 8).
    rewrite testbit_one_shift by lia. rewrite E. destruct (Nat.eqb_spec j i) as [->|Hne].
    + by rewrite Z.eqb_refl, andb_false_r.
    + rewrite (proj2 (Z.eqb_neq _ _)); [by rewrite andb_true_r|]. intros Hm. apply Hne, div_mod_8; [done|lia].
  - destruct (Nat.eqb_spec j i) as [->|Hne]; [done|]. done.
Qed.

(** ** The free map *)

(** Block [b] is marked in the bitmap. *)
Definition used (sb : superblock) (g : Z -> list Z) (b : Z) : bool :=
  negb (bit_clear (g (BBLOCK b sb)) (Z.to_nat (b mod BPB))).

(** Where the bitmap and the inodes are, and that free blocks are data blocks. *)
Record layout (s : kst) (start : Z) (g : Z -> list Z) : Prop := {
  ly_size : 0 <= sb_size (k_sb s) <= dk_size (k_disk s);
  ly_bmap b : 0 <= b < sb_size (k_sb s) -> blk_ok s start (BBLOCK b (k_sb s));
  ly_len b : 0 <= b < sb_size (k_sb s) -> length (g (BBLOCK b (k_sb s))) = Z.to_nat BSIZE;
  ly_meta b c : 0 <= b < sb_size (k_sb s) -> used (k_sb s) g b = false ->
    0 <= c < sb_size (k_sb s) -> b <> BBLOCK c (k_sb s);
  ly_log b : 0 <= b < sb_size (k_sb s) -> used (k_sb s) g b = false -> outside start b
}.

(** The contents after [balloc] has taken block [b], and after [bfree] has freed it. *)
Definition alloc_g (sb : superblock) (b : Z) (g : Z -> list Z) : Z -> list Z :=
  upd_blk (upd_blk g (BBLOCK b sb) (set_bit (b mod BPB) (g (BBLOCK b sb)))) b (replicate (Z.to_nat BSIZE) 0).

Definition free_g (sb : superblock) (b : Z) (g : Z -> list Z) : Z -> list Z :=
  upd_blk g (BBLOCK b sb) (clear_bit (b mod BPB) (g (BBLOCK b sb))).

Lemma BPB_pos : 0 < BPB.
Proof. reflexivity. Qed.

Lemma BBLOCK_start b sb : BBLOCK (BPB * (b / BPB)) sb = BBLOCK b sb.
Proof.
  unfold BBLOCK. f_equal. f_equal. rewrite (Z.mul_comm BPB), Z.div_mul; [done|]. pose proof BPB_pos. lia.
Qed.

(** The search of one bitmap block. *)
Lemma find_bit d N bi :
  (bi < N)%nat -> bit_clear d bi = true -> (forall j, (j < bi)%nat -> bit_clear d j = false) ->
  find_from (bit_clear d) 0 (seq 0 N) = Some bi.
Proof.
  intros Hlt Hbi Hbefore. apply find_from_Some. exists bi. split; [by apply lookup_seq; lia|]. split; [done|].
  intros k y Hk Hy. apply lookup_seq in Hy as [-> _]. by apply Hbefore.
Qed.

Lemma find_no_bit d N : (forall j, (j < N)%nat -> bit_clear d j = false) -> find_from (bit_clear d) 0 (seq 0 N) = None.
Proof. intros H. apply find_from_None. intros k y Hy. apply lookup_seq in Hy as [-> ?]. by apply H. Qed.

Lemma bits_block sb g k j :
  0 <= k -> 0 <= j < BPB ->
  bit_clear (g (BBLOCK (BPB * k) sb)) (Z.to_nat j) = negb (used sb g (BPB * k + j)).
Proof.
  intros Hk Hj. unfold used. rewrite negb_involutive. pose proof BPB_pos.
  assert ((BPB * k + j) mod BPB = j) as -> by (rewrite Z.add_comm, (Z.mul_comm BPB), Z.mod_add, Z.mod_small; lia).
  assert ((BPB * k + j) / BPB = k) as Ek by (rewrite Z.add_comm, (Z.mul_comm BPB), Z.div_add, Z.div_small; lia).
  rewrite <- (BBLOCK_start (BPB * k + j)), Ek. done.
Qed.

Lemma layout_frame s s' start g : tx_frame s s' -> layout s start g -> layout s' start g.
Proof.
  intros F [H1 H2 H3 H4 H5]. constructor; unfold blk_ok in *; rewrite ?(tx_frame_sb _ _ F), ?(tx_frame_disk _ _ F); auto.
Qed.

Lemma BBLOCK_same b c sb : b / BPB = c / BPB -> BBLOCK b sb = BBLOCK c sb.
Proof. unfold BBLOCK. by intros ->. Qed.

Lemma mod_BPB_lt b : (Z.to_nat (b mod BPB) < Z.to_nat BPB)%nat.
Proof. pose proof (Z.mod_pos_bound b BPB BPB_pos). lia. Qed.

Lemma mod_BPB_inj b c : b / BPB = c / BPB -> Z.to_nat (b mod BPB) = Z.to_nat (c mod BPB) -> b = c.
Proof.
  intros Hd Hm. pose proof BPB_pos. pose proof (Z.mod_pos_bound b BPB BPB_pos). pose proof (Z.mod_pos_bound c BPB BPB_pos).
  rewrite (Z.div_mod b BPB), (Z.div_mod c BPB) by lia. lia.
Qed.

(** Distinct bitmap blocks have distinct numbers. *)
Definition bmap_inj (sb : superblock) : Prop :=
  forall b c, 0 <= b < sb_size sb -> 0 <= c < sb_size sb -> BBLOCK b sb = BBLOCK c sb -> b / BPB = c / BPB.

(** The marks after the bit of [b] has been changed. *)
Lemma used_set sb g b c :
  length (g (BBLOCK b sb)) = Z.to_nat BSIZE -> bmap_inj sb -> 0 <= b < sb_size sb -> 0 <= c < sb_size sb ->
  used sb (upd_blk g (BBLOCK b sb) (set_bit (b mod BPB) (g (BBLOCK b sb)))) c = (c =? b) || used sb g c.
Proof.
  intros Hlen Hinj Hb Hc. unfold used. pose proof (Z.mod_pos_bound b BPB BPB_pos).
  destruct (Z.eq_dec (BBLOCK c sb) (BBLOCK b sb)) as [E|E].
  - rewrite E, upd_blk_eq. rewrite <- (Z2Nat.id (b mod BPB)) by lia.
    rewrite bit_clear_set by (done || apply mod_BPB_lt).
    destruct (Nat.eqb_spec (Z.to_nat (c mod BPB)) (Z.to_nat (b mod BPB))) as [Em|Em].
    + rewrite (mod_BPB_inj c b (Hinj _ _ Hc Hb E) Em), Z.eqb_refl. done.
    + rewrite (proj2 (Z.eqb_neq c b)) by congruence. done.
  - rewrite upd_blk_ne by done. rewrite (proj2 (Z.eqb_neq c b)) by congruence. done.
Qed.

Lemma used_clear sb g b c :
  length (g (BBLOCK b sb)) = Z.to_nat BSIZE -> bmap_inj sb -> 0 <= b < sb_size sb -> 0 <= c < sb_size sb ->
  used sb (free_g sb b g) c = negb (c =? b) && used sb g c.
Proof.
  intros Hlen Hinj Hb Hc. unfold used, free_g. pose proof (Z.mod_pos_bound b BPB BPB_pos).
  destruct (Z.eq_dec (BBLOCK c sb) (BBLOCK b sb)) as [E|E].
  - rewrite E, upd_blk_eq. rewrite <- (Z2Nat.id (b mod BPB)) by lia.
    rewrite bit_clear_clear by (done || apply mod_BPB_lt).
    destruct (Nat.eqb_spec (Z.to_nat (c mod BPB)) (Z.to_nat (b mod BPB))) as [Em|Em].
    + rewrite (mod_BPB_inj c b (Hinj _ _ Hc Hb E) Em), Z.eqb_refl. done.
    + rewrite (proj2 (Z.eqb_neq c b)) by congruence. done.
  - rewrite upd_blk_ne by done. rewrite (proj2 (Z.eqb_neq c b)) by congruence. done.
Qed.

(** Contents of a block that is no bitmap block do not affect the marks. *)
Lemma used_data sb g b d c : BBLOCK c sb <> b -> used sb (upd_blk g b d) c = used sb g c.
Proof. intros Hne. unfold used. by rewrite upd_blk_ne. Qed.

Lemma used_alloc s start g b c :
  layout s start g -> bmap_inj (k_sb s) -> 0 <= b < sb_size (k_sb s) -> used (k_sb s) g b = false ->
  0 <= c < sb_size (k_sb s) -> used (k_sb s) (alloc_g (k_sb s) b g) c = (c =? b) || used (k_sb s) g c.
Proof.
  intros L Hinj Hb Hf Hc. unfold alloc_g. rewrite used_data by (intros E; by apply (ly_meta _ _ _ L b c Hb Hf Hc)).
  apply used_set; auto. by apply (ly_len _ _ _ L).
Qed.

Lemma layout_alloc s start g b :
  layout s start g -> bmap_inj (k_sb s) -> 0 <= b < sb_size (k_sb s) -> used (k_sb s) g b = false ->
  layout s start (alloc_g (k_sb s) b g).
Proof.
  intros L Hinj Hb Hf. pose proof (fun c => used_alloc s start g b c L Hinj Hb Hf) as Hu. constructor.
  - apply L.
  - apply L.
  - intros c Hc. unfold alloc_g. rewrite upd_blk_ne by (intros E; by apply (ly_meta _ _ _ L b c Hb Hf Hc)).
    destruct (Z.eq_dec (BBLOCK c (k_sb s)) (BBLOCK b (k_sb s))) as [E|E].
    + rewrite E, upd_blk_eq. unfold set_bit. rewrite length_alter. by apply (ly_len _ _ _ L).
    + rewrite upd_blk_ne by done. by apply (ly_len _ _ _ L).
  - intros c e Hc Hfc He. rewrite Hu in Hfc by done. apply orb_false_iff in Hfc as [_ Hfc]. by apply (ly_meta _ _ _ L).
  - intros c Hc Hfc. rewrite Hu in Hfc by done. apply orb_false_iff in Hfc as [_ Hfc]. by apply (ly_log _ _ _ L).
Qed.

Section Driver.
Context `{BlockDriverOk}.

(** Nothing the process holds is in the way of an allocation. *)
Definition unheld (s : kst) (g : Z -> list Z) (h : list (nat * Z)) : Prop :=
  forall b, 0 <= b < sb_size (k_sb s) ->
    BBLOCK b (k_sb s) ∉ h.*2 /\ (used (k_sb s) g b = false -> b ∉ h.*2).

Lemma unheld_frame s s' g h : tx_frame s s' -> unheld s g h -> unheld s' g h.
Proof. intros F. unfold unheld. by rewrite (tx_frame_sb _ _ F). Qed.

Lemma bzero_run s start f g bl h b :
  tx s start f g bl h -> blk_ok s start b -> b ∉ h.*2 -> room bl h -> (S (length bl) < Z.to_nat LOGSIZE)%nat ->
  exists s', bzero 1 b s = Ok tt s' /\
    tx s' start f (upd_blk g b (replicate (Z.to_nat BSIZE) 0)) (bl_add bl b) h /\ tx_frame s s'.
Proof.
  intros T Hb Hh Hr Hl. destruct (tx_bread s start f g bl h b T (proj1 Hb) Hh Hr) as (i & s1 & E1 & T1 & F1).
  destruct (tx_modify s1 start f g bl _ h i b (fun _ => replicate (Z.to_nat BSIZE) 0) T1) as (s2 & E2 & T2 & F2);
    [done|by eapply blk_ok_frame|done|].
  exists s2. unfold bzero. mcall E1. split; [exact E2|]. split; [exact T2|]. eauto using tx_frame_trans.
Qed.

Lemma balloc_loop_run start f g bl h b m : forall k s,
  tx s start f g bl h -> layout s start g -> unheld s g h ->
  (length bl + length h + 2 < Z.to_nat LOGSIZE)%nat ->
  0 <= b < sb_size (k_sb s) -> used (k_sb s) g b = false ->
  BPB * Z.of_nat k <= b -> (forall c, BPB * Z.of_nat k <= c < b -> used (k_sb s) g c = true) ->
  b < BPB * Z.of_nat (k + m) ->
  exists s', balloc_loop 1 ((fun k => BPB * Z.of_nat k) <$> seq k m) s = Ok b s' /\
    tx s' start f (alloc_g (k_sb s) b g) (bl_add (bl_add bl (BBLOCK b (k_sb s))) b) h /\ tx_frame s s'.
Proof.
  pose proof BPB_pos as HP. induction m as [|m IH]; intros k s T L U Hroom Hb Hfree Hkb Hbefore Hlim.
  { rewrite Nat.add_0_r in Hlim. lia. }
  cbn [seq fmap list_fmap balloc_loop]. mstep. set (sb := k_sb s) in *.
  assert (0 <= BPB * Z.of_nat k < sb_size sb) as Hk by lia.
  assert (room bl h) as Hr by (unfold room; change NBUF with (Z.to_nat LOGSIZE); lia).
  destruct (U _ Hk) as [Hu _]. pose proof (ly_bmap _ _ _ L _ Hk) as Hbm. fold sb in Hbm.
  destruct (tx_peek s start f g bl h (BBLOCK (BPB * Z.of_nat k) sb) T (proj1 Hbm) Hu Hr)
    as (i & s1 & c & s2 & E1 & Ec & Hc & E2 & T2 & F2 & T1 & F1).
  mcall E1. mcall Ec. rewrite Hc. destruct (Z.lt_ge_cases b (BPB * (Z.of_nat k + 1))) as [Hin|Hout].
  - set (bi := Z.to_nat (b - BPB * Z.of_nat k)).
    assert (b = BPB * Z.of_nat k + Z.of_nat bi) as Eb by (unfold bi; lia).
    rewrite (find_bit _ _ bi).
    2:{ unfold bits_from, bi. lia. }
    2:{ rewrite <- (Nat2Z.id bi), bits_block by lia. by rewrite <- Eb, Hfree. }
    2:{ intros j Hj. rewrite <- (Nat2Z.id j), bits_block by lia. rewrite Hbefore by lia. done. }
    assert (b / BPB = Z.of_nat k) as Ek by (rewrite Eb, Z.add_comm, (Z.mul_comm BPB), Z.div_add, Z.div_small; lia).
    assert (b mod BPB = Z.of_nat bi) as Em by (rewrite Eb, Z.add_comm, (Z.mul_comm BPB), Z.mod_add, Z.mod_small; lia).
    assert (BBLOCK (BPB * Z.of_nat k) sb = BBLOCK b sb) as EB by (by rewrite <- Ek, BBLOCK_start).
    rewrite EB in *. rewrite <- Eb.
    destruct (tx_modify s1 start f g bl _ h i (BBLOCK b sb) (set_bit (Z.of_nat bi)) T1) as (s3 & E3 & T3 & F3);
      [done|by eapply blk_ok_frame|lia|].
    pose proof (tx_frame_trans _ _ _ F1 F3) as F03. pose proof (bl_add_length bl (BBLOCK b sb)).
    destruct (bzero_run s3 start f _ _ h b T3) as (s4 & E4 & T4 & F4).
    { eapply blk_ok_frame; [exact F03|]. split; [destruct (ly_size _ _ _ L) as [_ Hsz]; fold sb in Hsz; lia|by apply (ly_log _ _ _ L)]. }
    { by apply U. } { unfold room. change NBUF with (Z.to_nat LOGSIZE). lia. } { lia. }
    exists s4. split; [|split; [|eauto using tx_frame_trans]].
    + assert (E3' := E3). unfold bind in E3' |- *.
      destruct (set_data i _ s1) as [[] x1| | | |]; try discriminate.
      destruct (log_write i x1) as [[] x2| | | |]; try discriminate. rewrite E3', E4. done.
    + unfold alloc_g. rewrite Em. exact T4.
  - rewrite find_no_bit.
    2:{ intros j Hj. unfold bits_from in Hj. rewrite <- (Nat2Z.id j), bits_block by lia. rewrite Hbefore by lia. done. }
    mcall E2. pose proof (tx_frame_sb _ _ F2) as Esb.
    destruct (IH (S k) s2 T2) as (s3 & E3 & T3 & F3); rewrite ?Esb; fold sb; auto.
    { by eapply layout_frame. } { by eapply unheld_frame. } { lia. } { intros x Hx. apply Hbefore. lia. } { lia. }
    rewrite Esb in T3. exists s3. split; [exact E3|]. split; [exact T3|]. eauto using tx_frame_trans.
Qed.

Lemma bitmap_cover size b : 0 <= b < size -> b < BPB * Z.of_nat (Z.to_nat ((size + BPB - 1) / BPB)).
Proof.
  intros Hb. pose proof BPB_pos as HP. rewrite Z2Nat.id by (apply Z.div_pos; lia).
  pose proof (Z.mod_pos_bound (size + BPB - 1) BPB HP). pose proof (Z.div_mod (size + BPB - 1) BPB). lia.
Qed.

Lemma balloc_run s start f g bl h b :
  tx s start f g bl h -> layout s start g -> unheld s g h ->
  (length bl + length h + 2 < Z.to_nat LOGSIZE)%nat ->
  0 <= b < sb_size (k_sb s) -> used (k_sb s) g b = false ->
  (forall c, 0 <= c < b -> used (k_sb s) g c = true) ->
  exists s', balloc 1 s = Ok b s' /\
    tx s' start f (alloc_g (k_sb s) b g) (bl_add (bl_add bl (BBLOCK b (k_sb s))) b) h /\ tx_frame s s'.
Proof.
  intros T L U Hr Hb Hf Hbefore. unfold balloc. mstep. unfold bitmap_starts.
  apply balloc_loop_run; auto; [lia|]. by apply bitmap_cover.
Qed.

Lemma balloc_loop_full start f g bl h m : forall k s,
  tx s start f g bl h -> layout s start g -> unheld s g h -> room bl h ->
  (forall c, 0 <= c < sb_size (k_sb s) -> used (k_sb s) g c = true) ->
  BPB * Z.of_nat (k + m) < sb_size (k_sb s) + BPB ->
  exists s', balloc_loop 1 ((fun k => BPB * Z.of_nat k) <$> seq k m) s = Panic "balloc: out of blocks" s'.
Proof.
  pose proof BPB_pos as HP. induction m as [|m IH]; intros k s T L U Hr Hall Hlim; [by exists s|].
  cbn [seq fmap list_fmap balloc_loop]. mstep. assert (0 <= BPB * Z.of_nat k < sb_size (k_sb s)) as Hk by lia.
  destruct (U _ Hk) as [Hu _]. pose proof (ly_bmap _ _ _ L _ Hk) as Hbm.
  destruct (tx_peek s start f g bl h _ T (proj1 Hbm) Hu Hr) as (i & s1 & c & s2 & E1 & Ec & Hc & E2 & T2 & F2 & _).
  mcall E1. mcall Ec. rewrite Hc, find_no_bit.
  2:{ intros j Hj. unfold bits_from in Hj. rewrite <- (Nat2Z.id j), bits_block by lia. rewrite Hall by lia. done. }
  mcall E2. pose proof (tx_frame_sb _ _ F2) as Esb.
  apply (IH (S k) s2 T2); rewrite ?Esb; auto; [by eapply layout_frame|by eapply unheld_frame|].
  replace (S k + m)%nat with (k + S m)%nat by lia. done.
Qed.

Lemma balloc_full s start f g bl h :
  tx s start f g bl h -> layout s start g -> unheld s g h -> room bl h ->
  (forall c, 0 <= c < sb_size (k_sb s) -> used (k_sb s) g c = true) ->
  exists s', balloc 1 s = Panic "balloc: out of blocks" s'.
Proof.
  intros T L U Hr Hall. unfold balloc. mstep. unfold bitmap_starts. apply (balloc_loop_full start f g bl h); auto.
  pose proof BPB_pos as HP. pose proof (ly_size _ _ _ L). simpl. rewrite Z2Nat.id by (apply Z.div_pos; lia).
  pose proof (Z.mod_pos_bound (sb_size (k_sb s) + BPB - 1) BPB HP).
  pose proof (Z.div_mod (sb_size (k_sb s) + BPB - 1) BPB). lia.
Qed.

(** The superblock on the disk is the one in memory. *)
Definition sb_cached (s : kst) (g : Z -> list Z) : Prop :=
  sb_of_block (g 1) = k_sb s /\ 1 < dk_size (k_disk s).

Lemma readsb_run s start f g bl h :
  tx s start f g bl h -> sb_cached s g -> 1 ∉ h.*2 -> room bl h ->
  exists s', readsb 1 s = Ok (k_sb s) s' /\ tx s' start f g bl h /\ tx_frame s s'.
Proof.
  intros T [Hsb H1] Hh Hr. destruct (tx_peek s start f g bl h 1 T ltac:(lia) Hh Hr)
    as (i & s1 & c & s2 & E1 & Ec & Hc & E2 & T2 & F2 & _).
  exists s2. unfold readsb. mcall E1. mcall Ec. mcall E2. rewrite Hc, Hsb. done.
Qed.

Lemma bfree_run s start f g bl h b :
  tx s start f g bl h -> layout s start g -> sb_cached s g -> 1 ∉ h.*2 ->
  0 <= b < sb_size (k_sb s) -> BBLOCK b (k_sb s) ∉ h.*2 ->
  (length bl + length h + 1 < Z.to_nat LOGSIZE)%nat ->
  exists s', if used (k_sb s) g b
    then bfree 1 b s = Ok tt s' /\ tx s' start f (free_g (k_sb s) b g) (bl_add bl (BBLOCK b (k_sb s))) h /\
         tx_frame s s'
    else bfree 1 b s = Panic "freeing free block" s'.
Proof.
  intros T L Hsb H1 Hb Hh Hl. assert (room bl h) as Hr by (unfold room; change NBUF with (Z.to_nat LOGSIZE); lia).
  destruct (readsb_run s start f g bl h T Hsb H1 Hr) as (s1 & E1 & T1 & F1).
  assert (s1 <| k_sb := k_sb s |> = s1) as Es1 by (rewrite <- (tx_frame_sb _ _ F1); by destruct s1).
  pose proof (blk_ok_frame _ _ _ _ F1 (ly_bmap _ _ _ L _ Hb)) as Hbm.
  destruct (tx_bread s1 start f g bl h _ T1 (proj1 Hbm) Hh Hr) as (i & s2 & E2 & T2 & F2).
  destruct (tx_get s2 start f g bl _ i (BBLOCK b (k_sb s)) T2) as (c & Ec & Hc); [set_solver|].
  assert (bfree 1 b s = (if bit_clear (g (BBLOCK b (k_sb s))) (Z.to_nat (b mod BPB)) then panic "freeing free block"
    else set_data i (clear_bit (b mod BPB)) ;; log_write i ;; brelse i) s2) as E.
  { unfold bfree. mcall E1. mstep. rewrite Es1. mcall E2. mcall Ec. by rewrite Hc. }
  rewrite E. unfold used. destruct (bit_clear _ _); simpl; [by exists s2|].
  destruct (tx_modify s2 start f g bl _ h i (BBLOCK b (k_sb s)) (clear_bit (b mod BPB)) T2) as (s3 & E3 & T3 & F3);
    [done|by eapply blk_ok_frame|lia|].
  exists s3. split; [exact E3|]. split; [exact T3|]. eauto using tx_frame_trans.
Qed.

(** C19. [balloc] hands out the free block with the lowest number: it comes back zeroed
    and marked, every other block keeps its mark and every block that holds neither it
    nor its mark its contents. When no block is free, [balloc] panics. *)
Theorem balloc_spec s start f g bl h :
  tx s start f g bl h -> layout s start g -> bmap_inj (k_sb s) -> unheld s g h ->
  (length bl + length h + 2 < Z.to_nat LOGSIZE)%nat ->
  (exists b s' g', 0 <= b < sb_size (k_sb s) /\ used (k_sb s) g b = false /\
     (forall c, 0 <= c < b -> used (k_sb s) g c = true) /\
     balloc 1 s = Ok b s' /\ layout s' start g' /\ g' b = replicate (Z.to_nat BSIZE) 0 /\
     (exists bl', tx s' start f g' bl' h) /\
     (forall c, 0 <= c < sb_size (k_sb s) -> used (k_sb s) g' c = (c =? b) || used (k_sb s) g c) /\
     (forall c, c <> b -> c <> BBLOCK b (k_sb s) -> g' c = g c)) \/
  (forall c, 0 <= c < sb_size (k_sb s) -> used (k_sb s) g c = true) /\
  (exists s', balloc 1 s = Panic "balloc: out of blocks" s').
Proof.
  intros T L Hinj U Hl.
  destruct (find_from (fun n => negb (used (k_sb s) g (Z.of_nat n))) 0 (seq 0 (Z.to_nat (sb_size (k_sb s))))) as [n|] eqn:E.
  - left. apply find_from_Some in E as (x & Hx & Hu & Hb). apply lookup_seq in Hx as [-> Hn]. simpl in *.
    apply negb_true_iff in Hu. set (b := Z.of_nat n) in *. assert (0 <= b < sb_size (k_sb s)) as Hbr by lia.
    assert (forall c, 0 <= c < b -> used (k_sb s) g c = true) as Hbefore.
    { intros c Hc. specialize (Hb (Z.to_nat c) (Z.to_nat c) ltac:(lia)). rewrite lookup_seq_lt in Hb by lia.
      specialize (Hb eq_refl). apply negb_false_iff in Hb. by rewrite Z2Nat.id in Hb by lia. }
    destruct (balloc_run s start f g bl h b T L U Hl Hbr Hu Hbefore) as (s' & E & T' & F').
    exists b, s', (alloc_g (k_sb s) b g). split_and!; try done; try lia.
    + eapply layout_frame; [exact F'|]. by apply layout_alloc.
    + unfold alloc_g. by rewrite upd_blk_eq.
    + by eexists.
    + intros c Hc. by apply (used_alloc s start).
    + intros c H1 H2. unfold alloc_g. by rewrite !upd_blk_ne.
  - right. assert (forall c, 0 <= c < sb_size (k_sb s) -> used (k_sb s) g c = true) as Hall.
    { intros c Hc. pose proof (proj1 (find_from_None _ _) E (Z.to_nat c) (Z.to_nat c)) as Hf.
      rewrite lookup_seq_lt in Hf by lia. specialize (Hf eq_refl). simpl in Hf. apply negb_false_iff in Hf.
      by rewrite Z2Nat.id in Hf by lia. }
    split; [done|]. apply (balloc_full s start f g bl h); auto. unfold room. change NBUF with (Z.to_nat LOGSIZE). lia.
Qed.

Lemma unheld_nil s g : unheld s g [].
Proof. intros b _. split; [|intros _]; apply not_elem_of_nil. Qed.

(** [bfree] undoes [balloc]: after a block has been allocated and freed again the free
    map is what it was, and freeing the block once more panics. *)
Theorem balloc_bfree_roundtrip s start f g bl b :
  tx s start f g bl [] -> layout s start g -> bmap_inj (k_sb s) -> sb_cached s g ->
  (length bl + 3 < Z.to_nat LOGSIZE)%nat ->
  0 <= b < sb_size (k_sb s) -> used (k_sb s) g b = false -> (forall c, 0 <= c < b -> used (k_sb s) g c = true) ->
  b <> 1 -> (forall c, 0 <= c < sb_size (k_sb s) -> BBLOCK c (k_sb s) <> 1) ->
  exists s1 s2 s3 g', balloc 1 s = Ok b s1 /\ bfree 1 b s1 = Ok tt s2 /\
    (exists bl', tx s2 start f g' bl' []) /\
    (forall c, 0 <= c < sb_size (k_sb s) -> used (k_sb s) g' c = used (k_sb s) g c) /\
    bfree 1 b s2 = Panic "freeing free block" s3.
Proof.
  intros T L Hinj Hsb Hl Hb Hf Hbefore Hb1 Hm1.
  destruct (balloc_run s start f g bl [] b T L (unheld_nil s g)) as (s1 & E1 & T1 & F1); auto; [simpl; lia|].
  set (sb := k_sb s) in *. set (g1 := alloc_g sb b g) in *. pose proof (tx_frame_sb _ _ F1) as Esb1. fold sb in Esb1.
  assert (layout s1 start g1) as L1 by (eapply layout_frame; [exact F1|]; by apply layout_alloc).
  assert (sb_cached s1 g1) as Hsb1.
  { destruct Hsb as [Hs1 Hs2]. split; [|by rewrite (tx_frame_disk _ _ F1)]. fold sb in Hs1. rewrite Esb1, <- Hs1.
    unfold g1, alloc_g. rewrite !upd_blk_ne; auto. apply not_eq_sym. by apply Hm1. }
  pose proof (bl_add_length bl (BBLOCK b sb)). pose proof (bl_add_length (bl_add bl (BBLOCK b sb)) b).
  assert (forall c, 0 <= c < sb_size sb -> used sb g1 c = (c =? b) || used sb g c) as Hu1
    by (intros c Hc; by apply (used_alloc s start)).
  destruct (bfree_run s1 start f g1 _ [] b T1 L1 Hsb1) as (s2 & Hfr); rewrite ?Esb1; auto;
    [apply not_elem_of_nil|apply not_elem_of_nil|simpl; lia|].
  rewrite Esb1, Hu1, Z.eqb_refl in Hfr by done. destruct Hfr as (E2 & T2 & F2).
  assert (forall c, 0 <= c < sb_size sb -> used sb (free_g sb b g1) c = used sb g c) as Hu2.
  { intros c Hc. rewrite used_clear; auto.
    - rewrite Hu1 by done. destruct (Z.eqb_spec c b) as [->|Hne]; simpl; [by rewrite Hf|done].
    - rewrite <- Esb1. apply (ly_len _ _ _ L1). by rewrite Esb1. }
  assert (layout s2 start (free_g sb b g1)) as L2.
  { eapply layout_frame; [exact F2|]. eapply layout_frame; [exact F1|]. constructor; fold sb; try apply L.
    - intros c Hc. unfold free_g. pose proof (ly_len _ _ _ L1) as Hlen. rewrite Esb1 in Hlen.
      destruct (Z.eq_dec (BBLOCK c sb) (BBLOCK b sb)) as [E|E].
      + rewrite E, upd_blk_eq. unfold clear_bit. rewrite length_alter. by apply Hlen.
      + rewrite upd_blk_ne by done. by apply Hlen.
    - intros c e Hc Hfc He. rewrite Hu2 in Hfc by done. by apply (ly_meta _ _ _ L).
    - intros c Hc Hfc. rewrite Hu2 in Hfc by done. by apply (ly_log _ _ _ L). }
  pose proof (tx_frame_sb _ _ F2) as Esb2. rewrite Esb1 in Esb2.
  assert (sb_cached s2 (free_g sb b g1)) as Hsb2.
  { destruct Hsb1 as [Hs1 Hs2]. split; [|by rewrite (tx_frame_disk _ _ F2)].
    assert (free_g sb b g1 1 = g1 1) as -> by (unfold free_g; apply upd_blk_ne, not_eq_sym; by apply Hm1).
    by rewrite Hs1, Esb1, Esb2. }
  assert (bl_add (bl_add (bl_add bl (BBLOCK b sb)) b) (BBLOCK b sb) = bl_add (bl_add bl (BBLOCK b sb)) b) as Ebl.
  { unfold bl_add at 1. rewrite bool_decide_eq_true_2; [done|]. rewrite !bl_add_elem. tauto. }
  rewrite Ebl in T2.
  destruct (bfree_run s2 start f _ _ [] b T2 L2 Hsb2) as (s3 & H3); rewrite ?Esb2; auto;
    [apply not_elem_of_nil|apply not_elem_of_nil|simpl; lia|].
  rewrite Esb2, Hu2, Hf in H3 by done. exists s1, s2, s3, (free_g sb b g1). split_and!; try done. by eexists.
Qed.
End Driver.

(** ** A file system image *)

Definition le32 (z : Z) : list Z := [byte_of z 0; byte_of z 1; byte_of z 2; byte_of z 3].

(** A fresh file system of 1000 blocks: log at block 2, inodes at 32, bitmap at 58. *)
Definition image_sb : superblock := mkSuperblock FSSIZE 941 200 LOGSIZE 2 32 58.

Definition pad (l : list Z) : list Z := take (Z.to_nat BSIZE) (l ++ replicate (Z.to_nat BSIZE) 0).

Definition image0 (b : Z) : list Z :=
  if b =? 1 then pad (concat (le32 <$> [FSSIZE; 941; 200; LOGSIZE; 2; 32; 58]))
  else if b =? 58 then pad [255; 255; 255; 255; 255; 255; 255; 7]
  else replicate (Z.to_nat BSIZE) 0.

(** In a transaction over it. *)
Definition fs0 : kst :=
  (with_log (fun _ => mkLog 2 LOGSIZE 1 0 1 (mkLogheader 0 (replicate (Z.to_nat LOGSIZE) 0))) (cache0 image0))
    <| k_sb := image_sb |>.

Lemma with_sb_rel sb s v : bio_rel s v -> bio_rel (s <| k_sb := sb |>) v.
Proof. intros R. exact R. Qed.

Lemma fs0_tx : tx fs0 2 image0 image0 [] [].
Proof.
  constructor.
  - apply with_sb_rel, with_log_rel, cache0_rel.
  - split; [reflexivity|]. split; reflexivity.
  - split; [reflexivity|]. split; [reflexivity|]. split; [reflexivity|]. split; [|split]; vm_compute; congruence.
  - apply blocks_ok_nil.
  - reflexivity.
  - vm_compute. congruence.
Qed.

Lemma fs0_bblock b : 0 <= b < FSSIZE -> BBLOCK b image_sb = 58.
Proof. intros Hb. unfold BBLOCK. rewrite Z.div_small; [reflexivity|]. unfold FSSIZE, BPB, BSIZE in *. lia. Qed.

Lemma fs0_used b : 0 <= b < 59 -> used image_sb image0 b = true.
Proof.
  intros Hb. assert (forallb (fun n => used image_sb image0 (Z.of_nat n)) (seq 0 59) = true) as H by (vm_compute; reflexivity).
  rewrite forallb_forall in H. rewrite <- (Z2Nat.id b) by lia. apply H. apply in_seq. lia.
Qed.

Lemma fs0_layout : layout fs0 2 image0.
Proof.
  constructor; change (k_sb fs0) with image_sb; change (sb_size image_sb) with 1000; unfold blk_ok;
    change (dk_size (k_disk fs0)) with 1000.
  - lia.
  - intros b Hb. rewrite fs0_bblock by done. split; [lia|]. right. vm_compute. congruence.
  - intros b Hb. rewrite fs0_bblock by done. reflexivity.
  - intros b c Hb Hu Hc. rewrite fs0_bblock by done. intros ->. rewrite fs0_used in Hu by lia. done.
  - intros b Hb Hu. right. change (2 + LOGSIZE) with 32. destruct (Z.lt_ge_cases b 59); [|lia].
    rewrite fs0_used in Hu by lia. done.
Qed.

Lemma fs0_inj : bmap_inj (k_sb fs0).
Proof.
  intros b c Hb Hc _. change (sb_size (k_sb fs0)) with 1000 in *.
  rewrite !Z.div_small; unfold BPB, BSIZE; lia.
Qed.

Lemma balloc_spec_witness :
  exists s', balloc (H := memide_driver) 1 fs0 = Ok 59 s'.
Proof.
  destruct (balloc_spec (H := memide_driver) fs0 2 image0 image0 [] [] fs0_tx fs0_layout fs0_inj (unheld_nil _ _))
    as [(b & s' & g' & Hb & Hu & Hbefore & E & _)|[Hall _]].
  - vm_compute. lia.
  - exists s'. rewrite E. f_equal.
    assert (b = 59) as ->; [|reflexivity]. change (sb_size (k_sb fs0)) with 1000 in Hb.
    destruct (Z.lt_trichotomy b 59) as [Hlt|[->|Hgt]]; [|reflexivity|].
    + pose proof (fs0_used b ltac:(lia)) as Hu'. change (k_sb fs0) with image_sb in Hu. congruence.
    + specialize (Hbefore 59 ltac:(lia)). vm_compute in Hbefore. discriminate Hbefore.
  - specialize (Hall 59 ltac:(change (sb_size (k_sb fs0)) with 1000; lia)). vm_compute in Hall. discriminate Hall.
Defined.

Lemma balloc_bfree_roundtrip_witness :
  exists s1 s2, balloc (H := memide_driver) 1 fs0 = Ok 59 s1 /\ bfree (H := memide_driver) 1 59 s1 = Ok tt s2.
Proof.
  destruct (balloc_bfree_roundtrip (H := memide_driver) fs0 2 image0 image0 [] 59 fs0_tx fs0_layout fs0_inj)
    as (s1 & s2 & s3 & g' & E1 & E2 & _).
  - split; [vm_compute; reflexivity|reflexivity].
  - vm_compute. lia.
  - change (sb_size (k_sb fs0)) with 1000. lia.
  - vm_compute. reflexivity.
  - intros c Hc. apply fs0_used. lia.
  - lia.
  - intros c Hc. change (k_sb fs0) with image_sb in *. change (sb_size image_sb) with 1000 in Hc.
    rewrite fs0_bblock by (unfold FSSIZE; lia). lia.
  - exists s1, s2. split; [exact E1|exact E2].
Defined.
