(* ===== verification/FsData.v ===== *)
(** * File contents: [bmap], [readi] and [writei]

    A file is an array of bytes. [readi] returns a slice of it, [writei] overwrites or
    extends it, allocating blocks as it goes. *)

From S2P Require Import Prelude Params State Mem Strings Locks Kalloc Vm Sched Procs Sleeplock Bio BioSpec Log LogDisk LogSpec Trans Fs FsTx FsBlocks.
Import Spin.

(** ** The blocks of a file *)

Definition zeros : list Z := replicate (Z.to_nat BSIZE) 0.

Definition ind_addr (ip : inode) : Z := nth (Z.to_nat NDIRECT) (i_addrs ip) 0.

(** The address of block [bn], zero if it has none. *)
Definition addr_of (g : Z -> list Z) (ip : inode) (bn : Z) : Z :=
  if bn <? NDIRECT then nth (Z.to_nat bn) (i_addrs ip) 0
  else if ind_addr ip =? 0 then 0
  else get32 (g (ind_addr ip)) (Z.to_nat (4 * (bn - NDIRECT))).

(** Its contents; a block that is not there reads as zeroes. *)
Definition content (g : Z -> list Z) (ip : inode) (bn : Z) : list Z :=
  if addr_of g ip bn =? 0 then zeros else g (addr_of g ip bn).

(** Every block the inode uses: -2 is the one it is stored in, -1 the indirect one. *)
Definition place (sb : superblock) (g : Z -> list Z) (ip : inode) (k : Z) : Z :=
  if k =? -2 then IBLOCK (i_inum ip) sb else if k =? -1 then ind_addr ip else addr_of g ip k.

(** A block in use that is neither a bitmap block nor part of the log. *)
Definition owned (sb : superblock) (start : Z) (g : Z -> list Z) (a : Z) : Prop :=
  0 <= a < sb_size sb /\ used sb g a = true /\ outside start a /\
  (forall c, 0 <= c < sb_size sb -> BBLOCK c sb <> a) /\ length (g a) = Z.to_nat BSIZE.

Record ino_ok (sb : superblock) (start : Z) (g : Z -> list Z) (ip : inode) : Prop := {
  io_owned k : -2 <= k < MAXFILE -> place sb g ip k <> 0 -> owned sb start g (place sb g ip k);
  io_apart k k' : -2 <= k < MAXFILE -> -2 <= k' < MAXFILE -> k <> k' ->
    place sb g ip k <> 0 -> place sb g ip k <> place sb g ip k';
  io_home : place sb g ip (-2) <> 0
}.

(** A block in use that holds none of the file's data: a block of another file, or of inodes. *)
Definition bystander (sb : superblock) (start : Z) (g : Z -> list Z) (ip : inode) (b : Z) : Prop :=
  owned sb start g b /\ forall k, -1 <= k < MAXFILE -> place sb g ip k <> b.

(** Block [b], free until now, becomes place [k0] of the file. *)
Lemma ino_assign sb start g ip g' ip' k0 b :
  ino_ok sb start g ip -> 0 <= b < sb_size sb -> used sb g b = false -> b <> 0 -> -2 < k0 < MAXFILE ->
  (forall c, 0 <= c < sb_size sb -> used sb g' c = (c =? b) || used sb g c) ->
  (forall k, -2 <= k < MAXFILE -> place sb g' ip' k = if k =? k0 then b else place sb g ip k) ->
  (forall c, owned sb start g c -> length (g' c) = Z.to_nat BSIZE) -> length (g' b) = Z.to_nat BSIZE ->
  outside start b -> (forall c, 0 <= c < sb_size sb -> BBLOCK c sb <> b) ->
  ino_ok sb start g' ip'.
Proof.
  intros I Hb Hf Hb0 Hk0 Hu Hp Hlen Hlb Ho Hbm.
  assert (forall k, -2 <= k < MAXFILE -> place sb g ip k <> 0 -> place sb g ip k <> b) as Hne.
  { intros k Hk Hnz E. destruct (io_owned _ _ _ _ I k Hk Hnz) as (_ & Hused & _). congruence. }
  constructor.
  - intros k Hk. rewrite (Hp k Hk). destruct (Z.eqb_spec k k0) as [->|Hkne]; intros Hnz.
    + split_and!; try done; try lia. rewrite Hu, Z.eqb_refl by done. done.
    + pose proof (io_owned _ _ _ _ I k Hk Hnz) as Hown. pose proof Hown as (Hr & Hused & Hout & Hbl & _).
      split_and!; try done; try lia; [|by apply Hlen]. rewrite Hu, Hused by done. apply orb_true_r.
  - intros k k' Hk Hk' Hkk. rewrite (Hp k Hk), (Hp k' Hk').
    destruct (Z.eqb_spec k k0) as [->|H1], (Z.eqb_spec k' k0) as [->|H2]; intros Hnz; try done.
    + destruct (Z.eq_dec (place sb g ip k') 0) as [->|Hnz']; [done|]. apply not_eq_sym. by apply Hne.
    + by apply Hne.
    + by apply (io_apart _ _ _ _ I).
  - rewrite Hp by (change MAXFILE with 140; lia). rewrite (proj2 (Z.eqb_neq _ _)) by lia. apply I.
Qed.

(** ** Free blocks *)

Definition frees (sb : superblock) (g : Z -> list Z) : list nat :=
  filter (fun n => used sb g (Z.of_nat n) = false) (seq 0 (Z.to_nat (sb_size sb))).

Lemma frees_elem sb g n : n ∈ frees sb g <-> (n < Z.to_nat (sb_size sb))%nat /\ used sb g (Z.of_nat n) = false.
Proof. unfold frees. rewrite list_elem_of_filter, elem_of_seq. split; intros [Hx Hy]; (split; [lia || done|lia || done]). Qed.

Lemma frees_NoDup sb g : NoDup (frees sb g).
Proof. apply list.NoDup_filter, NoDup_seq. Qed.

(** The lowest free block. *)
Lemma lowest_free sb g :
  (0 < length (frees sb g))%nat ->
  exists b, 0 <= b < sb_size sb /\ used sb g b = false /\ (forall c, 0 <= c < b -> used sb g c = true).
Proof.
  intros Hl. destruct (find_from (fun n => negb (used sb g (Z.of_nat n))) 0 (seq 0 (Z.to_nat (sb_size sb)))) as [n|] eqn:E.
  - apply find_from_Some in E as (x & Hx & Hu & Hb). apply lookup_seq in Hx as [-> Hn]. simpl in *.
    apply negb_true_iff in Hu. exists (Z.of_nat n). split_and!; [lia|lia|done|]. intros c Hc.
    specialize (Hb (Z.to_nat c) (Z.to_nat c) ltac:(lia)). rewrite lookup_seq_lt in Hb by lia.
    specialize (Hb eq_refl). apply negb_false_iff in Hb. by rewrite Z2Nat.id in Hb by lia.
  - exfalso. destruct (frees sb g) as [|n l] eqn:Ef; [simpl in Hl; lia|].
    assert (n ∈ frees sb g) as Hin by (rewrite Ef; set_solver). apply frees_elem in Hin as [Hn Hu].
    pose proof (proj1 (find_from_None _ _) E n n) as Hf. rewrite lookup_seq_lt in Hf by done.
    specialize (Hf eq_refl). simpl in Hf. rewrite Hu in Hf. done.
Qed.

Lemma frees_alloc sb g g' b :
  0 <= b < sb_size sb -> used sb g b = false ->
  (forall c, 0 <= c < sb_size sb -> used sb g' c = (c =? b) || used sb g c) ->
  length (frees sb g) = S (length (frees sb g')).
Proof.
  intros Hb Hf Hu. assert (frees sb g ≡ₚ Z.to_nat b :: frees sb g') as ->; [|done].
  apply NoDup_Permutation; [apply frees_NoDup| |].
  - apply list.NoDup_cons. split; [|apply frees_NoDup]. rewrite frees_elem, Z2Nat.id by lia.
    rewrite Hu, Z.eqb_refl by lia. intros [_ ?]. done.
  - intros n. rewrite elem_of_cons, !frees_elem. destruct (decide (n < Z.to_nat (sb_size sb))%nat) as [Hn|Hn].
    + rewrite Hu by lia. destruct (Z.eqb_spec (Z.of_nat n) b) as [E|E]; simpl.
      * split; [intros _; left; lia|]. intros _. split; [done|]. by rewrite E.
      * split; [tauto|]. intros [->|?]; [rewrite Z2Nat.id in E by lia; done|done].
    + split; [lia|]. intros [->|?]; lia.
Qed.

(** ** The state around a file *)

Record fsx (s : kst) (start : Z) (f g : Z -> list Z) (bl : list Z) (i : nat) (ip : inode) : Prop := {
  fx_tx : tx s start f g bl [];
  fx_ly : layout s start g;
  fx_inj : bmap_inj (k_sb s);
  fx_zero : used (k_sb s) g 0 = true;
  fx_ip : k_icache s !! i = Some ip;
  fx_dev : i_dev ip = 1;
  fx_len : length (i_addrs ip) = Z.to_nat (NDIRECT + 1);
  fx_ino : ino_ok (k_sb s) start g ip
}.

(** From [g] and [ip] to [g'] and [ip']: blocks were added to the file, at most [m] of
    them, and at most [n] blocks to the log; no contents changed. *)
Record grown (s : kst) (start : Z) (g : Z -> list Z) (bl : list Z) (ip : inode)
    (s' : kst) (g' : Z -> list Z) (bl' : list Z) (ip' : inode) (n m : nat) : Prop := {
  gr_content k : 0 <= k < MAXFILE -> content g' ip' k = content g ip k;
  gr_addr k : 0 <= k < MAXFILE -> addr_of g ip k <> 0 -> addr_of g' ip' k = addr_of g ip k;
  gr_meta : ip' = ip <| i_addrs := i_addrs ip' |>;
  gr_sb : k_sb s' = k_sb s;
  gr_disk : k_disk s' = k_disk s;
  gr_log : (length bl' <= length bl + n)%nat;
  gr_free : (length (frees (k_sb s) g) <= length (frees (k_sb s) g') + m)%nat;
  gr_other b : owned (k_sb s) start g b -> b <> ind_addr ip -> g' b = g b;
  gr_owned b : owned (k_sb s) start g b -> owned (k_sb s) start g' b;
  gr_by b : bystander (k_sb s) start g ip b -> bystander (k_sb s) start g' ip' b
}.

Lemma file_grown_refl s start g bl ip : grown s start g bl ip s g bl ip 0 0.
Proof. constructor; auto; try lia. by destruct ip. Qed.

Lemma file_grown_trans s start g bl ip s1 g1 bl1 ip1 s2 g2 bl2 ip2 n1 m1 n2 m2 :
  ind_addr ip1 = ind_addr ip \/ (forall b, owned (k_sb s) start g b -> b <> ind_addr ip1) ->
  grown s start g bl ip s1 g1 bl1 ip1 n1 m1 -> grown s1 start g1 bl1 ip1 s2 g2 bl2 ip2 n2 m2 ->
  grown s start g bl ip s2 g2 bl2 ip2 (n1 + n2) (m1 + m2).
Proof.
  intros Hi [C1 A1 M1 S1 D1 L1 F1 O1 W1 B1] [C2 A2 M2 S2 D2 L2 F2 O2 W2 B2]. rewrite S1 in *. constructor; auto; try lia.
  - intros k Hk. by rewrite C2, C1.
  - intros k Hk Hnz. rewrite A2; [by apply A1|done|]. by rewrite A1.
  - rewrite M2 at 1. rewrite M1 at 1. by destruct ip.
  - by rewrite D2.
  - intros b Hb Hne. rewrite O2; [by apply O1|by apply W1|].
    destruct Hi as [->|Hi]; [done|]. by apply Hi.
Qed.

Lemma get32_zeros k : get32 zeros k = 0.
Proof.
  assert (forall j, nth j zeros 0 = 0) as E.
  { intros j. rewrite nth_lookup. unfold zeros. destruct (decide (j < Z.to_nat BSIZE)%nat).
    - by rewrite lookup_replicate_2.
    - by rewrite lookup_ge_None_2 by (rewrite length_replicate; lia). }
  unfold get32. by rewrite !E.
Qed.

Section Alloc.
Context (s : kst) (start : Z) (g : Z -> list Z) (b : Z).
Context (L : layout s start g) (Hinj : bmap_inj (k_sb s)).
Context (Hb : 0 <= b < sb_size (k_sb s)) (Hf : used (k_sb s) g b = false).

Lemma alloc_keep c : owned (k_sb s) start g c -> alloc_g (k_sb s) b g c = g c.
Proof.
  intros (_ & Hu & _ & Hbm & _). unfold alloc_g. rewrite !upd_blk_ne; [done| |congruence].
  apply not_eq_sym. by apply Hbm.
Qed.

Lemma alloc_owned c : owned (k_sb s) start g c -> owned (k_sb s) start (alloc_g (k_sb s) b g) c.
Proof.
  intros Hown. pose proof Hown as (Hr & Hu & Ho & Hbm & Hl). split_and!; try done; try lia.
  - rewrite (used_alloc s start) by done. by rewrite Hu, orb_true_r.
  - by rewrite alloc_keep.
Qed.

Lemma alloc_new : alloc_g (k_sb s) b g b = zeros.
Proof. unfold alloc_g. by rewrite upd_blk_eq. Qed.
End Alloc.

Lemma nth_addrs ip k j a :
  (k < length (i_addrs ip))%nat ->
  nth j (i_addrs (ip <| i_addrs ::= <[k := a]> |>)) 0 = if (j =? k)%nat then a else nth j (i_addrs ip) 0.
Proof. intros Hk. simpl. by apply nth_insert. Qed.

(** The places of a file when a direct block, or the indirect one, has been added. *)
Lemma place_direct s start g ip b bn :
  layout s start g -> bmap_inj (k_sb s) -> 0 <= b < sb_size (k_sb s) -> used (k_sb s) g b = false -> b <> 0 ->
  ino_ok (k_sb s) start g ip -> length (i_addrs ip) = Z.to_nat (NDIRECT + 1) -> 0 <= bn <= NDIRECT ->
  nth (Z.to_nat bn) (i_addrs ip) 0 = 0 ->
  forall k, -2 <= k < MAXFILE ->
  place (k_sb s) (alloc_g (k_sb s) b g) (ip <| i_addrs ::= <[Z.to_nat bn := b]> |>) k =
  if k =? (if bn =? NDIRECT then -1 else bn) then b else place (k_sb s) g ip k.
Proof.
  intros L Hinj Hb Hf Hb0 I Hlen Hbn Hz k Hk. change (Z.to_nat (NDIRECT + 1)) with 13%nat in Hlen.
  change NDIRECT with 12 in *. change MAXFILE with 140 in *. unfold place, addr_of, ind_addr.
  change NDIRECT with 12. rewrite !nth_addrs by (rewrite Hlen; lia). change (Z.to_nat 12) with 12%nat.
  destruct (Z.eqb_spec bn 12) as [->|Hbn12].
  - change (Z.to_nat 12) with 12%nat in *. rewrite Nat.eqb_refl.
    destruct (Z.eqb_spec k (-1)) as [->|Hk1]; [done|].
    destruct (Z.eqb_spec k (-2)) as [->|Hk2]; [done|]. destruct (Z.ltb_spec k 12) as [Hlt|Hge].
    + by rewrite (proj2 (Nat.eqb_neq _ _)) by lia.
    + rewrite (proj2 (Z.eqb_neq b 0)) by done. rewrite alloc_new, get32_zeros. by rewrite Hz.
  - rewrite (proj2 (Nat.eqb_neq 12 _)) by lia. destruct (Z.eqb_spec k (-2)) as [->|Hk2].
    { by rewrite (proj2 (Z.eqb_neq _ _)) by lia. }
    destruct (Z.eqb_spec k (-1)) as [->|Hk1]; [by rewrite (proj2 (Z.eqb_neq _ _)) by lia|].
    destruct (Z.ltb_spec k 12) as [Hlt|Hge].
    + destruct (Z.eqb_spec k bn) as [->|Hne]; [by rewrite Nat.eqb_refl|].
      by rewrite (proj2 (Nat.eqb_neq _ _)) by lia.
    + rewrite (proj2 (Z.eqb_neq k bn)) by lia. destruct (Z.eqb_spec (nth 12 (i_addrs ip) 0) 0) as [|Hnz]; [done|].
      rewrite (alloc_keep s start g b); auto.
      apply (io_owned _ _ _ _ I (-1)); [change MAXFILE with 140; lia|exact Hnz].
Qed.

Lemma place_addr sb g ip k : 0 <= k -> place sb g ip k = addr_of g ip k.
Proof. intros Hk. unfold place. by rewrite !(proj2 (Z.eqb_neq _ _)) by lia. Qed.

(** The contents are what they were. *)
Lemma content_alloc s start g ip b g' ip' k0 :
  ino_ok (k_sb s) start g ip -> b <> 0 -> g' b = zeros ->
  (forall c, owned (k_sb s) start g c -> c <> ind_addr ip -> g' c = g c) ->
  (forall k, -2 <= k < MAXFILE -> place (k_sb s) g' ip' k = if k =? k0 then b else place (k_sb s) g ip k) ->
  (0 <= k0 -> addr_of g ip k0 = 0) ->
  forall k, 0 <= k < MAXFILE ->
    content g' ip' k = content g ip k /\ (addr_of g ip k <> 0 -> addr_of g' ip' k = addr_of g ip k).
Proof.
  intros I Hb0 Hnew Hkeep Hp Hz k Hk. pose proof (Hp k ltac:(lia)) as Hpk. rewrite !place_addr in Hpk by lia.
  unfold content. rewrite Hpk. destruct (Z.eqb_spec k k0) as [->|Hne].
  - rewrite (proj2 (Z.eqb_neq b 0)) by done. rewrite Hz, Z.eqb_refl, Hnew by lia. split; [done|]. intros; done.
  - split; [|done]. destruct (Z.eqb_spec (addr_of g ip k) 0) as [|Hnz]; [done|].
    rewrite <- (place_addr (k_sb s)) in * by lia. apply Hkeep.
    + by apply (io_owned _ _ _ _ I); [lia|].
    + change (ind_addr ip) with (place (k_sb s) g ip (-1)). apply (io_apart _ _ _ _ I); auto; lia.
Qed.

Lemma tx_inode s start f g bl h i fn : tx s start f g bl h -> tx (with_inode i fn s) start f g bl h.
Proof. intros [R Hlh Hat Hok Hsz Hout]. constructor; assumption. Qed.

Lemma layout_inode s start g i fn : layout s start g -> layout (with_inode i fn s) start g.
Proof. intros [H1 H2 H3 H4 H5]. constructor; assumption. Qed.

Lemma get_inode_run i ip s : k_icache s !! i = Some ip -> get_inode i s = Ok ip s.
Proof. intros H. unfold get_inode, nth_ok, inodes. mstep. by rewrite H. Qed.

Lemma inode_set i fn ip s : k_icache s !! i = Some ip -> k_icache (with_inode i fn s) !! i = Some (fn ip).
Proof. intros H. unfold with_inode. simpl. by rewrite list_lookup_alter_eq, H. Qed.

Lemma nth_ok_run (A : Type) (msg : string) (l : list A) k x (s : kst) : l !! k = Some x -> nth_ok msg l k s = Ok x s.
Proof. intros H. unfold nth_ok. by rewrite H. Qed.

Lemma lookup_nth (l : list Z) k : (k < length l)%nat -> l !! k = Some (nth k l 0).
Proof. intros Hk. rewrite nth_lookup. destruct (lookup_lt_is_Some_2 l k Hk) as [x ->]. done. Qed.

(** A file that has gained block [b]. *)
Lemma fsx_grown s start f g bl i ip s' g' bl' ip' k0 b n :
  fsx s start f g bl i ip -> 0 <= b < sb_size (k_sb s) -> used (k_sb s) g b = false -> -2 < k0 < MAXFILE ->
  tx s' start f g' bl' [] -> k_sb s' = k_sb s -> k_disk s' = k_disk s -> k_icache s' !! i = Some ip' ->
  layout s start g' -> ip' = ip <| i_addrs := i_addrs ip' |> -> length (i_addrs ip') = length (i_addrs ip) ->
  (forall c, 0 <= c < sb_size (k_sb s) -> used (k_sb s) g' c = (c =? b) || used (k_sb s) g c) ->
  (forall k, -2 <= k < MAXFILE -> place (k_sb s) g' ip' k = if k =? k0 then b else place (k_sb s) g ip k) ->
  (0 <= k0 -> addr_of g ip k0 = 0) -> g' b = zeros ->
  (forall c, owned (k_sb s) start g c -> length (g' c) = Z.to_nat BSIZE) ->
  (forall c, owned (k_sb s) start g c -> c <> ind_addr ip -> g' c = g c) ->
  (length bl' <= length bl + n)%nat ->
  fsx s' start f g' bl' i ip' /\ grown s start g bl ip s' g' bl' ip' n 1.
Proof.
  intros [T L Hinj H0 Hip Hdev Hlen I] Hb Hf Hk0 T' Esb Edk Hip' L' Em Hlen' Hu Hp Hz Hnew Hl Hkeep Hlog.
  assert (b <> 0) as Hb0 by (intros ->; congruence).
  assert (layout s' start g') as L''.
  { destruct L' as [H1 H2 H3 H4 H5]. constructor; unfold blk_ok in *; rewrite ?Esb, ?Edk; auto. }
  assert (forall c, owned (k_sb s) start g c -> owned (k_sb s) start g' c) as Hown'.
  { intros c Hc. pose proof Hc as (Hr & Hused & Hout & Hbm & _). split_and!; try done; try lia; [|by apply Hl].
    by rewrite Hu, Hused, orb_true_r. }
  pose proof (content_alloc s start g ip b g' ip' k0 I Hb0 Hnew Hkeep Hp Hz) as HC. split.
  - constructor; rewrite ?Esb; auto.
    + rewrite Hu, H0 by lia. apply orb_true_r.
    + by rewrite Em.
    + by rewrite Hlen'.
    + apply (ino_assign (k_sb s) start g ip g' ip' k0 b); auto.
      * by rewrite Hnew.
      * by apply (ly_log _ _ _ L).
      * intros c Hc. apply not_eq_sym. by apply (ly_meta _ _ _ L).
  - constructor; auto.
    + intros k Hk. by apply HC.
    + intros k Hk. by apply HC.
    + rewrite (frees_alloc (k_sb s) g g' b) by done. lia.
    + intros c [Hc Hpc]. split; [by apply Hown'|]. intros k Hk. rewrite Hp by lia.
      destruct (k =? k0); [|by apply Hpc]. intros ->. destruct Hc as (_ & Hused & _). congruence.
Qed.

Section Driver.
Context `{BlockDriverOk}.

Lemma balloc_low s start f g bl h :
  tx s start f g bl h -> layout s start g -> unheld s g h -> (0 < length (frees (k_sb s) g))%nat ->
  (length bl + length h + 2 < Z.to_nat LOGSIZE)%nat ->
  exists b s' bl', balloc 1 s = Ok b s' /\ 0 <= b < sb_size (k_sb s) /\ used (k_sb s) g b = false /\
    tx s' start f (alloc_g (k_sb s) b g) bl' h /\ tx_frame s s' /\ (length bl' <= length bl + 2)%nat.
Proof.
  intros T L U Hfr Hl. destruct (lowest_free (k_sb s) g Hfr) as (b & Hb & Hu & Hbefore).
  destruct (balloc_run s start f g bl h b T L U Hl Hb Hu Hbefore) as (s' & E & T' & F').
  eexists b, s', _. split_and!; try done; try lia.
  pose proof (bl_add_length bl (BBLOCK b (k_sb s))). pose proof (bl_add_length (bl_add bl (BBLOCK b (k_sb s))) b). lia.
Qed.

(** [ip->addrs[bn]]: the block there, or one newly allocated. *)
Lemma inode_addr_run s start f g bl i ip bn :
  fsx s start f g bl i ip -> 0 <= bn <= NDIRECT -> (0 < length (frees (k_sb s) g))%nat ->
  (length bl + 2 < Z.to_nat LOGSIZE)%nat ->
  exists a s' g' bl' ip', inode_addr i bn s = Ok a s' /\ fsx s' start f g' bl' i ip' /\
    grown s start g bl ip s' g' bl' ip' 2 1 /\ a <> 0 /\ nth (Z.to_nat bn) (i_addrs ip') 0 = a /\
    (ind_addr ip' = ind_addr ip \/ forall b, owned (k_sb s) start g b -> b <> ind_addr ip').
Proof.
  intros X Hbn Hfr Hl. pose proof X as [T L Hinj Hz0 Hip Hdev Hlen I].
  assert (Z.to_nat bn < length (i_addrs ip))%nat as Hlt.
  { rewrite Hlen. change (Z.to_nat (NDIRECT + 1)) with 13%nat. change NDIRECT with 12 in Hbn. lia. }
  unfold inode_addr. mcall get_inode_run; [|done]. mcall nth_ok_run; [|by apply lookup_nth].
  destruct (Z.eqb_spec (nth (Z.to_nat bn) (i_addrs ip) 0) 0) as [Ez|Hnz].
  - destruct (balloc_low s start f g bl [] T L (unheld_nil s g) Hfr) as (b & s1 & bl1 & E1 & Hb & Hf & T1 & F1 & Hl1); [simpl; lia|].
    rewrite Hdev. mcall E1. set (fn := fun ip : inode => ip <| i_addrs ::= <[Z.to_nat bn := b]> |>).
    assert (b <> 0) as Hb0 by (intros ->; congruence).
    assert (k_icache s1 !! i = Some ip) as Hip1 by (by rewrite (tx_frame_icache _ _ F1)).
    eexists b, (with_inode i fn s1), (alloc_g (k_sb s) b g), bl1, (fn ip). split; [done|].
    assert (forall c, owned (k_sb s) start g c -> alloc_g (k_sb s) b g c = g c) as Hkeep by (intros c Hc; by apply (alloc_keep s start)).
    destruct (fsx_grown s start f g bl i ip (with_inode i fn s1) (alloc_g (k_sb s) b g) bl1 (fn ip)
      (if bn =? NDIRECT then -1 else bn) b 2 X Hb Hf) as [X' G']; auto.
    + change MAXFILE with 140. destruct (Z.eqb_spec bn NDIRECT); [lia|]. change NDIRECT with 12 in *. lia.
    + by apply tx_inode.
    + exact (tx_frame_sb _ _ F1).
    + exact (tx_frame_disk _ _ F1).
    + by apply inode_set.
    + by apply layout_alloc.
    + unfold fn. simpl. apply length_insert.
    + intros c Hc. by apply (used_alloc s start).
    + by apply (place_direct s start).
    + intros Hk. destruct (Z.eqb_spec bn NDIRECT) as [->|Hne]; [lia|]. unfold addr_of.
      rewrite (proj2 (Z.ltb_lt _ _)) by (change NDIRECT with 12 in *; lia). done.
    + apply alloc_new.
    + intros c Hc. rewrite Hkeep by done. apply Hc.
    + assert (ind_addr (fn ip) = if bn =? NDIRECT then b else ind_addr ip) as Eind.
      { unfold ind_addr, fn. rewrite nth_addrs by done. destruct (Z.eqb_spec bn NDIRECT) as [->|Hne]; [by rewrite Nat.eqb_refl|].
        rewrite (proj2 (Nat.eqb_neq _ _)); [done|]. change NDIRECT with 12 in *. lia. }
      split; [exact X'|]. split; [exact G'|]. split; [done|]. split.
      { unfold fn. rewrite nth_addrs by done. by rewrite Nat.eqb_refl. }
      rewrite Eind. destruct (bn =? NDIRECT); [right|by left]. intros c (_ & Hc & _) ->. congruence.
  - exists (nth (Z.to_nat bn) (i_addrs ip) 0), s, g, bl, ip. split; [done|]. split; [done|].
    split; [|by auto]. destruct (file_grown_refl s start g bl ip). constructor; auto; lia.
Qed.

Lemma grown_sub s start g bl ip s' g' bl' ip' n m n' m' :
  grown s start g bl ip s' g' bl' ip' n m -> (n <= n')%nat -> (m <= m')%nat ->
  grown s start g bl ip s' g' bl' ip' n' m'.
Proof. intros [] Hn Hm. constructor; auto; lia. Qed.

(** An entry of the indirect block. *)
Lemma ind_entry g ip bn :
  NDIRECT <= bn -> ind_addr ip <> 0 ->
  addr_of g ip bn = get32 (g (ind_addr ip)) (Z.to_nat (4 * (bn - NDIRECT))).
Proof.
  intros Hbn Hnz. unfold addr_of. rewrite (proj2 (Z.ltb_ge _ _)), (proj2 (Z.eqb_neq _ _)) by lia. done.
Qed.

(** The places of a file when an entry of its indirect block has been set. *)
Lemma place_indirect s start g ip b bn :
  layout s start g -> bmap_inj (k_sb s) -> 0 <= b < sb_size (k_sb s) -> used (k_sb s) g b = false ->
  is_u32 b -> ino_ok (k_sb s) start g ip -> NDIRECT <= bn < MAXFILE -> ind_addr ip <> 0 ->
  let a := ind_addr ip in
  forall k, -2 <= k < MAXFILE ->
  place (k_sb s) (upd_blk (alloc_g (k_sb s) b g) a (put32 (g a) (Z.to_nat (4 * (bn - NDIRECT))) b)) ip k =
  if k =? bn then b else place (k_sb s) g ip k.
Proof.
  intros L Hinj Hb Hf Hub I Hbn Hnz a k Hk. change MAXFILE with 140 in *. change NDIRECT with 12 in *.
  destruct (io_owned _ _ _ _ I (-1) ltac:(change MAXFILE with 140; lia) Hnz) as (_ & _ & _ & _ & Hla).
  change (place (k_sb s) g ip (-1)) with a in Hla. change (Z.to_nat BSIZE) with 512%nat in Hla.
  destruct (Z.lt_ge_cases k 12) as [Hlt|Hge].
  - rewrite (proj2 (Z.eqb_neq k bn)) by lia. unfold place, addr_of. change NDIRECT with 12.
    by rewrite (proj2 (Z.ltb_lt k 12)) by done.
  - rewrite !place_addr by lia. rewrite !ind_entry by done. fold a. rewrite upd_blk_eq. change NDIRECT with 12.
    destruct (Z.eqb_spec k bn) as [->|Hne].
    + rewrite get32_put32_eq by lia. by apply u32_small.
    + rewrite get32_put32_ne by lia. done.
Qed.

Lemma unheld_ind s start g ip j :
  ino_ok (k_sb s) start g ip -> ind_addr ip <> 0 -> unheld s g [(j, ind_addr ip)].
Proof.
  intros I Hnz b Hb. destruct (io_owned _ _ _ _ I (-1) ltac:(change MAXFILE with 140; lia) Hnz) as (_ & Hu & _ & Hbm & _).
  change (place (k_sb s) g ip (-1)) with (ind_addr ip) in *. simpl. rewrite !not_elem_of_cons. split.
  - split; [by apply Hbm|apply not_elem_of_nil].
  - intros Hf. split; [congruence|apply not_elem_of_nil].
Qed.

(** A new entry in the indirect block. *)
Lemma indirect_alloc s start f g bl i ip bn j :
  fsx s start f g bl i ip -> NDIRECT <= bn < MAXFILE -> ind_addr ip <> 0 -> addr_of g ip bn = 0 ->
  (0 < length (frees (k_sb s) g))%nat -> (length bl + 4 < Z.to_nat LOGSIZE)%nat ->
  forall s1, tx s1 start f g bl [(j, ind_addr ip)] -> tx_frame s s1 ->
  exists b s' g' bl',
    (a <- balloc 1 ;; set_data j (fun d => put32 d (Z.to_nat (4 * (bn - NDIRECT))) a) ;; log_write j ;; ret a) s1 = Ok b s' /\
    tx s' start f g' bl' [(j, ind_addr ip)] /\ tx_frame s s' /\
    (forall s2, tx s2 start f g' bl' [] -> tx_frame s s2 ->
      fsx s2 start f g' bl' i ip /\ grown s start g bl ip s2 g' bl' ip 3 1) /\
    b <> 0 /\ addr_of g' ip bn = b /\ ind_addr ip ∈ bl'.
Proof.
  intros X Hbn Hnz Hz Hfr Hl s1 T1 F1. pose proof X as [T L Hinj Hz0 Hip Hdev Hlen I]. set (a := ind_addr ip) in *.
  pose proof (io_owned _ _ _ _ I (-1) ltac:(change MAXFILE with 140; lia) Hnz) as Hown.
  change (place (k_sb s) g ip (-1)) with a in Hown.
  destruct (balloc_low s1 start f g bl [(j, a)] T1) as (b & s2 & bl2 & E2 & Hb & Hf & T2 & F2 & Hl2).
  { by eapply layout_frame. } { eapply unheld_frame; [exact F1|]. by apply (unheld_ind s start g ip). }
  { by rewrite (tx_frame_sb _ _ F1). } { simpl. lia. }
  rewrite (tx_frame_sb _ _ F1) in *. pose proof (tx_frame_trans _ _ _ F1 F2) as F02.
  set (kk := Z.to_nat (4 * (bn - NDIRECT))). assert ((j, a) ∈ [(j, a)]) as Hin by set_solver.
  destruct (tx_set s2 start f _ bl2 _ j a (fun d => put32 d kk b) T2 Hin) as (s3 & E3 & T3 & F3).
  rewrite (alloc_keep s start g b) in T3 by done. pose proof (tx_frame_trans _ _ _ F02 F3) as F03.
  destruct (tx_log_write s3 start f _ bl2 _ j a T3 Hin) as (s4 & E4 & T4 & F4).
  { eapply blk_ok_frame; [exact F03|]. destruct Hown as (Hr & _ & Ho & _). destruct (ly_size _ _ _ L). split; [lia|done]. }
  { lia. }
  set (g' := upd_blk _ a _) in *. pose proof (tx_frame_trans _ _ _ F03 F4) as F04. pose proof (bl_add_length bl2 a).
  assert (is_u32 b) as Hub.
  { pose proof (tx_at _ _ _ _ _ _ T) as (_ & _ & _ & _ & _ & Hs2). destruct (ly_size _ _ _ L). unfold is_u32. lia. }
  pose proof (place_indirect s start g ip b bn L Hinj Hb Hf Hub I Hbn Hnz) as Hp. fold a kk g' in Hp.
  assert (b <> 0) as Hb0 by (intros ->; congruence). assert (b <> a) as Hba by (destruct Hown as (_ & Hu & _); congruence).
  assert (forall c, owned (k_sb s) start g c -> c <> a -> g' c = g c) as Hkeep.
  { intros c Hc Hne. unfold g'. rewrite upd_blk_ne by done. by apply (alloc_keep s start). }
  assert (length (g a) = Z.to_nat BSIZE) as Hla by apply Hown.
  exists b, s4, g', (bl_add bl2 a). split_and!; try done.
  - mcall E2. mcall E3. mcall E4. done.
  - intros s5 T5 F05.
    apply (fsx_grown s start f g bl i ip s5 g' (bl_add bl2 a) ip bn b 3); auto.
    + change NDIRECT with 12 in Hbn. lia.
    + exact (tx_frame_sb _ _ F05).
    + exact (tx_frame_disk _ _ F05).
    + by rewrite (tx_frame_icache _ _ F05).
    + pose proof (layout_alloc s start g b L Hinj Hb Hf) as [L1 L2 L3 L4 L5]. unfold g'.
      assert (forall c d, 0 <= c < sb_size (k_sb s) -> used (k_sb s) (upd_blk (alloc_g (k_sb s) b g) a d) c =
        used (k_sb s) (alloc_g (k_sb s) b g) c) as Hud by (intros c d Hc; apply used_data; by apply Hown).
      constructor; auto.
      * intros c Hc. rewrite upd_blk_ne by (by apply Hown). by apply L3.
      * intros c e Hc Hfc He. rewrite Hud in Hfc by done. by apply L4.
      * intros c Hc Hfc. rewrite Hud in Hfc by done. by apply L5.
    + by destruct ip.
    + intros c Hc. unfold g'. rewrite used_data by (by apply Hown). by apply (used_alloc s start).
    + unfold g'. rewrite upd_blk_ne by done. apply alloc_new.
    + intros c Hc. destruct (Z.eq_dec c a) as [->|Hne]; [|by rewrite Hkeep; [apply Hc|done|done]].
      unfold g'. by rewrite upd_blk_eq, length_put32.
    + lia.
  - rewrite <- (place_addr (k_sb s)) by (change NDIRECT with 12 in Hbn; lia).
    rewrite Hp by (change NDIRECT with 12 in Hbn; lia). by rewrite Z.eqb_refl.
  - apply bl_add_elem. by right.
Qed.

(** [bmap]: the address of block [bn], which is allocated if need be. *)
Lemma bmap_run s start f g bl i ip bn :
  fsx s start f g bl i ip -> 0 <= bn < MAXFILE -> (2 <= length (frees (k_sb s) g))%nat ->
  (length bl + 7 < Z.to_nat LOGSIZE)%nat ->
  exists a s' g' bl' ip', bmap i bn s = Ok a s' /\ fsx s' start f g' bl' i ip' /\
    grown s start g bl ip s' g' bl' ip' 5 2 /\ a <> 0 /\ addr_of g' ip' bn = a.
Proof.
  intros X Hbn Hfr Hl. unfold bmap. destruct (Z.ltb_spec bn NDIRECT) as [Hd|Hd].
  - destruct (inode_addr_run s start f g bl i ip bn X) as (a & s1 & g1 & bl1 & ip1 & E1 & X1 & G1 & Ha & Hn & _); try lia.
    exists a, s1, g1, bl1, ip1. split; [done|]. split; [done|]. split; [eapply (grown_sub _ _ _ _ _ _ _ _ _ 2 1); [exact G1|lia|lia]|].
    split; [done|]. unfold addr_of. by rewrite (proj2 (Z.ltb_lt _ _)).
  - rewrite (proj2 (Z.ltb_lt (bn - NDIRECT) NINDIRECT)) by (unfold MAXFILE in Hbn; lia).
    destruct (inode_addr_run s start f g bl i ip NDIRECT X) as (a & s1 & g1 & bl1 & ip1 & E1 & X1 & G1 & Ha & Hn & Hi1);
      [change NDIRECT with 12; lia|lia|lia|].
    change (nth (Z.to_nat NDIRECT) (i_addrs ip1) 0) with (ind_addr ip1) in Hn.
    pose proof X1 as [T1 L1 Hinj1 Hz1 Hip1 Hdev1 Hlen1 I1]. pose proof (gr_log _ _ _ _ _ _ _ _ _ _ _ G1).
    pose proof (gr_free _ _ _ _ _ _ _ _ _ _ _ G1) as Hfr1. rewrite <- (gr_sb _ _ _ _ _ _ _ _ _ _ _ G1) in Hfr1.
    rewrite <- (gr_sb _ _ _ _ _ _ _ _ _ _ _ G1) in Hfr.
    assert (ind_addr ip1 <> 0) as Hnz by congruence.
    pose proof (io_owned _ _ _ _ I1 (-1) ltac:(change MAXFILE with 140; lia) Hnz) as (Hr & _ & _ & _ & Hla).
    change (place (k_sb s1) g1 ip1 (-1)) with (ind_addr ip1) in *. rewrite Hn in Hr, Hla.
    destruct (tx_peek s1 start f g1 bl1 [] a T1) as (j & s2 & c & s3 & E2 & Ec & Hc & E3 & T3 & F3 & T2 & F2).
    { destruct (ly_size _ _ _ L1). lia. } { apply not_elem_of_nil. } { unfold room. change NBUF with (Z.to_nat LOGSIZE). simpl. lia. }
    mcall E1. mcall get_inode_run; [|done]. rewrite Hdev1. mcall E2. mcall Ec. rewrite Hc.
    pose proof (ind_entry g1 ip1 bn Hd Hnz) as He. rewrite Hn in He. rewrite <- He.
    destruct (Z.eqb_spec (addr_of g1 ip1 bn) 0) as [Ez|Hne].
    + rewrite <- Hn in T2.
      destruct (indirect_alloc s1 start f g1 bl1 i ip1 bn j X1) with (s1 := s2) as (b & s4 & g4 & bl4 & E4 & T4 & F4 & HX & Hb0 & Hadr & Hin);
        try done; [unfold MAXFILE in *; lia|lia|lia|].
      destruct (tx_brelse s4 start f g4 bl4 _ [] j (ind_addr ip1) T4) as (s5 & E5 & T5 & F5); [done|by left|].
      destruct (HX s5 T5 ltac:(eauto using tx_frame_trans)) as [X5 G5].
      exists b, s5, g4, bl4, ip1. mcall E4. mcall E5. split; [done|]. split; [done|].
      split; [exact (file_grown_trans _ _ _ _ _ _ _ _ _ _ _ _ _ 2 1 3 1 Hi1 G1 G5)|]. done.
    + rewrite bind_ret. mcall E3. exists (addr_of g1 ip1 bn), s3, g1, bl1, ip1. split; [done|].
      pose proof (tx_frame_sb _ _ F3) as Esb. pose proof (tx_frame_disk _ _ F3) as Edk.
      split; [|split; [|done]].
      * constructor; rewrite ?Esb; auto; [by eapply layout_frame|by rewrite (tx_frame_icache _ _ F3)].
      * destruct G1. constructor; auto; try lia; congruence.
Qed.

Lemma fsx_frame s s' start f g bl i ip :
  fsx s start f g bl i ip -> tx s' start f g bl [] -> tx_frame s s' -> fsx s' start f g bl i ip.
Proof.
  intros [T L Hinj Hz0 Hip Hdev Hlen I] T' F. pose proof (tx_frame_sb _ _ F) as Esb.
  constructor; rewrite ?Esb; auto; [by eapply layout_frame|by rewrite (tx_frame_icache _ _ F)].
Qed.

(** New contents for a block of the file that is not its indirect block. *)
Lemma place_write sb start g ip k0 d :
  ino_ok sb start g ip -> -2 <= k0 < MAXFILE -> k0 <> -1 -> place sb g ip k0 <> 0 ->
  forall k, -2 <= k < MAXFILE -> place sb (upd_blk g (place sb g ip k0) d) ip k = place sb g ip k.
Proof.
  intros I Hk0 Hne Hnz k Hk. unfold place at 1 3. destruct (k =? -2); [done|]. destruct (k =? -1); [done|].
  unfold addr_of. destruct (k <? NDIRECT); [done|]. destruct (Z.eqb_spec (ind_addr ip) 0) as [|Hi]; [done|].
  rewrite upd_blk_ne; [done|]. change (ind_addr ip) with (place sb g ip (-1)).
  apply (io_apart _ _ _ _ I); auto; change MAXFILE with 140 in *; lia.
Qed.

Lemma fsx_write s start f g bl i ip k0 d s' bl' :
  fsx s start f g bl i ip -> -2 <= k0 < MAXFILE -> k0 <> -1 -> place (k_sb s) g ip k0 <> 0 ->
  length d = Z.to_nat BSIZE ->
  tx s' start f (upd_blk g (place (k_sb s) g ip k0) d) bl' [] -> tx_frame s s' ->
  fsx s' start f (upd_blk g (place (k_sb s) g ip k0) d) bl' i ip.
Proof.
  intros [T L Hinj Hz0 Hip Hdev Hlen I] Hk0 Hne Hnz Hd T' F. pose proof (tx_frame_sb _ _ F) as Esb.
  pose proof (io_owned _ _ _ _ I k0 Hk0 Hnz) as (Hr & Hu & Ho & Hbm & Hl). set (a := place _ g ip k0) in *.
  pose proof (place_write (k_sb s) start g ip k0 d I Hk0 Hne Hnz) as Hp. fold a in Hp.
  assert (forall c, 0 <= c < sb_size (k_sb s) -> used (k_sb s) (upd_blk g a d) c = used (k_sb s) g c) as Hud
    by (intros c Hc; apply used_data; by apply Hbm).
  constructor; rewrite ?Esb; auto.
  - eapply layout_frame; [exact F|]. destruct L as [L1 L2 L3 L4 L5]. constructor; auto.
    + intros c Hc. rewrite upd_blk_ne by (by apply Hbm). by apply L3.
    + intros c e Hc Hfc He. rewrite Hud in Hfc by done. by apply L4.
    + intros c Hc Hfc. rewrite Hud in Hfc by done. by apply L5.
  - rewrite Hud; [done|]. lia.
  - by rewrite (tx_frame_icache _ _ F).
  - constructor.
    + intros k Hk. rewrite (Hp k Hk). intros Hk0'. destruct (io_owned _ _ _ _ I k Hk Hk0') as (Hr' & Hu' & Ho' & Hbm' & Hl').
      split_and!; try done; try lia; [by rewrite Hud|]. destruct (Z.eq_dec (place (k_sb s) g ip k) a) as [E|E].
      * by rewrite E, upd_blk_eq.
      * by rewrite upd_blk_ne.
    + intros k k' Hk Hk' Hkk. rewrite (Hp k Hk), (Hp k' Hk'). by apply (io_apart _ _ _ _ I).
    + rewrite Hp by (change MAXFILE with 140; lia). apply I.
Qed.

(** A block that is there. *)
Lemma bmap_have s start f g bl i ip bn :
  fsx s start f g bl i ip -> 0 <= bn < MAXFILE -> addr_of g ip bn <> 0 -> room bl [] ->
  exists s', bmap i bn s = Ok (addr_of g ip bn) s' /\ fsx s' start f g bl i ip /\ tx_frame s s'.
Proof.
  intros X Hbn Hnz Hr. pose proof X as [T L Hinj Hz0 Hip Hdev Hlen I]. change (Z.to_nat (NDIRECT + 1)) with 13%nat in Hlen.
  unfold bmap. destruct (Z.ltb_spec bn NDIRECT) as [Hd|Hd].
  - exists s. split; [|split; [done|apply tx_frame_refl]]. unfold addr_of in *. rewrite (proj2 (Z.ltb_lt _ _)) in * by done.
    unfold inode_addr. mcall get_inode_run; [|done].
    mcall nth_ok_run; [|apply lookup_nth; change NDIRECT with 12 in *; lia]. by rewrite (proj2 (Z.eqb_neq _ _)).
  - rewrite (proj2 (Z.ltb_lt (bn - NDIRECT) NINDIRECT)) by (unfold MAXFILE in Hbn; lia).
    assert (ind_addr ip <> 0) as Hi.
    { intros E. unfold addr_of in Hnz. rewrite (proj2 (Z.ltb_ge _ _)), E in Hnz by done. done. }
    pose proof (io_owned _ _ _ _ I (-1) ltac:(change MAXFILE with 140; lia) Hi) as (Hrr & _).
    change (place (k_sb s) g ip (-1)) with (ind_addr ip) in *.
    destruct (tx_peek s start f g bl [] (ind_addr ip) T) as (j & s2 & c & s3 & E2 & Ec & Hc & E3 & T3 & F3 & _);
      [destruct (ly_size _ _ _ L); lia|apply not_elem_of_nil|done|].
    exists s3. split; [|split; [by eapply fsx_frame|done]].
    assert (inode_addr i NDIRECT s = Ok (ind_addr ip) s) as E1.
    { unfold inode_addr. mcall get_inode_run; [|done].
      mcall nth_ok_run; [|apply lookup_nth; change NDIRECT with 12; lia].
      change (nth (Z.to_nat NDIRECT) (i_addrs ip) 0) with (ind_addr ip). by rewrite (proj2 (Z.eqb_neq _ _)). }
    mcall E1. mcall get_inode_run; [|done]. rewrite Hdev. mcall E2. mcall Ec. rewrite Hc, <- (ind_entry g ip bn) by done.
    rewrite (proj2 (Z.eqb_neq _ _)) by done. rewrite bind_ret. mcall E3. done.
Qed.
End Driver.
