(* ===== verification/FsFile.v ===== *)
(** * Files as byte arrays

    [readi] returns a slice of the file's bytes; [writei] replaces a slice and extends
    the file; what has been written is what is read. *)

From S2P Require Import Prelude Params State Mem Strings Locks Kalloc Vm Sched Procs Sleeplock Bio BioSpec Log LogDisk LogSpec Trans Fs FsTx FsBlocks FsData.
Import Spin.

(** Byte [p] of the file, and [n] bytes from [off] on. *)
Definition fbyte (g : Z -> list Z) (ip : inode) (p : Z) : Z :=
  nth (Z.to_nat (p mod BSIZE)) (content g ip (p / BSIZE)) 0.

Definition fbytes (g : Z -> list Z) (ip : inode) (off : Z) (n : nat) : list Z :=
  (fun j => fbyte g ip (off + Z.of_nat j)) <$> seq 0 n.

Lemma BSIZE_pos : 0 < BSIZE.
Proof. reflexivity. Qed.

Lemma fbytes_app g ip off n m :
  fbytes g ip off (n + m) = fbytes g ip off n ++ fbytes g ip (off + Z.of_nat n) m.
Proof.
  unfold fbytes. rewrite seq_app, fmap_app. f_equal.
  apply list_eq. intros j. rewrite !list_lookup_fmap.
  destruct (decide (j < m)%nat); [rewrite !lookup_seq_lt by done|rewrite !lookup_seq_ge by lia; done].
  simpl. f_equal. f_equal. lia.
Qed.

(** Positions inside one block. *)
Lemma block_pos off j :
  0 <= off -> 0 <= j -> off mod BSIZE + j < BSIZE ->
  (off + j) / BSIZE = off / BSIZE /\ (off + j) mod BSIZE = off mod BSIZE + j.
Proof.
  intros Ho Hj Hlt. pose proof BSIZE_pos. pose proof (Z.mod_pos_bound off BSIZE BSIZE_pos).
  assert (off + j = BSIZE * (off / BSIZE) + (off mod BSIZE + j)) as E by (pose proof (Z.div_mod off BSIZE); lia).
  split; rewrite E.
  - symmetry. apply (Z.div_unique_pos _ _ _ (off mod BSIZE + j)); lia.
  - symmetry. apply (Z.mod_unique_pos _ _ (off / BSIZE)); lia.
Qed.

Lemma sub_fbytes g ip off m :
  0 <= off -> 0 <= m -> off mod BSIZE + m <= BSIZE -> length (content g ip (off / BSIZE)) = Z.to_nat BSIZE ->
  sub (Z.to_nat (off mod BSIZE)) (Z.to_nat m) (content g ip (off / BSIZE)) = fbytes g ip off (Z.to_nat m).
Proof.
  intros Ho Hm Hfit Hl. pose proof (Z.mod_pos_bound off BSIZE BSIZE_pos). unfold sub, fbytes.
  apply list_eq. intros j. rewrite list_lookup_fmap. destruct (decide (j < Z.to_nat m)%nat) as [Hj|Hj].
  - rewrite lookup_take_lt, lookup_drop, lookup_seq_lt by done. simpl. unfold fbyte.
    destruct (block_pos off (Z.of_nat j)) as [-> ->]; [lia|lia|lia|].
    rewrite lookup_nth by (rewrite Hl; lia). f_equal. f_equal. lia.
  - rewrite lookup_take_ge, lookup_seq_ge by lia. done.
Qed.

Lemma content_length s start f g bl i ip k :
  fsx s start f g bl i ip -> 0 <= k < MAXFILE -> length (content g ip k) = Z.to_nat BSIZE.
Proof.
  intros X Hk. unfold content. destruct (Z.eqb_spec (addr_of g ip k) 0) as [|Hnz]; [done|].
  rewrite <- (place_addr (k_sb s)) in * by lia. by apply (io_owned _ _ _ _ (fx_ino _ _ _ _ _ _ _ X)); [lia|].
Qed.

Lemma block_range p : 0 <= p < MAXFILE * BSIZE -> 0 <= p / BSIZE < MAXFILE.
Proof. intros Hp. pose proof BSIZE_pos. split; [apply Z.div_pos; lia|apply Z.div_lt_upper_bound; lia]. Qed.

(** The blocks of the bytes [off .. off + n - 1] are there. *)
Definition present (g : Z -> list Z) (ip : inode) (off n : Z) : Prop :=
  forall p, off <= p < off + n -> addr_of g ip (p / BSIZE) <> 0.

(** Overwriting part of a block. *)
Lemma splice_length k l d : (k + length l <= length d)%nat -> length (splice k l d) = length d.
Proof. intros Hk. unfold splice. rewrite !length_app, length_take, length_drop. lia. Qed.

Lemma nth_splice k l d j :
  (k + length l <= length d)%nat ->
  nth j (splice k l d) 0 = if ((k <=? j) && (j <? k + length l))%nat then nth (j - k) l 0 else nth j d 0.
Proof.
  intros Hk. unfold splice. destruct (Nat.leb_spec k j) as [H1|H1]; simpl.
  - rewrite app_nth2 by (rewrite length_take; lia). rewrite length_take, Nat.min_l by lia.
    destruct (Nat.ltb_spec j (k + length l)) as [H2|H2]; [by rewrite app_nth1 by lia|].
    rewrite app_nth2 by lia. rewrite !nth_lookup, lookup_drop. do 2 f_equal. lia.
  - rewrite app_nth1 by (rewrite length_take; lia). rewrite !nth_lookup. by rewrite lookup_take_lt by lia.
Qed.

Lemma frees_data sb g a d :
  (forall c, 0 <= c < sb_size sb -> BBLOCK c sb <> a) ->
  length (frees sb (upd_blk g a d)) = length (frees sb g).
Proof.
  intros Hbm. apply Permutation_length, NoDup_Permutation; [apply frees_NoDup|apply frees_NoDup|].
  intros n. rewrite !frees_elem. destruct (decide (n < Z.to_nat (sb_size sb))%nat) as [Hn|Hn]; [|tauto].
  rewrite used_data; [done|]. apply Hbm. lia.
Qed.

(** The bytes of a file after [src] has been written at [off]. *)
Definition written (g : Z -> list Z) (ip : inode) (off : Z) (src : list Z) (p : Z) : Z :=
  if (off <=? p) && (p <? off + Z.of_nat (length src)) then nth (Z.to_nat (p - off)) src 0 else fbyte g ip p.

Section Driver.
Context `{BlockDriverOk} `{Devices}.

Lemma readi_loop_run start f g bl i ip fuel : forall off left s,
  fsx s start f g bl i ip -> room bl [] -> 0 <= off -> 0 <= left <= Z.of_nat fuel ->
  off + left <= MAXFILE * BSIZE -> present g ip off left ->
  exists s', readi_loop fuel i off left s = Ok (fbytes g ip off (Z.to_nat left)) s' /\
    fsx s' start f g bl i ip /\ tx_frame s s'.
Proof.
  induction fuel as [|fuel IH]; intros off left s X Hr Ho Hl Hmax Hp.
  { exists s. replace left with 0 by lia. split; [done|]. split; [done|apply tx_frame_refl]. }
  cbn [readi_loop]. destruct (Z.leb_spec left 0) as [Hle|Hgt].
  { exists s. replace left with 0 by lia. split; [done|]. split; [done|apply tx_frame_refl]. }
  pose proof (Z.mod_pos_bound off BSIZE BSIZE_pos) as Hmod. set (m := Z.min left (BSIZE - off mod BSIZE)).
  assert (0 <= off / BSIZE < MAXFILE) as Hbn by (apply block_range; lia).
  assert (addr_of g ip (off / BSIZE) <> 0) as Hnz by (apply Hp; lia).
  destruct (bmap_have s start f g bl i ip (off / BSIZE) X Hbn Hnz Hr) as (s1 & E1 & X1 & F1).
  pose proof X1 as [T1 L1 Hinj1 Hz1 Hip1 Hdev1 Hlen1 I1].
  pose proof (io_owned _ _ _ _ I1 (off / BSIZE) ltac:(lia)) as Hown. rewrite place_addr in Hown by lia.
  specialize (Hown Hnz). destruct (tx_peek s1 start f g bl [] (addr_of g ip (off / BSIZE)) T1)
    as (j & s2 & c & s3 & E2 & Ec & Hc & E3 & T3 & F3 & _);
    [destruct Hown as (? & _); destruct (ly_size _ _ _ L1); lia|apply not_elem_of_nil|done|].
  pose proof (fsx_frame _ _ _ _ _ _ _ _ X1 T3 F3) as X3.
  destruct (IH (off + m) (left - m) s3 X3 Hr) as (s4 & E4 & X4 & F4);
    [unfold m; lia|unfold m; lia|lia|intros p Hpp; apply Hp; unfold m in *; lia|].
  exists s4. mcall E1. mcall get_inode_run; [|done]. rewrite Hdev1. mcall E2. mcall Ec. mcall E3. mcall E4.
  split; [|split; [done|eauto using tx_frame_trans]]. unfold ret. f_equal.
  rewrite Hc. assert (g (addr_of g ip (off / BSIZE)) = content g ip (off / BSIZE)) as ->.
  { unfold content. by rewrite (proj2 (Z.eqb_neq _ _)). }
  fold m. rewrite sub_fbytes by (unfold m; try lia; by apply (content_length s start f g bl i)).
  replace (off + m) with (off + Z.of_nat (Z.to_nat m)) by (unfold m; lia). rewrite <- fbytes_app. f_equal.
  unfold m. lia.
Qed.

(** [readi] returns the bytes asked for, up to the end of the file. *)
Lemma readi_run s start f g bl i ip off n :
  fsx s start f g bl i ip -> room bl [] -> i_type ip <> T_DEV -> 0 <= off -> 0 <= n -> is_u32 (off + n) ->
  i_size ip <= MAXFILE * BSIZE -> present g ip 0 (i_size ip) ->
  exists s', readi i off n s = Ok (if i_size ip <? off then None
      else Some (fbytes g ip off (Z.to_nat (Z.min n (i_size ip - off))))) s' /\
    fsx s' start f g bl i ip /\ tx_frame s s'.
Proof.
  intros X Hr Ht Ho Hn Hu Hmax Hp. unfold readi. mcall get_inode_run; [|apply X].
  rewrite (proj2 (Z.eqb_neq _ _)) by done. rewrite u32_small by done.
  rewrite (proj2 (Z.ltb_ge (off + n) off)) by lia. rewrite orb_false_r.
  destruct (Z.ltb_spec (i_size ip) off) as [Hlt|Hge].
  { exists s. split; [done|]. split; [done|apply tx_frame_refl]. }
  set (k := if i_size ip <? off + n then i_size ip - off else n).
  assert (k = Z.min n (i_size ip - off)) as Ek by (unfold k; destruct (Z.ltb_spec (i_size ip) (off + n)); lia).
  destruct (readi_loop_run start f g bl i ip (Z.to_nat k) off k s X Hr Ho) as (s1 & E1 & X1 & F1);
    [lia|lia|intros p Hpp; apply Hp; lia|].
  exists s1. mcall E1. rewrite Ek. done.
Qed.

(** The bystanders are as they were, and bystanders still. *)
Definition keeps (sb : superblock) (start : Z) (g : Z -> list Z) (ip : inode) (g' : Z -> list Z) (ip' : inode) : Prop :=
  forall b, bystander sb start g ip b -> bystander sb start g' ip' b /\ g' b = g b.

Lemma grown_keeps s start g bl ip s' g' bl' ip' n m :
  grown s start g bl ip s' g' bl' ip' n m -> keeps (k_sb s) start g ip g' ip'.
Proof.
  intros G b [Hb Hp]. split; [by apply G|]. apply G; [done|]. apply not_eq_sym. apply (Hp (-1)). change MAXFILE with 140. lia.
Qed.

Lemma bystander_upd sb start g ip k0 d b :
  ino_ok sb start g ip -> -2 <= k0 < MAXFILE -> k0 <> -1 -> place sb g ip k0 <> 0 -> length d = Z.to_nat BSIZE ->
  bystander sb start g ip b -> bystander sb start (upd_blk g (place sb g ip k0) d) ip b.
Proof.
  intros I Hk0 Hne Hnz Hd [(Hr & Hu & Ho & Hbm & Hl) Hp]. split.
  - split_and!; try done; try lia.
    + rewrite used_data; [done|]. by apply (io_owned _ _ _ _ I k0 Hk0 Hnz).
    + unfold upd_blk. by destruct (_ =? _).
  - intros k Hk. rewrite (place_write sb start g ip k0 d) by (done || lia). by apply Hp.
Qed.

(** One round of [writei]: the block is found or allocated, and part of it replaced. *)
Lemma write_round s start f g bl i ip off chunk :
  fsx s start f g bl i ip -> 0 <= off -> (0 < length chunk)%nat ->
  off mod BSIZE + Z.of_nat (length chunk) <= BSIZE -> off + Z.of_nat (length chunk) <= MAXFILE * BSIZE ->
  (2 <= length (frees (k_sb s) g))%nat -> (length bl + 7 < Z.to_nat LOGSIZE)%nat ->
  exists s' g' bl' ip',
    (blk <- bmap i (off / BSIZE) ;; ip <- get_inode i ;; bp <- bread (i_dev ip) blk ;;
     set_data bp (splice (Z.to_nat (off mod BSIZE)) chunk) ;; log_write bp ;; brelse bp) s = Ok tt s' /\
    fsx s' start f g' bl' i ip' /\ ip' = ip <| i_addrs := i_addrs ip' |> /\
    k_sb s' = k_sb s /\ k_disk s' = k_disk s /\
    (forall p, 0 <= p < MAXFILE * BSIZE -> fbyte g' ip' p = written g ip off chunk p) /\
    (forall k, 0 <= k < MAXFILE -> addr_of g ip k <> 0 \/ k = off / BSIZE -> addr_of g' ip' k <> 0) /\
    (length bl' <= length bl + 6)%nat /\ (length (frees (k_sb s) g) <= length (frees (k_sb s) g') + 2)%nat /\
    keeps (k_sb s) start g ip g' ip'.
Proof.
  intros X Ho Hlen Hfit Hmax Hfr Hl. pose proof (Z.mod_pos_bound off BSIZE BSIZE_pos) as Hmod. set (bn := off / BSIZE) in *.
  assert (0 <= bn < MAXFILE) as Hbn by (apply block_range; lia).
  destruct (bmap_run s start f g bl i ip bn X Hbn Hfr Hl) as (a & s1 & g1 & bl1 & ip1 & E1 & X1 & G1 & Ha & Hadr).
  pose proof X1 as [T1 L1 Hinj1 Hz1 Hip1 Hdev1 Hlen1 I1]. pose proof G1 as [C1 A1 M1 S1 D1 Lg1 F1 O1 W1 _].
  assert (place (k_sb s1) g1 ip1 bn = a) as Hpl by (by rewrite place_addr by lia).
  pose proof (io_owned _ _ _ _ I1 bn ltac:(lia) ltac:(congruence)) as Hown. rewrite Hpl in Hown.
  assert (blk_ok s1 start a) as Hok.
  { destruct Hown as (? & _ & ? & _). destruct (ly_size _ _ _ L1). split; [lia|done]. }
  destruct (tx_bread s1 start f g1 bl1 [] a T1 (proj1 Hok)) as (j & s2 & E2 & T2 & F2);
    [apply not_elem_of_nil|unfold room; change NBUF with (Z.to_nat LOGSIZE); simpl; lia|].
  destruct (tx_modify s2 start f g1 bl1 _ [] j a (splice (Z.to_nat (off mod BSIZE)) chunk) T2) as (s3 & E3 & T3 & F3);
    [done|by eapply blk_ok_frame|lia|].
  pose proof (tx_frame_trans _ _ _ F2 F3) as F13. pose proof (bl_add_length bl1 a).
  assert (length (g1 a) = Z.to_nat BSIZE) as Hga by apply Hown.
  set (d := splice _ chunk (g1 a)) in *.
  assert (length d = Z.to_nat BSIZE) as Hd by (unfold d; rewrite splice_length; [done|rewrite Hga; lia]).
  rewrite <- Hpl in T3.
  pose proof (fsx_write s1 start f g1 bl1 i ip1 bn d s3 _ X1 ltac:(lia) ltac:(lia) ltac:(congruence) Hd T3 F13) as X3.
  rewrite Hpl in *. pose proof (place_write (k_sb s1) start g1 ip1 bn d I1 ltac:(lia) ltac:(lia) ltac:(congruence)) as Hpw.
  rewrite Hpl in Hpw.
  assert (forall k, 0 <= k < MAXFILE -> addr_of (upd_blk g1 a d) ip1 k = addr_of g1 ip1 k) as Haddr.
  { intros k Hk. rewrite <- !(place_addr (k_sb s1)) by lia. apply Hpw. lia. }
  assert (forall k, 0 <= k < MAXFILE -> content (upd_blk g1 a d) ip1 k = if k =? bn then d else content g ip k) as Hcont.
  { intros k Hk. rewrite <- C1 by done. unfold content. rewrite Haddr by done. destruct (Z.eqb_spec k bn) as [->|Hne].
    - rewrite Hadr, (proj2 (Z.eqb_neq a 0)), upd_blk_eq by done. done.
    - destruct (Z.eqb_spec (addr_of g1 ip1 k) 0) as [|Hnz]; [done|]. rewrite upd_blk_ne; [done|].
      rewrite <- (place_addr (k_sb s1)) in * by lia. rewrite <- Hpl. apply (io_apart _ _ _ _ I1); auto; lia. }
  exists s3, (upd_blk g1 a d), (bl_add bl1 a), ip1. split_and!; try done.
  - mcall E1. mcall get_inode_run; [|done]. rewrite Hdev1. mcall E2. exact E3.
  - by rewrite (tx_frame_sb _ _ F13).
  - by rewrite (tx_frame_disk _ _ F13).
  - intros p Hp. pose proof (block_range p Hp) as Hpb. unfold fbyte at 1, written. rewrite Hcont by done.
    destruct (Z.eqb_spec (p / BSIZE) bn) as [E|E].
    + unfold d. rewrite nth_splice by (rewrite Hga; lia).
      assert (g1 a = content g ip bn) as Eg by (rewrite <- C1 by done; unfold content; rewrite Hadr; by rewrite (proj2 (Z.eqb_neq a 0))).
      pose proof (Z.div_mod off BSIZE). pose proof (Z.div_mod p BSIZE). pose proof (Z.mod_pos_bound p BSIZE BSIZE_pos). pose proof BSIZE_pos.
      assert (p mod BSIZE - off mod BSIZE = p - off) as Epo by (unfold bn in E; lia).
      destruct (Z.leb_spec off p), (Z.ltb_spec p (off + Z.of_nat (length chunk))); simpl;
        destruct (Nat.leb_spec (Z.to_nat (off mod BSIZE)) (Z.to_nat (p mod BSIZE))),
          (Nat.ltb_spec (Z.to_nat (p mod BSIZE)) (Z.to_nat (off mod BSIZE) + length chunk)); simpl; try lia;
        try (unfold fbyte; rewrite E, Eg; done). f_equal. lia.
    + destruct (Z.leb_spec off p), (Z.ltb_spec p (off + Z.of_nat (length chunk))); simpl; try done.
      exfalso. apply E. unfold bn. destruct (block_pos off (p - off)) as [<- _]; [lia|lia|lia|]. f_equal. lia.
  - intros k Hk Hor. rewrite Haddr by done. destruct Hor as [Hnz| ->]; [by rewrite A1|by rewrite Hadr].
  - lia.
  - rewrite frees_data; [done|]. rewrite <- S1. apply Hown.
  - intros b Hb. destruct (grown_keeps _ _ _ _ _ _ _ _ _ _ _ G1 b Hb) as [Hb1 <-]. rewrite <- S1 in Hb1 |- *. split.
    + rewrite <- Hpl. apply bystander_upd; auto; [lia|lia|congruence].
    + apply upd_blk_ne. apply not_eq_sym. rewrite <- Hpl. apply Hb1. lia.
Qed.

(** The rounds a write takes. *)
Definition rounds (off : Z) (src : list Z) (nb : nat) : Prop :=
  src = [] \/ off mod BSIZE + Z.of_nat (length src) <= BSIZE * Z.of_nat nb.

Lemma rounds_next off src nb m :
  0 <= off -> m = Z.min (Z.of_nat (length src)) (BSIZE - off mod BSIZE) -> rounds off src (S nb) ->
  rounds (off + m) (drop (Z.to_nat m) src) nb.
Proof.
  intros Ho Em Hr. pose proof (Z.mod_pos_bound off BSIZE BSIZE_pos) as Hmod.
  destruct (Z.le_gt_cases (Z.of_nat (length src)) m) as [Hle|Hgt]; [left; apply drop_ge; lia|].
  destruct Hr as [->|Hr]; [left; apply drop_nil|]. right. rewrite length_drop.
  assert (m = BSIZE - off mod BSIZE) as -> by lia.
  replace (off + (BSIZE - off mod BSIZE)) with ((off / BSIZE + 1) * BSIZE) by (pose proof (Z.div_mod off BSIZE); pose proof BSIZE_pos; lia).
  rewrite Z.mod_mul by discriminate. lia.
Qed.

Lemma written_app g ip g' ip' off src m p :
  (m <= length src)%nat -> fbyte g' ip' p = written g ip off (take m src) p ->
  written g' ip' (off + Z.of_nat m) (drop m src) p = written g ip off src p.
Proof.
  intros Hm Hf. unfold written in *. rewrite length_drop, Hf. rewrite length_take, Nat.min_l by done.
  destruct (Z.leb_spec (off + Z.of_nat m) p), (Z.ltb_spec p (off + Z.of_nat m + Z.of_nat (length src - m))),
    (Z.leb_spec off p), (Z.ltb_spec p (off + Z.of_nat m)), (Z.ltb_spec p (off + Z.of_nat (length src)));
    simpl; try lia; try done.
  - rewrite !nth_lookup, lookup_drop. do 2 f_equal. lia.
  - rewrite !nth_lookup, lookup_take_lt by lia. done.
Qed.

(** [src] has been written at [off], at the price of [n] blocks of the log. *)
Record wrote_at (s : kst) (start : Z) (f g : Z -> list Z) (bl : list Z) (i : nat) (ip : inode) (off : Z) (src : list Z)
    (s' : kst) (g' : Z -> list Z) (bl' : list Z) (ip' : inode) (n : nat) : Prop := {
  wa_fsx : fsx s' start f g' bl' i ip';
  wa_meta : ip' = ip <| i_addrs := i_addrs ip' |>;
  wa_sb : k_sb s' = k_sb s;
  wa_disk : k_disk s' = k_disk s;
  wa_bytes p : 0 <= p < MAXFILE * BSIZE -> fbyte g' ip' p = written g ip off src p;
  wa_addr k : 0 <= k < MAXFILE -> addr_of g ip k <> 0 -> addr_of g' ip' k <> 0;
  wa_present : present g' ip' off (Z.of_nat (length src));
  wa_log : (length bl' <= length bl + n)%nat;
  wa_keeps : keeps (k_sb s) start g ip g' ip'
}.

Lemma wrote_at_nil s start f g bl i ip off n :
  fsx s start f g bl i ip -> wrote_at s start f g bl i ip off [] s g bl ip n.
Proof.
  intros X. constructor; try done; [by destruct ip| |simpl; intros p; lia|lia].
  intros p Hp. unfold written. simpl. rewrite Z.add_0_r.
  destruct (Z.leb_spec off p), (Z.ltb_spec p off); simpl; try done; lia.
Qed.

(** A round followed by [k]. *)
Lemma round_assoc i off chunk (k : K unit) s :
  (blk <- bmap i (off / BSIZE) ;; ip <- get_inode i ;; bp <- bread (i_dev ip) blk ;;
   set_data bp (splice (Z.to_nat (off mod BSIZE)) chunk) ;; log_write bp ;; brelse bp ;; k) s =
  ((blk <- bmap i (off / BSIZE) ;; ip <- get_inode i ;; bp <- bread (i_dev ip) blk ;;
    set_data bp (splice (Z.to_nat (off mod BSIZE)) chunk) ;; log_write bp ;; brelse bp) ;; k) s.
Proof. unfold bind. repeat (case_match; try done). Qed.

Lemma writei_loop_run start f i fuel : forall nb off src s g bl ip,
  fsx s start f g bl i ip -> (length src <= fuel)%nat -> 0 <= off -> rounds off src nb ->
  off + Z.of_nat (length src) <= MAXFILE * BSIZE ->
  (2 * nb <= length (frees (k_sb s) g))%nat -> (length bl + 6 * nb + 1 < Z.to_nat LOGSIZE)%nat ->
  exists s' g' bl' ip', writei_loop fuel i off src s = Ok tt s' /\
    wrote_at s start f g bl i ip off src s' g' bl' ip' (6 * nb).
Proof.
  induction fuel as [|fuel IH]; intros nb off src s g bl ip X Hfuel Ho Hr Hmax Hfr Hlog.
  { destruct src; [|simpl in Hfuel; lia]. exists s, g, bl, ip. split; [done|by apply wrote_at_nil]. }
  cbn [writei_loop]. destruct src as [|c0 src0] eqn:Esrc; [exists s, g, bl, ip; split; [done|by apply wrote_at_nil]|].
  rewrite <- Esrc in *. assert (0 < length src)%nat as Hpos by (rewrite Esrc; simpl; lia). clear c0 src0 Esrc.
  pose proof (Z.mod_pos_bound off BSIZE BSIZE_pos) as Hmod.
  set (m := Z.min (Z.of_nat (length src)) (BSIZE - off mod BSIZE)).
  destruct nb as [|nb]; [destruct Hr as [->|Hr]; simpl in *; lia|].
  assert (length (take (Z.to_nat m) src) = Z.to_nat m) as Elen by (rewrite length_take; unfold m; lia).
  destruct (write_round s start f g bl i ip off (take (Z.to_nat m) src) X Ho)
    as (s1 & g1 & bl1 & ip1 & E1 & X1 & M1 & S1 & D1 & B1 & A1 & L1 & F1 & K1); rewrite ?Elen; try (unfold m; lia).
  destruct (IH nb (off + m) (drop (Z.to_nat m) src) s1 g1 bl1 ip1 X1)
    as (s2 & g2 & bl2 & ip2 & E2 & [X2 M2 S2 D2 B2 A2 P2 L2 K2]).
  { rewrite length_drop. unfold m. lia. } { unfold m. lia. } { by apply rounds_next. }
  { rewrite length_drop. unfold m. lia. } { rewrite S1. lia. } { lia. }
  exists s2, g2, bl2, ip2. split; [rewrite round_assoc; by mcall E1|]. constructor; try done; try lia; try congruence.
  - rewrite M2 at 1. rewrite M1 at 1. by destruct ip.
  - intros p Hp. rewrite B2 by done. replace m with (Z.of_nat (Z.to_nat m)) at 1 by (unfold m; lia).
    apply written_app; [unfold m; lia|]. by apply B1.
  - intros k Hk Hnz. apply A2; [done|]. apply A1; [done|]. by left.
  - intros p Hp. destruct (Z.lt_ge_cases p (off + m)) as [Hin|Hout].
    + apply A2; [apply block_range; lia|]. apply A1; [apply block_range; lia|]. right.
      destruct (block_pos off (p - off)) as [<- _]; [lia|lia|unfold m in Hin; lia|]. f_equal. lia.
    + apply P2. rewrite length_drop. unfold m in *. lia.
  - intros b Hb. destruct (K1 b Hb) as [Hb1 <-]. rewrite <- S1 in Hb1 |- *. by apply K2.
Qed.

(** ** iupdate *)

Lemma put_words_length d k l : length (put_words d k l) = length d.
Proof. revert d k. induction l as [|a l IH]; intros d k; simpl; [done|]. by rewrite IH, length_put32. Qed.

Lemma store_dinode_length d k ip : length (store_dinode d k ip) = length d.
Proof. unfold store_dinode, put16. by rewrite put_words_length, length_put32, !length_insert. Qed.

Lemma put_words_other d k l j :
  (k + 4 * length l <= length d)%nat -> (j < k \/ k + 4 * length l <= j)%nat -> nth j (put_words d k l) 0 = nth j d 0.
Proof.
  revert d k. induction l as [|a l IH]; intros d k; simpl; [done|]. intros Hk Hj. rewrite IH by (rewrite ?length_put32; lia).
  rewrite nth_put32 by lia. destruct (Nat.leb_spec k j), (Nat.ltb_spec j (k + 4)); simpl; try done; lia.
Qed.

Lemma nth_put16 d k v j : (k + 2 <= length d)%nat ->
  nth j (put16 d k v) 0 = if (j =? k)%nat then byte_of v 0 else if (j =? k + 1)%nat then byte_of v 1 else nth j d 0.
Proof. intros Hk. unfold put16. by rewrite !nth_insert by (rewrite ?length_insert; lia). Qed.

Lemma length_put16 d k v : length (put16 d k v) = length d.
Proof. unfold put16. by rewrite !length_insert. Qed.

Lemma store_other d k ip j : (k + 64 <= length d)%nat -> length (i_addrs ip) = 13%nat ->
  (j < k \/ k + 64 <= j)%nat -> nth j (store_dinode d k ip) 0 = nth j d 0.
Proof.
  intros Hk Hl Hj. unfold store_dinode. rewrite put_words_other by (rewrite ?length_put32, ?length_put16, ?Hl; lia).
  rewrite nth_put32 by (rewrite ?length_put16; lia). rewrite !nth_put16 by (rewrite ?length_put16; lia).
  repeat match goal with |- context [(?a =? ?b)%nat] => rewrite (proj2 (Nat.eqb_neq a b)) by lia end.
  destruct (Nat.leb_spec (k + 8) j), (Nat.ltb_spec j (k + 8 + 4)); simpl; try done; lia.
Qed.

Lemma fbyte_write sb start g ip k0 d p :
  ino_ok sb start g ip -> -2 <= k0 < 0 -> k0 <> -1 -> place sb g ip k0 <> 0 -> 0 <= p < MAXFILE * BSIZE ->
  addr_of (upd_blk g (place sb g ip k0) d) ip (p / BSIZE) = addr_of g ip (p / BSIZE) /\
  fbyte (upd_blk g (place sb g ip k0) d) ip p = fbyte g ip p.
Proof.
  intros I Hk0 Hne Hnz Hp. pose proof (block_range p Hp) as Hb.
  assert (addr_of (upd_blk g (place sb g ip k0) d) ip (p / BSIZE) = addr_of g ip (p / BSIZE)) as Ea.
  { rewrite <- !(place_addr sb) by lia. apply (place_write sb start); auto; lia. }
  split; [done|]. unfold fbyte, content. rewrite Ea. destruct (Z.eqb_spec (addr_of g ip (p / BSIZE)) 0) as [|Hz]; [done|].
  rewrite upd_blk_ne; [done|]. rewrite <- (place_addr sb) in * by lia. apply (io_apart _ _ _ _ I); auto; lia.
Qed.

(** [iupdate] stores the inode in its block and leaves the file's contents alone. *)
Lemma iupdate_run s start f g bl i ip :
  fsx s start f g bl i ip -> (length bl + 1 < Z.to_nat LOGSIZE)%nat ->
  exists s' d, iupdate i s = Ok tt s' /\ length d = Z.to_nat BSIZE /\
    d = store_dinode (g (IBLOCK (i_inum ip) (k_sb s))) (dinode_at (i_inum ip)) ip /\
    fsx s' start f (upd_blk g (place (k_sb s) g ip (-2)) d) (bl_add bl (IBLOCK (i_inum ip) (k_sb s))) i ip /\
    tx_frame s s'.
Proof.
  intros X Hl. pose proof X as [T L Hinj Hz0 Hip Hdev Hlen I].
  pose proof (io_owned _ _ _ _ I (-2) ltac:(change MAXFILE with 140; lia) (io_home _ _ _ _ I)) as Hown.
  change (place (k_sb s) g ip (-2)) with (IBLOCK (i_inum ip) (k_sb s)) in *. set (b := IBLOCK (i_inum ip) (k_sb s)) in *.
  assert (blk_ok s start b) as Hok.
  { destruct Hown as (? & _ & ? & _). destruct (ly_size _ _ _ L). split; [lia|done]. }
  destruct (tx_bread s start f g bl [] b T (proj1 Hok)) as (j & s1 & E1 & T1 & F1);
    [apply not_elem_of_nil|unfold room; change NBUF with (Z.to_nat LOGSIZE); simpl; lia|].
  destruct (tx_modify s1 start f g bl _ [] j b (fun d => store_dinode d (dinode_at (i_inum ip)) ip) T1) as (s2 & E2 & T2 & F2);
    [done|by eapply blk_ok_frame|lia|].
  set (d := store_dinode (g b) (dinode_at (i_inum ip)) ip) in *.
  assert (length d = Z.to_nat BSIZE) as Hd by (unfold d; rewrite store_dinode_length; apply Hown).
  exists s2, d. split_and!; try done.
  - unfold iupdate. mcall get_inode_run; [|done]. mstep. rewrite Hdev. fold b. mcall E1. exact E2.
  - apply (fsx_write s start f g bl i ip (-2) d s2); auto; try (change MAXFILE with 140; lia).
    + apply I.
    + eauto using tx_frame_trans.
  - eauto using tx_frame_trans.
Qed.

(** ** writei *)

Definition resize (z : Z) (ip : inode) : inode := ip <| i_size := z |>.

Lemma fsx_resize s start f g bl i ip z :
  fsx s start f g bl i ip -> fsx (with_inode i (resize z) s) start f g bl i (resize z ip).
Proof.
  intros [T L Hinj Hz0 Hip Hdev Hlen [I1 I2 I3]].
  constructor; first [done|by apply tx_inode|by apply layout_inode|by apply inode_set|by constructor].
Qed.

(** A write to a file changes no block in use but the file's own and, in the block of its
    inode, the 64 bytes of the inode. *)
Definition others_kept (sb : superblock) (start : Z) (g : Z -> list Z) (ip : inode) (g' : Z -> list Z) : Prop :=
  let home := IBLOCK (i_inum ip) sb in
  (forall b, bystander sb start g ip b -> b <> home -> g' b = g b /\ owned sb start g' b) /\
  (forall p, (p < dinode_at (i_inum ip) \/ dinode_at (i_inum ip) + Z.to_nat sizeof_dinode <= p)%nat -> nth p (g' home) 0 = nth p (g home) 0).

(** The file after a write. *)
Definition new_size (ip : inode) (off : Z) (src : list Z) : Z := Z.max (i_size ip) (off + Z.of_nat (length src)).

Lemma home_bystander sb start g ip : ino_ok sb start g ip -> bystander sb start g ip (IBLOCK (i_inum ip) sb).
Proof.
  intros I. pose proof (io_home _ _ _ _ I) as Hnz. change (IBLOCK (i_inum ip) sb) with (place sb g ip (-2)).
  assert (-2 <= -2 < MAXFILE) as Hr by (change MAXFILE with 140; lia).
  split; [by apply (io_owned _ _ _ _ I)|]. intros k Hk. apply not_eq_sym. apply (io_apart _ _ _ _ I); [done|lia|lia|done].
Qed.

Lemma owned_upd sb start g a d b :
  owned sb start g b -> owned sb start g a -> length d = Z.to_nat BSIZE -> owned sb start (upd_blk g a d) b.
Proof.
  intros (Hr & Hu & Ho & Hbm & Hl) (_ & _ & _ & Hbm' & _) Hd. split_and!; try done; try lia.
  - rewrite used_data by (by apply Hbm'). done.
  - unfold upd_blk. by destruct (_ =? _).
Qed.

Lemma dinode_at_fits n : (dinode_at n + 64 <= Z.to_nat BSIZE)%nat.
Proof. unfold dinode_at, sizeof_dinode, BSIZE. pose proof (Z.mod_pos_bound n IPB ltac:(reflexivity)). change IPB with 8 in *. lia. Qed.

Lemma keeps_others sb start g ip g1 ip1 : ino_ok sb start g ip -> keeps sb start g ip g1 ip1 -> others_kept sb start g ip g1.
Proof.
  intros I K. split.
  - intros b Hb _. by destruct (K b Hb) as [[Hb1 _] E].
  - intros p _. by rewrite (proj2 (K _ (home_bystander _ _ _ _ I))).
Qed.

Lemma others_kept_update sb start g ip g1 ip1 ip2 :
  ino_ok sb start g ip -> keeps sb start g ip g1 ip1 -> length (i_addrs ip2) = 13%nat ->
  let home := IBLOCK (i_inum ip) sb in
  others_kept sb start g ip (upd_blk g1 home (store_dinode (g1 home) (dinode_at (i_inum ip)) ip2)).
Proof.
  intros I K Hl home. destruct (K _ (home_bystander _ _ _ _ I)) as [[Hh _] Eh]. fold home in Hh, Eh. split; fold home.
  - intros b Hb Hne. destruct (K b Hb) as [[Hb1 _] <-]. split; [by apply upd_blk_ne|].
    apply owned_upd; [done|done|]. rewrite store_dinode_length. apply Hh.
  - intros p Hp. rewrite upd_blk_eq, store_other; [by rewrite Eh| |done|exact Hp].
    destruct Hh as (_ & _ & _ & _ & ->). apply dinode_at_fits.
Qed.

Lemma writei_run s start f g bl i ip src off nb :
  fsx s start f g bl i ip -> i_type ip <> T_DEV -> 0 <= off <= i_size ip -> (0 < length src)%nat ->
  off + Z.of_nat (length src) <= MAXFILE * BSIZE -> i_size ip <= MAXFILE * BSIZE -> present g ip 0 (i_size ip) ->
  rounds off src nb -> (2 * nb <= length (frees (k_sb s) g))%nat -> (length bl + 6 * nb + 1 < Z.to_nat LOGSIZE)%nat ->
  exists s' g' bl' ip', writei i src off s = Ok (Z.of_nat (length src)) s' /\ fsx s' start f g' bl' i ip' /\
    i_size ip' = new_size ip off src /\ i_type ip' = i_type ip /\ (length bl' <= length bl + 6 * nb + 1)%nat /\
    (forall p, 0 <= p < MAXFILE * BSIZE -> fbyte g' ip' p = written g ip off src p) /\
    present g' ip' 0 (new_size ip off src) /\ others_kept (k_sb s) start g ip g'.
Proof.
  intros X Ht Ho Hpos Hmax Hsz Hpre Hr Hfr Hlog. unfold writei. mcall get_inode_run; [|apply X].
  assert (MAXFILE * BSIZE = 71680) as EM by reflexivity. rewrite EM in *.
  rewrite (proj2 (Z.eqb_neq _ _)) by done. rewrite u32_small by (unfold is_u32; lia).
  rewrite (proj2 (Z.ltb_ge (i_size ip) off)), (proj2 (Z.ltb_ge (off + _) off)) by lia. cbn [orb].
  rewrite (proj2 (Z.ltb_ge 71680 _)) by lia.
  destruct (writei_loop_run start f i (length src) nb off src s g bl ip X) as (s1 & g1 & bl1 & ip1 & E1 & [X1 M1 S1 D1 B1 A1 P1 L1 K1]);
    auto; try lia.
  assert (i_size ip1 = i_size ip) as Es by (by rewrite M1). assert (i_type ip1 = i_type ip) as Et by (by rewrite M1).
  assert (present g1 ip1 0 (new_size ip off src)) as Hp1.
  { intros p Hp. unfold new_size in Hp. destruct (Z.lt_ge_cases p off) as [Hlt|Hge].
    - apply A1; [apply block_range; lia|]. apply Hpre. lia.
    - destruct (Z.lt_ge_cases p (off + Z.of_nat (length src))); [apply P1; lia|].
      apply A1; [apply block_range; lia|]. apply Hpre. lia. }
  mcall E1. mcall get_inode_run; [|apply X1]. rewrite Es, (proj2 (Z.ltb_lt 0 _)) by lia. cbn [andb].
  destruct (Z.ltb_spec (i_size ip) (off + Z.of_nat (length src))) as [Hgrow|Hfits].
  - pose proof (fsx_resize _ _ _ _ _ _ _ (off + Z.of_nat (length src)) X1) as X2.
    destruct (iupdate_run _ start f g1 bl1 i _ X2) as (s3 & d & E3 & Hd & Ed & X3 & F3); [lia|].
    eexists s3, _, _, _. split.
    { unfold when. rewrite bind_assoc. mcall (eq_refl : set_inode i (resize (off + Z.of_nat (length src))) s1 = _).
      mcall E3. done. }
    split; [exact X3|]. pose proof (fx_ino _ _ _ _ _ _ _ X2) as I2. set (ip2 := resize _ ip1) in *.
    pose proof (bl_add_length bl1 (IBLOCK (i_inum ip2) (k_sb (with_inode i (resize (off + Z.of_nat (length src))) s1)))).
    split_and!; [unfold new_size; simpl; lia|done|lia| | |].
    + intros p Hp. destruct (fbyte_write _ start g1 ip2 (-2) d p I2) as [_ ->]; try lia; [apply I2|].
      change (fbyte g1 ip2 p) with (fbyte g1 ip1 p). by apply B1.
    + intros p Hp. destruct (fbyte_write _ start g1 ip2 (-2) d p I2) as [-> _]; try (unfold new_size in Hp; lia); [apply I2|].
      by apply Hp1.
    + change (place (k_sb (with_inode i _ s1)) g1 ip2 (-2)) with (IBLOCK (i_inum ip1) (k_sb s1)).
      rewrite Ed. change (i_inum ip2) with (i_inum ip1). change (k_sb (with_inode i _ s1)) with (k_sb s1).
      assert (i_inum ip1 = i_inum ip) as -> by (by rewrite M1). rewrite S1. apply (others_kept_update _ _ _ _ _ ip1); [apply X|done|apply X1].
  - exists s1, g1, bl1, ip1. split; [done|]. split; [done|]. split_and!; try done; [unfold new_size; lia|lia|].
    apply (keeps_others _ _ _ _ _ ip1); [apply X|done].
Qed.

(** C14. A file is an array of bytes. [writei] at an offset within the file returns the number
    of bytes, leaves the file with the old contents outside the range written and the
    new bytes inside it, and extends the file if the range passes its end; any later
    [readi] returns what the file then holds, the bytes just written in particular. Every
    block in use that is not the file's, one of another file for instance, keeps its
    contents and stays in use, and in the block that holds the file's inode only the bytes
    of that inode change. *)
Theorem writei_readi s start f g bl i ip src off nb :
  fsx s start f g bl i ip -> i_type ip <> T_DEV -> 0 <= off <= i_size ip -> (0 < length src)%nat ->
  off + Z.of_nat (length src) <= MAXFILE * BSIZE -> i_size ip <= MAXFILE * BSIZE -> present g ip 0 (i_size ip) ->
  rounds off src nb -> (2 * nb <= length (frees (k_sb s) g))%nat -> (length bl + 6 * nb + 2 < Z.to_nat LOGSIZE)%nat ->
  exists s' bl' g' ip', writei i src off s = Ok (Z.of_nat (length src)) s' /\ fsx s' start f g' bl' i ip' /\
    others_kept (k_sb s) start g ip g' /\
    (forall pos n, 0 <= pos <= new_size ip off src -> 0 <= n -> is_u32 (pos + n) ->
       exists s'', readi i pos n s' =
         Ok (Some ((fun j => written g ip off src (pos + Z.of_nat j)) <$>
               seq 0 (Z.to_nat (Z.min n (new_size ip off src - pos))))) s'') /\
    (exists s'', readi i off (Z.of_nat (length src)) s' = Ok (Some src) s'').
Proof.
  intros X Ht Ho Hpos Hmax Hsz Hpre Hr Hfr Hlog. assert (MAXFILE * BSIZE = 71680) as EM by reflexivity.
  destruct (writei_run s start f g bl i ip src off nb) as (s1 & g1 & bl1 & ip1 & E1 & X1 & Es & Et & L1 & B1 & P1 & K1);
    auto; try lia.
  assert (forall pos n, 0 <= pos <= new_size ip off src -> 0 <= n -> is_u32 (pos + n) ->
    exists s'', readi i pos n s1 = Ok (Some ((fun j => written g ip off src (pos + Z.of_nat j)) <$>
               seq 0 (Z.to_nat (Z.min n (new_size ip off src - pos))))) s'') as Hread.
  { intros pos n Hp Hn Hu.
    destruct (readi_run s1 start f g1 bl1 i ip1 pos n X1) as (s2 & E2 & _); rewrite ?Es, ?Et; auto; try lia.
    { unfold room. change NBUF with (Z.to_nat LOGSIZE). simpl. lia. } { unfold new_size. lia. }
    exists s2. rewrite E2, Es. rewrite (proj2 (Z.ltb_ge _ _)) by lia. f_equal. f_equal. unfold fbytes.
    apply list_fmap_ext. intros j x Hx. apply lookup_seq in Hx as [-> Hj]. simpl.
    apply B1. unfold new_size in *. lia. }
  exists s1, bl1, g1, ip1. split; [done|]. split; [done|]. split; [done|]. split; [done|].
  destruct (Hread off (Z.of_nat (length src))) as [s2 E2]; [unfold new_size; lia|lia|unfold is_u32; lia|].
  exists s2. rewrite E2. f_equal. f_equal. unfold new_size. replace (Z.to_nat _) with (length src) by lia.
  apply list_eq. intros j. rewrite !list_lookup_fmap. destruct (decide (j < length src)%nat) as [Hj|Hj].
  - rewrite lookup_seq_lt by done. simpl. unfold written. rewrite (proj2 (Z.leb_le _ _)), (proj2 (Z.ltb_lt _ _)) by lia.
    simpl. rewrite (lookup_nth src j Hj). do 2 f_equal. lia.
  - rewrite lookup_seq_ge by lia. by rewrite lookup_ge_None_2 by lia.
Qed.
End Driver.

(** ** A file on the image *)

(** Inode 2, an empty file, in the first slot of the cache. *)
Definition file0 : inode := mkInode 1 2 1 I_VALID T_FILE 0 0 1 0 (replicate (Z.to_nat (NDIRECT + 1)) 0).

Definition fs1 : kst := fs0 <| k_icache := file0 :: replicate 49 zero_inode |>.

Lemma fs1_addr k : 0 <= k -> addr_of image0 file0 k = 0.
Proof.
  intros Hk. unfold addr_of. destruct (k <? NDIRECT); [|reflexivity]. rewrite nth_lookup.
  destruct (lookup (Z.to_nat k) (i_addrs file0)) as [x|] eqn:E; [|reflexivity].
  apply lookup_replicate in E as [-> _]. reflexivity.
Qed.

Lemma fs1_fsx : fsx fs1 2 image0 image0 [] 0 file0.
Proof.
  constructor; try reflexivity.
  - destruct fs0_tx as [R H1 H2 H3 H4 H5]. constructor; assumption.
  - destruct fs0_layout as [H1 H2 H3 H4 H5]. constructor; assumption.
  - exact fs0_inj.
  - constructor.
    + intros k Hk. unfold place. destruct (Z.eqb_spec k (-2)) as [->|H2].
      * intros _. change (k_sb fs1) with image_sb. change (IBLOCK (i_inum file0) image_sb) with 32.
        split; [change (sb_size image_sb) with 1000; lia|]. split; [by apply fs0_used|].
        split; [right; vm_compute; congruence|]. split; [|reflexivity]. intros c Hc. by rewrite fs0_bblock.
      * destruct (Z.eqb_spec k (-1)); [done|]. rewrite fs1_addr by lia. done.
    + intros k k' Hk Hk' Hne. unfold place. destruct (Z.eqb_spec k (-2)) as [->|H2].
      * rewrite (proj2 (Z.eqb_neq k' (-2))) by lia. destruct (Z.eqb_spec k' (-1)); [done|]. by rewrite fs1_addr by lia.
      * destruct (Z.eqb_spec k (-1)); [done|]. by rewrite fs1_addr by lia.
    + done.
Qed.

(** No devices. *)
#[local] Instance no_devices : Devices := {| dev_read _ := None; dev_write _ := None |}.

Lemma writei_readi_witness :
  exists s' s'', writei (H := memide_driver) 0 [104; 105] 0 fs1 = Ok 2 s' /\
    readi (H := memide_driver) 0 0 2 s' = Ok (Some [104; 105]) s''.
Proof.
  destruct (writei_readi (H := memide_driver) fs1 2 image0 image0 [] 0 file0 [104; 105] 0 1 fs1_fsx)
    as (s' & bl' & g' & ip' & E1 & _ & _ & _ & s'' & E2).
  - discriminate.
  - split; discriminate.
  - vm_compute. lia.
  - vm_compute. congruence.
  - vm_compute. congruence.
  - intros p Hp. simpl in Hp. lia.
  - right. vm_compute. congruence.
  - vm_compute. lia.
  - vm_compute. lia.
  - exists s', s''. split; [exact E1|exact E2].
Defined.
