(* ===== verification/FsNames.v ===== *)
(** * Path names and the inode cache

    [skipelem] takes a path apart into its elements; [iget] and [idup] keep one cache
    slot per inode, with its references counted. *)

From S2P Require Import Prelude Params State Mem Strings Locks Kalloc Vm Sched Procs Sleeplock Bio BioSpec Fs.
Import Spin.

(** ** Paths *)

(** The names [namex] looks up, in order. *)
Fixpoint path_elems (fuel : nat) (path : list Z) : list (list Z) :=
  match fuel with
  | O => []
  | S fuel' =>
      match skipelem path with
      | None => []
      | Some (name, path') => name :: path_elems fuel' path'
      end
  end.

(** A path: names, each after a number of slashes, and trailing slashes. *)
Fixpoint render (l : list (nat * list Z)) (trail : nat) : list Z :=
  match l with
  | [] => replicate trail 47
  | (k, n) :: l' => replicate k 47 ++ n ++ render l' trail
  end.

(** A path element: not empty, and without slashes. *)
Definition elem_ok (n : list Z) : Prop := n <> [] /\ 47 ∉ n.

(** Names after the first are preceded by a slash. *)
Definition separated (l : list (nat * list Z)) : Prop :=
  Forall (fun kn => elem_ok (snd kn)) l /\ Forall (fun kn => (0 < fst kn)%nat) (tail l).

Lemma skip_slashes_app k l : skip_slashes (replicate k 47 ++ l) = skip_slashes l.
Proof. induction k; simpl; done. Qed.

Lemma skip_slashes_id l : hd 0 l <> 47 -> skip_slashes l = l.
Proof.
  destruct l as [|c l]; [done|]. intros Hc. simpl in Hc. unfold skip_slashes.
  destruct c as [|c|c]; try done. do 6 (destruct c as [c|c|]; try done).
Qed.

Lemma span_elem_app n r : 47 ∉ n -> hd 47 r = 47 -> span_elem (n ++ r) = (n, r).
Proof.
  induction n as [|c n IH]; intros Hn Hr; simpl.
  - destruct r as [|c r]; [done|]. simpl in *. by rewrite Hr.
  - apply not_elem_of_cons in Hn as [Hc Hn]. rewrite (proj2 (Z.eqb_neq c 47)) by done. by rewrite IH.
Qed.

Lemma skipelem_render k n r :
  elem_ok n -> hd 47 r = 47 ->
  skipelem (replicate k 47 ++ n ++ r) = Some (take (Z.to_nat DIRSIZ) n, skip_slashes r).
Proof.
  intros [Hne Hns] Hr. unfold skipelem. rewrite skip_slashes_app.
  assert (hd 0 (n ++ r) <> 47) as Hh by (destruct n; [done|]; simpl; apply not_elem_of_cons in Hns as [? _]; done).
  rewrite skip_slashes_id by done. destruct (n ++ r) as [|c l] eqn:E; [by destruct n|]. rewrite <- E.
  by rewrite span_elem_app.
Qed.

Lemma render_head l trail : Forall (fun kn => (0 < fst kn)%nat) l -> hd 47 (render l trail) = 47.
Proof.
  destruct l as [|[k n] l]; intros H; [by destruct trail|]. apply Forall_cons_1 in H as [Hk _]. simpl in *. by destruct k; [lia|].
Qed.

Lemma elems_skip fuel path : path_elems fuel (skip_slashes path) = path_elems fuel path.
Proof.
  destruct fuel; simpl; [done|]. unfold skipelem.
  assert (skip_slashes (skip_slashes path) = skip_slashes path) as ->; [|done].
  clear. induction path as [|c path IH]; [done|]. destruct (Z.eq_dec c 47) as [->|Hc]; [done|].
  rewrite !(skip_slashes_id (c :: path)); done.
Qed.

(** Every path is taken apart into its names: for names without slashes, separated by
    any number of slashes, with any number in front and behind, [namex] looks up exactly
    these names, each cut to [DIRSIZ] characters, and stops after as many rounds. *)
Theorem skipelem_path l trail fuel :
  separated l -> (length (render l trail) < fuel)%nat ->
  path_elems fuel (render l trail) = (fun kn => take (Z.to_nat DIRSIZ) (snd kn)) <$> l.
Proof.
  revert fuel. induction l as [|[k n] l IH]; intros fuel [Hok Hsep] Hfuel.
  { destruct fuel; [done|]. simpl. unfold skipelem. rewrite <- (app_nil_r (replicate trail 47)), skip_slashes_app. done. }
  apply Forall_cons_1 in Hok as [Hn Hok]. simpl in Hn, Hsep. destruct fuel as [|fuel]; [lia|].
  cbn [path_elems render fmap list_fmap]. rewrite skipelem_render by (done || by apply render_head).
  rewrite elems_skip. f_equal. apply IH.
  - split; [done|]. destruct l; [constructor|]. by apply Forall_cons_1 in Hsep as [_ ?].
  - simpl in Hfuel. rewrite !length_app in Hfuel. destruct n; [by destruct Hn|]. simpl in Hfuel. lia.
Qed.

(** ["///a//bb"] of the source's comment. *)
Lemma skipelem_path_witness :
  path_elems 9 (render [(3%nat, [97]); (2%nat, [98; 98])] 0) = [[97]; [98; 98]].
Proof.
  apply (skipelem_path [(3%nat, [97]); (2%nat, [98; 98])] 0 9).
  - split; [|repeat constructor]. repeat constructor; simpl; try discriminate; set_solver.
  - vm_compute. lia.
Defined.

(** ** The inode cache *)

(** References are counted from zero, and no inode is in two slots in use. *)
Definition icache_ok (s : kst) : Prop :=
  Forall (fun ip => 0 <= i_ref ip) (inodes s) /\
  forall i j a b, inodes s !! i = Some a -> inodes s !! j = Some b -> 0 < i_ref a -> 0 < i_ref b ->
    i_dev a = i_dev b -> i_inum a = i_inum b -> i = j.

Lemma icache_insert s s' i a a' :
  icache_ok s -> inodes s !! i = Some a -> inodes s' = <[i := a']> (inodes s) -> 0 <= i_ref a' ->
  (forall j b, j <> i -> inodes s !! j = Some b -> 0 < i_ref b -> 0 < i_ref a' ->
     i_dev b = i_dev a' -> i_inum b = i_inum a' -> False) ->
  icache_ok s'.
Proof.
  intros [Hr Hu] Hi E Ha Hnew. split; rewrite E.
  - apply Forall_insert; [done|done].
  - intros j k b c Hj Hk Hb Hc Hd Hn.
    apply list_lookup_insert_Some in Hj as [(<- & -> & _)|[Hji Hj]];
      apply list_lookup_insert_Some in Hk as [(<- & -> & _)|[Hki Hk]]; try done.
    + exfalso. by apply (Hnew k c).
    + exfalso. by apply (Hnew j b).
    + by apply (Hu j k b c).
Qed.

Lemma inodes_with i fn s a : inodes s !! i = Some a -> inodes (with_inode i fn s) = <[i := fn a]> (inodes s).
Proof. intros H. unfold inodes, with_inode in *. simpl. by apply alter_as_insert. Qed.

Lemma cached_true dev inum ip : cached dev inum ip = true <-> 0 < i_ref ip /\ i_dev ip = dev /\ i_inum ip = inum.
Proof. unfold cached. rewrite !andb_true_iff, Z.ltb_lt, !Z.eqb_eq. tauto. Qed.

(** [iget] in a critical section of its own. *)
Lemma iget_run dev inum s :
  calm s ->
  iget dev inum s =
  match find_from (cached dev inum) 0 (inodes s) with
  | Some i => Ok i (with_inode i (fun ip => ip <| i_ref ::= fun n => n + 1 |>) s)
  | None =>
      match find_from (fun ip => i_ref ip =? 0) 0 (inodes s) with
      | Some i => Ok i (with_inode i (fun ip => ip <| i_dev := dev |> <| i_inum := inum |> <| i_ref := 1 |> <| i_flags := 0 |>) s)
      | None => Panic "iget: no inodes" (lock_st LIcache s)
      end
  end.
Proof.
  intros Hc. unfold iget. mcall calm_acquire; [|done]. mstep. change (inodes (lock_st LIcache s)) with (inodes s).
  destruct (find_from (cached dev inum) 0 (inodes s)) as [i|].
  - unfold set_inode. mstep. erewrite bind_ok; [|by apply (calm_release _ s)]. unfold ret. f_equal; by destruct s.
  - destruct (find_from _ 0 (inodes s)) as [i|]; [|done].
    unfold set_inode. mstep. erewrite bind_ok; [|by apply (calm_release _ s)]. unfold ret. f_equal; by destruct s.
Qed.

Lemma find_cached dev inum s i ip :
  icache_ok s -> inodes s !! i = Some ip -> 0 < i_ref ip -> i_dev ip = dev -> i_inum ip = inum ->
  find_from (cached dev inum) 0 (inodes s) = Some i.
Proof.
  intros [_ Hu] Hi Hr Hd Hn. apply find_from_Some. exists ip. split_and!; [done|by apply cached_true|].
  intros k y Hk Hy. apply not_true_iff_false. intros (Hr' & Hd' & Hn')%cached_true.
  assert (k = i) by (apply (Hu k i y ip); congruence). lia.
Qed.

(** What [iget] does to the slot [i] it picks: [a'] is what it makes of its entry. *)
Lemma iget_picked dev inum s i a fn :
  calm s -> icache_ok s -> inodes s !! i = Some a ->
  i_ref (fn a) = i_ref a + 1 -> i_dev (fn a) = dev -> i_inum (fn a) = inum ->
  (0 < i_ref a -> i_dev a = dev /\ i_inum a = inum) ->
  (i_ref a = 0 -> find_from (cached dev inum) 0 (inodes s) = None) ->
  let s' := with_inode i fn s in
  calm s' /\ icache_ok s' /\ inodes s' !! i = Some (fn a) /\ 0 < i_ref (fn a) /\
  (forall j b, inodes s !! j = Some b -> 0 < i_ref b -> j <> i -> inodes s' !! j = Some b) /\
  (exists s'', iget dev inum s' = Ok i s'').
Proof.
  intros Hc Hok Ha Hr Hd Hn Hold Hnew s'. pose proof (inodes_with i fn s a Ha) as Ei. fold s' in Ei.
  pose proof (Forall_lookup_1 _ _ _ _ (proj1 Hok) Ha) as H0a. simpl in H0a.
  assert (inodes s' !! i = Some (fn a)) as Hi.
  { rewrite Ei. apply list_lookup_insert_eq. by eapply lookup_lt_Some. }
  assert (icache_ok s') as Hok'.
  { apply (icache_insert s s' i a (fn a)); auto; [lia|]. intros j b Hne Hj Hb _ Hd' Hn'.
    destruct (decide (i_ref a = 0)) as [E|E].
    - pose proof (proj1 (find_from_None _ _) (Hnew E) j b Hj) as Hf.
      apply not_true_iff_false in Hf. apply Hf, cached_true. split_and!; congruence.
    - destruct Hold as [? ?]; [lia|]. apply Hne. apply (proj2 Hok j i b a); auto; [lia|congruence|congruence]. }
  split_and!; try done; [lia| |].
  - intros j b Hj _ Hne. rewrite Ei. by rewrite list_lookup_insert_ne.
  - rewrite iget_run by done. rewrite (find_cached dev inum s' i (fn a)); [eauto|done|done|lia|done|done].
Qed.

(** The two outcomes of [iget]. *)
Lemma iget_cases dev inum s :
  calm s -> icache_ok s ->
  (exists i ip s', iget dev inum s = Ok i s' /\ calm s' /\ icache_ok s' /\ inodes s' !! i = Some ip /\
     i_dev ip = dev /\ i_inum ip = inum /\ 0 < i_ref ip /\
     (forall j a, inodes s !! j = Some a -> 0 < i_ref a -> j <> i -> inodes s' !! j = Some a) /\
     (forall a, inodes s !! i = Some a -> i_ref ip = i_ref a + 1 /\
        (0 < i_ref a -> i_dev a = dev /\ i_inum a = inum)) /\
     (exists s'', iget dev inum s' = Ok i s'')) \/
  (exists s', iget dev inum s = Panic "iget: no inodes" s') /\
  Forall (fun a => 0 < i_ref a /\ (i_dev a <> dev \/ i_inum a <> inum)) (inodes s).
Proof.
  intros Hc Hok. rewrite (iget_run dev inum s Hc).
  destruct (find_from (cached dev inum) 0 (inodes s)) as [i|] eqn:E1;
    [|destruct (find_from (fun ip => i_ref ip =? 0) 0 (inodes s)) as [i|] eqn:E2].
  - left. pose proof E1 as (a & Ha & (Hr & Hd & Hn)%cached_true & _)%find_from_Some.
    edestruct (iget_picked dev inum s i a (fun ip => ip <| i_ref ::= fun n => n + 1 |>))
      as (H1 & H2 & H3 & H4 & H5 & H6); cycle -1; [|done|done|done|done|done|done|done|lia].
    do 3 eexists. split; [done|]. split_and!; eauto.
    intros b Hb. rewrite Ha in Hb. by injection Hb as <-.
  - left. pose proof E2 as (a & Ha & Hr%Z.eqb_eq & _)%find_from_Some.
    edestruct (iget_picked dev inum s i a (fun ip => ip <| i_dev := dev |> <| i_inum := inum |> <| i_ref := 1 |> <| i_flags := 0 |>))
      as (H1 & H2 & H3 & H4 & H5 & H6); cycle -1; [|done|done|done|simpl; lia|done|done|lia|done].
    do 3 eexists. split; [done|]. split_and!; eauto.
    intros b Hb. rewrite Ha in Hb. injection Hb as <-. simpl. lia.
  - right. split; [by eexists|]. apply Forall_lookup_2. intros j a Hj.
    pose proof (Forall_lookup_1 _ _ _ _ (proj1 Hok) Hj) as H0a. simpl in H0a.
    pose proof (proj1 (find_from_None _ _) E1 j a Hj) as Hf1.
    pose proof (proj1 (find_from_None _ _) E2 j a Hj) as Hf2%Z.eqb_neq.
    split; [lia|]. destruct (decide (i_dev a = dev)); [|by left]. right. intros En.
    apply not_true_iff_false in Hf1. apply Hf1, cached_true. split_and!; auto; lia.
Qed.

(** C18. [iget] gives out one slot per inode. It finds the inode's slot if it has one and
    counts the new reference, or else takes a slot nobody refers to; slots in use keep
    their inode, the cache never holds an inode twice, and asking for the same inode
    again yields the same slot. It panics only when every slot is in use by others. *)
Theorem iget_unique dev inum s :
  calm s -> icache_ok s ->
  (exists i ip s', iget dev inum s = Ok i s' /\ calm s' /\ icache_ok s' /\ inodes s' !! i = Some ip /\
     i_dev ip = dev /\ i_inum ip = inum /\ 0 < i_ref ip /\
     (forall j a, inodes s !! j = Some a -> 0 < i_ref a -> j <> i -> inodes s' !! j = Some a) /\
     (forall a, inodes s !! i = Some a -> i_ref ip = i_ref a + 1 /\
        (0 < i_ref a -> i_dev a = dev /\ i_inum a = inum)) /\
     (exists s'', iget dev inum s' = Ok i s'')) \/
  (exists s', iget dev inum s = Panic "iget: no inodes" s') /\
  Forall (fun a => 0 < i_ref a /\ (i_dev a <> dev \/ i_inum a <> inum)) (inodes s).
Proof. exact (iget_cases dev inum s). Qed.

Lemma empty_icache_ok s : Forall (fun ip => i_ref ip = 0) (inodes s) -> icache_ok s.
Proof.
  intros F. split.
  - eapply list.Forall_impl; [exact F|]. simpl. lia.
  - intros i j a b Hi _ Ha. pose proof (Forall_lookup_1 _ _ _ _ F Hi) as E. simpl in E. lia.
Qed.

Lemma settled_proc_icache : Forall (fun ip => i_ref ip = 0) (inodes settled_proc).
Proof. apply (bool_decide_unpack _). by vm_compute. Qed.

Lemma iget_unique_witness :
  exists i ip s', iget ROOTDEV 1 settled_proc = Ok i s' /\ inodes s' !! i = Some ip /\ i_inum ip = 1.
Proof.
  destruct (iget_unique ROOTDEV 1 settled_proc (proj1 settled_proc_calm) (empty_icache_ok _ settled_proc_icache))
    as [(i & ip & s' & E & _ & _ & Hi & _ & Hn & _)|[_ H]]; [by exists i, ip, s'|].
  exfalso. pose proof settled_proc_icache as F. destruct (inodes settled_proc) as [|ip l] eqn:E; [by vm_compute in E|].
  apply Forall_cons_1 in H as [[H _] _]. apply Forall_cons_1 in F as [F _]. lia.
Defined.
