(* ===== verification/FsDir.v ===== *)
(** * Directories as maps from names to inodes

    A directory is a file of 16-byte entries. [dirlookup] finds the first entry in use
    with the name, and [dirlink] puts a new name into the first free entry or behind the
    last, so that the names bound before stay bound as they were. *)

From S2P Require Import Prelude Params State Mem Strings Locks Printf Kalloc Vm Sched Procs Sleeplock Bio BioSpec Log LogDisk LogSpec Trans Fs FsTx FsBlocks FsData FsFile FsNames.
Import Spin.

(** ** Entries *)

Definition dirent_at (g : Z -> list Z) (ip : inode) (k : nat) : list Z := fbytes g ip (sizeof_dirent * Z.of_nat k) 16.

(** The number of entries, and the entries. *)
Definition dir_len (ip : inode) : nat := Z.to_nat (i_size ip / sizeof_dirent).
Definition dirents (g : Z -> list Z) (ip : inode) : list (list Z) := dirent_at g ip <$> seq 0 (dir_len ip).

Definition binds (name de : list Z) : bool := negb (de_inum de =? 0) && (namecmp name (de_name de) =? 0).

(** The entry that binds a name, and the inode number it is bound to. *)
Definition dir_slot (g : Z -> list Z) (ip : inode) (name : list Z) : option nat := find_from (binds name) 0 (dirents g ip).
Definition dir_get (g : Z -> list Z) (ip : inode) (name : list Z) : option Z :=
  (fun k => de_inum (dirent_at g ip k)) <$> dir_slot g ip name.

(** The entry [dirlink] uses for a new name. *)
Definition free_slot (g : Z -> list Z) (ip : inode) : nat :=
  default (dir_len ip) (find_from (fun de => de_inum de =? 0) 0 (dirents g ip)).

Record dir_ok (g : Z -> list Z) (ip : inode) : Prop := {
  dr_type : i_type ip = T_DIR;
  dr_size : 0 <= i_size ip <= MAXFILE * BSIZE;
  dr_whole : i_size ip mod sizeof_dirent = 0;
  dr_present : present g ip 0 (i_size ip)
}.

Lemma dir_size g ip : dir_ok g ip -> i_size ip = sizeof_dirent * Z.of_nat (dir_len ip).
Proof.
  intros D. pose proof (dr_whole _ _ D) as Hw. destruct (dr_size _ _ D) as [H0 _]. unfold dir_len, sizeof_dirent in *.
  rewrite Z2Nat.id by (apply Z.div_pos; lia). Z.to_euclidean_division_equations. lia.
Qed.

Lemma dirents_length g ip : length (dirents g ip) = dir_len ip.
Proof. unfold dirents. by rewrite length_fmap, length_seq. Qed.

Lemma dirents_lookup g ip k : (k < dir_len ip)%nat -> dirents g ip !! k = Some (dirent_at g ip k).
Proof. intros Hk. unfold dirents. by rewrite list_lookup_fmap, lookup_seq_lt. Qed.

Lemma dirents_lookup_inv g ip k de : dirents g ip !! k = Some de -> (k < dir_len ip)%nat /\ de = dirent_at g ip k.
Proof.
  intros E. pose proof (lookup_lt_Some _ _ _ E) as Hk. rewrite dirents_length in Hk. split; [done|].
  rewrite dirents_lookup in E by done. congruence.
Qed.

(** A name compares equal to what [strncpy] makes of it. *)
Lemma strncmp_l_same n p q : (forall j, (j < n)%nat -> nth j p 0 = nth j q 0) -> strncmp_l n p q = 0.
Proof.
  revert p q. induction n as [|n IH]; intros p q Hj; cbn [strncmp_l]; [done|].
  assert (hd 0 p = hd 0 q) as E by (specialize (Hj 0%nat ltac:(lia)); by destruct p, q).
  destruct (nz (hd 0 p) && (hd 0 p =? hd 0 q)); [|rewrite E; lia].
  apply IH. intros j Hlt. specialize (Hj (S j) ltac:(lia)). destruct p as [|? [|? ?]], q as [|? [|? ?]]; destruct j; simpl in *; done.
Qed.

Lemma namecmp_stored name : namecmp name (strncpy_l (Z.to_nat DIRSIZ) name) = 0.
Proof.
  unfold namecmp. apply strncmp_l_same. intros j Hj. unfold strncpy_l. rewrite !nth_lookup, lookup_take_lt by done.
  destruct (decide (j < length name)%nat) as [Hl|Hl]; [by rewrite lookup_app_l|].
  rewrite lookup_app_r, lookup_replicate_2 by lia. by rewrite lookup_ge_None_2 by lia.
Qed.

Lemma mk_dirent_inum inum name : 0 <= inum < 2 ^ 16 -> de_inum (mk_dirent inum name) = inum.
Proof.
  intros Hi. unfold de_inum, get16, mk_dirent. cbn [nth Nat.add]. unfold byte_of, u8.
  change (2 ^ (8 * 0)) with 1. change (2 ^ (8 * 1)) with 256. change (2 ^ 8) with 256. Z.to_euclidean_division_equations. lia.
Qed.

Lemma mk_dirent_name inum name : de_name (mk_dirent inum name) = strncpy_l (Z.to_nat DIRSIZ) name.
Proof.
  unfold de_name, mk_dirent, sub. cbn [drop]. apply take_ge. unfold strncpy_l. rewrite length_take. lia.
Qed.

Section Driver.
Context `{BlockDriverOk} `{Devices}.
Context (start : Z) (f g : Z -> list Z) (bl : list Z) (i : nat) (ip : inode).
Context (D : dir_ok g ip) (Hroom : room bl []).

(** ** Looking a name up *)

Lemma read_dirent_run s k : fsx s start f g bl i ip -> (k < dir_len ip)%nat ->
  exists s', read_dirent i (sizeof_dirent * Z.of_nat k) s = Ok (dirent_at g ip k) s' /\ fsx s' start f g bl i ip /\ tx_frame s s'.
Proof.
  intros X Hk. pose proof (dir_size _ _ D) as Hsz. destruct D as [Ht [Hlo Hhi] _ Hp]. unfold sizeof_dirent in *.
  change (MAXFILE * BSIZE) with 71680 in Hhi.
  destruct (readi_run s start f g bl i ip (16 * Z.of_nat k) 16 X Hroom) as (s' & E & X' & F); auto; try lia;
    [rewrite Ht; done|unfold is_u32; lia|].
  exists s'. split; [|done]. unfold read_dirent, sizeof_dirent. rewrite (bind_ok _ _ _ _ _ E).
  rewrite (proj2 (Z.ltb_ge _ _)) by lia. rewrite Z.min_l by lia. change (Z.to_nat 16) with 16%nat.
  change (fbytes g ip (16 * Z.of_nat k) 16) with (dirent_at g ip k).
  assert (length (dirent_at g ip k) = 16%nat) as -> by (unfold dirent_at, fbytes; by rewrite length_fmap, length_seq). done.
Qed.

(** A scan for the first entry that passes a test. *)
Lemma drop_dirents k : (k < dir_len ip)%nat -> drop k (dirents g ip) = dirent_at g ip k :: drop (S k) (dirents g ip).
Proof. intros Hk. by rewrite (drop_S _ (dirent_at g ip k)) by by apply dirents_lookup. Qed.

Lemma drop_dirents_end k : (dir_len ip <= k)%nat -> drop k (dirents g ip) = [].
Proof. intros Hk. apply drop_ge. by rewrite dirents_length. Qed.

Lemma dirlookup_loop_run name n : forall fuel k s,
  fsx s start f g bl i ip -> (n < fuel)%nat -> (k + n = dir_len ip)%nat ->
  exists s', fsx s' start f g bl i ip /\ tx_frame s s' /\
    dirlookup_loop fuel i name (sizeof_dirent * Z.of_nat k) s =
      match find_from (binds name) k (drop k (dirents g ip)) with
      | None => Ok None s'
      | Some j => (slot <- iget 1 (de_inum (dirent_at g ip j)) ;; ret (Some (slot, sizeof_dirent * Z.of_nat j))) s'
      end.
Proof.
  pose proof (dir_size _ _ D) as Hsz. induction n as [|n IH]; intros fuel k s X Hf Hk; (destruct fuel as [|fuel]; [lia|]); cbn [dirlookup_loop].
  - exists s. split; [done|]. split; [apply tx_frame_refl|]. mcall get_inode_run; [|apply X].
    rewrite (proj2 (Z.leb_le _ _)) by (rewrite Hsz; unfold sizeof_dirent; lia). by rewrite drop_dirents_end by lia.
  - destruct (read_dirent_run s k X) as (s1 & E1 & X1 & F1); [lia|].
    rewrite drop_dirents by lia. cbn [find_from]. fold (binds name (dirent_at g ip k)). unfold binds at 1.
    destruct (IH fuel (S k) s1 X1) as (s2 & X2 & F2 & E2); [lia|lia|].
    destruct (binds name (dirent_at g ip k)) eqn:Eb; unfold binds in Eb.
    + exists s1. split; [done|]. split; [done|]. mcall get_inode_run; [|apply X].
      rewrite (proj2 (Z.leb_gt _ _)) by (rewrite Hsz; unfold sizeof_dirent; lia). mcall E1. rewrite Eb, (fx_dev _ _ _ _ _ _ _ X). done.
    + exists s2. split; [done|]. split; [eauto using tx_frame_trans|]. mcall get_inode_run; [|apply X].
      rewrite (proj2 (Z.leb_gt _ _)) by (rewrite Hsz; unfold sizeof_dirent; lia). mcall E1. rewrite Eb.
      replace (sizeof_dirent * Z.of_nat k + sizeof_dirent) with (sizeof_dirent * Z.of_nat (S k)) by (unfold sizeof_dirent; lia). exact E2.
Qed.

Lemma dir_fuel_len : dir_fuel (i_size ip) = S (dir_len ip).
Proof.
  unfold dir_fuel, dir_len. pose proof (dr_whole _ _ D) as Hw. unfold sizeof_dirent in *. do 2 f_equal.
  Z.to_euclidean_division_equations. lia.
Qed.

Lemma dirlookup_run name s : fsx s start f g bl i ip ->
  exists s', fsx s' start f g bl i ip /\ tx_frame s s' /\
    dirlookup i name s =
      match dir_slot g ip name with
      | None => Ok None s'
      | Some j => (slot <- iget 1 (de_inum (dirent_at g ip j)) ;; ret (Some (slot, sizeof_dirent * Z.of_nat j))) s'
      end.
Proof.
  intros X. destruct (dirlookup_loop_run name (dir_len ip) (S (dir_len ip)) 0 s X) as (s' & X' & F & E); [lia|lia|].
  exists s'. split; [done|]. split; [done|]. unfold dirlookup. mcall get_inode_run; [|apply X].
  rewrite (dr_type _ _ D). change (negb (T_DIR =? T_DIR)) with false. cbv iota. rewrite dir_fuel_len. exact E.
Qed.

(** ** Finding a free entry *)

Lemma empty_dirent_run n : forall fuel k s,
  fsx s start f g bl i ip -> (n < fuel)%nat -> (k + n = dir_len ip)%nat ->
  exists s', fsx s' start f g bl i ip /\ tx_frame s s' /\
    empty_dirent fuel i (sizeof_dirent * Z.of_nat k) s =
      Ok (sizeof_dirent * Z.of_nat (default (dir_len ip) (find_from (fun de => de_inum de =? 0) k (drop k (dirents g ip))))) s'.
Proof.
  pose proof (dir_size _ _ D) as Hsz. induction n as [|n IH]; intros fuel k s X Hf Hk; (destruct fuel as [|fuel]; [lia|]); cbn [empty_dirent].
  - exists s. split; [done|]. split; [apply tx_frame_refl|]. mcall get_inode_run; [|apply X].
    rewrite (proj2 (Z.leb_le _ _)) by (rewrite Hsz; unfold sizeof_dirent; lia). rewrite drop_dirents_end by lia. simpl. unfold ret. do 2 f_equal. lia.
  - destruct (read_dirent_run s k X) as (s1 & E1 & X1 & F1); [lia|]. rewrite drop_dirents by lia. cbn [find_from].
    destruct (IH fuel (S k) s1 X1) as (s2 & X2 & F2 & E2); [lia|lia|].
    destruct (de_inum (dirent_at g ip k) =? 0) eqn:Eb.
    + exists s1. split; [done|]. split; [done|]. mcall get_inode_run; [|apply X].
      rewrite (proj2 (Z.leb_gt _ _)) by (rewrite Hsz; unfold sizeof_dirent; lia). mcall E1. by rewrite Eb.
    + exists s2. split; [done|]. split; [eauto using tx_frame_trans|]. mcall get_inode_run; [|apply X].
      rewrite (proj2 (Z.leb_gt _ _)) by (rewrite Hsz; unfold sizeof_dirent; lia). mcall E1. rewrite Eb.
      replace (sizeof_dirent * Z.of_nat k + sizeof_dirent) with (sizeof_dirent * Z.of_nat (S k)) by (unfold sizeof_dirent; lia). exact E2.
Qed.

(** ** Linking *)

(** [ip'] is the directory [ip] with entry [j] for [name]. *)
Record linked (name : list Z) (inum : Z) (j : nat) (g' : Z -> list Z) (ip' : inode) : Prop := {
  lk_ok : dir_ok g' ip';
  lk_len : dir_len ip' = Nat.max (dir_len ip) (S j);
  lk_entry k : (k < dir_len ip')%nat -> dirent_at g' ip' k = if (k =? j)%nat then mk_dirent inum name else dirent_at g ip k
}.

Lemma free_slot_le : (free_slot g ip <= dir_len ip)%nat.
Proof.
  unfold free_slot. destruct (find_from _ 0 _) as [j|] eqn:E; [|done]. simpl.
  apply find_from_Some in E as (de & Hde & _). apply dirents_lookup_inv in Hde as [? _]. lia.
Qed.

Lemma written_entry src j k : length src = 16%nat ->
  (fun n => written g ip (sizeof_dirent * Z.of_nat j) src (sizeof_dirent * Z.of_nat k + Z.of_nat n)) <$> seq 0 16 =
  if (k =? j)%nat then src else dirent_at g ip k.
Proof.
  intros Hl. apply list_eq. intros n. rewrite list_lookup_fmap. unfold sizeof_dirent.
  destruct (decide (n < 16)%nat) as [Hn|Hn].
  - rewrite lookup_seq_lt by done. simpl. unfold written. rewrite Hl. destruct (Nat.eqb_spec k j) as [->|Hne].
    + rewrite (proj2 (Z.leb_le _ _)), (proj2 (Z.ltb_lt _ _)) by lia. simpl. rewrite (lookup_nth src n) by lia. do 2 f_equal. lia.
    + replace ((16 * Z.of_nat j <=? 16 * Z.of_nat k + Z.of_nat n) && (16 * Z.of_nat k + Z.of_nat n <? 16 * Z.of_nat j + Z.of_nat 16)) with false
        by (symmetry; destruct (Z.leb_spec (16 * Z.of_nat j) (16 * Z.of_nat k + Z.of_nat n)), (Z.ltb_spec (16 * Z.of_nat k + Z.of_nat n) (16 * Z.of_nat j + Z.of_nat 16)); simpl; (done || lia)).
      unfold dirent_at, fbytes, sizeof_dirent. by rewrite list_lookup_fmap, lookup_seq_lt.
  - rewrite lookup_seq_ge by lia. simpl. symmetry. apply lookup_ge_None_2. destruct (k =? j)%nat; [lia|].
    unfold dirent_at, fbytes. rewrite length_fmap, length_seq. lia.
Qed.

Lemma dirlink_run name inum s :
  fsx s start f g bl i ip -> dir_slot g ip name = None -> 0 <= inum < 2 ^ 16 ->
  sizeof_dirent * Z.of_nat (free_slot g ip) + sizeof_dirent <= MAXFILE * BSIZE ->
  (2 <= length (frees (k_sb s) g))%nat -> (length bl + 7 < Z.to_nat LOGSIZE)%nat ->
  exists s' g' bl' ip', dirlink i name inum s = Ok 0 s' /\ fsx s' start f g' bl' i ip' /\
    linked name inum (free_slot g ip) g' ip' /\ (length bl' <= length bl + 7)%nat.
Proof.
  intros X Hno Hi Hfit Hfr Hlog. pose proof (dir_size _ _ D) as Hsz. pose proof free_slot_le as Hj.
  destruct (dirlookup_run name s X) as (s1 & X1 & F1 & E1). rewrite Hno in E1.
  destruct (empty_dirent_run (dir_len ip) (S (dir_len ip)) 0 s1 X1) as (s2 & X2 & F2 & E2); [lia|lia|].
  fold (free_slot g ip) in E2. set (j := free_slot g ip) in *. set (off := sizeof_dirent * Z.of_nat j) in *.
  pose proof (mk_dirent_length inum name) as Hlen. destruct D as [Ht Hrange Hw Hp].
  assert (k_sb s2 = k_sb s) as Esb by (by rewrite (tx_frame_sb _ _ F2), (tx_frame_sb _ _ F1)).
  unfold sizeof_dirent in *.
  destruct (writei_run s2 start f g bl i ip (mk_dirent inum name) off 1 X2) as (s3 & g3 & bl3 & ip3 & E3 & X3 & Es & Et & L3 & B3 & P3 & _);
    rewrite ?Hlen, ?Esb; auto; try lia; [by rewrite Ht|right; rewrite Hlen; subst off; unfold BSIZE; Z.to_euclidean_division_equations; lia|].
  unfold new_size in Es, P3. rewrite Hlen in Es, P3.
  assert (dir_len ip3 = Nat.max (dir_len ip) (S j)) as El.
  { unfold dir_len at 1. rewrite Es, Hsz. unfold sizeof_dirent. subst off. Z.to_euclidean_division_equations. lia. }
  exists s3, g3, bl3, ip3. split_and!; [|done| |lia].
  - unfold dirlink. rewrite (bind_ok _ _ _ _ _ E1). mcall get_inode_run; [|apply X1].
    rewrite (dir_fuel_len : dir_fuel (i_size ip) = _). rewrite (bind_ok _ _ _ _ _ E2). fold off. rewrite (bind_ok _ _ _ _ _ E3), Hlen. done.
  - constructor; [|done|].
    + constructor; [by rewrite Et|rewrite Es; lia| |by rewrite Es].
      rewrite Es, Hsz. unfold sizeof_dirent. subst off. Z.to_euclidean_division_equations. lia.
    + intros k Hk. rewrite <- (written_entry (mk_dirent inum name) j k Hlen). unfold dirent_at, fbytes, sizeof_dirent.
      apply list_fmap_ext. intros n x Hx. apply lookup_seq in Hx as [-> Hn]. simpl. apply B3. lia.
Qed.
End Driver.

(** ** A directory is a map *)

(** Searches over two lists that agree on the test. *)
Lemma find_from_agree {A} (p : A -> bool) (l l' : list A) :
  (forall k x, l !! k = Some x -> p x = true -> exists y, l' !! k = Some y /\ p y = true) ->
  (forall k y, l' !! k = Some y -> p y = true -> exists x, l !! k = Some x /\ p x = true) ->
  find_from p 0 l = find_from p 0 l'.
Proof.
  intros H1 H2. destruct (find_from p 0 l) as [j|] eqn:E.
  - apply find_from_Some in E as (x & Hx & Hp & Hb). symmetry. apply find_from_Some.
    destruct (H1 j x Hx Hp) as (y & Hy & Hpy). exists y. split_and!; [done|done|]. intros k z Hk Hz.
    destruct (p z) eqn:Ez; [|done]. destruct (H2 k z Hz Ez) as (w & Hw & Hpw). by rewrite (Hb k w Hk Hw) in Hpw.
  - symmetry. apply find_from_None. intros k y Hy. destruct (p y) eqn:Ey; [|done].
    destruct (H2 k y Hy Ey) as (x & Hx & Hpx). by rewrite (proj1 (find_from_None _ _) E k x Hx) in Hpx.
Qed.

Section Map.
Context (g g' : Z -> list Z) (ip ip' : inode) (name : list Z) (inum : Z).
Context (Hlk : linked g ip name inum (free_slot g ip) g' ip') (Hinum : 0 < inum < 2 ^ 16).

(** The entry used for the new name bound nothing before. *)
Lemma free_slot_unbound k n : (k < dir_len ip)%nat -> k = free_slot g ip -> binds n (dirent_at g ip k) = false.
Proof.
  intros Hk ->. revert Hk. unfold free_slot. destruct (find_from _ 0 _) as [j|] eqn:E; simpl; [|lia].
  intros Hk. apply find_from_Some in E as (de & Hde & Hz & _). apply dirents_lookup_inv in Hde as [_ ->].
  unfold binds. by rewrite Hz.
Qed.

Lemma new_entry_binds n : binds n (mk_dirent inum name) = (namecmp n (strncpy_l (Z.to_nat DIRSIZ) name) =? 0).
Proof. unfold binds. rewrite mk_dirent_inum, mk_dirent_name by lia. by rewrite (proj2 (Z.eqb_neq _ _)) by lia. Qed.

Lemma linked_get : dir_slot g ip name = None -> dir_get g' ip' name = Some inum.
Proof.
  intros Hno. destruct Hlk as [_ Hlen Hent]. set (j := free_slot g ip) in *.
  assert (dir_slot g' ip' name = Some j) as E.
  { apply find_from_Some. exists (mk_dirent inum name). split_and!.
    - rewrite dirents_lookup by lia. by rewrite Hent, Nat.eqb_refl by lia.
    - by rewrite new_entry_binds, namecmp_stored.
    - intros k de Hk Hde. apply dirents_lookup_inv in Hde as [Hk' ->]. rewrite Hent, (proj2 (Nat.eqb_neq _ _)) by lia.
      assert (j <= dir_len ip)%nat by (by apply free_slot_le).
      apply (proj1 (find_from_None _ _) Hno k). apply dirents_lookup. lia. }
  unfold dir_get. rewrite E. simpl. rewrite Hent, Nat.eqb_refl by lia. by rewrite mk_dirent_inum by lia.
Qed.

Lemma linked_others n : namecmp n (strncpy_l (Z.to_nat DIRSIZ) name) <> 0 -> dir_get g' ip' n = dir_get g ip n.
Proof.
  intros Hn. destruct Hlk as [_ Hlen Hent]. set (j := free_slot g ip) in *. assert (j <= dir_len ip)%nat as Hj by (by apply free_slot_le).
  assert (forall k, (k < dir_len ip')%nat -> binds n (dirent_at g' ip' k) = true -> k <> j) as Hnew.
  { intros k Hk Hb ->. rewrite Hent, Nat.eqb_refl, new_entry_binds in Hb by done. apply Z.eqb_eq in Hb. done. }
  assert (dir_slot g' ip' n = dir_slot g ip n) as E.
  { apply find_from_agree; intros k de Hde Hb; apply dirents_lookup_inv in Hde as [Hk ->].
    - pose proof (Hnew k Hk Hb) as Hne. rewrite Hent, (proj2 (Nat.eqb_neq _ _)) in Hb by done.
      exists (dirent_at g ip k). split; [|done]. apply dirents_lookup. lia.
    - exists (dirent_at g' ip' k). split; [apply dirents_lookup; lia|]. rewrite Hent by lia.
      destruct (Nat.eqb_spec k j) as [->|]; [|done]. by rewrite free_slot_unbound in Hb. }
  unfold dir_get. rewrite E. destruct (dir_slot g ip n) as [k|] eqn:Ek; [|done]. simpl. f_equal.
  pose proof E as Ek'. apply find_from_Some in Ek' as (de & Hde & Hb & _). apply dirents_lookup_inv in Hde as [Hk ->].
  pose proof (Hnew k Hk Hb). by rewrite Hent, (proj2 (Nat.eqb_neq _ _)) by done.
Qed.
End Map.

(** What looking a name up must answer when the directory binds it to [o]. *)
Definition looks_up (i : nat) (o : option Z) (s : kst) (r : res kst (option (nat * Z))) : Prop :=
  match o with
  | None => exists s', r = Ok None s'
  | Some inum =>
      (exists slot a off s', r = Ok (Some (slot, off)) s' /\ inodes s' !! slot = Some a /\ i_dev a = 1 /\ i_inum a = inum /\ 0 < i_ref a) \/
      ((exists s', r = Panic "iget: no inodes" s') /\
       Forall (fun a => 0 < i_ref a /\ (i_dev a <> 1 \/ i_inum a <> inum)) (inodes s))
  end.

Lemma dirlookup_map `{BlockDriverOk} `{Devices} start f g bl i ip s name :
  fsx s start f g bl i ip -> dir_ok g ip -> room bl [] -> icache_ok s ->
  looks_up i (dir_get g ip name) s (dirlookup i name s).
Proof.
  intros X D Hr Hic. destruct (dirlookup_run start f g bl i ip D Hr name s X) as (s1 & X1 & F1 & ->).
  unfold dir_get. destruct (dir_slot g ip name) as [k|]; simpl; [|by exists s1].
  assert (inodes s1 = inodes s) as Ei by (unfold inodes; by rewrite (tx_frame_icache _ _ F1)).
  assert (icache_ok s1) as Hic1 by (unfold icache_ok; by rewrite Ei).
  pose proof (tx_rel _ _ _ _ _ _ (fx_tx _ _ _ _ _ _ _ X1)) as (Hc & _).
  destruct (iget_cases 1 (de_inum (dirent_at g ip k)) s1 Hc Hic1) as [(slot & a & s' & E & _ & _ & Hs & Hd & Hn & Hp & _)|[(s' & E) Hall]].
  - left. exists slot, a, (sizeof_dirent * Z.of_nat k), s'. by rewrite (bind_ok _ _ _ _ _ E).
  - right. rewrite Ei in Hall. split; [|done]. exists s'. unfold bind. by rewrite E.
Qed.

(** C17. A directory is a map from names to inode numbers. Linking a name that is not in it
    yet succeeds and binds the name to the inode; every name that differs from it within
    the 14 characters that are kept is bound afterwards as before; and a lookup in the
    directory, for any name, finds the inode the map binds it to and takes a reference to
    it, or reports that there is none; it fails only when every slot of the inode cache is
    taken by other inodes. *)
Theorem directory_is_map `{BlockDriverOk} `{Devices} start f g bl i ip s name inum :
  fsx s start f g bl i ip -> dir_ok g ip -> dir_get g ip name = None -> 0 < inum < 2 ^ 16 ->
  sizeof_dirent * Z.of_nat (free_slot g ip) + sizeof_dirent <= MAXFILE * BSIZE ->
  (2 <= length (frees (k_sb s) g))%nat -> (length bl + 7 < Z.to_nat LOGSIZE)%nat ->
  exists s' g' bl' ip', dirlink i name inum s = Ok 0 s' /\ fsx s' start f g' bl' i ip' /\
    dir_get g' ip' name = Some inum /\
    (forall n, namecmp n (strncpy_l (Z.to_nat DIRSIZ) name) <> 0 -> dir_get g' ip' n = dir_get g ip n) /\
    (forall n s2, fsx s2 start f g' bl' i ip' -> icache_ok s2 -> looks_up i (dir_get g' ip' n) s2 (dirlookup i n s2)).
Proof.
  intros X D Hno Hi Hfit Hfr Hlog.
  assert (dir_slot g ip name = None) as Hno' by (unfold dir_get in Hno; by destruct (dir_slot g ip name)).
  destruct (dirlink_run start f g bl i ip D ltac:(unfold room; simpl; change NBUF with (Z.to_nat LOGSIZE); lia) name inum s)
    as (s' & g' & bl' & ip' & E & X' & Hlk & Hbl); auto; [lia|].
  exists s', g', bl', ip'. split_and!; [done|done|by apply (linked_get g g' ip ip' name inum)|..].
  - intros n Hn. by apply (linked_others g g' ip ip' name inum).
  - intros n s2 X2 Hic. apply (dirlookup_map start f g' bl' i ip' s2 n X2 (lk_ok _ _ _ _ _ _ _ Hlk)); [|done].
    unfold room. simpl. change NBUF with (Z.to_nat LOGSIZE). lia.
Qed.

(** ** An empty directory *)

Definition retype (t : Z) (ip : inode) : inode := ip <| i_type := t |>.

Lemma fsx_retype s start f g bl i ip t : fsx s start f g bl i ip -> fsx (with_inode i (retype t) s) start f g bl i (retype t ip).
Proof.
  intros [T L Hinj Hz0 Hip Hdev Hlen [I1 I2 I3]].
  constructor; first [done|by apply tx_inode|by apply layout_inode|by apply inode_set|by constructor].
Qed.

#[local] Instance dir_devices : Devices := {| dev_read _ := None; dev_write _ := None |}.

Definition dir1 : kst := with_inode 0 (retype T_DIR) fs1.

Lemma dir1_ok : dir_ok image0 (retype T_DIR file0).
Proof. constructor; [done|split; discriminate|done|]. intros p Hp. simpl in Hp. lia. Qed.

Lemma directory_is_map_witness :
  exists s', dirlink (H := memide_driver) 0 (str "readme") 7 dir1 = Ok 0 s'.
Proof.
  destruct (directory_is_map (H := memide_driver) 2 image0 image0 [] 0 (retype T_DIR file0) dir1 (str "readme") 7)
    as (s' & g' & bl' & ip' & E & _); [apply fsx_retype; exact fs1_fsx|exact dir1_ok|vm_compute; reflexivity|lia|vm_compute; discriminate| | |].
  - vm_compute. lia.
  - vm_compute. lia.
  - exists s'. exact E.
Defined.
