(* ===== verification/Mkfs.v ===== *)
(** * Making a file system ([mkfs.c])

    The program runs on the host and writes the disk image the kernel is started with.
    Its state is the image file and two counters. On-disk structures are those of [fs.c]:
    a [struct dinode] is the on-disk part of an [inode]. The host is little-endian, as
    the machine the kernel runs on, and does not fail to write. *)

From S2P Require Import Prelude Params State Mem Strings Locks Printf Fs.

Definition NINODES : Z := 200.
Definition nbitmap : Z := FSSIZE / (BSIZE * 8) + 1.
Definition ninodeblocks : Z := NINODES / IPB + 1.
Definition nlog : Z := LOGSIZE.
Definition nmeta : Z := 2 + nlog + ninodeblocks + nbitmap.
Definition nblocks : Z := FSSIZE - nmeta.

Record mkst := mkMkst {
  m_img : Z -> list Z;   (* the image, by blocks *)
  m_size : Z;            (* its size in blocks *)
  m_freeinode : Z;
  m_freeblock : Z
}.

#[export] Instance set_m_img : Setter m_img := ltac:(setter mkst m_img).
#[export] Instance set_m_size : Setter m_size := ltac:(setter mkst m_size).
#[export] Instance set_m_freeinode : Setter m_freeinode := ltac:(setter mkst m_freeinode).
#[export] Instance set_m_freeblock : Setter m_freeblock := ltac:(setter mkst m_freeblock).

Definition MK (A : Type) : Type := M mkst A.

Definition zeroes : list Z := replicate (Z.to_nat BSIZE) 0.

(** To Intel byte order. *)
Definition xshort (x : Z) : Z := byte_of x 0 + 2 ^ 8 * byte_of x 1.
Definition xint (x : Z) : Z := word_of (byte_of x 0) (byte_of x 1) (byte_of x 2) (byte_of x 3).

Definition sb : superblock :=
  mkSuperblock (xint FSSIZE) (xint nblocks) (xint NINODES) (xint nlog) (xint 2) (xint (2 + nlog)) (xint (2 + nlog + ninodeblocks)).

(** ** Sectors *)

Definition wsect (sec : Z) (buf : list Z) : MK unit :=
  modify (fun s => s <| m_img ::= fun g b => if b =? sec then buf else g b |> <| m_size ::= Z.max (sec + 1) |>).

Definition rsect (sec : Z) : MK (list Z) :=
  s <- get ;;
  if m_size s <=? sec then panic "read" else ret (m_img s sec).

(** ** Inodes *)

Definition blank (inum : Z) : inode := mkInode 0 inum 0 0 0 0 0 0 0 (replicate (Z.to_nat (NDIRECT + 1)) 0).

Definition winode (inum : Z) (ip : inode) : MK unit :=
  let bn := IBLOCK inum sb in
  buf <- rsect bn ;;
  wsect bn (store_dinode buf (dinode_at inum) ip).

Definition rinode (inum : Z) : MK inode :=
  let bn := IBLOCK inum sb in
  buf <- rsect bn ;;
  ret (load_dinode buf (dinode_at inum) (blank inum)).

Definition ialloc (type : Z) : MK Z :=
  inum <- gets m_freeinode ;;
  modify (fun s => s <| m_freeinode := u32 (inum + 1) |>) ;;
  winode inum ((blank inum) <| i_type := xshort type |> <| i_nlink := xshort 1 |> <| i_size := xint 0 |>) ;;
  ret inum.

(** ** The free map *)

Fixpoint mark (n : nat) (buf : list Z) : list Z :=
  match n with
  | O => buf
  | S n' =>
      let i := Z.of_nat n' in
      alter (fun x => u8 (Z.lor x (Z.shiftl 1 (i mod 8)))) (Z.to_nat (i / 8)) (mark n' buf)
  end.

Definition balloc (used : Z) : MK unit :=
  if BSIZE * 8 <=? used then panic "assert" else
  wsect (sb_bmapstart sb) (mark (Z.to_nat used) zeroes).

(** ** Appending to a file *)

(** [freeblock++] *)
Definition next_block : MK Z :=
  b <- gets m_freeblock ;;
  modify (fun s => s <| m_freeblock := u32 (b + 1) |>) ;;
  ret b.

(** The address of block [fbn], given one if it has none. *)
Definition file_block (din : inode) (fbn : Z) : MK (Z * inode) :=
  let addr k := nth k (i_addrs din) 0 in
  if fbn <? NDIRECT then
    let k := Z.to_nat fbn in
    if xint (addr k) =? 0 then
      b <- next_block ;;
      ret (xint (xint b), din <| i_addrs ::= <[k := xint b]> |>)
    else ret (xint (addr k), din)
  else
    let k := Z.to_nat NDIRECT in
    din <- (if xint (addr k) =? 0 then b <- next_block ;; ret (din <| i_addrs ::= <[k := xint b]> |>) else ret din) ;;
    let ind := xint (nth k (i_addrs din) 0) in
    indirect <- rsect ind ;;
    let j := Z.to_nat (4 * (fbn - NDIRECT)) in
    if get32 indirect j =? 0 then
      b <- next_block ;;
      wsect ind (put32 indirect j (xint b)) ;;
      ret (xint (xint b), din)
    else ret (xint (get32 indirect j), din).

Fixpoint iappend_loop (fuel : nat) (din : inode) (off : Z) (p : list Z) : MK (inode * Z) :=
  match p, fuel with
  | [], _ => ret (din, off)
  | _, O => spin
  | _, S fuel' =>
      let fbn := off / BSIZE in
      if MAXFILE <=? fbn then panic "assert" else
      r <- file_block din fbn ;;
      let '(x, din) := r in
      let n1 := Z.to_nat (Z.min (Z.of_nat (length p)) ((fbn + 1) * BSIZE - off)) in
      buf <- rsect x ;;
      wsect x (splice (Z.to_nat (off - fbn * BSIZE)) (take n1 p) buf) ;;
      iappend_loop fuel' din (off + Z.of_nat n1) (drop n1 p)
  end.

(** Every round takes at least a byte. *)
Definition iappend (inum : Z) (p : list Z) : MK unit :=
  din <- rinode inum ;;
  r <- iappend_loop (length p) din (xint (i_size din)) p ;;
  let '(din, off) := r in
  winode inum (din <| i_size := xint off |>).

(** ** The program *)

(** A file of the host: its name, and what reads of it deliver if it can be opened. *)
Definition hostfile : Type := list Z * option (list (list Z)).

Definition strip (name : list Z) : list Z :=
  match name with
  | c :: name' => if c =? 95 then name' else name
  | [] => []
  end.

Definition add_file (rootino : Z) (f : hostfile) : MK unit :=
  let '(name, data) := f in
  if bool_decide (47 ∈ name) then panic "assert" else
  match data with
  | None => panic "perror"
  | Some chunks =>
      inum <- ialloc T_FILE ;;
      iappend rootino (mk_dirent (xshort inum) (strip name)) ;;
      for_each chunks (iappend inum)
  end.

Definition sb_bytes : list Z :=
  concat ((fun v => [byte_of v 0; byte_of v 1; byte_of v 2; byte_of v 3]) <$>
    [sb_size sb; sb_nblocks sb; sb_ninodes sb; sb_nlog sb; sb_logstart sb; sb_inodestart sb; sb_bmapstart sb]).

Definition fix_root (rootino : Z) : MK unit :=
  din <- rinode rootino ;;
  let off := xint (i_size din) in
  winode rootino (din <| i_size := xint ((off / BSIZE + 1) * BSIZE) |>).

(** [argv] without the name of the program: the image, then the files to put in it. *)
Definition main (argv : list hostfile) : MK unit :=
  match argv with
  | [] => panic "usage"
  | (_, None) :: _ => panic "perror"
  | (_, Some _) :: files =>
      modify (fun s => s <| m_freeblock := nmeta |>) ;;
      for_each (seq 0 (Z.to_nat FSSIZE)) (fun i => wsect (Z.of_nat i) zeroes) ;;
      wsect 1 (splice 0 sb_bytes zeroes) ;;
      rootino <- ialloc T_DIR ;;
      if negb (rootino =? ROOTINO) then panic "assert" else
      iappend rootino (mk_dirent (xshort rootino) (str ".")) ;;
      iappend rootino (mk_dirent (xshort rootino) (str "..")) ;;
      for_each files (add_file rootino) ;;
      fix_root rootino ;;
      freeblock <- gets m_freeblock ;;
      balloc freeblock
  end.

(** The image file is empty when it has been opened. *)
Definition mkst0 : mkst := mkMkst (fun _ => zeroes) 0 1 0.
