(* ===== verification/MkfsSpec.v ===== *)
(** * The image [mkfs] makes

    The kernel finds in the image what was put in it: the files with their contents,
    a root directory that names them, a free map that marks exactly the blocks in use, and
    inodes in the form the theorems on [fs.c] ask for. *)

From S2P Require Import Prelude Params State Mem Strings Locks Printf Kalloc Vm Sched Procs Sleeplock Bio BioSpec Log LogDisk LogSpec Trans Fs FsTx FsBlocks FsData FsFile Mkfs.

(** ** Inodes on disk *)

Lemma xint_small x : 0 <= x < 2 ^ 32 -> xint x = x.
Proof. intros Hx. unfold xint. rewrite word_of_bytes. by apply u32_small. Qed.

Lemma get32_ext d d' k : (forall j, (k <= j < k + 4)%nat -> nth j d 0 = nth j d' 0) -> get32 d k = get32 d' k.
Proof. intros E. unfold get32. by rewrite !E by lia. Qed.

Lemma get16_ext d d' k : (forall j, (k <= j < k + 2)%nat -> nth j d 0 = nth j d' 0) -> get16 d k = get16 d' k.
Proof. intros E. unfold get16. by rewrite !E by lia. Qed.

Lemma get32_put_words d k l j :
  (k + 4 * length l <= length d)%nat -> (j < length l)%nat -> get32 (put_words d k l) (k + 4 * j) = u32 (nth j l 0).
Proof.
  revert d k j. induction l as [|a l IH]; intros d k j; cbn [put_words length]; [lia|]. intros Hk Hj. destruct j as [|j]; cbn [nth].
  - rewrite Nat.mul_0_r, Nat.add_0_r. rewrite (get32_ext _ (put32 d k a)).
    + apply get32_put32_eq. lia.
    + intros i Hi. apply put_words_other; rewrite ?length_put32; lia.
  - replace (k + 4 * S j)%nat with (k + 4 + 4 * j)%nat by lia. apply IH; rewrite ?length_put32; lia.
Qed.

Lemma get16_put16 d k v : (k + 2 <= length d)%nat -> get16 (put16 d k v) k = u16 v.
Proof.
  intros Hk. unfold get16. rewrite !nth_put16 by done. rewrite Nat.eqb_refl, (proj2 (Nat.eqb_neq _ _)) by lia. rewrite Nat.eqb_refl.
  unfold byte_of, u8, u16. change (2 ^ (8 * 0)) with 1. change (2 ^ (8 * 1)) with 256. change (2 ^ 8) with 256. change (2 ^ 16) with 65536.
  Z.to_euclidean_division_equations. lia.
Qed.

Definition s16_ok (z : Z) : Prop := - 2 ^ 15 <= z < 2 ^ 15.

Lemma s16_u16 z : s16_ok z -> s16 (u16 z) = z.
Proof.
  unfold s16_ok, s16, u16. change (2 ^ 15) with 32768. change (2 ^ 16) with 65536. intros Hz.
  pose proof (Z.mod_pos_bound z 65536). destruct (Z.ltb_spec (z mod 65536 mod 65536) 32768); Z.to_euclidean_division_equations; lia.
Qed.

(** An inode that fits its fields. *)
Definition fields_ok (ip : inode) : Prop :=
  s16_ok (i_type ip) /\ s16_ok (i_major ip) /\ s16_ok (i_minor ip) /\ s16_ok (i_nlink ip) /\
  0 <= i_size ip < 2 ^ 32 /\ length (i_addrs ip) = 13%nat /\ Forall (fun a => 0 <= a < 2 ^ 32) (i_addrs ip).

(** The on-disk fields of [ip] in [ip0]. *)
Definition with_fields (ip ip0 : inode) : inode :=
  mkInode (i_dev ip0) (i_inum ip0) (i_ref ip0) (i_flags ip0) (i_type ip) (i_major ip) (i_minor ip) (i_nlink ip) (i_size ip) (i_addrs ip).

Lemma get16_step d k v k' : (k + 2 <= length d)%nat -> (k' + 2 <= k \/ k + 2 <= k')%nat -> get16 (put16 d k v) k' = get16 d k'.
Proof.
  intros Hk Hne. apply get16_ext. intros j Hj. rewrite nth_put16 by done.
  by rewrite !(proj2 (Nat.eqb_neq _ _)) by lia.
Qed.

Lemma load_store d k ip ip0 : (k + 64 <= length d)%nat -> fields_ok ip ->
  load_dinode (store_dinode d k ip) k ip0 = with_fields ip ip0.
Proof.
  intros Hk (Ht & Hma & Hmi & Hn & Hs & Hl & Ha). unfold load_dinode, with_fields, store_dinode.
  set (d1 := put16 d k (i_type ip)). set (d2 := put16 d1 (k + 2) (i_major ip)). set (d3 := put16 d2 (k + 4) (i_minor ip)).
  set (d4 := put16 d3 (k + 6) (i_nlink ip)). set (d5 := put32 d4 (k + 8) (i_size ip)).
  assert (length d1 = length d /\ length d2 = length d /\ length d3 = length d /\ length d4 = length d /\ length d5 = length d) as (L1 & L2 & L3 & L4 & L5).
  { unfold d5, d4, d3, d2, d1. by rewrite length_put32, !length_put16. }
  assert (forall c, (c + 2 <= 8)%nat -> get16 (put_words d5 (k + 12) (i_addrs ip)) (k + c) = get16 d4 (k + c)) as H16.
  { intros c Hc. apply get16_ext. intros j Hj. rewrite put_words_other by lia. unfold d5. rewrite nth_put32 by lia.
    by rewrite (proj2 (Nat.leb_gt _ _)) by lia. }
  assert (get16 (put_words d5 (k + 12) (i_addrs ip)) k = u16 (i_type ip)) as ->.
  { rewrite <- (Nat.add_0_r k) at 2. rewrite H16, Nat.add_0_r by lia. unfold d4, d3, d2, d1.
    rewrite !get16_step by (rewrite ?length_put16; lia). apply get16_put16. lia. }
  rewrite !H16 by lia.
  assert (get16 d4 (k + 2) = u16 (i_major ip)) as ->.
  { unfold d4, d3. rewrite !get16_step by (rewrite ?length_put16; lia). apply get16_put16. lia. }
  assert (get16 d4 (k + 4) = u16 (i_minor ip)) as -> by (unfold d4; rewrite get16_step by lia; apply get16_put16; lia).
  assert (get16 d4 (k + 6) = u16 (i_nlink ip)) as -> by (apply get16_put16; lia).
  rewrite !s16_u16 by done.
  rewrite (get32_ext _ d5 (k + 8)) by (intros j Hj; apply put_words_other; lia). 
  assert (get32 d5 (k + 8) = i_size ip) as -> by (unfold d5; rewrite get32_put32_eq by lia; by apply u32_small).
  match goal with |- context [?f <$> seq 0 _] => assert (f <$> seq 0 (Z.to_nat (NDIRECT + 1)) = i_addrs ip) as -> end; [|by destruct ip0].
  change (Z.to_nat (NDIRECT + 1)) with 13%nat. rewrite <- Hl.
  apply list_eq. intros j. rewrite list_lookup_fmap. destruct (decide (j < length (i_addrs ip))%nat) as [Hj|Hj].
  - rewrite lookup_seq_lt by done. cbn [fmap option_fmap option_map Nat.add]. rewrite get32_put_words by lia. destruct (lookup_lt_is_Some_2 _ _ Hj) as [a Ea]. rewrite Ea.
    rewrite nth_lookup, Ea. simpl. f_equal. apply u32_small. by apply (list.Forall_lookup_1 _ _ _ _ Ha Ea).
  - rewrite lookup_seq_ge by lia. symmetry. apply lookup_ge_None. lia.
Qed.

(** ** Blocks and their owners *)

(** The block a file has in place [k]: -1 is the indirect block. *)
Definition slot (g : Z -> list Z) (ip : inode) (k : Z) : Z := if k =? -1 then ind_addr ip else addr_of g ip k.

Definition place_of (k : Z) : Prop := -1 <= k < MAXFILE.

Lemma slot_direct g ip k : 0 <= k < NDIRECT -> slot g ip k = nth (Z.to_nat k) (i_addrs ip) 0.
Proof. intros Hk. unfold slot, addr_of. rewrite (proj2 (Z.eqb_neq _ _)) by lia. by rewrite (proj2 (Z.ltb_lt _ _)) by lia. Qed.

Lemma slot_high g ip k : NDIRECT <= k ->
  slot g ip k = if ind_addr ip =? 0 then 0 else get32 (g (ind_addr ip)) (Z.to_nat (4 * (k - NDIRECT))).
Proof. unfold NDIRECT. intros Hk. unfold slot, addr_of, NDIRECT. rewrite (proj2 (Z.eqb_neq _ _)) by lia. by rewrite (proj2 (Z.ltb_ge _ _)) by lia. Qed.

Lemma content_slot g ip k : 0 <= k -> content g ip k = if slot g ip k =? 0 then zeros else g (slot g ip k).
Proof. intros Hk. unfold content, slot. by rewrite (proj2 (Z.eqb_neq k (-1))) by lia. Qed.

Definition upd_ino (i : nat) (ip : inode) (ino : nat -> inode) : nat -> inode := fun j => if (j =? i)%nat then ip else ino j.

Lemma upd_ino_eq i ip ino : upd_ino i ip ino i = ip.
Proof. unfold upd_ino. by rewrite Nat.eqb_refl. Qed.

Lemma upd_ino_ne i ip ino j : j <> i -> upd_ino i ip ino j = ino j.
Proof. intros Hne. unfold upd_ino. by rewrite (proj2 (Nat.eqb_neq _ _) Hne). Qed.

(** The blocks below [fb] are given out, each to one place of one of the [n] files. *)
Record placed (g : Z -> list Z) (fb : Z) (n : nat) (ino : nat -> inode) : Prop := {
  pl_len b : 0 <= b < FSSIZE -> length (g b) = Z.to_nat BSIZE;
  pl_fb : nmeta <= fb <= FSSIZE;
  pl_addrs i : (i < n)%nat -> length (i_addrs (ino i)) = 13%nat;
  pl_range i k : (i < n)%nat -> place_of k -> slot g (ino i) k <> 0 -> nmeta <= slot g (ino i) k < fb;
  pl_apart i j k l : (i < n)%nat -> (j < n)%nat -> place_of k -> place_of l -> i <> j \/ k <> l ->
    slot g (ino i) k <> 0 -> slot g (ino i) k <> slot g (ino j) l;
  pl_zero b : fb <= b < FSSIZE -> g b = zeros
}.

Definition here (i j : nat) (k k0 : Z) : bool := (j =? i)%nat && (k =? k0).

Lemma here_spec i j k k0 : reflect (j = i /\ k = k0) (here i j k k0).
Proof. unfold here. destruct (Nat.eqb_spec j i), (Z.eqb_spec k k0); constructor; tauto. Qed.

(** Block [fb] becomes place [k0] of file [i]. *)
Section Assign.
Context (g g' : Z -> list Z) (fb : Z) (n : nat) (ino ino' : nat -> inode) (i : nat) (k0 : Z).
Hypothesis P : placed g fb n ino.
Hypothesis Hi : (i < n)%nat.
Hypothesis Hk0 : place_of k0.
Hypothesis Hfb : fb < FSSIZE.
Hypothesis Hempty : slot g (ino i) k0 = 0.
Hypothesis Hslot : forall j k, (j < n)%nat -> place_of k -> slot g' (ino' j) k = if here i j k k0 then fb else slot g (ino j) k.
Hypothesis Hg : forall b, b <> ind_addr (ino i) \/ b = 0 -> g' b = g b.
Hypothesis Hlen : forall b, length (g' b) = length (g b).
Hypothesis Hadd : forall j, (j < n)%nat -> length (i_addrs (ino' j)) = 13%nat.

Lemma ind_below : ind_addr (ino i) < fb.
Proof.
  pose proof (pl_fb _ _ _ _ P). assert (nmeta = 59) by reflexivity. destruct (Z.eq_dec (ind_addr (ino i)) 0) as [->|Hz]; [lia|].
  apply (pl_range _ _ _ _ P i (-1)); [done|unfold place_of; change MAXFILE with 140; lia|exact Hz].
Qed.

Lemma assign_placed : placed g' (fb + 1) n ino'.
Proof using All.
  pose proof (pl_fb _ _ _ _ P) as Hf. pose proof ind_below as Hib. constructor.
  - intros b Hb. rewrite Hlen. by apply P.
  - lia.
  - done.
  - intros j k Hj Hk. rewrite Hslot by done. destruct (here_spec i j k k0); intros Hnz; [lia|].
    pose proof (pl_range _ _ _ _ P j k Hj Hk Hnz). lia.
  - intros j j' k l Hj Hj' Hk Hl Hne. rewrite !Hslot by done.
    destruct (here_spec i j k k0) as [[-> ->]|H1], (here_spec i j' l k0) as [[-> ->]|H2]; intros Hnz; [tauto| | |by apply (pl_apart _ _ _ _ P)].
    + destruct (Z.eq_dec (slot g (ino j') l) 0) as [->|Hz]; [lia|]. pose proof (pl_range _ _ _ _ P j' l Hj' Hl Hz). lia.
    + pose proof (pl_range _ _ _ _ P j k Hj Hk Hnz). lia.
  - intros b Hb. rewrite Hg by (left; lia). apply P. lia.
Qed.

Lemma assign_content j k : (j < n)%nat -> 0 <= k < MAXFILE -> content g' (ino' j) k = content g (ino j) k.
Proof using All.
  intros Hj Hk. assert (place_of k) as Hpk by (unfold place_of; lia). rewrite !content_slot by lia. rewrite Hslot by done.
  pose proof (pl_fb _ _ _ _ P) as Hf. assert (nmeta = 59) by reflexivity. pose proof ind_below.
  destruct (here_spec i j k k0) as [[-> ->]|Hne].
  - rewrite Hempty, Z.eqb_refl, (proj2 (Z.eqb_neq fb 0)) by lia. rewrite Hg by (left; lia). apply P. lia.
  - destruct (Z.eqb_spec (slot g (ino j) k) 0) as [|Hz]; [done|]. apply Hg. left.
    apply (pl_apart _ _ _ _ P j i k (-1)); try done. right. lia.
Qed.
End Assign.

(** The three ways a file gets a block. *)

Definition with_addr (ip : inode) (k : nat) (b : Z) : inode := ip <| i_addrs ::= <[k := b]> |>.

Lemma slots_direct g ino i k0 fb j k :
  length (i_addrs (ino i)) = 13%nat -> 0 <= k0 < NDIRECT -> place_of k ->
  slot g (upd_ino i (with_addr (ino i) (Z.to_nat k0) fb) ino j) k = if here i j k k0 then fb else slot g (ino j) k.
Proof.
  unfold NDIRECT. intros Hl Hk0 Hk. unfold here. destruct (Nat.eqb_spec j i) as [->|Hne]; [|by rewrite upd_ino_ne].
  rewrite upd_ino_eq. simpl andb. set (ip := ino i) in *. set (ip' := with_addr ip _ fb).
  assert (forall m, nth m (i_addrs ip') 0 = if (m =? Z.to_nat k0)%nat then fb else nth m (i_addrs ip) 0) as Hn.
  { intros m. apply nth_insert. lia. }
  assert (ind_addr ip' = ind_addr ip) as Ei.
  { unfold ind_addr. rewrite Hn. rewrite (proj2 (Nat.eqb_neq _ _)); [done|]. change (Z.to_nat NDIRECT) with 12%nat. lia. }
  unfold slot, addr_of, NDIRECT. rewrite Ei. destruct (Z.eqb_spec k (-1)), (Z.ltb_spec k 12), (Z.eqb_spec k k0); try lia; try done; unfold place_of in Hk.
  - rewrite Hn, (proj2 (Nat.eqb_eq _ _)) by lia. done.
  - rewrite Hn, (proj2 (Nat.eqb_neq _ _)) by lia. done.
Qed.

Lemma slots_ind g ino i fb j k :
  length (i_addrs (ino i)) = 13%nat -> ind_addr (ino i) = 0 -> g fb = zeros -> place_of k ->
  slot g (upd_ino i (with_addr (ino i) (Z.to_nat NDIRECT) fb) ino j) k = if here i j k (-1) then fb else slot g (ino j) k.
Proof.
  intros Hl Hz Hfb Hk. unfold here. destruct (Nat.eqb_spec j i) as [->|Hne]; [|by rewrite upd_ino_ne].
  rewrite upd_ino_eq. simpl andb. set (ip := ino i) in *. set (ip' := with_addr ip _ fb).
  assert (forall m, nth m (i_addrs ip') 0 = if (m =? 12)%nat then fb else nth m (i_addrs ip) 0) as Hn.
  { intros m. apply nth_insert. rewrite Hl. change (Z.to_nat NDIRECT) with 12%nat. lia. }
  assert (ind_addr ip' = fb) as Ei by (unfold ind_addr; by rewrite Hn).
  unfold slot, addr_of. rewrite Ei, Hz. destruct (Z.eqb_spec k (-1)); [done|]. unfold place_of in Hk. unfold NDIRECT. destruct (Z.ltb_spec k 12).
  - rewrite Hn, (proj2 (Nat.eqb_neq _ _)) by lia. done.
  - simpl. destruct (fb =? 0); [done|]. rewrite Hfb. apply get32_zeros.
Qed.

Lemma slots_entry g fb n ino i k0 j k v : placed g fb n ino -> (i < n)%nat -> (j < n)%nat -> place_of k ->
  ind_addr (ino i) <> 0 -> NDIRECT <= k0 < MAXFILE -> 0 <= v < 2 ^ 32 ->
  slot (upd_blk g (ind_addr (ino i)) (put32 (g (ind_addr (ino i))) (Z.to_nat (4 * (k0 - NDIRECT))) v)) (ino j) k =
  if here i j k k0 then v else slot g (ino j) k.
Proof.
  intros P Hi Hj Hk Hz Hk0 Hv. set (a := ind_addr (ino i)) in *.
  assert (slot g (ino i) (-1) = a) as Ea by done.
  assert (length (g a) = Z.to_nat BSIZE) as Hla.
  { apply P. assert (nmeta <= slot g (ino i) (-1) < fb) by (apply (pl_range _ _ _ _ P); done). pose proof (pl_fb _ _ _ _ P). rewrite Ea in *. assert (nmeta = 59) by done. lia. }
  unfold here, NDIRECT in *. change MAXFILE with 140 in *. unfold place_of in Hk. change MAXFILE with 140 in Hk.
  unfold slot, addr_of, NDIRECT. destruct (Z.eqb_spec k (-1)); [rewrite (proj2 (Z.eqb_neq k k0)) by lia; by rewrite andb_false_r|].
  destruct (Z.ltb_spec k 12); [rewrite (proj2 (Z.eqb_neq k k0)) by lia; by rewrite andb_false_r|].
  destruct (Nat.eqb_spec j i) as [->|Hne]; simpl.
  - fold a. rewrite (proj2 (Z.eqb_neq a 0)) by done. rewrite upd_blk_eq. destruct (Z.eqb_spec k k0) as [->|Hkk].
    + rewrite get32_put32_eq by (rewrite Hla; change (Z.to_nat BSIZE) with 512%nat; lia). by apply u32_small.
    + apply get32_put32_ne; [rewrite Hla; change (Z.to_nat BSIZE) with 512%nat|]; lia.
  - destruct (Z.eqb_spec (ind_addr (ino j)) 0) as [|Hjz]; [done|]. rewrite upd_blk_ne; [done|].
    apply (pl_apart _ _ _ _ P j i (-1) (-1)); try done. by left.
Qed.

(** File [i] has got blocks for the places [new]; nothing else can tell. *)
Record grows (n i : nat) (g : Z -> list Z) (fb : Z) (ino : nat -> inode) (g' : Z -> list Z) (fb' : Z) (ino' : nat -> inode) (new : list Z) : Prop := {
  gw_placed : placed g' fb' n ino';
  gw_content j k : (j < n)%nat -> 0 <= k < MAXFILE -> content g' (ino' j) k = content g (ino j) k;
  gw_slots j k : (j < n)%nat -> place_of k -> slot g' (ino' j) k <> 0 <-> slot g (ino j) k <> 0 \/ (j = i /\ k ∈ new);
  gw_meta b : b < nmeta -> g' b = g b;
  gw_others j : j <> i -> ino' j = ino j;
  gw_din : exists l, ino' i = (ino i) <| i_addrs := l |>;
  gw_fb : fb' = fb + Z.of_nat (length new)
}.

Lemma grows_refl n i g fb ino : placed g fb n ino -> grows n i g fb ino g fb ino [].
Proof.
  intros P. constructor; try done.
  - intros j k _ _. split; [by left|]. intros [Hz|[_ Hk]]; [done|]. by apply not_elem_of_nil in Hk.
  - exists (i_addrs (ino i)). by destruct (ino i).
  - simpl. lia.
Qed.

Lemma grows_trans n i g fb ino g1 fb1 ino1 new1 g2 fb2 ino2 new2 :
  grows n i g fb ino g1 fb1 ino1 new1 -> grows n i g1 fb1 ino1 g2 fb2 ino2 new2 -> grows n i g fb ino g2 fb2 ino2 (new1 ++ new2).
Proof.
  intros [P1 C1 S1 M1 O1 [l1 D1] F1] [P2 C2 S2 M2 O2 [l2 D2] F2]. constructor; try done.
  - intros j k Hj Hk. by rewrite C2, C1.
  - intros j k Hj Hk. rewrite S2, S1, elem_of_app by done. tauto.
  - intros b Hb. by rewrite M2, M1.
  - intros j Hj. by rewrite O2, O1.
  - exists l2. rewrite D2, D1. by destruct (ino i).
  - rewrite length_app. lia.
Qed.

Lemma grows_assign n i g fb ino g' din k0 :
  placed g fb n ino -> (i < n)%nat -> place_of k0 -> fb < FSSIZE -> slot g (ino i) k0 = 0 ->
  (forall j k, (j < n)%nat -> place_of k -> slot g' (upd_ino i din ino j) k = if here i j k k0 then fb else slot g (ino j) k) ->
  (forall b, b <> ind_addr (ino i) \/ b = 0 -> g' b = g b) -> (forall b, length (g' b) = length (g b)) ->
  length (i_addrs din) = 13%nat -> (exists l, din = (ino i) <| i_addrs := l |>) ->
  grows n i g fb ino g' (fb + 1) (upd_ino i din ino) [k0].
Proof.
  intros P Hi Hk0 Hfb Hz Hs Hg Hl Hd Hdin. pose proof (pl_fb _ _ _ _ P) as Hf. assert (nmeta = 59) by done.
  assert (forall j, (j < n)%nat -> length (i_addrs (upd_ino i din ino j)) = 13%nat) as Ha.
  { intros j Hj. unfold upd_ino. destruct (Nat.eqb_spec j i); [done|by apply P]. }
  constructor; try done.
  - by apply (assign_placed g g' fb n ino (upd_ino i din ino) i k0).
  - intros j k Hj Hk. by apply (assign_content g g' fb n ino (upd_ino i din ino) i k0).
  - intros j k Hj Hk. rewrite Hs, list_elem_of_singleton by done. destruct (here_spec i j k k0) as [[-> ->]|Hne]; [|tauto].
    split; [tauto|lia].
  - intros b Hb. apply Hg. destruct (Z.eq_dec (ind_addr (ino i)) 0) as [->|Hiz]; [destruct (Z.eq_dec b 0); auto|]. left.
    pose proof (pl_range _ _ _ _ P i (-1) Hi ltac:(done) Hiz) as Hr. change (slot g (ino i) (-1)) with (ind_addr (ino i)) in Hr. lia.
  - intros j Hj. by apply upd_ino_ne.
  - by rewrite upd_ino_eq.
Qed.

Lemma with_addr_shape ip k b : exists l, with_addr ip k b = ip <| i_addrs := l |>.
Proof. exists (<[k := b]> (i_addrs ip)). by destruct ip. Qed.

Lemma with_addr_length ip k b : length (i_addrs (with_addr ip k b)) = length (i_addrs ip).
Proof. apply length_insert. Qed.

Lemma grows_direct n i g fb ino k0 : placed g fb n ino -> (i < n)%nat -> 0 <= k0 < NDIRECT -> fb < FSSIZE -> slot g (ino i) k0 = 0 ->
  grows n i g fb ino g (fb + 1) (upd_ino i (with_addr (ino i) (Z.to_nat k0) fb) ino) [k0].
Proof.
  intros P Hi Hk0 Hfb Hz. apply grows_assign; try done.
  - unfold place_of, NDIRECT in *. change MAXFILE with 140. lia.
  - intros j k Hj Hk. apply slots_direct; [by apply P|done|done].
  - rewrite with_addr_length. by apply P.
  - apply with_addr_shape.
Qed.

Lemma grows_ind n i g fb ino : placed g fb n ino -> (i < n)%nat -> fb < FSSIZE -> ind_addr (ino i) = 0 ->
  grows n i g fb ino g (fb + 1) (upd_ino i (with_addr (ino i) (Z.to_nat NDIRECT) fb) ino) [-1].
Proof.
  intros P Hi Hfb Hz. apply grows_assign; try done.
  - intros j k Hj Hk. apply slots_ind; [by apply P|done| |done]. apply P. lia.
  - rewrite with_addr_length. by apply P.
  - apply with_addr_shape.
Qed.

Lemma grows_entry n i g fb ino k0 : placed g fb n ino -> (i < n)%nat -> NDIRECT <= k0 < MAXFILE -> fb < FSSIZE ->
  ind_addr (ino i) <> 0 -> slot g (ino i) k0 = 0 ->
  grows n i g fb ino (upd_blk g (ind_addr (ino i)) (put32 (g (ind_addr (ino i))) (Z.to_nat (4 * (k0 - NDIRECT))) fb)) (fb + 1) (upd_ino i (ino i) ino) [k0].
Proof.
  intros P Hi Hk0 Hfb Hiz Hz. pose proof (pl_fb _ _ _ _ P) as Hf. assert (nmeta = 59) by done. apply grows_assign; try done.
  - unfold place_of, NDIRECT in *. lia.
  - intros j k Hj Hk. assert (upd_ino i (ino i) ino j = ino j) as -> by (unfold upd_ino; destruct (Nat.eqb_spec j i); by subst).
    apply (slots_entry g fb n); try done. unfold FSSIZE in Hfb. lia.
  - intros b [Hb| ->]; [by rewrite upd_blk_ne|]. by rewrite upd_blk_ne.
  - intros b. unfold upd_blk. destruct (Z.eqb_spec b (ind_addr (ino i))) as [->|]; [apply length_put32|done].
  - by apply P.
  - exists (i_addrs (ino i)). by destruct (ino i).
Qed.

(** ** The program's steps *)

Lemma rsect_run b g fi fb : b < FSSIZE -> rsect b (mkMkst g FSSIZE fi fb) = Ok (g b) (mkMkst g FSSIZE fi fb).
Proof. intros Hb. unfold rsect. mstep. simpl. by rewrite (proj2 (Z.leb_gt _ _)) by done. Qed.

Lemma wsect_run b d g fi fb : b < FSSIZE -> wsect b d (mkMkst g FSSIZE fi fb) = Ok tt (mkMkst (upd_blk g b d) FSSIZE fi fb).
Proof. intros Hb. unfold wsect, modify. assert (Z.max (b + 1) FSSIZE = FSSIZE) as E by lia. rewrite <- E at 2. reflexivity. Qed.

Lemma next_block_run g fi fb : 0 <= fb < FSSIZE -> next_block (mkMkst g FSSIZE fi fb) = Ok fb (mkMkst g FSSIZE fi (fb + 1)).
Proof. intros Hb. unfold next_block. mstep. unfold FSSIZE in Hb. assert (u32 (fb + 1) = fb + 1) as E by (apply u32_small; unfold is_u32; lia). rewrite <- E. reflexivity. Qed.

(** Blocks a file needs before it can have place [k]. *)
Definition cost (g : Z -> list Z) (ip : inode) (k : Z) : Z :=
  (if slot g ip k =? 0 then 1 else 0) + (if (NDIRECT <=? k) && (slot g ip (-1) =? 0) then 1 else 0).

Lemma slot_small g fb n ino i k : placed g fb n ino -> (i < n)%nat -> place_of k -> 0 <= slot g (ino i) k < FSSIZE.
Proof.
  intros P Hi Hk. destruct (Z.eq_dec (slot g (ino i) k) 0) as [->|Hz]; [done|].
  pose proof (pl_range _ _ _ _ P i k Hi Hk Hz). pose proof (pl_fb _ _ _ _ P). assert (nmeta = 59) by done. lia.
Qed.

Lemma xint_slot g fb n ino i k : placed g fb n ino -> (i < n)%nat -> place_of k -> xint (slot g (ino i) k) = slot g (ino i) k.
Proof. intros P Hi Hk. pose proof (slot_small g fb n ino i k P Hi Hk). unfold FSSIZE in *. apply xint_small. lia. Qed.

Lemma direct_run g fb n ino i k fi : placed g fb n ino -> (i < n)%nat -> 0 <= k < NDIRECT -> fb + cost g (ino i) k <= FSSIZE ->
  exists ino' new, file_block (ino i) k (mkMkst g FSSIZE fi fb) = Ok (slot g (ino' i) k, ino' i) (mkMkst g FSSIZE fi (fb + Z.of_nat (length new))) /\
    grows n i g fb ino g (fb + Z.of_nat (length new)) ino' new /\ Z.of_nat (length new) = cost g (ino i) k /\
    slot g (ino' i) k <> 0 /\ (forall k', k' ∈ new -> k' = k).
Proof.
  intros P Hi Hk. pose proof (pl_fb _ _ _ _ P) as Hf. assert (nmeta = 59) by done.
  assert (place_of k) as Hp by (unfold place_of, NDIRECT in *; change MAXFILE with 140; lia).
  unfold cost. rewrite (proj2 (Z.leb_gt NDIRECT k)) by lia. simpl. intros Hc.
  unfold file_block. rewrite (proj2 (Z.ltb_lt k NDIRECT)) by lia.
  rewrite <- (slot_direct g (ino i) k) by done. rewrite (xint_slot g fb n) by done.
  destruct (Z.eqb_spec (slot g (ino i) k) 0) as [Hz|Hz].
  - exists (upd_ino i (with_addr (ino i) (Z.to_nat k) fb) ino), [k]. pose proof (grows_direct n i g fb ino k P Hi Hk ltac:(lia) Hz) as G.
    assert (slot g (upd_ino i (with_addr (ino i) (Z.to_nat k) fb) ino i) k = fb) as Es.
    { rewrite slots_direct; [|by apply P|done|done]. unfold here. by rewrite Nat.eqb_refl, Z.eqb_refl. }
    rewrite Es, upd_ino_eq. split_and!; [|done|done|lia|by intros k' ->%list_elem_of_singleton].
    mcall next_block_run; [|lia]. assert (xint fb = fb) as Ex by (apply xint_small; unfold FSSIZE in *; lia). by rewrite !Ex.
  - exists ino, []. rewrite Z.add_0_r. split_and!; [done|by apply grows_refl|done|done|]. intros k' Hk'. by apply not_elem_of_nil in Hk'.
Qed.

(** The indirect block of a file. *)
Lemma ind_run g fb n ino i fi : placed g fb n ino -> (i < n)%nat -> fb + (if slot g (ino i) (-1) =? 0 then 1 else 0) <= FSSIZE ->
  exists ino' new,
    (if xint (nth (Z.to_nat NDIRECT) (i_addrs (ino i)) 0) =? 0 then b <- next_block ;; ret ((ino i) <| i_addrs ::= <[Z.to_nat NDIRECT := xint b]> |>) else ret (ino i))
      (mkMkst g FSSIZE fi fb) = Ok (ino' i) (mkMkst g FSSIZE fi (fb + Z.of_nat (length new))) /\
    grows n i g fb ino g (fb + Z.of_nat (length new)) ino' new /\ Z.of_nat (length new) = (if slot g (ino i) (-1) =? 0 then 1 else 0) /\
    slot g (ino' i) (-1) <> 0 /\ (forall k', k' ∈ new -> k' = -1) /\
    forall k, 0 <= k < MAXFILE -> slot g (ino' i) k = slot g (ino i) k.
Proof.
  intros P Hi. pose proof (pl_fb _ _ _ _ P) as Hf. assert (nmeta = 59) by done.
  change (nth (Z.to_nat NDIRECT) (i_addrs (ino i)) 0) with (slot g (ino i) (-1)). rewrite (xint_slot g fb n) by done.
  destruct (Z.eqb_spec (slot g (ino i) (-1)) 0) as [Hz|Hz]; intros Hc.
  - exists (upd_ino i (with_addr (ino i) (Z.to_nat NDIRECT) fb) ino), [-1].
    pose proof (grows_ind n i g fb ino P Hi ltac:(lia) Hz) as G.
    assert (forall k, place_of k -> slot g (upd_ino i (with_addr (ino i) (Z.to_nat NDIRECT) fb) ino i) k = if k =? -1 then fb else slot g (ino i) k) as Es.
    { intros k Hk. rewrite slots_ind; [|by apply P|done|apply P; lia|done]. unfold here. by rewrite Nat.eqb_refl. }
    split_and!; [|done|done| |by intros k' ->%list_elem_of_singleton|].
    + rewrite upd_ino_eq. mcall next_block_run; [|lia]. assert (xint fb = fb) as Ex by (apply xint_small; unfold FSSIZE in *; lia). by rewrite Ex.
    + rewrite Es by done. simpl. lia.
    + intros k Hk. rewrite Es by (unfold place_of; lia). by rewrite (proj2 (Z.eqb_neq _ _)) by lia.
  - exists ino, []. rewrite Z.add_0_r. split_and!; [done|by apply grows_refl|done|done| |done]. intros k' Hk'. by apply not_elem_of_nil in Hk'.
Qed.

Lemma file_block_run g fb n ino i k fi : placed g fb n ino -> (i < n)%nat -> 0 <= k < MAXFILE -> fb + cost g (ino i) k <= FSSIZE ->
  exists g' ino' new, file_block (ino i) k (mkMkst g FSSIZE fi fb) = Ok (slot g' (ino' i) k, ino' i) (mkMkst g' FSSIZE fi (fb + Z.of_nat (length new))) /\
    grows n i g fb ino g' (fb + Z.of_nat (length new)) ino' new /\ Z.of_nat (length new) = cost g (ino i) k /\
    slot g' (ino' i) k <> 0 /\ (NDIRECT <= k -> slot g' (ino' i) (-1) <> 0) /\ (forall k', k' ∈ new -> k' = k \/ (k' = -1 /\ NDIRECT <= k)).
Proof.
  intros P Hi Hk Hc. destruct (Z.lt_ge_cases k NDIRECT) as [Hd|Hd].
  { destruct (direct_run g fb n ino i k fi P Hi ltac:(lia) Hc) as (ino' & new & E & G & Hl & Hs & Hn).
    exists g, ino', new. split_and!; auto; lia. }
  pose proof (pl_fb _ _ _ _ P) as Hf. assert (nmeta = 59) by done. assert (place_of k) as Hp by (unfold place_of; lia).
  unfold cost in *. rewrite (proj2 (Z.leb_le NDIRECT k)) in * by lia. rewrite andb_true_l in *.
  destruct (ind_run g fb n ino i fi P Hi) as (ino1 & new1 & E1 & G1 & L1 & Hs1 & Hn1 & Hk1); [destruct (_ =? 0); lia|].
  set (fb1 := fb + Z.of_nat (length new1)) in *. pose proof (gw_placed _ _ _ _ _ _ _ _ _ G1) as P1. set (a := slot g (ino1 i) (-1)) in *.
  assert (0 <= a < FSSIZE) as Ha by (by apply (slot_small g fb1 n)). assert (xint a = a) as Exa by (apply xint_small; unfold FSSIZE in Ha; lia).
  assert (get32 (g a) (Z.to_nat (4 * (k - NDIRECT))) = slot g (ino i) k) as Ek.
  { rewrite <- Hk1 by done. rewrite slot_high by done. change (ind_addr (ino1 i)) with a. by rewrite (proj2 (Z.eqb_neq a 0) Hs1). }
  unfold file_block. rewrite (proj2 (Z.ltb_ge k NDIRECT)) by lia. erewrite bind_ok; [|exact E1].
  change (nth (Z.to_nat NDIRECT) (i_addrs (ino1 i)) 0) with a. cbv beta zeta. rewrite Exa. mcall rsect_run; [|lia]. rewrite Ek.
  destruct (Z.eqb_spec (slot g (ino i) k) 0) as [Hz|Hz].
  - assert (fb1 < FSSIZE) as Hlt by (unfold fb1; lia).
    pose proof (grows_entry n i g fb1 ino1 k P1 Hi ltac:(lia) Hlt Hs1 ltac:(by rewrite Hk1)) as G2.
    change (ind_addr (ino1 i)) with a in G2. set (g2 := upd_blk g a _) in G2.
    assert (slot g2 (upd_ino i (ino1 i) ino1 i) k = fb1) as Es.
    { rewrite upd_ino_eq. etransitivity; [apply (slots_entry g fb1 n ino1 i k i k fb1 P1); try done; unfold fb1, FSSIZE in *; lia|].
      unfold here. by rewrite Nat.eqb_refl, Z.eqb_refl. }
    exists g2, (upd_ino i (ino1 i) ino1), (new1 ++ [k]). rewrite length_app. simpl length.
    replace (fb + Z.of_nat (length new1 + 1)) with (fb1 + 1) by (unfold fb1; lia). split_and!.
    + mcall next_block_run; [|unfold fb1 in *; lia]. assert (xint fb1 = fb1) as Ex by (apply xint_small; unfold fb1, FSSIZE in *; lia). rewrite !Ex.
      mcall wsect_run; [|lia]. rewrite Es, upd_ino_eq. reflexivity.
    + eapply grows_trans; [exact G1|exact G2].
    + lia.
    + rewrite Es. unfold fb1. lia.
    + intros _. apply (gw_slots _ _ _ _ _ _ _ _ _ G2 i (-1)); [done|done|]. by left.
    + intros k' [Hk'|Hk'%list_elem_of_singleton]%elem_of_app; [right; by rewrite (Hn1 k' Hk')|by left].
  - exists g, ino1, new1. split_and!; [|done|lia|by rewrite Hk1|done|intros k' Hk'; right; by rewrite (Hn1 k' Hk')].
    rewrite (xint_slot g fb n) by done. by rewrite Hk1.
Qed.

(** A write to a block of a file changes what that block holds. *)
Lemma write_placed g fb n ino i k d : placed g fb n ino -> (i < n)%nat -> 0 <= k < MAXFILE -> slot g (ino i) k <> 0 -> length d = Z.to_nat BSIZE ->
  let g' := upd_blk g (slot g (ino i) k) d in
  placed g' fb n ino /\ (forall j l, (j < n)%nat -> place_of l -> slot g' (ino j) l = slot g (ino j) l) /\
  (forall j l, (j < n)%nat -> 0 <= l < MAXFILE -> content g' (ino j) l = if here i j l k then d else content g (ino j) l) /\
  (forall b, b < nmeta -> g' b = g b).
Proof.
  intros P Hi Hk Hz Hd g'. assert (place_of k) as Hpk by (unfold place_of; lia).
  pose proof (pl_range _ _ _ _ P i k Hi Hpk Hz) as Hr. pose proof (pl_fb _ _ _ _ P) as Hf. assert (nmeta = 59) by done.
  assert (forall j l, (j < n)%nat -> place_of l -> slot g' (ino j) l = slot g (ino j) l) as Hs.
  { intros j l Hj Hl. unfold slot. destruct (Z.eqb_spec l (-1)); [done|]. unfold addr_of. destruct (l <? NDIRECT); [done|].
    destruct (Z.eqb_spec (ind_addr (ino j)) 0) as [|Hjz]; [done|]. unfold g'. rewrite upd_blk_ne; [done|]. apply not_eq_sym.
    apply (pl_apart _ _ _ _ P i j k (-1)); try done. right. lia. }
  split_and!; [|done| |intros b Hb; unfold g'; rewrite upd_blk_ne; [done|lia]].
  - constructor.
    + intros b Hb. unfold g', upd_blk. destruct (b =? _); [done|by apply P].
    + done.
    + apply P.
    + intros j l Hj Hl. rewrite Hs by done. by apply P.
    + intros j j' l l' Hj Hj' Hl Hl' Hne. rewrite !Hs by done. by apply P.
    + intros b Hb. unfold g'. rewrite upd_blk_ne by lia. by apply P.
  - intros j l Hj Hl. rewrite !content_slot by lia. rewrite Hs by (done || unfold place_of; lia).
    destruct (here_spec i j l k) as [[-> ->]|Hne].
    + rewrite (proj2 (Z.eqb_neq _ _) Hz). apply upd_blk_eq.
    + destruct (Z.eqb_spec (slot g (ino j) l) 0) as [|Hjz]; [done|]. unfold g'. rewrite upd_blk_ne; [done|].
      apply (pl_apart _ _ _ _ P); try done; [unfold place_of; lia|]. destruct (decide (j = i)) as [->|]; [right; intros ->; tauto|by left].
Qed.

(** ** Contents *)

(** The file [ip] consists of the bytes [l], with zeroes after them, and has the blocks for
    them and no others. *)
Record holds (g : Z -> list Z) (ip : inode) (l : list Z) : Prop := {
  hd_size : Z.of_nat (length l) <= MAXFILE * BSIZE;
  hd_bytes p : 0 <= p < MAXFILE * BSIZE -> fbyte g ip p = nth (Z.to_nat p) l 0;
  hd_slots k : place_of k -> slot g ip k <> 0 <-> (if k =? -1 then NDIRECT * BSIZE else k * BSIZE) < Z.of_nat (length l)
}.

(** Blocks for [n] bytes. *)
Definition need (n : Z) : Z := (n + BSIZE - 1) / BSIZE + (if NDIRECT * BSIZE <? n then 1 else 0).

Lemma need_cost g ip l c : holds g ip l -> 0 < c -> Z.of_nat (length l) mod BSIZE + c <= BSIZE -> Z.of_nat (length l) + c <= MAXFILE * BSIZE ->
  cost g ip (Z.of_nat (length l) / BSIZE) = need (Z.of_nat (length l) + c) - need (Z.of_nat (length l)).
Proof.
  intros Hh Hc Hm Hmax. set (off := Z.of_nat (length l)) in *. unfold cost, need.
  change BSIZE with 512 in *. change NDIRECT with 12 in *. change MAXFILE with 140 in *. set (k := off / 512) in *.
  assert (off = 512 * k + off mod 512 /\ 0 <= off mod 512 < 512) as [Ho Hb] by (unfold k; Z.to_euclidean_division_equations; lia).
  assert (place_of k /\ place_of (-1)) as [Hpk Hp1] by (unfold place_of; change MAXFILE with 140; lia).
  pose proof (hd_slots _ _ _ Hh k Hpk) as Sk. pose proof (hd_slots _ _ _ Hh (-1) Hp1) as Si. fold off in Sk, Si.
  rewrite (proj2 (Z.eqb_neq k (-1))) in Sk by lia. simpl in Si. change BSIZE with 512 in *. change (NDIRECT * 512) with (12 * 512) in *.
  assert ((off + c + 512 - 1) / 512 = k + 1) as -> by (symmetry; apply (Z.div_unique_pos _ _ _ (off mod 512 + c - 1)); lia).
  assert ((off + 512 - 1) / 512 = if off mod 512 =? 0 then k else k + 1) as ->.
  { destruct (Z.eqb_spec (off mod 512) 0); symmetry; [apply (Z.div_unique_pos _ _ _ 511); lia|apply (Z.div_unique_pos _ _ _ (off mod 512 - 1)); lia]. }
  destruct (Z.eqb_spec (slot g ip k) 0), (Z.leb_spec 12 k), (Z.eqb_spec (slot g ip (-1)) 0), (Z.eqb_spec (off mod 512) 0),
    (Z.ltb_spec (12 * 512) (off + c)), (Z.ltb_spec (12 * 512) off); simpl; lia.
Qed.

Lemma holds_content g ip g' ip' l :
  (forall k, 0 <= k < MAXFILE -> content g' ip' k = content g ip k) ->
  (forall k, place_of k -> slot g' ip' k <> 0 <-> slot g ip k <> 0) -> holds g ip l -> holds g' ip' l.
Proof.
  intros Hc Hs [Hz Hb Hk]. constructor; [done| |].
  - intros p Hp. unfold fbyte. rewrite Hc by (apply block_range; lia). by apply Hb.
  - intros k Hpk. by rewrite Hs, Hk.
Qed.

(** A file that has got its block and the bytes in it. *)
Lemma holds_append g ip g' ip' l c :
  holds g ip l -> 0 < Z.of_nat (length c) -> Z.of_nat (length l) mod BSIZE + Z.of_nat (length c) <= BSIZE ->
  Z.of_nat (length l) + Z.of_nat (length c) <= MAXFILE * BSIZE ->
  let k := Z.of_nat (length l) / BSIZE in
  length (content g ip k) = Z.to_nat BSIZE ->
  (forall j, 0 <= j < MAXFILE -> content g' ip' j = if j =? k then splice (Z.to_nat (Z.of_nat (length l) mod BSIZE)) c (content g ip k) else content g ip j) ->
  (forall j, place_of j -> slot g' ip' j <> 0 <-> slot g ip j <> 0 \/ j = k \/ (j = -1 /\ NDIRECT <= k)) ->
  holds g' ip' (l ++ c).
Proof.
  intros [Hz Hb Hk] Hc Hm Hmax k Hl Hcon Hs. set (off := Z.of_nat (length l)) in *. pose proof BSIZE_pos as HB.
  assert (off = BSIZE * k + off mod BSIZE) as Ho by (unfold k; apply Z.div_mod; lia). pose proof (Z.mod_pos_bound off BSIZE HB) as Hob.
  constructor; rewrite ?length_app, ?Nat2Z.inj_add; fold off.
  - lia.
  - intros p Hp. pose proof (block_range p ltac:(lia)) as Hr. unfold fbyte. rewrite Hcon by done.
    assert (p = BSIZE * (p / BSIZE) + p mod BSIZE) as Ep by (apply Z.div_mod; lia). pose proof (Z.mod_pos_bound p BSIZE HB).
    destruct (Z.eqb_spec (p / BSIZE) k) as [Ek|Ek].
    + rewrite nth_splice by (rewrite Hl; lia). rewrite Ek in Ep. destruct (Z.lt_ge_cases p off) as [Hlt|Hge].
      * rewrite (proj2 (Nat.leb_gt _ _)) by lia. simpl. rewrite app_nth1 by lia. rewrite <- Hb by lia. unfold fbyte. by rewrite Ek.
      * rewrite (proj2 (Nat.leb_le _ _)) by lia. simpl. rewrite app_nth2 by lia. destruct (Nat.ltb_spec (Z.to_nat (p mod BSIZE)) (Z.to_nat (off mod BSIZE) + length c)).
        -- f_equal. lia.
        -- rewrite (nth_overflow c) by lia. etransitivity; [|apply (nth_overflow l (n := Z.to_nat p)); lia]. rewrite <- Hb by lia. unfold fbyte. by rewrite Ek.
    + assert (p < off \/ off + Z.of_nat (length c) <= p) as Hout.
      { destruct (Z.lt_ge_cases p off); [by left|]. right. destruct (Z.lt_ge_cases p (off + Z.of_nat (length c))); [|done]. exfalso. apply Ek. symmetry.
        apply (Z.div_unique_pos _ _ _ (p - BSIZE * k)); lia. }
      change (nth (Z.to_nat (p mod BSIZE)) (content g ip (p / BSIZE)) 0) with (fbyte g ip p). rewrite Hb by lia.
      destruct Hout; [by rewrite app_nth1 by lia|]. rewrite !nth_overflow; [done|rewrite length_app; lia|lia].
  - intros j Hj. rewrite Hs, Hk by done. change NDIRECT with 12. change BSIZE with 512 in *. unfold place_of in Hj.
    destruct (Z.eqb_spec j (-1)); lia.
Qed.

(** The files hold [cs]. *)
Record files (g : Z -> list Z) (fb : Z) (ino : nat -> inode) (cs : list (list Z)) : Prop := {
  fl_placed : placed g fb (length cs) ino;
  fl_holds j l : cs !! j = Some l -> holds g (ino j) l
}.

(** Only the addresses of an inode matter. *)
Lemma files_ext g fb ino ino' cs : (forall j, i_addrs (ino' j) = i_addrs (ino j)) -> files g fb ino cs -> files g fb ino' cs.
Proof.
  intros E [P Hh].
  assert (forall j k, slot g (ino' j) k = slot g (ino j) k) as Hs by (intros j k; unfold slot, addr_of, ind_addr; by rewrite E).
  constructor.
  - destruct P as [H1 H2 H3 H4 H5 H6]. constructor; try done.
    + intros j Hj. rewrite E. by apply H3.
    + intros j k. rewrite Hs. apply H4.
    + intros j j' k l. rewrite !Hs. apply H5.
  - intros j l Hj. apply (holds_content g (ino j)); [| |by apply Hh].
    + intros k Hk. rewrite !content_slot by lia. by rewrite Hs.
    + intros k _. by rewrite Hs.
Qed.

(** Something was appended to file [i], in data blocks. *)
Record appended (i : nat) (g : Z -> list Z) (ino : nat -> inode) (g' : Z -> list Z) (ino' : nat -> inode) : Prop := {
  ap_meta b : b < nmeta -> g' b = g b;
  ap_others j : j <> i -> ino' j = ino j;
  ap_din : exists l, ino' i = (ino i) <| i_addrs := l |>
}.

Lemma appended_refl i g ino : appended i g ino g ino.
Proof. constructor; try done. exists (i_addrs (ino i)). by destruct (ino i). Qed.

Lemma appended_trans i g ino g1 ino1 g2 ino2 : appended i g ino g1 ino1 -> appended i g1 ino1 g2 ino2 -> appended i g ino g2 ino2.
Proof.
  intros [M1 O1 [l1 D1]] [M2 O2 [l2 D2]]. constructor.
  - intros b Hb. by rewrite M2, M1.
  - intros j Hj. by rewrite O2, O1.
  - exists l2. rewrite D2, D1. by destruct (ino i).
Qed.

Lemma content_block g fb n ino i k : placed g fb n ino -> (i < n)%nat -> 0 <= k < MAXFILE -> length (content g (ino i) k) = Z.to_nat BSIZE.
Proof.
  intros P Hi Hk. rewrite content_slot by lia. destruct (Z.eqb_spec (slot g (ino i) k) 0) as [|Hz]; [done|].
  apply P. apply (slot_small g fb n); [done|done|unfold place_of; lia].
Qed.

(** One round of [iappend]. *)
Lemma round_run {A} g fb ino cs i l c fi (K : inode -> MK A) :
  files g fb ino cs -> cs !! i = Some l -> let off := Z.of_nat (length l) in
  0 < Z.of_nat (length c) -> off mod BSIZE + Z.of_nat (length c) <= BSIZE -> off + Z.of_nat (length c) <= MAXFILE * BSIZE ->
  let fb' := fb + (need (off + Z.of_nat (length c)) - need off) in fb' <= FSSIZE ->
  exists g' ino',
    (r <- file_block (ino i) (off / BSIZE) ;; let '(x, din) := r in
     buf <- rsect x ;; wsect x (splice (Z.to_nat (off mod BSIZE)) c buf) ;; K din) (mkMkst g FSSIZE fi fb) = K (ino' i) (mkMkst g' FSSIZE fi fb') /\
    files g' fb' ino' (<[i := l ++ c]> cs) /\ appended i g ino g' ino'.
Proof.
  intros [P Hh] Hi off Hc Hm Hmax fb' Hfb. set (k := off / BSIZE). pose proof (Hh _ _ Hi) as Hhi.
  assert (i < length cs)%nat as Hlt by (by eapply lookup_lt_Some). pose proof BSIZE_pos as HB.
  assert (0 <= k < MAXFILE) as Hk by (apply block_range; lia). assert (place_of k) as Hpk by (unfold place_of; lia).
  pose proof (need_cost g (ino i) l (Z.of_nat (length c)) Hhi Hc Hm Hmax) as Hcost. fold off in Hcost. fold k in Hcost.
  assert (fb' = fb + cost g (ino i) k) as Efb by (unfold fb'; lia). clearbody fb'.
  destruct (file_block_run g fb (length cs) ino i k fi P Hlt Hk ltac:(lia)) as (g1 & ino1 & new & E & G & Hl & Hs & Hs1 & Hn).
  replace (fb + Z.of_nat (length new)) with fb' in E, G by lia. pose proof (gw_placed _ _ _ _ _ _ _ _ _ G) as P1.
  pose proof (content_block g fb _ ino i k P Hlt Hk) as Hlen.
  assert (g1 (slot g1 (ino1 i) k) = content g (ino i) k) as Ex.
  { rewrite <- (gw_content _ _ _ _ _ _ _ _ _ G) by done. rewrite content_slot by lia. by rewrite (proj2 (Z.eqb_neq _ _) Hs). }
  set (d := splice (Z.to_nat (off mod BSIZE)) c (content g (ino i) k)). pose proof (Z.mod_pos_bound off BSIZE HB) as Hob.
  assert (length d = Z.to_nat BSIZE) as Hd by (unfold d; rewrite splice_length, Hlen by (rewrite Hlen; lia); done).
  destruct (write_placed g1 fb' _ ino1 i k d P1 Hlt Hk Hs Hd) as (P2 & S2 & C2 & M2). set (g2 := upd_blk g1 _ d) in *.
  pose proof (slot_small _ _ _ _ i k P1 Hlt Hpk) as Hx.
  exists g2, ino1. split_and!.
  - erewrite bind_ok; [|exact E]. cbv iota. mcall rsect_run; [|lia]. rewrite Ex. mcall wsect_run; [|lia]. done.
  - constructor; [by rewrite length_insert|]. intros j l' Hj. destruct (decide (j = i)) as [->|Hne].
    + rewrite list_lookup_insert_eq in Hj by done. injection Hj as <-. apply (holds_append g (ino i)); try done.
      * intros j Hj. rewrite C2 by done. unfold here. rewrite Nat.eqb_refl. simpl. fold off. fold k. destruct (j =? k); [done|by apply G].
      * intros j Hj. rewrite S2 by done. fold off. fold k. pose proof (gw_slots _ _ _ _ _ _ _ _ _ G i j Hlt Hj) as Hsj. split.
        -- intros [Hz|[_ Hz]]%Hsj; [by left|]. right. by apply Hn.
        -- intros [Hz|[->|[-> Hz]]]; [apply Hsj; by left|done|by apply Hs1].
    + rewrite list_lookup_insert_ne in Hj by done. pose proof (lookup_lt_Some _ _ _ Hj) as Hjl.
      apply (holds_content g (ino j)); [| |by apply Hh].
      * intros k' Hk'. rewrite C2 by done. destruct (here_spec i j k' k) as [[-> _]|_]; [done|]. by apply G.
      * intros k' Hk'. rewrite S2 by done. rewrite (gw_slots _ _ _ _ _ _ _ _ _ G) by done. split; [intros [?|[? _]]; done|by left].
  - constructor; [intros b Hb; by rewrite M2, (gw_meta _ _ _ _ _ _ _ _ _ G)|apply G|apply G].
Qed.

Lemma need_mono a b : 0 <= a <= b -> need a <= need b.
Proof.
  intros Hab. unfold need. pose proof (Z.div_le_mono (a + BSIZE - 1) (b + BSIZE - 1) BSIZE BSIZE_pos ltac:(lia)).
  destruct (Z.ltb_spec (NDIRECT * BSIZE) a), (Z.ltb_spec (NDIRECT * BSIZE) b); lia.
Qed.

Lemma iappend_loop_step fuel din off p : p <> [] -> iappend_loop (S fuel) din off p =
  (let fbn := off / BSIZE in
   if MAXFILE <=? fbn then panic "assert" else
   r <- file_block din fbn ;; let '(x, din) := r in
   let n1 := Z.to_nat (Z.min (Z.of_nat (length p)) ((fbn + 1) * BSIZE - off)) in
   buf <- rsect x ;; wsect x (splice (Z.to_nat (off - fbn * BSIZE)) (take n1 p) buf) ;;
   iappend_loop fuel din (off + Z.of_nat n1) (drop n1 p)).
Proof. by destruct p. Qed.

Lemma iappend_loop_run i fi fuel : forall p l g fb ino cs,
  files g fb ino cs -> cs !! i = Some l -> (length p <= fuel)%nat -> let off := Z.of_nat (length l) in
  off + Z.of_nat (length p) <= MAXFILE * BSIZE -> fb + (need (off + Z.of_nat (length p)) - need off) <= FSSIZE ->
  exists g' ino', iappend_loop fuel (ino i) off p (mkMkst g FSSIZE fi fb) =
      Ok (ino' i, off + Z.of_nat (length p)) (mkMkst g' FSSIZE fi (fb + (need (off + Z.of_nat (length p)) - need off))) /\
    files g' (fb + (need (off + Z.of_nat (length p)) - need off)) ino' (<[i := l ++ p]> cs) /\ appended i g ino g' ino'.
Proof.
  induction fuel as [|fuel IH]; intros p l g fb ino cs F Hi Hf off Hmax Hfb; (destruct (decide (p = [])) as [->|Hne]; [exists g, ino|]).
  1,3: simpl; rewrite app_nil_r, list_insert_id, Z.add_0_r, Z.sub_diag, Z.add_0_r by done; split_and!; [done|done|apply appended_refl].
  { destruct p; [done|]. simpl in Hf. lia. }
  pose proof BSIZE_pos as HB. pose proof (Z.mod_pos_bound off BSIZE HB) as Hob. pose proof (Z.div_mod off BSIZE ltac:(lia)) as Ho.
  set (k := off / BSIZE) in *. set (n1 := Z.to_nat (Z.min (Z.of_nat (length p)) ((k + 1) * BSIZE - off))).
  assert (1 <= length p)%nat as Hp by (destruct p; [done|simpl; lia]).
  assert (Z.of_nat n1 = Z.min (Z.of_nat (length p)) ((k + 1) * BSIZE - off)) as En1 by (unfold n1; lia).
  assert (1 <= n1 <= length p)%nat as Hn1 by lia. assert (length (take n1 p) = n1) as Hl1 by (rewrite length_take; lia).
  assert (length (drop n1 p) = (length p - n1)%nat) as Hl2 by apply length_drop.
  assert (k < MAXFILE) as Hk by (apply Z.div_lt_upper_bound; lia).
  pose proof (need_mono (off + Z.of_nat n1) (off + Z.of_nat (length p)) ltac:(lia)) as Hmono.
  destruct (round_run g fb ino cs i l (take n1 p) fi (fun din => iappend_loop fuel din (off + Z.of_nat n1) (drop n1 p)) F Hi)
    as (g1 & ino1 & E1 & F1 & A1); try (rewrite Hl1; fold off; lia).
  rewrite Hl1 in E1, F1. fold off in E1, F1. set (fb1 := fb + (need (off + Z.of_nat n1) - need off)) in *.
  destruct (IH (drop n1 p) (l ++ take n1 p) g1 fb1 ino1 (<[i := l ++ take n1 p]> cs) F1) as (g2 & ino2 & E2 & F2 & A2);
    rewrite ?length_app, ?Hl1, ?Hl2; rewrite ?list_lookup_insert_eq by (by eapply lookup_lt_Some); try done; fold off; try (unfold fb1; rewrite ?Nat2Z.inj_add; fold off).
  - lia.
  - lia.
  - replace (off + Z.of_nat n1 + Z.of_nat (length p - n1)) with (off + Z.of_nat (length p)) by lia. lia.
  - rewrite length_app, Hl1, Hl2, Nat2Z.inj_add in E2, F2. fold off in E2, F2.
    replace (off + Z.of_nat n1 + Z.of_nat (length p - n1)) with (off + Z.of_nat (length p)) in E2, F2 by lia.
    replace (fb1 + (need (off + Z.of_nat (length p)) - need (off + Z.of_nat n1))) with (fb + (need (off + Z.of_nat (length p)) - need off)) in E2, F2 by (unfold fb1; lia).
    exists g2, ino2. split_and!.
    + rewrite <- E2, <- E1, iappend_loop_step by done. cbv zeta. fold k. rewrite (proj2 (Z.leb_gt _ _)) by done. fold n1.
      replace (off - k * BSIZE) with (off mod BSIZE) by lia. done.
    + rewrite list_insert_insert_eq, <- (assoc_L (++)), take_drop in F2. done.
    + by eapply appended_trans.
Qed.

(** ** Images *)

Definition file_inode (inum t z : Z) (a : list Z) : inode := mkInode 0 inum 0 0 t 0 0 1 z a.

Definition total (fs : list (Z * list Z)) : Z := foldr (fun f z => need (Z.of_nat (length f.2)) + z) 0 fs.

(** How many inodes the inode blocks have room for; [ialloc] does not look. *)
Definition inode_room : nat := Z.to_nat (ninodeblocks * IPB - 1).

(** Inode [i + 1], as it is on the disk. *)
Definition disk_inode (g : Z -> list Z) (i : nat) : inode :=
  load_dinode (g (IBLOCK (Z.of_nat i + 1) sb)) (dinode_at (Z.of_nat i + 1)) (blank (Z.of_nat i + 1)).

(** The image has the files [fs]: their types and contents, by inode number. *)
Record image (g : Z -> list Z) (fb : Z) (ino : nat -> inode) (fs : list (Z * list Z)) : Prop := {
  im_files : files g fb ino fs.*2;
  im_shape i t l : fs !! i = Some (t, l) -> s16_ok t /\ exists a, ino i = file_inode (Z.of_nat i + 1) t (Z.of_nat (length l)) a;
  im_disk i : (i < length fs)%nat -> disk_inode g i = ino i;
  im_fb : fb = nmeta + total fs;
  im_room : (length fs <= inode_room)%nat;
  im_sb : g 1 = splice 0 sb_bytes zeroes
}.

Lemma total_insert fs i t l l' : fs !! i = Some (t, l) ->
  total (<[i := (t, l')]> fs) = total fs + (need (Z.of_nat (length l')) - need (Z.of_nat (length l))).
Proof.
  revert i. induction fs as [|[t0 l0] fs IH]; intros [|i]; simpl; try done.
  - intros [= -> ->]. lia.
  - intros Hi. rewrite (IH i Hi). lia.
Qed.

Lemma total_app fs fs' : total (fs ++ fs') = total fs + total fs'.
Proof. induction fs as [|f fs IH]; simpl; [done|]. rewrite IH. lia. Qed.

Lemma iblock i : (i < inode_room)%nat -> IBLOCK (Z.of_nat i + 1) sb = (Z.of_nat i + 1) / 8 + 32 /\ 32 <= (Z.of_nat i + 1) / 8 + 32 < 58.
Proof.
  change inode_room with 207%nat. intros Hi. unfold IBLOCK. change IPB with 8. change (sb_inodestart sb) with 32.
  assert (0 <= (Z.of_nat i + 1) / 8 < 26) by (Z.to_euclidean_division_equations; lia). rewrite u32_small by (unfold is_u32; lia). lia.
Qed.

Lemma load_ext d d' k ip0 : (forall j, (k <= j < k + 64)%nat -> nth j d 0 = nth j d' 0) -> load_dinode d k ip0 = load_dinode d' k ip0.
Proof.
  intros E. unfold load_dinode. rewrite !(get16_ext d d') by (intros; apply E; lia). rewrite (get32_ext d d' (k + 8)) by (intros; apply E; lia).
  assert ((fun j => get32 d (k + 12 + 4 * j)) <$> seq 0 (Z.to_nat (NDIRECT + 1)) = (fun j => get32 d' (k + 12 + 4 * j)) <$> seq 0 (Z.to_nat (NDIRECT + 1))) as ->; [|done].
  apply list_fmap_ext. intros m j Hj.
  apply lookup_seq in Hj as [-> Hm]. change (Z.to_nat (NDIRECT + 1)) with 13%nat in Hm. apply get32_ext. intros; apply E; lia.
Qed.

(** Inodes do not share bytes. *)
Lemma disk_inode_other g i j ip : (i < inode_room)%nat -> (j < inode_room)%nat -> i <> j -> length (i_addrs ip) = 13%nat ->
  length (g (IBLOCK (Z.of_nat i + 1) sb)) = Z.to_nat BSIZE ->
  disk_inode (upd_blk g (IBLOCK (Z.of_nat i + 1) sb) (store_dinode (g (IBLOCK (Z.of_nat i + 1) sb)) (dinode_at (Z.of_nat i + 1)) ip)) j = disk_inode g j.
Proof.
  intros Hi Hj Hne Hl Hlen. unfold disk_inode. destruct (iblock i Hi) as [Ei _], (iblock j Hj) as [Ej _].
  unfold upd_blk. destruct (Z.eqb_spec (IBLOCK (Z.of_nat j + 1) sb) (IBLOCK (Z.of_nat i + 1) sb)) as [E|]; [|done].
  rewrite E. apply load_ext. intros m Hm. apply store_other; [rewrite Hlen; apply dinode_at_fits|done|].
  rewrite Ei, Ej in E. revert Hm. unfold dinode_at, sizeof_dinode. change IPB with 8.
  pose proof (Z.mod_pos_bound (Z.of_nat i + 1) 8). pose proof (Z.mod_pos_bound (Z.of_nat j + 1) 8).
  assert ((Z.of_nat i + 1) mod 8 <> (Z.of_nat j + 1) mod 8) by (Z.to_euclidean_division_equations; lia). lia.
Qed.

(** Writing below the data blocks leaves the files alone. *)
Lemma files_meta g fb ino cs b d : files g fb ino cs -> b < nmeta -> length d = Z.to_nat BSIZE -> files (upd_blk g b d) fb ino cs.
Proof.
  intros [P Hh] Hb Hd. assert (nmeta = 59) by done. pose proof (pl_fb _ _ _ _ P) as Hf.
  assert (forall j k, (j < length cs)%nat -> place_of k -> slot (upd_blk g b d) (ino j) k = slot g (ino j) k) as Hs.
  { intros j k Hj Hk. unfold slot. destruct (k =? -1); [done|]. unfold addr_of. destruct (k <? NDIRECT); [done|].
    destruct (Z.eqb_spec (ind_addr (ino j)) 0) as [|Hz]; [done|]. rewrite upd_blk_ne; [done|].
    pose proof (pl_range _ _ _ _ P j (-1) Hj ltac:(done) Hz) as Hr. change (slot g (ino j) (-1)) with (ind_addr (ino j)) in Hr. lia. }
  constructor.
  - constructor.
    + intros c Hc. unfold upd_blk. destruct (c =? b); [done|by apply P].
    + done.
    + apply P.
    + intros j k Hj Hk. rewrite Hs by done. by apply P.
    + intros j j' k l Hj Hj' Hk Hl Hne. rewrite !Hs by done. by apply P.
    + intros c Hc. rewrite upd_blk_ne by lia. by apply P.
  - intros j l Hj. pose proof (lookup_lt_Some _ _ _ Hj) as Hjl. apply (holds_content g (ino j)); [| |by apply Hh].
    + intros k Hk. assert (place_of k) as Hpk by (unfold place_of; lia). rewrite !content_slot by lia. rewrite Hs by done.
      destruct (Z.eqb_spec (slot g (ino j) k) 0) as [|Hz]; [done|]. rewrite upd_blk_ne; [done|].
      pose proof (pl_range _ _ _ _ P j k Hjl Hpk Hz). lia.
    + intros k Hk. by rewrite Hs.
Qed.

Lemma fields_file inum t z a : s16_ok t -> 0 <= z < 2 ^ 32 -> length a = 13%nat -> Forall (fun x => 0 <= x < 2 ^ 32) a -> fields_ok (file_inode inum t z a).
Proof. intros Ht Hz Hl Ha. unfold fields_ok, file_inode; simpl. split_and!; try done; unfold s16_ok; lia. Qed.

Lemma addrs_small g fb n ino i : placed g fb n ino -> (i < n)%nat -> Forall (fun x => 0 <= x < 2 ^ 32) (i_addrs (ino i)).
Proof.
  intros P Hi. apply list.Forall_lookup. intros m a Hm. pose proof (lookup_lt_Some _ _ _ Hm) as Hlt. rewrite (pl_addrs _ _ _ _ P i Hi) in Hlt.
  assert (exists k, place_of k /\ slot g (ino i) k = a) as (k & Hk & <-).
  { assert (nth m (i_addrs (ino i)) 0 = a) as Ea by (by rewrite nth_lookup, Hm). destruct (decide (m = 12%nat)) as [->|Hne].
    - exists (-1). split; [done|exact Ea].
    - exists (Z.of_nat m). assert (0 <= Z.of_nat m < NDIRECT) by (unfold NDIRECT; lia). split.
      + unfold place_of. change MAXFILE with 140. unfold NDIRECT in *. lia.
      + rewrite slot_direct by done. by rewrite Nat2Z.id. }
  pose proof (slot_small g fb n ino i k P Hi Hk). unfold FSSIZE in *. lia.
Qed.

Lemma winode_run g fb ino cs i ip fi : files g fb ino cs -> (i < inode_room)%nat -> fields_ok ip ->
  exists g', winode (Z.of_nat i + 1) ip (mkMkst g FSSIZE fi fb) = Ok tt (mkMkst g' FSSIZE fi fb) /\ files g' fb ino cs /\
    disk_inode g' i = with_fields ip (blank (Z.of_nat i + 1)) /\
    (forall j, (j < inode_room)%nat -> j <> i -> disk_inode g' j = disk_inode g j) /\ g' 1 = g 1.
Proof.
  intros F Hi Hf. destruct (iblock i Hi) as [Eb Hb]. rewrite <- Eb in Hb. set (b := IBLOCK (Z.of_nat i + 1) sb) in *.
  assert (length (g b) = Z.to_nat BSIZE) as Hlen by (apply (fl_placed _ _ _ _ F); unfold FSSIZE; lia).
  exists (upd_blk g b (store_dinode (g b) (dinode_at (Z.of_nat i + 1)) ip)). split_and!.
  - unfold winode. fold b. mcall rsect_run; [|unfold FSSIZE; lia]. apply wsect_run. unfold FSSIZE. lia.
  - apply files_meta; [done|change nmeta with 59; lia|by rewrite store_dinode_length].
  - unfold disk_inode. fold b. rewrite upd_blk_eq. apply load_store; [rewrite Hlen; apply dinode_at_fits|done].
  - intros j Hj Hne. apply disk_inode_other; try done. apply Hf.
  - rewrite upd_blk_ne; [done|lia].
Qed.

Lemma rinode_run g fb i fi : (i < inode_room)%nat -> rinode (Z.of_nat i + 1) (mkMkst g FSSIZE fi fb) = Ok (disk_inode g i) (mkMkst g FSSIZE fi fb).
Proof. intros Hi. destruct (iblock i Hi) as [Eb Hb]. unfold rinode. mcall rsect_run; [done|]. rewrite Eb. unfold FSSIZE. lia. Qed.

(** A new inode has no blocks. *)
Lemma files_new g fb ino cs ip : files g fb ino cs -> i_addrs ip = replicate 13 0 -> files g fb (upd_ino (length cs) ip ino) (cs ++ [[]]).
Proof.
  intros [P Hh] Ha. set (n := length cs) in *.
  assert (forall k, place_of k -> slot g ip k = 0) as Hz.
  { intros k Hk. assert (forall m, nth m (i_addrs ip) 0 = 0) as Hn by (intros m; rewrite Ha; do 13 (destruct m as [|m]; [done|]); by destruct m).
    unfold slot, addr_of, ind_addr. rewrite !Hn. simpl. by destruct (k =? -1), (k <? NDIRECT). }
  assert (forall j, (j < n)%nat -> upd_ino n ip ino j = ino j) as Ho by (intros j Hj; apply upd_ino_ne; lia).
  constructor; [rewrite length_app; simpl|].
  - constructor; try apply P.
    + intros j Hj. unfold upd_ino. destruct (Nat.eqb_spec j n); [by rewrite Ha|apply P; lia].
    + intros j k Hj Hk. unfold upd_ino. destruct (Nat.eqb_spec j n); [by rewrite Hz|apply P; [lia|done]].
    + intros j j' k l Hj Hj' Hk Hl Hne. unfold upd_ino. destruct (Nat.eqb_spec j n); [by rewrite Hz|].
      destruct (Nat.eqb_spec j' n); [rewrite (Hz l Hl); done|]. apply (pl_apart _ _ _ _ P); (lia || done).
  - intros j l Hj. destruct (decide (j = n)) as [->|Hne].
    + rewrite upd_ino_eq. unfold n in Hj. rewrite lookup_app_r, Nat.sub_diag in Hj by done. injection Hj as <-. constructor.
      * done.
      * intros p Hp. pose proof (block_range p Hp). unfold fbyte. rewrite content_slot, Hz by (lia || unfold place_of; lia).
        rewrite Z.eqb_refl. unfold zeros. rewrite nth_lookup, lookup_replicate_2; [by destruct (Z.to_nat p)|]. pose proof (Z.mod_pos_bound p BSIZE BSIZE_pos). lia.
      * intros k Hk. rewrite Hz by done. split; [done|]. unfold place_of in Hk. change NDIRECT with 12. change BSIZE with 512. simpl. destruct (Z.eqb_spec k (-1)); lia.
    + assert (j < n)%nat as Hlt. { apply lookup_lt_Some in Hj. rewrite length_app in Hj. simpl in Hj. lia. }
      rewrite Ho by done. apply Hh. by rewrite lookup_app_l in Hj.
Qed.

Lemma ialloc_run g fb ino fs t : image g fb ino fs -> (length fs < inode_room)%nat -> 0 <= t < 2 ^ 15 ->
  exists g' ino', ialloc t (mkMkst g FSSIZE (Z.of_nat (length fs) + 1) fb) =
      Ok (Z.of_nat (length fs) + 1) (mkMkst g' FSSIZE (Z.of_nat (length fs) + 2) fb) /\ image g' fb ino' (fs ++ [(t, [])]).
Proof.
  intros [F Hsh Hd Hfb Hroom Hsb] Hlt Ht. set (n := length fs) in *. set (ip := file_inode (Z.of_nat n + 1) t 0 (replicate 13 0)).
  assert (length fs.*2 = n) as Hn by apply length_fmap.
  pose proof (files_new g fb ino fs.*2 ip F eq_refl) as F1. rewrite Hn in F1.
  destruct (winode_run g fb _ _ n ip (Z.of_nat n + 2) F1 Hlt) as (g' & E & F' & Ei & Ej & E1).
  { apply fields_file; [unfold s16_ok; lia|lia|done|]. apply Forall_replicate. lia. }
  exists g', (upd_ino n ip ino). split.
  - unfold ialloc. mstep. assert (u32 (Z.of_nat n + 1 + 1) = Z.of_nat n + 2) as Eu.
    { change inode_room with 207%nat in Hlt. rewrite u32_small by (unfold is_u32; lia). lia. }
    cbn [m_freeinode]. rewrite Eu. erewrite bind_ok; [reflexivity|]. rewrite <- E. f_equal. unfold ip, file_inode.
    assert (xshort t = t) as -> by (unfold xshort, byte_of, u8; change (2 ^ (8 * 0)) with 1; change (2 ^ (8 * 1)) with 256; change (2 ^ 8) with 256; Z.to_euclidean_division_equations; lia).
    reflexivity.
  - constructor.
    + by rewrite fmap_app.
    + intros i t' l Hi. destruct (decide (i = n)) as [->|Hne].
      * unfold n in Hi. rewrite lookup_app_r, Nat.sub_diag in Hi by done. injection Hi as <- <-. split; [unfold s16_ok; lia|]. rewrite upd_ino_eq. by eexists.
      * rewrite upd_ino_ne by done. apply Hsh. rewrite lookup_app_l in Hi; [done|]. apply lookup_lt_Some in Hi. rewrite length_app in Hi. simpl in Hi. lia.
    + intros i Hi. rewrite length_app in Hi. simpl in Hi. destruct (decide (i = n)) as [->|Hne]; [by rewrite Ei, upd_ino_eq|].
      rewrite Ej, upd_ino_ne by (done || lia). apply Hd. lia.
    + rewrite total_app. change (total [(t, [])]) with 0. lia.
    + rewrite length_app. simpl. lia.
    + by rewrite E1.
Qed.

Lemma iappend_run g fb ino fs i t l p fi : image g fb ino fs -> fs !! i = Some (t, l) ->
  Z.of_nat (length l) + Z.of_nat (length p) <= MAXFILE * BSIZE -> nmeta + total (<[i := (t, l ++ p)]> fs) <= FSSIZE ->
  exists g' fb' ino', iappend (Z.of_nat i + 1) p (mkMkst g FSSIZE fi fb) = Ok tt (mkMkst g' FSSIZE fi fb') /\
    image g' fb' ino' (<[i := (t, l ++ p)]> fs).
Proof.
  intros [F Hsh Hd Hfb Hroom Hsb] Hi Hmax. rewrite (total_insert _ _ _ _ _ Hi), length_app, Nat2Z.inj_add. intros Hfit.
  pose proof (lookup_lt_Some _ _ _ Hi) as Hlt. destruct (Hsh _ _ _ Hi) as (Ht & a & Ea).
  assert (fs.*2 !! i = Some l) as Hi2 by (by rewrite list_lookup_fmap, Hi).
  set (off := Z.of_nat (length l)) in *. set (fb' := fb + (need (off + Z.of_nat (length p)) - need off)).
  destruct (iappend_loop_run i fi (length p) p l g fb ino fs.*2 F Hi2) as (g1 & ino1 & E1 & F1 & A1); [done|done|fold off; lia|].
  fold off in E1, F1. fold fb' in E1, F1. destruct A1 as [M1 O1 [a1 D1]].
  assert (off + Z.of_nat (length p) < 2 ^ 32) as Hbig by (change (MAXFILE * BSIZE) with 71680 in Hmax; lia).
  set (ip := file_inode (Z.of_nat i + 1) t (off + Z.of_nat (length p)) (i_addrs (ino1 i))).
  assert (i < length (<[i := l ++ p]> fs.*2))%nat as Hlt1 by (by rewrite length_insert, length_fmap).
  destruct (winode_run g1 fb' ino1 _ i ip fi F1 ltac:(lia)) as (g2 & E2 & F2 & Ei & Ej & Es).
  { apply fields_file; [done|lia|apply (fl_placed _ _ _ _ F1); done|]. eapply addrs_small; [apply F1|done]. }
  exists g2, fb', (upd_ino i ip ino1). split; [|constructor].
  - unfold iappend. mcall rinode_run; [|lia]. rewrite Hd by done. rewrite Ea at 2. simpl i_size.
    rewrite xint_small by lia. fold off. erewrite bind_ok; [|exact E1]. cbv iota beta. rewrite xint_small by lia. rewrite <- E2. f_equal.
    unfold ip. rewrite D1, Ea. reflexivity.
  - rewrite list_fmap_insert. apply (files_ext g2 fb' ino1 (upd_ino i ip ino1)); [|exact F2].
    intros j. unfold upd_ino. by destruct (Nat.eqb_spec j i) as [->|].
  - intros j t' l' Hj. destruct (decide (j = i)) as [->|Hne].
    + rewrite list_lookup_insert_eq in Hj by done. injection Hj as <- <-. split; [done|]. rewrite upd_ino_eq, length_app, Nat2Z.inj_add. by eexists.
    + rewrite list_lookup_insert_ne in Hj by done. rewrite upd_ino_ne, O1 by done. by apply Hsh.
  - intros j Hj. rewrite length_insert in Hj. destruct (decide (j = i)) as [->|Hne]; [by rewrite Ei, upd_ino_eq|].
    rewrite Ej, upd_ino_ne, O1 by (done || lia). rewrite <- Hd by done. unfold disk_inode. rewrite M1; [done|].
    destruct (iblock j ltac:(lia)) as [-> ?]. change nmeta with 59. lia.
  - rewrite (total_insert _ _ _ _ _ Hi), length_app, Nat2Z.inj_add. fold off. unfold fb'. lia.
  - by rewrite length_insert.
  - rewrite Es, M1 by done. done.
Qed.

(** ** Whole files *)

Lemma total_le fs i t l l' : fs !! i = Some (t, l) -> (length l <= length l')%nat -> total fs <= total (<[i := (t, l')]> fs).
Proof. intros Hi Hl. rewrite (total_insert _ _ _ _ _ Hi). pose proof (need_mono (Z.of_nat (length l)) (Z.of_nat (length l')) ltac:(lia)). lia. Qed.

Lemma appends_run fi i t chunks : forall l g fb ino fs, image g fb ino fs -> fs !! i = Some (t, l) ->
  Z.of_nat (length l) + Z.of_nat (length (concat chunks)) <= MAXFILE * BSIZE -> nmeta + total (<[i := (t, l ++ concat chunks)]> fs) <= FSSIZE ->
  exists g' fb' ino', for_each chunks (iappend (Z.of_nat i + 1)) (mkMkst g FSSIZE fi fb) = Ok tt (mkMkst g' FSSIZE fi fb') /\
    image g' fb' ino' (<[i := (t, l ++ concat chunks)]> fs).
Proof.
  induction chunks as [|c chunks IH]; intros l g fb ino fs I Hi Hmax Hfit; cbn [concat for_each] in *.
  - exists g, fb, ino. rewrite app_nil_r, list_insert_id by done. done.
  - rewrite length_app in Hmax. pose proof (lookup_lt_Some _ _ _ Hi) as Hlt. rewrite (assoc_L (++)) in *.
    assert (<[i := (t, l ++ c)]> fs !! i = Some (t, l ++ c)) as Hi1 by (by apply list_lookup_insert_eq).
    assert (total (<[i := (t, l ++ c)]> fs) <= total (<[i := (t, (l ++ c) ++ concat chunks)]> fs)) as Hle.
    { pose proof (total_le _ i t (l ++ c) ((l ++ c) ++ concat chunks) Hi1) as Ht. rewrite list_insert_insert_eq in Ht. apply Ht.
      rewrite (length_app (l ++ c)). lia. }
    destruct (iappend_run g fb ino fs i t l c fi I Hi) as (g1 & fb1 & ino1 & E1 & I1); [lia|lia|].
    destruct (IH (l ++ c) g1 fb1 ino1 _ I1 Hi1) as (g2 & fb2 & ino2 & E2 & I2); [rewrite length_app; lia|by rewrite list_insert_insert_eq|].
    exists g2, fb2, ino2. rewrite (bind_ok _ _ _ _ _ E1). split; [done|]. by rewrite list_insert_insert_eq in I2.
Qed.

(** A file system: what is in its root directory, and its other files. *)
Definition contents (root : list Z) (fl : list (list Z)) : list (Z * list Z) := (T_DIR, root) :: ((fun l => (T_FILE, l)) <$> fl).

Lemma length_contents root fl : length (contents root fl) = S (length fl).
Proof. simpl. by rewrite length_fmap. Qed.

Lemma xshort_small x : 0 <= x < 2 ^ 16 -> xshort x = x.
Proof. unfold xshort, byte_of, u8. change (2 ^ (8 * 0)) with 1. change (2 ^ (8 * 1)) with 256. change (2 ^ 8) with 256. change (2 ^ 16) with 65536. intros Hx. Z.to_euclidean_division_equations. lia. Qed.

Lemma root_grows root root' fl : (length root <= length root')%nat -> total (contents root fl) <= total (contents root' fl).
Proof. intros Hl. simpl. pose proof (need_mono (Z.of_nat (length root)) (Z.of_nat (length root')) ltac:(lia)). lia. Qed.

Lemma add_file_run g fb ino root fl name chunks :
  image g fb ino (contents root fl) -> 47 ∉ name -> Z.of_nat (length (concat chunks)) <= MAXFILE * BSIZE ->
  (S (length fl) < inode_room)%nat -> Z.of_nat (length root) + 16 <= MAXFILE * BSIZE ->
  let root' := root ++ mk_dirent (Z.of_nat (length fl) + 2) (strip name) in
  nmeta + total (contents root' (fl ++ [concat chunks])) <= FSSIZE ->
  exists g' fb' ino', add_file 1 (name, Some chunks) (mkMkst g FSSIZE (Z.of_nat (length fl) + 2) fb) = Ok tt (mkMkst g' FSSIZE (Z.of_nat (length fl) + 3) fb') /\
    image g' fb' ino' (contents root' (fl ++ [concat chunks])).
Proof.
  intros I Hn Hc Hroom Hr root' Hfit. set (n := length fl) in *. pose proof (length_contents root fl) as Hlc. fold n in Hlc.
  assert (T_FILE = 2) as HT by done. assert (Z.of_nat (length (contents root fl)) = Z.of_nat n + 1) as Hz by lia.
  destruct (ialloc_run g fb ino _ T_FILE I) as (g1 & ino1 & E1 & I1); [lia|lia|]. rewrite Hz in E1.
  assert (forall r, contents r fl ++ [(T_FILE, [])] = contents r (fl ++ [[]])) as Ec by (intros r; unfold contents; by rewrite fmap_app).
  rewrite Ec in I1. assert (forall r, total (contents r (fl ++ [[]])) <= total (contents r (fl ++ [concat chunks]))) as Hle.
  { intros r. rewrite <- Ec. unfold contents. rewrite fmap_app, !app_comm_cons, !total_app. pose proof (need_mono 0 (Z.of_nat (length (concat chunks))) ltac:(lia)).
    change (total [(T_FILE, [])]) with 0. change (need 0) with 0 in *. simpl (total (_ <$> [_])). cbn [total foldr fmap list_fmap snd] in *. lia. }
  destruct (iappend_run g1 fb ino1 _ 0 T_DIR root (mk_dirent (xshort (Z.of_nat n + 2)) (strip name)) (Z.of_nat n + 3) I1 eq_refl) as (g2 & fb2 & ino2 & E2 & I2).
  { rewrite mk_dirent_length. lia. }
  { rewrite xshort_small by (change inode_room with 207%nat in Hroom; lia). specialize (Hle root'). simpl in *. fold root'. lia. }
  rewrite xshort_small in E2, I2 by (change inode_room with 207%nat in Hroom; lia).
  change (<[0%nat := _]> (contents root (fl ++ [[]]))) with (contents root' (fl ++ [[]])) in I2.
  assert (contents root' (fl ++ [[]]) !! S n = Some (T_FILE, [])) as Hi.
  { simpl. rewrite fmap_app, lookup_app_r by (rewrite length_fmap; done). by rewrite length_fmap, Nat.sub_diag. }
  assert (<[S n := (T_FILE, [] ++ concat chunks)]> (contents root' (fl ++ [[]])) = contents root' (fl ++ [concat chunks])) as Ei.
  { simpl. unfold contents. f_equal. rewrite !fmap_app, insert_app_r_alt by (rewrite length_fmap; done). by rewrite length_fmap, Nat.sub_diag. }
  destruct (appends_run (Z.of_nat n + 3) (S n) T_FILE chunks [] g2 fb2 ino2 _ I2 Hi) as (g3 & fb3 & ino3 & E3 & I3); [done|by rewrite Ei|].
  rewrite Ei in I3. replace (Z.of_nat (S n) + 1) with (Z.of_nat n + 2) in E3 by lia.
  exists g3, fb3, ino3. split; [|done]. unfold add_file. rewrite bool_decide_eq_false_2 by done.
  replace (Z.of_nat n + 1 + 1) with (Z.of_nat n + 2) in E1 by lia. replace (Z.of_nat n + 1 + 2) with (Z.of_nat n + 3) in E1 by lia.
  erewrite bind_ok; [|exact E1]. erewrite bind_ok; [|rewrite xshort_small by (change inode_room with 207%nat in Hroom; lia); exact E2]. exact E3.
Qed.

(** ** The whole program *)

(** The root directory of a file system made from [fs], and the contents of a file. *)
Definition root_bytes (fs : list hostfile) : list Z :=
  mk_dirent 1 (str ".") ++ mk_dirent 1 (str "..") ++ concat (imap (fun j f => mk_dirent (Z.of_nat j + 2) (strip f.1)) fs).

Definition data_of (f : hostfile) : list Z := concat (default [] f.2).

Definition host_ok (f : hostfile) : Prop := (47 ∉ f.1) /\ is_Some (f.2) /\ Z.of_nat (length (data_of f)) <= MAXFILE * BSIZE.

Definition made (fs : list hostfile) : list (Z * list Z) := contents (root_bytes fs) (data_of <$> fs).

Lemma root_bytes_snoc fs f : root_bytes (fs ++ [f]) = root_bytes fs ++ mk_dirent (Z.of_nat (length fs) + 2) (strip f.1).
Proof.
  unfold root_bytes. rewrite imap_app, concat_app, <- !(assoc_L (++)). do 3 f_equal.
  change (mk_dirent (Z.of_nat (length fs + 0) + 2) (strip f.1) ++ [] = mk_dirent (Z.of_nat (length fs) + 2) (strip f.1)).
  by rewrite Nat.add_0_r, app_nil_r.
Qed.

Lemma root_bytes_length fs : length (root_bytes fs) = (16 * (2 + length fs))%nat.
Proof.
  induction fs as [|f fs IH] using rev_ind; [reflexivity|]. rewrite root_bytes_snoc, !length_app, IH, mk_dirent_length. simpl. lia.
Qed.

Lemma total_nonneg fs : 0 <= total fs.
Proof. induction fs as [|f fs IH]; simpl; [done|]. pose proof (need_mono 0 (Z.of_nat (length f.2)) ltac:(lia)) as Hn. change (need 0) with 0 in Hn. lia. Qed.

Lemma made_mono fs fs' : total (made fs) <= total (made (fs ++ fs')).
Proof.
  unfold made. etransitivity; [apply (root_grows _ (root_bytes (fs ++ fs'))); rewrite !root_bytes_length, length_app; lia|].
  unfold contents. rewrite !fmap_app. cbn [total foldr]. fold total.
  pose proof (total_app ((fun l => (T_FILE, l)) <$> (data_of <$> fs)) ((fun l => (T_FILE, l)) <$> (data_of <$> fs'))) as Ht.
  pose proof (total_nonneg ((fun l => (T_FILE, l)) <$> (data_of <$> fs'))). unfold total in *. lia.
Qed.

Lemma adds_run new : forall old g fb ino, image g fb ino (made old) -> Forall host_ok new -> (length (old ++ new) < inode_room)%nat ->
  nmeta + total (made (old ++ new)) <= FSSIZE ->
  exists g' fb' ino', for_each new (add_file 1) (mkMkst g FSSIZE (Z.of_nat (length old) + 2) fb) =
      Ok tt (mkMkst g' FSSIZE (Z.of_nat (length (old ++ new)) + 2) fb') /\ image g' fb' ino' (made (old ++ new)).
Proof.
  induction new as [|f new IH]; intros old g fb ino I Hok Hroom Hfit; cbn [for_each].
  - exists g, fb, ino. by rewrite app_nil_r.
  - apply list.Forall_cons in Hok as [(Hn & [chunks Hd] & Hl) Hok]. rewrite length_app in Hroom. cbn [length] in Hroom.
    replace (old ++ f :: new) with ((old ++ [f]) ++ new) in * by (by rewrite <- (assoc_L (++))).
    pose proof (made_mono (old ++ [f]) new) as Hm. destruct f as [name data]. simpl in Hd. subst data. unfold data_of in Hl. simpl in Hl, Hn.
    assert (made (old ++ [(name, Some chunks)]) = contents (root_bytes old ++ mk_dirent (Z.of_nat (length (data_of <$> old)) + 2) (strip name)) ((data_of <$> old) ++ [concat chunks])) as Em.
    { unfold made. by rewrite root_bytes_snoc, fmap_app, length_fmap. }
    change inode_room with 207%nat in Hroom.
    destruct (add_file_run g fb ino (root_bytes old) (data_of <$> old) name chunks I Hn Hl) as (g1 & fb1 & ino1 & E1 & I1).
    { rewrite length_fmap. change inode_room with 207%nat. lia. }
    { rewrite root_bytes_length. change (MAXFILE * BSIZE) with 71680. lia. }
    { rewrite <- Em. etransitivity; [|exact Hfit]. apply Z.add_le_mono_l. exact Hm. }
    rewrite <- Em in I1. rewrite length_fmap in E1. rewrite (bind_ok _ _ _ _ _ E1).
    replace (Z.of_nat (length old) + 3) with (Z.of_nat (length (old ++ [(name, Some chunks)])) + 2) by (rewrite length_app; simpl; lia).
    apply (IH (old ++ [(name, Some chunks)]) g1 fb1 ino1 I1 Hok); [|done]. rewrite !length_app. simpl. change inode_room with 207%nat. lia.
Qed.

Lemma wipe_run n : forall a g z fi fb, (forall b, g b = zeros) -> (Z.of_nat a = z) ->
  exists g', for_each (seq a n) (fun i => wsect (Z.of_nat i) zeroes) (mkMkst g z fi fb) = Ok tt (mkMkst g' (z + Z.of_nat n) fi fb) /\ forall b, g' b = zeros.
Proof.
  induction n as [|n IH]; intros a g z fi fb Hg Ha; cbn [seq for_each].
  - exists g. by rewrite Z.add_0_r.
  - destruct (IH (S a) (fun b => if b =? Z.of_nat a then zeroes else g b) (z + 1) fi fb) as (g' & E & Hg'); [intros b; by destruct (b =? _)|lia|].
    exists g'. split; [|done]. replace (z + Z.of_nat (S n)) with (z + 1 + Z.of_nat n) by lia. rewrite <- E.
    unfold wsect at 1. rewrite bind_modify. replace (z + 1) with (Z.max (Z.of_nat a + 1) z) by lia. done.
Qed.

(** A disk on which nothing but the superblock is written. *)
Lemma image_nil g : (forall b, b <> 1 -> g b = zeros) -> g 1 = splice 0 sb_bytes zeroes -> image g nmeta (fun _ => blank 0) [].
Proof.
  intros Hg H1. constructor; [|intros i t l Hi; by rewrite lookup_nil in Hi|simpl; lia|done|simpl; lia|done].
  constructor; [|intros j l Hj; simpl in Hj; by rewrite lookup_nil in Hj]. constructor; try (intros; simpl in *; lia); [|done|].
  - intros b _. destruct (Z.eq_dec b 1) as [->|Hb]; [by rewrite H1|by rewrite Hg].
  - intros b Hb. apply Hg. change nmeta with 59 in Hb. lia.
Qed.

(** ** What the kernel finds *)

Lemma mark_length n d : length (mark n d) = length d.
Proof. induction n as [|n IH]; [done|]. cbn [mark]. by rewrite length_alter. Qed.

Lemma mark_bits n j : (n <= Z.to_nat BPB)%nat -> bit_clear (mark n zeroes) j = negb (j <? n)%nat.
Proof.
  induction n as [|n IH]; intros Hn.
  - simpl mark. rewrite bit_clear_testbit. assert (nth (j / 8) zeroes 0 = 0) as ->; [|by rewrite Z.bits_0].
    unfold zeroes. rewrite nth_lookup. destruct (replicate _ _ !! _) as [x|] eqn:E; [|done]. by apply lookup_replicate in E as [-> _].
  - change (mark (S n) zeroes) with (set_bit (Z.of_nat n) (mark n zeroes)). rewrite bit_clear_set by (rewrite ?mark_length; done || lia).
    rewrite IH by lia. destruct (Nat.eqb_spec j n), (Nat.ltb_spec j n), (Nat.ltb_spec j (S n)); (done || lia).
Qed.

Lemma bblock b : 0 <= b < FSSIZE -> BBLOCK b sb = 58.
Proof. unfold FSSIZE. intros Hb. unfold BBLOCK. change BPB with 4096. rewrite Z.div_small by lia. done. Qed.

Lemma marked g fb b : 0 <= fb <= FSSIZE -> 0 <= b < FSSIZE -> g 58 = mark (Z.to_nat fb) zeroes -> used sb g b = (b <? fb).
Proof.
  intros Hf Hb Hg. unfold used. rewrite bblock, Hg by done. unfold FSSIZE in *. change BPB with 4096. rewrite Z.mod_small by lia.
  rewrite mark_bits by (change (Z.to_nat BPB) with 4096%nat; lia). rewrite negb_involutive.
  destruct (Nat.ltb_spec (Z.to_nat b) (Z.to_nat fb)), (Z.ltb_spec b fb); (done || lia).
Qed.

(** Inode [i + 1] loaded into a slot of the inode cache. *)
Definition loaded (g : Z -> list Z) (i : nat) (ip0 : inode) : inode :=
  load_dinode (g (IBLOCK (Z.of_nat i + 1) sb)) (dinode_at (Z.of_nat i + 1)) ip0.

Lemma loaded_fields g i ip0 : loaded g i ip0 = with_fields (disk_inode g i) ip0.
Proof. by destruct ip0. Qed.

Lemma slot_fields g ip ip0 k : slot g (with_fields ip ip0) k = slot g ip k.
Proof. done. Qed.

Lemma fbytes_holds g ip ip0 l n : holds g ip l -> Z.of_nat n <= MAXFILE * BSIZE ->
  fbytes g (with_fields ip ip0) 0 n = take n (l ++ replicate n 0).
Proof.
  intros Hh Hn. unfold fbytes. apply list_eq. intros j. rewrite list_lookup_fmap. destruct (decide (j < n)%nat) as [Hj|Hj].
  - rewrite lookup_seq_lt, lookup_take_lt by done. cbn [fmap option_fmap option_map Nat.add]. rewrite Z.add_0_l.
    change (fbyte g (with_fields ip ip0) (Z.of_nat j)) with (fbyte g ip (Z.of_nat j)).
    rewrite (hd_bytes _ _ _ Hh) by lia. rewrite Nat2Z.id. destruct (decide (j < length l)%nat) as [Hl|Hl].
    + rewrite lookup_app_l by done. symmetry. by apply lookup_nth.
    + rewrite lookup_app_r, lookup_replicate_2 by lia. by rewrite nth_overflow by lia.
  - rewrite lookup_seq_ge, lookup_take_ge by lia. done.
Qed.

(** Such an inode is as the theorems on files want it. *)
Lemma ino_ok_loaded g fb ino cs i ip0 : files g fb ino cs -> (i < length cs)%nat -> (i < inode_room)%nat -> i_addrs (disk_inode g i) = i_addrs (ino i) ->
  g 58 = mark (Z.to_nat fb) zeroes -> i_inum ip0 = Z.of_nat i + 1 -> ino_ok sb 2 g (loaded g i ip0).
Proof.
  intros [P _] Hi Hr Ha Hbm Hnum. destruct (iblock i Hr) as [Eb Hb]. pose proof (pl_fb _ _ _ _ P) as Hf. assert (nmeta = 59) as Hnm by done.
  assert (place sb g (loaded g i ip0) (-2) = (Z.of_nat i + 1) / 8 + 32) as E2.
  { rewrite <- Eb. unfold place. simpl. by rewrite Hnum. }
  assert (forall k, place_of k -> place sb g (loaded g i ip0) k = slot g (ino i) k) as Ep.
  { intros k Hk. unfold place_of in Hk. unfold place. rewrite (proj2 (Z.eqb_neq k (-2))) by lia. rewrite loaded_fields.
    change (slot g (with_fields (disk_inode g i) ip0) k = slot g (ino i) k). unfold slot, addr_of, ind_addr. cbn [i_addrs with_fields]. by rewrite Ha. }
  assert (forall a, 32 <= a < fb -> a <> 58 -> owned sb 2 g a) as Ho.
  { intros a Hal Hne. assert (0 <= a < FSSIZE) as Hr' by lia. split_and!.
    - change (sb_size sb) with FSSIZE. lia.
    - change (sb_size sb) with FSSIZE. lia.
    - rewrite (marked g fb) by (done || lia). apply Z.ltb_lt. lia.
    - unfold outside. change LOGSIZE with 30. lia.
    - intros c Hc. rewrite bblock by done. done.
    - by apply P. }
  assert (forall k, -2 <= k < MAXFILE -> k = -2 \/ place_of k) as Hcase by (intros k Hk; unfold place_of; lia).
  constructor.
  - intros k [->|Hk]%Hcase Hz; [rewrite E2; apply Ho; lia|]. rewrite Ep in Hz |- * by done.
    pose proof (pl_range _ _ _ _ P i k Hi Hk Hz). apply Ho; lia.
  - intros k k' Hk Hk' Hne Hz. destruct (Hcase k Hk) as [->|Hpk], (Hcase k' Hk') as [->|Hpk']; [done| | |].
    + rewrite E2, Ep by done. destruct (Z.eq_dec (slot g (ino i) k') 0) as [->|Hz']; [lia|]. pose proof (pl_range _ _ _ _ P i k' Hi Hpk' Hz'). lia.
    + rewrite Ep in Hz |- * by done. rewrite E2. pose proof (pl_range _ _ _ _ P i k Hi Hpk Hz). lia.
    + rewrite Ep in Hz |- * by done. rewrite Ep by done. apply (pl_apart _ _ _ _ P); auto.
  - rewrite E2. lia.
Qed.

(** The end of the program: the size of the root directory, and the free map. *)
Definition root_size (fs : list hostfile) : Z := (Z.of_nat (length (root_bytes fs)) / BSIZE + 1) * BSIZE.

Lemma finish_run g fb ino fs fi : image g fb ino (made fs) -> fb <= FSSIZE ->
  exists g', (fix_root 1 ;; b <- gets m_freeblock ;; balloc b) (mkMkst g FSSIZE fi fb) = Ok tt (mkMkst g' FSSIZE fi fb) /\
    files g' fb ino (made fs).*2 /\ g' 1 = g 1 /\ g' 58 = mark (Z.to_nat fb) zeroes /\
    (exists a, a = i_addrs (ino 0%nat) /\ disk_inode g' 0 = file_inode 1 T_DIR (root_size fs) a) /\
    forall i, (0 < i < length (made fs))%nat -> disk_inode g' i = ino i.
Proof.
  intros [F Hsh Hd Hfb Hroom Hsb] Hle. destruct (Hsh 0%nat T_DIR (root_bytes fs) eq_refl) as (Ht & a & Ea). change (Z.of_nat 0 + 1) with 1 in Ea.
  assert (0 < length (made fs))%nat as Hlt by (unfold made; rewrite length_contents; lia).
  assert (length (root_bytes fs) < 4000)%nat as Hrl.
  { rewrite root_bytes_length. unfold made in Hroom. rewrite length_contents, length_fmap in Hroom. change inode_room with 207%nat in Hroom. lia. }
  assert (0 <= root_size fs < 2 ^ 32) as Hrs by (unfold root_size; change BSIZE with 512; Z.to_euclidean_division_equations; lia).
  assert (i_addrs (ino 0%nat) = a) as Eaa by (by rewrite Ea).
  assert (0 < length (made fs).*2)%nat as Hlt2 by (by rewrite length_fmap).
  destruct (winode_run g fb ino _ 0 (file_inode 1 T_DIR (root_size fs) a) fi F ltac:(lia)) as (g1 & E1 & F1 & Ei & Ej & E11).
  { apply fields_file; [done|done|rewrite <- Eaa; by apply F|]. rewrite <- Eaa. eapply addrs_small; [apply F|done]. }
  pose proof (pl_fb _ _ _ _ (fl_placed _ _ _ _ F)) as Hf. assert (nmeta = 59) by done.
  exists (upd_blk g1 58 (mark (Z.to_nat fb) zeroes)).
  assert (forall i, (i < inode_room)%nat -> disk_inode (upd_blk g1 58 (mark (Z.to_nat fb) zeroes)) i = disk_inode g1 i) as Hdi.
  { intros i Hi. unfold disk_inode. rewrite upd_blk_ne; [done|]. destruct (iblock i Hi) as [-> ?]. lia. }
  split_and!.
  - unfold fix_root. rewrite bind_assoc. erewrite bind_ok; [|apply (rinode_run g fb 0 fi); lia]. rewrite Hd, Ea by done.
    change (i_size (file_inode 1 T_DIR (Z.of_nat (length (root_bytes fs))) a)) with (Z.of_nat (length (root_bytes fs))).
    rewrite (xint_small (Z.of_nat (length (root_bytes fs)))) by lia. fold (root_size fs). rewrite xint_small by done.
    change (Z.of_nat 0 + 1) with 1 in E1. erewrite bind_ok; [|exact E1]. mstep. unfold balloc. cbn [m_freeblock].
    assert ((BSIZE * 8 <=? fb) = false) as -> by (apply Z.leb_gt; unfold FSSIZE in Hle; change (BSIZE * 8) with 4096; lia). by apply wsect_run.
  - apply files_meta; [done|lia|by rewrite mark_length].
  - rewrite upd_blk_ne by done. done.
  - apply upd_blk_eq.
  - exists a. split; [done|]. rewrite Hdi, Ei by lia. done.
  - intros i Hi. rewrite Hdi, Ej by lia. apply Hd. lia.
Qed.

(** The beginning: an empty root directory. *)
Lemma start_run {A} (K : Z -> MK A) : exists g ino,
  (modify (fun s => s <| m_freeblock := nmeta |>) ;;
   for_each (seq 0 (Z.to_nat FSSIZE)) (fun i => wsect (Z.of_nat i) zeroes) ;;
   wsect 1 (splice 0 sb_bytes zeroes) ;;
   rootino <- ialloc T_DIR ;; K rootino) mkst0 = K 1 (mkMkst g FSSIZE 2 nmeta) /\ image g nmeta ino [(T_DIR, [])].
Proof.
  destruct (wipe_run (Z.to_nat FSSIZE) 0 (fun _ => zeroes) 0 1 nmeta) as (g0 & E0 & Hg0); [reflexivity|reflexivity|].
  set (g1 := upd_blk g0 1 (splice 0 sb_bytes zeroes)).
  assert (image g1 nmeta (fun _ => blank 0) []) as I1.
  { apply image_nil; [|apply upd_blk_eq]. intros b Hb. unfold g1. rewrite upd_blk_ne by exact Hb. apply Hg0. }
  assert (T_DIR = 1) as HT by reflexivity.
  destruct (ialloc_run g1 nmeta _ [] T_DIR I1) as (g2 & ino2 & E2 & I2); [apply Nat.ltb_lt; reflexivity|lia|].
  exists g2, ino2. split; [|exact I2]. rewrite bind_modify. erewrite bind_ok; [|exact E0].
  erewrite bind_ok; [|apply wsect_run; reflexivity]. erewrite bind_ok; [|exact E2]. reflexivity.
Qed.

Lemma dots_run g ino fs : image g nmeta ino [(T_DIR, [])] -> nmeta + total (made fs) <= FSSIZE -> exists g' fb' ino',
  (iappend 1 (mk_dirent 1 (str ".")) ;; iappend 1 (mk_dirent 1 (str ".."))) (mkMkst g FSSIZE 2 nmeta) = Ok tt (mkMkst g' FSSIZE 2 fb') /\
  image g' fb' ino' (made []).
Proof.
  intros I Hfit. pose proof (made_mono [] fs) as Hm. change ([] ++ fs) with fs in Hm.
  assert (forall l, (length l <= 32)%nat -> nmeta + total [(T_DIR, l)] <= FSSIZE) as Hsmall.
  { intros l Hl. pose proof (root_grows l (root_bytes []) [] ltac:(rewrite root_bytes_length; simpl; lia)) as Hr.
    change (contents l []) with [(T_DIR, l)] in Hr. change (contents (root_bytes []) []) with (made []) in Hr. lia. }
  assert (MAXFILE * BSIZE = 71680) as Hmax by reflexivity.
  destruct (iappend_run g nmeta ino _ 0 T_DIR [] (mk_dirent 1 (str ".")) 2 I eq_refl) as (g3 & fb3 & ino3 & E3 & I3).
  { rewrite mk_dirent_length. simpl. lia. }
  { apply (Hsmall ([] ++ mk_dirent 1 (str "."))). simpl app. rewrite mk_dirent_length. lia. }
  destruct (iappend_run g3 fb3 ino3 _ 0 T_DIR (mk_dirent 1 (str ".")) (mk_dirent 1 (str "..")) 2 I3 eq_refl) as (g4 & fb4 & ino4 & E4 & I4).
  { rewrite !mk_dirent_length. lia. }
  { apply Hsmall. rewrite length_app, !mk_dirent_length. lia. }
  exists g4, fb4, ino4. split; [|exact I4]. erewrite bind_ok; [|exact E3]. exact E4.
Qed.

(** [main] once the root directory has its inode. *)
Definition after_root (fs : list hostfile) (rootino : Z) : MK unit :=
  if negb (rootino =? ROOTINO) then panic "assert" else
  iappend rootino (mk_dirent (xshort rootino) (str ".")) ;;
  iappend rootino (mk_dirent (xshort rootino) (str "..")) ;;
  for_each fs (add_file rootino) ;;
  fix_root rootino ;;
  freeblock <- gets m_freeblock ;;
  balloc freeblock.

Lemma main_eq img fs s : main ((img, Some []) :: fs) s =
  (modify (fun s => s <| m_freeblock := nmeta |>) ;;
   for_each (seq 0 (Z.to_nat FSSIZE)) (fun i => wsect (Z.of_nat i) zeroes) ;;
   wsect 1 (splice 0 sb_bytes zeroes) ;;
   rootino <- ialloc T_DIR ;; after_root fs rootino) s.
Proof. reflexivity. Qed.

Lemma after_root_eq fs s : after_root fs 1 s =
  ((iappend 1 (mk_dirent 1 (str ".")) ;; iappend 1 (mk_dirent 1 (str ".."))) ;; for_each fs (add_file 1) ;; fix_root 1 ;; b <- gets m_freeblock ;; balloc b) s.
Proof. rewrite bind_assoc. reflexivity. Qed.

Lemma main_run img fs : Forall host_ok fs -> (length fs < inode_room)%nat -> nmeta + total (made fs) <= FSSIZE ->
  exists g fb ino g', main ((img, Some []) :: fs) mkst0 = Ok tt (mkMkst g' FSSIZE (Z.of_nat (length fs) + 2) fb) /\ image g fb ino (made fs) /\
    files g' fb ino (made fs).*2 /\ g' 1 = g 1 /\ g' 58 = mark (Z.to_nat fb) zeroes /\
    (exists a, a = i_addrs (ino 0%nat) /\ disk_inode g' 0 = file_inode 1 T_DIR (root_size fs) a) /\
    forall i, (0 < i < length (made fs))%nat -> disk_inode g' i = ino i.
Proof.
  intros Hok Hroom Hfit.
  destruct (start_run (after_root fs)) as (g1 & ino1 & E1 & I1).
  destruct (dots_run g1 ino1 fs I1 Hfit) as (g4 & fb4 & ino4 & E4 & I4).
  destruct (adds_run fs [] g4 fb4 ino4 I4 Hok Hroom Hfit) as (g5 & fb5 & ino5 & E5 & I5).
  change ([] ++ fs) with fs in E5, I5. pose proof (im_fb _ _ _ _ I5) as Hfb.
  destruct (finish_run g5 fb5 ino5 fs (Z.of_nat (length fs) + 2) I5 ltac:(lia)) as (g6 & E6 & F6).
  exists g5, fb5, ino5, g6. split; [|split; [exact I5|exact F6]].
  rewrite main_eq, E1, after_root_eq, (bind_ok _ _ _ _ _ E4), (bind_ok _ _ _ _ _ E5). exact E6.
Qed.

Lemma sb_found : sb_of_block (splice 0 sb_bytes zeroes) = sb.
Proof. reflexivity. Qed.

Lemma loaded_ok g fb ino fs i t l z ip0 : files g fb ino fs.*2 -> fs !! i = Some (t, l) -> disk_inode g i = file_inode (Z.of_nat i + 1) t z (i_addrs (ino i)) ->
  (i < inode_room)%nat -> g 58 = mark (Z.to_nat fb) zeroes -> i_inum ip0 = Z.of_nat i + 1 ->
  let ip := loaded g i ip0 in
  i_type ip = t /\ i_nlink ip = 1 /\ i_size ip = z /\ ino_ok sb 2 g ip /\
  forall n, Z.of_nat n <= MAXFILE * BSIZE -> fbytes g ip 0 n = take n (l ++ replicate n 0).
Proof.
  intros F Hi Hd Hr H58 Hnum ip. assert (fs.*2 !! i = Some l) as Hi2 by (by rewrite list_lookup_fmap, Hi).
  assert (ino_ok sb 2 g ip) as Hok.
  { apply (ino_ok_loaded g fb ino fs.*2); [done|by eapply lookup_lt_Some|done|by rewrite Hd|done|done]. }
  unfold ip in *. rewrite loaded_fields, Hd in *. split_and!; [done|done|done|done|]. intros n Hn.
  change (fbytes g (with_fields (ino i) ip0) 0 n = take n (l ++ replicate n 0)). apply fbytes_holds; [by apply F|done].
Qed.

(** C38. [mkfs]. Files whose names have no slash, none larger than the largest file, few
    enough for the inode blocks, and together small enough for the disk, make an image.
    In it the kernel finds the superblock [mkfs] computed; a free map that marks exactly
    the blocks below [freeblock]; for each file an inode with its type, one link, its size
    and its contents, in order from inode 2; and in inode 1 a directory that lists the
    names with these numbers, after [.] and [..] and followed by empty entries. Every
    inode satisfies the invariant under which [readi] and [writei] were proved correct. *)
Theorem mkfs_makes_files img fs :
  Forall host_ok fs -> (length fs < inode_room)%nat -> nmeta + total (made fs) <= FSSIZE ->
  exists s, main ((img, Some []) :: fs) mkst0 = Ok tt s /\ m_size s = FSSIZE /\ sb_of_block (m_img s 1) = sb /\
    m_freeblock s = nmeta + total (made fs) /\
    (forall b, 0 <= b < FSSIZE -> used sb (m_img s) b = (b <? m_freeblock s)) /\
    (forall ip0, i_inum ip0 = 1 -> let ip := loaded (m_img s) 0 ip0 in
       i_type ip = T_DIR /\ i_nlink ip = 1 /\ i_size ip = root_size fs /\ ino_ok sb 2 (m_img s) ip /\
       fbytes (m_img s) ip 0 (Z.to_nat (root_size fs)) = take (Z.to_nat (root_size fs)) (root_bytes fs ++ zeros)) /\
    (forall j f ip0, fs !! j = Some f -> i_inum ip0 = Z.of_nat j + 2 -> let ip := loaded (m_img s) (S j) ip0 in
       i_type ip = T_FILE /\ i_nlink ip = 1 /\ i_size ip = Z.of_nat (length (data_of f)) /\ ino_ok sb 2 (m_img s) ip /\
       fbytes (m_img s) ip 0 (length (data_of f)) = data_of f).
Proof.
  intros Hok Hroom Hfit.
  destruct (main_run img fs Hok Hroom Hfit) as (g5 & fb5 & ino5 & g6 & E & I5 & F6 & H1 & H58 & Hroot & Hfiles).
  exists (mkMkst g6 FSSIZE (Z.of_nat (length fs) + 2) fb5). cbn [m_img m_size m_freeblock].
  pose proof (pl_fb _ _ _ _ (fl_placed _ _ _ _ F6)) as Hf. assert (nmeta = 59) as Hnm by reflexivity. pose proof (im_fb _ _ _ _ I5) as Hfb.
  split; [exact E|split; [reflexivity|split; [rewrite H1, (im_sb _ _ _ _ I5); exact sb_found|split; [exact Hfb|split; [|split]]]]].
  - intros b Hb. apply marked; [lia|exact Hb|exact H58].
  - intros ip0 Hi0. destruct Hroot as (a & -> & Ed). pose proof (root_bytes_length fs) as Hl. change inode_room with 207%nat in Hroom.
    assert (root_size fs <= MAXFILE * BSIZE /\ Z.of_nat (length (root_bytes fs)) < root_size fs <= Z.of_nat (length (root_bytes fs)) + 512) as [Hs1 Hs2].
    { unfold root_size. rewrite Hl. change (MAXFILE * BSIZE) with 71680. change BSIZE with 512. Z.to_euclidean_division_equations. lia. }
    destruct (loaded_ok g6 fb5 ino5 (made fs) 0 T_DIR (root_bytes fs) (root_size fs) ip0 F6 eq_refl Ed ltac:(apply Nat.ltb_lt; reflexivity) H58 Hi0)
      as (Ht & Hn & Hs & Hok' & Hb).
    split; [exact Ht|]. split; [exact Hn|]. split; [exact Hs|]. split; [exact Hok'|]. etransitivity; [apply Hb; lia|].
    rewrite !take_app, !(take_ge (root_bytes fs)) by lia. f_equal. unfold zeros. rewrite !take_replicate. f_equal. change (Z.to_nat BSIZE) with 512%nat. lia.
  - intros j f ip0 Hj Hi0. pose proof (lookup_lt_Some _ _ _ Hj) as Hlt. pose proof (proj1 (list.Forall_lookup _ _) Hok _ _ Hj) as (_ & _ & Hdl).
    assert (made fs !! S j = Some (T_FILE, data_of f)) as Hm.
    { change (((fun l => (T_FILE, l)) <$> (data_of <$> fs)) !! j = Some (T_FILE, data_of f)). by rewrite !list_lookup_fmap, Hj. }
    assert (S j < length (made fs))%nat as Hlm by (by eapply lookup_lt_Some).
    assert (S j < inode_room)%nat as Hlr by (pose proof (im_room _ _ _ _ I5); lia).
    destruct (im_shape _ _ _ _ I5 _ _ _ Hm) as (_ & a & Ea).
    destruct (loaded_ok g6 fb5 ino5 (made fs) (S j) T_FILE (data_of f) (Z.of_nat (length (data_of f))) ip0 F6 Hm) as (Ht & Hn & Hs & Hok' & Hb).
    { rewrite Hfiles, Ea by lia. reflexivity. }
    { exact Hlr. }
    { exact H58. }
    { rewrite Hi0. lia. }
    split; [exact Ht|]. split; [exact Hn|]. split; [exact Hs|]. split; [exact Hok'|]. etransitivity; [apply Hb; exact Hdl|].
    apply take_app_length.
Qed.

Definition two_files : list hostfile := [(str "_cat", Some [[1; 2; 3]; [4]]); (str "README", Some [])].

Lemma mkfs_makes_files_witness : Forall host_ok two_files /\
  exists s, main ((str "fs.img", Some []) :: two_files) mkst0 = Ok tt s /\ m_freeblock s = 61.
Proof.
  assert (Forall host_ok two_files) as Hok.
  { repeat constructor; try (vm_compute; discriminate); try (apply (bool_decide_unpack _); vm_compute; exact I); by eexists. }
  split; [exact Hok|].
  destruct (mkfs_makes_files (str "fs.img") two_files Hok) as (s & E & _ & _ & Hf & _).
  - apply Nat.ltb_lt. vm_compute. reflexivity.
  - apply Z.leb_le. vm_compute. reflexivity.
  - exists s. split; [exact E|]. rewrite Hf. vm_compute. reflexivity.
Defined.
