(* ===== verification/File.v ===== *)
(** * Open files ([file.c], and [pipealloc] of [pipe.c])

    Pointers to open files are indices of [ftable.file]. The data of a read or a
    write are passed as a list. *)

From S2P Require Import Prelude Params State Mem Strings Locks Printf Kalloc Vm Sched Policy Procs Sleeplock Bio Log Pipe Fs.
Import Spin.

Definition get_file (i : nat) : K file := s <- get ;; nth_ok "ftable.file" (k_ftable s) i.
Definition with_file (i : nat) (f : file -> file) (s : kst) : kst := s <| k_ftable ::= alter f i |>.
Definition set_file (i : nat) (f : file -> file) : K unit := modify (with_file i f).

Definition fileinit : K unit := initlock LFtable.

Definition file_free (f : file) : bool := f_ref f =? 0.

(** The index of the new file, [None] for a null result. *)
Definition filealloc : K (option nat) :=
  acquire LFtable ;;
  s <- get ;;
  match find_from file_free 0 (k_ftable s) with
  | Some i =>
      set_file i (fun f => f <| f_ref := 1 |>) ;;
      release LFtable ;;
      ret (Some i)
  | None =>
      release LFtable ;;
      ret None
  end.

Definition filedup (i : nat) : K nat :=
  acquire LFtable ;;
  f <- get_file i ;;
  if f_ref f <? 1 then panic "filedup" else
  set_file i (fun f => f <| f_ref ::= fun n => n + 1 |>) ;;
  release LFtable ;;
  ret i.

(** [f->ip], dereferenced. *)
Definition file_ip (f : file) : K nat :=
  match f_ip f with Some ip => ret ip | None => fault "f->ip" end.

Section Driver.
Context `{BlockDriver} `{Devices}.

(** What the last [fileclose] does with the object behind the file. *)
Definition drop_object (ff : file) : K unit :=
  match f_type ff with
  | FD_PIPE => pipeclose (f_pipe ff) (f_writable ff)
  | FD_INODE => begin_op ;; ip <- file_ip ff ;; iput ip ;; end_op
  | FD_NONE => ret tt
  end.

Definition fileclose (i : nat) : K unit :=
  acquire LFtable ;;
  f <- get_file i ;;
  if f_ref f <? 1 then panic "fileclose" else
  set_file i (fun f => f <| f_ref ::= fun n => n - 1 |>) ;;
  ff <- get_file i ;;
  if 0 <? f_ref ff then release LFtable else
  set_file i (fun f => f <| f_ref := 0 |> <| f_type := FD_NONE |>) ;;
  release LFtable ;;
  drop_object ff.

(** [None] for -1. *)
Definition filestat (i : nat) : K (option stat) :=
  f <- get_file i ;;
  if bool_decide (f_type f = FD_INODE) then
    ip <- file_ip f ;;
    ilock ip ;;
    st <- stati ip ;;
    iunlock ip ;;
    ret (Some st)
  else ret None.

Definition advance (i : nat) (r : Z) : K unit := set_file i (fun f => f <| f_off ::= fun o => u32 (o + r) |>).

(** The bytes read, [None] for -1. *)
Definition fileread (i : nat) (n : Z) : K (option (list Z)) :=
  f <- get_file i ;;
  if negb (f_readable f) then ret None else
  match f_type f with
  | FD_PIPE => piperead (f_pipe f) n
  | FD_INODE =>
      ip <- file_ip f ;;
      ilock ip ;;
      f <- get_file i ;;
      r <- readi ip (f_off f) n ;;
      (match r with
       | Some l => when (0 <? Z.of_nat (length l)) (advance i (Z.of_nat (length l)))
       | None => ret tt
       end) ;;
      iunlock ip ;;
      ret r
  | FD_NONE => panic "fileread"
  end.

(** [((LOGSIZE-1-1-2) / 2) * 512], the most one transaction writes. *)
Definition write_max : Z := ((LOGSIZE - 1 - 1 - 2) / 2) * 512.

(** [while(i < n)] of [filewrite]: how many bytes it has written when it stops. Every
    round that is not the last one writes at least a byte. *)
Fixpoint filewrite_loop (fuel : nat) (i : nat) (done : Z) (src : list Z) : K Z :=
  match fuel with
  | O => ret done
  | S fuel' =>
      match src with
      | [] => ret done
      | _ =>
          let n1 := Z.min (Z.of_nat (length src)) write_max in
          begin_op ;;
          f <- get_file i ;;
          ip <- file_ip f ;;
          ilock ip ;;
          f <- get_file i ;;
          r <- writei ip (take (Z.to_nat n1) src) (f_off f) ;;
          when (0 <? r) (advance i r) ;;
          iunlock ip ;;
          end_op ;;
          if r <? 0 then ret done else
          if negb (r =? n1) then panic "short filewrite" else
          filewrite_loop fuel' i (done + r) (drop (Z.to_nat r) src)
      end
  end.

Definition filewrite (i : nat) (src : list Z) : K Z :=
  f <- get_file i ;;
  if negb (f_writable f) then ret (-1) else
  match f_type f with
  | FD_PIPE => pipewrite (f_pipe f) src
  | FD_INODE =>
      d <- filewrite_loop (length src) i 0 src ;;
      ret (if d =? Z.of_nat (length src) then Z.of_nat (length src) else -1)
  | FD_NONE => panic "filewrite"
  end.

(** ** pipealloc *)

(** [p->data] starts behind the lock (52 bytes) and is what the page holds. *)
Definition page_bytes (m : mem) (a : Z) (n : nat) : list Z := (fun i => m (a + Z.of_nat i)) <$> seq 0 n.
Definition new_pipe (m : mem) (p : Z) : pipe :=
  mkPipe (page_bytes m (V2P p + 52) (Z.to_nat PIPESIZE)) 0 0 true true.

Definition close_opt (o : option nat) : K unit :=
  match o with Some i => fileclose i | None => ret tt end.

(** [bad:] with no page taken. *)
Definition pipealloc_bad (f0 f1 : option nat) : K (option (nat * nat)) :=
  close_opt f0 ;; close_opt f1 ;; ret None.

(** The two files, [None] for -1. *)
Definition pipealloc : K (option (nat * nat)) :=
  f0 <- filealloc ;;
  match f0 with
  | None => pipealloc_bad None None
  | Some i0 =>
      f1 <- filealloc ;;
      match f1 with
      | None => pipealloc_bad (Some i0) None
      | Some i1 =>
          p <- kalloc ;;
          if p =? 0 then pipealloc_bad (Some i0) (Some i1) else
          modify (fun s => s <| k_pipes ::= <[p := new_pipe (k_mem s) p]> |>) ;;
          initlock (LPipe p) ;;
          set_file i0 (fun f => f <| f_type := FD_PIPE |> <| f_readable := true |> <| f_writable := false |> <| f_pipe := p |>) ;;
          set_file i1 (fun f => f <| f_type := FD_PIPE |> <| f_readable := false |> <| f_writable := true |> <| f_pipe := p |>) ;;
          ret (Some (i0, i1))
      end
  end.
End Driver.
