(* ===== verification/FileSpec.v ===== *)
(** * The open-file table and the pipes behind it

    Reference counts of open files, and where the pages of pipes go: whatever is
    opened, duplicated and closed, a page is either a live pipe with an open end or
    on the free list. *)

From S2P Require Import Prelude Params State Mem Strings Locks Printf Kalloc Vm Sched Policy Procs Sleeplock VmSpec Bio Log Pipe Fs File.
Import Spin.

(** ** Runs of the routines without contention *)

Lemma filealloc_run s :
  calm s ->
  filealloc s =
  match find_from file_free 0 (k_ftable s) with
  | Some i => Ok (Some i) (with_file i (fun f => f <| f_ref := 1 |>) s)
  | None => Ok None s
  end.
Proof.
  intros Hc. unfold filealloc. mcall calm_acquire; [|done]. mstep. change (k_ftable (lock_st LFtable s)) with (k_ftable s).
  destruct (find_from _ _ _) as [i|].
  - unfold set_file. mstep. change (with_file i ?g (lock_st LFtable s)) with (lock_st LFtable (with_file i g s)).
    mcall (leave LFtable s); done.
  - mcall (leave LFtable s); done.
Qed.

Lemma get_file_run i f s : k_ftable s !! i = Some f -> get_file i s = Ok f s.
Proof. intros H. unfold get_file, nth_ok. by rewrite bind_get, H. Qed.

Lemma filedup_run i f s :
  calm s -> k_ftable s !! i = Some f -> 1 <= f_ref f ->
  filedup i s = Ok i (with_file i (fun f => f <| f_ref ::= fun n => n + 1 |>) s).
Proof.
  intros Hc Hf Hr. unfold filedup. mcall calm_acquire; [|done]. mcall get_file_run; [|exact Hf].
  rewrite (proj2 (Z.ltb_ge _ _)) by lia. unfold set_file. mstep.
  change (with_file i ?g (lock_st LFtable s)) with (lock_st LFtable (with_file i g s)).
  mcall (leave LFtable s); done.
Qed.

Lemma ftable_with i fn s f :
  k_ftable s !! i = Some f -> k_ftable (with_file i fn s) = <[i := fn f]> (k_ftable s).
Proof. intros H. unfold with_file. simpl. by apply alter_as_insert. Qed.

Lemma lookup_with i fn s f : k_ftable s !! i = Some f -> k_ftable (with_file i fn s) !! i = Some (fn f).
Proof. intros H. rewrite (ftable_with i fn s f H). apply list_lookup_insert_eq. by eapply lookup_lt_Some. Qed.

Section Driver.
Context `{BlockDriver} `{Devices}.

Lemma fileclose_more i f s :
  calm s -> k_ftable s !! i = Some f -> 1 < f_ref f ->
  fileclose i s = Ok tt (with_file i (fun f => f <| f_ref ::= fun n => n - 1 |>) s).
Proof.
  intros Hc Hf Hr. unfold fileclose. mcall calm_acquire; [|done]. mcall get_file_run; [|exact Hf].
  rewrite (proj2 (Z.ltb_ge _ _)) by lia. unfold set_file. mstep.
  mcall get_file_run; [|apply lookup_with; exact Hf]. change (f_ref _) with (f_ref f - 1). rewrite (proj2 (Z.ltb_lt _ _)) by lia.
  change (with_file i ?g (lock_st LFtable s)) with (lock_st LFtable (with_file i g s)). by apply (leave LFtable s).
Qed.

Definition closed (f : file) : file := f <| f_ref := 0 |> <| f_type := FD_NONE |>.

Lemma fileclose_last i f s :
  calm s -> k_ftable s !! i = Some f -> f_ref f = 1 ->
  fileclose i s = drop_object (f <| f_ref := 0 |>) (with_file i closed s).
Proof.
  intros Hc Hf Hr. unfold fileclose. mcall calm_acquire; [|done]. mcall get_file_run; [|exact Hf].
  rewrite Hr. change (1 <? 1) with false. cbv iota. unfold set_file. mstep.
  mcall get_file_run; [|apply lookup_with; exact Hf]. change (f_ref _) with (f_ref f - 1). rewrite Hr. change (0 <? 1 - 1) with false. cbv iota. mstep.
  assert (with_file i (fun f => f <| f_ref := 0 |> <| f_type := FD_NONE |>)
            (with_file i (fun f => f <| f_ref ::= fun n => n - 1 |>) (lock_st LFtable s))
          = lock_st LFtable (with_file i closed s)) as ->.
  { unfold with_file. destruct s. unfold lock_st. kred. f_equal. by rewrite list_alter_alter_eq. }
  mcall (leave LFtable s); done.
Qed.

End Driver.

(** ** The table and the pipes agree *)

Definition end_open (w : bool) (pi : pipe) : bool := if w then pi_writeopen pi else pi_readopen pi.

(** Some open file is end [w] of pipe [p]. *)
Definition ends (ft : list file) (p : Z) (w : bool) : Prop :=
  exists i f, ft !! i = Some f /\ 0 < f_ref f /\ f_pipe f = p /\ f_writable f = w.

Definition pipe_end (pp : gmap Z pipe) (p : Z) (w : bool) : Prop :=
  exists pi, pp !! p = Some pi /\ end_open w pi = true.

Definition entry_ok (f : file) : Prop :=
  0 <= f_ref f /\ (f_ref f = 0 -> f_type f = FD_NONE) /\ (0 < f_ref f -> f_type f = FD_PIPE).

(** All open files are pipe ends; each end is one open file, and open in its pipe; a
    pipe has an open end. *)
Definition table_ok (ft : list file) (pp : gmap Z pipe) : Prop :=
  Forall entry_ok ft /\
  (forall i j f g, ft !! i = Some f -> ft !! j = Some g -> 0 < f_ref f -> 0 < f_ref g ->
     f_pipe f = f_pipe g -> f_writable f = f_writable g -> i = j) /\
  (forall p w, ends ft p w <-> pipe_end pp p w) /\
  (forall p pi, pp !! p = Some pi -> exists w, end_open w pi = true).

Lemma ends_same ft i f f' p w :
  ft !! i = Some f -> 0 < f_ref f -> 0 < f_ref f' -> f_pipe f' = f_pipe f -> f_writable f' = f_writable f ->
  ends (<[i := f']> ft) p w <-> ends ft p w.
Proof.
  intros Hi Hr Hr' Hp Hw. split; intros (j & g & Hj & Hg & <- & <-).
  - apply list_lookup_insert_Some in Hj as [(<- & <- & _)|[_ Hj]]; [by exists i, f|by exists j, g].
  - destruct (decide (j = i)) as [->|Hne].
    + assert (g = f) as -> by congruence. exists i, f'. split_and!; auto.
      apply list_lookup_insert_eq. by eapply lookup_lt_Some.
    + exists j, g. split_and!; auto. by rewrite list_lookup_insert_ne.
Qed.

(** Another reference count for a file that stays open. *)
Lemma table_same ft pp i f n :
  table_ok ft pp -> ft !! i = Some f -> 0 < f_ref f -> 0 < n -> table_ok (<[i := f <| f_ref := n |>]> ft) pp.
Proof.
  intros (He & Hu & Hp & Ho) Hi Hr Hn. split_and!; auto.
  - apply Forall_insert; [done|]. pose proof (Forall_lookup_1 _ _ _ _ He Hi) as (_ & _ & Ht).
    split_and!; simpl; intros; try lia; auto.
  - intros a b g h Ha Hb Hg Hh E1 E2.
    apply list_lookup_insert_Some in Ha as [(<- & <- & _)|[Ha0 Ha]];
      apply list_lookup_insert_Some in Hb as [(<- & <- & _)|[Hb0 Hb]]; try done.
    + by apply (Hu i b f h).
    + by apply (Hu a i g f).
    + by apply (Hu a b g h).
  - intros p w. by rewrite (ends_same ft i f) by done.
Qed.

Lemma ends_closed ft pp i f p w :
  table_ok ft pp -> ft !! i = Some f -> 0 < f_ref f ->
  ends (<[i := closed f]> ft) p w <-> ends ft p w /\ ~ (p = f_pipe f /\ w = f_writable f).
Proof.
  intros (_ & Hu & _ & _) Hi Hr. split.
  - intros (j & g & Hj & Hg & <- & <-).
    apply list_lookup_insert_Some in Hj as [(<- & <- & _)|[Hne Hj]]; [simpl in Hg; lia|].
    split; [by exists j, g|]. intros [E1 E2]. by apply Hne, (Hu i j f g).
  - intros [(j & g & Hj & Hg & <- & <-) Hne]. exists j, g. split_and!; auto.
    rewrite list_lookup_insert_ne; [done|]. intros <-. apply Hne. by replace g with f by congruence.
Qed.

(** The pipes after [pipeclose]. *)
Definition pipes_closed (pp : gmap Z pipe) (p : Z) (w : bool) (pi : pipe) : gmap Z pipe :=
  if negb (pi_readopen (close_end w pi)) && negb (pi_writeopen (close_end w pi))
  then delete p pp else <[p := close_end w pi]> pp.

Lemma end_close w w' pi : end_open w' (close_end w pi) = true <-> end_open w' pi = true /\ w' <> w.
Proof. destruct w, w'; simpl; split; try done; by intros []. Qed.

Lemma pipe_end_closed pp p w pi p' w' :
  pp !! p = Some pi ->
  pipe_end (pipes_closed pp p w pi) p' w' <-> pipe_end pp p' w' /\ ~ (p' = p /\ w' = w).
Proof.
  intros Hp. unfold pipes_closed, pipe_end. destruct (_ && _) eqn:Ec.
  - split.
    + intros (pi' & [Hne H]%lookup_delete_Some & E). split; [by exists pi'|]. by intros [-> _].
    + intros [(pi' & Hp' & E) Hne]. exists pi'. split; [|done]. apply lookup_delete_Some. split; [|done].
      intros <-. assert (pi' = pi) as -> by congruence.
      assert (end_open w' (close_end w pi) = true) as Ho by (apply end_close; split; [done|by intros ->; apply Hne]).
      apply andb_true_iff in Ec as [E1%negb_true_iff E2%negb_true_iff]. destruct w'; simpl in Ho; congruence.
  - split.
    + intros (pi' & [[<- <-]|[Hne H]]%lookup_insert_Some & E).
      * apply end_close in E as [E Hw]. split; [by exists pi|]. by intros [_ ->].
      * split; [by exists pi'|]. by intros [-> _].
    + intros [(pi' & Hp' & E) Hne]. destruct (decide (p' = p)) as [->|Hpp].
      * exists (close_end w pi). rewrite lookup_insert_eq. split; [done|]. assert (pi' = pi) as -> by congruence.
        apply end_close. split; [done|by intros ->; apply Hne].
      * exists pi'. by rewrite lookup_insert_ne.
Qed.

Lemma table_closed ft pp i f pi :
  table_ok ft pp -> ft !! i = Some f -> 0 < f_ref f -> pp !! f_pipe f = Some pi ->
  table_ok (<[i := closed f]> ft) (pipes_closed pp (f_pipe f) (f_writable f) pi).
Proof.
  intros Hok Hi Hr Hp. pose proof Hok as (He & Hu & Hpe & Ho). split_and!.
  - apply Forall_insert; [done|]. split_and!; simpl; intros; try lia; done.
  - intros a b g h Ha Hb Hg Hh E1 E2.
    apply list_lookup_insert_Some in Ha as [(<- & <- & _)|[_ Ha]]; [simpl in Hg; lia|].
    apply list_lookup_insert_Some in Hb as [(<- & <- & _)|[_ Hb]]; [simpl in Hh; lia|]. by apply (Hu a b g h).
  - intros p w. rewrite (ends_closed ft pp), (pipe_end_closed pp) by done. by rewrite Hpe.
  - intros p pi' H. unfold pipes_closed in H. destruct (_ && _) eqn:Ec.
    + apply lookup_delete_Some in H as [_ H]. by apply (Ho p).
    + apply lookup_insert_Some in H as [[<- <-]|[_ H]]; [|by apply (Ho p)].
      apply andb_false_iff in Ec as [E|E]; apply negb_false_iff in E; [by exists false|by exists true].
Qed.

(** File [f] made into end [w] of pipe [p]. *)
Definition made_end (w : bool) (p : Z) (f : file) : file :=
  f <| f_ref := 1 |> <| f_type := FD_PIPE |> <| f_readable := negb w |> <| f_writable := w |> <| f_pipe := p |>.

Lemma table_opened ft pp i f p w pi' :
  table_ok ft pp -> ft !! i = Some f -> f_ref f = 0 -> ~ pipe_end pp p w ->
  (forall w', end_open w' pi' = true <-> w' = w \/ pipe_end pp p w') ->
  table_ok (<[i := made_end w p f]> ft) (<[p := pi']> pp).
Proof.
  intros (He & Hu & Hpe & Ho) Hi Hf Hn Hpi. split_and!.
  - apply Forall_insert; [done|]. split_and!; simpl; intros; try lia; done.
  - assert (forall b h, ft !! b = Some h -> 0 < f_ref h -> p = f_pipe h -> w = f_writable h -> False) as Hnew.
    { intros b h Hb Hh -> ->. apply Hn, Hpe. by exists b, h. }
    intros a b g h Ha Hb Hg Hh E1 E2.
    apply list_lookup_insert_Some in Ha as [(<- & <- & _)|[_ Ha]];
      apply list_lookup_insert_Some in Hb as [(<- & <- & _)|[_ Hb]]; try done.
    + by destruct (Hnew b h).
    + by destruct (Hnew a g).
    + by apply (Hu a b g h).
  - intros p' w'. transitivity (ends ft p' w' \/ (p' = p /\ w' = w)).
    + split.
      * intros (j & g & Hj & Hg & <- & <-).
        apply list_lookup_insert_Some in Hj as [(<- & <- & _)|[_ Hj]]; [by right|left; by exists j, g].
      * intros [(j & g & Hj & Hg & <- & <-)|[-> ->]].
        -- exists j, g. split_and!; auto. rewrite list_lookup_insert_ne; [done|]. intros <-.
           replace g with f in Hg by congruence. lia.
        -- exists i, (made_end w p f). split_and!; try done. apply list_lookup_insert_eq. by eapply lookup_lt_Some.
    + rewrite Hpe. unfold pipe_end at 2. destruct (decide (p' = p)) as [->|Hne].
      * rewrite lookup_insert_eq. split.
        -- intros Hor. exists pi'. split; [done|]. apply Hpi. destruct Hor as [|[_ ->]]; [by right|by left].
        -- intros (q & [= <-] & [->|Hq]%Hpi); [by right|by left].
      * rewrite lookup_insert_ne by done. split; [by intros [|[-> _]]|by left].
  - intros q qi [[<- <-]|[_ Hq]]%lookup_insert_Some; [|by apply (Ho q)].
    exists w. apply Hpi. by left.
Qed.

(** ** Sequences of operations *)

Inductive fop := FPipe | FDup (i : nat) | FClose (i : nat).

(** Where the pages of pipes are. *)
Definition files_ok (s : kst) (l : list Z) : Prop :=
  calm s /\ kmem_inv s l /\ table_ok (k_ftable s) (k_pipes s) /\
  (forall p pi, k_pipes s !! p = Some pi -> page_ok (k_link s) p /\ p ∉ l).

Definition file_pages (s : kst) (l : list Z) : gset Z := dom (k_pipes s) ∪ list_to_set l.

Definition open_file (s : kst) (i : nat) : Prop := exists f, k_ftable s !! i = Some f /\ 0 < f_ref f.

Section Ops.
Context `{BlockDriver} `{Devices}.

Definition run_fop (o : fop) : K unit :=
  match o with
  | FPipe => pipealloc ;; ret tt
  | FDup i => filedup i ;; ret tt
  | FClose i => fileclose i
  end.

(** [filedup] and [fileclose] are called on open files. *)
Definition allowed (o : fop) (s : kst) : Prop :=
  match o with FPipe => True | FDup i | FClose i => open_file s i end.

Lemma dup_step i s l :
  files_ok s l -> open_file s i ->
  exists s', run_fop (FDup i) s = Ok tt s' /\ files_ok s' l /\ file_pages s' l = file_pages s l.
Proof.
  intros (Hc & Hk & Ht & Hp) (f & Hf & Hr). eexists. split.
  { unfold run_fop. mcall filedup_run; [|done|exact Hf|lia]. reflexivity. }
  split; [|done]. split_and!; try done.
  rewrite (ftable_with _ _ _ f) by done. by apply (table_same _ _ i f (f_ref f + 1)); [| | |lia].
Qed.

Lemma close_more_step i f s l :
  files_ok s l -> k_ftable s !! i = Some f -> 1 < f_ref f ->
  exists s', run_fop (FClose i) s = Ok tt s' /\ files_ok s' l /\ file_pages s' l = file_pages s l.
Proof.
  intros (Hc & Hk & Ht & Hp) Hf Hr. eexists. split.
  { unfold run_fop. by eapply fileclose_more. }
  split; [|done]. split_and!; try done.
  rewrite (ftable_with _ _ _ f) by done. apply (table_same _ _ i f (f_ref f - 1)); [done|done|lia|lia].
Qed.

Lemma close_last_step i f s l :
  files_ok s l -> k_ftable s !! i = Some f -> f_ref f = 1 ->
  exists s' l', run_fop (FClose i) s = Ok tt s' /\ files_ok s' l' /\ file_pages s' l' = file_pages s l.
Proof.
  intros (Hc & Hk & Ht & Hp) Hf Hr. unfold run_fop. rewrite (fileclose_last i f) by done.
  pose proof Ht as (He & _ & Hpe & _). pose proof (Forall_lookup_1 _ _ _ _ He Hf) as (_ & _ & Hty).
  unfold drop_object. change (f_type _) with (f_type f). rewrite Hty by lia.
  change (f_pipe _) with (f_pipe f). change (f_writable _) with (f_writable f).
  assert (pipe_end (k_pipes s) (f_pipe f) (f_writable f)) as (pi & Hpi & _).
  { apply Hpe. exists i, f. split_and!; auto. lia. }
  set (s1 := with_file i closed s).
  rewrite (pipeclose_run _ _ pi s1) by done.
  assert (k_ftable s1 = <[i := closed f]> (k_ftable s)) as Hft by by apply ftable_with.
  pose proof (table_closed _ _ i f pi Ht Hf ltac:(lia) Hpi) as Ht'. unfold pipes_closed in Ht'.
  destruct (Hp _ _ Hpi) as [Hpo Hpl].
  destruct (_ && _).
  - set (s2 := (half_closed (f_pipe f) (f_writable f) s1) <| k_pipes ::= delete (f_pipe f) |>).
    destruct (calm_kfree (f_pipe f) s2 l) as [E Hk']; [done|done|done|done|].
    exists (pushed (f_pipe f) s2), (f_pipe f :: l). split; [done|].
    assert (k_pipes s2 = delete (f_pipe f) (k_pipes s)) as Epp by (simpl; apply delete_alter_eq).
    split; [split_and!; try done|].
    + change (k_ftable (pushed (f_pipe f) s2)) with (k_ftable s1). change (k_pipes (pushed (f_pipe f) s2)) with (k_pipes s2).
      by rewrite Epp, Hft.
    + change (k_pipes (pushed (f_pipe f) s2)) with (k_pipes s2). rewrite Epp.
      intros q qi [Hne Hq]%lookup_delete_Some. destruct (Hp q qi Hq). split; [done|]. set_solver.
    + unfold file_pages. change (k_pipes (pushed (f_pipe f) s2)) with (k_pipes s2). rewrite Epp, dom_delete_L.
      apply elem_of_dom_2 in Hpi. apply set_eq. intros q. destruct (decide (q = f_pipe f)); set_solver.
  - eexists _, l. split; [reflexivity|].
    assert (k_pipes (half_closed (f_pipe f) (f_writable f) s1) = <[f_pipe f := close_end (f_writable f) pi]> (k_pipes s)) as Epp.
    { simpl. apply map_eq. intros q. destruct (decide (q = f_pipe f)) as [->|Hne].
      - by rewrite lookup_alter_eq, Hpi, lookup_insert_eq.
      - by rewrite lookup_alter_ne, lookup_insert_ne. }
    split; [split_and!; try done|].
    + change (k_ftable (half_closed _ _ s1)) with (k_ftable s1). by rewrite Epp, Hft.
    + rewrite Epp. intros q qi [[<- _]|[_ Hq]]%lookup_insert_Some; [done|by apply (Hp q qi)].
    + unfold file_pages. rewrite Epp, dom_insert_lookup_L; done.
Qed.

Lemma found_free ft i : find_from file_free 0 ft = Some i -> exists f, ft !! i = Some f /\ f_ref f = 0.
Proof. intros (f & Hf & Hr%Z.eqb_eq & _)%find_from_Some. by exists f. Qed.

(** Taking a slot and giving it back. *)
Lemma close_unused i f s :
  calm s -> k_ftable s !! i = Some f -> f_ref f = 1 -> f_type f = FD_NONE ->
  fileclose i s = Ok tt (with_file i closed s).
Proof. intros Hc Hf Hr Ht. rewrite (fileclose_last i f) by done. unfold drop_object. change (f_type _) with (f_type f). by rewrite Ht. Qed.

Definition taken (f : file) : file := f <| f_ref := 1 |>.

Lemma closed_taken f : f_ref f = 0 -> f_type f = FD_NONE -> closed (taken f) = f.
Proof. destruct f. simpl. by intros -> ->. Qed.

Lemma give_back i f s :
  k_ftable s !! i = Some f -> f_ref f = 0 -> f_type f = FD_NONE ->
  with_file i closed (with_file i taken s) = s.
Proof.
  intros Hf Hr Ht. unfold with_file. destruct s. kred. simpl in Hf. f_equal.
  rewrite list_alter_alter_eq, (alter_as_insert _ _ _ f) by done. unfold compose.
  rewrite closed_taken by done. by apply list_insert_id.
Qed.

Lemma popped_none s : calm s -> kmem_inv s [] -> popped s = s.
Proof.
  intros _ (_ & Hch & _). inversion Hch as [E|]. unfold popped. destruct s. kred. simpl in E.
  f_equal. destruct k_kmem as [u fl]. simpl in *. by subst fl.
Qed.

Lemma initlock_calm lk s : calm s -> initlock lk s = Ok tt s.
Proof.
  intros (HL & _). unfold initlock, modify. f_equal. destruct s. simpl in HL. subst. by kred.
Qed.

(** The files of a new pipe. *)
Definition piped (i0 i1 : nat) (p : Z) (s : kst) : kst :=
  with_file i1 (made_end true p) (with_file i0 (made_end false p)
    ((popped s) <| k_pipes ::= <[p := new_pipe (k_mem s) p]> |>)).

(** The slots [pipealloc] finds, in a table with a free slot [i0]. *)
Lemma second_free ft i0 f0 i1 :
  ft !! i0 = Some f0 -> find_from file_free 0 (<[i0 := taken f0]> ft) = Some i1 ->
  i1 <> i0 /\ exists f1, ft !! i1 = Some f1 /\ f_ref f1 = 0.
Proof.
  intros Hi0 (f1 & Hi1 & Hr)%found_free.
  apply list_lookup_insert_Some in Hi1 as [(_ & <- & _)|[Hne Hi1]]; [done|]. split; [congruence|by exists f1].
Qed.

Lemma pipealloc_run s l :
  files_ok s l ->
  (pipealloc s = Ok None s) \/
  (exists i0 i1 f0 f1 p l', l = p :: l' /\ i1 <> i0 /\ k_ftable s !! i0 = Some f0 /\ f_ref f0 = 0 /\
     k_ftable s !! i1 = Some f1 /\ f_ref f1 = 0 /\
     pipealloc s = Ok (Some (i0, i1)) (piped i0 i1 p s) /\ kmem_inv (piped i0 i1 p s) l').
Proof.
  intros (Hc & Hk & Ht & Hp). unfold pipealloc. pose proof Ht as (He & _).
  assert (forall i f, k_ftable s !! i = Some f -> f_ref f = 0 -> f_type f = FD_NONE) as Hty
    by (intros i f Hi; apply (Forall_lookup_1 _ _ _ _ He Hi)).
  pose proof (filealloc_run s Hc) as A0.
  destruct (find_from file_free 0 (k_ftable s)) as [i0|] eqn:E0; [|left; by rewrite (bind_ok _ _ _ _ _ A0)].
  apply found_free in E0 as (f0 & Hi0 & Hr0). fold taken in A0. set (s1 := with_file i0 taken s).
  assert (k_ftable s1 = <[i0 := taken f0]> (k_ftable s)) as Ef1 by by apply ftable_with.
  pose proof (filealloc_run s1 Hc) as A1. fold taken in A1.
  assert (close_opt (Some i0) s1 = Ok tt s) as Hb1.
  { simpl. rewrite (close_unused i0 (taken f0)); [|done|by apply lookup_with|done|exact (Hty i0 f0 Hi0 Hr0)].
    f_equal. by apply (give_back i0 f0); [| |exact (Hty i0 f0 Hi0 Hr0)]. }
  destruct (find_from file_free 0 (k_ftable s1)) as [i1|] eqn:E1; cycle 1.
  { left. rewrite (bind_ok _ _ _ _ _ A0), (bind_ok _ _ _ _ _ A1). unfold pipealloc_bad.
    by rewrite (bind_ok _ _ _ _ _ Hb1). }
  rewrite Ef1 in E1. apply second_free in E1 as [Hne (f1 & Hi1 & Hr1)]; [|done].
  assert (k_ftable s1 !! i1 = Some f1) as Hi1' by by rewrite Ef1, list_lookup_insert_ne.
  set (s2 := with_file i1 taken s1).
  destruct (calm_kalloc s2 l Hc Hk) as [Ea Hk'].
  destruct l as [|p l'].
  - left. rewrite (bind_ok _ _ _ _ _ A0), (bind_ok _ _ _ _ _ A1), (bind_ok _ _ _ _ _ Ea). change (default 0 (list.head []) =? 0) with true. cbv iota. rewrite popped_none by done.
    (* closing the first slot and then the second *)
    assert (close_opt (Some i0) s2 = Ok tt (with_file i1 taken s)) as Hb0.
    { simpl. rewrite (close_unused i0 (taken f0)); [|done| |done|exact (Hty i0 f0 Hi0 Hr0)].
      - f_equal. unfold s2, s1, with_file. destruct s. kred. simpl in Hi0. f_equal.
        rewrite list_alter_alter_ne by done. rewrite list_alter_alter_eq.
        rewrite (alter_as_insert (closed ∘ taken) _ i0 f0) by done.
        unfold compose. rewrite closed_taken by (done || exact (Hty i0 f0 Hi0 Hr0)). by rewrite list_insert_id.
      - unfold s2. rewrite (ftable_with _ _ _ f1) by done. rewrite list_lookup_insert_ne by done. by apply lookup_with. }
    unfold pipealloc_bad. rewrite (bind_ok _ _ _ _ _ Hb0).
    assert (close_opt (Some i1) (with_file i1 taken s) = Ok tt s) as Hb2.
    { simpl. rewrite (close_unused i1 (taken f1)); [|done|by apply lookup_with|done|exact (Hty i1 f1 Hi1 Hr1)].
      f_equal. by apply (give_back i1 f1); [| |exact (Hty i1 f1 Hi1 Hr1)]. }
    by rewrite (bind_ok _ _ _ _ _ Hb2).
  - right. exists i0, i1, f0, f1, p, l'. split_and!; try done.
    destruct (page_ok_nz (k_link s) p) as [Hnz _]; [apply Hk|by destruct Hk as (_ & _ & _ & [? _]%Forall_cons_1)|].
    rewrite (bind_ok _ _ _ _ _ A0), (bind_ok _ _ _ _ _ A1), (bind_ok _ _ _ _ _ Ea).
    change (default 0 (list.head (p :: l'))) with p. rewrite (proj2 (Z.eqb_neq _ _)) by done. mstep.
    erewrite bind_ok; [|by apply initlock_calm]. cbv beta. unfold set_file. mstep. unfold ret. f_equal.
    unfold piped, s2, s1, with_file, popped. destruct s. kred. f_equal.
    rewrite (list_alter_alter_ne _ taken _ i0 i1) by done. by rewrite !list_alter_alter_eq.
Qed.

Lemma ftable_piped i0 i1 f0 f1 p s :
  i1 <> i0 -> k_ftable s !! i0 = Some f0 -> k_ftable s !! i1 = Some f1 ->
  k_ftable (piped i0 i1 p s) = <[i1 := made_end true p f1]> (<[i0 := made_end false p f0]> (k_ftable s)).
Proof.
  intros Hne Hf0 Hf1. unfold piped. rewrite (ftable_with _ _ _ f1).
  - by rewrite (ftable_with _ _ _ f0).
  - rewrite (ftable_with _ _ _ f0) by done. by rewrite list_lookup_insert_ne.
Qed.

Lemma pipe_step s l :
  files_ok s l ->
  exists s' l', run_fop FPipe s = Ok tt s' /\ files_ok s' l' /\ file_pages s' l' = file_pages s l.
Proof.
  intros Hok. unfold run_fop.
  destruct (pipealloc_run s l Hok) as [E|(i0 & i1 & f0 & f1 & p & l' & -> & Hne & Hf0 & Hr0 & Hf1 & Hr1 & E & Hk')];
    rewrite (bind_ok _ _ _ _ _ E); [by exists s, l|].
  destruct Hok as (Hc & Hk & Ht & Hp). exists (piped i0 i1 p s), l'. split; [done|].
  assert (k_pipes s !! p = None) as Hfresh.
  { apply eq_None_not_Some. intros [pi Hpi]. destruct (Hp p pi Hpi) as [_ Hn]. set_solver. }
  assert (forall w, ~ pipe_end (k_pipes s) p w) as Hnone by (intros w (pi & Hpi & _); congruence).
  destruct Hk as (_ & _ & Hnd & Hpo). apply list.NoDup_cons in Hnd as [Hpl _]. apply Forall_cons_1 in Hpo as [Hpo _].
  split; [split_and!; try done|].
  - rewrite (ftable_piped i0 i1 f0 f1) by done. set (pi := new_pipe (k_mem s) p).
    change (k_pipes (piped i0 i1 p s)) with (<[p := pi]> (k_pipes s)).
    rewrite <- (insert_insert_eq (k_pipes s) p pi (pi <| pi_writeopen := false |>)).
    apply table_opened; [apply table_opened; auto| | | |].
    + intros w. destruct w; simpl; split; try done; [|by left]. by intros [|?%Hnone].
    + by rewrite list_lookup_insert_ne.
    + done.
    + intros (qi & Hq & Ho). rewrite lookup_insert_eq in Hq. by injection Hq as <-.
    + intros w. unfold pipe_end. rewrite lookup_insert_eq. destruct w; simpl.
      * split; [by left|done].
      * split; [right; by eexists|done].
  - intros q qi Hq. change (k_pipes (piped i0 i1 p s)) with (<[p := new_pipe (k_mem s) p]> (k_pipes s)) in Hq.
    apply lookup_insert_Some in Hq as [[<- _]|[_ Hq]]; [done|]. destruct (Hp q qi Hq). set_solver.
  - unfold file_pages. change (k_pipes (piped i0 i1 p s)) with (<[p := new_pipe (k_mem s) p]> (k_pipes s)).
    rewrite dom_insert_L. set_solver.
Qed.

Lemma fop_step o s l :
  files_ok s l -> allowed o s ->
  exists s' l', run_fop o s = Ok tt s' /\ files_ok s' l' /\ file_pages s' l' = file_pages s l.
Proof.
  intros Hok Ha. destruct o as [|i|i]; [by apply pipe_step| |].
  - destruct (dup_step i s l Hok Ha) as (s' & ?). by exists s', l.
  - destruct Ha as (f & Hf & Hr). destruct (decide (f_ref f = 1)) as [E|E]; [by apply (close_last_step i f)|].
    destruct (close_more_step i f s l Hok Hf ltac:(lia)) as (s' & ?). by exists s', l.
Qed.

(** The callers' side: every operation is allowed when its turn comes. *)
Fixpoint legal (os : list fop) (s : kst) : Prop :=
  match os with
  | [] => True
  | o :: os' => allowed o s /\ forall s', run_fop o s = Ok tt s' -> legal os' s'
  end.

(** C21. Open files and pipes never leak and are never freed twice. Whatever sequence of
    [pipealloc], [filedup] and [fileclose] runs, with the last two on open files only,
    nothing panics, every page is throughout either a pipe with an open end or on the
    free list and never both, and once no file is open all pages are on the free list. *)
Theorem pipes_never_leak os s l :
  files_ok s l -> legal os s ->
  exists s' l', for_each os run_fop s = Ok tt s' /\ files_ok s' l' /\ file_pages s' l' = file_pages s l /\
    ((forall i, ~ open_file s' i) -> list_to_set l' =@{gset Z} file_pages s l).
Proof.
  revert s l. induction os as [|o os IH]; intros s l Hok Hl.
  - exists s, l. split_and!; try done. intros Hno. unfold file_pages.
    destruct Hok as (_ & _ & (_ & _ & Hpe & Ho) & _).
    assert (k_pipes s = ∅) as ->; [|set_solver]. apply map_empty. intros p. apply eq_None_not_Some. intros [pi Hpi].
    destruct (Ho p pi Hpi) as [w Hw]. assert (ends (k_ftable s) p w) as (i & f & Hi & Hr & _) by (apply Hpe; by exists pi).
    apply (Hno i). by exists f.
  - destruct Hl as [Ha Hl]. destruct (fop_step o s l Hok Ha) as (s1 & l1 & E & Hok1 & Ep1).
    destruct (IH s1 l1 Hok1 (Hl s1 E)) as (s' & l' & E' & Hok' & Ep' & Hend).
    exists s', l'. simpl. rewrite (bind_ok _ _ _ _ _ E). rewrite <- Ep1. done.
Qed.
End Ops.

(** A pipe opened, its read end duplicated, all closed again. *)
#[local] Instance no_devs : Devices := {| dev_read _ := None; dev_write _ := None |}.

Definition files_st : kst := pool_st <| k_cpu := mkCpu 0 true true |>.
Definition files_ops : list fop := [FPipe; FDup 0; FClose 1; FClose 0; FClose 0].

Definition open_at (s : kst) (i : nat) : bool :=
  match k_ftable s !! i with Some f => 0 <? f_ref f | None => false end.
Definition allowed_at (o : fop) (s : kst) : bool :=
  match o with FPipe => true | FDup i | FClose i => open_at s i end.
Fixpoint legal_at (os : list fop) (s : kst) : bool :=
  match os with
  | [] => true
  | o :: os' => allowed_at o s && legal_at os' (final (run_fop o s))
  end.

Lemma legal_at_legal os s : legal_at os s = true -> legal os s.
Proof.
  assert (forall o s, allowed_at o s = true -> allowed o s) as Ha.
  { intros [|i|i] s'; simpl; [done| |]; unfold open_at, open_file;
      (destruct (k_ftable s' !! i) as [f|]; [|done]); intros Hf%Z.ltb_lt; by exists f. }
  revert s. induction os as [|o os IH]; intros s; simpl; [done|]. intros [Ho Hs]%andb_true_iff.
  split; [by apply Ha|]. intros s' E. rewrite E in Hs. by apply IH.
Qed.

Lemma pipes_never_leak_witness :
  legal files_ops files_st /\
  exists s' l', for_each files_ops run_fop files_st = Ok tt s' /\
    file_pages s' l' = {[0x80200000; 0x80201000]}.
Proof.
  assert (legal files_ops files_st) as Hl by (apply legal_at_legal; vm_compute; reflexivity).
  split; [exact Hl|].
  destruct (pipes_never_leak files_ops files_st [0x80200000; 0x80201000]) as (s' & l' & E & _ & Ep & _); [|exact Hl|].
  - split; [split; [done|split; [split; simpl; lia|done]]|]. split; [|split].
    + split_and!; simpl.
      * reflexivity.
      * apply chain_cons; [done|]. apply chain_cons; [done|]. apply chain_nil.
      * apply (bool_decide_unpack _). reflexivity.
      * repeat constructor; unfold KERNBASE, PHYSTOP; simpl; lia.
    + split_and!.
      * apply list.Forall_forall. intros f Hf. change (f ∈ replicate NFILE zero_file) in Hf. apply elem_of_replicate in Hf as [-> _].
        split_and!; simpl; intros; (lia || done).
      * intros i j f g Hf. change (replicate NFILE zero_file !! i = Some f) in Hf. apply lookup_replicate in Hf as [-> _].
        simpl. lia.
      * intros p w. split.
        -- intros (i & f & Hf & Hr & _). change (replicate NFILE zero_file !! i = Some f) in Hf.
           apply lookup_replicate in Hf as [-> _]. simpl in Hr. lia.
        -- intros (pi & Hpi & _). change (k_pipes files_st) with (∅ : gmap Z pipe) in Hpi. by rewrite lookup_empty in Hpi.
      * intros p pi Hpi. change (k_pipes files_st) with (∅ : gmap Z pipe) in Hpi. by rewrite lookup_empty in Hpi.
    + intros p pi Hpi. change (k_pipes files_st) with (∅ : gmap Z pipe) in Hpi. by rewrite lookup_empty in Hpi.
  - exists s', l'. split; [exact E|]. rewrite Ep. reflexivity.
Defined.
