(* ===== verification/DiscFs.v ===== *)
(** * The lock discipline: disk, log, files and pipes *)

From S2P Require Import Prelude Params State Mem Strings Locks Printf Io Kalloc Vm Sched Policy Procs Uaccess Sleeplock Discipline Bio Ide Log Pipe Fs File.
Import Spin.

(** ** Drivers *)

(** What the block layer asks of a disk driver, and the file system of a device. *)
Class DriverDisc `{BlockDriver} := driver_disc L i : disc L (Bio.iderw i) L.
#[export] Hint Resolve driver_disc : disc.

Class DevicesDisc `{Devices} := {
  dev_read_disc m f L i n : dev_read m = Some f -> disc L (f i n) L;
  dev_write_disc m f L i src : dev_write m = Some f -> disc L (f i src) L
}.

Lemma disc_get_buf L (i : nat) : disc L (get_buf i) L.
Proof. unfold get_buf. disc. Qed.
#[export] Hint Resolve disc_get_buf : disc.
Lemma disc_set_buf L (i : nat) (f : buf -> buf) : disc L (set_buf i f) L.
Proof. unfold set_buf. disc. Qed.
#[export] Hint Resolve disc_set_buf : disc.

(** ** Buffers and the log *)

Lemma disc_bget L (dev blockno : Z) : disc L (bget dev blockno) L.
Proof. unfold bget. disc. Qed.
#[export] Hint Resolve disc_bget : disc.
Lemma disc_brelse L (i : nat) : disc L (brelse i) L.
Proof. unfold brelse. disc. Qed.
#[export] Hint Resolve disc_brelse : disc.
Lemma disc_bread `{DriverDisc} L (dev blockno : Z) : disc L (bread dev blockno) L.
Proof. unfold bread. disc. Qed.
#[export] Hint Resolve disc_bread : disc.
Lemma disc_bwrite `{DriverDisc} L (i : nat) : disc L (bwrite i) L.
Proof. unfold bwrite. disc. Qed.
#[export] Hint Resolve disc_bwrite : disc.
Lemma disc_readsb `{DriverDisc} L (dev : Z) : disc L (readsb dev) L.
Proof. unfold readsb. disc. Qed.
#[export] Hint Resolve disc_readsb : disc.
Lemma disc_get_log L : disc L get_log L.
Proof. unfold get_log. disc. Qed.
#[export] Hint Resolve disc_get_log : disc.
Lemma disc_set_log L (f : log -> log) : disc L (set_log f) L.
Proof. unfold set_log. disc. Qed.
#[export] Hint Resolve disc_set_log : disc.
Lemma disc_log_block L (i : nat) : disc L (log_block i) L.
Proof. unfold log_block. disc. Qed.
#[export] Hint Resolve disc_log_block : disc.
Lemma disc_install_block `{DriverDisc} L (tail : nat) : disc L (install_block tail) L.
Proof. unfold install_block. disc. Qed.
#[export] Hint Resolve disc_install_block : disc.
Lemma disc_install_trans `{DriverDisc} L : disc L install_trans L.
Proof. unfold install_trans. disc. Qed.
#[export] Hint Resolve disc_install_trans : disc.
Lemma disc_read_block L (d : list Z) (i : nat) : disc L (read_block d i) L.
Proof. unfold read_block. disc. Qed.
#[export] Hint Resolve disc_read_block : disc.
Lemma disc_read_head `{DriverDisc} L : disc L read_head L.
Proof. unfold read_head. disc. Qed.
#[export] Hint Resolve disc_read_head : disc.
Lemma disc_write_head `{DriverDisc} L : disc L write_head L.
Proof. unfold write_head. disc. Qed.
#[export] Hint Resolve disc_write_head : disc.
Lemma disc_clear_n L : disc L clear_n L.
Proof. unfold clear_n. disc. Qed.
#[export] Hint Resolve disc_clear_n : disc.
Lemma disc_recover_from_log `{DriverDisc} L : disc L recover_from_log L.
Proof. unfold recover_from_log. disc. Qed.
#[export] Hint Resolve disc_recover_from_log : disc.
Lemma disc_begin_op_loop L : disc (LLog :: L) begin_op_loop L.
Proof. unfold begin_op_loop. disc. Qed.
#[export] Hint Resolve disc_begin_op_loop : disc.
Lemma disc_begin_op L : disc L begin_op L.
Proof. unfold begin_op. disc. Qed.
#[export] Hint Resolve disc_begin_op : disc.
Lemma resumes_begin_op : resumes begin_op_resume [].
Proof. apply (resumes_bind [LLog]); [apply resumes_sleep|]. intros. disc. Qed.
Lemma disc_log_one `{DriverDisc} L (tail : nat) : disc L (log_one tail) L.
Proof. unfold log_one. disc. Qed.
#[export] Hint Resolve disc_log_one : disc.
Lemma disc_write_log `{DriverDisc} L : disc L write_log L.
Proof. unfold write_log. disc. Qed.
#[export] Hint Resolve disc_write_log : disc.
Lemma disc_commit `{DriverDisc} L : disc L commit L.
Proof. unfold commit. disc. Qed.
#[export] Hint Resolve disc_commit : disc.
Lemma disc_end_op `{DriverDisc} L : disc L end_op L.
Proof. unfold end_op. disc. Qed.
#[export] Hint Resolve disc_end_op : disc.
Lemma disc_log_write L (i : nat) : disc L (log_write i) L.
Proof. unfold log_write. disc. Qed.
#[export] Hint Resolve disc_log_write : disc.

(** ** Pipes *)

Lemma disc_get_pipe L (p : Z) : disc L (get_pipe p) L.
Proof. unfold get_pipe. disc. Qed.
#[export] Hint Resolve disc_get_pipe : disc.
Lemma disc_set_pipe L (p : Z) (f : pipe -> pipe) : disc L (set_pipe p f) L.
Proof. unfold set_pipe. disc. Qed.
#[export] Hint Resolve disc_set_pipe : disc.
Lemma disc_killed L : disc L killed L.
Proof. unfold killed. disc. Qed.
#[export] Hint Resolve disc_killed : disc.
Lemma disc_pipeclose L (p : Z) (writable : bool) : disc L (pipeclose p writable) L.
Proof. unfold pipeclose. disc. Qed.
#[export] Hint Resolve disc_pipeclose : disc.
Lemma disc_pipewrite_loop L (p n : Z) (src : list Z) : disc (LPipe p :: L) (pipewrite_loop p n src) L.
Proof. revert p n. induction src; intros; cbn [pipewrite_loop]; disc. Qed.
#[export] Hint Resolve disc_pipewrite_loop : disc.
Lemma disc_pipewrite L (p : Z) (src : list Z) : disc L (pipewrite p src) L.
Proof. unfold pipewrite. disc. Qed.
#[export] Hint Resolve disc_pipewrite : disc.
Lemma disc_piperead_loop L (p n : Z) : disc (LPipe p :: L) (piperead_loop p n) L.
Proof. unfold piperead_loop. disc. Qed.
#[export] Hint Resolve disc_piperead_loop : disc.
Lemma disc_piperead L (p n : Z) : disc L (piperead p n) L.
Proof. unfold piperead. disc. Qed.
#[export] Hint Resolve disc_piperead : disc.

Lemma resumes_pipewrite p n src : resumes (fun saved => pipewrite_resume saved p n src) [].
Proof. apply (resumes_bind [LPipe p]); [apply resumes_sleep|]. intros. disc. Qed.
Lemma resumes_piperead p n : resumes (fun saved => piperead_resume saved p n) [].
Proof. apply (resumes_bind [LPipe p]); [apply resumes_sleep|]. intros. disc. Qed.

(** ** The file system *)

Lemma disc_set_data L (i : nat) (f : list Z -> list Z) : disc L (set_data i f) L.
Proof. unfold set_data. disc. Qed.
#[export] Hint Resolve disc_set_data : disc.
Lemma disc_bzero `{DriverDisc} L (dev bno : Z) : disc L (bzero dev bno) L.
Proof. unfold bzero. disc. Qed.
#[export] Hint Resolve disc_bzero : disc.
Lemma disc_balloc_loop `{DriverDisc} L (dev : Z) (bs : list Z) : disc L (balloc_loop dev bs) L.
Proof. revert dev. induction bs; intros; cbn [balloc_loop]; disc. Qed.
#[export] Hint Resolve disc_balloc_loop : disc.
Lemma disc_balloc `{DriverDisc} L (dev : Z) : disc L (balloc dev) L.
Proof. unfold balloc. disc. Qed.
#[export] Hint Resolve disc_balloc : disc.
Lemma disc_bfree `{DriverDisc} L (dev b : Z) : disc L (bfree dev b) L.
Proof. unfold bfree. disc. Qed.
#[export] Hint Resolve disc_bfree : disc.
Lemma disc_get_inode L (i : nat) : disc L (get_inode i) L.
Proof. unfold get_inode. disc. Qed.
#[export] Hint Resolve disc_get_inode : disc.
Lemma disc_set_inode L (i : nat) (f : inode -> inode) : disc L (set_inode i f) L.
Proof. unfold set_inode. disc. Qed.
#[export] Hint Resolve disc_set_inode : disc.
Lemma disc_iget L (dev inum : Z) : disc L (iget dev inum) L.
Proof. unfold iget. disc. Qed.
#[export] Hint Resolve disc_iget : disc.
Lemma disc_idup L (i : nat) : disc L (idup i) L.
Proof. unfold idup. disc. Qed.
#[export] Hint Resolve disc_idup : disc.
Lemma disc_ialloc_loop `{DriverDisc} L (dev type : Z) (inums : list Z) : disc L (ialloc_loop dev type inums) L.
Proof. revert dev type. induction inums; intros; cbn [ialloc_loop]; disc. Qed.
#[export] Hint Resolve disc_ialloc_loop : disc.
Lemma disc_ialloc `{DriverDisc} L (dev type : Z) : disc L (ialloc dev type) L.
Proof. unfold ialloc. disc. Qed.
#[export] Hint Resolve disc_ialloc : disc.
Lemma disc_iupdate `{DriverDisc} L (i : nat) : disc L (iupdate i) L.
Proof. unfold iupdate. disc. Qed.
#[export] Hint Resolve disc_iupdate : disc.
Lemma disc_ilock `{DriverDisc} L (i : nat) : disc L (ilock i) L.
Proof. unfold ilock. disc. Qed.
#[export] Hint Resolve disc_ilock : disc.
Lemma disc_iunlock L (i : nat) : disc L (iunlock i) L.
Proof. unfold iunlock. disc. Qed.
#[export] Hint Resolve disc_iunlock : disc.
Lemma disc_inode_addr `{DriverDisc} L (i : nat) (bn : Z) : disc L (inode_addr i bn) L.
Proof. unfold inode_addr. disc. Qed.
#[export] Hint Resolve disc_inode_addr : disc.
Lemma disc_bmap `{DriverDisc} L (i : nat) (bn : Z) : disc L (bmap i bn) L.
Proof. unfold bmap. disc. Qed.
#[export] Hint Resolve disc_bmap : disc.
Lemma disc_trunc_direct `{DriverDisc} L (i k : nat) : disc L (trunc_direct i k) L.
Proof. unfold trunc_direct. disc. Qed.
#[export] Hint Resolve disc_trunc_direct : disc.
Lemma disc_itrunc `{DriverDisc} L (i : nat) : disc L (itrunc i) L.
Proof. unfold itrunc. disc. Qed.
#[export] Hint Resolve disc_itrunc : disc.
Lemma disc_iput `{DriverDisc} L (i : nat) : disc L (iput i) L.
Proof. unfold iput. disc. Qed.
#[export] Hint Resolve disc_iput : disc.
Lemma disc_iunlockput `{DriverDisc} L (i : nat) : disc L (iunlockput i) L.
Proof. unfold iunlockput. disc. Qed.
#[export] Hint Resolve disc_iunlockput : disc.
Lemma disc_stati L (i : nat) : disc L (stati i) L.
Proof. unfold stati. disc. Qed.
#[export] Hint Resolve disc_stati : disc.
Lemma disc_readi_loop `{DriverDisc} L (fuel : nat) (i : nat) (off left : Z) : disc L (readi_loop fuel i off left) L.
Proof. revert i off left. induction fuel; intros; cbn [readi_loop]; disc. Qed.
#[export] Hint Resolve disc_readi_loop : disc.
Lemma disc_readi `{DriverDisc} `{DevicesDisc} L (i : nat) (off n : Z) : disc L (readi i off n) L.
Proof.
  unfold readi. eapply disc_bind; [disc_leaf|]. intros ip. destruct (i_type ip =? T_DEV); [|disc]. destruct (_ || _); [disc|].
  destruct (dev_read _) eqn:E; [|disc]. by eapply dev_read_disc.
Qed.
#[export] Hint Resolve disc_readi : disc.
Lemma disc_writei_loop `{DriverDisc} L (fuel : nat) (i : nat) (off : Z) (src : list Z) : disc L (writei_loop fuel i off src) L.
Proof. revert i off src. induction fuel; intros; cbn [writei_loop]; disc. Qed.
#[export] Hint Resolve disc_writei_loop : disc.
Lemma disc_writei `{DriverDisc} `{DevicesDisc} L (i : nat) (src : list Z) (off : Z) : disc L (writei i src off) L.
Proof.
  unfold writei. eapply disc_bind; [disc_leaf|]. intros ip. cbv zeta. destruct (i_type ip =? T_DEV); [|disc].
  destruct (_ || _); [disc|]. destruct (dev_write _) eqn:E; [|disc]. by eapply dev_write_disc.
Qed.
#[export] Hint Resolve disc_writei : disc.
Lemma disc_read_dirent `{DriverDisc} `{DevicesDisc} L (i : nat) (off : Z) : disc L (read_dirent i off) L.
Proof. unfold read_dirent. disc. Qed.
#[export] Hint Resolve disc_read_dirent : disc.
Lemma disc_dirlookup_loop `{DriverDisc} `{DevicesDisc} L (fuel : nat) (i : nat) (name : list Z) (off : Z) : disc L (dirlookup_loop fuel i name off) L.
Proof. revert i name off. induction fuel; intros; cbn [dirlookup_loop]; disc. Qed.
#[export] Hint Resolve disc_dirlookup_loop : disc.
Lemma disc_dirlookup `{DriverDisc} `{DevicesDisc} L (i : nat) (name : list Z) : disc L (dirlookup i name) L.
Proof. unfold dirlookup. disc. Qed.
#[export] Hint Resolve disc_dirlookup : disc.
Lemma disc_empty_dirent `{DriverDisc} `{DevicesDisc} L (fuel : nat) (i : nat) (off : Z) : disc L (empty_dirent fuel i off) L.
Proof. revert i off. induction fuel; intros; cbn [empty_dirent]; disc. Qed.
#[export] Hint Resolve disc_empty_dirent : disc.
Lemma disc_dirlink `{DriverDisc} `{DevicesDisc} L (i : nat) (name : list Z) (inum : Z) : disc L (dirlink i name inum) L.
Proof. unfold dirlink. disc. Qed.
#[export] Hint Resolve disc_dirlink : disc.
Lemma disc_namex_loop `{DriverDisc} `{DevicesDisc} L (fuel : nat) (i : nat) (path : list Z) (parent : bool) : disc L (namex_loop fuel i path parent) L.
Proof. revert i path parent. induction fuel; intros; cbn [namex_loop]; disc. Qed.
#[export] Hint Resolve disc_namex_loop : disc.
Lemma disc_namex `{DriverDisc} `{DevicesDisc} L (path : list Z) (parent : bool) : disc L (namex path parent) L.
Proof. unfold namex. disc. Qed.
#[export] Hint Resolve disc_namex : disc.
Lemma disc_namei `{DriverDisc} `{DevicesDisc} L (path : list Z) : disc L (namei path) L.
Proof. unfold namei. disc. Qed.
#[export] Hint Resolve disc_namei : disc.
Lemma disc_nameiparent `{DriverDisc} `{DevicesDisc} L (path : list Z) : disc L (nameiparent path) L.
Proof. unfold nameiparent. disc. Qed.
#[export] Hint Resolve disc_nameiparent : disc.

(** ** Open files *)

Lemma disc_get_file L (i : nat) : disc L (get_file i) L.
Proof. unfold get_file. disc. Qed.
#[export] Hint Resolve disc_get_file : disc.
Lemma disc_set_file L (i : nat) (f : file -> file) : disc L (set_file i f) L.
Proof. unfold set_file. disc. Qed.
#[export] Hint Resolve disc_set_file : disc.
Lemma disc_filealloc L : disc L filealloc L.
Proof. unfold filealloc. disc. Qed.
#[export] Hint Resolve disc_filealloc : disc.
Lemma disc_filedup L (i : nat) : disc L (filedup i) L.
Proof. unfold filedup. disc. Qed.
#[export] Hint Resolve disc_filedup : disc.
Lemma disc_file_ip L (f : file) : disc L (file_ip f) L.
Proof. unfold file_ip. disc. Qed.
#[export] Hint Resolve disc_file_ip : disc.
Lemma disc_drop_object `{DriverDisc} L (ff : file) : disc L (drop_object ff) L.
Proof. unfold drop_object. disc. Qed.
#[export] Hint Resolve disc_drop_object : disc.
Lemma disc_fileclose `{DriverDisc} L (i : nat) : disc L (fileclose i) L.
Proof. unfold fileclose. disc. Qed.
#[export] Hint Resolve disc_fileclose : disc.
Lemma disc_filestat `{DriverDisc} L (i : nat) : disc L (filestat i) L.
Proof. unfold filestat. disc. Qed.
#[export] Hint Resolve disc_filestat : disc.
Lemma disc_advance L (i : nat) (r : Z) : disc L (advance i r) L.
Proof. unfold advance. disc. Qed.
#[export] Hint Resolve disc_advance : disc.
Lemma disc_fileread `{DriverDisc} `{DevicesDisc} L (i : nat) (n : Z) : disc L (fileread i n) L.
Proof. unfold fileread. disc. Qed.
#[export] Hint Resolve disc_fileread : disc.
Lemma disc_filewrite_loop `{DriverDisc} `{DevicesDisc} L (fuel : nat) (i : nat) (done : Z) (src : list Z) : disc L (filewrite_loop fuel i done src) L.
Proof. revert i done src. induction fuel; intros; cbn [filewrite_loop]; disc. Qed.
#[export] Hint Resolve disc_filewrite_loop : disc.
Lemma disc_filewrite `{DriverDisc} `{DevicesDisc} L (i : nat) (src : list Z) : disc L (filewrite i src) L.
Proof. unfold filewrite. disc. Qed.
#[export] Hint Resolve disc_filewrite : disc.
Lemma disc_close_opt `{DriverDisc} L (o : option nat) : disc L (close_opt o) L.
Proof. unfold close_opt. disc. Qed.
#[export] Hint Resolve disc_close_opt : disc.
Lemma disc_pipealloc_bad `{DriverDisc} L (f0 f1 : option nat) : disc L (pipealloc_bad f0 f1) L.
Proof. unfold pipealloc_bad. disc. Qed.
#[export] Hint Resolve disc_pipealloc_bad : disc.

(** ** Routines that initialise locks run with none held *)

Lemma disc_initlock_free lk : disc [] (initlock lk) [].
Proof. apply disc_initlock, not_elem_of_nil. Qed.
#[export] Hint Resolve disc_initlock_free : disc.
Lemma disc_initsleeplock l : disc [] (initsleeplock l) [].
Proof. unfold initsleeplock. disc. Qed.
#[export] Hint Resolve disc_initsleeplock : disc.
Lemma disc_iinit `{DriverDisc} dev : disc [] (iinit dev) [].
Proof. unfold iinit. disc. Qed.
Lemma disc_initlog `{DriverDisc} dev : disc [] (initlog dev) [].
Proof. unfold initlog. disc. Qed.
Lemma disc_pipealloc `{DriverDisc} : disc [] pipealloc [].
Proof. unfold pipealloc. disc. Qed.
#[export] Hint Resolve disc_iinit disc_initlog disc_pipealloc : disc.

(** ** The two drivers *)

#[export] Instance memide_disc : @DriverDisc memide_driver.
Proof. intros L i. cbn [Bio.iderw memide_driver]. unfold Memide.iderw. disc. Qed.

Section Ide.
Context `{Ports}.

Lemma disc_inb L port : disc L (inb port) L.
Proof. unfold inb, access. disc. Qed.
Lemma disc_outb L port v : disc L (outb port v) L.
Proof. unfold outb, access. disc. Qed.
Lemma disc_insl L port n : disc L (insl port n) L.
Proof. unfold insl, access. disc. Qed.
Lemma disc_outsl L port l : disc L (outsl port l) L.
Proof. unfold outsl, access. disc. Qed.
Lemma disc_poll L n (m : K Z) test : disc L m L -> disc L (poll n m test) L.
Proof. intros Hm. induction n as [|n IH]; cbn [poll]; disc. Qed.
#[local] Hint Resolve disc_inb disc_outb disc_insl disc_outsl disc_poll : disc.

Lemma disc_idewait L ck : disc L (idewait ck) L.
Proof. unfold idewait. disc. Qed.
#[local] Hint Resolve disc_idewait : disc.
Lemma disc_idestart L i : disc L (idestart i) L.
Proof. unfold idestart. disc. Qed.
#[local] Hint Resolve disc_idestart : disc.
Lemma disc_set_queue L q : disc L (set_queue q) L.
Proof. unfold set_queue. disc. Qed.
#[local] Hint Resolve disc_set_queue : disc.
Lemma disc_iderw_wait L i : disc (LIde :: L) (iderw_wait i) L.
Proof. unfold iderw_wait. disc. Qed.
#[local] Hint Resolve disc_iderw_wait : disc.

Definition ide_driver : BlockDriver := {| Bio.iderw := Ide.iderw |}.

Lemma ide_disc : @DriverDisc ide_driver.
Proof. intros L i. cbn [Bio.iderw ide_driver]. unfold Ide.iderw, dev. disc. Qed.

Lemma disc_ideintr L : disc L Ide.ideintr L.
Proof. unfold Ide.ideintr. disc. Qed.

Lemma resumes_iderw i : resumes (fun saved => iderw_resume saved i) [].
Proof. apply (resumes_bind [LIde]); [apply resumes_sleep|]. intros. disc. Qed.
End Ide.
