(* ===== verification/ProcLife.v ===== *)
(** * The life of a process ([userinit], [growproc], [fork], [exit], [wait] and [forkret]
    of [proc.c])

    [wait] that finds no dead child ends in [Switch] and is continued by
    [wait_resume]. *)

From S2P Require Import Prelude Params State Mem Strings Locks Printf Kalloc Vm Sched Policy Procs Uaccess Sleeplock Bio Log Pipe Fs File.
Import Spin.

(** [safestrcpy(dst, src, 16)] on arrays: the routine of [string.c], run in a memory
    that holds [dst] at 0 and the string [src], with its NUL, at 64. *)
Definition copy_name (dst src : list Z) : list Z :=
  let m := put_bytes (put_bytes (fun _ => 0) 0 dst) 64 src in
  (fun i => safestrcpy m 0 64 16 (Z.of_nat i)) <$> seq 0 16.

Section Driver.
Context `{BlockDriver} `{Devices}.

(** ** userinit *)

Definition user_cs : Z := Z.lor (Z.shiftl SEG_UCODE 3) DPL_USER.
Definition user_ds : Z := Z.lor (Z.shiftl SEG_UDATA 3) DPL_USER.

(** [initcode] is the program linked into the kernel as [_binary_initcode_start]. *)
Definition userinit (initcode : list Z) : K unit :=
  o <- allocproc ;;
  modify (fun s => s <| k_ptable ::= fun t => t <| initproc := o |> |>) ;;
  match o with
  | None => fault "userinit: null process"
  | Some p =>
      d <- setupkvm ;;
      set_proc p (fun q => q <| p_pgdir := d |>) ;;
      if d =? 0 then panic "user init: out of memory?" else
      inituvm d initcode ;;
      set_proc p (fun q => q <| p_sz := PGSIZE |>) ;;
      set_proc p (fun q => q <| p_tfregs := zero_trapframe <| tf_cs := user_cs |> <| tf_ds := user_ds |> <| tf_es := user_ds |>
        <| tf_ss := user_ds |> <| tf_eflags := FL_IF |> <| tf_esp := PGSIZE |> <| tf_eip := 0 |> |>) ;;
      set_proc p (fun q => q <| p_name ::= fun n => copy_name n (str "initcode" ++ [0]) |>) ;;
      c <- namei (str "/") ;;
      set_proc p (fun q => q <| p_cwd := c |>) ;;
      acquire LPtable ;;
      set_proc p (fun q => q <| p_state := RUNNABLE |>) ;;
      release LPtable
  end.

(** ** growproc *)

Definition growproc (n : Z) : K Z :=
  me <- myproc ;;
  p <- get_proc me ;;
  let sz := p_sz p in
  sz' <- (if 0 <? n then
            r <- allocuvm (p_pgdir p) sz (u32 (sz + n)) ;; ret (if r =? 0 then None else Some r)
          else if n <? 0 then
            r <- deallocuvm (p_pgdir p) sz (u32 (sz + n)) ;; ret (if r =? 0 then None else Some r)
          else ret (Some sz)) ;;
  match sz' with
  | None => ret (-1)
  | Some sz' =>
      set_proc me (fun p => p <| p_sz := sz' |>) ;;
      switchuvm me ;;
      ret 0
  end.

(** ** fork *)

(** [if(proc->ofile[i]) np->ofile[i] = filedup(proc->ofile[i]);] *)
Definition dup_file (me np i : nat) : K unit :=
  p <- get_proc me ;;
  o <- nth_ok "ofile" (p_ofile p) i ;;
  match o with
  | None => ret tt
  | Some f => f' <- filedup f ;; set_proc np (fun q => q <| p_ofile ::= <[i := Some f']> |>)
  end.

(** The second half of [fork], once the child has its memory. *)
Definition fork_rest (me np : nat) : K Z :=
  p <- get_proc me ;;
  set_proc np (fun q => q <| p_sz := p_sz p |>) ;;
  set_proc np (fun q => q <| p_parent := Some me |>) ;;
  set_proc np (fun q => q <| p_tfregs := p_tfregs p |>) ;;
  set_proc np (fun q => q <| p_tfregs ::= fun tf => tf <| tf_eax := 0 |> |>) ;;
  for_each (seq 0 NOFILE) (dup_file me np) ;;
  p <- get_proc me ;;
  match p_cwd p with
  | None => fault "idup: null inode"
  | Some c =>
      c' <- idup c ;;
      set_proc np (fun q => q <| p_cwd := Some c' |>) ;;
      p <- get_proc me ;;
      set_proc np (fun q => q <| p_name ::= fun n => copy_name n (p_name p) |>) ;;
      q <- get_proc np ;;
      let pid := p_pid q in
      acquire LPtable ;;
      set_proc np (fun q => q <| p_state := RUNNABLE |>) ;;
      release LPtable ;;
      ret pid
  end.

Definition fork : K Z :=
  o <- allocproc ;;
  match o with
  | None => ret (-1)
  | Some np =>
      me <- myproc ;;
      p <- get_proc me ;;
      d <- copyuvm (p_pgdir p) (p_sz p) ;;
      set_proc np (fun q => q <| p_pgdir := d |>) ;;
      if d =? 0 then
        q <- get_proc np ;;
        kfree (p_kstack q) ;;
        set_proc np (fun q => q <| p_kstack := 0 |>) ;;
        set_proc np (fun q => q <| p_state := UNUSED |>) ;;
        ret (-1)
      else fork_rest me np
  end.

(** ** exit *)

Definition close_fd (me fd : nat) : K unit :=
  p <- get_proc me ;;
  o <- nth_ok "ofile" (p_ofile p) fd ;;
  match o with
  | None => ret tt
  | Some f => fileclose f ;; set_proc me (fun p => p <| p_ofile ::= <[fd := None]> |>)
  end.

(** The entries of the parent's tables for a dead child; the tables have [NCHILD]
    places, a child beyond them is written outside. *)
Definition record_child (p : proc) (ticks : Z) (parent : proc) : proc :=
  let k := Z.to_nat (p_allChildSize parent) in
  parent <| p_childRTime ::= <[k := s32 (p_rtime p)]> |> <| p_childCTime ::= <[k := s32 (p_ctime p)]> |>
         <| p_childETime ::= <[k := s32 ticks]> |> <| p_childPiority ::= <[k := p_piority p]> |>
         <| p_allChildSize ::= fun n => n + 1 |>.

(** [wakeup1(initproc)]; no process sleeps on a null channel. *)
Definition wakeup_init : K unit :=
  i <- gets (fun s => initproc (k_ptable s)) ;;
  match i with Some i => wakeup1 (ChProc i) | None => ret tt end.

(** Pass a child to [init]. *)
Definition reparent (me i : nat) : K unit :=
  p <- get_proc i ;;
  when (bool_decide (p_parent p = Some me))
    (ini <- gets (fun s => initproc (k_ptable s)) ;;
     set_proc i (fun p => p <| p_parent := ini |>) ;;
     when (st_eqb (p_state p) ZOMBIE) wakeup_init).

Definition exit : K unit :=
  me <- myproc ;;
  t <- gets k_ptable ;;
  if bool_decide (initproc t = Some me) then panic "init exiting" else
  for_each (seq 0 NOFILE) (close_fd me) ;;
  begin_op ;;
  p <- get_proc me ;;
  (match p_cwd p with None => fault "iput: null inode" | Some c => iput c end) ;;
  end_op ;;
  set_proc me (fun p => p <| p_cwd := None |>) ;;
  acquire LPtable ;;
  p <- get_proc me ;;
  match p_parent p with
  | None => fault "proc->parent"
  | Some pa =>
      q <- get_proc pa ;;
      if (p_allChildSize q <? 0) || (Z.of_nat NCHILD <=? p_allChildSize q) then fault "child tables" else
      now <- gets k_ticks ;;
      set_proc pa (record_child p now) ;;
      wakeup1 (ChProc pa) ;;
      for_each all_procs (reparent me) ;;
      set_proc me (fun p => p <| p_state := ZOMBIE |>) ;;
      now <- gets k_ticks ;;
      set_proc me (fun p => p <| p_etime := now |>) ;;
      sched ;;
      panic "zombie exit"
  end.

(** ** wait *)

(** Free a dead child; its pid. *)
Definition reap (i : nat) : K Z :=
  p <- get_proc i ;;
  let pid := p_pid p in
  kfree (p_kstack p) ;;
  set_proc i (fun p => p <| p_kstack := 0 |>) ;;
  freevm (p_pgdir p) ;;
  set_proc i (fun p => p <| p_pid := 0 |> <| p_parent := None |> <| p_name ::= <[0%nat := 0]> |> <| p_killed := 0 |>
                         <| p_state := UNUSED |>) ;;
  release LPtable ;;
  ret pid.

(** The scan of the table: the pid of a dead child, or whether there are children. *)
Fixpoint wait_scan (me : nat) (ids : list nat) (havekids : bool) : K (Z + bool) :=
  match ids with
  | [] => ret (inr havekids)
  | i :: ids' =>
      p <- get_proc i ;;
      if negb (bool_decide (p_parent p = Some me)) then wait_scan me ids' havekids else
      if st_eqb (p_state p) ZOMBIE then pid <- reap i ;; ret (inl pid)
      else wait_scan me ids' true
  end.

Definition wait_loop (me : nat) : K Z :=
  r <- wait_scan me all_procs false ;;
  match r with
  | inl pid => ret pid
  | inr havekids =>
      p <- get_proc me ;;
      if negb havekids || nz (p_killed p) then release LPtable ;; ret (-1) else
      sleep (ChProc me) LPtable ;;
      switch
  end.

Definition wait : K Z := acquire LPtable ;; me <- myproc ;; wait_loop me.

Definition wait_resume (saved : bool) : K Z := sleep_resume saved LPtable ;; me <- myproc ;; wait_loop me.

(** ** forkret *)

Definition forkret : K unit :=
  release LPtable ;;
  t <- gets k_ptable ;;
  when (forkret_first t)
    (modify (fun s => s <| k_ptable ::= fun t => t <| forkret_first := false |> |>) ;;
     iinit ROOTDEV ;;
     initlog ROOTDEV).
End Driver.
