(* ===== verification/ProcSpec.v ===== *)
(** * Creating and reaping processes

    What [fork] and [wait] do to the process table, to the open files, to the inode of
    the current directory and to memory. *)

From S2P Require Import Prelude Params State Mem Strings Locks Printf Kalloc Vm Sched Policy Procs Uaccess Sleeplock VmSpec VmUser Bio Log Pipe Fs File FileSpec ProcLife.
Import Spin.

(** ** A new entry of the process table *)

(** The parts of the state that have nothing to do with processes and memory. *)
Definition pframe (s s' : kst) : Prop :=
  exists m km o t, s' = s <| k_mem := m |> <| k_kmem := km |> <| k_out := o |> <| k_ptable := t |>.

Lemma pframe_refl s : pframe s s.
Proof. exists (k_mem s), (k_kmem s), (k_out s), (k_ptable s). by destruct s. Qed.

Lemma pframe_trans s s1 s2 : pframe s s1 -> pframe s1 s2 -> pframe s s2.
Proof. intros (m & km & o & t & ->) (m2 & km2 & o2 & t2 & ->). exists m2, km2, o2, t2. by destruct s. Qed.

Lemma pframe_vm s s' : vm_frame s s' -> pframe s s' /\ k_ptable s' = k_ptable s.
Proof. intros (m & km & o & ->). split; [|done]. exists m, km, o, (k_ptable s). by destruct s. Qed.

Lemma pframe_proc i f s : pframe s (with_proc i f s).
Proof. exists (k_mem s), (k_kmem s), (k_out s), (k_ptable (with_proc i f s)). by destruct s. Qed.

Lemma pframe_calm s s' : pframe s s' -> calm s -> calm s'.
Proof. by intros (m & km & o & t & ->). Qed.

(** The lock of the process table given back. *)
Lemma pframe_release s s' :
  pframe (lock_st LPtable s) s' -> pframe s (s' <| k_locks := k_locks s |> <| k_cpu := k_cpu s |>).
Proof. intros (m & km & o & t & ->). exists m, km, o, t. by destruct s. Qed.

Lemma vm_with_proc s l h i f : vm s l h -> vm (with_proc i f s) l h.
Proof. done. Qed.

Section New.
Context (s : kst) (l h : list Z) (i : nat) (q0 : proc).
Hypothesis Hcalm : calm s.
Hypothesis Hfind : find_from (fun p => st_eqb (p_state p) UNUSED) 0 (pts s) = Some i.
Hypothesis Hq0 : pts s !! i = Some q0.
Hypothesis Hun : p_state q0 = UNUSED.

Lemma alloc_st_calm : pframe s (alloc_st i s) /\ calm (alloc_st i s).
Proof.
  destruct Hcalm as (HL & Hwf & Hs). split.
  - exists (k_mem s), (k_kmem s), (k_out s), (k_ptable (alloc_st i s)). unfold alloc_st. destruct s. kred. simpl in Hs. by rewrite Hs.
  - split; [done|]. unfold alloc_st. simpl. rewrite !Hs. done.
Qed.

(** What [allocproc] leaves when it finds the stack page [k]. *)
Definition allocated (k : Z) (s' : kst) : Prop :=
  pframe s s' /\ untouched (k_link s) [k] (k_mem s) (k_mem s') /\ vm s' l (k :: h) /\
  pts s' = <[i := kstack_proc (k_link s) k (embryo s q0)]> (placed s (pts s)) /\ nextpid (k_ptable s') = s32 (nextpid (k_ptable s) + 1) /\
  load32 (k_mem s') (V2P (k + KSTACKSIZE - sizeof_trapframe - 4)) = u32 (trapret_ (k_link s)).

(** [allocproc] with a free entry and memory at hand: the entry, and its stack. *)
Lemma wp_allocproc k :
  vm s (k :: l) h ->
  wp allocproc (fun o s' => o = Some i /\ allocated k s') s.
Proof.
  intros Hv. destruct alloc_st_calm as [F1 C1]. assert (unlocked LPtable s) as Hu by by apply calm_unlocked.
  unfold wp. rewrite (allocproc_found i q0) by done.
  match goal with |- match ?m ?s0 with _ => _ end => change (wp m (fun o s' => o = Some i /\ allocated k s') s0) end.
  assert (vm (alloc_st i s) (k :: l) h) as Hv1.
  { destruct Hv as (_ & Hk & Hn & Hp). split; [by apply calm_steady|]. done. }
  wcall (wp_kalloc (alloc_st i s) (k :: l) h Hv1). intros p s1 (V1 & M1 & -> & Hv2).
  assert (page_ok (k_link s) k) as Hk by (eapply vm_page; [exact Hv|apply list_elem_of_here]).
  assert (link_ok (k_link s)) as Hlk by by eapply vm_link.
  assert (k_link s1 = k_link s) as El by (etrans; [apply (vm_frame_link (alloc_st i s)), V1|done]).
  eapply wp_bind, wp_ok; [apply set_proc_run|]. rewrite (proj2 (Z.eqb_neq k 0)) by by apply (page_ok_nz (k_link s)).
  eapply wp_bind, wp_ok; [apply init_kstack_run; by rewrite El|].
  destruct (pframe_vm _ _ (proj1 V1)) as [F2 T2]. rewrite El.
  assert (V2P (k + KSTACKSIZE - sizeof_trapframe - 4) = V2P k + 4016) as Ea.
  { unfold KSTACKSIZE, sizeof_trapframe. replace (k + 4096 - 76 - 4) with (k + 4016) by lia. apply (V2P_in (k_link s)); [done|done|unfold PGSIZE; lia]. }
  assert (forall x, x < V2P k \/ V2P k + PGSIZE <= x -> kstack_mem (k_link s) k (k_mem s1) x = k_mem s1 x) as Hm.
  { intros x Hx. unfold kstack_mem. rewrite Ea. apply store32_other. unfold PGSIZE in Hx. lia. }
  destruct (vm_store s1 l (k :: h) k _ Hv2 (list_elem_of_here _ _) Hm) as [Hv3 [_ V3]].
  split; [done|]. split; [|split; [|split; [|split; [|split]]]].
  - eapply pframe_trans; [exact F1|]. eapply pframe_trans; [exact F2|].
    exists (kstack_mem (k_link s) k (k_mem s1)), (k_kmem s1), (k_out s1), (k_ptable (with_proc i (kstack_proc (k_link s) k) s1)). by destruct s1.
  - intros x Hx Hn y Hy. rewrite El in V3. specialize (V3 x Hx Hn y Hy). simpl in V3 |- *. rewrite <- V3. by rewrite M1.
  - exact Hv3.
  - change (pts (with_proc i (kstack_proc (k_link s) k) s1) = <[i := kstack_proc (k_link s) k (embryo s q0)]> (placed s (pts s))).
    rewrite pts_with_proc. unfold pts at 1. rewrite T2. exact (alloc_st_alter _ i q0 s Hq0 Hun).
  - simpl. by rewrite T2.
  - simpl. unfold kstack_mem. by rewrite load32_store32.
Qed.

(** Without memory the entry is free again. *)
Lemma wp_allocproc_empty :
  vm s [] h ->
  wp allocproc (fun o s' => o = None /\ pframe s s' /\ k_mem s' = k_mem s /\ vm s' [] h /\
    pts s' = <[i := (embryo s q0) <| p_kstack := 0 |> <| p_state := UNUSED |>]> (placed s (pts s))) s.
Proof.
  intros Hv. destruct alloc_st_calm as [F1 C1]. assert (unlocked LPtable s) as Hu by by apply calm_unlocked.
  unfold wp. rewrite (allocproc_found i q0) by done.
  match goal with |- match ?m ?s0 with Ok a s' => @?Q a s' | _ => _ end => change (wp m Q s0) end.
  assert (vm (alloc_st i s) [] h) as Hv1.
  { destruct Hv as (_ & Hk & Hn & Hp). split; [by apply calm_steady|]. done. }
  wcall (wp_kalloc (alloc_st i s) [] h Hv1). intros p s1 (V1 & M1 & -> & Hv2).
  destruct (pframe_vm _ _ (proj1 V1)) as [F2 T2].
  eapply wp_bind, wp_ok; [apply set_proc_run|]. change (0 =? 0) with true. cbv iota. eapply wp_bind, wp_ok; [apply set_proc_run|].
  split; [done|]. split; [|split; [|split; [exact Hv2|]]].
  - eapply pframe_trans; [exact F1|]. eapply pframe_trans; [exact F2|]. eapply pframe_trans; apply pframe_proc.
  - simpl. by rewrite M1.
  - rewrite !pts_with_proc, list_alter_alter_eq. unfold pts at 1. rewrite T2. exact (alloc_st_alter _ i q0 s Hq0 Hun).
Qed.
End New.

Lemma allocproc_full s :
  calm s -> find_from (fun p => st_eqb (p_state p) UNUSED) 0 (pts s) = None -> allocproc s = Ok None s.
Proof.
  intros Hc Hf. unfold allocproc. mcall calm_acquire; [|done]. mstep. change (pts (lock_st LPtable s)) with (pts s). rewrite Hf.
  mcall (leave LPtable s); done.
Qed.

(** ** Duplicating the open files *)

(** One more reference to each file of a list of descriptors. *)
Definition dup_refs (os : list (option nat)) (t : list file) : list file :=
  fold_left (fun t o => match o with Some f => alter (fun x => x <| f_ref ::= fun n => n + 1 |>) f t | None => t end) os t.

(** The descriptors of [os] from number [j] on, copied over [l]. *)
Fixpoint copy_fds (os : list (option nat)) (j : nat) (l : list (option nat)) : list (option nat) :=
  match os with
  | [] => l
  | o :: os' => copy_fds os' (S j) (match o with Some f => <[j := Some f]> l | None => l end)
  end.

Lemma copy_fds_fresh os j l1 : length l1 = j -> copy_fds os j (l1 ++ replicate (length os) None) = l1 ++ os.
Proof.
  revert j l1. induction os as [|o os IH]; intros j l1 Hj; simpl; [done|].
  assert (forall x, l1 ++ x :: replicate (length os) None = (l1 ++ [x]) ++ replicate (length os) None) as Ha by (intros; by rewrite <- app_assoc).
  destruct o as [f|].
  - rewrite insert_app_r_alt, Hj, Nat.sub_diag by lia. simpl. rewrite Ha, IH by (rewrite length_app; simpl; lia). by rewrite <- app_assoc.
  - rewrite Ha, IH by (rewrite length_app; simpl; lia). by rewrite <- app_assoc.
Qed.

(** The files of a list of descriptors are open. *)
Definition fds_ok (os : list (option nat)) (t : list file) : Prop :=
  forall f, Some f ∈ os -> exists x, t !! f = Some x /\ 1 <= f_ref x.

Lemma fds_ok_tail o os t : fds_ok (o :: os) t -> fds_ok os t.
Proof. intros H f Hf. apply H. by apply list_elem_of_further. Qed.

Lemma fds_ok_dup os t f : fds_ok os t -> fds_ok os (alter (fun x => x <| f_ref ::= fun n => n + 1 |>) f t).
Proof.
  intros H g Hg. destruct (H g Hg) as (x & Hx & Hr). destruct (decide (f = g)) as [->|Hne].
  - exists (x <| f_ref ::= fun n => n + 1 |>). rewrite list_lookup_alter_eq, Hx. split; [done|]. simpl. lia.
  - exists x. by rewrite list_lookup_alter_ne.
Qed.

(** The state with other open files and another process table. *)
Definition fframe (s s' : kst) : Prop := exists t f, s' = s <| k_ptable := t |> <| k_ftable := f |>.

Section Driver.
Context `{BlockDriver} `{Devices}.

Lemma dup_loop os j me np p s :
  calm s -> me <> np -> pts s !! me = Some p -> drop j (p_ofile p) = os -> fds_ok os (k_ftable s) ->
  exists s', for_each (seq j (length os)) (dup_file me np) s = Ok tt s' /\ fframe s s' /\ k_ftable s' = dup_refs os (k_ftable s) /\
    k_ptable s' = k_ptable (with_proc np (fun q => q <| p_ofile ::= copy_fds os j |>) s).
Proof.
  intros Hc Hne. revert j s Hc. induction os as [|o os IH]; intros j s Hc Hp Hd Hok.
  { exists s. split; [done|]. split; [exists (k_ptable s), (k_ftable s); by destruct s|]. split; [done|].
    rewrite with_proc_id; [done|]. intros q _. by destruct q. }
  cbn [length seq for_each]. unfold dup_file at 1. mstep. mcall get_proc_run; [|exact Hp].
  assert (p_ofile p !! j = Some o) as Hj by (rewrite <- (Nat.add_0_r j), <- lookup_drop, Hd; done).
  assert (drop (S j) (p_ofile p) = os) as Hd'. { rewrite (drop_S _ _ _ Hj) in Hd. congruence. }
  mstep. unfold nth_ok. rewrite Hj. mstep. destruct o as [f|].
  - destruct (Hok f (list_elem_of_here _ _)) as (x & Hx & Hr). mstep. mcall (filedup_run f x); [|done..]. mstep. mcall set_proc_run.
    set (s1 := with_proc np _ _).
    destruct (IH (S j) s1) as (s' & E & (t & ft & F) & E1 & E2).
    + done.
    + unfold s1. rewrite pts_with_proc, list_lookup_alter_ne by done. done.
    + done.
    + apply fds_ok_dup. by eapply fds_ok_tail.
    + exists s'. split; [exact E|]. split; [exists t, ft; by rewrite F; destruct s|]. split; [exact E1|].
      rewrite E2. unfold s1. rewrite with_proc_twice. reflexivity.
  - destruct (IH (S j) s) as (s' & E & F & E1 & E2); [done|done|done|by eapply fds_ok_tail|]. mstep. by exists s'.
Qed.

(** ** fork *)

(** A process that may call [fork]: its memory is the space [A] with the pages [fs], its
    descriptors are open files, and it has a current directory. *)
Record forkable (s : kst) (l : list Z) (A : aspace) (fs : list (Z * Z)) (h : list Z) (me : nat) (p : proc) : Prop := {
  fk_calm : calm s;
  fk_me : k_proc s = Some me;
  fk_proc : pts s !! me = Some p;
  fk_state : p_state p = RUNNING;
  fk_space : uspace s l A fs h;
  fk_dir : p_pgdir p = as_dir A;
  fk_size : length fs = pages_of (p_sz p) /\ 0 <= p_sz p < KERNBASE;
  fk_image : image_ok (k_link s);
  fk_files : length (p_ofile p) = NOFILE /\ fds_ok (p_ofile p) (k_ftable s);
  fk_cwd : exists c, p_cwd p = Some c
}.

(** The child: the entry [q0] taken for it, on the kernel stack [k] with the directory [d]. *)
Definition child (s : kst) (me : nat) (p q0 : proc) (k d : Z) : proc :=
  (kstack_proc (k_link s) k (embryo s q0)) <| p_pgdir := d |> <| p_sz := p_sz p |> <| p_parent := Some me |>
    <| p_tfregs := (p_tfregs p) <| tf_eax := 0 |> |> <| p_ofile ::= copy_fds (p_ofile p) 0 |>
    <| p_cwd := p_cwd p |> <| p_name ::= fun n => copy_name n (p_name p) |> <| p_state := RUNNABLE |>.

(** The memory and the parts of the state a later step does not change. *)
Definition same_mem (s s' : kst) : Prop := k_mem s' = k_mem s /\ k_kmem s' = k_kmem s /\ k_link s' = k_link s /\ k_locks s' = k_locks s /\ k_cpu s' = k_cpu s.

Lemma uspace_same s s' l A fs h : same_mem s s' -> uspace s l A fs h -> uspace s' l A fs h.
Proof.
  intros (E1 & E2 & E3 & E4 & E5) [[(Hs & Hk & Hn & Hp) Hsp] Hu]. split; [split|done]; [|by rewrite E1].
  unfold vm, steady, kmem_inv in *. by rewrite E1, E2, E3, E4, E5.
Qed.

Lemma idup_run c s : calm s -> idup c s = Ok c (with_inode c (fun ip => ip <| i_ref ::= fun n => n + 1 |>) s).
Proof.
  intros Hc. unfold idup. mcall calm_acquire; [|done]. unfold set_inode. mstep.
  change (with_inode c ?g (lock_st LIcache s)) with (lock_st LIcache (with_inode c g s)). mcall (leave LIcache s); done.
Qed.

(** What a [fork] that succeeds leaves. *)
Definition forked (s : kst) (me : nat) (p : proc) (i : nat) (q0 : proc) (k d : Z) (c : nat) (s' : kst) : Prop :=
  pts s' = <[i := child s me p q0 k d]> (placed s (pts s)) /\
  k_ftable s' = dup_refs (p_ofile p) (k_ftable s) /\
  k_icache s' = alter (fun ip => ip <| i_ref ::= fun n => n + 1 |>) c (k_icache s).

(** The second half of [fork]. *)
Lemma fork_rest_run me np p q c s :
  calm s -> me <> np -> pts s !! me = Some p -> pts s !! np = Some q -> length (p_ofile p) = NOFILE ->
  fds_ok (p_ofile p) (k_ftable s) -> p_cwd p = Some c ->
  exists s', fork_rest me np s = Ok (p_pid q) s' /\ same_mem s s' /\ k_proc s' = k_proc s /\
    pts s' = <[np := q <| p_sz := p_sz p |> <| p_parent := Some me |> <| p_tfregs := (p_tfregs p) <| tf_eax := 0 |> |>
      <| p_ofile ::= copy_fds (p_ofile p) 0 |> <| p_cwd := Some c |> <| p_name ::= fun n => copy_name n (p_name p) |> <| p_state := RUNNABLE |>]> (pts s) /\
    k_ftable s' = dup_refs (p_ofile p) (k_ftable s) /\ k_icache s' = alter (fun ip => ip <| i_ref ::= fun n => n + 1 |>) c (k_icache s).
Proof.
  intros Hc Hne Hp Hq Hlen Hok Hcwd. unfold fork_rest. mcall get_proc_run; [|exact Hp]. do 4 mcall set_proc_run. rewrite !with_proc_twice.
  set (s1 := with_proc np _ s).
  assert (forall f, pts (with_proc np f s) !! me = Some p) as Hp1 by (intros; rewrite pts_with_proc, list_lookup_alter_ne by done; done).
  destruct (dup_loop (p_ofile p) 0 me np p s1) as (s2 & E2 & (t2 & f2 & F2) & E3 & E4); [done|done|apply Hp1|apply drop_0|done|].
  rewrite Hlen in E2. rewrite (bind_ok _ _ _ _ _ E2).
  assert (pts s2 = alter (fun q => q <| p_ofile ::= copy_fds (p_ofile p) 0 |>) np (pts s1)) as P2 by (unfold pts; by rewrite E4).
  assert (calm s2) as Hc2 by by rewrite F2.
  mcall get_proc_run; [|rewrite P2, list_lookup_alter_ne by done; apply Hp1]. rewrite Hcwd. mcall idup_run; [|done]. mcall set_proc_run.
  set (s3 := with_proc np _ _). assert (pts s3 = alter (fun q => q <| p_cwd := Some c |>) np (pts s2)) as P3 by done.
  mcall get_proc_run; [|rewrite P3, P2, !list_lookup_alter_ne by done; apply Hp1]. mcall set_proc_run.
  set (s4 := with_proc np _ s3). assert (pts s4 = alter (fun q => q <| p_name ::= fun n => copy_name n (p_name p) |>) np (pts s3)) as P4 by done.
  assert (calm s4) as Hc4 by done.
  mcall get_proc_run; [|rewrite P4, P3, P2; unfold s1; rewrite pts_with_proc, !list_lookup_alter_eq, Hq; reflexivity].
  cbv zeta. mcall calm_acquire; [|done]. mcall set_proc_run. rewrite <- lock_st_with_proc. mcall (leave LPtable s4); [|done..].
  eexists. split; [reflexivity|]. split; [split_and!; simpl; by rewrite F2|]. split; [simpl; by rewrite F2|]. split; [|split].
  - rewrite pts_with_proc, P4, P3, P2. unfold s1. rewrite pts_with_proc, !list_alter_alter_eq. rewrite (alter_as_insert _ _ _ _ Hq). done.
  - simpl. by rewrite E3.
  - simpl. by rewrite F2.
Qed.
Lemma uspace_perm s l A fs h h' : uspace s l A fs h -> h ≡ₚ h' -> uspace s l A fs h'.
Proof. intros [Hh Hu] Hp. split; [|done]. eapply holds_perm; [exact Hh|]. by rewrite Hp. Qed.

Lemma free_beside s l A fs h k :
  uspace s l A fs (k :: h) -> wp (kfree k) (fun _ s' => vstep [k] s s' /\ uspace s' (k :: l) A fs h) s.
Proof.
  intros [Hh Hu]. eapply wp_mono; [apply (free_page s l A (frames fs ++ h) k)|].
  - eapply holds_perm; [exact Hh|]. by rewrite <- Permutation_middle.
  - intros _ s' [V Hh']. done.
Qed.

Lemma kept_beside s l A fs h k s' : uspace s l A fs (k :: h) -> vstep [k] s s' -> kept s s' (frames fs ++ h).
Proof.
  intros [[Hv _] _] [_ V]. apply list.Forall_forall. intros x Hx. apply V.
  - eapply vm_page; [exact Hv|]. rewrite !elem_of_app, ?elem_of_cons in *. tauto.
  - intros ->%list_elem_of_singleton. destruct Hv as (_ & _ & Hn & _). apply list.NoDup_app in Hn as (_ & _ & Hn).
    apply list.NoDup_app in Hn as (_ & _ & Hn). rewrite <- Permutation_middle in Hn. by apply list.NoDup_cons in Hn as [Hn _].
Qed.

(** A page taken for something else leaves a space as it was. *)
Lemma uspace_taken s l A fs h k s' :
  uspace s (k :: l) A fs h -> untouched (k_link s) [k] (k_mem s) (k_mem s') -> vm s' l (k :: tables A ++ frames fs ++ h) ->
  uspace s' l A fs (k :: h) /\ Forall (fun p => agree (k_mem s) (k_mem s') (V2P p) PGSIZE) (frames fs ++ h).
Proof.
  intros [[Hv Hs] Hu] Hun Hv'. assert (k ∉ tables A ++ frames fs ++ h) as Hk.
  { destruct Hv as (_ & _ & Hn & _). rewrite <- app_comm_cons in Hn. apply list.NoDup_cons in Hn as [Hn _]. intros Hin. apply Hn, elem_of_app. by right. }
  split.
  - split; [split; [|]|done].
    + eapply vm_perm; [exact Hv'|]. rewrite !app_assoc. apply Permutation_middle.
    + eapply space_untouched; [by eapply vm_tables|exact Hun| |done]. intros x Hx ->%list_elem_of_singleton. apply Hk, elem_of_app. by left.
  - apply list.Forall_forall. intros x Hx. apply Hun.
    + eapply vm_page; [exact Hv|]. rewrite !elem_of_app in *. tauto.
    + intros ->%list_elem_of_singleton. apply Hk, elem_of_app. by right.
Qed.

Lemma kept_trans s s1 s2 h : kept s s1 h -> kept s1 s2 h -> kept s s2 h.
Proof.
  intros H1 H2. apply list.Forall_forall. intros p Hp x Hx.
  rewrite (proj1 (list.Forall_forall _ _) H1 p Hp x Hx). by apply (proj1 (list.Forall_forall _ _) H2 p Hp).
Qed.

(** The live processes of a table are as they were, and no other is live. *)
Definition same_live (ps ps' : list proc) : Prop :=
  length ps' = length ps /\
  forall j q, ps !! j = Some q -> if decide (p_state q = UNUSED) then exists q', ps' !! j = Some q' /\ p_state q' = UNUSED else ps' !! j = Some q.

Lemma same_live_insert ps i q0 q1 :
  ps !! i = Some q0 -> p_state q0 = UNUSED -> p_state q1 = UNUSED -> same_live ps (<[i := q1]> ps).
Proof.
  intros Hi Hs0 Hs1. split; [apply length_insert|]. intros j q Hj. destruct (decide (i = j)) as [<-|Hne].
  - assert (q = q0) as -> by congruence. rewrite decide_True by done. exists q1. split; [|done]. apply list_lookup_insert_eq. by eapply lookup_lt_Some.
  - rewrite list_lookup_insert_ne by done. destruct (decide _); [by exists q|done].
Qed.

(** The outcomes of [fork]. Without a free entry the table is unchanged; without memory the
    live processes are as the policy places them. *)
Definition free_entry (s : kst) : option nat := find_from (fun p => st_eqb (p_state p) UNUSED) 0 (pts s).

Definition fork_fails (s : kst) (l : list Z) (fs : list (Z * Z)) (r : Z) (s' : kst) : Prop :=
  r = -1 /\ k_ftable s' = k_ftable s /\ k_icache s' = k_icache s /\
  match free_entry s with
  | None => pts s' = pts s
  | Some _ => (length l < 1028 + length fs)%nat /\ same_live (placed s (pts s)) (pts s')
  end.

Definition fork_works (s : kst) (l : list Z) (A : aspace) (fs : list (Z * Z)) (h : list Z) (me : nat) (p : proc) (r : Z) (s' : kst) : Prop :=
  exists i q0 k D gs l' c, r = nextpid (k_ptable s) /\ free_entry s = Some i /\ pts s !! i = Some q0 /\ p_state q0 = UNUSED /\ p_cwd p = Some c /\
    forked s me p i q0 k (as_dir D) c s' /\ uspace s' l' D gs (tables A ++ frames fs ++ k :: h) /\ l ≡ₚ k :: l' ++ tables D ++ frames gs /\
    forall va, 0 <= va < KERNBASE -> view (k_mem s') (as_dir D) va = view (k_mem s) (as_dir A) va.

Lemma wp_fork s l A fs h me p :
  forkable s l A fs h me p ->
  wp fork (fun r s' => kept s s' (frames fs ++ h) /\
    (forall va, 0 <= va < KERNBASE -> view (k_mem s') (as_dir A) va = view (k_mem s) (as_dir A) va) /\
    (fork_fails s l fs r s' \/ fork_works s l A fs h me p r s')) s.
Proof.
  intros [Hc Hme Hp Hst Hu Hdir [Hlen Hsz] Himg [Hfl Hfok] [c Hcwd]]. unfold fork, fork_fails, fork_works.
  destruct (free_entry s) as [i|] eqn:Hfind.
  2:{ eapply wp_bind, wp_ok; [by apply allocproc_full|]. split; [by apply list.Forall_forall; intros x _ y _|]. split; [done|]. by left. }
  pose proof Hfind as (q0 & Hq0 & Hun & _)%find_from_Some. apply Policy.st_eqb_true in Hun.
  assert (me <> i) as Hne by (intros ->; congruence).
  assert (placed s (pts s) !! i = Some q0) as Hq0' by (apply placed_stays; [done|by rewrite Hun]).
  assert (placed s (pts s) !! me = Some p) as Hp' by (apply placed_stays; [done|by rewrite Hst]).
  destruct l as [|k l].
  { wcall (wp_allocproc_empty s _ i q0 Hc Hfind Hq0 Hun (proj1 (proj1 Hu))). intros o s1 (-> & (m & km & o' & t & F) & M & Hv1 & P1).
    split; [by apply list.Forall_forall; intros x _ y _; rewrite M|]. split; [intros va _; by rewrite M|]. left.
    split; [done|]. split; [by rewrite F|]. split; [by rewrite F|]. split; [simpl; lia|]. rewrite P1. by apply (same_live_insert _ i q0). }
  wcall (wp_allocproc s l _ i q0 Hc Hfind Hq0 Hun k (proj1 (proj1 Hu))). intros o s1 (-> & F1 & U1 & Hv1 & P1 & N1 & _).
  destruct (uspace_taken s l A fs h k s1 Hu U1 Hv1) as [Hu1 Hk1].
  assert (pts s1 !! me = Some p) as Hp1 by (rewrite P1, list_lookup_insert_ne by done; done).
  assert (pts s1 !! i = Some (kstack_proc (k_link s) k (embryo s q0))) as Hq1 by (rewrite P1; apply list_lookup_insert_eq; by eapply lookup_lt_Some).
  destruct F1 as (m1 & km1 & o1 & t1 & F1).
  eapply wp_bind, wp_ok; [apply (myproc_run me); by rewrite F1|]. eapply wp_bind, wp_ok; [by apply get_proc_run|]. rewrite Hdir.
  wcall (wp_copyuvm s1 l A fs (k :: h) (p_sz p) Hu1 Hlen Hsz); [by rewrite F1|]. intros d s2 [V2 Hd].
  destruct (pframe_vm _ _ (proj1 V2)) as [(m2 & km2 & o2 & t2 & F2) T2].
  pose proof (frames_kept s1 l A fs (k :: h) l s2 Hu1 V2 ltac:(intros x; rewrite elem_of_app; tauto)) as Hk2.
  assert (kept s s2 (frames fs ++ h)) as Hk.
  { eapply kept_trans; [exact Hk1|]. unfold kept in *. rewrite Forall_app in *. destruct Hk2 as [? Hk2]. by apply Forall_cons_1 in Hk2 as [_ ?]. }
  assert (pts s2 = pts s1) as P2 by (unfold pts; by rewrite T2). assert (calm s2) as Hc2 by by rewrite F2, F1.
  eapply wp_bind, wp_ok; [apply set_proc_run|].
  destruct Hd as [(Hdz & D & gs & l' & <- & Hcp & Hgs & Hl & _)|(-> & Hfew & l' & lost & Hu2 & _)].
  - rewrite (proj2 (Z.eqb_neq _ 0) Hdz). set (s3 := with_proc i _ s2).
    pose proof (copying_parent _ _ _ _ _ _ _ Hcp) as HuA.
    destruct (fork_rest_run me i p ((kstack_proc (k_link s) k (embryo s q0)) <| p_pgdir := as_dir D |>) c s3) as (s4 & E4 & S4 & _ & P4 & FT & IC); try done.
    { unfold s3. rewrite pts_with_proc, list_lookup_alter_ne, P2 by done. done. }
    { unfold s3. rewrite pts_with_proc, list_lookup_alter_eq, P2, Hq1. done. }
    { unfold s3. simpl. by rewrite F2, F1. }
    apply (wp_ok _ _ _ _ _ E4). assert (k_mem s4 = k_mem s2) as M4 by apply S4.
    assert (forall va, 0 <= va < KERNBASE -> view (k_mem s2) (as_dir A) va = view (k_mem s) (as_dir A) va) as Hview.
    { intros va Hva. apply (view_kept s (k :: l) A fs h s2 l' A (tables D ++ frames gs ++ k :: h)); try done. by apply Forall_app in Hk as [? _]. }
    split; [unfold kept in *; by rewrite M4|]. split; [intros va Hva; rewrite M4; by apply Hview|]. right.
    exists i, q0, k, D, gs, l', c. split; [simpl; unfold embryo; by destruct (_ =? Q3)|]. split; [done|]. split; [done|]. split; [done|]. split; [done|]. split; [|split; [|split]].
    + split; [|split].
      * rewrite P4. unfold s3. rewrite pts_with_proc, P2, (alter_as_insert _ _ _ _ Hq1), P1, !list_insert_insert_eq. unfold child. rewrite Hcwd. reflexivity.
      * rewrite FT. unfold s3. simpl. by rewrite F2, F1.
      * rewrite IC. unfold s3. simpl. by rewrite F2, F1.
    + eapply uspace_same; [exact S4|]. apply Hcp.
    + by rewrite Hl.
    + intros va Hva. rewrite M4, <- Hview by done. by apply (view_copied s2 l' D gs A fs (k :: h)).
  - change (0 =? 0) with true. cbv iota. set (s3 := with_proc i _ s2).
    assert (pts s3 !! i = Some ((kstack_proc (k_link s) k (embryo s q0)) <| p_pgdir := 0 |>)) as Hq3.
    { unfold s3. rewrite pts_with_proc, list_lookup_alter_eq, P2, Hq1. done. }
    eapply wp_bind, wp_ok; [by apply get_proc_run|].
    assert (uspace s3 l' A fs (k :: lost ++ h)) as Hu3 by (eapply uspace_perm; [exact Hu2|]; by rewrite <- Permutation_middle).
    wcall (free_beside s3 l' A fs (lost ++ h) k Hu3). intros _ s4 [V4 Hu4].
    destruct (pframe_vm _ _ (proj1 V4)) as [(m4 & km4 & o4 & t4 & F4) T4].
    eapply wp_bind, wp_ok; [apply set_proc_run|]. eapply wp_bind, wp_ok; [apply set_proc_run|].
    assert (kept s s4 (frames fs ++ h)) as Hk4.
    { eapply kept_trans; [exact Hk|]. pose proof (kept_beside s3 l' A fs (lost ++ h) k s4 Hu3 V4) as Hk4. unfold kept in *. rewrite !Forall_app in *. tauto. }
    split; [exact Hk4|]. split.
    { intros va Hva. apply (view_kept s (k :: l) A fs h s4 (k :: l') A (lost ++ h)); try done. by apply Forall_app in Hk4 as [? _]. }
    left. split; [done|]. split; [simpl; rewrite F4; unfold s3; simpl; by rewrite F2, F1|]. split; [simpl; rewrite F4; unfold s3; simpl; by rewrite F2, F1|].
    split; [simpl; lia|]. rewrite !pts_with_proc. replace (pts s4) with (pts s3) by (unfold pts; by rewrite T4). unfold s3.
    rewrite pts_with_proc, P2, !list_alter_alter_eq, (alter_as_insert _ _ _ _ Hq1), P1, list_insert_insert_eq. by apply (same_live_insert _ i q0).
Qed.

(** ** wait *)

Definition is_child (me : nat) (q : proc) : bool := bool_decide (p_parent q = Some me).
Definition dead_child (me : nat) (q : proc) : bool := is_child me q && st_eqb (p_state q) ZOMBIE.

(** The scan, up to the first dead child. *)
Lemma scan_run me n j b s :
  (j + n = length (pts s))%nat ->
  wait_scan me (seq j n) b s =
  match find_from (dead_child me) j (drop j (pts s)) with
  | Some i => (pid <- reap i ;; ret (inl pid)) s
  | None => Ok (inr (b || existsb (is_child me) (drop j (pts s)))) s
  end.
Proof.
  revert j b. induction n as [|n IH]; intros j b Hn; cbn [seq wait_scan].
  { rewrite drop_ge by lia. simpl. by rewrite orb_false_r. }
  destruct (lookup_lt_is_Some_2 (pts s) j) as [q Hq]; [lia|]. mcall get_proc_run; [|exact Hq].
  rewrite (drop_S _ _ _ Hq). cbn [find_from existsb]. change (bool_decide (p_parent q = Some me)) with (is_child me q).
  assert (dead_child me q = is_child me q && st_eqb (p_state q) ZOMBIE) as -> by done.
  destruct (is_child me q); cbn [negb andb orb].
  - destruct (st_eqb (p_state q) ZOMBIE); [done|]. rewrite IH by lia. destruct (find_from _ _ _); [done|]. by rewrite orb_true_r.
  - by rewrite IH by lia.
Qed.

(** The entry of a process that has been waited for. *)
Definition reaped (q : proc) : proc :=
  q <| p_kstack := 0 |> <| p_pid := 0 |> <| p_parent := None |> <| p_name ::= <[0%nat := 0]> |> <| p_killed := 0 |> <| p_state := UNUSED |>.

Lemma wp_freevm_beside s l A fs h d :
  uspace s l A fs h -> d = as_dir A ->
  wp (freevm d) (fun _ s' => vm_frame s s' /\ kept s s' h /\ exists l', l' ≡ₚ l ++ tables A ++ frames fs /\ vm s' l' h) s.
Proof.
  intros Hu ->. eapply wp_mono; [by apply (wp_freevm s l A fs h)|]. intros _ s' (V & l' & Hp & Hv). split; [apply V|]. split; [|by exists l'].
  destruct Hu as [[Hvm _] _]. apply list.Forall_forall. intros p Hin. apply V.
  - eapply vm_page; [exact Hvm|]. rewrite !elem_of_app. tauto.
  - intros Hx. destruct Hvm as (_ & _ & Hnd & _). apply list.NoDup_app in Hnd as (_ & _ & Hnd). rewrite app_assoc in Hnd.
    apply list.NoDup_app in Hnd as (_ & Hnd & _). apply (Hnd p); [|done]. rewrite elem_of_app in *. tauto.
Qed.

Lemma wp_reap s i q l A fs h :
  calm s -> pts s !! i = Some q -> uspace s l A fs (p_kstack q :: h) -> p_pgdir q = as_dir A ->
  wp (reap i) (fun r s' => r = p_pid q /\ pframe s s' /\ pts s' = <[i := reaped q]> (pts s) /\ kept s s' h /\
    exists l', l' ≡ₚ p_kstack q :: l ++ tables A ++ frames fs /\ vm s' l' h) (lock_st LPtable s).
Proof.
  intros Hc Hq Hu Hd. unfold reap. eapply wp_bind, wp_ok; [by apply (get_proc_run i q)|]. cbv zeta.
  assert (uspace (lock_st LPtable s) l A fs (p_kstack q :: h)) as Hu0.
  { destruct Hu as [[(_ & Hk & Hn & Hp) Hs] Hu]. split; [split; [split; [by apply locked_steady|done]|done]|done]. }
  wcall (free_beside _ l A fs h (p_kstack q) Hu0). intros _ s1 [V1 Hu1].
  eapply wp_bind, wp_ok; [apply set_proc_run|]. set (s2 := with_proc i _ s1).
  wcall (wp_freevm_beside s2 (p_kstack q :: l) A fs h (p_pgdir q) Hu1 Hd). intros _ s3 (F3 & K3 & l' & Hp & Hv3).
  eapply wp_bind, wp_ok; [apply set_proc_run|].
  destruct (proj1 V1) as (m1 & km1 & o1 & E1). destruct F3 as (m3 & km3 & o3 & E3). set (s4 := with_proc i _ s3).
  eapply wp_bind, wp_ok; [apply (calm_release LPtable s s4 Hc); unfold s4; rewrite E3; unfold s2; rewrite E1; done|].
  assert (pts s4 = <[i := reaped q]> (pts s)) as P4.
  { unfold s4. rewrite pts_with_proc, E3. change (pts (s2 <| k_mem := m3 |> <| k_kmem := km3 |> <| k_out := o3 |>)) with (pts s2).
    unfold s2. rewrite pts_with_proc, list_alter_alter_eq, E1.
    change (pts (lock_st LPtable s <| k_mem := m1 |> <| k_kmem := km1 |> <| k_out := o1 |>)) with (pts s). by rewrite (alter_as_insert _ _ _ _ Hq). }
  split; [done|]. split; [|split; [exact P4|split]].
  - apply pframe_release. apply (pframe_trans _ s1); [apply pframe_vm, V1|]. apply (pframe_trans _ s2); [apply pframe_proc|].
    apply (pframe_trans _ s3); [apply pframe_vm; by exists m3, km3, o3|apply pframe_proc].
  - pose proof (kept_beside _ _ _ _ _ _ _ Hu0 V1) as K1. apply Forall_app in K1 as [_ K1]. eapply kept_trans; [exact K1|exact K3].
  - exists l'. split; [done|]. destruct Hv3 as (_ & Hk & Hn & Hok). split; [|done]. apply calm_steady.
    destruct Hc as (HL & Hwf & Hs). split; [exact HL|]. split; [exact Hwf|exact Hs].
Qed.

Lemma wait_loop_run me s :
  length (pts s) = NPROC ->
  wait_loop me (lock_st LPtable s) =
  match find_from (dead_child me) 0 (pts s) with
  | Some i => reap i (lock_st LPtable s)
  | None => (p <- get_proc me ;;
      if negb (existsb (is_child me) (pts s)) || nz (p_killed p) then release LPtable ;; ret (-1) else sleep (ChProc me) LPtable ;; switch) (lock_st LPtable s)
  end.
Proof.
  intros Hlen. unfold wait_loop, all_procs. unfold bind at 1. rewrite (scan_run me NPROC 0 false (lock_st LPtable s)) by done. rewrite drop_0.
  change (pts (lock_st LPtable s)) with (pts s). destruct (find_from (dead_child me) 0 (pts s)); [|done]. unfold bind, ret. by destruct (reap _ _).
Qed.

(** C30. [wait], on every path. If the caller has a dead child, the first one of the table is
    reaped: [wait] returns its pid, its entry is unused, and its kernel stack, its pages,
    its page tables and its directory are free again, all of them and nothing else; no
    other entry, open file or inode changes, and the pages in use elsewhere keep their
    contents. If it has children but none is dead and it has not been killed, it goes to
    sleep, to be woken by the exit of a child; without children, or killed, it returns -1
    with nothing changed. *)
Theorem wait_spec s me p :
  calm s -> k_proc s = Some me -> pts s !! me = Some p -> length (pts s) = NPROC -> ncli (k_cpu s) = 0 ->
  match find_from (dead_child me) 0 (pts s) with
  | Some i => exists q, pts s !! i = Some q /\ dead_child me q = true /\
      forall l A fs h, uspace s l A fs (p_kstack q :: h) -> p_pgdir q = as_dir A ->
      exists s' l', wait s = Ok (p_pid q) s' /\ pframe s s' /\ pts s' = <[i := reaped q]> (pts s) /\ kept s s' h /\
        vm s' l' h /\ l' ≡ₚ p_kstack q :: l ++ tables A ++ frames fs
  | None =>
      if existsb (is_child me) (pts s) && (p_killed p =? 0)
      then wait s = Switch (with_proc me (fun p => p <| p_chan := Some (ChProc me) |> <| p_state := SLEEPING |>) (lock_st LPtable s))
      else wait s = Ok (-1) s
  end.
Proof.
  intros Hc Hme Hp Hlen Hcli.
  assert (wait s = wait_loop me (lock_st LPtable s)) as Ew.
  { unfold wait. mcall calm_acquire; [|done]. mcall myproc_run; done. }
  rewrite (wait_loop_run me s Hlen) in Ew.
  destruct (find_from (dead_child me) 0 (pts s)) as [i|] eqn:Ef.
  - apply find_from_Some in Ef as (q & Hq & Hdc & _). exists q. split; [done|]. split; [done|]. intros l A fs h Hu Hd.
    pose proof (wp_reap s i q l A fs h Hc Hq Hu Hd) as (r & s' & E & -> & F & P & K & l' & Hl & Hv)%wp_run.
    exists s', l'. split; [|done]. by rewrite Ew, E.
  - rewrite Ew. mcall get_proc_run; [|exact Hp]. unfold nz.
    destruct (existsb _ _), (p_killed p =? 0); cbv [andb orb negb].
    + unfold bind at 1. rewrite (sleep_run me p (ChProc me) LPtable (lock_st LPtable s) Hme Hp ltac:(apply lookup_insert_eq) ltac:(done) ltac:(apply push_wf, Hc) ltac:(simpl; lia)).
      done.
    + mcall (leave LPtable s); done.
    + mcall (leave LPtable s); done.
    + mcall (leave LPtable s); done.
Qed.

Lemma child_files s me p q0 k d :
  p_ofile q0 = replicate NOFILE None -> length (p_ofile p) = NOFILE -> p_ofile (child s me p q0 k d) = p_ofile p.
Proof.
  intros Hq Hp. assert (p_ofile (child s me p q0 k d) = copy_fds (p_ofile p) 0 (p_ofile q0)) as ->.
  { unfold child, kstack_proc, embryo. by destruct (_ =? Q3). }
  rewrite Hq, <- Hp. apply (copy_fds_fresh (p_ofile p) 0 []). done.
Qed.

(** C26. [fork], on every path and under every policy. It returns; the parent's memory and
    every other page in use are as before. Under [FRR] the table is sorted on the way, which
    permutes the runnable entries and leaves the others, the caller's among them, in their
    places. Either it returns -1, every open file and every inode being as it was: without
    a free entry of the process table, and then the table is unchanged, or with fewer than
    1028 free pages more than the process has, and then every live process is as the policy
    places it and no other is live. Or it returns the next pid, and then the first unused
    entry is a runnable child of the caller, a copy of it with 0 in the register of the
    result, with its own copy of the caller's memory that reads the same at every user
    address, with the same descriptors, each open file and the current directory having one
    reference more; no other entry changes. *)
Theorem fork_spec s l A fs h me p :
  forkable s l A fs h me p ->
  exists r s', fork s = Ok r s' /\ kept s s' (frames fs ++ h) /\
    (forall va, 0 <= va < KERNBASE -> view (k_mem s') (as_dir A) va = view (k_mem s) (as_dir A) va) /\
    (placed s (pts s) ≡ₚ pts s /\ forall j q, pts s !! j = Some q -> p_state q <> RUNNABLE -> placed s (pts s) !! j = Some q) /\
    (fork_fails s l fs r s' \/
     (fork_works s l A fs h me p r s' /\
      forall q0 k d, p_ofile q0 = replicate NOFILE None -> p_ofile (child s me p q0 k d) = p_ofile p)).
Proof.
  intros Hf. pose proof (wp_fork s l A fs h me p Hf) as (r & s' & E & K & V & [Hno|Hyes])%wp_run; exists r, s'.
  - split; [done|]. split; [done|]. split; [done|]. split; [apply placed_facts|]. by left.
  - split; [done|]. split; [done|]. split; [done|]. split; [apply placed_facts|]. right. split; [done|]. intros q0 k d Hq. apply child_files; [done|]. apply Hf.
Qed.
End Driver.

(** ** Witnesses *)

(** A process without memory in directory 0, with plenty of free pages. *)
Definition roomy_pages : list Z := pages 0x80201000 1028.
Definition forker : proc := running0 <| p_pgdir := dir0 |> <| p_cwd := Some 0%nat |>.
Definition fork_st : kst :=
  (stocked roomy_pages) <| k_proc := Some 0%nat |> <| k_ptable ::= fun t => t <| pt_proc := forker :: replicate 63 zero_proc |> |>.

Lemma roomy_ok h : NoDup h -> Forall (page_ok (k_link bare)) h -> (forall x, x ∈ h -> x < 0x80201000) ->
  NoDup (roomy_pages ++ h) /\ Forall (page_ok (k_link bare)) (roomy_pages ++ h).
Proof.
  intros Hn Hok Hlow. split.
  - apply list.NoDup_app. split; [|split; [|done]].
    + unfold roomy_pages, pages. apply NoDup_fmap_2_strong; [|apply NoDup_seq]. intros x y _ _. unfold PGSIZE. lia.
    + intros x (i & Hi & ->)%elem_of_pages Hx%Hlow. unfold PGSIZE in Hx. lia.
  - apply Forall_app. split; [|done]. apply list.Forall_forall. intros x (i & Hi & ->)%elem_of_pages. split.
    + unfold PGSIZE. rewrite Z.mul_comm, Z_mod_plus_full. done.
    + unfold KERNBASE, PHYSTOP, PGSIZE. simpl. lia.
Qed.

Lemma forkable_at b ps :
  uspace b ps space0 [] [] -> vm_frame bare b ->
  forkable (b <| k_proc := Some 0%nat |> <| k_ptable ::= fun t => t <| pt_proc := forker :: replicate 63 zero_proc |> |>) ps space0 [] [] 0 forker.
Proof.
  intros Hu (m & km & o & ->). constructor.
  - done.
  - done.
  - done.
  - done.
  - exact Hu.
  - done.
  - split; [reflexivity|unfold KERNBASE; simpl; lia].
  - split; [|split]; [unfold link_ok, KERNBASE; simpl; lia|reflexivity|unfold KERNLINK, KERNBASE, EXTMEM, PHYSTOP; simpl; lia].
  - split; [reflexivity|]. intros f Hf. exfalso. revert Hf. change (p_ofile forker) with (replicate 16 (@None nat)). by intros [? _]%elem_of_replicate.
  - by exists 0%nat.
Qed.

Lemma dir0_ok : NoDup (roomy_pages ++ [dir0]) /\ Forall (page_ok (k_link bare)) (roomy_pages ++ [dir0]).
Proof.
  apply roomy_ok.
  - apply NoDup_singleton.
  - apply Forall_cons_2; [split; [reflexivity|unfold KERNBASE, PHYSTOP; simpl; unfold dir0; lia]|apply Forall_nil_2].
  - intros x ->%list_elem_of_singleton. unfold dir0. lia.
Qed.

Lemma fork_st_ok : forkable fork_st roomy_pages space0 [] [] 0 forker.
Proof.
  apply forkable_at.
  - apply stocked_space; apply dir0_ok.
  - exact (proj1 (proj2 (stocked_vm roomy_pages [dir0] (proj1 dir0_ok) (proj2 dir0_ok)))).
Qed.

#[local] Instance no_driver : BlockDriver := { iderw := fun _ => ret tt }.
#[local] Instance no_devs : Devices := { dev_read := fun _ => None; dev_write := fun _ => None }.

Lemma fork_spec_witness :
  forkable fork_st roomy_pages space0 [] [] 0 forker /\
  exists r s', fork fork_st = Ok r s' /\ kept fork_st s' (frames [] ++ []) /\
    (forall va, 0 <= va < KERNBASE -> view (k_mem s') dir0 va = view (k_mem fork_st) dir0 va) /\
    fork_works fork_st roomy_pages space0 [] [] 0 forker r s'.
Proof.
  split; [exact fork_st_ok|]. destruct (fork_spec fork_st roomy_pages space0 [] [] 0 forker fork_st_ok) as (r & s' & E & K & V & _ & [Hf|[Hw _]]); exists r, s'.
  - exfalso. destruct Hf as (_ & _ & _ & Hf & _).
    unfold roomy_pages, pages in Hf. rewrite length_fmap, length_seq in Hf. simpl in Hf. lia.
  - exact (conj E (conj K (conj V Hw))).
Defined.

(** A parent, and its dead child in the next entry, with an empty space and a stack page. *)
Definition stack0 : Z := 0x80204000.
Definition dead0 : proc :=
  zero_proc <| p_state := ZOMBIE |> <| p_pid := 2 |> <| p_parent := Some 0%nat |> <| p_pgdir := dir0 |> <| p_kstack := stack0 |>.
Definition waiting (b : kst) : kst :=
  b <| k_proc := Some 0%nat |> <| k_ptable ::= fun t => t <| pt_proc := running0 :: dead0 :: replicate 62 zero_proc |> |>.
Definition wait_st : kst := waiting small.

Lemma waiting_space b l A fs h : uspace b l A fs h -> uspace (waiting b) l A fs h.
Proof. exact id. Qed.

Lemma waiting_calm b : calm b -> calm (waiting b).
Proof. exact id. Qed.

Lemma waiting_pts b : pts (waiting b) = running0 :: dead0 :: replicate 62 zero_proc.
Proof. reflexivity. Qed.

Lemma wait_space : uspace wait_st free0 space0 [] [stack0].
Proof.
  assert (NoDup (free0 ++ [dir0; stack0]) /\ Forall (page_ok (k_link bare)) (free0 ++ [dir0; stack0])) as [Hn Hok].
  { split; [by apply (bool_decide_unpack _)|].
    repeat (apply Forall_cons_2; [split; [reflexivity|unfold KERNBASE, PHYSTOP; simpl; unfold dir0, stack0; lia]|]). apply Forall_nil_2. }
  apply waiting_space. exact (stocked_space free0 [stack0] Hn Hok).
Qed.

Lemma wait_calm : calm wait_st.
Proof. apply waiting_calm. split; [reflexivity|split; [split; simpl; lia|reflexivity]]. Qed.

Lemma wait_spec_witness :
  calm wait_st /\ uspace wait_st free0 space0 [] [stack0] /\
  exists s' l', wait wait_st = Ok 2 s' /\ pframe wait_st s' /\ pts s' = <[1%nat := reaped dead0]> (pts wait_st) /\ kept wait_st s' [] /\
    vm s' l' [] /\ l' ≡ₚ stack0 :: free0 ++ tables space0 ++ [].
Proof.
  split; [exact wait_calm|]. split; [exact wait_space|].
  assert (ncli (k_cpu wait_st) = 0) as Hn by reflexivity.
  pose proof (wait_spec wait_st 0 running0 wait_calm) as Hw. unfold wait_st in Hw |- *. rewrite !waiting_pts in Hw.
  destruct (Hw eq_refl eq_refl eq_refl Hn) as (q & Hq & _ & Hrun). injection Hq as <-.
  rewrite waiting_pts. exact (Hrun free0 space0 [] [] wait_space eq_refl).
Defined.
