(* ===== verification/Exec.v ===== *)
(** * Running a program ([exec.c], and [loaduvm] of [vm.c]) *)

From S2P Require Import Prelude Params State Mem Strings Locks Printf Kalloc Vm Sched Policy Procs Uaccess Sleeplock Bio Log Pipe Fs File ProcLife.
Import Spin.

(** [elf.h] *)
Definition ELF_MAGIC : Z := 0x464C457F.
Definition ELF_PROG_LOAD : Z := 1.
Definition sizeof_elfhdr : Z := 52.
Definition sizeof_proghdr : Z := 32.

(** The fields of the headers that [exec] uses, at their offsets. *)
Record elfhdr := mkElfhdr { e_magic : Z; e_entry : Z; e_phoff : Z; e_phnum : Z }.
Record proghdr := mkProghdr { ph_type : Z; ph_off : Z; ph_vaddr : Z; ph_filesz : Z; ph_memsz : Z }.

Definition elfhdr_of (d : list Z) : elfhdr := mkElfhdr (get32 d 0) (get32 d 24) (get32 d 28) (get16 d 44).
Definition proghdr_of (d : list Z) : proghdr :=
  mkProghdr (get32 d 0) (get32 d 4) (get32 d 8) (get32 d 16) (get32 d 20).

(** The program's name: what follows the last slash of the path. *)
Fixpoint last_elem (last path : list Z) : list Z :=
  match path with
  | [] => last
  | c :: path' => last_elem (if c =? 47 then path' else last) path'
  end.

(** Words as bytes. *)
Definition words (l : list Z) : list Z := l ≫= le32.

Section Driver.
Context `{BlockDriver} `{Devices}.

(** [for(i = 0; i < sz; i += PGSIZE)] of [loaduvm]. *)
Fixpoint loaduvm_loop (fuel : nat) (pgdir addr : Z) (ip : nat) (offset i sz : Z) : K Z :=
  match fuel with
  | O => fault "loaduvm: loop bound"
  | S fuel' =>
      if sz <=? i then ret 0 else
      pte <- walkpgdir pgdir (u32 (addr + i)) false ;;
      if pte =? 0 then panic "loaduvm: address should exist" else
      e <- ld32 pte ;;
      let pa := PTE_ADDR e in
      let n := if sz - i <? PGSIZE then sz - i else PGSIZE in
      r <- readi ip (u32 (offset + i)) n ;;
      match r with
      | None => ret (-1)
      | Some l =>
          modify (fun s => s <| k_mem ::= fun m => put_bytes m (V2P (P2V pa)) l |>) ;;
          if negb (Z.of_nat (length l) =? n) then ret (-1)
          else loaduvm_loop fuel' pgdir addr ip offset (i + PGSIZE) sz
      end
  end.

Definition loaduvm (pgdir addr : Z) (ip : nat) (offset sz : Z) : K Z :=
  if negb (addr mod PGSIZE =? 0) then panic "loaduvm: addr must be page aligned" else
  loaduvm_loop (S (Z.to_nat ((sz + PGSIZE - 1) / PGSIZE))) pgdir addr ip offset 0 sz.

(** The program headers, [n] of them from [off] on: the size of the image, [None] for
    [goto bad]. *)
Fixpoint load_segments (n : nat) (pgdir : Z) (ip : nat) (off sz : Z) : K (option Z) :=
  match n with
  | O => ret (Some sz)
  | S n' =>
      let off' := s32 (off + sizeof_proghdr) in
      r <- readi ip (u32 off) sizeof_proghdr ;;
      match r with
      | None => ret None
      | Some d =>
          if negb (Z.of_nat (length d) =? sizeof_proghdr) then ret None else
          let ph := proghdr_of d in
          if negb (ph_type ph =? ELF_PROG_LOAD) then load_segments n' pgdir ip off' sz else
          if ph_memsz ph <? ph_filesz ph then ret None else
          let top := u32 (ph_vaddr ph + ph_memsz ph) in
          if top <? ph_vaddr ph then ret None else
          sz <- allocuvm pgdir sz top ;;
          if sz =? 0 then ret None else
          if negb (ph_vaddr ph mod PGSIZE =? 0) then ret None else
          r <- loaduvm pgdir (ph_vaddr ph) ip (ph_off ph) (ph_filesz ph) ;;
          if r <? 0 then ret None else load_segments n' pgdir ip off' sz
      end
  end.

(** Push the argument strings: the stack pointer and their addresses. *)
Fixpoint push_args (pgdir sp : Z) (argc : nat) (argv : list (list Z)) (ptrs : list Z) : K (option (Z * list Z)) :=
  match argv with
  | [] => ret (Some (sp, ptrs))
  | a :: argv' =>
      if (MAXARG <=? argc)%nat then ret None else
      let sp := Z.land (u32 (sp - (Z.of_nat (length a) + 1))) (Z.lnot 3) in
      r <- copyout pgdir sp (a ++ [0]) ;;
      if r <? 0 then ret None else push_args pgdir sp (S argc) argv' (ptrs ++ [sp])
  end.

(** [bad:] with a page table and, while the file is open, its inode. *)
Definition exec_bad (pgdir : Z) (ip : option nat) : K Z :=
  when (nz pgdir) (freevm pgdir) ;;
  (match ip with
   | Some ip => iunlockput ip ;; end_op
   | None => ret tt
   end) ;;
  ret (-1).

(** The new image takes effect. *)
Definition exec_commit (path : list Z) (pgdir sz entry sp : Z) : K Z :=
  me <- myproc ;;
  set_proc me (fun p => p <| p_name ::= fun n => copy_name n (last_elem path path ++ [0]) |>) ;;
  p <- get_proc me ;;
  let oldpgdir := p_pgdir p in
  set_proc me (fun p => p <| p_pgdir := pgdir |> <| p_sz := sz |>
    <| p_tfregs ::= fun tf => tf <| tf_eip := entry |> <| tf_esp := sp |> |>) ;;
  switchuvm me ;;
  freevm oldpgdir ;;
  ret 0.

(** The user stack: two pages, the first made inaccessible, and the arguments in the
    second. *)
Definition exec_stack (path : list Z) (argv : list (list Z)) (pgdir sz entry : Z) : K Z :=
  let sz := PGROUNDUP sz in
  sz <- allocuvm pgdir sz (u32 (sz + 2 * PGSIZE)) ;;
  if sz =? 0 then exec_bad pgdir None else
  clearpteu pgdir (u32 (sz - 2 * PGSIZE)) ;;
  r <- push_args pgdir sz 0 argv [] ;;
  match r with
  | None => exec_bad pgdir None
  | Some (sp, ptrs) =>
      let argc := Z.of_nat (length argv) in
      let ustack := [0xffffffff; argc; u32 (sp - (argc + 1) * 4)] ++ ptrs ++ [0] in
      let sp := u32 (sp - (3 + argc + 1) * 4) in
      r <- copyout pgdir sp (words ustack) ;;
      if r <? 0 then exec_bad pgdir None else exec_commit path pgdir sz entry sp
  end.

(** [readi(...) < sizeof(elf)] compares unsigned: a failed read is not short, and the
    header it leaves unset is used. *)
Definition exec (path : list Z) (argv : list (list Z)) : K Z :=
  begin_op ;;
  o <- namei path ;;
  match o with
  | None => end_op ;; ret (-1)
  | Some ip =>
      ilock ip ;;
      r <- readi ip 0 sizeof_elfhdr ;;
      match r with
      | None => fault "exec: elf not initialised"
      | Some d =>
          if Z.of_nat (length d) <? sizeof_elfhdr then exec_bad 0 (Some ip) else
          let elf := elfhdr_of d in
          if negb (e_magic elf =? ELF_MAGIC) then exec_bad 0 (Some ip) else
          pgdir <- setupkvm ;;
          if pgdir =? 0 then exec_bad 0 (Some ip) else
          r <- load_segments (Z.to_nat (e_phnum elf)) pgdir ip (s32 (e_phoff elf)) 0 ;;
          match r with
          | None => exec_bad pgdir (Some ip)
          | Some sz =>
              iunlockput ip ;;
              end_op ;;
              exec_stack path argv pgdir sz (e_entry elf)
          end
      end
  end.
End Driver.
