(* ===== verification/Boot.v ===== *)
(** * The boot loader ([bootmain.c])

    The loader runs before paging is on: its addresses are physical. It reads the kernel
    from the sectors after its own, with the commands of the IDE controller, and may copy
    more than asked before and after a segment. On a disk that holds an executable whose
    segments leave room for that, every segment ends up where it belongs. *)

From Stdlib Require Import FunctionalExtensionality Sorting.Sorted.
From S2P Require Import Prelude Params State Mem Strings Vm Bio Io Ide IdeSpec Fs Exec.

(** ** The code *)

Definition SECTSIZE : Z := 512.

(** The scratch page the executable's headers are read to. *)
Definition ELF : Z := 0x10000.

Section Boot.
Context `{Ports}.

Definition waitdisk : K unit :=
  poll patience (inb 0x1F7) (fun v => Z.land v 0xC0 =? 0x40) ;;
  ret tt.

Definition readsect (dst offset : Z) : K unit :=
  waitdisk ;;
  outb 0x1F2 1 ;;
  outb 0x1F3 offset ;;
  outb 0x1F4 (Z.shiftr offset 8) ;;
  outb 0x1F5 (Z.shiftr offset 16) ;;
  outb 0x1F6 (Z.lor (Z.shiftr offset 24) 0xE0) ;;
  outb 0x1F7 0x20 ;;
  waitdisk ;;
  l <- insl 0x1F0 (Z.to_nat (SECTSIZE / 4)) ;;
  modify (fun s => s <| k_mem ::= fun m => put_bytes m dst l |>).

Fixpoint readseg_loop (fuel : nat) (pa epa offset : Z) : K unit :=
  if pa <? epa then
    match fuel with
    | O => spin
    | S fuel' => readsect pa offset ;; readseg_loop fuel' (u32 (pa + SECTSIZE)) epa (u32 (offset + 1))
    end
  else ret tt.

Definition readseg (pa count offset : Z) : K unit :=
  readseg_loop (S (Z.to_nat count)) (u32 (pa - offset mod SECTSIZE)) (u32 (pa + count)) (offset / SECTSIZE + 1).

(** A field of a structure in memory. *)
Definition ld (a : Z) : K Z := gets (fun s => load32 (k_mem s) a).
Definition ldh (a : Z) : K Z := gets (fun s => k_mem s a + 2 ^ 8 * k_mem s (a + 1)).

Fixpoint load_kernel (fuel : nat) (ph eph : Z) : K unit :=
  if ph <? eph then
    match fuel with
    | O => spin
    | S fuel' =>
        pa <- ld (ph + 12) ;;
        filesz <- ld (ph + 16) ;;
        off <- ld (ph + 4) ;;
        readseg pa filesz off ;;
        memsz <- ld (ph + 20) ;;
        filesz <- ld (ph + 16) ;;
        when (filesz <? memsz)
          (modify (fun s => s <| k_mem ::= fun m => stosb (Z.to_nat (memsz - filesz)) m (pa + filesz) 0 |>)) ;;
        load_kernel fuel' (u32 (ph + sizeof_proghdr)) eph
    end
  else ret tt.

(** The entry point it calls, or [None] when it returns to [bootasm.S]. *)
Definition bootmain : K (option Z) :=
  readseg ELF 4096 0 ;;
  magic <- ld ELF ;;
  if negb (magic =? ELF_MAGIC) then ret None else
  phoff <- ld (ELF + 28) ;;
  phnum <- ldh (ELF + 44) ;;
  let ph := u32 (ELF + phoff) in
  load_kernel (S (Z.to_nat phnum)) ph (u32 (ph + sizeof_proghdr * phnum)) ;;
  entry <- ld (ELF + 24) ;;
  ret (Some entry).
End Boot.

(** ** The image on the disk *)

(** Byte [x] of the executable, which starts at sector 1. *)
Definition image (D : Z -> Z -> list Z) (x : Z) : Z := nth (Z.to_nat (x mod SECTSIZE)) (D 0 (x / SECTSIZE + 1)) 0.

(** Memory with the bytes of the image from [lo + k] on at [lo .. hi - 1]. *)
Definition loaded (D : Z -> Z -> list Z) (lo hi k : Z) (m : mem) : mem := fun x =>
  if (lo <=? x) && (x <? hi) then image D (x + k) else m x.

Lemma loaded_nil D lo k m : loaded D lo lo k m = m.
Proof. extensionality x. unfold loaded. destruct (Z.leb_spec lo x), (Z.ltb_spec x lo); simpl; try done; lia. Qed.

Lemma loaded_app D lo mid hi k m : lo <= mid <= hi -> loaded D mid hi k (loaded D lo mid k m) = loaded D lo hi k m.
Proof.
  intros Hm. extensionality x. unfold loaded.
  destruct (Z.leb_spec lo x), (Z.ltb_spec x hi), (Z.leb_spec mid x), (Z.ltb_spec x mid); simpl; try done; lia.
Qed.

Lemma loaded_in D lo hi k m x : lo <= x < hi -> loaded D lo hi k m x = image D (x + k).
Proof. intros Hx. unfold loaded. by rewrite (proj2 (Z.leb_le _ _)), (proj2 (Z.ltb_lt _ _)) by lia. Qed.

Lemma loaded_out D lo hi k m x : x < lo \/ hi <= x -> loaded D lo hi k m x = m x.
Proof. intros Hx. unfold loaded. destruct (Z.leb_spec lo x), (Z.ltb_spec x hi); simpl; try done; lia. Qed.

Lemma sector_loaded D pa k m :
  (pa + k) mod SECTSIZE = 0 -> length (D 0 ((pa + k) / SECTSIZE + 1)) = Z.to_nat SECTSIZE ->
  put_bytes m pa (D 0 ((pa + k) / SECTSIZE + 1)) = loaded D pa (pa + SECTSIZE) k m.
Proof.
  intros Hk Hl. extensionality x. unfold put_bytes, loaded, image. rewrite Hl. unfold SECTSIZE in *.
  rewrite Z2Nat.id by lia. destruct (Z.leb_spec pa x), (Z.ltb_spec x (pa + 512)); simpl; try done.
  assert ((x + k) mod 512 = x - pa /\ (x + k) / 512 = (pa + k) / 512) as [-> ->]
    by (Z.to_euclidean_division_equations; lia).
  by rewrite nth_lookup.
Qed.

(** ** Reading from the disk *)

Section Loading.
Context `{Ports} (D0 : Z -> Z -> list Z) (Hcf : conforming D0).
Context (Hsect : forall n, length (D0 0 n) = Z.to_nat SECTSIZE).

(** The state after accesses that leave the disk alone and put [f] of memory into memory. *)
Definition boots (f : mem -> mem) (s s' : kst) : Prop :=
  exists es, s' = s <| k_io ::= app es |> <| k_mem ::= f |>.

(** The loader writes to no disk. *)
Definition intact (s : kst) : Prop := c_disk (ctl_after D0 (k_io s)) = D0.

Lemma boots_mem f s s' : boots f s s' -> k_mem s' = f (k_mem s).
Proof. by intros (es & ->). Qed.

Lemma boots_trans f g s s1 s2 : boots f s s1 -> boots g s1 s2 -> boots (fun m => g (f m)) s s2.
Proof. intros (es & ->) (es' & ->). exists (es' ++ es). destruct s. kred. by rewrite (assoc_L (++)). Qed.

Lemma waitdisk_run s :
  exists es, waitdisk s = Ok tt (s <| k_io ::= app es |>) /\ ctl_after D0 (es ++ k_io s) = ctl_after D0 (k_io s).
Proof.
  destruct (poll_run D0 patience s (cf_ready _ Hcf (k_io s))) as (es & r & h & E & _ & _ & Hc).
  exists es. split; [|done]. unfold waitdisk. change (fun v => Z.land v 0xC0 =? 0x40) with ide_ready.
  by rewrite (bind_ok _ _ _ _ _ E).
Qed.

Lemma boot_drive_reg n : 0 <= n < 2 ^ 28 ->
  let v := u8 (Z.lor (Z.shiftr n 24) 0xE0) in Z.land (Z.shiftr v 4) 1 = 0 /\ Z.land v 0x0f = n / 2 ^ 24.
Proof.
  intros Hn. rewrite Z.shiftr_div_pow2 by lia.
  assert (0 <= n / 2 ^ 24 < 16) by (Z.to_euclidean_division_equations; lia). set (k := n / 2 ^ 24) in *. clearbody k.
  assert (k ∈ seqZ 0 16) as Hk by (apply elem_of_seqZ; lia). clear - Hk.
  change (seqZ 0 16) with [0;1;2;3;4;5;6;7;8;9;10;11;12;13;14;15] in Hk.
  rewrite !elem_of_cons in Hk. destruct_or! Hk; try (subst; done); by apply not_elem_of_nil in Hk.
Qed.

(** What [readsect] writes to the registers for sector [n], the latest first. *)
Definition sect_regs (n : Z) : list pio :=
  [Out8 0x1f7 IDE_CMD_READ; Out8 0x1f6 (u8 (Z.lor (Z.shiftr n 24) 0xE0)); Out8 0x1f5 (u8 (Z.shiftr n 16));
   Out8 0x1f4 (u8 (Z.shiftr n 8)); Out8 0x1f3 (u8 n); Out8 0x1f2 1].

Lemma sect_regs_command n h : 0 <= n < 2 ^ 28 ->
  c_cmd (ctl_after D0 (sect_regs n ++ h)) = Reading 0 n /\
  c_disk (ctl_after D0 (sect_regs n ++ h)) = c_disk (ctl_after D0 h).
Proof.
  intros Hn. destruct (boot_drive_reg n Hn) as [Hd Hl].
  assert (u8 n + 2 ^ 8 * u8 (Z.shiftr n 8) + 2 ^ 16 * u8 (Z.shiftr n 16) + 2 ^ 24 * (n / 2 ^ 24) = n) as Hb.
  { rewrite !Z.shiftr_div_pow2 by lia. unfold u8. Z.to_euclidean_division_equations. lia. }
  unfold sect_regs. rewrite <- Hl in Hb. set (drv := u8 (Z.lor _ _)) in *.
  set (lo := u8 n) in *. set (mid := u8 (Z.shiftr n 8)) in *. set (hi := u8 (Z.shiftr n 16)) in *. clearbody drv lo mid hi.
  cbn [app ctl_after]. destruct (ctl_after D0 h) as [c0 [[l0 m0] h0] d0 cmd D].
  split; [|done]. change (Reading (Z.land (Z.shiftr drv 4) 1) (lo + 2 ^ 8 * mid + 2 ^ 16 * hi + 2 ^ 24 * Z.land drv 0x0f) = Reading 0 n).
  by rewrite Hd, Hb.
Qed.

Lemma readsect_run dst n s : 0 <= n < 2 ^ 28 -> intact s ->
  exists s', readsect dst n s = Ok tt s' /\ boots (fun m => put_bytes m dst (D0 0 n)) s s' /\ intact s'.
Proof.
  intros Hn Hs. destruct (waitdisk_run s) as (es & E & Hc).
  set (s1 := s <| k_io ::= app es |> <| k_io ::= app (sect_regs n) |>).
  destruct (waitdisk_run s1) as (es' & E' & Hc'). set (s2 := s1 <| k_io ::= app es' |>).
  destruct (sect_regs_command n (es ++ k_io s) Hn) as [Hcmd Hdisk].
  change (es' ++ k_io s1) with (k_io s2) in Hc'. change (sect_regs n ++ es ++ k_io s) with (k_io s1) in Hcmd, Hdisk.
  assert (c_disk (ctl_after D0 (k_io s2)) = D0) as HD by (unfold intact in *; by rewrite Hc', Hdisk, Hc).
  assert (port_inl (k_io s2) 0x1F0 (Z.to_nat (SECTSIZE / 4)) = D0 0 n) as Hl
    by (rewrite <- HD; apply (cf_reads _ Hcf); by rewrite Hc').
  assert (insl 0x1F0 (Z.to_nat (SECTSIZE / 4)) s2 = Ok (D0 0 n) (s2 <| k_io ::= cons (InL 0x1F0 (D0 0 n)) |>)) as El
    by (rewrite <- Hl; reflexivity).
  eexists. split_and!.
  - unfold readsect. rewrite (bind_ok _ _ _ _ _ E), !outb_bind. change (_ <| k_io ::= cons (Out8 0x1f7 _) |>) with s1.
    rewrite (bind_ok _ _ _ _ _ E'), (bind_ok _ _ _ _ _ El). reflexivity.
  - exists (InL 0x1F0 (D0 0 n) :: es' ++ sect_regs n ++ es). destruct s. kred. cbn [app]. by rewrite <- !app_assoc.
  - exact HD.
Qed.

Lemma boots_ext f g s s' : (forall m, f m = g m) -> boots f s s' -> boots g s s'.
Proof. intros Hfg (es & ->). exists es. destruct s. kred. by rewrite Hfg. Qed.

Lemma readseg_loop_run n : forall fuel pa epa k s,
  (n <= fuel)%nat -> pa + SECTSIZE * (Z.of_nat n - 1) < epa <= pa + SECTSIZE * Z.of_nat n ->
  0 <= pa -> pa + SECTSIZE * Z.of_nat n < 2 ^ 32 ->
  (pa + k) mod SECTSIZE = 0 -> 0 <= pa + k -> pa + k + SECTSIZE * Z.of_nat n < SECTSIZE * (2 ^ 28 - 1) -> intact s ->
  exists s', readseg_loop fuel pa epa ((pa + k) / SECTSIZE + 1) s = Ok tt s' /\
    boots (loaded D0 pa (pa + SECTSIZE * Z.of_nat n) k) s s' /\ intact s'.
Proof.
  unfold SECTSIZE. induction n as [|n IH]; intros fuel pa epa k s Hf He H0 Hp Hk Hk0 Hk1 Hs.
  - exists s. assert (readseg_loop fuel pa epa ((pa + k) / 512 + 1) s = Ok tt s) as ->
      by (destruct fuel; simpl; by rewrite (proj2 (Z.ltb_ge _ _)) by lia).
    split_and!; [done| |done]. apply (boots_ext id); [|exists []; by destruct s].
    intros m. change (Z.of_nat 0) with 0. by rewrite Z.mul_0_r, Z.add_0_r, loaded_nil.
  - destruct fuel as [|fuel]; [lia|]. cbn [readseg_loop]. rewrite (proj2 (Z.ltb_lt _ _)) by lia.
    assert ((pa + k + 512) / 512 = (pa + k) / 512 + 1 /\ (pa + k + 512) mod 512 = 0) as [Hq Hm] by (Z.to_euclidean_division_equations; lia).
    assert (0 <= (pa + k) / 512 + 1 < 2 ^ 28 - 1) by (Z.to_euclidean_division_equations; lia).
    destruct (readsect_run pa ((pa + k) / 512 + 1) s) as (s1 & E1 & B1 & Hs1); [lia|done|].
    rewrite (bind_ok _ _ _ _ _ E1). unfold SECTSIZE. rewrite !u32_small by (unfold is_u32; lia).
    destruct (IH fuel (pa + 512) epa k s1) as (s2 & E2 & B2 & Hs2); try lia; [by replace (pa + 512 + k) with (pa + k + 512) by lia|done|].
    exists s2. replace (pa + 512 + k) with (pa + k + 512) in E2 by lia. rewrite Hq in E2. split_and!; [done| |done].
    eapply boots_ext; [|exact (boots_trans _ _ _ _ _ B1 B2)]. intros m. cbv beta.
    pose proof (sector_loaded D0 pa k m Hk (Hsect _)) as Es. unfold SECTSIZE in Es. rewrite Es.
    rewrite (loaded_app D0 pa (pa + 512)) by lia. f_equal. lia.
Qed.

(** A stretch of the image that can be loaded at [pa]: sectors and addresses are in range. *)
Definition fits (pa count off : Z) : Prop :=
  0 <= count /\ 0 <= off /\ off mod SECTSIZE <= pa /\ pa + count + SECTSIZE < 2 ^ 32 /\
  off + count + SECTSIZE < SECTSIZE * (2 ^ 28 - 1).

Lemma readseg_run pa count off s : fits pa count off -> intact s ->
  exists s' hi, readseg pa count off s = Ok tt s' /\ pa + count <= hi /\
    boots (loaded D0 (pa - off mod SECTSIZE) hi (off - pa)) s s' /\ intact s'.
Proof.
  unfold fits. intros (Hc & Ho & Hpa & Hend & Hsec) Hs. set (lo := pa - off mod SECTSIZE).
  set (n := Z.to_nat ((pa + count - lo + 511) / 512)). unfold SECTSIZE in *.
  assert (Z.of_nat n = (pa + count - lo + 511) / 512) as Hn by (subst n lo; rewrite Z2Nat.id; Z.to_euclidean_division_equations; lia).
  destruct (readseg_loop_run n (S (Z.to_nat count)) lo (pa + count) (off - pa) s) as (s' & E & B & Hs');
    try done; unfold SECTSIZE in *; try (subst lo; Z.to_euclidean_division_equations; lia).
  exists s', (lo + 512 * Z.of_nat n). split_and!; [|subst lo; Z.to_euclidean_division_equations; lia|done|done].
  unfold readseg, SECTSIZE. rewrite !u32_small by (unfold is_u32; subst lo; Z.to_euclidean_division_equations; lia). fold lo.
  replace (off / 512 + 1) with ((lo + (off - pa)) / 512 + 1); [done|]. subst lo. f_equal. Z.to_euclidean_division_equations. lia.
Qed.

(** ** The executable *)

Record kseg := mkKseg { g_pa : Z; g_off : Z; g_filesz : Z; g_memsz : Z }.

(** The program header at [a] of memory [m]. *)
Definition seg_at (m : mem) (a : Z) : kseg :=
  mkKseg (load32 m (a + 12)) (load32 m (a + 4)) (load32 m (a + 16)) (load32 m (a + 20)).

(** [n] program headers from [a] on. *)
Fixpoint segs_at (m : mem) (n : nat) (a : Z) : list kseg :=
  match n with
  | O => []
  | S n' => seg_at m a :: segs_at m n' (a + sizeof_proghdr)
  end.

(** The first byte that loading a segment may touch, and the end of the segment. *)
Definition g_start (g : kseg) : Z := g_pa g - g_off g mod SECTSIZE.
Definition g_end (g : kseg) : Z := g_pa g + Z.max (g_filesz g) (g_memsz g).

(** Segments that can be loaded: within the limits, above the scratch page, and each with
    room before it for the part of its first sector that is not its own. *)
Definition loadable (gs : list kseg) : Prop :=
  Forall (fun g => fits (g_pa g) (g_filesz g) (g_off g) /\ g_pa g + g_memsz g < 2 ^ 32 /\ ELF + 4096 <= g_start g) gs /\
  StronglySorted (fun g h => g_end g <= g_start h) gs.

Definition in_place (m : mem) (g : kseg) : Prop :=
  (forall j, 0 <= j < g_filesz g -> m (g_pa g + j) = image D0 (g_off g + j)) /\
  (forall j, g_filesz g <= j < g_memsz g -> m (g_pa g + j) = 0).

(** The scratch page holds the start of the executable. *)
Definition headers (m : mem) : Prop := forall x, 0 <= x < 4096 -> m (ELF + x) = image D0 x.

Lemma headers_seg m a : headers m -> ELF <= a -> a + sizeof_proghdr <= ELF + 4096 ->
  seg_at m a = seg_at (fun x => image D0 (x - ELF)) a.
Proof.
  intros Hm H1 H2. unfold sizeof_proghdr in H2. assert (forall x, ELF <= x < ELF + 4096 -> m x = image D0 (x - ELF)) as Hx.
  { intros x Hx. rewrite <- (Hm (x - ELF)) by lia. f_equal. lia. }
  unfold seg_at. f_equal; apply load32_agree; intros x Hr; apply Hx; lia.
Qed.

(** The body of the loop for the header at [ph]. *)
Lemma segment_run ph g s {A} (k : K A) :
  headers (k_mem s) -> intact s -> ELF <= ph -> ph + sizeof_proghdr <= ELF + 4096 -> seg_at (k_mem s) ph = g ->
  fits (g_pa g) (g_filesz g) (g_off g) -> ELF + 4096 <= g_start g ->
  exists s', (pa <- ld (ph + 12) ;; filesz <- ld (ph + 16) ;; off <- ld (ph + 4) ;; readseg pa filesz off ;;
    memsz <- ld (ph + 20) ;; filesz <- ld (ph + 16) ;;
    when (filesz <? memsz) (modify (fun s => s <| k_mem ::= fun m => stosb (Z.to_nat (memsz - filesz)) m (pa + filesz) 0 |>)) ;; k) s = k s' /\
    intact s' /\ headers (k_mem s') /\ in_place (k_mem s') g /\ forall x, x < g_start g -> k_mem s' x = k_mem s x.
Proof.
  intros Hh Hi H1 H2 Hg Hf Hst. pose proof Hg as Hg'. destruct g as [pa off filesz memsz]. simpl in *. unfold seg_at in Hg. injection Hg as E1 E2 E3 E4.
  destruct (readseg_run pa filesz off s Hf Hi) as (s1 & hi & E & Hhi & B & Hi1). pose proof (boots_mem _ _ _ B) as Em.
  set (lo := pa - off mod SECTSIZE) in *. change (ELF + 4096 <= lo) in Hst.
  assert (headers (k_mem s1)) as Hh1 by (intros x Hx; rewrite Em, loaded_out by lia; by apply Hh).
  assert (seg_at (k_mem s1) ph = mkKseg pa off filesz memsz) as Hg1 by (rewrite headers_seg, <- (headers_seg (k_mem s)) by done; done).
  unfold seg_at in Hg1. injection Hg1 as F1 F2 F3 F4.
  destruct Hf as (Hf0 & Ho & Hpa & _ & _). assert (lo <= pa) by (subst lo; unfold SECTSIZE; Z.to_euclidean_division_equations; lia).
  set (m' := if filesz <? memsz then stosb (Z.to_nat (memsz - filesz)) (k_mem s1) (pa + filesz) 0 else k_mem s1).
  assert (forall x, m' x = if (pa + filesz <=? x) && (x <? pa + memsz) then 0 else k_mem s1 x) as Hm'.
  { intros x. subst m'. destruct (Z.ltb_spec filesz memsz).
    - rewrite stosb_spec, Z2Nat.id by lia. by replace (pa + filesz + (memsz - filesz)) with (pa + memsz) by lia.
    - destruct (Z.leb_spec (pa + filesz) x), (Z.ltb_spec x (pa + memsz)); simpl; try done; lia. }
  exists (s1 <| k_mem := m' |>). split_and!.
  - unfold ld. mstep. rewrite E1, E2, E3. rewrite (bind_ok _ _ _ _ _ E). mstep. rewrite F3, F4. subst m'.
    destruct (filesz <? memsz); cbn [when]; mstep; [done|by destruct s1].
  - exact Hi1.
  - intros x Hx. simpl. rewrite Hm'. rewrite (proj2 (Z.leb_gt _ _)) by lia. by apply Hh1.
  - split; simpl; intros j Hj; rewrite Hm'.
    + rewrite (proj2 (Z.leb_gt _ _)) by lia. simpl. rewrite Em, loaded_in by lia. f_equal. lia.
    + by rewrite (proj2 (Z.leb_le _ _)), (proj2 (Z.ltb_lt _ _)) by lia.
  - intros x Hx. simpl. rewrite Hm'. change (x < lo) in Hx. rewrite (proj2 (Z.leb_gt _ _)) by lia. simpl. by rewrite Em, loaded_out by lia.
Qed.

#[local] Abbreviation table := (segs_at (fun x => image D0 (x - ELF))).

Lemma load_kernel_run n : forall fuel ph s,
  (n <= fuel)%nat -> ELF <= ph -> ph + sizeof_proghdr * Z.of_nat n <= ELF + 4096 ->
  headers (k_mem s) -> intact s -> loadable (table n ph) ->
  exists s', load_kernel fuel ph (ph + sizeof_proghdr * Z.of_nat n) s = Ok tt s' /\
    headers (k_mem s') /\ intact s' /\ Forall (in_place (k_mem s')) (table n ph) /\
    forall x, Forall (fun g => x < g_start g) (table n ph) -> k_mem s' x = k_mem s x.
Proof.
  unfold sizeof_proghdr, ELF. induction n as [|n IH]; intros fuel ph s Hf H1 H2 Hh Hi Hl.
  - exists s. split_and!; try done. destruct fuel; simpl; by rewrite (proj2 (Z.ltb_ge _ _)) by lia.
  - destruct fuel as [|fuel]; [lia|]. cbn [load_kernel segs_at] in *. rewrite (proj2 (Z.ltb_lt _ _)) by lia.
    destruct Hl as [Ha Hs]. apply list.Forall_cons in Ha as [(Hfit & Hmem & Hlow) Ha].
    apply StronglySorted_inv in Hs as [Hs Hord]. set (g := seg_at _ ph) in *.
    destruct (segment_run ph g s (load_kernel fuel (u32 (ph + sizeof_proghdr)) (ph + 32 * Z.of_nat (S n)))) as (s1 & E & Hi1 & Hh1 & Hg & Hx1);
      try done; unfold sizeof_proghdr, ELF in *; try lia; [apply headers_seg; unfold sizeof_proghdr, ELF; [done|lia..]|].
    rewrite E, u32_small by (unfold is_u32; lia).
    destruct (IH fuel (ph + 32) s1) as (s2 & E2 & Hh2 & Hi2 & Hg2 & Hx2); try done; try lia.
    exists s2. split_and!; [|done|done| |].
    + by replace (ph + 32 * Z.of_nat (S n)) with (ph + 32 + 32 * Z.of_nat n) by lia.
    + constructor; [|done]. destruct Hg as [Hg0 Hg1].
      assert (forall x, x < g_end g -> k_mem s2 x = k_mem s1 x) as Hx.
      { intros x Hx. apply Hx2. eapply Forall_impl; [|exact Hord]. cbv beta. lia. }
      split; intros j Hj; (rewrite Hx by (unfold g_end; lia)); [by apply Hg0|by apply Hg1].
    + intros x Hx. apply list.Forall_cons in Hx as [Hxg Hx]. rewrite Hx2 by done. by apply Hx1.
Qed.

#[local] Abbreviation e_hdr k := (load32 (image D0) k).

(** The number of program headers, and the headers. *)
Definition kernel_phnum : nat := Z.to_nat (image D0 44 + 2 ^ 8 * image D0 45).
Definition kernel_segs : list kseg := table kernel_phnum (ELF + e_hdr 28).

(** An executable whose headers are in its first page and whose segments can be loaded. *)
Definition bootable : Prop :=
  e_hdr 0 = ELF_MAGIC /\ 0 <= e_hdr 28 /\ 0 <= image D0 44 + 2 ^ 8 * image D0 45 /\
  e_hdr 28 + sizeof_proghdr * Z.of_nat kernel_phnum <= 4096 /\ loadable kernel_segs.

Lemma headers_load m k : headers m -> 0 <= k -> k + 4 <= 4096 -> load32 m (ELF + k) = e_hdr k.
Proof. intros Hm H1 H2. unfold load32. rewrite <- !Z.add_assoc. by rewrite !Hm by lia. Qed.

(** C39. The boot loader on a disk that obeys its commands. If the disk does not start with
    an executable, it gives up. If it holds an executable whose segments leave room for
    whole sectors, the loader calls the entry point with every segment in place: its bytes
    of the file first, zeroes up to its size in memory, nothing of it overwritten by the
    segments loaded after it, and the disk as it was. *)
Theorem bootmain_loads s :
  intact s ->
  (e_hdr 0 <> ELF_MAGIC -> exists s', bootmain s = Ok None s' /\ intact s') /\
  (bootable -> exists s', bootmain s = Ok (Some (e_hdr 24)) s' /\ Forall (in_place (k_mem s')) kernel_segs /\ intact s').
Proof.
  intros Hi. destruct (readseg_run ELF 4096 0 s) as (s1 & hi & E & Hhi & B & Hi1); [unfold fits, SECTSIZE, ELF; by vm_compute|done|].
  pose proof (boots_mem _ _ _ B) as Em. change (ELF - 0 mod SECTSIZE) with ELF in Em.
  assert (headers (k_mem s1)) as Hh by (intros x Hx; rewrite Em, loaded_in by lia; f_equal; lia).
  pose proof (headers_load _ 0 Hh ltac:(lia) ltac:(lia)) as Hmagic. rewrite Z.add_0_r in Hmagic.
  split.
  - intros Hne. exists s1. split; [|done]. unfold bootmain. rewrite (bind_ok _ _ _ _ _ E). unfold ld. mstep. rewrite Hmagic.
    by rewrite (proj2 (Z.eqb_neq _ _) Hne).
  - intros (Hm & Hoff & Hnum & Hroom & Hl). assert (ELF = 0x10000) as HE by done. unfold sizeof_proghdr in *.
    destruct (load_kernel_run kernel_phnum (S kernel_phnum) (ELF + e_hdr 28) s1) as (s2 & E2 & Hh2 & Hi2 & Hg & _);
      unfold sizeof_proghdr; try done; try lia.
    exists s2. split_and!; [|done|done]. unfold bootmain. rewrite (bind_ok _ _ _ _ _ E). unfold ld, ldh. mstep. rewrite Hmagic, Hm.
    change (negb (ELF_MAGIC =? ELF_MAGIC)) with false. cbv iota. mstep.
    rewrite (headers_load _ 28) by (done || lia). rewrite <- (Z.add_assoc ELF 44 1), !Hh by lia. change (44 + 1) with 45. cbv zeta.
    unfold sizeof_proghdr, kernel_phnum in *. rewrite !u32_small by (unfold is_u32; lia). rewrite Z2Nat.id in E2 by lia.
    rewrite (bind_ok _ _ _ _ _ E2). mstep. by rewrite (headers_load _ 24) by (done || lia).
Qed.
End Loading.

(** An executable of two segments, the second with a part of a sector before it. *)
Definition boot_sector1 : list Z :=
  foldr (fun '(k, v) d => put32 d k v) (replicate (Z.to_nat SECTSIZE) 0)
    [(0%nat, ELF_MAGIC); (24%nat, 0x10000c); (28%nat, 52); (44%nat, 2);
     (56%nat, 4096); (64%nat, 0x100000); (68%nat, 600); (72%nat, 700);
     (88%nat, 10250); (96%nat, 0x100400); (100%nat, 5); (104%nat, 20)].
Definition boot_disk : Z -> Z -> list Z := fun _ n =>
  if n =? 1 then boot_sector1 else replicate (Z.to_nat SECTSIZE) (n mod 256).
Definition boot_st : kst := kst0 (fun _ => []).

#[local] Instance boot_ports : Ports := disk_ports boot_disk.

Lemma boot_disk_sectors n : length (boot_disk 0 n) = Z.to_nat SECTSIZE.
Proof. unfold boot_disk. destruct (n =? 1); [by vm_compute|by rewrite length_replicate]. Qed.

Lemma boot_disk_bootable : bootable boot_disk.
Proof.
  assert (kernel_segs boot_disk = [mkKseg 0x100000 4096 600 700; mkKseg 0x100400 10250 5 20]) as E by (vm_compute; reflexivity).
  split; [vm_compute; reflexivity|]. split; [vm_compute; discriminate|]. split; [vm_compute; discriminate|].
  split; [vm_compute; discriminate|]. rewrite E.
  split; repeat apply List.Forall_cons; repeat constructor; by vm_compute.
Qed.

Lemma bootmain_loads_witness :
  exists s', bootmain boot_st = Ok (Some 0x10000c) s' /\ Forall (in_place boot_disk (k_mem s')) (kernel_segs boot_disk).
Proof.
  destruct (bootmain_loads boot_disk (disk_ports_conforming boot_disk) boot_disk_sectors boot_st) as [_ Hb]; [reflexivity|].
  destruct (Hb boot_disk_bootable) as (s' & E & Hs & _). exists s'. split; [|exact Hs].
  eapply eq_trans; [exact E|]. by f_equal.
Defined.
