(* ===== verification/Sysfile.v ===== *)
(** * File system calls ([sysfile.c])

    The result of a system call is an integer; -1 is the error. Paths are fetched as
    strings, blocks of user memory are read before a write and stored after a read. *)

From S2P Require Import Prelude Params State Mem Strings Locks Printf Kalloc Vm Sched Policy Procs Uaccess Sleeplock Bio Log Pipe Fs File ProcLife Exec.
Import Spin.

(** The descriptor and its file. *)
Definition argfd (n : Z) : K (option (nat * nat)) :=
  o <- argint n ;;
  match o with
  | None => ret None
  | Some fd =>
      if (fd <? 0) || (Z.of_nat NOFILE <=? fd) then ret None else
      p <- cur ;;
      f <- nth_ok "ofile" (p_ofile p) (Z.to_nat fd) ;;
      ret (match f with Some f => Some (Z.to_nat fd, f) | None => None end)
  end.

Definition fd_free (o : option nat) : bool := match o with None => true | Some _ => false end.

Definition set_ofile (fd : nat) (o : option nat) : K unit :=
  me <- myproc ;; set_proc me (fun p => p <| p_ofile ::= <[fd := o]> |>).

(** The first free descriptor, [None] for -1. *)
Definition fdalloc (f : nat) : K (option nat) :=
  p <- cur ;;
  match find_from fd_free 0 (p_ofile p) with
  | Some fd => set_ofile fd (Some f) ;; ret (Some fd)
  | None => ret None
  end.

Section Driver.
Context `{BlockDriver} `{Devices}.

Definition sys_dup : K Z :=
  o <- argfd 0 ;;
  match o with
  | None => ret (-1)
  | Some (_, f) =>
      r <- fdalloc f ;;
      match r with
      | None => ret (-1)
      | Some fd => filedup f ;; ret (Z.of_nat fd)
      end
  end.

(** [argfd(0, 0, &f) < 0 || argint(2, &n) < 0 || argptr(1, &p, n) < 0] *)
Definition args_fnp : K (option (nat * Z * Z)) :=
  o <- argfd 0 ;;
  match o with
  | None => ret None
  | Some (_, f) =>
      o <- argint 2 ;;
      match o with
      | None => ret None
      | Some n =>
          o <- argptr 1 n ;;
          ret (match o with Some p => Some (f, n, p) | None => None end)
      end
  end.

Definition sys_read : K Z :=
  o <- args_fnp ;;
  match o with
  | None => ret (-1)
  | Some (f, n, p) =>
      r <- fileread f n ;;
      match r with
      | None => ret (-1)
      | Some l => ustore p l ;; ret (Z.of_nat (length l))
      end
  end.

Definition sys_write : K Z :=
  o <- args_fnp ;;
  match o with
  | None => ret (-1)
  | Some (f, n, p) => l <- uload p (Z.to_nat n) ;; filewrite f l
  end.

Definition sys_close : K Z :=
  o <- argfd 0 ;;
  match o with
  | None => ret (-1)
  | Some (fd, f) => set_ofile fd None ;; fileclose f ;; ret 0
  end.

Definition sizeof_stat : Z := 20.

(** [struct stat] in user memory. *)
Definition ustore_stat (a : Z) (st : stat) : K unit :=
  ustore (u32 (a + 4)) (le32 (st_dev st)) ;; ustore (u32 (a + 8)) (le32 (st_ino st)) ;; ustore a (le16 (st_type st)) ;;
  ustore (u32 (a + 12)) (le16 (st_nlink st)) ;; ustore (u32 (a + 16)) (le32 (st_size st)).

Definition sys_fstat : K Z :=
  o <- argfd 0 ;;
  match o with
  | None => ret (-1)
  | Some (_, f) =>
      o <- argptr 1 sizeof_stat ;;
      match o with
      | None => ret (-1)
      | Some a =>
          r <- filestat f ;;
          match r with
          | None => ret (-1)
          | Some st => ustore_stat a st ;; ret 0
          end
      end
  end.

(** [bad:] of [sys_link]. *)
Definition link_bad (ip : nat) : K Z :=
  ilock ip ;;
  set_inode ip (fun ip => ip <| i_nlink ::= fun n => s16 (n - 1) |>) ;;
  iupdate ip ;;
  iunlockput ip ;;
  end_op ;;
  ret (-1).

Definition sys_link : K Z :=
  old <- argstr 0 ;;
  match old with
  | None => ret (-1)
  | Some old =>
  new <- argstr 1 ;;
  match new with
  | None => ret (-1)
  | Some new =>
      begin_op ;;
      o <- namei old ;;
      match o with
      | None => end_op ;; ret (-1)
      | Some ip =>
          ilock ip ;;
          i <- get_inode ip ;;
          if i_type i =? T_DIR then iunlockput ip ;; end_op ;; ret (-1) else
          set_inode ip (fun ip => ip <| i_nlink ::= fun n => s16 (n + 1) |>) ;;
          iupdate ip ;;
          iunlock ip ;;
          r <- nameiparent new ;;
          match r with
          | None => link_bad ip
          | Some (dp, name) =>
              ilock dp ;;
              d <- get_inode dp ;;
              i <- get_inode ip ;;
              ok <- (if negb (i_dev d =? i_dev i) then ret false
                     else r <- dirlink dp name (i_inum i) ;; ret (negb (r <? 0))) ;;
              if negb ok then iunlockput dp ;; link_bad ip else
              iunlockput dp ;;
              iput ip ;;
              end_op ;;
              ret 0
          end
      end
  end
  end.

(** [for(off=2*sizeof(de); off<dp->size; off+=sizeof(de))] *)
Fixpoint isdirempty_loop (fuel : nat) (dp : nat) (off : Z) : K bool :=
  match fuel with
  | O => spin
  | S fuel' =>
      d <- get_inode dp ;;
      if i_size d <=? off then ret true else
      r <- readi dp off sizeof_dirent ;;
      match r with
      | Some de =>
          if negb (Z.of_nat (length de) =? sizeof_dirent) then panic "isdirempty: readi" else
          if negb (de_inum de =? 0) then ret false else isdirempty_loop fuel' dp (off + sizeof_dirent)
      | None => panic "isdirempty: readi"
      end
  end.

Definition isdirempty (dp : nat) : K bool :=
  d <- get_inode dp ;;
  isdirempty_loop (dir_fuel (i_size d)) dp (2 * sizeof_dirent).

(** [bad:] of [sys_unlink]. *)
Definition unlink_bad (dp : nat) : K Z := iunlockput dp ;; end_op ;; ret (-1).

Definition sys_unlink : K Z :=
  path <- argstr 0 ;;
  match path with
  | None => ret (-1)
  | Some path =>
      begin_op ;;
      r <- nameiparent path ;;
      match r with
      | None => end_op ;; ret (-1)
      | Some (dp, name) =>
          ilock dp ;;
          if (namecmp name (str ".") =? 0) || (namecmp name (str "..") =? 0) then unlink_bad dp else
          r <- dirlookup dp name ;;
          match r with
          | None => unlink_bad dp
          | Some (ip, off) =>
              ilock ip ;;
              i <- get_inode ip ;;
              if i_nlink i <? 1 then panic "unlink: nlink < 1" else
              busy <- (if i_type i =? T_DIR then e <- isdirempty ip ;; ret (negb e) else ret false) ;;
              if (busy : bool) then iunlockput ip ;; unlink_bad dp else
              w <- writei dp (replicate (Z.to_nat sizeof_dirent) 0) off ;;
              if negb (w =? sizeof_dirent) then panic "unlink: writei" else
              i <- get_inode ip ;;
              when (i_type i =? T_DIR)
                (set_inode dp (fun d => d <| i_nlink ::= fun n => s16 (n - 1) |>) ;; iupdate dp) ;;
              iunlockput dp ;;
              set_inode ip (fun i => i <| i_nlink ::= fun n => s16 (n - 1) |>) ;;
              iupdate ip ;;
              iunlockput ip ;;
              end_op ;;
              ret 0
          end
      end
  end.

(** The locked inode, [None] for a null result. [ialloc] and [iget] never return null. *)
Definition create (path : list Z) (type major minor : Z) : K (option nat) :=
  r <- nameiparent path ;;
  match r with
  | None => ret None
  | Some (dp, name) =>
      ilock dp ;;
      r <- dirlookup dp name ;;
      match r with
      | Some (ip, _) =>
          iunlockput dp ;;
          ilock ip ;;
          i <- get_inode ip ;;
          if (type =? T_FILE) && (i_type i =? T_FILE) then ret (Some ip) else
          iunlockput ip ;;
          ret None
      | None =>
          d <- get_inode dp ;;
          ip <- ialloc (i_dev d) type ;;
          ilock ip ;;
          set_inode ip (fun i => i <| i_major := major |> <| i_minor := minor |> <| i_nlink := 1 |>) ;;
          iupdate ip ;;
          i <- get_inode ip ;;
          when (type =? T_DIR)
            (set_inode dp (fun d => d <| i_nlink ::= fun n => s16 (n + 1) |>) ;;
             iupdate dp ;;
             d <- get_inode dp ;;
             r <- dirlink ip (str ".") (i_inum i) ;;
             if r <? 0 then panic "create dots" else
             r <- dirlink ip (str "..") (i_inum d) ;;
             if r <? 0 then panic "create dots" else ret tt) ;;
          r <- dirlink dp name (i_inum i) ;;
          if r <? 0 then panic "create: dirlink" else
          iunlockput dp ;;
          ret (Some ip)
      end
  end.

(** The inode to open, locked, with the transaction running; [None] when the call has
    failed and the transaction is over. *)
Definition open_inode (path : list Z) (omode : Z) : K (option nat) :=
  if nz (Z.land omode O_CREATE) then
    o <- create path T_FILE 0 0 ;;
    match o with
    | None => end_op ;; ret None
    | Some ip => ret (Some ip)
    end
  else
    o <- namei path ;;
    match o with
    | None => end_op ;; ret None
    | Some ip =>
        ilock ip ;;
        i <- get_inode ip ;;
        if (i_type i =? T_DIR) && negb (omode =? O_RDONLY) then iunlockput ip ;; end_op ;; ret None
        else ret (Some ip)
    end.

(** No file or no descriptor left. *)
Definition open_bad (ip : nat) : K Z := iunlockput ip ;; end_op ;; ret (-1).

Definition opened (ip : nat) (omode : Z) (f : file) : file :=
  f <| f_type := FD_INODE |> <| f_ip := Some ip |> <| f_off := 0 |>
    <| f_readable := negb (nz (Z.land omode O_WRONLY)) |>
    <| f_writable := nz (Z.land omode O_WRONLY) || nz (Z.land omode O_RDWR) |>.

Definition sys_open : K Z :=
  path <- argstr 0 ;;
  match path with
  | None => ret (-1)
  | Some path =>
  omode <- argint 1 ;;
  match omode with
  | None => ret (-1)
  | Some omode =>
      begin_op ;;
      o <- open_inode path omode ;;
      match o with
      | None => ret (-1)
      | Some ip =>
          f <- filealloc ;;
          match f with
          | None => open_bad ip
          | Some f =>
              r <- fdalloc f ;;
              match r with
              | None => fileclose f ;; open_bad ip
              | Some fd =>
                  iunlock ip ;;
                  end_op ;;
                  set_file f (opened ip omode) ;;
                  ret (Z.of_nat fd)
              end
          end
      end
  end
  end.

(** [end_op(); return -1;], and the end of a call that made an inode. *)
Definition op_bad : K Z := end_op ;; ret (-1).
Definition op_done (o : option nat) : K Z :=
  match o with
  | None => op_bad
  | Some ip => iunlockput ip ;; end_op ;; ret 0
  end.

Definition sys_mkdir : K Z :=
  begin_op ;;
  path <- argstr 0 ;;
  match path with
  | None => op_bad
  | Some path => o <- create path T_DIR 0 0 ;; op_done o
  end.

Definition sys_mknod : K Z :=
  begin_op ;;
  path <- argstr 0 ;;
  match path with
  | None => op_bad
  | Some path =>
  major <- argint 1 ;;
  match major with
  | None => op_bad
  | Some major =>
  minor <- argint 2 ;;
  match minor with
  | None => op_bad
  | Some minor => o <- create path T_DEV (s16 major) (s16 minor) ;; op_done o
  end
  end
  end.

Definition sys_chdir : K Z :=
  begin_op ;;
  path <- argstr 0 ;;
  match path with
  | None => op_bad
  | Some path =>
      o <- namei path ;;
      match o with
      | None => op_bad
      | Some ip =>
          ilock ip ;;
          i <- get_inode ip ;;
          if negb (i_type i =? T_DIR) then iunlockput ip ;; op_bad else
          iunlock ip ;;
          p <- cur ;;
          (match p_cwd p with Some c => iput c | None => fault "iput: null inode" end) ;;
          end_op ;;
          me <- myproc ;;
          set_proc me (fun p => p <| p_cwd := Some ip |>) ;;
          ret 0
      end
  end.

(** [for(i=0;; i++)]: the argument strings from the [i]th on; [n] places are left. *)
Fixpoint exec_args (n : nat) (uargv i : Z) : K (option (list (list Z))) :=
  match n with
  | O => ret None
  | S n' =>
      o <- fetchint (u32 (uargv + 4 * i)) ;;
      match o with
      | None => ret None
      | Some uarg =>
          if u32 uarg =? 0 then ret (Some []) else
          o <- fetchstr (u32 uarg) ;;
          match o with
          | None => ret None
          | Some a => r <- exec_args n' uargv (i + 1) ;; ret (cons a <$> r)
          end
      end
  end.

Definition sys_exec : K Z :=
  path <- argstr 0 ;;
  match path with
  | None => ret (-1)
  | Some path =>
  uargv <- argint 1 ;;
  match uargv with
  | None => ret (-1)
  | Some uargv =>
      o <- exec_args MAXARG (u32 uargv) 0 ;;
      match o with
      | None => ret (-1)
      | Some argv => exec path argv
      end
  end
  end.

(** No descriptor for one of the ends. *)
Definition pipe_bad (rf wf : nat) : K Z := fileclose rf ;; fileclose wf ;; ret (-1).

Definition sys_pipe : K Z :=
  o <- argptr 0 8 ;;
  match o with
  | None => ret (-1)
  | Some fd =>
      o <- pipealloc ;;
      match o with
      | None => ret (-1)
      | Some (rf, wf) =>
          o <- fdalloc rf ;;
          match o with
          | None => pipe_bad rf wf
          | Some fd0 =>
              o <- fdalloc wf ;;
              match o with
              | None => set_ofile fd0 None ;; pipe_bad rf wf
              | Some fd1 =>
                  ustore fd (le32 (Z.of_nat fd0)) ;;
                  ustore (u32 (fd + 4)) (le32 (Z.of_nat fd1)) ;;
                  ret 0
              end
          end
      end
  end.
End Driver.
