(* ===== verification/Syscall.v ===== *)
(** * System calls ([sysproc.c], and the dispatcher of [syscall.c])

    A local variable that the code uses without checking that [argint] has set it is
    indeterminate when the call fails: using it is a fault. *)

From S2P Require Import Prelude Params State Mem Strings Locks Printf Kalloc Vm Sched Policy Procs Uaccess Sleeplock Bio Log Pipe Fs File ProcLife Exec Sysfile.
Import Spin.

(** ** sysproc.c *)

(** [argint(n, &v)] with its result ignored; [init] is what [v] holds before. *)
Definition argint_unchecked (n : Z) (init : option Z) : K Z :=
  o <- argint n ;;
  match o, init with
  | Some v, _ => ret v
  | None, Some v => ret v
  | None, None => fault "uninitialised variable"
  end.

(** [argstr(n, &p)] with its result ignored: [p] is set once the address is below [sz]. *)
Definition argstr_unchecked (n : Z) : K Z :=
  o <- argint n ;;
  match o with
  | None => fault "uninitialised variable"
  | Some a =>
      p <- cur ;;
      if p_sz p <=? u32 a then fault "uninitialised variable" else
      fetchstr (u32 a) ;;
      ret (u32 a)
  end.

(** [table[i]], [i] a signed index. *)
Definition child_at (msg : string) (l : list Z) (i : Z) : K Z :=
  if i <? 0 then fault msg else nth_ok msg l (Z.to_nat i).

Definition sys_kill : K Z :=
  o <- argint 0 ;;
  match o with None => ret (-1) | Some pid => kill pid end.

Definition sys_getpid : K Z := p <- cur ;; ret (p_pid p).

Definition sys_sbrk : K Z :=
  o <- argint 0 ;;
  match o with
  | None => ret (-1)
  | Some n =>
      p <- cur ;;
      r <- growproc n ;;
      if r <? 0 then ret (-1) else ret (s32 (p_sz p))
  end.

(** [while(ticks - ticks0 < n)], a comparison of unsigned numbers. *)
Definition sleep_loop (ticks0 n : Z) : K Z :=
  now <- gets k_ticks ;;
  if u32 (now - ticks0) <? u32 n then
    p <- cur ;;
    if nz (p_killed p) then release LTicks ;; ret (-1) else
    sleep ChTicks LTicks ;;
    switch
  else release LTicks ;; ret 0.

Definition sys_sleep : K Z :=
  o <- argint 0 ;;
  match o with
  | None => ret (-1)
  | Some n =>
      acquire LTicks ;;
      ticks0 <- gets k_ticks ;;
      sleep_loop ticks0 n
  end.

Definition sys_sleep_resume (saved : bool) (ticks0 n : Z) : K Z :=
  sleep_resume saved LTicks ;; sleep_loop ticks0 n.

Definition sys_uptime : K Z :=
  acquire LTicks ;;
  xticks <- gets k_ticks ;;
  release LTicks ;;
  ret (s32 xticks).

Definition sys_getppid : K Z :=
  p <- cur ;;
  match p_parent p with
  | None => fault "proc->parent"
  | Some pa => q <- get_proc pa ;; ret (s32 (p_pid q + 6))
  end.

Definition sys_getPerformanceData : K Z :=
  wtime <- argstr_unchecked 0 ;;
  rtime <- argstr_unchecked 1 ;;
  p <- cur ;;
  ustore8 wtime (u8 (p_etime p - p_ctime p - p_rtime p)) ;;
  ustore8 rtime (u8 (p_rtime p)) ;;
  ret 1.

Definition sys_getAllChildsRtime : K Z :=
  i <- argint_unchecked 0 (Some (-1)) ;; p <- cur ;; child_at "childRTime" (p_childRTime p) i.

Definition sys_getAllChildsEtime : K Z :=
  i <- argint_unchecked 0 (Some (-1)) ;; p <- cur ;; child_at "childETime" (p_childETime p) i.

Definition sys_getAllChildsCtime : K Z :=
  i <- argint_unchecked 0 None ;; p <- cur ;; child_at "childCTime" (p_childCTime p) i.

Definition sys_getChildSize : K Z := p <- cur ;; ret (p_allChildSize p).

Definition set_piority (v : Z) : K Z :=
  me <- myproc ;; set_proc me (fun p => p <| p_piority := v |>) ;; ret v.

Definition sys_nice : K Z :=
  p <- cur ;;
  if p_piority p =? HIGH_PIORITY then set_piority MEDIUM_PIORITY
  else if p_piority p =? MEDIUM_PIORITY then set_piority LOW_PIORITY
  else if p_piority p =? LOW_PIORITY then set_piority HIGH_PIORITY
  else cprintf (str "Error:Unkonwn piority detected" ++ [10]) [] ;; ret (-1).

Definition sys_enableContextSwitchPrint : K Z :=
  isEnable <- argint_unchecked 0 None ;;
  modify (fun s => s <| k_ptable ::= fun t => t <| printRunningProcIsValid := if 0 <? isEnable then 1 else 0 |> |>) ;;
  ret 0.

Definition sys_getChildPiorityAt : K Z :=
  i <- argint_unchecked 0 None ;; p <- cur ;; child_at "childPiority" (p_childPiority p) i.

Section Driver.
Context `{BlockDriver} `{Devices}.

Definition sys_fork : K Z := fork.
Definition sys_exit : K Z := exit ;; ret 0.
Definition sys_wait : K Z := wait.

(** ** The dispatcher *)

(** [syscalls[]], with the numbers of [syscall.h]. *)
Definition syscalls : list (option (K Z)) :=
  [None; Some sys_fork; Some sys_exit; Some sys_wait; Some sys_pipe; Some sys_read; Some sys_kill; Some sys_exec;
   Some sys_fstat; Some sys_chdir; Some sys_dup; Some sys_getpid; Some sys_sbrk; Some sys_sleep; Some sys_uptime;
   Some sys_open; Some sys_write; Some sys_mknod; Some sys_unlink; Some sys_link; Some sys_mkdir; Some sys_close;
   Some sys_getppid; Some sys_getPerformanceData; Some sys_getAllChildsCtime; Some sys_getAllChildsEtime;
   Some sys_getAllChildsRtime; Some sys_getChildSize; Some sys_nice; Some sys_enableContextSwitchPrint;
   Some sys_getChildPiorityAt].

(** [syscalls[num]] if [num] is the number of a call. *)
Definition syscall_of (num : Z) : option (K Z) :=
  if (0 <? num) && (num <? Z.of_nat (length syscalls)) then mjoin (syscalls !! Z.to_nat num) else None.

Definition set_eax (v : Z) : K unit :=
  me <- myproc ;; set_proc me (fun p => p <| p_tfregs ::= fun tf => tf <| tf_eax := u32 v |> |>).

Definition syscall : K unit :=
  p <- cur ;;
  let num := s32 (tf_eax (p_tfregs p)) in
  match syscall_of num with
  | Some f => r <- f ;; set_eax r
  | None =>
      cprintf (str "%d %s: unknown sys call %d" ++ [10])
        [PInt (p_pid p); PStr (Some (until_nul (p_name p))); PInt num] ;;
      set_eax (-1)
  end.
End Driver.
