(* ===== verification/Console.v ===== *)
(** * Console input ([console.c]) and the keyboard ([kbd.c], [kbd.h])

    [consoleintr] is given the sequence of characters [getc] delivers before it returns
    -1; [kbdgetc] is given the scan code the keyboard controller delivers. *)

From S2P Require Import Prelude Params State Mem Strings Locks Printf Io Kalloc Vm Sched Policy Procs Uaccess Sleeplock Bio Log Pipe Fs.
Import Spin.

Definition BACKSPACE : Z := 0x100.
Definition INPUT_BUF : Z := 128.

(** [C(x)]: Control-x. *)
Definition ctrl (x : Z) : Z := x - 64.

Definition set_input (f : input -> input) : K unit := modify (fun s => s <| k_input ::= f |>).

(** [input.buf[i % INPUT_BUF]] *)
Definition input_at (inp : input) (i : Z) : Z := nth (Z.to_nat (i mod INPUT_BUF)) (in_buf inp) 0.

(** [input.e--; consputc(BACKSPACE);] *)
Definition rubout : K unit :=
  set_input (fun inp => inp <| in_e ::= fun e => u32 (e - 1) |>) ;; consputc BACKSPACE.

(** Kill line; [n] bounds the characters of the line. *)
Fixpoint kill_line (n : nat) : K unit :=
  inp <- gets k_input ;;
  if negb (in_e inp =? in_w inp) && negb (input_at inp (u32 (in_e inp - 1)) =? 10) then
    match n with
    | O => spin
    | S n' => rubout ;; kill_line n'
    end
  else ret tt.

(** The default case of the [switch]. *)
Definition enter_char (c : Z) : K unit :=
  inp <- gets k_input ;;
  when (nz c && (u32 (in_e inp - in_r inp) <? INPUT_BUF))
    (let c := if c =? 13 then 10 else c in
     set_input (fun inp => inp <| in_buf ::= <[Z.to_nat (in_e inp mod INPUT_BUF) := u8 c]> |>
                               <| in_e ::= fun e => u32 (e + 1) |>) ;;
     consputc c ;;
     inp <- gets k_input ;;
     when ((c =? 10) || (c =? ctrl 68) || (in_e inp =? u32 (in_r inp + INPUT_BUF)))
       (set_input (fun inp => inp <| in_w := in_e inp |>) ;;
        wakeup ChInput)).

(** One round of the loop of [consoleintr]; a process listing is asked for by the result. *)
Definition intr_char (c : Z) : K bool :=
  if c =? ctrl 80 then ret true
  else if c =? ctrl 85 then
    inp <- gets k_input ;; kill_line (Z.to_nat (u32 (in_e inp - in_w inp))) ;; ret false
  else if (c =? ctrl 72) || (c =? 127) then
    inp <- gets k_input ;; when (negb (in_e inp =? in_w inp)) rubout ;; ret false
  else enter_char c ;; ret false.

Fixpoint intr_loop (cs : list Z) (doprocdump : bool) : K bool :=
  match cs with
  | [] => ret doprocdump
  | c :: cs' => d <- intr_char c ;; intr_loop cs' (doprocdump || d)
  end.

Definition consoleintr (cs : list Z) : K unit :=
  acquire LCons ;;
  d <- intr_loop cs false ;;
  release LCons ;;
  when d procdump.

Section Driver.
Context `{BlockDriver}.

(** The end of [consoleread] with the characters [got]. *)
Definition consoleread_done (ip : nat) (got : list Z) : K (option (list Z)) :=
  release LCons ;; ilock ip ;; ret (Some got).

(** [while(n > 0)]; [got] has been read, [n] characters are left. *)
Fixpoint consoleread_loop (ip : nat) (target : Z) (n : nat) (got : list Z) : K (option (list Z)) :=
  match n with
  | O => consoleread_done ip got
  | S n' =>
      inp <- gets k_input ;;
      if in_r inp =? in_w inp then
        k <- killed ;;
        if (k : bool) then release LCons ;; ilock ip ;; ret None else
        sleep ChInput LCons ;;
        switch
      else
        let c := input_at inp (in_r inp) in
        set_input (fun inp => inp <| in_r ::= fun r => u32 (r + 1) |>) ;;
        if c =? ctrl 68 then
          when (Z.of_nat n <? target) (set_input (fun inp => inp <| in_r ::= fun r => u32 (r - 1) |>)) ;;
          consoleread_done ip got
        else if c =? 10 then consoleread_done ip (got ++ [c])
        else consoleread_loop ip target n' (got ++ [c])
  end.

(** The characters read, [None] for -1. *)
Definition consoleread (ip : nat) (n : Z) : K (option (list Z)) :=
  iunlock ip ;;
  acquire LCons ;;
  consoleread_loop ip n (Z.to_nat n) [].

Definition consoleread_resume (saved : bool) (ip : nat) (target : Z) (n : nat) (got : list Z) : K (option (list Z)) :=
  sleep_resume saved LCons ;; consoleread_loop ip target n got.

Definition consolewrite (ip : nat) (buf : list Z) : K Z :=
  iunlock ip ;;
  acquire LCons ;;
  for_each buf (fun c => consputc (Z.land c 0xff)) ;;
  release LCons ;;
  ilock ip ;;
  ret (Z.of_nat (length buf)).
End Driver.

(** [devsw] is the instance below. *)
Definition consoleinit : K unit :=
  initlock LCons ;;
  modify (fun s => s <| k_locking := true |>) ;;
  picenable IRQ_KBD ;;
  ioapicenable IRQ_KBD 0.

(** [devsw] as [consoleinit] leaves it. *)
#[export] Instance console_devices `{BlockDriver} : Devices := {|
  dev_read m := if m =? CONSOLE then Some consoleread else None;
  dev_write m := if m =? CONSOLE then Some consolewrite else None
|}.

(** ** The keyboard *)

Module Kbd.
Definition SHIFT : Z := 1.
Definition CTL : Z := 2.
Definition ALT : Z := 4.
Definition CAPSLOCK : Z := 8.
Definition NUMLOCK : Z := 16.
Definition SCROLLLOCK : Z := 32.
Definition E0ESC : Z := 64.

Definition shiftcode (k : Z) : Z :=
  if k =? 0x1D then CTL else if k =? 0x2A then SHIFT else if k =? 0x36 then SHIFT else if k =? 0x38 then ALT
  else if k =? 0x9D then CTL else if k =? 0xB8 then ALT else 0.

Definition togglecode (k : Z) : Z :=
  if k =? 0x3A then CAPSLOCK else if k =? 0x45 then NUMLOCK else if k =? 0x46 then SCROLLLOCK else 0.

(** The keys beyond 0x58 are the same in the three maps, but for Enter and Divide. *)
Definition extended (enter divide k : Z) : Z :=
  if k =? 0x9C then enter else if k =? 0xB5 then divide
  else if k =? 0xC8 then 0xE2 else if k =? 0xD0 then 0xE3 else if k =? 0xC9 then 0xE6 else if k =? 0xD1 then 0xE7
  else if k =? 0xCB then 0xE4 else if k =? 0xCD then 0xE5 else if k =? 0x97 then 0xE0 else if k =? 0xCF then 0xE1
  else if k =? 0xD2 then 0xE8 else if k =? 0xD3 then 0xE9 else 0.

(** [[27]] and the like are characters without a graphic. *)
Definition normal_keys : list Z :=
  [0; 27] ++ str "1234567890-=" ++ [8; 9] ++ str "qwertyuiop[]" ++ [10; 0] ++ str "asdfghjkl;'`" ++ [0; 92] ++
  str "zxcvbnm,./" ++ [0; 42; 0; 32] ++ replicate 13 0 ++ str "789-456+1230." ++ [0; 0; 0; 0].

Definition shift_keys : list Z :=
  [0; 27] ++ str "!@#$%^&*()_+" ++ [8; 9] ++ str "QWERTYUIOP{}" ++ [10; 0] ++ str "ASDFGHJKL:" ++ [34; 126; 0; 124] ++
  str "ZXCVBNM<>?" ++ [0; 42; 0; 32] ++ replicate 13 0 ++ str "789-456+1230." ++ [0; 0; 0; 0].

Definition ctl_keys : list Z :=
  replicate 16 0 ++ (ctrl <$> str "QWERTYUIOP") ++ [0; 0; 13; 0] ++ (ctrl <$> str "ASDFGHJKL") ++ [0; 0; 0; 0; ctrl 92] ++
  (ctrl <$> str "ZXCVBNM") ++ [0; 0; ctrl 47; 0; 0].

Definition key_in (l : list Z) (enter divide k : Z) : Z :=
  if k <? Z.of_nat (length l) then nth (Z.to_nat k) l 0 else extended enter divide k.

(** The maps hold [uchar]s. *)
Definition normalmap (k : Z) : Z := key_in normal_keys 10 47 k.
Definition shiftmap (k : Z) : Z := key_in shift_keys 10 47 k.
Definition ctlmap (k : Z) : Z := u8 (key_in ctl_keys 13 (ctrl 47) k).

Definition charcode (shift : Z) : Z -> Z :=
  let m := Z.land shift (Z.lor CTL SHIFT) in
  if m =? 0 then normalmap else if m =? SHIFT then shiftmap else ctlmap.

(** Swap the case under [CAPSLOCK]. *)
Definition caps (c : Z) : Z :=
  if (97 <=? c) && (c <=? 122) then c + (65 - 97)
  else if (65 <=? c) && (c <=? 90) then c + (97 - 65) else c.

(** [kbdgetc] for scan code [data]: the new [shift] and the result. *)
Definition kbdgetc (shift data : Z) : Z * Z :=
  if data =? 0xE0 then (Z.lor shift E0ESC, 0)
  else if nz (Z.land data 0x80) then
    let data := if nz (Z.land shift E0ESC) then data else Z.land data 0x7F in
    (Z.land shift (Z.lnot (Z.lor (shiftcode data) E0ESC)), 0)
  else
    let '(data, shift) :=
      if nz (Z.land shift E0ESC) then (Z.lor data 0x80, Z.land shift (Z.lnot E0ESC)) else (data, shift) in
    let shift := Z.lxor (Z.lor shift (shiftcode data)) (togglecode data) in
    let c := charcode shift data in
    (shift, if nz (Z.land shift CAPSLOCK) then caps c else c).
End Kbd.
