(* ===== verification/ConsoleSpec.v ===== *)
(** * The console is a line editor

    What [consoleintr] and [consoleread] do with the ring of typed characters, as a
    terminal with a queue of finished input, a line being edited, and a reader that may
    have to wait for input. *)

From S2P Require Import Prelude Params State Mem Strings Locks Printf Kalloc Vm Sched Policy Procs Uaccess Sleeplock Bio BioSpec Log Pipe Fs FileSpec Console.
Import Spin.

(** ** The specification *)

(** Input that can be read, and the line being typed. *)
Record term := mkTerm { t_ready : list Z; t_line : list Z }.

(** Control-P asks for a process listing and types nothing. *)
Definition type_char (t : term) (c : Z) : term :=
  if c =? ctrl 80 then t
  else if c =? ctrl 85 then mkTerm (t_ready t) []
  else if (c =? ctrl 72) || (c =? 127) then mkTerm (t_ready t) (removelast (t_line t))
  else if nz c && (Z.of_nat (length (t_ready t ++ t_line t)) <? INPUT_BUF) then
    let c := if c =? 13 then 10 else c in
    let line := t_line t ++ [c] in
    if (c =? 10) || (c =? ctrl 68) || (Z.of_nat (length (t_ready t ++ line)) =? INPUT_BUF)
    then mkTerm (t_ready t ++ line) [] else mkTerm (t_ready t) line
  else t.

(** What there is to read of [q]: up to [n] characters, up to the end of a line, or up to an
    end-of-file mark, which is consumed only if it is the first character. Either that ends
    the read, or all of [q] is taken and more is wanted. *)
Inductive taken := Done (l q : list Z) | More (l : list Z) (n : nat).

Fixpoint read_line (first : bool) (n : nat) (q : list Z) : taken :=
  match n with
  | O => Done [] q
  | S n' =>
      match q with
      | [] => More [] n
      | c :: q' =>
          if c =? ctrl 68 then Done [] (if first then q' else q)
          else if c =? 10 then Done [c] q'
          else match read_line false n' q' with
               | Done l r => Done (c :: l) r
               | More l m => More (c :: l) m
               end
      end
  end.

(** The reader: not reading, or waiting in a read of [target] characters, with [got] so far
    and [n] to come. *)
Inductive reader := Idle | Waiting (target : Z) (n : nat) (got : list Z).

(** Keys are typed, a read is called, or a waiting reader gets the processor again. *)
Inductive cevent := CType (cs : list Z) | CRead (n : Z) | CWake.

(** The terminal, the reader, and the results of the reads that have returned. *)
Definition tstate : Type := term * reader * list (list Z).

Definition term_read (target : Z) (n : nat) (got : list Z) (t : term) (ls : list (list Z)) : tstate :=
  match read_line (negb (Z.of_nat n <? target)) n (t_ready t) with
  | Done l q => (mkTerm q (t_line t), Idle, ls ++ [got ++ l])
  | More l m => (mkTerm [] (t_line t), Waiting target m (got ++ l), ls)
  end.

Definition term_step (x : tstate) (e : cevent) : tstate :=
  let '(t, r, ls) := x in
  match e, r with
  | CType cs, _ => (fold_left type_char cs t, r, ls)
  | CRead n, Idle => term_read n (Z.to_nat n) [] t ls
  | CWake, Waiting target n got => term_read target n got t ls
  | _, _ => x
  end.

Definition term_run (es : list cevent) : tstate := fold_left term_step es (mkTerm [] [], Idle, []).

(** ** The ring *)

(** The indices without wrap-around. *)
Definition ring (inp : input) (R W E : Z) : Prop :=
  0 <= R <= W /\ W <= E <= R + INPUT_BUF /\
  in_r inp = u32 R /\ in_w inp = u32 W /\ in_e inp = u32 E /\ length (in_buf inp) = Z.to_nat INPUT_BUF.

Definition chars (inp : input) (a b : Z) : list Z :=
  (fun i => input_at inp (a + Z.of_nat i)) <$> seq 0 (Z.to_nat (b - a)).

Definition shows (inp : input) (t : term) : Prop :=
  exists R W E, ring inp R W E /\ chars inp R W = t_ready t /\ chars inp W E = t_line t /\ 10 ∉ t_line t.

Lemma u32_mod_buf z : u32 z mod INPUT_BUF = z mod INPUT_BUF.
Proof. unfold u32, INPUT_BUF. Z.to_euclidean_division_equations. lia. Qed.

Lemma input_at_u32 inp z : input_at inp (u32 z) = input_at inp z.
Proof. unfold input_at. by rewrite u32_mod_buf. Qed.

Lemma u32_step z k : u32 (u32 z + k) = u32 (z + k).
Proof. unfold u32. apply Zplus_mod_idemp_l. Qed.

Lemma u32_pred z : u32 (u32 z - 1) = u32 (z - 1).
Proof. apply (u32_step z (-1)). Qed.

Lemma u32_diff a b : 0 <= a - b < 2 ^ 32 -> u32 (u32 a - u32 b) = a - b.
Proof. intros H. unfold u32. rewrite <- Zminus_mod. by apply Z.mod_small. Qed.

Lemma u32_eqb a b : 0 <= a - b < 2 ^ 32 -> (u32 a =? u32 b) = (a =? b).
Proof.
  intros H. destruct (Z.eqb_spec a b) as [->|Hne]; [apply Z.eqb_refl|]. apply Z.eqb_neq. intros E.
  pose proof (u32_diff a b H) as D. rewrite E, Z.sub_diag in D. change (u32 0) with 0 in D. lia.
Qed.

Lemma length_chars inp a b : length (chars inp a b) = Z.to_nat (b - a).
Proof. unfold chars. by rewrite length_fmap, length_seq. Qed.

Lemma chars_nil inp a : chars inp a a = [].
Proof. unfold chars. by rewrite Z.sub_diag. Qed.

Lemma chars_app inp a b c : a <= b <= c -> chars inp a c = chars inp a b ++ chars inp b c.
Proof.
  intros H. unfold chars. replace (Z.to_nat (c - a)) with (Z.to_nat (b - a) + Z.to_nat (c - b))%nat by lia.
  rewrite seq_app, fmap_app. f_equal. rewrite Nat.add_0_l. rewrite <- (Nat.add_0_r (Z.to_nat (b - a))), <- fmap_add_seq.
  rewrite <- list_fmap_compose. apply list_fmap_ext. intros i k _. simpl. f_equal. lia.
Qed.

Lemma chars_one inp a : chars inp a (a + 1) = [input_at inp a].
Proof. unfold chars. replace (Z.to_nat (a + 1 - a)) with 1%nat by lia. simpl. by rewrite Z.add_0_r. Qed.

Lemma chars_cons inp a b : a < b -> chars inp a b = input_at inp a :: chars inp (a + 1) b.
Proof. intros H. rewrite (chars_app inp a (a + 1) b) by lia. by rewrite chars_one. Qed.

Lemma chars_snoc inp a b : a <= b -> chars inp a (b + 1) = chars inp a b ++ [input_at inp b].
Proof. intros H. rewrite (chars_app inp a b) by lia. by rewrite chars_one. Qed.

(** The indices do not matter for the characters. *)
Lemma chars_buf inp inp' a b : in_buf inp = in_buf inp' -> chars inp a b = chars inp' a b.
Proof. intros E. unfold chars, input_at. by rewrite E. Qed.

(** Storing a character at [E]. *)
Definition stored_at (inp : input) (c : Z) : input :=
  inp <| in_buf ::= <[Z.to_nat (in_e inp mod INPUT_BUF) := u8 c]> |> <| in_e ::= fun e => u32 (e + 1) |>.

Lemma stored_buf inp c E :
  in_e inp = u32 E -> length (in_buf inp) = Z.to_nat INPUT_BUF ->
  input_at (stored_at inp c) E = u8 c /\
  forall a b, E - INPUT_BUF < a -> b <= E -> chars (stored_at inp c) a b = chars inp a b.
Proof.
  intros He Hl. assert (forall z, (Z.to_nat (z mod INPUT_BUF) < length (in_buf inp))%nat) as Hlt.
  { intros z. rewrite Hl. unfold INPUT_BUF. pose proof (Z.mod_pos_bound z 128). lia. }
  split.
  - unfold input_at, stored_at. simpl. rewrite He, u32_mod_buf, nth_insert by done. by rewrite Nat.eqb_refl.
  - intros a b Ha Hb. unfold chars. apply list_fmap_ext. intros i k Hk. apply lookup_seq in Hk as [-> Hk]. simpl.
    unfold input_at, stored_at. simpl. rewrite He, u32_mod_buf, nth_insert by done.
    destruct (Nat.eqb_spec (Z.to_nat ((a + Z.of_nat i) mod INPUT_BUF)) (Z.to_nat (E mod INPUT_BUF))) as [Eq|]; [|done].
    exfalso. unfold INPUT_BUF in *. Z.to_euclidean_division_equations. lia.
Qed.

(** ** Typing *)

(** What typing leaves alone. *)
Definition typed (s s' : kst) : Prop :=
  (k_cpuid s', k_cpu s', k_locks s') = (k_cpuid s, k_cpu s, k_locks s) /\
  (k_sleep s', k_proc s', k_icache s') = (k_sleep s, k_proc s, k_icache s) /\
  (pts s' = pts s \/ pts s' = wake_proc ChInput <$> pts s).

Lemma wake_proc_twice c p : wake_proc c (wake_proc c p) = wake_proc c p.
Proof. unfold wake_proc. destruct (sleeps_on c p) eqn:E; [done|by rewrite E]. Qed.

Lemma typed_refl s : typed s s.
Proof. split_and!; eauto. Qed.

Lemma typed_trans s1 s2 s3 : typed s1 s2 -> typed s2 s3 -> typed s1 s3.
Proof.
  intros (A1 & A2 & A3) (B1 & B2 & B3). split_and!; [congruence|congruence|].
  destruct A3 as [A3|A3], B3 as [B3|B3]; rewrite B3, A3; auto. right. rewrite <- list_fmap_compose.
  apply list_fmap_ext. intros i p _. apply wake_proc_twice.
Qed.

Lemma typed_calm s s' : typed s s' -> calm s -> calm s'.
Proof. intros ([= _ E1 E2] & _ & _) (H1 & H2 & H3). split; [|split]; congruence. Qed.

Lemma typed_woken s : typed s (woken ChInput s).
Proof. split_and!; try done. by right. Qed.

Lemma typed_length s s' : typed s s' -> length (pts s') = length (pts s).
Proof. intros (_ & _ & [->| ->]); [done|apply length_fmap]. Qed.

(** If more can be read, the sleeping readers have been woken. *)
Definition heard (t : term) (s s' : kst) (t' : term) : Prop :=
  t_ready t' = t_ready t \/ pts s' = wake_proc ChInput <$> pts s.

Lemma heard_trans t s1 t1 s2 t2 s3 : heard t s1 s2 t1 -> typed s1 s2 -> heard t1 s2 s3 t2 -> typed s2 s3 -> heard t s1 s3 t2.
Proof.
  intros Ha Ta Hb Tb. pose proof (typed_trans _ _ _ Ta Tb) as (_ & _ & [E|E]); [|by right].
  destruct Ta as (_ & _ & Ta), Tb as (_ & _ & Tb). unfold heard in *.
  destruct Ha as [Ha|Ha], Hb as [Hb|Hb]; [left; congruence|right..].
  - rewrite Hb. destruct Ta as [->| ->]; [done|]. rewrite <- list_fmap_compose. apply list_fmap_ext. intros i p _. apply wake_proc_twice.
  - rewrite <- Ha. destruct Tb as [->| ->]; [done|]. rewrite Ha, <- list_fmap_compose. apply list_fmap_ext. intros i p _. apply wake_proc_twice.
  - rewrite Hb, Ha, <- list_fmap_compose. apply list_fmap_ext. intros i p _. apply wake_proc_twice.
Qed.

(** The input changed by [f] and the characters [l] echoed. *)
Definition keyed (f : input -> input) (l : list Z) (s : kst) : kst := s <| k_input ::= f |> <| k_out ::= app l |>.

Lemma typed_keyed f l s : typed s (keyed f l s).
Proof. split_and!; try done. by left. Qed.

Lemma rubout_run s :
  rubout (lock_st LCons s) = Ok tt (lock_st LCons (keyed (fun inp => inp <| in_e ::= fun e => u32 (e - 1) |>) [BACKSPACE] s)).
Proof. done. Qed.

Lemma removelast_snoc {A} (l : list A) x : removelast (l ++ [x]) = l.
Proof. rewrite removelast_app by done. simpl. apply app_nil_r. Qed.

(** One character less. *)
Lemma shows_rubout inp t R W E :
  ring inp R W E -> chars inp R W = t_ready t -> chars inp W E = t_line t -> 10 ∉ t_line t -> W < E ->
  let inp' := inp <| in_e ::= fun e => u32 (e - 1) |> in
  ring inp' R W (E - 1) /\ chars inp' R W = t_ready t /\ chars inp' W (E - 1) = removelast (t_line t) /\
  10 ∉ removelast (t_line t).
Proof.
  intros (H1 & H2 & Hr & Hw & He & Hl) HR HL Hn HWE inp'.
  assert (chars inp' W (E - 1) = removelast (t_line t)) as HL'.
  { rewrite <- HL. replace E with (E - 1 + 1) at 2 by lia. rewrite chars_snoc by lia. rewrite removelast_snoc. by apply chars_buf. }
  split_and!; try done; try lia.
  - split_and!; try done; try lia. change (u32 (in_e inp - 1) = u32 (E - 1)). rewrite He. apply u32_pred.
  - rewrite <- HL'. rewrite (chars_buf inp' inp) by done. rewrite <- HL in Hn.
    replace E with (E - 1 + 1) in Hn by lia. rewrite chars_snoc in Hn by lia. set_solver.
Qed.

(** Deleting the line stops at its beginning. *)
Lemma kill_line_run n s t R W E :
  calm s -> ring (k_input s) R W E -> chars (k_input s) R W = t_ready t -> chars (k_input s) W E = t_line t ->
  10 ∉ t_line t -> E - W <= Z.of_nat n ->
  exists s', kill_line n (lock_st LCons s) = Ok tt (lock_st LCons s') /\ typed s s' /\
    shows (k_input s') (mkTerm (t_ready t) []).
Proof.
  revert s t E. induction n as [|n IH]; intros s t E Hc Hg HR HL Hn HE;
    pose proof Hg as (H1 & H2 & Hr & Hw & He & Hl); unfold INPUT_BUF in *.
  - simpl. mstep. change (k_input (lock_st LCons s)) with (k_input s). rewrite Hw, He, u32_eqb by lia.
    rewrite (proj2 (Z.eqb_eq _ _)) by lia. cbv [andb negb]. exists s. split; [done|]. split; [apply typed_refl|].
    assert (E = W) as -> by lia. exists R, W, W. split_and!; try done; [apply chars_nil|set_solver].
  - cbn [kill_line]. mstep. change (k_input (lock_st LCons s)) with (k_input s). rewrite Hw, He, u32_eqb by lia.
    destruct (Z.eqb_spec E W) as [->|Hne]; cbv [andb negb].
    { exists s. split; [done|]. split; [apply typed_refl|]. exists R, W, W. split_and!; try done; [apply chars_nil|set_solver]. }
    rewrite u32_pred, input_at_u32. rewrite (proj2 (Z.eqb_neq _ 10)); cbv iota.
    + rewrite (bind_ok _ _ _ _ _ (rubout_run s)).
      destruct (shows_rubout _ t R W E Hg HR HL Hn ltac:(lia)) as (G' & HR' & HL' & Hn').
      set (s1 := keyed _ _ s). change (k_input s1) with ((k_input s) <| in_e ::= fun e => u32 (e - 1) |>) in *.
      destruct (IH s1 (mkTerm (t_ready t) (removelast (t_line t))) (E - 1)) as (s' & Hrun & Ht & Hs); try done; [lia|].
      exists s'. split; [exact Hrun|]. split; [|exact Hs]. eapply typed_trans; [apply typed_keyed|exact Ht].
    + rewrite <- HL in Hn. replace E with (E - 1 + 1) in Hn by lia. rewrite chars_snoc in Hn by lia. set_solver.
Qed.

(** A character added to the line, and a line handed over. *)
Lemma shows_stored inp t R W E c :
  ring inp R W E -> chars inp R W = t_ready t -> chars inp W E = t_line t -> E - R < INPUT_BUF -> is_u8 c ->
  ring (stored_at inp c) R W (E + 1) /\ chars (stored_at inp c) R W = t_ready t /\
  chars (stored_at inp c) W (E + 1) = t_line t ++ [c].
Proof.
  intros (H1 & H2 & Hr & Hw & He & Hl) HR HL HE Hc.
  destruct (stored_buf inp c E He Hl) as [Hat Hbuf]. split_and!.
  - split_and!; try done; try lia.
    + change (u32 (in_e inp + 1) = u32 (E + 1)). rewrite He. apply u32_step.
    + change (length (<[Z.to_nat (in_e inp mod INPUT_BUF) := u8 c]> (in_buf inp)) = Z.to_nat INPUT_BUF).
      by rewrite length_insert.
  - rewrite Hbuf by lia. done.
  - rewrite chars_snoc, Hbuf, Hat, HL, u8_small by (done || lia). done.
Qed.

Lemma shows_committed inp R W E l :
  ring inp R W E -> chars inp R E = l -> shows (inp <| in_w := in_e inp |>) (mkTerm l []).
Proof.
  intros (H1 & H2 & Hr & Hw & He & Hl) Ht.
  exists R, E, E. split_and!.
  - split_and!; try done; lia.
  - rewrite <- Ht. by apply chars_buf.
  - apply chars_nil.
  - set_solver.
Qed.

Lemma length_shown inp R W E : ring inp R W E -> Z.of_nat (length (chars inp R W ++ chars inp W E)) = E - R.
Proof. intros (H1 & H2 & _). rewrite length_app, !length_chars. lia. Qed.

Lemma enter_char_run c s t :
  calm s -> shows (k_input s) t -> is_u8 c -> c <> ctrl 80 -> c <> ctrl 85 -> c <> ctrl 72 -> c <> 127 ->
  exists s', enter_char c (lock_st LCons s) = Ok tt (lock_st LCons s') /\ typed s s' /\
    shows (k_input s') (type_char t c) /\ heard t s s' (type_char t c).
Proof.
  intros Hc (R & W & E & Hg & HR & HL & Hn) Hu HP HU HH HD. pose proof Hg as (H1 & H2 & Hr & Hw & He & Hl).
  unfold type_char. rewrite !(proj2 (Z.eqb_neq _ _)) by done. change (false || false) with false. cbv iota zeta.
  unfold enter_char. mstep. change (k_input (lock_st LCons s)) with (k_input s).
  rewrite Hr, He, u32_diff by (unfold INPUT_BUF in *; lia).
  assert (Z.of_nat (length (t_ready t ++ t_line t)) = E - R) as Hlen0 by (rewrite <- HR, <- HL; by apply length_shown).
  rewrite Hlen0.
  destruct (nz c && (E - R <? INPUT_BUF)) eqn:Eroom; unfold when; cycle 1.
  { exists s. split; [done|]. split; [apply typed_refl|]. split; [by exists R, W, E|by left]. }
  apply andb_true_iff in Eroom as [_ HE%Z.ltb_lt]. set (c' := if c =? 13 then 10 else c).
  assert (is_u8 c') as Hu' by (unfold c', is_u8 in *; destruct (c =? 13); lia).
  destruct (shows_stored _ t R W E c' Hg HR HL HE Hu') as (Hg' & HR' & HL').
  unfold set_input. mstep. unfold consputc. mstep.
  set (s1 := keyed (fun inp => stored_at inp c') [c'] s). change (_ <| k_out ::= cons c' |>) with (lock_st LCons s1).
  change (k_input (lock_st LCons s1)) with (stored_at (k_input s) c').
  change (in_e (stored_at (k_input s) c')) with (u32 (in_e (k_input s) + 1)).
  change (in_r (stored_at (k_input s) c')) with (in_r (k_input s)).
  rewrite He, Hr, !u32_step, (Z.eqb_sym (u32 (E + 1))), u32_eqb by (unfold INPUT_BUF in *; lia).
  assert (Z.of_nat (length (t_ready t ++ t_line t ++ [c'])) = E + 1 - R) as Hlen.
  { rewrite app_assoc, length_app. simpl. lia. }
  rewrite Hlen. replace (E + 1 - R =? INPUT_BUF) with (R + INPUT_BUF =? E + 1)
    by (apply Bool.eq_iff_eq_true; rewrite !Z.eqb_eq; lia).
  destruct ((c' =? 10) || (c' =? ctrl 68) || (R + INPUT_BUF =? E + 1)) eqn:Ecom.
  - mstep. set (s2 := keyed (fun inp => inp <| in_w := in_e inp |>) [] s1).
    change (_ <| k_input ::= _ |>) with (lock_st LCons s2). exists (woken ChInput s2). split; [|split; [|split]].
    + by apply (nested_wakeup ChInput LCons s2).
    + eapply typed_trans; [apply typed_keyed|]. eapply typed_trans; [apply typed_keyed|]. apply typed_woken.
    + assert (chars (stored_at (k_input s) c') R (E + 1) = t_ready t ++ t_line t ++ [c']) as Hall
        by (rewrite (chars_app _ R W (E + 1)) by lia; by rewrite HR', HL').
      exact (shows_committed _ R W (E + 1) _ Hg' Hall).
    + by right.
  - exists s1. split; [done|]. split; [apply typed_keyed|]. split; [|by left]. exists R, W, (E + 1). split_and!; try done.
    simpl. apply orb_false_iff in Ecom as [[Ec%Z.eqb_neq _]%orb_false_iff _]. set_solver.
Qed.

Lemma intr_char_run c s t :
  calm s -> shows (k_input s) t -> is_u8 c ->
  exists d s', intr_char c (lock_st LCons s) = Ok d (lock_st LCons s') /\ typed s s' /\
    shows (k_input s') (type_char t c) /\ heard t s s' (type_char t c).
Proof.
  intros Hc Ht Hu. unfold intr_char. destruct (Z.eqb_spec c (ctrl 80)) as [EP|HP].
  { exists true, s. unfold type_char, heard. rewrite (proj2 (Z.eqb_eq _ _) EP). split; [done|]. split; [apply typed_refl|]. auto. }
  exists false. destruct (Z.eqb_spec c (ctrl 85)) as [EU|HU].
  { destruct Ht as (R & W & E & Hg & HR & HL & Hn). mstep. change (k_input (lock_st LCons s)) with (k_input s).
    pose proof Hg as (H1 & H2 & Hr & Hw & He & _). rewrite Hw, He, u32_diff by (unfold INPUT_BUF in *; lia).
    destruct (kill_line_run (Z.to_nat (E - W)) s t R W E) as (s' & Hrun & Hty & Hs); try done; [lia|].
    exists s'. rewrite (bind_ok _ _ _ _ _ Hrun). split; [done|]. split; [done|].
    unfold type_char. rewrite (proj2 (Z.eqb_neq c (ctrl 80))), (proj2 (Z.eqb_eq _ _) EU) by done. split; [done|by left]. }
  destruct ((c =? ctrl 72) || (c =? 127)) eqn:EH.
  { destruct Ht as (R & W & E & Hg & HR & HL & Hn). mstep. change (k_input (lock_st LCons s)) with (k_input s).
    pose proof Hg as (H1 & H2 & Hr & Hw & He & _). rewrite Hw, He, u32_eqb by (unfold INPUT_BUF in *; lia).
    unfold type_char. rewrite (proj2 (Z.eqb_neq c (ctrl 80))), (proj2 (Z.eqb_neq c (ctrl 85))), EH by done.
    destruct (Z.eqb_spec E W) as [->|Hne]; cbv [negb when].
    - exists s. split; [done|]. split; [apply typed_refl|]. split; [|by left]. exists R, W, W. rewrite chars_nil in HL. split_and!; try done.
      + simpl. rewrite <- HL. apply chars_nil.
      + simpl. rewrite <- HL. set_solver.
    - rewrite (bind_ok _ _ _ _ _ (rubout_run s)). eexists. split; [done|]. split; [apply typed_keyed|]. split; [|by left].
      destruct (shows_rubout _ t R W E Hg HR HL Hn ltac:(lia)) as (G' & HR' & HL' & Hn').
      by exists R, W, (E - 1). }
  apply orb_false_iff in EH as [HH%Z.eqb_neq HD%Z.eqb_neq].
  destruct (enter_char_run c s t Hc Ht Hu HP HU HH HD) as (s' & Hrun & Hty & Hs).
  exists s'. by rewrite (bind_ok _ _ _ _ _ Hrun).
Qed.

Lemma intr_loop_run cs : forall d s t,
  calm s -> shows (k_input s) t -> Forall is_u8 cs ->
  exists d' s', intr_loop cs d (lock_st LCons s) = Ok d' (lock_st LCons s') /\ typed s s' /\
    shows (k_input s') (fold_left type_char cs t) /\ heard t s s' (fold_left type_char cs t).
Proof.
  induction cs as [|c cs IH]; intros d s t Hc Ht Hok; cbn [intr_loop fold_left].
  { exists d, s. split; [done|]. split; [apply typed_refl|]. split; [done|by left]. }
  apply Forall_cons_1 in Hok as [Hk Hok]. destruct (intr_char_run c s t Hc Ht Hk) as (d1 & s1 & Hrun & Hty & Hs & Hh).
  rewrite (bind_ok _ _ _ _ _ Hrun). destruct (IH (d || d1) s1 _ (typed_calm _ _ Hty Hc) Hs Hok) as (d' & s' & Hrun' & Hty' & Hs' & Hh').
  exists d', s'. split; [exact Hrun'|]. split; [by eapply typed_trans|]. split; [done|by eapply heard_trans].
Qed.

(** ** The process listing *)

(** Printing that only adds to the output. *)
Definition prints (m : K unit) : Prop := forall s, exists o, m s = Ok tt (s <| k_out := o |>).

Lemma prints_bind m m' : prints m -> prints m' -> prints (m ;; m').
Proof.
  intros H H' s. destruct (H s) as [o E]. rewrite (bind_ok _ _ _ _ _ E). cbv beta. destruct (H' (s <| k_out := o |>)) as [o' ->].
  exists o'. by destruct s.
Qed.

Lemma prints_ret : prints (ret tt).
Proof. intros s. exists (k_out s). by destruct s. Qed.

Lemma prints_putc c : prints (consputc c).
Proof. intros s. eexists. unfold consputc, modify. by destruct s. Qed.

Lemma prints_puts l : prints (for_each l consputc).
Proof. intros s. rewrite putc_run. eexists. by destruct s. Qed.

Lemma prints_int xx : prints (printint xx 10 true) /\ prints (printint xx 16 false).
Proof.
  pose proof (printint_length digits 10 true xx 10 ltac:(lia) ltac:(lia) ltac:(lia)) as L1.
  pose proof (printint_length digits 16 false xx 8 ltac:(lia) ltac:(lia) ltac:(lia)) as L2. cbv iota in L1, L2.
  unfold printint, BUFLEN. rewrite !(proj2 (Nat.ltb_ge _ _)) by lia. split; apply prints_puts.
Qed.

Create HintDb prints.
#[local] Hint Resolve prints_bind prints_ret prints_putc prints_puts : prints.
#[local] Hint Extern 1 (prints (printint _ 10 true)) => apply prints_int : prints.
#[local] Hint Extern 1 (prints (printint _ 16 false)) => apply prints_int : prints.

(** In a process that holds no lock. *)
Lemma cprintf_calm fmt args s : prints (cprintf_loop fmt args) -> calm s -> exists o, cprintf fmt args s = Ok tt (s <| k_out := o |>).
Proof.
  intros Hp Hc. unfold cprintf. rewrite bind_gets. destruct (k_locking s); cbv [when].
  - rewrite (bind_ok _ _ _ _ _ (calm_acquire LCons s Hc)). destruct (Hp (lock_st LCons s)) as [o Eo].
    rewrite (bind_ok _ _ _ _ _ Eo). exists o.
    change ((lock_st LCons s) <| k_out := o |>) with (lock_st LCons (s <| k_out := o |>)). by apply (leave LCons s).
  - rewrite bind_ret. destruct (Hp s) as [o Eo]. rewrite (bind_ok _ _ _ _ _ Eo). by exists o.
Qed.

(** [calm_prints m]: the same, of a routine that takes the lock itself. *)
Definition calm_prints (m : K unit) : Prop := forall s, calm s -> length (pts s) = NPROC -> exists o, m s = Ok tt (s <| k_out := o |>).

Lemma calm_prints_bind m m' : calm_prints m -> calm_prints m' -> calm_prints (m ;; m').
Proof.
  intros H H' s Hc Hl. destruct (H s Hc Hl) as [o E]. rewrite (bind_ok _ _ _ _ _ E). cbv beta.
  set (s1 := s <| k_out := o |>). destruct (H' s1 Hc Hl) as [o' ->]. exists o'. by destruct s.
Qed.

Lemma calm_prints_ret : calm_prints (ret tt).
Proof. intros s _ _. apply prints_ret. Qed.

Lemma calm_prints_pcs pcs : calm_prints (print_pcs pcs).
Proof.
  induction pcs as [|pc pcs IH]; cbn [print_pcs]; [apply calm_prints_ret|]. destruct (pc =? 0); [apply calm_prints_ret|].
  apply calm_prints_bind; [|exact IH]. intros s Hc _. change (str " %p") with [32; 37; 112]. apply cprintf_calm; [|done]. cbn. auto 10 with prints.
Qed.

Lemma procdump_run : calm_prints procdump.
Proof.
  unfold procdump. assert (forall i, i ∈ all_procs -> (i < NPROC)%nat) as Hlt by (intros i [_ Hi]%elem_of_seq; done).
  revert Hlt. generalize all_procs as l. induction l as [|i l IH]; intros Hlt; [apply calm_prints_ret|]. cbn [for_each].
  apply calm_prints_bind; [|apply IH; intros j Hj; apply Hlt; by right]. intros s Hc Hl.
  destruct (lookup_lt_is_Some_2 (pts s) i) as [p Hp]; [rewrite Hl; apply Hlt; by left|]. mcall get_proc_run; [|exact Hp].
  destruct (st_eqb (p_state p) UNUSED); [by apply calm_prints_ret|]. revert s Hc Hl Hp. intros s Hc Hl _. revert s Hc Hl.
  change (str "%d %s %s") with [37; 100; 32; 37; 115; 32; 37; 115].
  apply calm_prints_bind; [intros s Hc _; apply cprintf_calm; [cbn; auto 20 with prints|done]|]. apply calm_prints_bind.
  - destruct (st_eqb (p_state p) SLEEPING); [|apply calm_prints_ret]. intros s Hc Hl. unfold when. rewrite bind_gets. by apply calm_prints_pcs.
  - intros s Hc _. apply cprintf_calm; [cbn; auto with prints|done].
Qed.

Lemma consoleintr_run cs s t :
  calm s -> length (pts s) = NPROC -> shows (k_input s) t -> Forall is_u8 cs ->
  exists s', consoleintr cs s = Ok tt s' /\ typed s s' /\ shows (k_input s') (fold_left type_char cs t) /\
    heard t s s' (fold_left type_char cs t).
Proof.
  intros Hc Hl Ht Hok. unfold consoleintr. mcall calm_acquire; [|done].
  destruct (intr_loop_run cs false s t Hc Ht Hok) as (d & s' & Hrun & Hty & Hs). rewrite (bind_ok _ _ _ _ _ Hrun).
  pose proof (typed_calm s s' Hty Hc) as Hc'.
  erewrite bind_ok; [|by apply (leave LCons s')]. cbv beta. destruct d; [|by exists s'].
  destruct (procdump_run s' Hc') as [o E]; [by rewrite (typed_length s)|]. exists (s' <| k_out := o |>). split; [exact E|]. done.
Qed.

(** ** Reading *)

(** A process that reads, with the console's inode locked. *)
Definition console_at (me ip : nat) (s : kst) : Prop :=
  ready me s /\ is_Some (k_sleep s !! SlInode ip) /\
  exists i, k_icache s !! ip = Some i /\ 1 <= i_ref i /\ nz (Z.land (i_flags i) I_VALID) = true.

Section Driver.
Context `{BlockDriver}.

Lemma inode_at_run ip i s : k_icache s !! ip = Some i -> get_inode ip s = Ok i s.
Proof. intros E. unfold get_inode, nth_ok, inodes. by rewrite bind_get, E. Qed.

Lemma iunlock_held me ip s :
  console_at me ip s -> iunlock ip s = Ok tt (woken (ChSleep (SlInode ip)) (s <| k_sleep ::= delete (SlInode ip) |>)).
Proof.
  intros ((Hc & _) & Hl & i & Hi & Hr & _). unfold iunlock. rewrite (bind_ok _ _ _ _ _ (holdingsleep_run _ s Hc)).
  rewrite bool_decide_eq_true_2 by done. rewrite (bind_ok _ _ _ _ _ (inode_at_run ip i s Hi)).
  rewrite (proj2 (Z.ltb_ge _ _)) by lia. simpl. by apply releasesleep_run.
Qed.

(** Between [iunlock] and [ilock]. *)
Definition console_free (me ip : nat) (s : kst) : Prop :=
  ready me s /\ k_sleep s !! SlInode ip = None /\
  exists i, k_icache s !! ip = Some i /\ 1 <= i_ref i /\ nz (Z.land (i_flags i) I_VALID) = true.

Lemma ilock_cached me ip s :
  console_free me ip s -> exists s', ilock ip s = Ok tt s' /\ k_input s' = k_input s /\ console_at me ip s'.
Proof.
  intros ((Hc & Hme & pr & Hpr & Hk) & Hl & i & Hi & Hr & Hv). unfold ilock.
  rewrite (bind_ok _ _ _ _ _ (inode_at_run ip i s Hi)). rewrite (proj2 (Z.ltb_ge _ _)) by lia.
  rewrite (bind_ok _ _ _ _ _ (acquiresleep_run (SlInode ip) me pr s Hc Hl Hme Hpr)).
  erewrite bind_ok; [|by apply (inode_at_run ip i)]. cbv beta.
  pose proof Hv as Hv'. unfold nz in Hv'. apply negb_true_iff in Hv'. rewrite Hv'. eexists. split; [done|]. split; [done|].
  split; [split; [exact Hc|split; [done|by exists pr]]|]. split; [|by exists i]. simpl. rewrite lookup_insert_eq. by eexists.
Qed.

Lemma console_freed me ip s :
  console_at me ip s -> console_free me ip (woken (ChSleep (SlInode ip)) (s <| k_sleep ::= delete (SlInode ip) |>)).
Proof.
  intros (Hr & _ & Hi). split; [|split].
  - by apply woken_ready.
  - simpl. apply lookup_delete_eq.
  - exact Hi.
Qed.

(** The state with [n] more characters read. *)
Definition took (n : Z) (s : kst) : kst := s <| k_input ::= fun inp => inp <| in_r := u32 (in_r inp + n) |> |>.

Lemma consoleread_done_run me ip got s :
  console_free me ip s ->
  exists s', consoleread_done ip got (lock_st LCons s) = Ok (Some got) s' /\ k_input s' = k_input s /\ console_at me ip s'.
Proof.
  intros Hf. pose proof Hf as ((Hc & _) & _). unfold consoleread_done.
  erewrite bind_ok; [|by apply (leave LCons s)]. cbv beta.
  destruct (ilock_cached me ip s Hf) as (s' & E & Hi & Hat). rewrite (bind_ok _ _ _ _ _ E). by exists s'.
Qed.

Lemma shows_took inp t c q :
  shows inp t -> t_ready t = c :: q ->
  exists R W E, ring inp R W E /\ (u32 R =? u32 W) = false /\ input_at inp (u32 R) = c /\
    shows (inp <| in_r ::= fun r => u32 (r + 1) |>) (mkTerm q (t_line t)).
Proof.
  intros (R & W & E & Hg & HR & HL & Hn) Eq. pose proof Hg as (H1 & H2 & Hr & Hw & He & Hl).
  assert (R < W) as HRW.
  { rewrite Eq in HR. assert (length (chars inp R W) <> 0%nat) as Hlen by by rewrite HR. rewrite length_chars in Hlen. lia. }
  rewrite chars_cons in HR by done. rewrite Eq in HR. injection HR as Hc Hq.
  exists R, W, E. split_and!; try done.
  - rewrite Z.eqb_sym, u32_eqb by (unfold INPUT_BUF in *; lia). apply Z.eqb_neq. lia.
  - by rewrite input_at_u32.
  - exists (R + 1), W, E. split_and!.
    + split_and!; try done; try lia. change (u32 (in_r inp + 1) = u32 (R + 1)). rewrite Hr. apply u32_step.
    + simpl. rewrite <- Hq. by apply chars_buf.
    + simpl. rewrite <- HL. by apply chars_buf.
    + done.
Qed.

Lemma untake inp R W E :
  ring inp R W E ->
  (inp <| in_r ::= fun r => u32 (r + 1) |>) <| in_r ::= fun r => u32 (r - 1) |> = inp.
Proof.
  intros (_ & _ & Hr & _). destruct inp as [b r w e]. simpl in Hr. subst r.
  unfold set, set_in_r. simpl. f_equal. rewrite u32_step, u32_pred. f_equal. lia.
Qed.

(** What a read has taken from the ring. *)
Definition eaten (inp inp' : input) : list Z :=
  (fun i => input_at inp (in_r inp + Z.of_nat i)) <$> seq 0 (Z.to_nat (u32 (in_r inp' - in_r inp))).

Definition moved (k : nat) (inp : input) : input := inp <| in_r ::= fun r => u32 (r + Z.of_nat k) |>.

Lemma moved_add a b inp : moved a (moved b inp) = moved (b + a) inp.
Proof. destruct inp. unfold moved, set, set_in_r. simpl. f_equal. rewrite u32_step. f_equal. lia. Qed.

Lemma eaten_all inp t : shows inp t -> eaten inp (moved (length (t_ready t)) inp) = t_ready t.
Proof.
  intros (R & W & E & (H1 & H2 & Hr & Hw & He & Hl) & HR & _). unfold eaten. rewrite <- HR, length_chars. simpl. rewrite Hr, u32_step.
  rewrite u32_diff by (unfold INPUT_BUF in *; lia). unfold chars. replace (Z.to_nat _) with (Z.to_nat (W - R)) by lia.
  apply list_fmap_ext. intros i k _. unfold input_at. do 2 f_equal. by rewrite Zplus_mod, u32_mod_buf, <- Zplus_mod.
Qed.

(** With nothing to read, [consoleread] goes to sleep. *)
Lemma consoleread_starved me ip target n got s t :
  console_free me ip s -> ncli (k_cpu s) = 0 -> shows (k_input s) t -> t_ready t = [] ->
  exists s', consoleread_loop ip target (S n) got (lock_st LCons s) = Switch s' /\
    shows (k_input s') (mkTerm [] (t_line t)) /\ sleeps me ChInput (pts s) (pts s') /\ k_input s' = moved 0 (k_input s).
Proof.
  intros Hf Hncli (R & W & E & Hg & HR & HL & Hl) Eq. pose proof Hg as (H1 & H2 & Hr & Hw & _).
  assert (R = W) as -> by (rewrite Eq in HR; apply (f_equal length) in HR; rewrite length_chars in HR; simpl in HR; lia).
  destruct (sleep_locked me ChInput LCons s) as (s' & Es & [_ Hi] & Hsl); [apply Hf|done|done|]. exists s'. split; [|split; [|split; [done|]]].
  - cbn [consoleread_loop]. mstep. change (k_input (lock_st LCons s)) with (k_input s). rewrite Hr, Hw, Z.eqb_refl.
    mcall killed_run; [|apply Hf]. cbv iota. unfold bind at 1. by rewrite Es.
  - rewrite Hi. exists W, W, E. split_and!; try done. apply chars_nil.
  - rewrite Hi. destruct (k_input s) as [b r w e]. simpl in Hr |- *. unfold moved. simpl. rewrite Hr. unfold set, set_in_r. simpl.
    by rewrite u32_step, Z.add_0_r.
Qed.

(** The loop of [consoleread]: it returns, or takes all there is and goes to sleep. *)
Lemma consoleread_loop_run me ip target n : forall got s t,
  console_free me ip s -> ncli (k_cpu s) = 0 -> shows (k_input s) t -> Z.of_nat n <= target ->
  match read_line (negb (Z.of_nat n <? target)) n (t_ready t) with
  | Done l q => exists s', consoleread_loop ip target n got (lock_st LCons s) = Ok (Some (got ++ l)) s' /\
      shows (k_input s') (mkTerm q (t_line t))
  | More l m => exists s', consoleread_loop ip target n got (lock_st LCons s) = Switch s' /\
      shows (k_input s') (mkTerm [] (t_line t)) /\ sleeps me ChInput (pts s) (pts s') /\
      l = t_ready t /\ (n = length l + m)%nat /\ k_input s' = moved (length l) (k_input s)
  end.
Proof.
  induction n as [|n IH]; intros got s t Hf Hncli Ht Hn; cbn [read_line].
  { rewrite app_nil_r. destruct (consoleread_done_run me ip got s Hf) as (s' & E & Hi & _). exists s'. split; [exact E|]. rewrite Hi.
    by destruct t. }
  destruct (t_ready t) as [|c q0] eqn:Eq.
  { destruct (consoleread_starved me ip target n got s t Hf Hncli Ht Eq) as (s' & E & Hs & Hsl & Hi). exists s'. by split_and!. }
  destruct (shows_took _ t c q0 Ht Eq) as (R & W & E & Hg & Hne & Hc & Ht'). pose proof Hg as (_ & _ & Hr & Hw & _).
  cbn [consoleread_loop]. rewrite bind_gets. change (k_input (lock_st LCons s)) with (k_input s). rewrite Hr, Hw, Hne.
  cbv zeta. unfold set_input. rewrite bind_modify, Hc.
  set (s1 := s <| k_input ::= fun inp => inp <| in_r ::= fun r => u32 (r + 1) |> |>).
  change ((lock_st LCons s) <| k_input ::= ?f |>) with (lock_st LCons s1).
  assert (console_free me ip s1) as Hf1 by exact Hf.
  destruct (Z.eqb_spec c (ctrl 68)) as [->|Hd].
  - rewrite app_nil_r. destruct (Z.of_nat (S n) <? target); unfold when; mstep; cbv iota.
    + set (s2 := s1 <| k_input ::= fun inp => inp <| in_r ::= fun r => u32 (r - 1) |> |>).
      change ((lock_st LCons s1) <| k_input ::= ?f |>) with (lock_st LCons s2).
      destruct (consoleread_done_run me ip got s2) as (s' & E' & Hi & _); [exact Hf|]. exists s'. split; [exact E'|].
      rewrite Hi. change (k_input s2) with ((k_input s) <| in_r ::= fun r => u32 (r + 1) |> <| in_r ::= fun r => u32 (r - 1) |>).
      rewrite (untake _ R W E Hg), <- Eq. by destruct t.
    + destruct (consoleread_done_run me ip got s1 Hf1) as (s' & E' & Hi & _). exists s'. split; [exact E'|]. by rewrite Hi.
  - destruct (Z.eqb_spec c 10) as [->|Hnl].
    + destruct (consoleread_done_run me ip (got ++ [10]) s1 Hf1) as (s' & E' & Hi & _). exists s'. split; [exact E'|]. by rewrite Hi.
    + specialize (IH (got ++ [c]) s1 (mkTerm q0 (t_line t)) Hf1 Hncli Ht' ltac:(lia)).
      rewrite (proj2 (Z.ltb_lt _ _)) in IH by lia. cbn [negb t_ready t_line] in IH. destruct (read_line false n q0) as [l r|l m].
      * rewrite <- app_assoc in IH. exact IH.
      * destruct IH as (s' & E' & Hs & Hsl & -> & Hm & Hi). exists s'. split_and!; try done; [simpl; lia|]. rewrite Hi.
        exact (moved_add (length q0) 1 (k_input s)).
Qed.

(** ** The console in use *)

(** A process that comes back from its sleep in [consoleread], with the console's inode
    unlocked. *)
Definition console_back (me ip : nat) (s : kst) : Prop :=
  resumed me s /\ (exists pr, pts s !! me = Some pr /\ p_state pr = RUNNING) /\ k_sleep s !! SlInode ip = None /\
  exists i, k_icache s !! ip = Some i /\ 1 <= i_ref i /\ nz (Z.land (i_flags i) I_VALID) = true.

Definition awake (pr : proc) : Prop := p_state pr = RUNNABLE \/ p_state pr = RUNNING.

(** What the rest of the kernel may do to a process that sleeps: nothing, and when it has
    been woken run and preempt it. *)
Definition undisturbed (me : nat) (s s' : kst) : Prop :=
  forall pr, pts s !! me = Some pr -> exists pr', pts s' !! me = Some pr' /\ (pr' = pr \/ awake pr /\ awake pr').

Section Session.
Context (me ip : nat).

(** [session s r es ls]: keys typed, reads of process [me] from the console [ip] and anything
    else the kernel does that leaves the console alone have led to [s]; [es] are the events,
    [r] says where the reader is, and [ls] are the results of its reads. A read that goes to
    sleep is continued, when the process runs again, with the characters it has taken. *)
Inductive session : kst -> reader -> list cevent -> list (list Z) -> Prop :=
| session_start s : shows (k_input s) (mkTerm [] []) -> session s Idle [] []
| session_other s s' r es ls :
    session s r es ls -> k_input s' = k_input s -> (r <> Idle -> undisturbed me s s') -> session s' r es ls
| session_type s s' cs r es ls :
    session s r es ls -> calm s -> length (pts s) = NPROC -> Forall is_u8 cs -> consoleintr cs s = Ok tt s' ->
    session s' r (es ++ [CType cs]) ls
| session_read s s' n l es ls :
    session s Idle es ls -> console_at me ip s -> ncli (k_cpu s) = 0 -> 0 <= n -> consoleread ip n s = Ok (Some l) s' ->
    session s' Idle (es ++ [CRead n]) (ls ++ [l])
| session_read_sleep s s' n es ls :
    session s Idle es ls -> console_at me ip s -> ncli (k_cpu s) = 0 -> 0 <= n -> consoleread ip n s = Switch s' ->
    let l := eaten (k_input s) (k_input s') in
    session s' (Waiting n (Z.to_nat n - length l) l) (es ++ [CRead n]) ls
| session_resume s s' saved target n got l es ls :
    session s (Waiting target n got) es ls -> console_back me ip s ->
    consoleread_resume saved ip target n got s = Ok (Some l) s' -> session s' Idle (es ++ [CWake]) (ls ++ [l])
| session_resume_sleep s s' saved target n got es ls :
    session s (Waiting target n got) es ls -> console_back me ip s ->
    consoleread_resume saved ip target n got s = Switch s' ->
    let l := eaten (k_input s) (k_input s') in
    session s' (Waiting target (n - length l) (got ++ l)) (es ++ [CWake]) ls.

(** A waiting reader sleeps only while there is nothing to read. *)
Definition attends (s : kst) (t : term) (r : reader) : Prop :=
  match r with
  | Idle => True
  | Waiting target n _ => Z.of_nat n <= target /\ exists pr, pts s !! me = Some pr /\
      (p_state pr = SLEEPING /\ p_chan pr = Some ChInput /\ t_ready t = [] \/ awake pr)
  end.

Lemma attends_type s t r s' t' : attends s t r -> typed s s' -> heard t s s' t' -> attends s' t' r.
Proof.
  destruct r as [|target n got]; [done|]. intros (Hn & pr & Hpr & Hst) (_ & _ & Hty) Hh. split; [done|].
  assert (awake pr -> wake_proc ChInput pr = pr) as Hw.
  { intros Ha. unfold wake_proc, sleeps_on. by destruct Ha as [-> | ->]. }
  assert (forall pr, pts s !! me = Some pr -> (wake_proc ChInput <$> pts s) !! me = Some (wake_proc ChInput pr)) as Hf.
  { intros q Hq. by rewrite list_lookup_fmap, Hq. }
  destruct Hst as [(H1 & H2 & H3)|Ha].
  - assert (p_state (wake_proc ChInput pr) = RUNNABLE) as Hr.
    { unfold wake_proc, sleeps_on. rewrite H1, bool_decide_eq_true_2 by done. done. }
    destruct Hh as [Hh|Hh]; [|exists (wake_proc ChInput pr); rewrite Hh; split; [by apply Hf|right; by left]].
    destruct Hty as [-> | ->]; [exists pr; split; [done|]; left; split_and!; congruence|].
    exists (wake_proc ChInput pr). split; [by apply Hf|right; by left].
  - exists pr. split; [|by right]. destruct Hty as [-> | ->]; [done|]. by rewrite (Hf pr Hpr), Hw.
Qed.

(** What a call that has entered its loop does, in the terms of the editor. *)
Lemma read_simulates target n got s t ls r :
  console_free me ip s -> ncli (k_cpu s) = 0 -> shows (k_input s) t -> Z.of_nat n <= target ->
  consoleread_loop ip target n got (lock_st LCons s) = r ->
  match r with
  | Ok (Some l) s' => exists t', term_read target n got t ls = (t', Idle, ls ++ [l]) /\ shows (k_input s') t'
  | Switch s' => let l := eaten (k_input s) (k_input s') in
      exists t', term_read target n got t ls = (t', Waiting target (n - length l) (got ++ l), ls) /\ shows (k_input s') t' /\
        attends s' t' (Waiting target (n - length l) (got ++ l))
  | _ => False
  end.
Proof.
  intros Hf Hn Ht Hle E. pose proof (consoleread_loop_run me ip target n got s t Hf Hn Ht Hle) as HL. unfold term_read.
  destruct (read_line _ n (t_ready t)) as [l q|l m].
  - destruct HL as (s' & E' & Hs). rewrite E' in E. subst r. by eexists.
  - destruct HL as (s' & E' & Hs & Hsl & Hl & Hm & Hi). rewrite E' in E. subst r. cbv zeta.
    rewrite Hi, Hl, eaten_all by done. rewrite <- Hl. replace (n - length l)%nat with m by lia. eexists. split; [done|].
    rewrite <- Hi. split; [done|]. split; [lia|].
    destruct Hf as ((_ & _ & pr & Hpr & _) & _). eexists. split; [by rewrite Hsl, list_lookup_alter_eq, Hpr|]. by left.
Qed.

Lemma read_enter n s :
  console_at me ip s -> ncli (k_cpu s) = 0 ->
  exists s1, consoleread ip n s = consoleread_loop ip n (Z.to_nat n) [] (lock_st LCons s1) /\ console_free me ip s1 /\
    ncli (k_cpu s1) = 0 /\ k_input s1 = k_input s.
Proof.
  intros Hat Hn. eexists. split; [|split; [by apply (console_freed me ip s)|done]].
  unfold consoleread. rewrite (bind_ok _ _ _ _ _ (iunlock_held me ip s Hat)).
  pose proof (console_freed me ip s Hat) as ((Hc1 & _) & _). by rewrite (bind_ok _ _ _ _ _ (calm_acquire LCons _ Hc1)).
Qed.

Lemma resume_enter saved target n got s :
  console_back me ip s ->
  exists s1, consoleread_resume saved ip target n got s = consoleread_loop ip target n got (lock_st LCons s1) /\
    console_free me ip s1 /\ ncli (k_cpu s1) = 0 /\ k_input s1 = k_input s.
Proof.
  intros (Hr & _ & Hsl & i & Hi). destruct (sleep_resume_run saved LCons me s Hr ltac:(done)) as (s1 & E & Hr1 & Hn1 & _ & _ & [= E1 E2 E3]).
  exists s1. unfold consoleread_resume. rewrite (bind_ok _ _ _ _ _ E). split; [done|]. split; [|done].
  split; [done|]. rewrite E2, E3. eauto.
Qed.

Lemma session_simulates s r es ls :
  session s r es ls -> exists t, term_run es = (t, r, ls) /\ shows (k_input s) t /\ attends s t r.
Proof.
  induction 1 as [s Hs|s s' r es ls _ (t & Er & Ht & Ha) Hi Hu|s s' cs r es ls _ (t & Er & Ht & Ha) Hc Hl Hcs E
    |s s' n l es ls _ (t & Er & Ht & _) Hat Hn Hn0 E|s s' n es ls _ (t & Er & Ht & _) Hat Hn Hn0 E l
    |s s' saved target n got l es ls _ (t & Er & Ht & Ha & _) Hb E|s s' saved target n got es ls _ (t & Er & Ht & Ha & _) Hb E l];
    try (unfold term_run in *; rewrite fold_left_app, Er; cbn [fold_left term_step]).
  - by exists (mkTerm [] []).
  - exists t. split; [done|]. rewrite Hi. split; [done|]. destruct r as [|target n got]; [done|].
    destruct Ha as (Hn & pr & Hpr & Hst). split; [done|]. destruct (Hu ltac:(done) pr Hpr) as (pr' & Hpr' & [-> |[_ Haw]]); eauto.
  - destruct (consoleintr_run cs s t Hc Hl Ht Hcs) as (s1 & E1 & Hty & Hs1 & Hh). rewrite E1 in E. injection E as <-.
    eexists. split; [done|]. split; [done|by eapply attends_type].
  - destruct (read_enter n s Hat Hn) as (s1 & E1 & Hf & Hn1 & Hi). rewrite E1 in E. rewrite <- Hi in Ht.
    destruct (read_simulates n (Z.to_nat n) [] s1 t ls _ Hf Hn1 Ht ltac:(lia) E) as (t' & Et & Hs). by exists t'.
  - destruct (read_enter n s Hat Hn) as (s1 & E1 & Hf & Hn1 & Hi). rewrite E1 in E. rewrite <- Hi in Ht.
    destruct (read_simulates n (Z.to_nat n) [] s1 t ls _ Hf Hn1 Ht ltac:(lia) E) as (t' & Et & Hs). rewrite Hi in Et, Hs. by exists t'.
  - destruct (resume_enter saved target n got s Hb) as (s1 & E1 & Hf & Hn1 & Hi). rewrite E1 in E. rewrite <- Hi in Ht.
    destruct (read_simulates target n got s1 t ls _ Hf Hn1 Ht Ha E) as (t' & Et & Hs). by exists t'.
  - destruct (resume_enter saved target n got s Hb) as (s1 & E1 & Hf & Hn1 & Hi). rewrite E1 in E. rewrite <- Hi in Ht.
    destruct (read_simulates target n got s1 t ls _ Hf Hn1 Ht Ha E) as (t' & Et & Hs). rewrite Hi in Et, Hs. by exists t'.
Qed.

(** A call of the reader returns characters or goes to sleep. *)
Definition goes_on (r : res kst (option (list Z))) : Prop :=
  match r with Ok (Some _) _ | Switch _ => True | _ => False end.

Lemma read_goes_on target n got s t :
  console_free me ip s -> ncli (k_cpu s) = 0 -> shows (k_input s) t -> Z.of_nat n <= target ->
  goes_on (consoleread_loop ip target n got (lock_st LCons s)).
Proof.
  intros Hf Hn Ht Hle. pose proof (read_simulates target n got s t [] _ Hf Hn Ht Hle eq_refl) as HL.
  by destruct (consoleread_loop _ _ _ _ _) as [[l|] s'| | | |].
Qed.
End Session.

(** C23. The console implements a line editor. Keystrokes edit the current line with backspace
    and line-kill, or ask for a process listing, and hand the line over at a newline, an
    end-of-file mark or when the buffer is full; a read returns at most one line, and an
    end-of-file mark ends it; a read for which there is not enough input takes what there
    is and waits for more. Whatever is typed and read by one process, and however often it
    has to wait, the reads return what the editor specifies, across the wrap-around of the
    indices; the reader sleeps only while there is nothing to read, so that input that
    becomes available wakes it; and typing, a read and the continuation of a read always
    return or, the latter two, go to sleep. *)
Theorem console_refines_editor me ip s r es ls :
  session me ip s r es ls ->
  exists t, term_run es = (t, r, ls) /\ shows (k_input s) t /\ attends me s t r /\
    (forall cs, calm s -> length (pts s) = NPROC -> Forall is_u8 cs -> exists s', consoleintr cs s = Ok tt s') /\
    match r with
    | Idle => forall n, console_at me ip s -> ncli (k_cpu s) = 0 -> 0 <= n -> goes_on (consoleread ip n s)
    | Waiting target n got => forall saved, console_back me ip s -> goes_on (consoleread_resume saved ip target n got s)
    end.
Proof.
  intros Hs. destruct (session_simulates me ip s r es ls Hs) as (t & Er & Ht & Ha). exists t. do 3 (split; [done|]). split.
  - intros cs Hc Hl Hcs. destruct (consoleintr_run cs s t Hc Hl Ht Hcs) as (s' & E & _). by exists s'.
  - destruct r as [|target n got].
    + intros n Hat Hn Hn0. destruct (read_enter me ip n s Hat Hn) as (s1 & -> & Hf & Hn1 & Hi). rewrite <- Hi in Ht.
      eapply (read_goes_on me ip); [done|done|done|lia].
    + intros saved Hb. destruct (resume_enter me ip saved target n got s Hb) as (s1 & -> & Hf & Hn1 & Hi). rewrite <- Hi in Ht.
      destruct Ha as [Ha _]. by eapply (read_goes_on me ip).
Qed.
End Driver.

(** ** A run *)

(** A read of up to 100 characters, which sleeps; "lx", backspace, "s", a process listing,
    newline and an end-of-file mark are typed; the read goes on; two more reads. *)
Definition console_st : kst :=
  settled_proc <| k_sleep := {[SlInode 0 := 1]} |>
    <| k_icache ::= <[0%nat := (zero_inode <| i_ref := 1 |> <| i_flags := I_VALID |>)]> |>.

Definition asleep_st : kst := final (consoleread (H := memide_driver) 0 100 console_st).
Definition at_desk (s : kst) : kst := s <| k_locks := ∅ |> <| k_cpu := mkCpu 0 true true |> <| k_proc := None |>.
Definition desk_st : kst := at_desk asleep_st.
Definition keys : list Z := [108; 120; 127; 115; 16; 13; 4].
Definition typed_st : kst := final (consoleintr keys desk_st).
Definition returns (s : kst) : kst :=
  (with_proc 0 (fun p => p <| p_state := RUNNING |>) s)
    <| k_locks := {[LPtable := 0%nat]} |> <| k_cpu := mkCpu 1 true false |> <| k_proc := Some 0%nat |>.
Definition return_st : kst := returns typed_st.
Definition line_st : kst := final (consoleread_resume (H := memide_driver) true 0 100 100 [] return_st).
Definition eof_st : kst := final (consoleread (H := memide_driver) 0 1 line_st).

(** Runs that end as they should, by evaluation of how they end. *)
Lemma ends_ok {A} (m : K A) s a : match m s with Ok v _ => Some v | _ => None end = Some a -> m s = Ok a (final (m s)).
Proof. by destruct (m s); intros [= <-]. Qed.

(** The inode of the console, and process 0, in a state. *)
Definition inode_fine (s : kst) : option bool := (fun i => (1 <=? i_ref i) && nz (Z.land (i_flags i) I_VALID)) <$> k_icache s !! 0%nat.
Definition proc0 (s : kst) : option (procstate * Z) := (fun p => (p_state p, p_killed p)) <$> pts s !! 0%nat.

Lemma inode_fine_spec s :
  inode_fine s = Some true -> exists i, k_icache s !! 0%nat = Some i /\ 1 <= i_ref i /\ nz (Z.land (i_flags i) I_VALID) = true.
Proof. intros (i & Hi & [Hr%Z.leb_le Hv]%eq_sym%andb_true_iff)%fmap_Some. eauto. Qed.

Lemma proc0_spec s st : proc0 s = Some (st, 0) -> exists p, pts s !! 0%nat = Some p /\ p_state p = st /\ p_killed p = 0.
Proof. intros (p & Hp & [= -> ->])%fmap_Some. eauto. Qed.

Lemma console_at_spec s :
  k_locks s = ∅ -> k_cpu s = mkCpu 0 true true -> k_proc s = Some 0%nat -> proc0 s = Some (RUNNING, 0) ->
  k_sleep s !! SlInode 0 = Some 1 -> inode_fine s = Some true -> console_at 0 0 s.
Proof.
  intros Hl Hc Hme (pr & Hp & _ & Hk)%proc0_spec Hs Hi%inode_fine_spec. split; [|split; [by exists 1|done]].
  split; [split; [done|rewrite Hc; split; [split; simpl; lia|done]]|]. eauto.
Qed.

Lemma desk_input s : k_input (at_desk s) = k_input s.
Proof. done. Qed.

Lemma returns_input s : k_input (returns s) = k_input s.
Proof. done. Qed.

Lemma session_asleep : session (H := memide_driver) 0 0 asleep_st (Waiting 100 100 []) [CRead 100] [].
Proof.
  assert (eaten (k_input console_st) (k_input asleep_st) = []) as He by (vm_compute; reflexivity).
  assert (session (H := memide_driver) 0 0 console_st Idle [] []) as S0.
  { apply session_start. exists 0, 0, 0. split_and!; try done. set_solver. }
  assert (consoleread (H := memide_driver) 0 100 console_st = Switch asleep_st) as E.
  { unfold asleep_st. apply switch_final. vm_compute. reflexivity. }
  pose proof (session_read_sleep (H := memide_driver) 0 0 console_st asleep_st 100 [] [] S0) as S1. cbv zeta in S1. rewrite He in S1.
  apply S1; [|reflexivity|lia|exact E]. apply console_at_spec; vm_compute; reflexivity.
Qed.

Lemma session_typed : session (H := memide_driver) 0 0 typed_st (Waiting 100 100 []) [CRead 100; CType keys] [].
Proof.
  apply (session_type (H := memide_driver) 0 0 desk_st typed_st keys (Waiting 100 100 []) [CRead 100]).
  - apply (session_other (H := memide_driver) 0 0 asleep_st desk_st _ _ _ session_asleep); [apply desk_input|].
    intros _ pr Hpr. exists pr. split; [exact Hpr|by left].
  - split; [reflexivity|]. split; [split; simpl; lia|reflexivity].
  - vm_compute. reflexivity.
  - repeat constructor; unfold is_u8; lia.
  - unfold typed_st. apply (ends_ok (consoleintr keys) desk_st). vm_compute. reflexivity.
Qed.

Lemma session_line : session (H := memide_driver) 0 0 line_st Idle [CRead 100; CType keys; CWake] [[108; 115; 10]].
Proof.
  assert (proc0 typed_st = Some (RUNNABLE, 0)) as (p & Hp & Hst & _)%proc0_spec by (vm_compute; reflexivity).
  assert (proc0 return_st = Some (RUNNING, 0)) as (p' & Hp' & Hst' & Hk')%proc0_spec by (vm_compute; reflexivity).
  apply (session_resume (H := memide_driver) 0 0 return_st line_st true 100 100 [] [108; 115; 10] [CRead 100; CType keys] []).
  - apply (session_other (H := memide_driver) 0 0 typed_st return_st _ _ _ session_typed); [apply returns_input|].
    intros _ pr Hpr. assert (pr = p) as -> by congruence. exists p'. split; [exact Hp'|]. right. split; [by left|by right].
  - split; [|split; [|split]].
    + do 4 (split; [vm_compute; reflexivity|]). eauto.
    + eauto.
    + vm_compute. reflexivity.
    + apply inode_fine_spec. vm_compute. reflexivity.
  - unfold line_st. apply (ends_ok (consoleread_resume (H := memide_driver) true 0 100 100 []) return_st). vm_compute. reflexivity.
Qed.

Lemma console_session :
  session (H := memide_driver) 0 0 eof_st Idle [CRead 100; CType keys; CWake; CRead 1] [[108; 115; 10]; []].
Proof.
  apply (session_read (H := memide_driver) 0 0 line_st eof_st 1 [] [CRead 100; CType keys; CWake] [[108; 115; 10]] session_line).
  - apply console_at_spec; vm_compute; reflexivity.
  - vm_compute. reflexivity.
  - lia.
  - unfold eof_st. apply (ends_ok (consoleread (H := memide_driver) 0 1) line_st). vm_compute. reflexivity.
Qed.

Lemma console_refines_editor_witness :
  exists t, term_run [CRead 100; CType keys; CWake; CRead 1] = (t, Idle, [[108; 115; 10]; []]) /\ shows (k_input eof_st) t.
Proof.
  destruct (console_refines_editor (H := memide_driver) 0 0 eof_st Idle [CRead 100; CType keys; CWake; CRead 1] [[108; 115; 10]; []] console_session)
    as (t & E & Hs & _).
  exists t. split; [exact E|exact Hs].
Defined.
