(* ===== verification/Intr.v ===== *)
(** * Interrupts of the keyboard and the serial line

    [kbdintr] of [kbd.c] and [uartintr] of [uart.c]: the line editor of the console fed
    from the ports of the two devices. *)

From S2P Require Import Prelude Params State Locks Printf Io Screen Sched Procs Console.
Import Spin.

Definition KBSTATP : Z := 0x64.
Definition KBS_DIB : Z := 0x01.
Definition KBDATAP : Z := 0x60.

Section Intr.
Context `{Ports}.

(** The loop of [consoleintr] over the characters [getc] delivers. *)
Fixpoint intr_from (n : nat) (getc : K Z) (doprocdump : bool) : K bool :=
  c <- getc ;;
  if c <? 0 then ret doprocdump else
  match n with
  | O => spin
  | S n' => d <- intr_char c ;; intr_from n' getc (doprocdump || d)
  end.

Definition consoleintr_from (getc : K Z) : K unit :=
  acquire LCons ;;
  d <- intr_from patience getc false ;;
  release LCons ;;
  when d procdump.

(** [kbdgetc]; [shift] is its own. *)
Definition kbdgetc_port : K Z :=
  st <- inb KBSTATP ;;
  if Z.land st KBS_DIB =? 0 then ret (-1) else
  data <- inb KBDATAP ;;
  sh <- gets k_shift ;;
  let '(sh', c) := Kbd.kbdgetc sh data in
  modify (fun s => s <| k_shift := sh' |>) ;;
  ret c.

Definition kbdintr : K unit := consoleintr_from kbdgetc_port.
Definition uartintr : K unit := consoleintr_from uartgetc.
End Intr.
