(* ===== verification/Trap.v ===== *)
(** * Traps and interrupts ([trap.c])

    A trap is its frame; [cr2] is the register the hardware sets on a page fault. *)

From S2P Require Import Prelude Params State Mem Strings Locks Printf Io Lapic Kalloc Vm Sched Policy Procs Uaccess Sleeplock Bio Log Pipe Fs File ProcLife Exec Sysfile Syscall Console Intr.
Import Spin.

(** [vectors] holds the entry points of [vectors.S]. *)
Definition set_gate (i : Z) (d : gatedesc) : K unit :=
  modify (fun s => s <| k_segs ::= fun g => g <| sg_idt ::= insert (Z.to_nat i) d |> |>).

Definition tvinit (vectors : Z -> Z) : K unit :=
  for_each (seqZ 0 256) (fun i => set_gate i (SETGATE false (Z.shiftl SEG_KCODE 3) (vectors i) 0)) ;;
  set_gate T_SYSCALL (SETGATE true (Z.shiftl SEG_KCODE 3) (vectors T_SYSCALL) DPL_USER) ;;
  initlock LTicks.

(** [idt_] is the address of the table. *)
Definition lidt (p size : Z) : K unit := modify (fun s => s <| k_segs ::= fun g => g <| sg_idtr := (u32 p, u16 (size - 1)) |> |>).
Definition idtinit (idt_ : Z) : K unit := lidt idt_ (256 * 8).

Section Driver.
Context `{Ports} `{BlockDriver} `{Devices}.

(** The disk driver's handler, and the return address [cpunum] may print. *)
Context (ideintr : K unit) (ret_trap : Z).

(** [if(proc->killed) exit();] *)
Definition exit_if_killed : K unit :=
  p <- cur ;; when (nz (p_killed p)) exit.

(** [if(proc && proc->killed && (tf->cs&3) == DPL_USER) exit();] *)
Definition exit_if_user_killed (tf : trapframe) : K unit :=
  o <- gets k_proc ;;
  match o with
  | None => ret tt
  | Some me =>
      p <- get_proc me ;;
      when (nz (p_killed p) && (Z.land (tf_cs tf) 3 =? DPL_USER)) exit
  end.

(** The clock: only the first processor counts. *)
Definition timer_tick : K unit :=
  id <- cpunum ret_trap ;;
  when (id =? 0)%nat
    (acquire LTicks ;;
     modify (fun s => s <| k_ticks ::= fun n => u32 (n + 1) |>) ;;
     o <- gets k_proc ;;
     (match o with
      | None => ret tt
      | Some me =>
          p <- get_proc me ;;
          when (st_eqb (p_state p) RUNNING) (set_proc me (fun p => p <| p_rtime ::= fun n => u32 (n + 1) |>))
      end) ;;
     wakeup ChTicks ;;
     release LTicks).

(** A trap that is no interrupt: a fault in the kernel stops it, one in user space kills
    the process. *)
Definition other_trap (tf : trapframe) (cr2 : Z) : K unit :=
  o <- gets k_proc ;;
  let unexpected :=
    id <- cpunum ret_trap ;;
    cprintf (str "unexpected trap %d from cpu %d eip %x (cr2=0x%x)" ++ [10])
      [PInt (tf_trapno tf); PInt (Z.of_nat id); PInt (tf_eip tf); PInt cr2] ;;
    panic "trap" in
  match o with
  | None => unexpected
  | Some me =>
      if Z.land (tf_cs tf) 3 =? 0 then unexpected else
      p <- get_proc me ;;
      id <- cpunum ret_trap ;;
      cprintf (str "pid %d %s: trap %d err %d on cpu %d eip 0x%x addr 0x%x--kill proc" ++ [10])
        [PInt (p_pid p); PStr (Some (until_nul (p_name p))); PInt (tf_trapno tf); PInt (tf_err tf); PInt (Z.of_nat id);
         PInt (tf_eip tf); PInt cr2] ;;
      set_proc me (fun p => p <| p_killed := 1 |>)
  end.

(** The [switch]. *)
Definition interrupt (tf : trapframe) (cr2 : Z) : K unit :=
  let n := tf_trapno tf in
  if n =? T_IRQ0 + IRQ_TIMER then timer_tick ;; lapiceoi
  else if n =? T_IRQ0 + IRQ_IDE then ideintr ;; lapiceoi
  else if n =? T_IRQ0 + IRQ_IDE + 1 then ret tt
  else if n =? T_IRQ0 + IRQ_KBD then kbdintr ;; lapiceoi
  else if n =? T_IRQ0 + IRQ_COM1 then uartintr ;; lapiceoi
  else if (n =? T_IRQ0 + 7) || (n =? T_IRQ0 + IRQ_SPURIOUS) then
    id <- cpunum ret_trap ;;
    cprintf (str "cpu%d: spurious interrupt at %x:%x" ++ [10]) [PInt (Z.of_nat id); PInt (tf_cs tf); PInt (tf_eip tf)] ;;
    lapiceoi
  else other_trap tf cr2.

(** [if(proc && proc->state == RUNNING && tf->trapno == T_IRQ0+IRQ_TIMER) yield();] *)
Definition yield_on_tick (tf : trapframe) : K unit :=
  o <- gets k_proc ;;
  match o with
  | None => ret tt
  | Some me =>
      p <- get_proc me ;;
      when (st_eqb (p_state p) RUNNING && (tf_trapno tf =? T_IRQ0 + IRQ_TIMER)) yield
  end.

Definition trap (tf : trapframe) (cr2 : Z) : K unit :=
  if tf_trapno tf =? T_SYSCALL then
    exit_if_killed ;;
    me <- myproc ;;
    set_proc me (fun p => p <| p_tfregs := tf |>) ;;
    syscall ;;
    exit_if_killed
  else
    interrupt tf cr2 ;;
    exit_if_user_killed tf ;;
    yield_on_tick tf ;;
    exit_if_user_killed tf.
End Driver.
