(* ===== verification/DiscSys.v ===== *)
(** * The lock discipline: processes, system calls and traps *)

From S2P Require Import Prelude Params State Mem Strings Locks Printf Io Lapic Kalloc Vm Sched Policy Procs Uaccess Sleeplock Discipline Bio Ide Log Pipe Fs File DiscFs ProcLife Exec Sysfile Syscall Console Intr Trap.
Import Spin.

(** ** Processes *)

Lemma disc_userinit `{DriverDisc} `{DevicesDisc} L (initcode : list Z) : disc L (userinit initcode) L.
Proof. unfold userinit. disc. Qed.
#[export] Hint Resolve disc_userinit : disc.
Lemma disc_growproc L (n : Z) : disc L (growproc n) L.
Proof. unfold growproc. disc. Qed.
#[export] Hint Resolve disc_growproc : disc.
Lemma disc_dup_file L (me np i : nat) : disc L (dup_file me np i) L.
Proof. unfold dup_file. disc. Qed.
#[export] Hint Resolve disc_dup_file : disc.
Lemma disc_fork_rest L (me np : nat) : disc L (fork_rest me np) L.
Proof. unfold fork_rest. disc. Qed.
#[export] Hint Resolve disc_fork_rest : disc.
Lemma disc_fork L : disc L fork L.
Proof. unfold fork. disc. Qed.
#[export] Hint Resolve disc_fork : disc.
Lemma disc_close_fd `{DriverDisc} L (me fd : nat) : disc L (close_fd me fd) L.
Proof. unfold close_fd. disc. Qed.
#[export] Hint Resolve disc_close_fd : disc.
Lemma disc_wakeup_init L : disc L wakeup_init L.
Proof. unfold wakeup_init. disc. Qed.
#[export] Hint Resolve disc_wakeup_init : disc.
Lemma disc_reparent L (me i : nat) : disc L (reparent me i) L.
Proof. unfold reparent. disc. Qed.
#[export] Hint Resolve disc_reparent : disc.
Lemma disc_exit `{DriverDisc} L L' : disc L exit L'.
Proof. unfold exit. disc. Unshelve. exact []. Qed.
#[export] Hint Resolve disc_exit : disc.
Lemma disc_reap L (i : nat) : disc (LPtable :: L) (reap i) L.
Proof. unfold reap. disc. Qed.
#[export] Hint Resolve disc_reap : disc.

(** A child that is found is reaped, which ends the critical section; without one it goes on. *)
Lemma disc_wait_scan L me ids (cont : bool -> K Z) : (forall b, disc (LPtable :: L) (cont b) L) ->
  forall b, disc (LPtable :: L) (r <- wait_scan me ids b ;; match r with inl pid => ret pid | inr b => cont b end) L.
Proof.
  intros Hc. induction ids as [|i ids IH]; intros b; cbn [wait_scan]; [exact (Hc b)|].
  apply disc_bind_assoc. eapply disc_bind; [disc_leaf|]. intros p. destruct (negb _); [apply IH|].
  destruct (st_eqb _ _); [|apply IH]. apply disc_bind_assoc. eapply disc_bind; [disc_leaf|]. intros pid. exact (disc_ret L pid).
Qed.

Lemma disc_wait_loop L me : disc (LPtable :: L) (wait_loop me) L.
Proof. unfold wait_loop. apply disc_wait_scan. intros b. disc. Qed.
#[export] Hint Resolve disc_wait_loop : disc.
Lemma disc_wait L : disc L wait L.
Proof. unfold wait. disc. Qed.
#[export] Hint Resolve disc_wait : disc.
Lemma disc_forkret `{DriverDisc} : disc [LPtable] forkret [].
Proof. unfold forkret. disc. Qed.
#[export] Hint Resolve disc_forkret : disc.

(** ** Programs *)

Lemma disc_loaduvm_loop `{DriverDisc} `{DevicesDisc} L (fuel : nat) (pgdir addr : Z) (ip : nat) (offset i sz : Z) : disc L (loaduvm_loop fuel pgdir addr ip offset i sz) L.
Proof. revert pgdir addr ip offset i sz. induction fuel; intros; cbn [loaduvm_loop]; disc. Qed.
#[export] Hint Resolve disc_loaduvm_loop : disc.
Lemma disc_loaduvm `{DriverDisc} `{DevicesDisc} L (pgdir addr : Z) (ip : nat) (offset sz : Z) : disc L (loaduvm pgdir addr ip offset sz) L.
Proof. unfold loaduvm. disc. Qed.
#[export] Hint Resolve disc_loaduvm : disc.
Lemma disc_load_segments `{DriverDisc} `{DevicesDisc} L (n : nat) (pgdir : Z) (ip : nat) (off sz : Z) : disc L (load_segments n pgdir ip off sz) L.
Proof. revert pgdir ip off sz. induction n; intros; cbn [load_segments]; disc. Qed.
#[export] Hint Resolve disc_load_segments : disc.
Lemma disc_push_args L (pgdir sp : Z) (argc : nat) (argv : list (list Z)) (ptrs : list Z) : disc L (push_args pgdir sp argc argv ptrs) L.
Proof. revert pgdir sp argc ptrs. induction argv; intros; cbn [push_args]; disc. Qed.
#[export] Hint Resolve disc_push_args : disc.
Lemma disc_exec_bad `{DriverDisc} L (pgdir : Z) (ip : option nat) : disc L (exec_bad pgdir ip) L.
Proof. unfold exec_bad. disc. Qed.
#[export] Hint Resolve disc_exec_bad : disc.
Lemma disc_exec_commit L (path : list Z) (pgdir sz entry sp : Z) : disc L (exec_commit path pgdir sz entry sp) L.
Proof. unfold exec_commit. disc. Qed.
#[export] Hint Resolve disc_exec_commit : disc.
Lemma disc_exec_stack `{DriverDisc} L (path : list Z) (argv : list (list Z)) (pgdir sz entry : Z) : disc L (exec_stack path argv pgdir sz entry) L.
Proof. unfold exec_stack. disc. Qed.
#[export] Hint Resolve disc_exec_stack : disc.
Lemma disc_exec `{DriverDisc} `{DevicesDisc} L (path : list Z) (argv : list (list Z)) : disc L (exec path argv) L.
Proof. unfold exec. disc. Qed.
#[export] Hint Resolve disc_exec : disc.

(** ** System calls on files *)

Lemma disc_argfd L (n : Z) : disc L (argfd n) L.
Proof. unfold argfd. disc. Qed.
#[export] Hint Resolve disc_argfd : disc.
Lemma disc_set_ofile L (fd : nat) (o : option nat) : disc L (set_ofile fd o) L.
Proof. unfold set_ofile. disc. Qed.
#[export] Hint Resolve disc_set_ofile : disc.
Lemma disc_fdalloc L (f : nat) : disc L (fdalloc f) L.
Proof. unfold fdalloc. disc. Qed.
#[export] Hint Resolve disc_fdalloc : disc.
Lemma disc_sys_dup L : disc L sys_dup L.
Proof. unfold sys_dup. disc. Qed.
#[export] Hint Resolve disc_sys_dup : disc.
Lemma disc_args_fnp L : disc L args_fnp L.
Proof. unfold args_fnp. disc. Qed.
#[export] Hint Resolve disc_args_fnp : disc.
Lemma disc_sys_read `{DriverDisc} `{DevicesDisc} L : disc L sys_read L.
Proof. unfold sys_read. disc. Qed.
#[export] Hint Resolve disc_sys_read : disc.
Lemma disc_sys_write `{DriverDisc} `{DevicesDisc} L : disc L sys_write L.
Proof. unfold sys_write. disc. Qed.
#[export] Hint Resolve disc_sys_write : disc.
Lemma disc_sys_close `{DriverDisc} L : disc L sys_close L.
Proof. unfold sys_close. disc. Qed.
#[export] Hint Resolve disc_sys_close : disc.
Lemma disc_ustore_stat L (a : Z) (st : stat) : disc L (ustore_stat a st) L.
Proof. unfold ustore_stat. disc. Qed.
#[export] Hint Resolve disc_ustore_stat : disc.
Lemma disc_sys_fstat `{DriverDisc} L : disc L sys_fstat L.
Proof. unfold sys_fstat. disc. Qed.
#[export] Hint Resolve disc_sys_fstat : disc.
Lemma disc_link_bad `{DriverDisc} L (ip : nat) : disc L (link_bad ip) L.
Proof. unfold link_bad. disc. Qed.
#[export] Hint Resolve disc_link_bad : disc.
Lemma disc_sys_link `{DriverDisc} `{DevicesDisc} L : disc L sys_link L.
Proof. unfold sys_link. disc. Qed.
#[export] Hint Resolve disc_sys_link : disc.
Lemma disc_isdirempty_loop `{DriverDisc} `{DevicesDisc} L (fuel : nat) (dp : nat) (off : Z) : disc L (isdirempty_loop fuel dp off) L.
Proof. revert dp off. induction fuel; intros; cbn [isdirempty_loop]; disc. Qed.
#[export] Hint Resolve disc_isdirempty_loop : disc.
Lemma disc_isdirempty `{DriverDisc} `{DevicesDisc} L (dp : nat) : disc L (isdirempty dp) L.
Proof. unfold isdirempty. disc. Qed.
#[export] Hint Resolve disc_isdirempty : disc.
Lemma disc_unlink_bad `{DriverDisc} L (dp : nat) : disc L (unlink_bad dp) L.
Proof. unfold unlink_bad. disc. Qed.
#[export] Hint Resolve disc_unlink_bad : disc.
Lemma disc_sys_unlink `{DriverDisc} `{DevicesDisc} L : disc L sys_unlink L.
Proof. unfold sys_unlink. disc. Qed.
#[export] Hint Resolve disc_sys_unlink : disc.
Lemma disc_create `{DriverDisc} `{DevicesDisc} L (path : list Z) (type major minor : Z) : disc L (create path type major minor) L.
Proof. unfold create. disc. Qed.
#[export] Hint Resolve disc_create : disc.
Lemma disc_open_inode `{DriverDisc} `{DevicesDisc} L (path : list Z) (omode : Z) : disc L (open_inode path omode) L.
Proof. unfold open_inode. disc. Qed.
#[export] Hint Resolve disc_open_inode : disc.
Lemma disc_open_bad `{DriverDisc} L (ip : nat) : disc L (open_bad ip) L.
Proof. unfold open_bad. disc. Qed.
#[export] Hint Resolve disc_open_bad : disc.
Lemma disc_sys_open `{DriverDisc} `{DevicesDisc} L : disc L sys_open L.
Proof. unfold sys_open. disc. Qed.
#[export] Hint Resolve disc_sys_open : disc.
Lemma disc_op_bad `{DriverDisc} L : disc L op_bad L.
Proof. unfold op_bad. disc. Qed.
#[export] Hint Resolve disc_op_bad : disc.
Lemma disc_op_done `{DriverDisc} L (o : option nat) : disc L (op_done o) L.
Proof. unfold op_done. disc. Qed.
#[export] Hint Resolve disc_op_done : disc.
Lemma disc_sys_mkdir `{DriverDisc} `{DevicesDisc} L : disc L sys_mkdir L.
Proof. unfold sys_mkdir. disc. Qed.
#[export] Hint Resolve disc_sys_mkdir : disc.
Lemma disc_sys_mknod `{DriverDisc} `{DevicesDisc} L : disc L sys_mknod L.
Proof. unfold sys_mknod. disc. Qed.
#[export] Hint Resolve disc_sys_mknod : disc.
Lemma disc_sys_chdir `{DriverDisc} `{DevicesDisc} L : disc L sys_chdir L.
Proof. unfold sys_chdir. disc. Qed.
#[export] Hint Resolve disc_sys_chdir : disc.
Lemma disc_exec_args L (n : nat) (uargv i : Z) : disc L (exec_args n uargv i) L.
Proof. revert uargv i. induction n; intros; cbn [exec_args]; disc. Qed.
#[export] Hint Resolve disc_exec_args : disc.
Lemma disc_sys_exec `{DriverDisc} `{DevicesDisc} L : disc L sys_exec L.
Proof. unfold sys_exec. disc. Qed.
#[export] Hint Resolve disc_sys_exec : disc.
Lemma disc_pipe_bad `{DriverDisc} L (rf wf : nat) : disc L (pipe_bad rf wf) L.
Proof. unfold pipe_bad. disc. Qed.
#[export] Hint Resolve disc_pipe_bad : disc.
Lemma disc_sys_pipe `{DriverDisc} : disc [] sys_pipe [].
Proof. unfold sys_pipe. disc. Qed.
#[export] Hint Resolve disc_sys_pipe : disc.

(** ** The other system calls *)

Lemma disc_argint_unchecked L (n : Z) (init : option Z) : disc L (argint_unchecked n init) L.
Proof. unfold argint_unchecked. disc. Qed.
#[export] Hint Resolve disc_argint_unchecked : disc.
Lemma disc_argstr_unchecked L (n : Z) : disc L (argstr_unchecked n) L.
Proof. unfold argstr_unchecked. disc. Qed.
#[export] Hint Resolve disc_argstr_unchecked : disc.
Lemma disc_child_at L (msg : string) (l : list Z) (i : Z) : disc L (child_at msg l i) L.
Proof. unfold child_at. disc. Qed.
#[export] Hint Resolve disc_child_at : disc.
Lemma disc_sys_kill L : disc L sys_kill L.
Proof. unfold sys_kill. disc. Qed.
#[export] Hint Resolve disc_sys_kill : disc.
Lemma disc_sys_getpid L : disc L sys_getpid L.
Proof. unfold sys_getpid. disc. Qed.
#[export] Hint Resolve disc_sys_getpid : disc.
Lemma disc_sys_sbrk L : disc L sys_sbrk L.
Proof. unfold sys_sbrk. disc. Qed.
#[export] Hint Resolve disc_sys_sbrk : disc.
Lemma disc_sleep_loop L (ticks0 n : Z) : disc (LTicks :: L) (sleep_loop ticks0 n) L.
Proof. unfold sleep_loop. disc. Qed.
#[export] Hint Resolve disc_sleep_loop : disc.
Lemma disc_sys_sleep L : disc L sys_sleep L.
Proof. unfold sys_sleep. disc. Qed.
#[export] Hint Resolve disc_sys_sleep : disc.
Lemma disc_sys_uptime L : disc L sys_uptime L.
Proof. unfold sys_uptime. disc. Qed.
#[export] Hint Resolve disc_sys_uptime : disc.
Lemma disc_sys_getppid L : disc L sys_getppid L.
Proof. unfold sys_getppid. disc. Qed.
#[export] Hint Resolve disc_sys_getppid : disc.
Lemma disc_sys_getPerformanceData L : disc L sys_getPerformanceData L.
Proof. unfold sys_getPerformanceData. disc. Qed.
#[export] Hint Resolve disc_sys_getPerformanceData : disc.
Lemma disc_sys_getAllChildsRtime L : disc L sys_getAllChildsRtime L.
Proof. unfold sys_getAllChildsRtime. disc. Qed.
#[export] Hint Resolve disc_sys_getAllChildsRtime : disc.
Lemma disc_sys_getAllChildsEtime L : disc L sys_getAllChildsEtime L.
Proof. unfold sys_getAllChildsEtime. disc. Qed.
#[export] Hint Resolve disc_sys_getAllChildsEtime : disc.
Lemma disc_sys_getAllChildsCtime L : disc L sys_getAllChildsCtime L.
Proof. unfold sys_getAllChildsCtime. disc. Qed.
#[export] Hint Resolve disc_sys_getAllChildsCtime : disc.
Lemma disc_sys_getChildSize L : disc L sys_getChildSize L.
Proof. unfold sys_getChildSize. disc. Qed.
#[export] Hint Resolve disc_sys_getChildSize : disc.
Lemma disc_set_piority L (v : Z) : disc L (set_piority v) L.
Proof. unfold set_piority. disc. Qed.
#[export] Hint Resolve disc_set_piority : disc.
Lemma disc_sys_nice L : disc L sys_nice L.
Proof. unfold sys_nice. disc. Qed.
#[export] Hint Resolve disc_sys_nice : disc.
Lemma disc_sys_enableContextSwitchPrint L : disc L sys_enableContextSwitchPrint L.
Proof. unfold sys_enableContextSwitchPrint. disc. Qed.
#[export] Hint Resolve disc_sys_enableContextSwitchPrint : disc.
Lemma disc_sys_getChildPiorityAt L : disc L sys_getChildPiorityAt L.
Proof. unfold sys_getChildPiorityAt. disc. Qed.
#[export] Hint Resolve disc_sys_getChildPiorityAt : disc.
Lemma disc_sys_fork L : disc L sys_fork L.
Proof. unfold sys_fork. disc. Qed.
#[export] Hint Resolve disc_sys_fork : disc.
Lemma disc_sys_exit `{DriverDisc} L : disc L sys_exit L.
Proof. unfold sys_exit. disc. Qed.
#[export] Hint Resolve disc_sys_exit : disc.
Lemma disc_sys_wait L : disc L sys_wait L.
Proof. unfold sys_wait. disc. Qed.
#[export] Hint Resolve disc_sys_wait : disc.
Lemma disc_set_eax L (v : Z) : disc L (set_eax v) L.
Proof. unfold set_eax. disc. Qed.
#[export] Hint Resolve disc_set_eax : disc.

(** Every entry of the table of system calls. *)
Lemma disc_syscalls `{DriverDisc} `{DevicesDisc} : Forall (fun o => forall f, o = Some f -> disc [] f []) syscalls.
Proof. unfold syscalls. repeat constructor; intros f [= <-]; disc_leaf. Qed.

Lemma disc_syscall_of `{DriverDisc} `{DevicesDisc} num f : syscall_of num = Some f -> disc [] f [].
Proof.
  unfold syscall_of. destruct (_ && _); [|done]. destruct (syscalls !! Z.to_nat num) as [o|] eqn:E; [|done].
  intros Hf. eapply list.Forall_lookup in E; [|apply disc_syscalls]. by apply E.
Qed.

Lemma disc_syscall `{DriverDisc} `{DevicesDisc} : disc [] syscall [].
Proof.
  unfold syscall. eapply disc_bind; [disc_leaf|]. intros p. cbv zeta. destruct (syscall_of _) as [f|] eqn:E; [|disc].
  apply disc_syscall_of in E. disc.
Qed.
#[export] Hint Resolve disc_syscall : disc.

(** ** The console *)

Lemma disc_set_input L (f : input -> input) : disc L (set_input f) L.
Proof. unfold set_input. disc. Qed.
#[export] Hint Resolve disc_set_input : disc.
Lemma disc_rubout L : disc L rubout L.
Proof. unfold rubout. disc. Qed.
#[export] Hint Resolve disc_rubout : disc.
Lemma disc_kill_line L (n : nat) : disc L (kill_line n) L.
Proof. induction n; intros; cbn [kill_line]; disc. Qed.
#[export] Hint Resolve disc_kill_line : disc.
Lemma disc_enter_char L (c : Z) : disc L (enter_char c) L.
Proof. unfold enter_char. disc. Qed.
#[export] Hint Resolve disc_enter_char : disc.
Lemma disc_intr_char L (c : Z) : disc L (intr_char c) L.
Proof. unfold intr_char. disc. Qed.
#[export] Hint Resolve disc_intr_char : disc.
Lemma disc_intr_loop L (cs : list Z) (doprocdump : bool) : disc L (intr_loop cs doprocdump) L.
Proof. revert doprocdump. induction cs; intros; cbn [intr_loop]; disc. Qed.
#[export] Hint Resolve disc_intr_loop : disc.
Lemma disc_consoleintr L (cs : list Z) : disc L (consoleintr cs) L.
Proof. unfold consoleintr. disc. Qed.
#[export] Hint Resolve disc_consoleintr : disc.
Lemma disc_consoleread_done `{DriverDisc} L (ip : nat) (got : list Z) : disc (LCons :: L) (consoleread_done ip got) L.
Proof. unfold consoleread_done. disc. Qed.
#[export] Hint Resolve disc_consoleread_done : disc.
Lemma disc_consoleread_loop `{DriverDisc} L (ip : nat) (target : Z) (n : nat) (got : list Z) : disc (LCons :: L) (consoleread_loop ip target n got) L.
Proof. revert ip target got. induction n; intros; cbn [consoleread_loop]; disc. Qed.
#[export] Hint Resolve disc_consoleread_loop : disc.
Lemma disc_consoleread `{DriverDisc} L (ip : nat) (n : Z) : disc L (consoleread ip n) L.
Proof. unfold consoleread. disc. Qed.
#[export] Hint Resolve disc_consoleread : disc.
Lemma disc_consolewrite `{DriverDisc} L (ip : nat) (buf : list Z) : disc L (consolewrite ip buf) L.
Proof. unfold consolewrite. disc. Qed.
#[export] Hint Resolve disc_consolewrite : disc.

(** ** Traps *)

#[export] Instance console_disc `{DriverDisc} : DevicesDisc.
Proof.
  split; intros m f L i ?; cbn [dev_read dev_write console_devices]; destruct (m =? CONSOLE); try done; intros [= <-]; disc.
Qed.

Section Traps.
Context `{Ports} `{DriverDisc} `{DevicesDisc}.

Lemma disc_reg_read L d reg : disc L (reg_read d reg) L.
Proof. unfold reg_read, access. disc. Qed.
Lemma disc_reg_write L d reg v : disc L (reg_write d reg v) L.
Proof. unfold reg_write, access. disc. Qed.
#[local] Hint Resolve disc_reg_read disc_reg_write disc_inb : disc.

Lemma disc_cpunum L pc : disc L (cpunum pc) L.
Proof. unfold cpunum, readeflags_if, dev, set_dev. disc. Qed.
Lemma disc_lapiceoi L : disc L lapiceoi L.
Proof. unfold lapiceoi, lapicw, dev. disc. Qed.
Lemma disc_intr_from L n getc d : disc L getc L -> disc L (intr_from n getc d) L.
Proof. intros Hg. revert d. induction n; intros; cbn [intr_from]; disc. Qed.
#[local] Hint Resolve disc_cpunum disc_lapiceoi disc_intr_from : disc.

Lemma disc_kbdintr L : disc L kbdintr L.
Proof.
  unfold kbdintr, consoleintr_from. eapply disc_bind; [disc_leaf|]. intros _. eapply disc_bind; [|intros; disc].
  apply disc_intr_from. unfold kbdgetc_port. disc.
Qed.
Lemma disc_uartintr L : disc L uartintr L.
Proof.
  unfold uartintr, consoleintr_from. eapply disc_bind; [disc_leaf|]. intros _. eapply disc_bind; [|intros; disc].
  apply disc_intr_from. unfold Screen.uartgetc, dev. disc.
Qed.
#[local] Hint Resolve disc_kbdintr disc_uartintr : disc.

Context (ideintr : K unit) (ret_trap : Z) (Hide : disc [] ideintr []).

Lemma disc_timer_tick L : disc L (timer_tick ret_trap) L.
Proof. unfold timer_tick. disc. Qed.
Lemma disc_other_trap L tf cr2 : disc L (other_trap ret_trap tf cr2) L.
Proof. unfold other_trap. disc. Qed.
Lemma disc_exit_if_killed L : disc L exit_if_killed L.
Proof. unfold exit_if_killed. disc. Qed.
Lemma disc_exit_if_user_killed L tf : disc L (exit_if_user_killed tf) L.
Proof. unfold exit_if_user_killed. disc. Qed.
Lemma disc_yield_on_tick L tf : disc L (yield_on_tick tf) L.
Proof. unfold yield_on_tick. disc. Qed.
#[local] Hint Resolve disc_timer_tick disc_other_trap disc_exit_if_killed disc_exit_if_user_killed disc_yield_on_tick : disc.

Lemma disc_interrupt tf cr2 : disc [] (interrupt ideintr ret_trap tf cr2) [].
Proof. unfold interrupt. disc. Qed.
#[local] Hint Resolve disc_interrupt : disc.

Lemma resumes_wait : resumes wait_resume [].
Proof. apply (resumes_bind [LPtable]); [apply resumes_sleep|]. intros. disc. Qed.
Lemma resumes_sys_sleep t0 n : resumes (fun saved => sys_sleep_resume saved t0 n) [].
Proof. apply (resumes_bind [LTicks]); [apply resumes_sleep|]. intros. disc. Qed.
Lemma resumes_consoleread ip target n got : resumes (fun saved => consoleread_resume saved ip target n got) [].
Proof. apply (resumes_bind [LCons]); [apply resumes_sleep|]. intros. disc. Qed.

Lemma disc_trap tf cr2 : disc [] (trap ideintr ret_trap tf cr2) [].
Proof. unfold trap. disc. Qed.

(** C2. The lock discipline of the whole kernel. Suppose the disk driver, its interrupt
    handler and the devices keep it. A system call or a trap entered with no spinlock held
    either returns with none held and the interrupt flag as it was, or hands the processor
    to the scheduler holding [ptable.lock] alone, with the flag saved in [intena]. A
    process that the scheduler resumes, with [ptable.lock] held and whatever flag the
    scheduler had, goes on from where it slept and again either returns with no lock held
    and the flag it had saved, or switches with [ptable.lock] alone; and a new process
    starts by giving [ptable.lock] up. *)
Theorem kernel_discipline :
  (forall num f, syscall_of num = Some f -> disc [] f []) /\
  (forall tf cr2, disc [] (trap ideintr ret_trap tf cr2) []) /\
  (forall e e' s, holds e' [LPtable] s ->
    lawful e [] (yield_resume e s) /\ lawful e [] (wait_resume e s) /\ lawful e [] (begin_op_resume e s) /\
    (forall l, lawful e [] (acquiresleep_resume e l s)) /\
    (forall p n src, lawful e [] (pipewrite_resume e p n src s)) /\
    (forall p n, lawful e [] (piperead_resume e p n s)) /\
    (forall t0 n, lawful e [] (sys_sleep_resume e t0 n s)) /\
    (forall ip target n got, lawful e [] (consoleread_resume e ip target n got s))) /\
  disc [LPtable] forkret [].
Proof.
  split; [exact disc_syscall_of|]. split; [exact disc_trap|]. split; [|apply disc_forkret].
  intros e e' s Hs. split_and!; intros.
  - by apply (resumes_yield e e').
  - by apply (resumes_wait e e').
  - by apply (resumes_begin_op e e').
  - by apply (resumes_acquiresleep l e e').
  - by apply (resumes_pipewrite p n src e e').
  - by apply (resumes_piperead p n e e').
  - by apply (resumes_sys_sleep t0 n e e').
  - by apply (resumes_consoleread ip target n got e e').
Qed.
End Traps.

(** A process on a kernel with the disk in memory asks for its number. *)
#[local] Instance quiet_ports : Ports := {| port_in := fun _ _ => 0; port_inl := fun _ _ _ => []; reg_in := fun _ _ _ => 0; patience := 0 |}.

Definition getpid_frame : trapframe := zero_trapframe <| tf_trapno := T_SYSCALL |> <| tf_eax := 11 |>.
Definition getpid_st : kst := one_proc <| k_cpu := mkCpu 0 true true |>.

Lemma getpid_holds : holds true [] getpid_st.
Proof.
  split; [constructor|]. split; [|done]. intros lk. change (k_locks getpid_st) with (∅ : gmap lockid nat).
  rewrite lookup_empty. split; [done|]. intros H. by apply not_elem_of_nil in H.
Qed.

Lemma kernel_discipline_witness :
  is_ok (trap Memide.ideintr 0 getpid_frame 0 getpid_st) = true /\
  holds true [] (final (trap Memide.ideintr 0 getpid_frame 0 getpid_st)).
Proof.
  destruct (kernel_discipline Memide.ideintr 0 (disc_ret [] tt)) as (_ & Ht & _).
  specialize (Ht getpid_frame 0 true getpid_st getpid_holds).
  assert (is_ok (trap Memide.ideintr 0 getpid_frame 0 getpid_st) = true) as Hok by (vm_compute; reflexivity).
  split; [exact Hok|]. rewrite (ok_final _ Hok) in Ht. exact Ht.
Defined.
