(* ===== verification/Main.v ===== *)
(** * Starting the kernel ([main.c], and [seginit] of [vm.c])

    The first processor initialises the parts of the kernel in the order of [main], starts
    the other processors one by one, and ends in the scheduler; the others enter at
    [mpenter]. *)

From S2P Require Import Prelude Params State Mem Locks Printf Io Lapic Mp Screen Kalloc Vm Sched Policy Procs Sleeplock Bio Fs File ProcLife Console Trap.
Import Spin.

(** ** Segments *)

Definition PTE_PS : Z := 0x080.

(** The base of the table and its limit. *)
Definition lgdt (p size : Z) : K unit := modify (fun s => s <| k_segs ::= fun g => g <| sg_gdtr := (u32 p, u16 (size - 1)) |> |>).
Definition loadgs (v : Z) : K unit := modify (fun s => s <| k_segs ::= fun g => g <| sg_gs := u16 v |> |>).

Definition set_gdt (i : Z) (d : segdesc) : K unit :=
  modify (fun s => s <| k_segs ::= fun g => g <| sg_gdt ::= insert (Z.to_nat i) d |> |>).

Section Main.
Context `{Ports} `{BlockDriver} `{Devices}.

(** The return addresses [cpunum] may print, by the calling routine. *)
Context (ret_seginit ret_main ret_mpmain ret_startothers : Z).

Definition seginit : K unit :=
  n <- cpunum ret_seginit ;;
  lk <- gets k_link ;;
  let c := cpu_addr lk n in
  set_gdt SEG_KCODE (SEG (Z.lor STA_X STA_R) 0 0xffffffff 0) ;;
  set_gdt SEG_KDATA (SEG STA_W 0 0xffffffff 0) ;;
  set_gdt SEG_UCODE (SEG (Z.lor STA_X STA_R) 0 0xffffffff DPL_USER) ;;
  set_gdt SEG_UDATA (SEG STA_W 0 0xffffffff DPL_USER) ;;
  set_gdt SEG_KCPU (SEG STA_W (c + cpu_cpu) 8 0) ;;
  lgdt (c + cpu_gdt) (Z.of_nat NSEGS * sizeof_segdesc) ;;
  loadgs (Z.shiftl SEG_KCPU 3) ;;
  modify (fun s => s <| k_cpuid := n |> <| k_proc := None |>).

(** ** Starting up *)

(** Where the table of gates, [mpenter] and [entrypgdir] lie, the entry points of
    [vectors.S], and the program of [entryother.S]. *)
Context (idt_ mpenter_ entrypgdir_ : Z) (vectors : Z -> Z) (entryother : list Z).

(** Whether processor [i] comes up once the accesses [h] to devices have been made. *)
Context (comes_up : list pio -> nat -> bool).

(** The rest of the kernel's life: what a chosen process does, and the number of rounds of
    the scheduler. *)
Context (run : nat -> K unit) (rounds : nat).

(** The initial program, and the disk driver's initialisation. *)
Context (initcode : list Z) (ideinit : K unit).

Definition mpmain : K unit :=
  n <- cpunum ret_mpmain ;;
  cprintf (str "cpu%d: starting" ++ [10]) [PInt (Z.of_nat n)] ;;
  idtinit idt_ ;;
  modify (fun s => s <| k_segs ::= fun g => g <| sg_started := 1 |> |>) ;;
  scheduler run rounds.

Definition mpenter : K unit :=
  switchkvm ;;
  seginit ;;
  lapicinit ;;
  mpmain.

(** [while(c->started == 0);] *)
Definition wait_started (i : nat) : K unit :=
  s <- get ;;
  if comes_up (k_io s) i then ret tt else spin.

Definition startother (code : Z) (i : nat) : K unit :=
  me <- cpunum ret_startothers ;;
  if (i =? me)%nat then ret tt else
  stack <- kalloc ;;
  st32 (code - 4) (u32 (stack + KSTACKSIZE)) ;;
  st32 (code - 8) mpenter_ ;;
  st32 (code - 12) (V2P entrypgdir_) ;;
  ids <- dev d_apicid ;;
  lapicstartap (nth i ids 0) (V2P code) ;;
  wait_started i.

Definition startothers : K unit :=
  let code := P2V 0x7000 in
  modify (fun s => s <| k_mem ::= fun m => put_bytes m (V2P code) entryother |>) ;;
  ncpu <- dev d_ncpu ;;
  for_each (seq 0 ncpu) (startother code).

(** [fuel] bounds the walk of [mpinit] through the configuration table. *)
Definition main (fuel : nat) : K unit :=
  lk <- gets k_link ;;
  kinit1 (end_ lk) (P2V (4 * 1024 * 1024)) ;;
  kvmalloc ;;
  mpinit fuel ;;
  lapicinit ;;
  seginit ;;
  n <- cpunum ret_main ;;
  cprintf ([10] ++ str "cpu%d: starting xv6" ++ [10; 10]) [PInt (Z.of_nat n)] ;;
  picinit ;;
  ioapicinit ;;
  consoleinit ;;
  uartinit ;;
  pinit ;;
  tvinit vectors ;;
  binit ;;
  fileinit ;;
  ideinit ;;
  ismp <- dev d_ismp ;;
  when (negb ismp) timerinit ;;
  startothers ;;
  kinit2 (P2V (4 * 1024 * 1024)) (P2V PHYSTOP) ;;
  userinit initcode ;;
  mpmain.
End Main.

(** The boot page table: an entry of 4 Mbytes at 0 and one at [KERNBASE]. *)
Definition entrypgdir : list Z :=
  let e := Z.lor (Z.lor (Z.lor 0 PTE_P) PTE_W) PTE_PS in
  <[0%nat := e]> (<[Z.to_nat (Z.shiftr KERNBASE PDXSHIFT) := e]> (replicate (Z.to_nat NPDENTRIES) 0)).
