(* ===== verification/User.v ===== *)
(** * User programs as sequences of system calls

    A user program is a routine over the answers the kernel is going to give to its system
    calls and the calls it has made so far. A program that exits, or that makes a call
    which is not answered, gives the processor up for good ([Switch]); the trace of calls
    says which of the two it was. Loops that call the kernel in every round recurse on a
    bound which the number of answers left always satisfies. *)

From S2P Require Import Prelude Params Strings State Locks Printf.

(** System calls with their arguments; buffers to be filled by the kernel are left out. The
    last two groups are for the programs that test what a process may not do. *)
Inductive ucall :=
| Uread (fd n : Z) | Uwrite (fd : Z) (l : list Z) | Uopen (path : list Z) (mode : Z) | Uclose (fd : Z)
| Ufstat (fd : Z) | Ulink (old new : list Z) | Uunlink (path : list Z) | Umkdir (path : list Z)
| Umknod (path : list Z) (major minor : Z) | Udup (fd : Z) | Ukill (pid : Z) | Ufork | Uwait
| Uexec (path : list Z) (argv : list (list Z)) | Usleep (n : Z) | Usbrk (n : Z) | Uexit
| Upipe | Uchdir (path : list Z) | Ugetpid | Uuptime | Ugetppid | UgetPerformanceData
| UgetAllChildsCtime (childAt : Z) | UgetAllChildsEtime (childAt : Z) | UgetAllChildsRtime (childAt : Z)
| UgetChildSize | Unice | UenableContextSwitchPrint (isValid : Z) | UgetChildPiorityAt (childAt : Z)
(* calls given an address the program does not own *)
| Usleep_at (esp : Z) | Ulink_at (old : list Z) (new : Z) | Uread_at (fd buf n : Z)
(* memory and ports, where the machine answers or the process is killed *)
| Uload (a : Z) | Ustore (a v : Z) | Uoutb (port v : Z) | Uinb (port : Z).

(** What the kernel answers: the value returned, and what it stored in the caller's buffer
    (the bytes for [read], the fields of [struct stat] for [fstat], the two descriptors for
    [pipe], the two numbers for [getPerformanceData]). *)
Record answer := mkAnswer { a_ret : Z; a_data : list Z }.

Record ust := mkUst {
  u_answers : list answer;  (* of the calls to come, those whose result the program uses *)
  u_calls : list ucall      (* made so far, the latest first *)
}.

#[export] Instance set_u_answers : Setter u_answers := ltac:(setter ust u_answers).
#[export] Instance set_u_calls : Setter u_calls := ltac:(setter ust u_calls).

Ltac ured :=
  cbv beta iota zeta delta [set RecordSettersUsingExistingGetters.const u_answers u_calls set_u_answers set_u_calls].

Definition U (A : Type) : Type := M ust A.

(** A system call that returns. *)
Definition sys (c : ucall) : U answer := fun s =>
  match u_answers s with
  | [] => Switch (s <| u_calls ::= cons c |>)
  | a :: l => Ok a (s <| u_answers := l |> <| u_calls ::= cons c |>)
  end.

Definition sys_ret (c : ucall) : U Z := a <- sys c ;; ret (a_ret a).

(** A system call whose result the program ignores. *)
Definition sys_ (c : ucall) : U unit := modify (fun s => s <| u_calls ::= cons c |>).

Definition uexit {A} : U A := fun s => Switch (s <| u_calls ::= cons Uexit |>).

Definition uputc (fd c : Z) : U unit := sys_ (Uwrite fd [c]).

(** A format that ends a line. *)
Definition strn (s : string) : list Z := str s ++ [10].

Definition uprintf (fd : Z) (fmt : list Z) (args : list parg) : U unit :=
  match Uprintf.printf fmt args with
  | Some l => for_each l (uputc fd)
  | None => fault "printf: argument"
  end.

(** The length of the runs a program can still make through calls that return. *)
Definition ufuel : U nat := gets (fun s => S (length (u_answers s))).

(** ** Buffers *)

(** [data] stored into [buf] at [off]. *)
Definition splice (buf : list Z) (off : nat) (data : list Z) : list Z :=
  take off buf ++ data ++ drop (off + length data) buf.

(** [read(fd, buf + off, n)]: the answer, and the buffer after it. *)
Definition uread (fd : Z) (buf : list Z) (off : nat) (n : Z) : U (Z * list Z) :=
  a <- sys (Uread fd n) ;;
  ret (a_ret a, if 0 <? a_ret a then splice buf off (a_data a) else buf).

(** The C string at the start of a buffer. *)
Fixpoint cstring (l : list Z) : list Z :=
  match l with
  | c :: l' => if c =? 0 then [] else c :: cstring l'
  | [] => []
  end.

(** [strchr] on the bytes of a buffer: the distance of the character found. *)
Fixpoint strchr_l (l : list Z) (c : Z) : option nat :=
  match l with
  | d :: l' => if d =? 0 then None else if d =? c then Some 0%nat else S <$> strchr_l l' c
  | [] => None
  end.

(** [memmove] of the user library inside one buffer: [n] bytes, upwards. *)
Fixpoint move_l (n : nat) (buf : list Z) (dst src : nat) : list Z :=
  match n with
  | O => buf
  | S n' => move_l n' (<[dst := nth src buf 0]> buf) (S dst) (S src)
  end.

(** ** What a run of a program writes *)

(** The bytes written to a descriptor, in order. *)
Definition out_of (fd : Z) (c : ucall) : list Z :=
  match c with
  | Uwrite fd' l => if fd' =? fd then l else []
  | _ => []
  end.

Definition output (fd : Z) (s : ust) : list Z := concat (out_of fd <$> rev (u_calls s)).

(** The answers of reads that deliver the chunks [cs], and then the end of the file. *)
Definition served (cs : list (list Z)) : list answer := (fun c => mkAnswer (Z.of_nat (length c)) c) <$> cs.
Definition eof : answer := mkAnswer 0 [].

Lemma output_cons fd c l a : output fd (mkUst a (c :: l)) = output fd (mkUst a l) ++ out_of fd c.
Proof. unfold output. simpl. rewrite fmap_app, concat_app. simpl. by rewrite app_nil_r. Qed.

Lemma output_answers fd a a' l : output fd (mkUst a l) = output fd (mkUst a' l).
Proof. done. Qed.

Lemma for_each_uputc fd l s : for_each l (uputc fd) s = Ok tt (s <| u_calls ::= app (rev ((fun c => Uwrite fd [c]) <$> l)) |>).
Proof.
  revert s. induction l as [|c l IH]; intros [a cs]; simpl; [done|]. unfold uputc at 1, sys_. mstep. rewrite IH. simpl.
  ured. by rewrite <- (assoc_L (++)).
Qed.

Lemma uprintf_run fd fmt args l s :
  Uprintf.printf fmt args = Some l ->
  uprintf fd fmt args s = Ok tt (s <| u_calls ::= app (rev ((fun c => Uwrite fd [c]) <$> l)) |>).
Proof. unfold uprintf. intros ->. apply for_each_uputc. Qed.

Lemma output_putcs fd l s : output fd (s <| u_calls ::= app (rev ((fun c => Uwrite fd [c]) <$> l)) |>) = output fd s ++ l.
Proof.
  destruct s as [a cs]. unfold output. ured. rewrite rev_app_distr, rev_involutive, fmap_app, concat_app. f_equal.
  induction l as [|c l IH]; [done|]. rewrite !fmap_cons. cbn [concat out_of]. by rewrite Z.eqb_refl, IH.
Qed.

Lemma length_splice buf off data : (off + length data <= length buf)%nat -> length (splice buf off data) = length buf.
Proof. intros H. unfold splice. rewrite !length_app, length_take, length_drop. lia. Qed.

Lemma move_l_spec n buf dst src :
  (dst <= src)%nat -> (src + n <= length buf)%nat ->
  move_l n buf dst src = take dst buf ++ take n (drop src buf) ++ drop (dst + n) buf.
Proof.
  revert buf dst src. induction n as [|n IH]; intros buf dst src Hd Hs; cbn [move_l].
  - rewrite Nat.add_0_r. simpl. by rewrite take_drop.
  - rewrite IH by (rewrite ?length_insert; lia).
    destruct (lookup_lt_is_Some_2 buf src) as [x Hx]; [lia|]. rewrite (nth_lookup_Some _ _ _ _ Hx).
    rewrite drop_insert_lt, drop_insert_lt by lia. rewrite (drop_S _ _ _ Hx). simpl.
    rewrite (take_S_r _ _ x) by (apply list_lookup_insert_eq; lia). rewrite take_insert_ge by lia.
    rewrite <- (assoc_L (++)). simpl. by rewrite Nat.add_succ_r.
Qed.

Lemma uread_run fd buf off n a l calls :
  uread fd buf off n (mkUst (a :: l) calls) =
  Ok (a_ret a, if 0 <? a_ret a then splice buf off (a_data a) else buf) (mkUst l (Uread fd n :: calls)).
Proof. reflexivity. Qed.
