(* ===== verification/Grep.v ===== *)
(** * [grep.c]: the pattern matcher and the loop over the lines

    Patterns and lines are C strings without their NUL. The matcher is shown to decide
    the language its pattern stands for, and the program to print the matching lines of
    its input, however the input is cut into reads, as long as every read brings the end
    of a line. *)

From S2P Require Import Prelude Params Strings State Locks Printf User.

(** ** The matcher *)

Definition is_dot (c : Z) : bool := c =? 46.

(** The loop of [matchstar]; [here] is [matchhere] with the rest of the pattern. *)
Fixpoint matchstar (here : list Z -> bool) (c : Z) (text : list Z) : bool :=
  here text ||
  match text with
  | t :: text' => ((t =? c) || is_dot c) && matchstar here c text'
  | [] => false
  end.

(** [*text != 0 && (re[0] == '.' || re[0] == *text)] and the call for the rest. *)
Definition matchone (here : list Z -> bool) (c : Z) (text : list Z) : bool :=
  match text with
  | t :: text' => (is_dot c || (c =? t)) && here text'
  | [] => false
  end.

Definition is_nil (l : list Z) : bool := match l with [] => true | _ => false end.

Fixpoint matchhere (re : list Z) : list Z -> bool :=
  match re with
  | [] => fun _ => true
  | c :: re' => fun text =>
      match re' with
      | d :: re'' => if d =? 42 then matchstar (matchhere re'') c text else matchone (matchhere re') c text
      | [] => if c =? 36 then is_nil text else matchone (matchhere re') c text
      end
  end.

(** The loop of [match]: every suffix of the text is tried, the empty one last. *)
Fixpoint match_loop (re text : list Z) : bool :=
  matchhere re text || match text with _ :: text' => match_loop re text' | [] => false end.

Definition match_ (re text : list Z) : bool :=
  match re with
  | c :: re' => if c =? 94 then matchhere re' text else match_loop re text
  | [] => match_loop re text
  end.

(** ** The program *)

(** The loop over the lines that are complete in the buffer, from [p] on: where it stops,
    and the buffer after it. A line that does not match keeps the NUL put in the place of
    its newline. *)
Fixpoint grep_lines (fuel : nat) (pattern buf : list Z) (p : nat) : U (nat * list Z) :=
  match strchr_l (drop p buf) 10 with
  | None => ret (p, buf)
  | Some d =>
      let q := (p + d)%nat in
      match fuel with
      | O => spin
      | S f =>
          let cut := <[q := 0]> buf in
          if match_ pattern (cstring (drop p cut)) then
            let buf := <[q := 10]> cut in
            sys_ (Uwrite 1 (take (q + 1 - p) (drop p buf))) ;;
            grep_lines f pattern buf (q + 1)
          else grep_lines f pattern cut (q + 1)
      end
  end.

(** [sizeof(buf)] *)
Definition GREPBUF : nat := 1024.

(** The loop over the reads, with [m] bytes left in the buffer. *)
Fixpoint grep_loop (fuel : nat) (pattern : list Z) (fd : Z) (buf : list Z) (m : nat) : U (list Z) :=
  match fuel with
  | O => spin
  | S f =>
      r <- uread fd buf m (Z.of_nat (GREPBUF - m - 1)) ;;
      let '(n, buf) := r in
      if n <=? 0 then ret buf else
      let m := (m + Z.to_nat n)%nat in
      let buf := <[m := 0]> buf in
      r <- grep_lines (length buf) pattern buf 0 ;;
      let '(p, buf) := r in
      let m := if (p =? 0)%nat then 0%nat else m in
      if (0 <? m)%nat then grep_loop f pattern fd (move_l (m - p) buf 0 p) (m - p)
      else grep_loop f pattern fd buf m
  end.

Definition grep (pattern : list Z) (fd : Z) (buf : list Z) : U (list Z) :=
  n <- ufuel ;; grep_loop n pattern fd buf 0.

(** The loop of [main] over the files. *)
Fixpoint grep_files (pattern : list Z) (files : list (list Z)) (buf : list Z) : U unit :=
  match files with
  | [] => uexit
  | f :: files' =>
      fd <- sys_ret (Uopen f 0) ;;
      if fd <? 0 then
        uprintf 1 (strn "grep: cannot open %s") [PStr (Some f)] ;; uexit
      else
        buf <- grep pattern fd buf ;;
        sys_ (Uclose fd) ;;
        grep_files pattern files' buf
  end.

Definition grep_main (argv : list (list Z)) : U unit :=
  let buf := replicate GREPBUF 0 in
  match argv with
  | _ :: pattern :: files =>
      match files with
      | [] => grep pattern 0 buf ;; uexit
      | _ => grep_files pattern files buf
      end
  | _ =>
      uprintf 2 (strn "usage: grep pattern [file ...]") [] ;; uexit
  end.

(** ** What a pattern stands for *)

(** A character of the pattern stands for itself, and the dot for any character. *)
Definition fits (c t : Z) : Prop := c = 46 \/ c = t.

(** [c], and [c*]. *)
Inductive atom := One (c : Z) | Many (c : Z).

(** The texts a sequence of atoms stands for. *)
Inductive lang : list atom -> list Z -> Prop :=
| lang_nil : lang [] []
| lang_one c t a l : fits c t -> lang a l -> lang (One c :: a) (t :: l)
| lang_many c ts a l : Forall (fits c) ts -> lang a l -> lang (Many c :: a) (ts ++ l).

(** The atoms of a pattern, and whether it is tied to the end of the line. *)
Fixpoint atoms (re : list Z) : list atom * bool :=
  match re with
  | [] => ([], false)
  | c :: re' =>
      match re' with
      | d :: re'' =>
          if d =? 42 then (Many c :: fst (atoms re''), snd (atoms re''))
          else (One c :: fst (atoms re'), snd (atoms re'))
      | [] => if c =? 36 then ([], true) else ([One c], false)
      end
  end.

(** The pattern matches at the start of the text. *)
Definition starts (re text : list Z) : Prop :=
  exists l rest, text = l ++ rest /\ lang (fst (atoms re)) l /\ (snd (atoms re) = true -> rest = []).

(** The pattern matches somewhere in the text, or at its start if it begins with a caret. *)
Definition occurs (re text : list Z) : Prop :=
  match re with
  | c :: re' => if c =? 94 then starts re' text else exists l rest, text = l ++ rest /\ starts re rest
  | [] => exists l rest, text = l ++ rest /\ starts re rest
  end.

Lemma is_nil_true l : is_nil l = true <-> l = [].
Proof. by destruct l. Qed.

Lemma matchone_true here c text :
  matchone here c text = true <-> exists t text', text = t :: text' /\ fits c t /\ here text' = true.
Proof.
  unfold matchone, fits, is_dot. destruct text as [|t text]; [naive_solver|].
  rewrite andb_true_iff, orb_true_iff, !Z.eqb_eq. naive_solver.
Qed.

Lemma matchstar_true here c text :
  matchstar here c text = true <-> exists ts rest, text = ts ++ rest /\ Forall (fits c) ts /\ here rest = true.
Proof.
  induction text as [|t text IH]; simpl; rewrite orb_true_iff.
  - split; [intros [Hh|?]; [by exists [], []|done]|]. intros (ts & rest & E & _ & Hh). left.
    destruct ts, rest; done.
  - rewrite andb_true_iff, orb_true_iff, IH. unfold is_dot. rewrite !Z.eqb_eq. split.
    + intros [Hh|[Ht (ts & rest & -> & Hts & Hh)]]; [by exists [], (t :: text)|].
      exists (t :: ts), rest. split; [done|]. split; [|done]. constructor; [|done]. unfold fits. naive_solver.
    + intros ([|t' ts] & rest & E & Hts & Hh); simplify_eq/=; [by left|]. right.
      apply Forall_cons_1 in Hts as [Ht Hts]. split; [unfold fits in Ht; naive_solver|]. by exists ts, rest.
Qed.

(** One more atom in front of the pattern. *)
Lemma starts_one c a e (text : list Z) :
  (exists l rest, text = l ++ rest /\ lang (One c :: a) l /\ (e = true -> rest = [])) <->
  exists t text', text = t :: text' /\ fits c t /\ exists l rest, text' = l ++ rest /\ lang a l /\ (e = true -> rest = []).
Proof.
  split.
  - intros (l & rest & -> & Hl & He). inversion Hl; subst. naive_solver.
  - intros (t & text' & -> & Ht & l & rest & -> & Hl & He). exists (t :: l), rest. split; [done|]. by split; [constructor|].
Qed.

Lemma starts_many c a e (text : list Z) :
  (exists l rest, text = l ++ rest /\ lang (Many c :: a) l /\ (e = true -> rest = [])) <->
  exists ts text', text = ts ++ text' /\ Forall (fits c) ts /\
    exists l rest, text' = l ++ rest /\ lang a l /\ (e = true -> rest = []).
Proof.
  split.
  - intros (l & rest & -> & Hl & He). inversion Hl; subst. rewrite <- (assoc_L (++)). naive_solver.
  - intros (ts & text' & -> & Ht & l & rest & -> & Hl & He). exists (ts ++ l), rest. rewrite (assoc_L (++)).
    split; [done|]. by split; [constructor|].
Qed.

Lemma starts_end (text : list Z) : (exists l rest, text = l ++ rest /\ lang [] l /\ (true = true -> rest = [])) <-> text = [].
Proof.
  split; [|intros ->; exists [], []; naive_solver constructor].
  intros (l & rest & -> & Hl & Hr). inversion Hl; subst. by rewrite Hr.
Qed.

Lemma starts_nil (text : list Z) : exists l rest, text = l ++ rest /\ lang [] l /\ (false = true -> rest = []).
Proof. exists [], text. split; [done|]. by split; [constructor|]. Qed.

Lemma matchhere_starts n re text : (length re <= n)%nat -> matchhere re text = true <-> starts re text.
Proof.
  revert re text. induction n as [|n IH]; intros [|c re'] text Hn; simpl in Hn; try lia.
  1,2: split; [intros _; apply starts_nil|done].
  unfold starts. destruct re' as [|d re'']; cbn [matchhere atoms].
  - destruct (c =? 36); cbn [fst snd]; [by rewrite is_nil_true, starts_end|].
    rewrite matchone_true, starts_one. split; intros (t & text' & -> & Ht & _); exists t, text'; (split; [done|]);
      (split; [done|]); [apply starts_nil|done].
  - destruct (d =? 42); cbn [fst snd].
    + rewrite matchstar_true, starts_many. simpl in Hn. setoid_rewrite (IH re''); [done|lia].
    + change (matchone (matchhere (d :: re'')) c text = true <-> exists l rest, text = l ++ rest /\
        lang (One c :: fst (atoms (d :: re''))) l /\ (snd (atoms (d :: re'')) = true -> rest = [])).
      rewrite matchone_true, starts_one. setoid_rewrite (IH (d :: re'')); [done|simpl in *; lia].
Qed.

Lemma match_loop_true re text : match_loop re text = true <-> exists l rest, text = l ++ rest /\ matchhere re rest = true.
Proof.
  induction text as [|t text IH]; simpl; rewrite orb_true_iff.
  - split; [intros [Hm|?]; [by exists [], []|done]|]. intros ([|??] & [|??] & E & Hm); by auto.
  - rewrite IH. split.
    + intros [Hm|(l & rest & -> & Hm)]; [by exists [], (t :: text)|by exists (t :: l), rest].
    + intros ([|t' l] & rest & E & Hm); simplify_eq/=; [by left|right; eauto].
Qed.

(** C34. The matcher of [grep] decides the language of its pattern. A pattern is a sequence
    of characters, of which a dot stands for any character and a character followed by a
    star for any number of repetitions, the empty one included; a caret in front ties it
    to the start of the line and a dollar at the end to its end. [match] answers 1 exactly
    if some part of the line, in the place the anchors allow, is in that language,
    whatever the pattern and the line. *)
Theorem match_decides re text : match_ re text = true <-> occurs re text.
Proof.
  assert (forall r t, matchhere r t = true <-> starts r t) as Hh by (intros r t; by apply (matchhere_starts (length r))).
  assert (forall r t, match_loop r t = true <-> exists l rest, t = l ++ rest /\ starts r rest) as Hl.
  { intros r t. rewrite match_loop_true. by setoid_rewrite Hh. }
  unfold match_, occurs. destruct re as [|c re']; [apply Hl|]. by destruct (c =? 94).
Qed.

(** ** The lines of the input *)

(** Lines with their newlines. *)
Definition text (ls : list (list Z)) : list Z := concat ((fun l => l ++ [10]) <$> ls).

Definition plain (l : list Z) : Prop := 0 ∉ l /\ 10 ∉ l.

Definition ends_line (l : list Z) : bool := existsb (Z.eqb 10) l.

(** What follows the last newline, and what comes before. *)
Fixpoint last_part (s : list Z) : list Z :=
  match s with
  | [] => []
  | c :: s' => if ends_line s' then last_part s' else if c =? 10 then s' else s
  end.

Definition whole (s : list Z) : list Z := take (length s - length (last_part s)) s.

(** What the program sees of the input when it is read in the chunks [cs], with [carry] in
    the buffer: a chunk without a newline is dropped together with what was in the buffer. *)
Fixpoint seen (carry : list Z) (cs : list (list Z)) : list Z :=
  match cs with
  | [] => carry
  | c :: cs' => if ends_line c then whole (carry ++ c) ++ seen (last_part (carry ++ c)) cs' else seen [] cs'
  end.

(** Every chunk has a byte, no NUL, and at most the room that is left in the buffer. *)
Fixpoint room (carry : list Z) (cs : list (list Z)) : Prop :=
  match cs with
  | [] => True
  | c :: cs' =>
      (0 < length c)%nat /\ 0 ∉ c /\ (length carry + length c < GREPBUF)%nat /\
      room (if ends_line c then last_part (carry ++ c) else []) cs'
  end.

Lemma ends_line_true l : ends_line l = true <-> 10 ∈ l.
Proof.
  unfold ends_line. rewrite existsb_exists. setoid_rewrite Z.eqb_eq. setoid_rewrite <- list_elem_of_In. naive_solver.
Qed.

Lemma ends_line_false l : ends_line l = false <-> 10 ∉ l.
Proof. rewrite <- ends_line_true. by destruct (ends_line l). Qed.

Lemma text_cons l ls : text (l :: ls) = l ++ 10 :: text ls.
Proof. unfold text. simpl. by rewrite <- (assoc_L (++)). Qed.

Lemma text_app l1 l2 : text (l1 ++ l2) = text l1 ++ text l2.
Proof. unfold text. by rewrite fmap_app, concat_app. Qed.

Lemma last_part_plain s : 10 ∉ s -> last_part s = s.
Proof.
  destruct s as [|c s]; [done|]. intros H. simpl. apply not_elem_of_cons in H as [Hc Hs].
  apply ends_line_false in Hs as ->. by rewrite (proj2 (Z.eqb_neq c 10)).
Qed.

Lemma last_part_app s r : 10 ∉ r -> last_part (s ++ 10 :: r) = r.
Proof.
  intros Hr. induction s as [|c s IH]; simpl.
  - by apply ends_line_false in Hr as ->.
  - rewrite (proj2 (ends_line_true _)); [done|]. apply elem_of_app. right. by left.
Qed.

(** Every text is a number of lines and the start of another. *)
Lemma split_lines s : 0 ∉ s -> exists ls r, s = text ls ++ r /\ Forall plain ls /\ plain r.
Proof.
  induction s as [|c s IH]; intros H0; [by exists [], []; repeat split; try constructor; apply not_elem_of_nil|].
  apply not_elem_of_cons in H0 as [Hc H0]. destruct (IH H0) as (ls & r & -> & Hls & Hr).
  destruct (decide (c = 10)) as [->|Hne].
  - exists ([] :: ls), r. split; [done|]. split; [|done]. constructor; [split; apply not_elem_of_nil|done].
  - destruct ls as [|l ls].
    + exists [], (c :: r). split; [done|]. split; [done|]. unfold plain in *. rewrite !not_elem_of_cons. naive_solver.
    + exists ((c :: l) :: ls), r. rewrite !text_cons. split; [done|]. split; [|done].
      apply Forall_cons_1 in Hls as [Hl Hls]. constructor; [|done]. unfold plain in *. rewrite !not_elem_of_cons. naive_solver.
Qed.

Lemma split_parts ls r : plain r -> last_part (text ls ++ r) = r /\ whole (text ls ++ r) = text ls.
Proof.
  intros [_ Hr]. assert (last_part (text ls ++ r) = r) as E.
  { destruct ls as [|l ls _] using rev_ind; [by apply last_part_plain|].
    rewrite text_app, text_cons. simpl. rewrite (assoc_L (++)), <- (assoc_L (++) _ [10]). by apply last_part_app. }
  split; [done|]. unfold whole. rewrite E, length_app, Nat.add_sub. by apply take_app_length.
Qed.

Lemma whole_last s : 0 ∉ s -> whole s ++ last_part s = s.
Proof. intros H. destruct (split_lines s H) as (ls & r & -> & _ & Hr). by destruct (split_parts ls r Hr) as [-> ->]. Qed.

(** Lines are read off a text in one way. *)
Lemma text_prefix ls1 x ls r :
  Forall plain ls1 -> Forall plain ls -> plain r -> text ls1 ++ x = text ls ++ r ->
  exists ls2, ls = ls1 ++ ls2 /\ x = text ls2 ++ r.
Proof.
  assert (forall (l l' : list Z) a a', 10 ∉ l -> 10 ∉ l' -> l ++ 10 :: a = l' ++ 10 :: a' -> l = l' /\ a = a') as Hone.
  { induction l as [|c l IH]; intros [|c' l'] a a' Hl Hl' E; simplify_eq/=; [done| | |].
    - by apply not_elem_of_cons in Hl' as [? _].
    - by apply not_elem_of_cons in Hl as [? _].
    - apply not_elem_of_cons in Hl as [_ Hl], Hl' as [_ Hl']. destruct (IH l' a a' Hl Hl') as [-> ->]; [|done]. congruence. }
  revert ls. induction ls1 as [|l1 ls1 IH]; intros ls H1 Hls Hr E; [by exists ls|].
  apply Forall_cons_1 in H1 as [[_ Hl1] H1]. rewrite text_cons, <- (assoc_L (++)) in E. simpl in E.
  destruct ls as [|l ls].
  - exfalso. simpl in E. apply Hr. rewrite <- E. apply elem_of_app. right. by left.
  - apply Forall_cons_1 in Hls as [[_ Hl] Hls]. rewrite text_cons, <- (assoc_L (++)) in E. simpl in E.
    destruct (Hone _ _ _ _ Hl1 Hl E) as [-> E']. destruct (IH ls H1 Hls Hr E') as (ls2 & -> & ->). by exists ls2.
Qed.

(** ** Running the program *)

Lemma strchr_newline l x : plain l -> strchr_l (l ++ 10 :: x) 10 = Some (length l).
Proof.
  induction l as [|c l IH]; intros [H0 H1]; simpl; [done|]. apply not_elem_of_cons in H0 as [? H0], H1 as [? H1].
  rewrite (proj2 (Z.eqb_neq c 0)), (proj2 (Z.eqb_neq c 10)) by congruence. by rewrite IH.
Qed.

Lemma strchr_nul r x : plain r -> strchr_l (r ++ 0 :: x) 10 = None.
Proof.
  induction r as [|c r IH]; intros [H0 H1]; simpl; [done|]. apply not_elem_of_cons in H0 as [? H0], H1 as [? H1].
  rewrite (proj2 (Z.eqb_neq c 0)), (proj2 (Z.eqb_neq c 10)) by congruence. by rewrite IH.
Qed.

Lemma cstring_nul l x : 0 ∉ l -> cstring (l ++ 0 :: x) = l.
Proof.
  induction l as [|c l IH]; intros H; simpl; [done|]. apply not_elem_of_cons in H as [? H].
  rewrite (proj2 (Z.eqb_neq c 0)) by congruence. by rewrite IH.
Qed.

Lemma drop_put (p : nat) (buf l x : list Z) b c :
  drop p buf = l ++ b :: x -> drop p (<[(p + length l)%nat := c]> buf) = l ++ c :: x.
Proof.
  intros E. rewrite drop_insert_ge by lia. rewrite E. replace (p + length l - p)%nat with (length l + 0)%nat by lia.
  by rewrite insert_app_r.
Qed.

Lemma drop_past (p : nat) (buf l x : list Z) c : drop p buf = l ++ c :: x -> drop (p + length l + 1) buf = x.
Proof. intros E. rewrite <- Nat.add_assoc, <- drop_drop, E. rewrite <- drop_drop, drop_app_length. done. Qed.

Section Run.
Context (pattern : list Z).

Definition hits (ls : list (list Z)) : list (list Z) := filter (fun l => match_ pattern l = true) ls.

Definition wrote (ls : list (list Z)) (s : ust) : ust := s <| u_calls ::= app (rev ((fun l => Uwrite 1 (l ++ [10])) <$> ls)) |>.

Lemma wrote_app l1 l2 s : wrote l2 (wrote l1 s) = wrote (l1 ++ l2) s.
Proof. destruct s as [a cs]. unfold wrote. ured. by rewrite fmap_app, rev_app_distr, (assoc_L (++)). Qed.

Lemma output_wrote ls s : output 1 (wrote ls s) = output 1 s ++ text ls.
Proof.
  destruct s as [a cs]. unfold wrote, output, text. ured. rewrite rev_app_distr, rev_involutive, fmap_app, concat_app. f_equal.
  by rewrite <- list_fmap_compose.
Qed.

Lemma grep_lines_run ls r x buf p fuel s :
  drop p buf = text ls ++ r ++ 0 :: x -> Forall plain ls -> plain r -> (length ls <= fuel)%nat ->
  exists buf', grep_lines fuel pattern buf p s = Ok ((p + length (text ls))%nat, buf') (wrote (hits ls) s) /\
    length buf' = length buf /\ drop (p + length (text ls)) buf' = r ++ 0 :: x.
Proof.
  revert buf p fuel s. induction ls as [|l ls IH]; intros buf p fuel s E Hls Hr Hf.
  - exists buf. change (text []) with (@nil Z) in *. cbn [length app] in *. rewrite Nat.add_0_r. split; [|done].
    destruct fuel; cbn [grep_lines]; rewrite E, strchr_nul by done; unfold wrote; destruct s; by ured.
  - apply Forall_cons_1 in Hls as [Hl Hls]. rewrite text_cons, <- (assoc_L (++)) in E. simpl in E, Hf.
    destruct fuel as [|fuel]; [lia|]. cbn [grep_lines]. rewrite E, strchr_newline by done. cbv zeta.
    pose proof (drop_put p buf l _ 10 0 E) as E0. rewrite E0, cstring_nul by apply Hl.
    assert (length (text (l :: ls)) = length l + 1 + length (text ls))%nat as Hlen.
    { rewrite text_cons, length_app. simpl. lia. }
    rewrite Hlen, !Nat.add_assoc. unfold hits. rewrite filter_cons. fold (hits ls).
    destruct (match_ pattern l) eqn:Em.
    + rewrite decide_True by done. pose proof (drop_put p _ l _ 0 10 E0) as E1. unfold sys_. mstep.
      rewrite list_insert_insert_eq in E1 |- *. rewrite E1.
      destruct (IH _ (p + length l + 1)%nat fuel
        (s <| u_calls ::= cons (Uwrite 1 (take (p + length l + 1 - p) (l ++ 10 :: text ls ++ r ++ 0 :: x))) |>)
        (drop_past _ _ _ _ _ E1) Hls Hr ltac:(lia)) as (buf' & Erun & Hlb & Hd).
      exists buf'. rewrite Erun. rewrite length_insert in Hlb. split; [|done]. f_equal.
      change (l :: hits ls) with ([l] ++ hits ls). rewrite <- wrote_app. f_equal. unfold wrote. destruct s. ured. cbn.
      replace (p + length l + 1 - p)%nat with (length l + 1)%nat by lia. rewrite take_app_add. done.
    + rewrite decide_False by congruence.
      destruct (IH _ (p + length l + 1)%nat fuel s (drop_past _ _ _ _ _ E0) Hls Hr ltac:(lia)) as (buf' & Erun & Hlb & Hd).
      exists buf'. rewrite Erun. rewrite length_insert in Hlb. done.
Qed.

(** The buffer after a read, with its NUL. *)
Lemma read_buffer (buf carry c : list Z) m :
  take m buf = carry -> length carry = m -> (m + length c < length buf)%nat ->
  <[(m + length c)%nat := 0]> (splice buf m c) = (carry ++ c) ++ 0 :: drop (m + length c + 1) buf.
Proof.
  intros E Hm Hl. unfold splice. rewrite E, (assoc_L (++)). replace (m + length c)%nat with (length (carry ++ c) + 0)%nat at 1
    by (rewrite length_app; lia).
  rewrite insert_app_r. f_equal. destruct (drop (m + length c) buf) as [|b l] eqn:Ed.
  - apply (f_equal length) in Ed. rewrite length_drop in Ed. simpl in Ed. lia.
  - simpl. f_equal. rewrite <- drop_drop, Ed. done.
Qed.

(** One round: the lines that are now complete are done, and the rest is carried over. *)
Lemma grep_round fuel fd buf m carry c a calls ls r :
  length buf = GREPBUF -> take m buf = carry -> length carry = m -> (0 < length c)%nat ->
  (length carry + length c < GREPBUF)%nat -> carry ++ c = text ls ++ r -> Forall plain ls -> plain r ->
  exists buf', length buf' = GREPBUF /\ take (if is_nil (text ls) then 0 else length r) buf' = (if is_nil (text ls) then [] else r) /\
    grep_loop (S fuel) pattern fd buf m (mkUst (mkAnswer (Z.of_nat (length c)) c :: a) calls) =
    grep_loop fuel pattern fd buf' (if is_nil (text ls) then 0 else length r)
      (wrote (hits ls) (mkUst a (Uread fd (Z.of_nat (GREPBUF - m - 1)) :: calls))).
Proof.
  intros Hb Et Hm Hc Hroom E Hls Hr. cbn [grep_loop]. mcall uread_run. cbn [a_ret a_data].
  rewrite (proj2 (Z.ltb_lt 0 _)), (proj2 (Z.leb_gt _ 0)) by lia. rewrite Nat2Z.id.
  rewrite (read_buffer buf carry c m Et Hm) by lia. rewrite E, <- (assoc_L (++)).
  set (x := drop _ buf). set (b1 := text ls ++ r ++ 0 :: x).
  assert (length b1 = GREPBUF) as Hb1.
  { unfold b1, x. rewrite (assoc_L (++)), <- E, !length_app. simpl. rewrite length_drop. lia. }
  assert (length ls <= length b1)%nat as Hfuel.
  { unfold b1. rewrite length_app. clear. enough (length ls <= length (text ls))%nat by lia.
    induction ls as [|l ls IH]; [done|]. rewrite text_cons, length_app. simpl. lia. }
  destruct (grep_lines_run ls r x b1 0 (length b1) (mkUst a (Uread fd (Z.of_nat (GREPBUF - m - 1)) :: calls))
    eq_refl Hls Hr Hfuel) as (b2 & Erun & Hb2 & Hd). simpl in Erun, Hd.
  assert (m + length c = length (text ls) + length r)%nat as Hml.
  { apply (f_equal length) in E. rewrite !length_app in E. lia. }
  rewrite (bind_ok _ _ _ _ _ Erun). destruct (text ls) as [|z tx] eqn:Etx.
  - exists b2. rewrite Hb2. done.
  - cbn [is_nil length Nat.eqb]. rewrite Hml.
    replace (S (length tx) + length r - S (length tx))%nat with (length r) by lia.
    assert (S (length tx) + length r < length b2)%nat as Hlt.
    { rewrite Hb2, Hb1. simpl in Hml. lia. }
    assert (move_l (length r) b2 0 (S (length tx)) = r ++ drop (length r) b2) as Emove.
    { rewrite move_l_spec by lia. simpl in Hd. simpl. by rewrite Hd, take_app_length. }
    exists (r ++ drop (length r) b2). split; [|split; [by rewrite take_app_length|]].
    + rewrite length_app, length_drop, Hb2, Hb1. lia.
    + simpl. replace (length tx + length r - length tx)%nat with (length r) by lia. by rewrite Emove.
Qed.

Lemma grep_loop_run cs fd : forall fuel buf m carry rest calls ls r,
  length buf = GREPBUF -> take m buf = carry -> length carry = m -> plain carry -> room carry cs ->
  (length cs < fuel)%nat -> seen carry cs = text ls ++ r -> Forall plain ls -> plain r ->
  exists buf' s', grep_loop fuel pattern fd buf m (mkUst (served cs ++ eof :: rest) calls) = Ok buf' s' /\
    length buf' = GREPBUF /\ u_answers s' = rest /\ output 1 s' = output 1 (mkUst [] calls) ++ text (hits ls).
Proof.
  induction cs as [|c cs IH]; intros [|fuel] buf m carry rest calls ls r Hb Et Hm Hcar Hroom Hfuel Hseen Hls Hr; simpl in Hfuel; try lia.
  - exists buf, (mkUst rest (Uread fd (Z.of_nat (GREPBUF - m - 1)) :: calls)). split; [done|]. split; [done|]. split; [done|].
    simpl in Hseen. destruct (text_prefix ls r [] carry) as (ls2 & E & _); [done|constructor|done|by rewrite <- Hseen|].
    symmetry in E. apply app_nil in E as [-> _]. rewrite output_cons. by rewrite !app_nil_r.
  - destruct Hroom as (Hc & H0 & Hlen & Hroom). change (served (c :: cs)) with (mkAnswer (Z.of_nat (length c)) c :: served cs).
    assert (0 ∉ carry ++ c) as Hz by (rewrite not_elem_of_app; split; [apply Hcar|done]).
    destruct (split_lines (carry ++ c) Hz) as (ls1 & r1 & E & Hls1 & Hr1).
    destruct (split_parts ls1 r1 Hr1) as [Elast Ewhole]. cbn [seen] in Hseen. rewrite E, Elast, Ewhole in Hseen. rewrite E, Elast in Hroom.
    rewrite <- app_comm_cons. destruct (grep_round fuel fd buf m carry c (served cs ++ eof :: rest) calls ls1 r1 Hb Et Hm Hc Hlen E Hls1 Hr1)
      as (buf1 & Hb1 & Et1 & ->).
    assert (ends_line c = negb (is_nil (text ls1))) as Eends.
    { destruct ls1 as [|l1 ls1 _] using rev_ind.
      - simpl. apply ends_line_false. simpl in E. rewrite <- E in Hr1. destruct Hr1 as [_ Hr1].
        apply not_elem_of_app in Hr1 as [_ Hr1]. done.
      - rewrite text_app, text_cons. replace (is_nil _) with false by (by destruct (text ls1), l1). simpl. apply ends_line_true.
        assert (10 ∈ carry ++ c) as Hin.
        { rewrite E, text_app, text_cons, !elem_of_app. left. right. right. by left. }
        apply elem_of_app in Hin as [Hin|Hin]; [by destruct Hcar|done]. }
    rewrite Eends in Hseen, Hroom. destruct (is_nil (text ls1)) eqn:En; simpl in Hseen, Hroom.
    + assert (ls1 = []) as ->. { destruct ls1 as [|l1 ls1]; [done|]. rewrite text_cons in En. by destruct l1. }
      destruct (IH fuel buf1 0%nat [] rest (Uread fd (Z.of_nat (GREPBUF - m - 1)) :: calls) ls r Hb1 Et1 eq_refl
        ltac:(split; apply not_elem_of_nil) Hroom ltac:(lia) Hseen Hls Hr) as (buf' & s' & Erun & Hb' & Ha' & Ho').
      exists buf', s'. split; [exact Erun|]. split; [done|]. split; [done|]. rewrite Ho', output_cons. simpl. by rewrite app_nil_r.
    + destruct (text_prefix ls1 (seen r1 cs) ls r Hls1 Hls Hr Hseen) as (ls2 & -> & Hseen2).
      apply Forall_app in Hls as [_ Hls2].
      destruct (IH fuel buf1 (length r1) r1 rest (u_calls (wrote (hits ls1) (mkUst [] (Uread fd (Z.of_nat (GREPBUF - m - 1)) :: calls)))) ls2 r
        Hb1 Et1 eq_refl Hr1 Hroom ltac:(lia) Hseen2 Hls2 Hr) as (buf' & s' & Erun & Hb' & Ha' & Ho').
      exists buf', s'. split; [exact Erun|]. split; [done|]. split; [done|]. rewrite Ho'.
      change (mkUst [] (u_calls (wrote (hits ls1) (mkUst [] (Uread fd (Z.of_nat (GREPBUF - m - 1)) :: calls)))))
        with (wrote (hits ls1) (mkUst [] (Uread fd (Z.of_nat (GREPBUF - m - 1)) :: calls))).
      rewrite output_wrote, output_cons. simpl. rewrite app_nil_r. unfold hits. rewrite list.filter_app, text_app. by rewrite (assoc_L (++)).
Qed.
End Run.

Lemma seen_all cs : forall carry, room carry cs -> 0 ∉ carry -> Forall (fun c => ends_line c = true) cs -> seen carry cs = carry ++ concat cs.
Proof.
  induction cs as [|c cs IH]; intros carry Hroom H0 Hall; simpl; [by rewrite app_nil_r|].
  apply Forall_cons_1 in Hall as [Hc Hall]. destruct Hroom as (_ & Hc0 & _ & Hroom). rewrite Hc in Hroom |- *.
  assert (0 ∉ carry ++ c) as Hz by by rewrite not_elem_of_app.
  pose proof (whole_last _ Hz) as Ew. rewrite IH; [|done| |done].
  - by rewrite !(assoc_L (++)), Ew.
  - rewrite <- Ew, not_elem_of_app in Hz. apply Hz.
Qed.

(** C35. [grep] prints the matching lines of its input, in order, each once and with its
    newline, however the input is cut into reads. It reads on to the end of the file and
    returns. The input is taken as far as it sees it: a read that brings no newline makes
    it drop what it has of the current line. If every read brings a newline nothing is
    dropped. The last line is not printed when its newline is missing. *)
Theorem grep_prints_matches pattern fd buf cs rest calls ls r :
  length buf = GREPBUF -> room [] cs -> seen [] cs = text ls ++ r -> Forall plain ls -> plain r ->
  (exists buf' s', grep pattern fd buf (mkUst (served cs ++ eof :: rest) calls) = Ok buf' s' /\ length buf' = GREPBUF /\
    u_answers s' = rest /\
    output 1 s' = output 1 (mkUst [] calls) ++ text (filter (fun l => match_ pattern l = true) ls)) /\
  (Forall (fun c => ends_line c = true) cs -> text ls ++ r = concat cs).
Proof.
  intros Hb Hroom Hseen Hls Hr. assert (plain []) as Hnil by (split; apply not_elem_of_nil). split.
  - unfold grep, ufuel. mstep. cbn [u_answers]. apply (grep_loop_run pattern cs fd _ buf 0 [] rest calls ls r); try done.
    rewrite length_app. simpl. unfold served. rewrite length_fmap. lia.
  - intros Hall. rewrite <- Hseen. apply seen_all; [done|apply Hnil|done].
Qed.

(** A line cut in two by the reads keeps only its end; lines that come whole are printed. *)
Lemma grep_prints_matches_witness :
  (exists buf' s', grep (str "o") 0 (replicate GREPBUF 0) (mkUst (served [str "on"; strn "e"; strn "two"] ++ [eof]) []) = Ok buf' s' /\
    output 1 s' = strn "two") /\
  (exists buf' s', grep (str "o") 0 (replicate GREPBUF 0) (mkUst (served [strn "one" ++ str "tw"; strn "o"] ++ [eof]) []) = Ok buf' s' /\
    output 1 s' = strn "one" ++ strn "two").
Proof.
  split.
  - destruct (grep_prints_matches (str "o") 0 (replicate GREPBUF 0) [str "on"; strn "e"; strn "two"] [] [] [str "e"; str "two"] [])
      as [(b & s & E & _ & _ & Ho) _]; [reflexivity|by apply (bool_decide_unpack _)|reflexivity|by apply (bool_decide_unpack _)|by apply (bool_decide_unpack _)|].
    exists b, s. split; [exact E|]. rewrite Ho. vm_compute. reflexivity.
  - destruct (grep_prints_matches (str "o") 0 (replicate GREPBUF 0) [strn "one" ++ str "tw"; strn "o"] [] [] [str "one"; str "two"] [])
      as [(b & s & E & _ & _ & Ho) _]; [reflexivity|by apply (bool_decide_unpack _)|reflexivity|by apply (bool_decide_unpack _)|by apply (bool_decide_unpack _)|].
    exists b, s. split; [exact E|]. rewrite Ho. vm_compute. reflexivity.
Defined.
