(* ===== verification/Coreutils.v ===== *)
(** * The small user programs

    [cat.c], [echo.c], [wc.c], [ls.c], [ln.c], [rm.c], [mkdir.c], [kill.c], [init.c],
    [zombie.c] and [stat] of [ulib.c], each with its [main]. Arguments are C strings
    without their NUL, [argv] is the list of them. [wc] is shown to count what its input
    holds and [cat] to copy it, however the input is cut into reads. *)

From S2P Require Import Prelude Params Strings State Locks Printf User.

(** [sizeof(buf)] in [cat.c] and [wc.c]. *)
Definition IOBUF : Z := 512.

(** ** cat *)

(** The loop of [cat]: what the last read answered, and the buffer. *)
Fixpoint cat_loop (fuel : nat) (fd : Z) (buf : list Z) : U (Z * list Z) :=
  match fuel with
  | O => spin
  | S f =>
      r <- uread fd buf 0 IOBUF ;;
      let '(n, buf) := r in
      if n <=? 0 then ret (n, buf) else
      w <- sys_ret (Uwrite 1 (take (Z.to_nat n) buf)) ;;
      if negb (w =? n) then uprintf 1 (strn "cat: write error") [] ;; uexit
      else cat_loop f fd buf
  end.

Definition cat (fd : Z) (buf : list Z) : U (list Z) :=
  fuel <- ufuel ;;
  r <- cat_loop fuel fd buf ;;
  let '(n, buf) := r in
  if n <? 0 then uprintf 1 (strn "cat: read error") [] ;; uexit else ret buf.

(** The loop of [main] over files, shared by [cat] and [wc]: [body] is given the
    descriptor and the name. *)
Fixpoint each_file (prog : string) (body : Z -> list Z -> list Z -> U (list Z)) (files : list (list Z)) (buf : list Z) : U unit :=
  match files with
  | [] => uexit
  | f :: files' =>
      fd <- sys_ret (Uopen f 0) ;;
      if fd <? 0 then uprintf 1 (str prog ++ strn ": cannot open %s") [PStr (Some f)] ;; uexit
      else
        buf <- body fd f buf ;;
        sys_ (Uclose fd) ;;
        each_file prog body files' buf
  end.

Definition cat_main (argv : list (list Z)) : U unit :=
  let buf := replicate (Z.to_nat IOBUF) 0 in
  match tl argv with
  | [] => cat 0 buf ;; uexit
  | files => each_file "cat" (fun fd _ buf => cat fd buf) files buf
  end.

(** ** echo *)

Fixpoint echo_loop (args : list (list Z)) : U unit :=
  match args with
  | [] => ret tt
  | a :: args' =>
      uprintf 1 (str "%s%s") [PStr (Some a); PStr (Some (match args' with [] => [10] | _ => [32] end))] ;;
      echo_loop args'
  end.

Definition echo_main (argv : list (list Z)) : U unit := echo_loop (tl argv) ;; uexit.

(** ** wc *)

Record counts := mkCounts { wc_l : Z; wc_w : Z; wc_c : Z; wc_inword : bool }.

Definition is_space (b : Z) : bool := match strchr_l [32; 13; 9; 10; 11; 0] b with Some _ => true | None => false end.

Definition wc_char (k : counts) (b : Z) : counts :=
  let c := s32 (wc_c k + 1) in
  let l := if b =? 10 then s32 (wc_l k + 1) else wc_l k in
  if is_space b then mkCounts l (wc_w k) c false
  else if negb (wc_inword k) then mkCounts l (s32 (wc_w k + 1)) c true
  else mkCounts l (wc_w k) c true.

Fixpoint wc_loop (fuel : nat) (fd : Z) (buf : list Z) (k : counts) : U (Z * list Z * counts) :=
  match fuel with
  | O => spin
  | S f =>
      r <- uread fd buf 0 IOBUF ;;
      let '(n, buf) := r in
      if n <=? 0 then ret (n, buf, k) else
      wc_loop f fd buf (fold_left wc_char (take (Z.to_nat n) buf) k)
  end.

Definition wc (fd : Z) (name buf : list Z) : U (list Z) :=
  fuel <- ufuel ;;
  r <- wc_loop fuel fd buf (mkCounts 0 0 0 false) ;;
  let '(n, buf, k) := r in
  if n <? 0 then uprintf 1 (strn "wc: read error") [] ;; uexit else
  uprintf 1 (strn "%d %d %d %s") [PInt (wc_l k); PInt (wc_w k); PInt (wc_c k); PStr (Some name)] ;;
  ret buf.

Definition wc_main (argv : list (list Z)) : U unit :=
  let buf := replicate (Z.to_nat IOBUF) 0 in
  match tl argv with
  | [] => wc 0 [] buf ;; uexit
  | files => each_file "wc" wc files buf
  end.

(** ** stat and ls *)

(** [struct stat] as [fstat] fills it in: type, device, inode number, links, size. *)
Definition st_type (st : list Z) : Z := nth 0 st 0.
Definition st_ino (st : list Z) : Z := nth 2 st 0.
Definition st_size (st : list Z) : Z := nth 4 st 0.

(** [stat] of the user library: the answer, and the structure if it was filled in. *)
Definition ustat (n : list Z) : U (Z * list Z) :=
  fd <- sys_ret (Uopen n O_RDONLY) ;;
  if fd <? 0 then ret (-1, []) else
  a <- sys (Ufstat fd) ;;
  sys_ (Uclose fd) ;;
  ret (a_ret a, a_data a).

(** The loop of [fmtname] goes down from the end of the path to a slash. *)
Fixpoint to_slash (rpath : list Z) : list Z :=
  match rpath with
  | c :: l => if c =? 47 then [] else to_slash l ++ [c]
  | [] => []
  end.

Definition fmtname (path : list Z) : list Z :=
  let p := to_slash (rev path) in
  if DIRSIZ <=? Z.of_nat (length p) then p else p ++ replicate (Z.to_nat DIRSIZ - length p) 32.

Definition ls_line (name st : list Z) : U unit :=
  uprintf 1 (strn "%s %d %d %d") [PStr (Some (fmtname name)); PInt (st_type st); PInt (st_ino st); PInt (st_size st)].

(** The entries of a directory; [read] gives a [struct dirent], the inode number in two
    bytes and the name in fourteen. *)
Fixpoint ls_entries (fuel : nat) (fd : Z) (path : list Z) : U unit :=
  match fuel with
  | O => spin
  | S f =>
      a <- sys (Uread fd 16) ;;
      if negb (a_ret a =? 16) then ret tt else
      let de := a_data a in
      if nth 0 de 0 + 2 ^ 8 * nth 1 de 0 =? 0 then ls_entries f fd path else
      let buf := path ++ [47] ++ cstring (take (Z.to_nat DIRSIZ) (drop 2 de) ++ [0]) in
      st <- ustat buf ;;
      (if fst st <? 0 then uprintf 1 (strn "ls: cannot stat %s") [PStr (Some buf)] else ls_line buf (snd st)) ;;
      ls_entries f fd path
  end.

Definition ls (path : list Z) : U unit :=
  fd <- sys_ret (Uopen path 0) ;;
  if fd <? 0 then uprintf 2 (strn "ls: cannot open %s") [PStr (Some path)] else
  a <- sys (Ufstat fd) ;;
  if a_ret a <? 0 then uprintf 2 (strn "ls: cannot stat %s") [PStr (Some path)] ;; sys_ (Uclose fd) else
  let st := a_data a in
  (if st_type st =? T_FILE then ls_line path st
   else if st_type st =? T_DIR then
     if 512 <? Z.of_nat (length path) + 1 + DIRSIZ + 1 then uprintf 1 (strn "ls: path too long") []
     else fuel <- ufuel ;; ls_entries fuel fd path
   else ret tt) ;;
  sys_ (Uclose fd).

Definition ls_main (argv : list (list Z)) : U unit :=
  match tl argv with
  | [] => ls (str ".") ;; uexit
  | paths => for_each paths ls ;; uexit
  end.

(** ** ln, rm, mkdir, kill *)

Definition ln_main (argv : list (list Z)) : U unit :=
  match argv with
  | [_; old; new] =>
      r <- sys_ret (Ulink old new) ;;
      when (r <? 0) (uprintf 2 (strn "link %s %s: failed") [PStr (Some old); PStr (Some new)]) ;;
      uexit
  | _ => uprintf 2 (strn "Usage: ln old new") [] ;; uexit
  end.

(** The loops of [rm] and [mkdir], which stop at the first failure. *)
Fixpoint rm_loop (files : list (list Z)) : U unit :=
  match files with
  | [] => ret tt
  | f :: files' =>
      r <- sys_ret (Uunlink f) ;;
      if r <? 0 then uprintf 2 (strn "rm: %s failed to delete") [PStr (Some f)] else rm_loop files'
  end.

Definition rm_main (argv : list (list Z)) : U unit :=
  match tl argv with
  | [] => uprintf 2 (strn "Usage: rm files...") [] ;; uexit
  | files => rm_loop files ;; uexit
  end.

Fixpoint mkdir_loop (dirs : list (list Z)) : U unit :=
  match dirs with
  | [] => ret tt
  | d :: dirs' =>
      r <- sys_ret (Umkdir d) ;;
      if r <? 0 then uprintf 2 (strn "mkdir: %s failed to create") [PStr (Some d)] else mkdir_loop dirs'
  end.

Definition mkdir_main (argv : list (list Z)) : U unit :=
  match tl argv with
  | [] => uprintf 2 (strn "Usage: mkdir files...") [] ;; uexit
  | dirs => mkdir_loop dirs ;; uexit
  end.

(** [atoi] of an argument; its characters and its NUL are in memory from address 0 on. *)
Definition atoi_arg (a : list Z) : Z := default 0 (Ulib.atoi (S (length a)) (fun x => nth (Z.to_nat x) a 0) 0).

Definition kill_main (argv : list (list Z)) : U unit :=
  match tl argv with
  | [] => uprintf 2 (strn "usage: kill pid...") [] ;; uexit
  | pids => for_each pids (fun p => sys_ (Ukill (atoi_arg p))) ;; uexit
  end.

(** ** init *)

(** [while((wpid = wait()) >= 0 && wpid != pid)] *)
Fixpoint init_wait (fuel : nat) (pid : Z) : U unit :=
  match fuel with
  | O => spin
  | S f =>
      wpid <- sys_ret Uwait ;;
      if (0 <=? wpid) && negb (wpid =? pid) then uprintf 1 (strn "zombie!") [] ;; init_wait f pid else ret tt
  end.

Fixpoint init_loop (fuel : nat) : U unit :=
  match fuel with
  | O => spin
  | S f =>
      uprintf 1 (strn "init: starting sh") [] ;;
      pid <- sys_ret Ufork ;;
      if pid <? 0 then uprintf 1 (strn "init: fork failed") [] ;; uexit
      else if pid =? 0 then
        sys (Uexec (str "sh") [str "sh"]) ;;
        uprintf 1 (strn "init: exec sh failed") [] ;;
        uexit
      else
        n <- ufuel ;;
        init_wait n pid ;;
        init_loop f
  end.

Definition init_main : U unit :=
  fd <- sys_ret (Uopen (str "console") O_RDWR) ;;
  when (fd <? 0) (sys_ (Umknod (str "console") 1 1) ;; sys_ (Uopen (str "console") O_RDWR)) ;;
  sys_ (Udup 0) ;;
  sys_ (Udup 0) ;;
  n <- ufuel ;;
  init_loop n.

(** ** zombie *)

Definition zombie_main : U unit :=
  pid <- sys_ret Ufork ;;
  when (0 <? pid) (sys_ (Usleep 5)) ;;
  uexit.

(** ** Counting *)

(** [words s ws]: [ws] are the words of [s], the longest runs of characters that are not
    blank. *)
Inductive words : list Z -> list (list Z) -> Prop :=
| words_nil : words [] []
| words_blank c s ws : is_space c = true -> words s ws -> words (c :: s) ws
| words_last w : w <> [] -> Forall (fun c => is_space c = false) w -> words w [w]
| words_word w c s ws :
    w <> [] -> Forall (fun c => is_space c = false) w -> is_space c = true -> words s ws -> words (w ++ c :: s) (w :: ws).

(** Every text has its words. *)
Lemma words_exist s : exists ws, words s ws.
Proof.
  induction s as [|c s [ws IH]]; [exists []; constructor|]. destruct (is_space c) eqn:Ec; [exists ws; by constructor|].
  inversion IH; subst.
  - exists [[c]]. by constructor; [|constructor].
  - exists ([c] :: ws). apply (words_word [c]); try done. by repeat constructor.
  - exists [c :: s]. constructor; [done|]. by constructor.
  - exists ((c :: w) :: ws0). apply (words_word (c :: w)); try done. by constructor.
Qed.

Definition newlines (s : list Z) : Z := Z.of_nat (length (filter (fun c => c = 10) s)).

Lemma newline_blank c : c = 10 -> is_space c = true.
Proof. by intros ->. Qed.

Lemma newlines_cons c s : newlines (c :: s) = (if c =? 10 then 1 else 0) + newlines s.
Proof.
  unfold newlines. rewrite filter_cons. destruct (Z.eqb_spec c 10) as [->|Hne]; [rewrite decide_True by done; simpl; lia|].
  by rewrite decide_False.
Qed.

(** Room for the counters: none of them passes [2 ^ 31]. *)
Definition counted (k : counts) (n : nat) : Prop :=
  0 <= wc_l k <= wc_c k /\ 0 <= wc_w k <= wc_c k /\ wc_c k + Z.of_nat n < 2 ^ 31.

Lemma wc_char_ok k b n :
  counted k (S n) ->
  wc_char k b = mkCounts (wc_l k + if b =? 10 then 1 else 0)
    (wc_w k + if is_space b || wc_inword k then 0 else 1) (wc_c k + 1) (negb (is_space b)) /\
  counted (wc_char k b) n.
Proof.
  intros (Hl & Hw & Hc). unfold wc_char, counted. rewrite (s32_small (wc_c k + 1)), (s32_small (wc_l k + 1)),
    (s32_small (wc_w k + 1)) by (unfold is_s32; lia).
  destruct (b =? 10), (is_space b), (wc_inword k); cbn -[Z.pow]; (split; [f_equal; lia|lia]).
Qed.

(** The characters of a word, after its first. *)
Lemma wc_word w : forall k n, Forall (fun c => is_space c = false) w -> wc_inword k = true -> counted k (length w + n) ->
  fold_left wc_char w k = mkCounts (wc_l k) (wc_w k) (wc_c k + Z.of_nat (length w)) true /\ counted (fold_left wc_char w k) n.
Proof.
  induction w as [|b w IH]; intros k n Hw Hi Hk; simpl.
  - destruct k; simpl in *. subst. split; [f_equal; lia|done].
  - apply Forall_cons_1 in Hw as [Hb Hw]. destruct (wc_char_ok k b (length w + n) Hk) as [E Hk'].
    assert (b =? 10 = false) as Hn. { apply Z.eqb_neq. intros ->. done. }
    destruct (IH (wc_char k b) n Hw) as [E' Hk'']; [by rewrite E, Hb|done|]. split; [|done].
    rewrite E', E, Hb, Hn, Hi. cbn -[Z.of_nat]. f_equal; lia.
Qed.

Lemma newlines_word w : Forall (fun c => is_space c = false) w -> newlines w = 0.
Proof.
  induction 1 as [|c w Hc Hw IH]; [done|]. rewrite newlines_cons, IH, (proj2 (Z.eqb_neq c 10)); [done|]. by intros ->.
Qed.

Lemma newlines_app s1 s2 : newlines (s1 ++ s2) = newlines s1 + newlines s2.
Proof. unfold newlines. rewrite list.filter_app, length_app. lia. Qed.

Lemma wc_first_word w k n :
  w <> [] -> Forall (fun c => is_space c = false) w -> wc_inword k = false -> counted k (length w + n) ->
  fold_left wc_char w k = mkCounts (wc_l k) (wc_w k + 1) (wc_c k + Z.of_nat (length w)) true /\ counted (fold_left wc_char w k) n.
Proof.
  destruct w as [|c w]; [done|]. intros _ [Hc Hw]%Forall_cons_1 Hi Hk. cbn [fold_left length] in *.
  destruct (wc_char_ok k c (length w + n) Hk) as [E Hk']. assert (c =? 10 = false) as Hn by (apply Z.eqb_neq; by intros ->).
  destruct (wc_word w (wc_char k c) n Hw) as [E' Hk'']; [by rewrite E, Hc|done|]. split; [|done].
  rewrite E', E, Hc, Hn, Hi. cbn -[Z.of_nat]. f_equal; lia.
Qed.

(** The text [s] adds its lines, [nw] words and its characters to the counters [k]. *)
Definition adds (s : list Z) (nw : nat) (k : counts) : Prop :=
  forall n, counted k (length s + n) ->
  exists b, fold_left wc_char s k = mkCounts (wc_l k + newlines s) (wc_w k + Z.of_nat nw) (wc_c k + Z.of_nat (length s)) b /\
    counted (fold_left wc_char s k) n.

Lemma wc_blank c s nw k :
  is_space c = true -> (forall k, wc_inword k = false -> adds s nw k) -> adds (c :: s) nw k.
Proof.
  intros Hc IH n Hk. cbn [fold_left length] in *. destruct (wc_char_ok k c (length s + n) Hk) as [E Hk'].
  destruct (IH (wc_char k c)) with (n := n) as (b & E' & Hk''); [by rewrite E, Hc|done|]. exists b. split; [|done].
  rewrite E', E, Hc, newlines_cons. cbn -[Z.of_nat newlines]. f_equal; lia.
Qed.

Lemma wc_fold s ws : words s ws -> forall k, wc_inword k = false -> adds s (length ws) k.
Proof.
  induction 1 as [|c s ws Hc Hs IH|w Hne Hw|w c s ws Hne Hw Hc Hs IH]; intros k Hi.
  - intros n Hk. exists false. destruct k; simpl in *. subst. split; [f_equal; unfold newlines; simpl; lia|done].
  - by apply wc_blank.
  - intros n Hk. exists true. destruct (wc_first_word w k n Hne Hw Hi Hk) as [E Hk']. split; [|done].
    rewrite E, newlines_word by done. simpl. f_equal; lia.
  - intros n Hk. rewrite fold_left_app. rewrite length_app in Hk |- *. cbn [length] in Hk |- *.
    destruct (wc_first_word w k (S (length s) + n) Hne Hw Hi) as [E Hk']; [by rewrite Nat.add_assoc|].
    destruct (wc_blank c s (length ws) (fold_left wc_char w k) Hc IH n Hk') as (b & E' & Hk''). exists b. split; [|done].
    rewrite E', E, newlines_app, (newlines_word w) by done. cbn -[Z.of_nat newlines]. f_equal; lia.
Qed.

(** ** Running *)

(** Chunks that fit in the buffer. *)
Definition chunk_ok (c : list Z) : Prop := (0 < length c)%nat /\ Z.of_nat (length c) <= IOBUF.

Lemma splice_front (buf c : list Z) : take (length c) (splice buf 0 c) = c.
Proof. unfold splice. simpl. by rewrite take_app_length. Qed.

(** A read that delivers a chunk. *)
Lemma read_chunk fd buf c a calls :
  chunk_ok c ->
  uread fd buf 0 IOBUF (mkUst (mkAnswer (Z.of_nat (length c)) c :: a) calls) =
  Ok (Z.of_nat (length c), splice buf 0 c) (mkUst a (Uread fd IOBUF :: calls)).
Proof. intros [Hc _]. rewrite uread_run. cbn [a_ret a_data]. by rewrite (proj2 (Z.ltb_lt 0 _)) by lia. Qed.

Lemma wc_loop_run fd cs : forall fuel buf k rest calls,
  Forall chunk_ok cs -> (length cs < fuel)%nat ->
  exists buf' calls', wc_loop fuel fd buf k (mkUst (served cs ++ eof :: rest) calls) =
    Ok (0, buf', fold_left wc_char (concat cs) k) (mkUst rest calls') /\
    output 1 (mkUst [] calls') = output 1 (mkUst [] calls).
Proof.
  induction cs as [|c cs IH]; intros [|fuel] buf k rest calls Hcs Hf; simpl in Hf; try lia.
  - exists buf, (Uread fd IOBUF :: calls). split; [done|]. rewrite output_cons. by rewrite app_nil_r.
  - apply Forall_cons_1 in Hcs as [Hc Hcs]. cbn [wc_loop]. change (served (c :: cs) ++ eof :: rest) with (mkAnswer (Z.of_nat (length c)) c :: served cs ++ eof :: rest).
    rewrite (bind_ok _ _ _ _ _ (read_chunk fd buf c _ calls Hc)). pose proof (proj1 Hc). rewrite (proj2 (Z.leb_gt _ 0)) by lia.
    rewrite Nat2Z.id, splice_front.
    destruct (IH fuel (splice buf 0 c) (fold_left wc_char c k) rest (Uread fd IOBUF :: calls) Hcs) as (buf' & calls' & E & Ho); [lia|].
    exists buf', calls'. rewrite E. simpl. rewrite fold_left_app. split; [done|]. rewrite Ho, output_cons. by rewrite app_nil_r.
Qed.

(** C36. [wc] counts what its input holds: it reads to the end of the file and prints the
    number of newlines, the number of words (the longest runs of characters that are not
    blank, which [words] describes) and the number of bytes of the whole input, however the
    reads cut it, in particular when they cut a word in two. *)
Theorem wc_counts fd name buf cs ws rest calls :
  Forall chunk_ok cs -> words (concat cs) ws -> Z.of_nat (length (concat cs)) < 2 ^ 31 ->
  exists buf' s' l, wc fd name buf (mkUst (served cs ++ eof :: rest) calls) = Ok buf' s' /\ u_answers s' = rest /\
    Uprintf.printf (strn "%d %d %d %s") [PInt (newlines (concat cs)); PInt (Z.of_nat (length ws));
      PInt (Z.of_nat (length (concat cs))); PStr (Some name)] = Some l /\
    output 1 s' = output 1 (mkUst [] calls) ++ l.
Proof.
  intros Hcs Hws Hlen. unfold wc, ufuel. mstep. cbn [u_answers].
  destruct (wc_loop_run fd cs (S (length (served cs ++ eof :: rest))) buf (mkCounts 0 0 0 false) rest calls Hcs) as (buf' & calls' & E & Ho).
  { unfold served. rewrite length_app, length_fmap. simpl. lia. }
  rewrite (bind_ok _ _ _ _ _ E). cbv beta iota zeta. change (0 <? 0) with false. cbv iota.
  destruct (wc_fold _ _ Hws (mkCounts 0 0 0 false) eq_refl 0%nat) as (b & -> & _); [split_and!; simpl; lia|].
  cbn [wc_l wc_w wc_c]. rewrite !Z.add_0_l.
  assert (exists l, Uprintf.printf (strn "%d %d %d %s") [PInt (newlines (concat cs)); PInt (Z.of_nat (length ws));
    PInt (Z.of_nat (length (concat cs))); PStr (Some name)] = Some l) as [l El] by (eexists; reflexivity).
  exists buf', ((mkUst rest calls') <| u_calls ::= app (rev ((fun c => Uwrite 1 [c]) <$> l)) |>), l.
  split; [by rewrite (bind_ok _ _ _ _ _ (uprintf_run 1 _ _ _ _ El))|]. split; [done|]. split; [exact El|].
  rewrite output_putcs. f_equal. rewrite <- Ho. apply output_answers.
Qed.

Lemma wc_counts_witness :
  exists buf' s', wc 0 (str "f") [] (mkUst (served [str "ab c"; str "d " ++ [10]] ++ [eof]) []) = Ok buf' s' /\
    output 1 s' = strn "1 2 7 f".
Proof.
  destruct (wc_counts 0 (str "f") [] [str "ab c"; str "d " ++ [10]] [str "ab"; str "cd"] [] []) as (b & s & l & E & _ & El & Ho).
  - by apply (bool_decide_unpack _).
  - apply (words_word (str "ab") 32 (str "cd " ++ [10])); [done|by repeat constructor|done|].
    apply (words_word (str "cd") 32 [10]); [done|by repeat constructor|done|]. by repeat constructor.
  - simpl. lia.
  - exists b, s. split; [exact E|]. rewrite Ho. vm_compute in El. injection El as <-. reflexivity.
Defined.

(** Reads that deliver the chunks, each followed by a complete write of it. *)
Definition copied (cs : list (list Z)) : list answer :=
  concat ((fun c => [mkAnswer (Z.of_nat (length c)) c; mkAnswer (Z.of_nat (length c)) []]) <$> cs).

Lemma cat_loop_run fd cs : forall fuel buf rest calls,
  Forall chunk_ok cs -> (length cs < fuel)%nat ->
  exists buf' calls', cat_loop fuel fd buf (mkUst (copied cs ++ eof :: rest) calls) = Ok (0, buf') (mkUst rest calls') /\
    output 1 (mkUst [] calls') = output 1 (mkUst [] calls) ++ concat cs.
Proof.
  induction cs as [|c cs IH]; intros [|fuel] buf rest calls Hcs Hf; simpl in Hf; try lia.
  - exists buf, (Uread fd IOBUF :: calls). split; [done|]. by rewrite output_cons.
  - apply Forall_cons_1 in Hcs as [Hc Hcs]. cbn [cat_loop].
    change (copied (c :: cs) ++ eof :: rest) with
      (mkAnswer (Z.of_nat (length c)) c :: mkAnswer (Z.of_nat (length c)) [] :: copied cs ++ eof :: rest).
    rewrite (bind_ok _ _ _ _ _ (read_chunk fd buf c _ calls Hc)). pose proof (proj1 Hc). rewrite (proj2 (Z.leb_gt _ 0)) by lia.
    rewrite Nat2Z.id, splice_front.
    destruct (IH fuel (splice buf 0 c) rest (Uwrite 1 c :: Uread fd IOBUF :: calls) Hcs) as (buf' & calls' & E & Ho); [lia|].
    exists buf', calls'. split.
    + unfold sys_ret, sys. mstep. cbn -[cat_loop]. rewrite Z.eqb_refl. exact E.
    + rewrite Ho, !output_cons. simpl. by rewrite app_nil_r, <- (assoc_L (++)).
Qed.

(** [cat] writes what it reads, to the end of the file, when no write falls short. *)
Theorem cat_copies fd buf cs rest calls :
  Forall chunk_ok cs ->
  exists buf' s', cat fd buf (mkUst (copied cs ++ eof :: rest) calls) = Ok buf' s' /\ u_answers s' = rest /\
    output 1 s' = output 1 (mkUst [] calls) ++ concat cs.
Proof.
  intros Hcs. unfold cat, ufuel. mstep. cbn [u_answers].
  destruct (cat_loop_run fd cs (S (length (copied cs ++ eof :: rest))) buf rest calls Hcs) as (buf' & calls' & E & Ho).
  { rewrite length_app. simpl. enough (length cs <= length (copied cs))%nat by lia. clear. unfold copied.
    induction cs as [|c cs IH]; [done|]. rewrite fmap_cons. cbn [concat app length]. lia. }
  exists buf', (mkUst rest calls'). rewrite (bind_ok _ _ _ _ _ E). done.
Qed.
