(* ===== verification/Tests.v ===== *)
(** * The test programs of the scheduler and of [fork]

    [FRRTest.c], [RRsanity.c], [Gsanity.c], [Sanity.c], [waittest.c], [testppid.c],
    [forktest.c] and [stressfs.c], each with its [main], as sequences of system calls. A
    loop that only passes the time has no effect and is left out. [forktest] is shown to
    pass exactly when the kernel refuses a fork at last and answers as many waits as it
    made children. *)

From S2P Require Import Prelude Params Strings State Locks Printf User.

(** [printf(1, s)] of a line without arguments. *)
Definition say (s : string) : U unit := uprintf 1 (strn s) [].

(** ** The scheduler's tests *)

(** The loop that makes [n] children, which [FRRTest.c], [RRsanity.c] and [Sanity.c] have
    in common: a fork that fails is tried again. [child i] is what child [i] does before
    it exits. *)
Fixpoint make_children (fuel : nat) (n i : Z) (child : Z -> U unit) : U unit :=
  if i <? n then
    match fuel with
    | O => spin
    | S f =>
        pid <- sys_ret Ufork ;;
        if pid =? 0 then child i ;; uexit
        else if 0 <? pid then say "Parent" ;; make_children f n (i + 1) child
        else say "Error is fork" ;; make_children f n i child
    end
  else ret tt.

(** [for (k = 0; k < n; k++) wait();] *)
Definition wait_times (n : nat) : U unit := for_each (replicate n tt) (fun _ => sys_ Uwait).

Definition FRRTest : U unit :=
  sys_ (UenableContextSwitchPrint 1) ;;
  pid <- sys_ret Ugetpid ;;
  uprintf 1 (strn "FRRTest paretId is:%d") [PInt pid] ;;
  fuel <- ufuel ;;
  make_children fuel 4 0 (fun _ =>
    pid <- sys_ret Ugetpid ;;
    uprintf 1 (strn "Child %d finished") [PInt pid]) ;;
  wait_times 4 ;;
  say "Parent finished work" ;;
  sys_ (UenableContextSwitchPrint 0).

Definition FRRTest_main : U unit := FRRTest ;; uexit.

Definition printProcess (pid : Z) : U unit :=
  for_each (seqZ 0 50) (fun i => uprintf 1 (strn "Process %d is printing for %d time") [PInt pid; PInt i]).

Definition Gsanity : U unit :=
  pid <- sys_ret Ugetpid ;;
  uprintf 1 (strn "Gsanity pId is:%d") [PInt pid] ;;
  sys_ (Usleep 1000) ;;
  pid <- sys_ret Ufork ;;
  (if pid =? 0 then
     sys_ Unice ;;
     sys_ Unice ;;
     me <- sys_ret Ugetpid ;;
     printProcess me ;;
     me <- sys_ret Ugetpid ;;
     uprintf 1 (strn "Child %d finished") [PInt me] ;;
     uexit
   else if 0 <? pid then
     sys_ Unice ;;
     sys_ Unice ;;
     me <- sys_ret Ugetpid ;;
     printProcess me ;;
     say "Parent"
   else say "Error is fork") ;;
  say "Parent finished work".

Definition Gsanity_main : U unit := Gsanity ;; uexit.

(** [child] of [RRsanity.c] *)
Definition rr_child (pid : Z) : U unit :=
  for_each (seqZ 0 100) (fun i => uprintf 1 (strn "Child: %d prints for the : %d  time") [PInt pid; PInt i]).

Definition rrSanity : U unit :=
  say "wait test" ;;
  fuel <- ufuel ;;
  make_children fuel 5 0 (fun _ =>
    pid <- sys_ret Ugetpid ;;
    rr_child pid) ;;
  wait_times 5 ;;
  say "Parent finished work" ;;
  numOfChilds <- sys_ret UgetChildSize ;;
  uprintf 1 (strn "childsize:%d") [PInt numOfChilds] ;;
  for_each (seqZ 0 numOfChilds) (fun j =>
    cTime <- sys_ret (UgetAllChildsCtime j) ;;
    rTime <- sys_ret (UgetAllChildsRtime j) ;;
    eTime <- sys_ret (UgetAllChildsEtime j) ;;
    uprintf 1 (strn "Child %d perfomance is:rTime:%d:eTime:%d:cTime:%d") [PInt j; PInt rTime; PInt eTime; PInt cTime]).

Definition rrSanity_main : U unit := rrSanity ;; uexit.

(** The child of [Sanity.c]: it lowers its priority twice, once or not at all. *)
Definition sanity_child (i : Z) : U unit :=
  piority <-
    (let r := i mod 3 in
     if r =? 1 then sys_ Unice ;; sys_ret Unice
     else if r =? 0 then sys_ret Unice
     else if r =? 2 then ret 2
     else ret (-1)) ;;
  uprintf 1 (strn "Child %d piority is:%d") [PInt i; PInt piority] ;;
  for_each (seqZ 0 50) (fun _ => uprintf 1 (strn "< Child %d piority %d>") [PInt i; PInt piority]) ;;
  uprintf 1 (strn "----Child %d finished") [PInt i].

Definition SanityTest : U unit :=
  pid <- sys_ret Ugetpid ;;
  uprintf 1 (strn "Sanitytest parent Id is:%d") [PInt pid] ;;
  fuel <- ufuel ;;
  make_children fuel 30 0 sanity_child ;;
  wait_times 30 ;;
  say "Parent finished work".

Definition SanityTest_main : U unit := SanityTest ;; uexit.

(** [foo] of [waittest.c] *)
Definition foo : U unit :=
  for_each (seqZ 0 100) (fun i => uprintf 2 (strn "wait test %d") [PInt i]) ;;
  sys_ (Usleep 20) ;;
  for_each (seqZ 0 100) (fun i => uprintf 2 (strn "wait test %d") [PInt i]).

(** The two numbers [getPerformanceData] stores are the data of its answer. *)
Definition waittest : U unit :=
  say "wait test" ;;
  pid <- sys_ret Ufork ;;
  when (pid =? 0)
    (foo ;;
     a <- sys UgetPerformanceData ;;
     say "hi " ;;
     uprintf 1 (strn "wTime: %d rTime: %d ") [PInt (nth 0 (a_data a) 0); PInt (nth 1 (a_data a) 0)] ;;
     uexit) ;;
  sys_ Uwait.

Definition waittest_main : U unit := waittest ;; uexit.

Definition testppid_main : U unit :=
  a <- sys_ret Ugetppid ;;
  uprintf 1 (str "The id of parent process is:%d") [PInt a] ;;
  uexit.

(** ** stressfs *)

(** [for(i = 0; i < 4; i++) if(fork() > 0) break;]: the value of [i] after it. *)
Fixpoint stress_forks (n : nat) (i : Z) : U Z :=
  match n with
  | O => ret i
  | S n' =>
      pid <- sys_ret Ufork ;;
      if 0 <? pid then ret i else stress_forks n' (i + 1)
  end.

Definition stressfs_main : U unit :=
  say "stressfs starting" ;;
  let data := replicate 512 97 in
  i <- stress_forks 4 0 ;;
  uprintf 1 (strn "write %d") [PInt i] ;;
  let path := str "stressfs" ++ [48 + i] in
  fd <- sys_ret (Uopen path (Z.lor O_CREATE O_RDWR)) ;;
  for_each (seqZ 0 20) (fun _ => sys_ (Uwrite fd data)) ;;
  sys_ (Uclose fd) ;;
  say "read" ;;
  fd <- sys_ret (Uopen path O_RDONLY) ;;
  for_each (seqZ 0 20) (fun _ => sys_ (Uread fd 512)) ;;
  sys_ (Uclose fd) ;;
  sys_ Uwait ;;
  uexit.

(** ** forktest *)

(** [printf] of [forktest.c] writes its format. *)
Definition ft_printf (fd : Z) (s : list Z) : U unit := sys_ (Uwrite fd s).

(** The loop of forks with [left] rounds to go: how many succeeded. *)
Fixpoint fork_loop (left : nat) (n : Z) : U Z :=
  match left with
  | O => ret n
  | S l =>
      pid <- sys_ret Ufork ;;
      if pid <? 0 then ret n else
      if pid =? 0 then uexit else fork_loop l (n + 1)
  end.

(** The loop of waits, with the message of either program. *)
Fixpoint ft_wait_loop (n : nat) (out : list Z -> U unit) : U unit :=
  match n with
  | O => ret tt
  | S n' =>
      w <- sys_ret Uwait ;;
      if w <? 0 then out (strn "wait stopped early") ;; uexit else ft_wait_loop n' out
  end.

(** [forktest], which [forktest.c] and [usertests.c] have in common; [out] is the way of
    printing and [claim] what is said when no fork failed. *)
Definition forktest (out : list Z -> U unit) (claim : list Z) : U unit :=
  out (strn "fork test") ;;
  n <- fork_loop 1000 0 ;;
  (if n =? 1000 then out claim ;; uexit else ret tt) ;;
  ft_wait_loop (Z.to_nat n) out ;;
  w <- sys_ret Uwait ;;
  (if negb (w =? -1) then out (strn "wait got too many") ;; uexit else ret tt) ;;
  out (strn "fork test OK").

Definition forktest_main : U unit := forktest (ft_printf 1) (strn "fork claimed to work N times!") ;; uexit.

(** *** When forktest passes *)

Definition answered (a : answer) : Prop := 0 < a_ret a.

(** Answers to the calls of [forktest]: fewer than a thousand children, a fork that fails,
    one successful wait for each child, and a wait that fails. *)
Definition forks_then_waits (l : list answer) : Prop :=
  exists pids f waits w rest,
    l = pids ++ f :: waits ++ w :: rest /\ Forall answered pids /\ a_ret f < 0 /\ (length pids < 1000)%nat /\
    length waits = length pids /\ Forall (fun a => 0 <= a_ret a) waits /\ a_ret w = -1.

Lemma replicate_middle {A} n (x : A) l : replicate n x ++ x :: l = x :: replicate n x ++ l.
Proof. induction n as [|n IH]; [done|]. simpl. by rewrite IH. Qed.

(** Calls that are not writes print nothing. *)
Lemma output_replicate n c l a fd : out_of fd c = [] -> output fd (mkUst a (replicate n c ++ l)) = output fd (mkUst a l).
Proof. intros Hc. induction n as [|n IH]; [done|]. cbn [replicate app]. by rewrite output_cons, IH, Hc, app_nil_r. Qed.

Lemma fork_loop_fails pids f rest left n cs :
  Forall answered pids -> a_ret f < 0 -> (length pids < left)%nat ->
  fork_loop left n (mkUst (pids ++ f :: rest) cs) =
  Ok (n + Z.of_nat (length pids)) (mkUst rest (replicate (S (length pids)) Ufork ++ cs)).
Proof.
  intros Hp Hf. revert left n cs. induction Hp as [|p pids Hp _ IH]; intros left n cs Hl; (destruct left as [|left]; [simpl in Hl; lia|]).
  - cbn -[Z.add]. apply Z.ltb_lt in Hf. rewrite Hf. by rewrite Z.add_0_r.
  - cbn -[Z.add]. unfold answered in Hp. rewrite (proj2 (Z.ltb_ge _ _)), (proj2 (Z.eqb_neq _ _)) by lia.
    ured. rewrite IH by (simpl in Hl; lia). f_equal; [lia|]. f_equal. cbn. by rewrite replicate_middle.
Qed.

Lemma fork_loop_inv left : forall n s,
  match fork_loop left n s with
  | Ok m s' =>
      exists pids, m = n + Z.of_nat (length pids) /\ Forall answered pids /\
        ((length pids < left)%nat /\ (exists f, a_ret f < 0 /\ u_answers s = pids ++ f :: u_answers s') \/
         length pids = left /\ u_answers s = pids ++ u_answers s')
  | Switch _ => True
  | _ => False
  end.
Proof.
  induction left as [|left IH]; intros n [l cs].
  - cbn -[Z.add]. exists []. split; [simpl; lia|]. split; [constructor|]. by right.
  - destruct l as [|a l]; [done|]. cbn -[Z.add]. destruct (Z.ltb_spec (a_ret a) 0) as [Ha|Ha].
    + exists []. split; [simpl; lia|]. split; [constructor|]. left. split; [simpl; lia|]. by exists a.
    + destruct (Z.eqb_spec (a_ret a) 0) as [|Hn]; [done|]. ured. specialize (IH (n + 1) (mkUst l (Ufork :: cs))).
      destruct (fork_loop left (n + 1) _) as [m s'| | | |]; try done.
      destruct IH as (pids & -> & Hp & HH). exists (a :: pids). split; [simpl; lia|].
      split; [constructor; [unfold answered; lia|done]|].
      destruct HH as [[Hl (f & Hf & E)]|[Hl E]]; cbn [u_answers] in E; rewrite E; [left; split; [simpl; lia|by exists f]|right; split; [simpl; lia|done]].
Qed.

Lemma ft_wait_loop_passes waits rest out cs :
  Forall (fun a => 0 <= a_ret a) waits ->
  ft_wait_loop (length waits) out (mkUst (waits ++ rest) cs) = Ok tt (mkUst rest (replicate (length waits) Uwait ++ cs)).
Proof.
  intros Hw. revert cs. induction Hw as [|a waits Ha _ IH]; intros cs; [done|]. cbn.
  rewrite (proj2 (Z.ltb_ge _ _)) by lia. ured. rewrite IH. by rewrite replicate_middle.
Qed.

Lemma ft_wait_loop_inv n : forall s,
  match ft_wait_loop n (ft_printf 1) s with
  | Ok _ s' => exists waits, length waits = n /\ Forall (fun a => 0 <= a_ret a) waits /\ u_answers s = waits ++ u_answers s'
  | Switch _ => True
  | _ => False
  end.
Proof.
  induction n as [|n IH]; intros [l cs]; [by exists []|]. destruct l as [|a l]; [done|]. cbn.
  destruct (Z.ltb_spec (a_ret a) 0) as [Ha|Ha]; [done|]. ured. specialize (IH (mkUst l (Uwait :: cs))).
  destruct (ft_wait_loop n _ _) as [m s'| | | |]; try done. destruct IH as (waits & Hl & Hw & E). cbn [u_answers] in E.
  exists (a :: waits). split; [simpl; lia|]. split; [by constructor|]. by rewrite E.
Qed.

Lemma forktest_inv claim l cs :
  match forktest (ft_printf 1) claim (mkUst l cs) with
  | Ok _ _ => forks_then_waits l
  | Switch _ => True
  | _ => False
  end.
Proof.
  unfold forktest, ft_printf at 1, sys_. mstep. unfold bind at 1.
  pose proof (fork_loop_inv 1000 0 (mkUst l (Uwrite 1 (strn "fork test") :: cs))) as Hf. ured.
  destruct (fork_loop 1000 0 _) as [n [l1 c1]| | | |]; try done.
  destruct Hf as (pids & -> & Hp & Hf). cbn [u_answers] in Hf. rewrite Z.add_0_l. destruct (Z.eqb_spec (Z.of_nat (length pids)) 1000) as [|Hn]; [done|].
  mstep. rewrite Nat2Z.id. unfold bind at 1. pose proof (ft_wait_loop_inv (length pids) (mkUst l1 c1)) as Hw.
  destruct (ft_wait_loop _ _ _) as [m [l2 c2]| | | |]; try done. destruct Hw as (waits & Hl & Hw & E). cbn [u_answers] in E. subst l1.
  destruct l2 as [|w l2]; [done|]. unfold sys_ret, sys, bind. cbn [u_answers]. ured. unfold ret at 1.
  destruct (Z.eqb_spec (a_ret w) (-1)) as [Hm|]; [|done].
  destruct Hf as [[Hlt (f & Hneg & E)]|[Hlt E]]; [|lia]. cbn. exists pids, f, waits, w, l2. by rewrite E.
Qed.

(** [forktest] passes, and says so, exactly when the kernel at last refuses a fork and then
    answers one wait for every child and no more; in every other case it exits, or waits
    for an answer. *)
Theorem forktest_verdict l :
  let run := forktest (ft_printf 1) (strn "fork claimed to work N times!") (mkUst l []) in
  (forks_then_waits l /\ exists s', run = Ok tt s' /\ output 1 s' = strn "fork test" ++ strn "fork test OK") \/
  (~ forks_then_waits l /\ exists s', run = Switch s').
Proof.
  intros run.
  assert (forks_then_waits l -> exists s', run = Ok tt s' /\ output 1 s' = strn "fork test" ++ strn "fork test OK") as Hpass.
  { intros (pids & f & waits & w & rest & -> & Hp & Hf & Hlt & Hl & Hw & Hm). unfold run, forktest, ft_printf at 1, sys_. mstep. ured.
    rewrite (bind_ok _ _ _ _ _ (fork_loop_fails _ _ _ _ _ _ Hp Hf Hlt)). rewrite Z.add_0_l, (proj2 (Z.eqb_neq _ _)) by lia. mstep.
    rewrite Nat2Z.id, <- Hl. rewrite (bind_ok _ _ _ _ _ (ft_wait_loop_passes _ _ _ _ Hw)).
    unfold sys_ret, sys, bind. cbn [u_answers]. ured. unfold ret at 1. rewrite Hm. eexists. split; [reflexivity|].
    ured. rewrite !output_cons, output_replicate, output_replicate, output_cons by done. simpl. by rewrite ?app_nil_r. }
  pose proof (forktest_inv (strn "fork claimed to work N times!") l []) as Hinv. fold run in Hinv.
  destruct run as [[] s'| | |s'|] eqn:E; try done.
  - left. split; [done|]. destruct (Hpass Hinv) as (s'' & Es & Ho). exists s''. by split.
  - right. split; [|by exists s']. intros H. by destruct (Hpass H) as (s'' & Es & _).
Qed.
