(* ===== verification/Usertests.v ===== *)
(** * [usertests.c]: the test suite of the system calls

    Every test as the sequence of system calls it makes; it prints a message and exits when
    an answer is not the one it expects. The global buffer [buf], 8192 bytes, is passed to
    the tests whose calls depend on what it holds. Memory the program does not own
    statically is reached by [Uload] and [Ustore], and answers there are the machine's: a
    child that touches memory it must not have is not answered.

    [pipe1] is shown to accept exactly the sequence of bytes it wrote, and [writetest1] to
    accept a file that has lost its tail. *)

From S2P Require Import Prelude Params Strings State Locks Mem Printf User Tests.

(** [sizeof(buf)] *)
Definition BUF : Z := 8192.

(** ** A call, the answers that are wrong, and what is said of them *)

Definition die {A} (msg : list Z) (args : list parg) : U A := uprintf 1 msg args ;; uexit.
Definition die_if (b : bool) (msg : list Z) : U unit := if b then die msg [] else ret tt.

Definition die_neg (c : ucall) (msg : list Z) : U unit := r <- sys_ret c ;; die_if (r <? 0) msg.
Definition die_nonneg (c : ucall) (msg : list Z) : U unit := r <- sys_ret c ;; die_if (0 <=? r) msg.
Definition die_zero (c : ucall) (msg : list Z) : U unit := r <- sys_ret c ;; die_if (r =? 0) msg.
Definition die_not (n : Z) (c : ucall) (msg : list Z) : U unit := r <- sys_ret c ;; die_if (negb (r =? n)) msg.

(** [fd = open(path, mode)] with the message for a failure. *)
Definition open_or_die (path : string) (mode : Z) (msg : list Z) : U Z :=
  fd <- sys_ret (Uopen (str path) mode) ;;
  die_if (fd <? 0) msg ;;
  ret fd.

(** [pid = fork()] with the message for a failure. *)
Definition fork_or_die : U Z :=
  pid <- sys_ret Ufork ;;
  die_if (pid <? 0) (strn "fork failed") ;;
  ret pid.

Definition unlink_ (path : string) : U unit := sys_ (Uunlink (str path)).

Definition O_CREATE_RDWR : Z := Z.lor O_CREATE O_RDWR.

(** ** Directories and transactions *)

Definition iputtest : U unit :=
  say "iput test" ;;
  die_neg (Umkdir (str "iputdir")) (strn "mkdir failed") ;;
  die_neg (Uchdir (str "iputdir")) (strn "chdir iputdir failed") ;;
  die_neg (Uunlink (str "../iputdir")) (strn "unlink ../iputdir failed") ;;
  die_neg (Uchdir (str "/")) (strn "chdir / failed") ;;
  say "iput test ok".

Definition exitiputtest : U unit :=
  say "exitiput test" ;;
  pid <- fork_or_die ;;
  when (pid =? 0)
    (die_neg (Umkdir (str "iputdir")) (strn "mkdir failed") ;;
     die_neg (Uchdir (str "iputdir")) (strn "child chdir failed") ;;
     die_neg (Uunlink (str "../iputdir")) (strn "unlink ../iputdir failed") ;;
     uexit) ;;
  sys_ Uwait ;;
  say "exitiput test ok".

Definition openiputtest : U unit :=
  say "openiput test" ;;
  die_neg (Umkdir (str "oidir")) (strn "mkdir oidir failed") ;;
  pid <- fork_or_die ;;
  when (pid =? 0)
    (die_nonneg (Uopen (str "oidir") O_RDWR) (strn "open directory for write succeeded") ;;
     uexit) ;;
  sys_ (Usleep 1) ;;
  die_not 0 (Uunlink (str "oidir")) (strn "unlink failed") ;;
  sys_ Uwait ;;
  say "openiput test ok".

Definition opentest : U unit :=
  say "open test" ;;
  fd <- open_or_die "echo" 0 (strn "open echo failed!") ;;
  sys_ (Uclose fd) ;;
  die_nonneg (Uopen (str "doesnotexist") 0) (strn "open doesnotexist succeeded!") ;;
  say "open test ok".

(** ** Small and big files *)

Definition writetest (buf : list Z) : U (list Z) :=
  say "small file test" ;;
  fd <- sys_ret (Uopen (str "small") O_CREATE_RDWR) ;;
  (if 0 <=? fd then say "creat small succeeded; ok" else die (strn "error: creat small failed!") []) ;;
  for_each (seqZ 0 100) (fun i =>
    w <- sys_ret (Uwrite fd (str "aaaaaaaaaa")) ;;
    when (negb (w =? 10)) (die (strn "error: write aa %d new file failed") [PInt i]) ;;
    w <- sys_ret (Uwrite fd (str "bbbbbbbbbb")) ;;
    when (negb (w =? 10)) (die (strn "error: write bb %d new file failed") [PInt i])) ;;
  say "writes ok" ;;
  sys_ (Uclose fd) ;;
  fd <- sys_ret (Uopen (str "small") O_RDONLY) ;;
  (if 0 <=? fd then say "open small succeeded ok" else die (strn "error: open small failed!") []) ;;
  r <- uread fd buf 0 2000 ;;
  let '(i, buf) := r in
  (if i =? 2000 then say "read succeeded ok" else die (strn "read failed") []) ;;
  sys_ (Uclose fd) ;;
  die_neg (Uunlink (str "small")) (strn "unlink small failed") ;;
  say "small file test ok" ;;
  ret buf.

(** The first loop of [writetest1]: block [i] of the file starts with the number [i]. *)
Fixpoint big_write (ix : list Z) (fd : Z) (buf : list Z) : U (list Z) :=
  match ix with
  | [] => ret buf
  | i :: ix' =>
      let buf := put32 buf 0 i in
      w <- sys_ret (Uwrite fd (take 512 buf)) ;;
      if negb (w =? 512) then die (strn "error: write big file failed") [PInt i]
      else big_write ix' fd buf
  end.

(** Its second loop, with [n] blocks read so far. *)
Fixpoint big_read (fuel : nat) (fd n : Z) (buf : list Z) : U (list Z) :=
  match fuel with
  | O => spin
  | S f =>
      r <- uread fd buf 0 512 ;;
      let '(i, buf) := r in
      if i =? 0 then
        if n =? MAXFILE - 1 then die (str "read only %d blocks from big") [PInt n] else ret buf
      else if negb (i =? 512) then die (strn "read failed %d") [PInt i]
      else if negb (s32 (get32 buf 0) =? n) then
        die (strn "read content of block %d is %d") [PInt n; PInt (s32 (get32 buf 0))]
      else big_read f fd (n + 1) buf
  end.

Definition writetest1 (buf : list Z) : U (list Z) :=
  say "big files test" ;;
  fd <- open_or_die "big" O_CREATE_RDWR (strn "error: creat big failed!") ;;
  buf <- big_write (seqZ 0 MAXFILE) fd buf ;;
  sys_ (Uclose fd) ;;
  fd <- open_or_die "big" O_RDONLY (strn "error: open big failed!") ;;
  fuel <- ufuel ;;
  buf <- big_read fuel fd 0 buf ;;
  sys_ (Uclose fd) ;;
  die_neg (Uunlink (str "big")) (strn "unlink big failed") ;;
  say "big files ok" ;;
  ret buf.

Definition createtest : U unit :=
  say "many creates, followed by unlink test" ;;
  for_each (seqZ 0 52) (fun i =>
    fd <- sys_ret (Uopen [97; 48 + i] O_CREATE_RDWR) ;;
    sys_ (Uclose fd)) ;;
  for_each (seqZ 0 52) (fun i => sys_ (Uunlink [97; 48 + i])) ;;
  say "many creates, followed by unlink; ok".

Definition dirtest : U unit :=
  say "mkdir test" ;;
  die_neg (Umkdir (str "dir0")) (strn "mkdir failed") ;;
  die_neg (Uchdir (str "dir0")) (strn "chdir dir0 failed") ;;
  die_neg (Uchdir (str "..")) (strn "chdir .. failed") ;;
  die_neg (Uunlink (str "dir0")) (strn "unlink dir0 failed") ;;
  say "mkdir test ok".

Definition echoargv : list (list Z) := [str "echo"; str "ALL"; str "TESTS"; str "PASSED"].

Definition exectest : U unit :=
  say "exec test" ;;
  die_neg (Uexec (str "echo") echoargv) (strn "exec echo failed").

(** ** Pipes and processes *)

(** The child of [pipe1]: [n] writes of 1033 bytes that count up from [seq]. *)
Fixpoint pipe1_write (n : nat) (fd seq : Z) (buf : list Z) : U unit :=
  match n with
  | O => ret tt
  | S n' =>
      let buf := splice buf 0 (u8 <$> seqZ seq 1033) in
      w <- sys_ret (Uwrite fd (take 1033 buf)) ;;
      die_if (negb (w =? 1033)) (strn "pipe1 oops 1") ;;
      pipe1_write n' fd (seq + 1033) buf
  end.

(** The bytes count up from [seq]. *)
Fixpoint counts_up (seq : Z) (l : list Z) : bool :=
  match l with
  | [] => true
  | b :: l' => if negb (Z.land b 255 =? Z.land seq 255) then false else counts_up (seq + 1) l'
  end.

(** The parent's loop: how many bytes came, or [None] if one was wrong. *)
Fixpoint pipe1_read (fuel : nat) (fd seq total cc : Z) (buf : list Z) : U (option Z * list Z) :=
  match fuel with
  | O => spin
  | S f =>
      r <- uread fd buf 0 cc ;;
      let '(n, buf) := r in
      if n <=? 0 then ret (Some total, buf)
      else if negb (counts_up seq (take (Z.to_nat n) buf)) then say "pipe1 oops 2" ;; ret (None, buf)
      else
        let cc := cc * 2 in
        let cc := if BUF <? cc then BUF else cc in
        pipe1_read f fd (s32 (seq + n)) (s32 (total + n)) cc buf
  end.

Definition pipe1 (buf : list Z) : U (list Z) :=
  a <- sys Upipe ;;
  die_if (negb (a_ret a =? 0)) (strn "pipe() failed") ;;
  let fd0 := nth 0 (a_data a) 0 in
  let fd1 := nth 1 (a_data a) 0 in
  pid <- sys_ret Ufork ;;
  if pid =? 0 then
    sys_ (Uclose fd0) ;;
    pipe1_write 5 fd1 0 buf ;;
    uexit
  else if 0 <? pid then
    sys_ (Uclose fd1) ;;
    fuel <- ufuel ;;
    r <- pipe1_read fuel fd0 0 0 1 buf ;;
    let '(o, buf) := r in
    match o with
    | None => ret buf
    | Some total =>
        when (negb (total =? 5 * 1033)) (die (strn "pipe1 oops 3 total %d") [PInt total]) ;;
        sys_ (Uclose fd0) ;;
        sys_ Uwait ;;
        say "pipe1 ok" ;;
        ret buf
    end
  else die (strn "fork() failed") [].

Definition preempt (buf : list Z) : U (list Z) :=
  uprintf 1 (str "preempt: ") [] ;;
  pid1 <- sys_ret Ufork ;;
  when (pid1 =? 0) spin ;;
  pid2 <- sys_ret Ufork ;;
  when (pid2 =? 0) spin ;;
  a <- sys Upipe ;;
  let fd0 := nth 0 (a_data a) 0 in
  let fd1 := nth 1 (a_data a) 0 in
  pid3 <- sys_ret Ufork ;;
  when (pid3 =? 0)
    (sys_ (Uclose fd0) ;;
     w <- sys_ret (Uwrite fd1 (str "x")) ;;
     when (negb (w =? 1)) (uprintf 1 (str "preempt write error") []) ;;
     sys_ (Uclose fd1) ;;
     spin) ;;
  sys_ (Uclose fd1) ;;
  r <- uread fd0 buf 0 BUF ;;
  let '(n, buf) := r in
  if negb (n =? 1) then uprintf 1 (str "preempt read error") [] ;; ret buf else
  sys_ (Uclose fd0) ;;
  uprintf 1 (str "kill... ") [] ;;
  sys_ (Ukill pid1) ;;
  sys_ (Ukill pid2) ;;
  sys_ (Ukill pid3) ;;
  uprintf 1 (str "wait... ") [] ;;
  sys_ Uwait ;;
  sys_ Uwait ;;
  sys_ Uwait ;;
  say "preempt ok" ;;
  ret buf.

Fixpoint exitwait_loop (n : nat) : U unit :=
  match n with
  | O => say "exitwait ok"
  | S n' =>
      pid <- sys_ret Ufork ;;
      if pid <? 0 then say "fork failed"
      else if negb (pid =? 0) then
        w <- sys_ret Uwait ;;
        if negb (w =? pid) then say "wait wrong pid" else exitwait_loop n'
      else uexit
  end.

Definition exitwait : U unit := exitwait_loop 100.

(** ** Files shared by processes *)

(** The writes of [sharedfd], given up at the first that fails. *)
Fixpoint shared_write (n : nat) (fd : Z) (buf : list Z) : U unit :=
  match n with
  | O => ret tt
  | S n' =>
      w <- sys_ret (Uwrite fd buf) ;;
      if negb (w =? 10) then say "fstests: write sharedfd failed" else shared_write n' fd buf
  end.

Definition count (c : Z) (l : list Z) : Z := Z.of_nat (length (filter (fun b => b = c) l)).

(** The counts of ['c'] and ['p'] in what is read. *)
Fixpoint shared_read (fuel : nat) (fd nc np : Z) (buf : list Z) : U (Z * Z) :=
  match fuel with
  | O => spin
  | S f =>
      r <- uread fd buf 0 10 ;;
      let '(n, buf) := r in
      if n <=? 0 then ret (nc, np) else shared_read f fd (nc + count 99 buf) (np + count 112 buf) buf
  end.

Definition sharedfd : U unit :=
  say "sharedfd test" ;;
  unlink_ "sharedfd" ;;
  fd <- sys_ret (Uopen (str "sharedfd") O_CREATE_RDWR) ;;
  if fd <? 0 then uprintf 1 (str "fstests: cannot open sharedfd for writing") [] else
  pid <- sys_ret Ufork ;;
  let buf := replicate 10 (if pid =? 0 then 99 else 112) in
  shared_write 1000 fd buf ;;
  (if pid =? 0 then uexit else sys_ Uwait) ;;
  sys_ (Uclose fd) ;;
  fd <- sys_ret (Uopen (str "sharedfd") 0) ;;
  if fd <? 0 then say "fstests: cannot open sharedfd for reading" else
  fuel <- ufuel ;;
  r <- shared_read fuel fd 0 0 buf ;;
  let '(nc, np) := r in
  sys_ (Uclose fd) ;;
  unlink_ "sharedfd" ;;
  if (nc =? 10000) && (np =? 10000) then say "sharedfd ok"
  else die (strn "sharedfd oops %d %d") [PInt nc; PInt np].

(** The child of [fourfiles]. *)
Definition fourfiles_child (pi : Z) (fname buf : list Z) : U unit :=
  fd <- sys_ret (Uopen fname O_CREATE_RDWR) ;;
  die_if (fd <? 0) (strn "create failed") ;;
  let buf := splice buf 0 (replicate 512 (48 + pi)) in
  for_each (seqZ 0 12) (fun _ =>
    n <- sys_ret (Uwrite fd (take 500 buf)) ;;
    when (negb (n =? 500)) (die (strn "write failed %d") [PInt n])) ;;
  uexit.

(** The bytes of a file, which must all be [c]: how many there are. *)
Fixpoint fourfiles_read (fuel : nat) (fd c total : Z) (buf : list Z) : U (Z * list Z) :=
  match fuel with
  | O => spin
  | S f =>
      r <- uread fd buf 0 BUF ;;
      let '(n, buf) := r in
      if n <=? 0 then ret (total, buf) else
      die_if (existsb (fun b => negb (b =? c)) (take (Z.to_nat n) buf)) (strn "wrong char") ;;
      fourfiles_read f fd c (total + n) buf
  end.

(** The name of file [i]. *)
Definition fname (i : Z) : list Z := [102; 48 + i].

Fixpoint fourfiles_check (ix : list Z) (buf : list Z) : U (list Z) :=
  match ix with
  | [] => ret buf
  | i :: ix' =>
      fd <- sys_ret (Uopen (fname i) 0) ;;
      fuel <- ufuel ;;
      r <- fourfiles_read fuel fd (48 + i) 0 buf ;;
      let '(total, buf) := r in
      sys_ (Uclose fd) ;;
      when (negb (total =? 12 * 500)) (die (strn "wrong length %d") [PInt total]) ;;
      sys_ (Uunlink (fname i)) ;;
      fourfiles_check ix' buf
  end.

Definition fourfiles (buf : list Z) : U (list Z) :=
  say "fourfiles test" ;;
  for_each (seqZ 0 4) (fun pi =>
    sys_ (Uunlink (fname pi)) ;;
    pid <- fork_or_die ;;
    when (pid =? 0) (fourfiles_child pi (fname pi) buf)) ;;
  wait_times 4 ;;
  buf <- fourfiles_check (seqZ 0 2) buf ;;
  say "fourfiles ok" ;;
  ret buf.

(** The child of [createdelete]. *)
Definition createdelete_child (pi : Z) : U unit :=
  for_each (seqZ 0 20) (fun i =>
    fd <- sys_ret (Uopen [112 + pi; 48 + i] O_CREATE_RDWR) ;;
    die_if (fd <? 0) (strn "create failed") ;;
    sys_ (Uclose fd) ;;
    when ((0 <? i) && (i mod 2 =? 0))
      (die_neg (Uunlink [112 + pi; 48 + i / 2]) (strn "unlink failed"))) ;;
  uexit.

Definition createdelete : U unit :=
  say "createdelete test" ;;
  for_each (seqZ 0 4) (fun pi =>
    pid <- fork_or_die ;;
    when (pid =? 0) (createdelete_child pi)) ;;
  wait_times 4 ;;
  for_each (seqZ 0 20) (fun i =>
    for_each (seqZ 0 4) (fun pi =>
      let name := [112 + pi; 48 + i] in
      fd <- sys_ret (Uopen name 0) ;;
      (if ((i =? 0) || (10 <=? i)) && (fd <? 0) then
         die (strn "oops createdelete %s didn't exist") [PStr (Some name)]
       else if ((1 <=? i) && (i <? 10)) && (0 <=? fd) then
         die (strn "oops createdelete %s did exist") [PStr (Some name)]
       else ret tt) ;;
      when (0 <=? fd) (sys_ (Uclose fd)))) ;;
  for_each (seqZ 0 20) (fun i =>
    for_each (seqZ 0 4) (fun _ => sys_ (Uunlink [112 + i; 48 + i]))) ;;
  say "createdelete ok".

(** ** Links *)

Definition unlinkread (buf : list Z) : U (list Z) :=
  say "unlinkread test" ;;
  fd <- open_or_die "unlinkread" O_CREATE_RDWR (strn "create unlinkread failed") ;;
  sys_ (Uwrite fd (str "hello")) ;;
  sys_ (Uclose fd) ;;
  fd <- open_or_die "unlinkread" O_RDWR (strn "open unlinkread failed") ;;
  die_not 0 (Uunlink (str "unlinkread")) (strn "unlink unlinkread failed") ;;
  fd1 <- sys_ret (Uopen (str "unlinkread") O_CREATE_RDWR) ;;
  sys_ (Uwrite fd1 (str "yyy")) ;;
  sys_ (Uclose fd1) ;;
  r <- uread fd buf 0 BUF ;;
  let '(n, buf) := r in
  die_if (negb (n =? 5)) (str "unlinkread read failed") ;;
  die_if (negb (nth 0 buf 0 =? 104)) (strn "unlinkread wrong data") ;;
  die_not 10 (Uwrite fd (take 10 buf)) (strn "unlinkread write failed") ;;
  sys_ (Uclose fd) ;;
  unlink_ "unlinkread" ;;
  say "unlinkread ok" ;;
  ret buf.

Definition linktest (buf : list Z) : U (list Z) :=
  say "linktest" ;;
  unlink_ "lf1" ;;
  unlink_ "lf2" ;;
  fd <- open_or_die "lf1" O_CREATE_RDWR (strn "create lf1 failed") ;;
  die_not 5 (Uwrite fd (str "hello")) (strn "write lf1 failed") ;;
  sys_ (Uclose fd) ;;
  die_neg (Ulink (str "lf1") (str "lf2")) (strn "link lf1 lf2 failed") ;;
  unlink_ "lf1" ;;
  die_nonneg (Uopen (str "lf1") 0) (strn "unlinked lf1 but it is still there!") ;;
  fd <- open_or_die "lf2" 0 (strn "open lf2 failed") ;;
  r <- uread fd buf 0 BUF ;;
  let '(n, buf) := r in
  die_if (negb (n =? 5)) (strn "read lf2 failed") ;;
  sys_ (Uclose fd) ;;
  die_nonneg (Ulink (str "lf2") (str "lf2")) (strn "link lf2 lf2 succeeded! oops") ;;
  unlink_ "lf2" ;;
  die_nonneg (Ulink (str "lf2") (str "lf1")) (strn "link non-existant succeeded! oops") ;;
  die_nonneg (Ulink (str ".") (str "lf1")) (strn "link . lf1 succeeded! oops") ;;
  say "linktest ok" ;;
  ret buf.

(** [concreate]: round [i] of the creating loop. *)
Definition concreate_make (i : Z) : U unit :=
  let file := [67; 48 + i] in
  sys_ (Uunlink file) ;;
  pid <- sys_ret Ufork ;;
  (if negb (pid =? 0) && (i mod 3 =? 1) then sys_ (Ulink (str "C0") file)
   else if (pid =? 0) && (i mod 5 =? 1) then sys_ (Ulink (str "C0") file)
   else
     fd <- sys_ret (Uopen file O_CREATE_RDWR) ;;
     when (fd <? 0) (die (strn "concreate create %s failed") [PStr (Some file)]) ;;
     sys_ (Uclose fd)) ;;
  if pid =? 0 then uexit else sys_ Uwait.

(** The directory is read entry by entry; [fa] marks the files found, [n] counts them. *)
Fixpoint concreate_scan (fuel : nat) (fd n : Z) (fa : list bool) (de : list Z) : U Z :=
  match fuel with
  | O => spin
  | S f =>
      r <- uread fd de 0 16 ;;
      let '(k, de) := r in
      if k <=? 0 then ret n else
      let inum := nth 0 de 0 + 2 ^ 8 * nth 1 de 0 in
      let name := drop 2 de in
      if inum =? 0 then concreate_scan f fd n fa de
      else if (nth 0 name 0 =? 67) && (nth 2 name 0 =? 0) then
        let i := s8 (nth 1 name 0) - 48 in
        if (i <? 0) || (40 <=? i) then die (strn "concreate weird file %s") [PStr (Some (cstring name))]
        else if nth (Z.to_nat i) fa false then die (strn "concreate duplicate file %s") [PStr (Some (cstring name))]
        else concreate_scan f fd (n + 1) (<[Z.to_nat i := true]> fa) de
      else concreate_scan f fd n fa de
  end.

(** Round [i] of the loop that opens and removes the files. *)
Definition concreate_drop (i : Z) : U unit :=
  let file := [67; 48 + i] in
  pid <- fork_or_die ;;
  (if ((i mod 3 =? 0) && (pid =? 0)) || ((i mod 3 =? 1) && negb (pid =? 0)) then
     for_each (replicate 4 tt) (fun _ => fd <- sys_ret (Uopen file 0) ;; sys_ (Uclose fd))
   else for_each (replicate 4 tt) (fun _ => sys_ (Uunlink file))) ;;
  if pid =? 0 then uexit else sys_ Uwait.

Definition concreate : U unit :=
  say "concreate test" ;;
  for_each (seqZ 0 40) concreate_make ;;
  fd <- sys_ret (Uopen (str ".") 0) ;;
  fuel <- ufuel ;;
  n <- concreate_scan fuel fd 0 (replicate 40 false) (replicate 16 0) ;;
  sys_ (Uclose fd) ;;
  die_if (negb (n =? 40)) (strn "concreate not enough files in directory listing") ;;
  for_each (seqZ 0 40) concreate_drop ;;
  say "concreate ok".

(** One hundred rounds of the generator, each with the call it picks. *)
Fixpoint linkunlink_loop (n : nat) (x : Z) : U unit :=
  match n with
  | O => ret tt
  | S n' =>
      let x := u32 (x * 1103515245 + 12345) in
      (if x mod 3 =? 0 then fd <- sys_ret (Uopen (str "x") O_CREATE_RDWR) ;; sys_ (Uclose fd)
       else if x mod 3 =? 1 then sys_ (Ulink (str "cat") (str "x"))
       else unlink_ "x") ;;
      linkunlink_loop n' x
  end.

Definition linkunlink : U unit :=
  say "linkunlink test" ;;
  unlink_ "x" ;;
  pid <- fork_or_die ;;
  linkunlink_loop 100 (if pid =? 0 then 97 else 1) ;;
  (if pid =? 0 then uexit else sys_ Uwait) ;;
  say "linkunlink ok".

(** The name of link [i] in [bigdir]. *)
Definition bigdir_name (i : Z) : list Z := [120; 48 + i / 64; 48 + i mod 64].

Definition bigdir : U unit :=
  say "bigdir test" ;;
  unlink_ "bd" ;;
  fd <- open_or_die "bd" O_CREATE (strn "bigdir create failed") ;;
  sys_ (Uclose fd) ;;
  for_each (seqZ 0 500) (fun i => die_not 0 (Ulink (str "bd") (bigdir_name i)) (strn "bigdir link failed")) ;;
  unlink_ "bd" ;;
  for_each (seqZ 0 500) (fun i => die_not 0 (Uunlink (bigdir_name i)) (str "bigdir unlink failed")) ;;
  say "bigdir ok".

(** ** Paths *)

(** [subdir], down to the walks with [..]. *)
Definition subdir_make (buf : list Z) : U (list Z) :=
  say "subdir test" ;;
  unlink_ "ff" ;;
  die_not 0 (Umkdir (str "dd")) (strn "subdir mkdir dd failed") ;;
  fd <- open_or_die "dd/ff" O_CREATE_RDWR (strn "create dd/ff failed") ;;
  sys_ (Uwrite fd (str "ff")) ;;
  sys_ (Uclose fd) ;;
  die_nonneg (Uunlink (str "dd")) (strn "unlink dd (non-empty dir) succeeded!") ;;
  die_not 0 (Umkdir (str "/dd/dd")) (strn "subdir mkdir dd/dd failed") ;;
  fd <- open_or_die "dd/dd/ff" O_CREATE_RDWR (strn "create dd/dd/ff failed") ;;
  sys_ (Uwrite fd (str "FF")) ;;
  sys_ (Uclose fd) ;;
  fd <- open_or_die "dd/dd/../ff" 0 (strn "open dd/dd/../ff failed") ;;
  r <- uread fd buf 0 BUF ;;
  let '(cc, buf) := r in
  die_if (negb (cc =? 2) || negb (nth 0 buf 0 =? 102)) (strn "dd/dd/../ff wrong content") ;;
  sys_ (Uclose fd) ;;
  die_not 0 (Ulink (str "dd/dd/ff") (str "dd/dd/ffff")) (strn "link dd/dd/ff dd/dd/ffff failed") ;;
  die_not 0 (Uunlink (str "dd/dd/ff")) (strn "unlink dd/dd/ff failed") ;;
  die_nonneg (Uopen (str "dd/dd/ff") O_RDONLY) (strn "open (unlinked) dd/dd/ff succeeded") ;;
  die_not 0 (Uchdir (str "dd")) (strn "chdir dd failed") ;;
  die_not 0 (Uchdir (str "dd/../../dd")) (strn "chdir dd/../../dd failed") ;;
  die_not 0 (Uchdir (str "dd/../../../dd")) (strn "chdir dd/../../dd failed") ;;
  die_not 0 (Uchdir (str "./..")) (strn "chdir ./.. failed") ;;
  ret buf.

(** The rest: what must be refused, and the removal of it all. *)
Definition subdir_refuse (buf : list Z) : U (list Z) :=
  fd <- open_or_die "dd/dd/ffff" 0 (strn "open dd/dd/ffff failed") ;;
  r <- uread fd buf 0 BUF ;;
  let '(n, buf) := r in
  die_if (negb (n =? 2)) (strn "read dd/dd/ffff wrong len") ;;
  sys_ (Uclose fd) ;;
  die_nonneg (Uopen (str "dd/dd/ff") O_RDONLY) (strn "open (unlinked) dd/dd/ff succeeded!") ;;
  die_nonneg (Uopen (str "dd/ff/ff") O_CREATE_RDWR) (strn "create dd/ff/ff succeeded!") ;;
  die_nonneg (Uopen (str "dd/xx/ff") O_CREATE_RDWR) (strn "create dd/xx/ff succeeded!") ;;
  die_nonneg (Uopen (str "dd") O_CREATE) (strn "create dd succeeded!") ;;
  die_nonneg (Uopen (str "dd") O_RDWR) (strn "open dd rdwr succeeded!") ;;
  die_nonneg (Uopen (str "dd") O_WRONLY) (strn "open dd wronly succeeded!") ;;
  die_zero (Ulink (str "dd/ff/ff") (str "dd/dd/xx")) (strn "link dd/ff/ff dd/dd/xx succeeded!") ;;
  die_zero (Ulink (str "dd/xx/ff") (str "dd/dd/xx")) (strn "link dd/xx/ff dd/dd/xx succeeded!") ;;
  die_zero (Ulink (str "dd/ff") (str "dd/dd/ffff")) (strn "link dd/ff dd/dd/ffff succeeded!") ;;
  die_zero (Umkdir (str "dd/ff/ff")) (strn "mkdir dd/ff/ff succeeded!") ;;
  die_zero (Umkdir (str "dd/xx/ff")) (strn "mkdir dd/xx/ff succeeded!") ;;
  die_zero (Umkdir (str "dd/dd/ffff")) (strn "mkdir dd/dd/ffff succeeded!") ;;
  die_zero (Uunlink (str "dd/xx/ff")) (strn "unlink dd/xx/ff succeeded!") ;;
  die_zero (Uunlink (str "dd/ff/ff")) (strn "unlink dd/ff/ff succeeded!") ;;
  die_zero (Uchdir (str "dd/ff")) (strn "chdir dd/ff succeeded!") ;;
  die_zero (Uchdir (str "dd/xx")) (strn "chdir dd/xx succeeded!") ;;
  die_not 0 (Uunlink (str "dd/dd/ffff")) (strn "unlink dd/dd/ff failed") ;;
  die_not 0 (Uunlink (str "dd/ff")) (strn "unlink dd/ff failed") ;;
  die_zero (Uunlink (str "dd")) (strn "unlink non-empty dd succeeded!") ;;
  die_neg (Uunlink (str "dd/dd")) (strn "unlink dd/dd failed") ;;
  die_neg (Uunlink (str "dd")) (strn "unlink dd failed") ;;
  say "subdir ok" ;;
  ret buf.

Definition subdir (buf : list Z) : U (list Z) := buf <- subdir_make buf ;; subdir_refuse buf.

(** The sizes of [bigwrite]: 499, 970, ... below [12*512]. *)
Definition bigwrite_sizes : list Z := (fun k => 499 + 471 * k) <$> seqZ 0 12.

Definition bigwrite (buf : list Z) : U unit :=
  say "bigwrite test" ;;
  unlink_ "bigwrite" ;;
  for_each bigwrite_sizes (fun sz =>
    fd <- open_or_die "bigwrite" O_CREATE_RDWR (strn "cannot create bigwrite") ;;
    for_each (seqZ 0 2) (fun _ =>
      cc <- sys_ret (Uwrite fd (take (Z.to_nat sz) buf)) ;;
      when (negb (cc =? sz)) (die (strn "write(%d) ret %d") [PInt sz; PInt cc])) ;;
    sys_ (Uclose fd) ;;
    unlink_ "bigwrite") ;;
  say "bigwrite ok".

Fixpoint bigfile_write (ix : list Z) (fd : Z) (buf : list Z) : U (list Z) :=
  match ix with
  | [] => ret buf
  | i :: ix' =>
      let buf := splice buf 0 (replicate 600 (u8 i)) in
      die_not 600 (Uwrite fd (take 600 buf)) (strn "write bigfile failed") ;;
      bigfile_write ix' fd buf
  end.

Fixpoint bigfile_read (fuel : nat) (fd i total : Z) (buf : list Z) : U (Z * list Z) :=
  match fuel with
  | O => spin
  | S f =>
      r <- uread fd buf 0 300 ;;
      let '(cc, buf) := r in
      die_if (cc <? 0) (strn "read bigfile failed") ;;
      if cc =? 0 then ret (total, buf) else
      die_if (negb (cc =? 300)) (strn "short read bigfile") ;;
      die_if (negb (s8 (nth 0 buf 0) =? i / 2) || negb (s8 (nth 299 buf 0) =? i / 2)) (strn "read bigfile wrong data") ;;
      bigfile_read f fd (i + 1) (total + cc) buf
  end.

Definition bigfile (buf : list Z) : U (list Z) :=
  say "bigfile test" ;;
  unlink_ "bigfile" ;;
  fd <- open_or_die "bigfile" O_CREATE_RDWR (str "cannot create bigfile") ;;
  buf <- bigfile_write (seqZ 0 20) fd buf ;;
  sys_ (Uclose fd) ;;
  fd <- open_or_die "bigfile" 0 (strn "cannot open bigfile") ;;
  fuel <- ufuel ;;
  r <- bigfile_read fuel fd 0 0 buf ;;
  let '(total, buf) := r in
  sys_ (Uclose fd) ;;
  die_if (negb (total =? 20 * 600)) (strn "read bigfile wrong total") ;;
  unlink_ "bigfile" ;;
  say "bigfile test ok" ;;
  ret buf.

Definition fourteen : U unit :=
  say "fourteen test" ;;
  die_not 0 (Umkdir (str "12345678901234")) (strn "mkdir 12345678901234 failed") ;;
  die_not 0 (Umkdir (str "12345678901234/123456789012345")) (strn "mkdir 12345678901234/123456789012345 failed") ;;
  fd <- open_or_die "123456789012345/123456789012345/123456789012345" O_CREATE
          (strn "create 123456789012345/123456789012345/123456789012345 failed") ;;
  sys_ (Uclose fd) ;;
  fd <- open_or_die "12345678901234/12345678901234/12345678901234" 0
          (strn "open 12345678901234/12345678901234/12345678901234 failed") ;;
  sys_ (Uclose fd) ;;
  die_zero (Umkdir (str "12345678901234/12345678901234")) (strn "mkdir 12345678901234/12345678901234 succeeded!") ;;
  die_zero (Umkdir (str "123456789012345/12345678901234")) (strn "mkdir 12345678901234/123456789012345 succeeded!") ;;
  say "fourteen ok".

Definition rmdot : U unit :=
  say "rmdot test" ;;
  die_not 0 (Umkdir (str "dots")) (strn "mkdir dots failed") ;;
  die_not 0 (Uchdir (str "dots")) (strn "chdir dots failed") ;;
  die_zero (Uunlink (str ".")) (strn "rm . worked!") ;;
  die_zero (Uunlink (str "..")) (strn "rm .. worked!") ;;
  die_not 0 (Uchdir (str "/")) (strn "chdir / failed") ;;
  die_zero (Uunlink (str "dots/.")) (strn "unlink dots/. worked!") ;;
  die_zero (Uunlink (str "dots/..")) (strn "unlink dots/.. worked!") ;;
  die_not 0 (Uunlink (str "dots")) (strn "unlink dots failed!") ;;
  say "rmdot ok".

Definition dirfile : U unit :=
  say "dir vs file" ;;
  fd <- open_or_die "dirfile" O_CREATE (strn "create dirfile failed") ;;
  sys_ (Uclose fd) ;;
  die_zero (Uchdir (str "dirfile")) (strn "chdir dirfile succeeded!") ;;
  die_nonneg (Uopen (str "dirfile/xx") 0) (strn "create dirfile/xx succeeded!") ;;
  die_nonneg (Uopen (str "dirfile/xx") O_CREATE) (strn "create dirfile/xx succeeded!") ;;
  die_zero (Umkdir (str "dirfile/xx")) (strn "mkdir dirfile/xx succeeded!") ;;
  die_zero (Uunlink (str "dirfile/xx")) (strn "unlink dirfile/xx succeeded!") ;;
  die_zero (Ulink (str "README") (str "dirfile/xx")) (strn "link to dirfile/xx succeeded!") ;;
  die_not 0 (Uunlink (str "dirfile")) (strn "unlink dirfile failed!") ;;
  die_nonneg (Uopen (str ".") O_RDWR) (strn "open . for writing succeeded!") ;;
  fd <- sys_ret (Uopen (str ".") 0) ;;
  w <- sys_ret (Uwrite fd (str "x")) ;;
  die_if (0 <? w) (strn "write . succeeded!") ;;
  sys_ (Uclose fd) ;;
  say "dir vs file OK".

Definition iref : U unit :=
  say "empty file name" ;;
  for_each (seqZ 0 51) (fun _ =>
    die_not 0 (Umkdir (str "irefd")) (strn "mkdir irefd failed") ;;
    die_not 0 (Uchdir (str "irefd")) (strn "chdir irefd failed") ;;
    sys_ (Umkdir []) ;;
    sys_ (Ulink (str "README") []) ;;
    fd <- sys_ret (Uopen [] O_CREATE) ;;
    when (0 <=? fd) (sys_ (Uclose fd)) ;;
    fd <- sys_ret (Uopen (str "xx") O_CREATE) ;;
    when (0 <=? fd) (sys_ (Uclose fd)) ;;
    unlink_ "xx") ;;
  sys_ (Uchdir (str "/")) ;;
  say "empty file name OK".

(** [forktest] of [usertests.c], which prints through [printf]. *)
Definition ut_forktest : U unit :=
  forktest (fun l => uprintf 1 l []) (strn "fork claimed to work 1000 times!").

(** ** Memory *)

Definition usbrk (n : Z) : U Z := r <- sys_ret (Usbrk n) ;; ret (u32 r).

Definition BIG : Z := 100 * 1024 * 1024.

(** The first loop of [sbrktest]: byte by byte, from [a]. *)
Fixpoint sbrk_bytes (ix : list Z) (a : Z) : U Z :=
  match ix with
  | [] => ret a
  | i :: ix' =>
      b <- usbrk 1 ;;
      when (negb (b =? a)) (die (strn "sbrk test failed %d %x %x") [PInt i; PInt a; PInt b]) ;;
      sys (Ustore b 1) ;;
      sbrk_bytes ix' (u32 (b + 1))
  end.

(** [for(;;) sleep(1000);] *)
Fixpoint sleep_forever (fuel : nat) : U unit :=
  match fuel with
  | O => spin
  | S f => sys (Usleep 1000) ;; sleep_forever f
  end.

(** The children that take all the memory: their pids. *)
Fixpoint hogs (n : nat) (fd0 fd1 : Z) : U (list Z) :=
  match n with
  | O => ret []
  | S n' =>
      pid <- sys_ret Ufork ;;
      when (pid =? 0)
        (b <- usbrk 0 ;;
         sys_ (Usbrk (s32 (BIG - b))) ;;
         sys_ (Uwrite fd1 (str "x")) ;;
         fuel <- ufuel ;;
         sleep_forever fuel) ;;
      when (negb (pid =? -1)) (sys_ (Uread fd0 1)) ;;
      pids <- hogs n' fd0 fd1 ;;
      ret (pid :: pids)
  end.

(** Growing and shrinking by pages; [lastaddr] is the last byte of a hundred megabytes. *)
Definition sbrk_pages (oldbrk : Z) : U unit :=
  a <- usbrk 0 ;;
  p <- usbrk (s32 (BIG - a)) ;;
  die_if (negb (p =? a)) (strn "sbrk test failed to grow big address space; enough phys mem?") ;;
  let lastaddr := BIG - 1 in
  sys (Ustore lastaddr 99) ;;
  a <- usbrk 0 ;;
  c <- usbrk (-4096) ;;
  die_if (c =? 0xffffffff) (strn "sbrk could not deallocate") ;;
  c <- usbrk 0 ;;
  when (negb (c =? u32 (a - 4096))) (die (strn "sbrk deallocation produced wrong address, a %x c %x") [PInt a; PInt c]) ;;
  a <- usbrk 0 ;;
  c <- usbrk 4096 ;;
  bad <- (if negb (c =? a) then ret true else b <- usbrk 0 ;; ret (negb (b =? u32 (a + 4096)))) ;;
  when bad (die (strn "sbrk re-allocation failed, a %x c %x") [PInt a; PInt c]) ;;
  v <- sys_ret (Uload lastaddr) ;;
  die_if (v =? 99) (strn "sbrk de-allocation didn't really deallocate") ;;
  a <- usbrk 0 ;;
  b <- usbrk 0 ;;
  c <- usbrk (- s32 (b - oldbrk)) ;;
  when (negb (c =? a)) (die (strn "sbrk downsize failed, a %x c %x") [PInt a; PInt c]).

(** Can a child read the kernel's memory? *)
Definition sbrk_kernel : U unit :=
  for_each (seqZ 0 40) (fun k =>
    let a := KERNBASE + 50000 * k in
    ppid <- sys_ret Ugetpid ;;
    pid <- fork_or_die ;;
    when (pid =? 0)
      (v <- sys_ret (Uload a) ;;
       uprintf 1 (strn "oops could read %x = %x") [PInt a; PInt v] ;;
       sys_ (Ukill ppid) ;;
       uexit) ;;
    sys_ Uwait).

Definition sbrktest : U unit :=
  say "sbrk test" ;;
  oldbrk <- usbrk 0 ;;
  a <- usbrk 0 ;;
  a <- sbrk_bytes (seqZ 0 5000) a ;;
  pid <- sys_ret Ufork ;;
  die_if (pid <? 0) (strn "sbrk test fork failed") ;;
  c <- usbrk 1 ;;
  c <- usbrk 1 ;;
  die_if (negb (c =? u32 (a + 1))) (strn "sbrk test failed post-fork") ;;
  when (pid =? 0) uexit ;;
  sys_ Uwait ;;
  sbrk_pages oldbrk ;;
  sbrk_kernel ;;
  fds <- sys Upipe ;;
  die_if (negb (a_ret fds =? 0)) (strn "pipe() failed") ;;
  pids <- hogs 10 (nth 0 (a_data fds) 0) (nth 1 (a_data fds) 0) ;;
  c <- usbrk 4096 ;;
  for_each pids (fun pid => when (negb (pid =? -1)) (sys_ (Ukill pid) ;; sys_ Uwait)) ;;
  die_if (c =? 0xffffffff) (strn "failed sbrk leaked memory") ;;
  b <- usbrk 0 ;;
  when (oldbrk <? b) (b <- usbrk 0 ;; sys_ (Usbrk (- s32 (b - oldbrk)))) ;;
  say "sbrk test OK".

(** [sleep] called with the stack pointer at [p]. *)
Definition validateint (p : Z) : U unit := sys (Usleep_at p) ;; ret tt.

Definition validatetest : U unit :=
  say "validate test" ;;
  for_each (seqZ 0 276) (fun k =>
    let p := 4096 * k in
    pid <- sys_ret Ufork ;;
    when (pid =? 0) (validateint p ;; uexit) ;;
    sys_ (Usleep 0) ;;
    sys_ (Usleep 0) ;;
    sys_ (Ukill pid) ;;
    sys_ Uwait ;;
    die_not (-1) (Ulink_at (str "nosuchfile") p) (strn "link should not succeed")) ;;
  say "validate ok".

(** [uninit] is what the array of the same name holds, 10000 bytes. *)
Definition bsstest (uninit : list Z) : U unit :=
  say "bss test" ;;
  for_each uninit (fun b => die_if (negb (b =? 0)) (strn "bss test failed")) ;;
  say "bss test ok".

(** ** The rest *)

Definition bigargs : list (list Z) :=
  replicate (MAXARG - 1) (strn "bigargs test: failed" ++ replicate 199 32).

Definition bigargtest : U unit :=
  unlink_ "bigarg-ok" ;;
  pid <- sys_ret Ufork ;;
  (if pid =? 0 then
     say "bigarg test" ;;
     sys (Uexec (str "echo") bigargs) ;;
     say "bigarg test ok" ;;
     fd <- sys_ret (Uopen (str "bigarg-ok") O_CREATE) ;;
     sys_ (Uclose fd) ;;
     uexit
   else die_if (pid <? 0) (strn "bigargtest: fork failed")) ;;
  sys_ Uwait ;;
  fd <- open_or_die "bigarg-ok" 0 (strn "bigarg test failed!") ;;
  sys_ (Uclose fd) ;;
  unlink_ "bigarg-ok".

(** The name of file [n] of [fsfull]. *)
Definition fsfull_name (n : Z) : list Z :=
  [102; u8 (48 + n / 1000); 48 + n mod 1000 / 100; 48 + n mod 100 / 10; 48 + n mod 10].

(** Writes until one is short: the bytes written. *)
Fixpoint fsfull_write (fuel : nat) (fd total : Z) (buf : list Z) : U Z :=
  match fuel with
  | O => spin
  | S f =>
      cc <- sys_ret (Uwrite fd (take 512 buf)) ;;
      if cc <? 512 then ret total else fsfull_write f fd (total + cc) buf
  end.

(** Files until one cannot be opened or stays empty: the number of the last. *)
Fixpoint fsfull_files (fuel : nat) (nfiles : Z) (buf : list Z) : U Z :=
  match fuel with
  | O => spin
  | S f =>
      let name := fsfull_name nfiles in
      uprintf 1 (strn "writing %s") [PStr (Some (cstring name))] ;;
      fd <- sys_ret (Uopen (cstring name) O_CREATE_RDWR) ;;
      if fd <? 0 then uprintf 1 (strn "open %s failed") [PStr (Some (cstring name))] ;; ret nfiles else
      k <- ufuel ;;
      total <- fsfull_write k fd 0 buf ;;
      uprintf 1 (strn "wrote %d bytes") [PInt total] ;;
      sys_ (Uclose fd) ;;
      if total =? 0 then ret nfiles else fsfull_files f (nfiles + 1) buf
  end.

Definition fsfull (buf : list Z) : U unit :=
  say "fsfull test" ;;
  fuel <- ufuel ;;
  nfiles <- fsfull_files fuel 0 buf ;;
  for_each (rev (seqZ 0 (nfiles + 1))) (fun n => sys_ (Uunlink (cstring (fsfull_name n)))) ;;
  say "fsfull test finished".

(** The child uses the ports of the clock, which a user program may not. *)
Definition uio : U unit :=
  say "uio test" ;;
  pid <- sys_ret Ufork ;;
  (if pid =? 0 then
     sys (Uoutb 0x70 0x09) ;;
     sys (Uinb 0x71) ;;
     die (strn "uio: uio succeeded; test FAILED") []
   else die_if (pid <? 0) (strn "fork failed")) ;;
  sys_ Uwait ;;
  say "uio test done".

Definition argptest : U unit :=
  fd <- sys_ret (Uopen (str "init") O_RDONLY) ;;
  when (fd <? 0) (uprintf 2 (strn "open failed") [] ;; uexit) ;;
  b <- usbrk 0 ;;
  sys_ (Uread_at fd (u32 (b - 1)) (-1)) ;;
  sys_ (Uclose fd) ;;
  say "arg test passed".

(** The state of the generator after a call, which is also its result. *)
Definition rand (randstate : Z) : Z := u32 (randstate * 1664525 + 1013904223).

(** ** What two of the tests accept *)

Lemma splice_0 buf d : splice buf 0 d = d ++ drop (length d) buf.
Proof. done. Qed.

Lemma say_run s str a cs :
  Uprintf.printf (strn str) [] = Some (strn str) ->
  s = mkUst a cs ->
  exists cs', say str s = Ok tt (mkUst a cs') /\ output 1 (mkUst a cs') = output 1 (mkUst a cs) ++ strn str.
Proof.
  intros Hp ->. exists (rev ((fun c => Uwrite 1 [c]) <$> strn str) ++ cs). split.
  - unfold say. by rewrite (uprintf_run _ _ _ _ _ Hp).
  - apply (output_putcs 1 (strn str) (mkUst a cs)).
Qed.

Lemma die_never {A} msg args s (a : A) s' : die msg args s <> Ok a s'.
Proof. intros H. apply bind_inv in H as (? & ? & _ & H). discriminate. Qed.

(** *** pipe1 *)

Lemma counts_up_app l1 : forall seq l2,
  counts_up seq (l1 ++ l2) = counts_up seq l1 && counts_up (seq + Z.of_nat (length l1)) l2.
Proof.
  induction l1 as [|b l1 IH]; intros seq l2; [simpl; by rewrite Z.add_0_r|]. cbn -[Z.land]. destruct (negb _); [done|].
  rewrite IH. do 2 f_equal. lia.
Qed.

Lemma counts_up_iff l : forall seq, Forall (fun b => 0 <= b < 2 ^ 8) l ->
  counts_up seq l = true <-> l = u8 <$> seqZ seq (Z.of_nat (length l)).
Proof.
  induction l as [|b l IH]; intros seq Hl; [done|]. apply list.Forall_cons in Hl as [Hb Hl].
  cbn [counts_up length]. rewrite seqZ_cons by lia. replace (Z.pred (Z.of_nat (S (length l)))) with (Z.of_nat (length l)) by lia.
  change 255 with (Z.ones 8). rewrite !Z.land_ones by lia. rewrite (Z.mod_small b) by lia. rewrite fmap_cons. unfold u8 at 1.
  destruct (Z.eqb_spec b (seq mod 2 ^ 8)) as [->|Hn]; cbn [negb].
  - rewrite IH by done. split; [intros H; by rewrite H at 1|by intros [=]].
  - split; [done|]. by intros [=].
Qed.

(** The reads of the parent: the bytes are right and it returns their number, or it
    complains. *)
Lemma pipe1_read_run fd e rest : a_ret e <= 0 -> forall chunks seq total cc buf cs fuel,
  Forall (fun c => c <> []) chunks -> (length chunks < fuel)%nat -> 0 <= seq -> 0 <= total ->
  seq + Z.of_nat (length (concat chunks)) < 2 ^ 31 -> total + Z.of_nat (length (concat chunks)) < 2 ^ 31 ->
  let run := pipe1_read fuel fd seq total cc buf (mkUst (served chunks ++ e :: rest) cs) in
  if counts_up seq (concat chunks) then
    exists buf' cs', run = Ok (Some (total + Z.of_nat (length (concat chunks))), buf') (mkUst rest cs') /\
      output 1 (mkUst rest cs') = output 1 (mkUst rest cs)
  else exists buf' s', run = Ok (None, buf') s' /\ output 1 s' = output 1 (mkUst rest cs) ++ strn "pipe1 oops 2".
Proof.
  intros He. induction chunks as [|c chunks IH]; intros seq total cc buf cs fuel Hc Hfuel Hs Ht Hs2 Ht2 run;
    (destruct fuel as [|fuel]; [simpl in Hfuel; lia|]).
  - cbn [concat counts_up]. exists buf, (Uread fd cc :: cs). split; [|by rewrite output_cons, app_nil_r].
    unfold run. cbn [pipe1_read served fmap list_fmap app]. unfold bind at 1. rewrite uread_run.
    rewrite (proj2 (Z.ltb_ge 0 (a_ret e))) by lia. rewrite (proj2 (Z.leb_le (a_ret e) 0)) by lia. cbn [length concat]. by rewrite Z.add_0_r.
  - apply list.Forall_cons in Hc as [Hne Hc]. cbn [concat] in *. rewrite length_app in *.
    assert (0 < Z.of_nat (length c)) as Hpos by (destruct c; [done|simpl; lia]).
    assert (run = (if negb (counts_up seq c) then say "pipe1 oops 2" ;; ret (None, c ++ drop (length c) buf)
      else pipe1_read fuel fd (s32 (seq + Z.of_nat (length c))) (s32 (total + Z.of_nat (length c)))
             (if BUF <? cc * 2 then BUF else cc * 2) (c ++ drop (length c) buf)) (mkUst (served chunks ++ e :: rest) (Uread fd cc :: cs))) as E.
    { unfold run. cbn [pipe1_read served fmap list_fmap app]. unfold bind at 1. rewrite uread_run. cbn [a_ret a_data].
      rewrite (proj2 (Z.ltb_lt 0 (Z.of_nat (length c)))) by lia. rewrite (proj2 (Z.leb_gt (Z.of_nat (length c)) 0)) by lia.
      by rewrite Nat2Z.id, splice_0, take_app_length. }
    clearbody run. subst run. rewrite counts_up_app. destruct (counts_up seq c); cbn [negb andb].
    + rewrite !s32_small by (unfold is_s32; lia).
      specialize (IH (seq + Z.of_nat (length c)) (total + Z.of_nat (length c)) (if BUF <? cc * 2 then BUF else cc * 2)
        (c ++ drop (length c) buf) (Uread fd cc :: cs) fuel Hc ltac:(simpl in Hfuel; lia) ltac:(lia) ltac:(lia) ltac:(lia) ltac:(lia)).
      cbn beta zeta in IH. rewrite output_cons, app_nil_r in IH.
      replace (total + Z.of_nat (length c + length (concat chunks))) with (total + Z.of_nat (length c) + Z.of_nat (length (concat chunks))) by lia.
      exact IH.
    + destruct (say_run _ "pipe1 oops 2" (served chunks ++ e :: rest) (Uread fd cc :: cs) eq_refl eq_refl) as (cs' & E & Ho).
      exists (c ++ drop (length c) buf), (mkUst (served chunks ++ e :: rest) cs').
      unfold bind. rewrite E. split; [done|]. by rewrite Ho, output_cons, app_nil_r.
Qed.

(** The parent of [pipe1], whatever the pieces in which the bytes come: it says that all is
    well exactly when they are the 5165 bytes its child writes, in order. *)
Theorem pipe1_verdict buf fd0 fd1 pid chunks e rest :
  0 < pid -> Forall (fun c => c <> []) chunks -> a_ret e <= 0 ->
  Forall (fun b => 0 <= b < 2 ^ 8) (concat chunks) -> Z.of_nat (length (concat chunks)) < 2 ^ 31 ->
  let run := pipe1 buf (mkUst (mkAnswer 0 [fd0; fd1] :: mkAnswer pid [] :: served chunks ++ e :: rest) []) in
  (exists b s', run = Ok b s' /\ output 1 s' = strn "pipe1 ok") <-> concat chunks = u8 <$> seqZ 0 (5 * 1033).
Proof.
  intros Hpid Hne He Hb Hlen run.
  pose proof (pipe1_read_run fd0 e rest He chunks 0 0 1 buf [Uclose fd1; Ufork; Upipe] (S (length (served chunks ++ e :: rest)))
    Hne ltac:(unfold served; rewrite length_app, length_fmap; simpl; lia) ltac:(lia) ltac:(lia) ltac:(lia) ltac:(lia)) as Hr.
  cbn beta zeta in Hr. rewrite Z.add_0_l in Hr. pose proof (counts_up_iff (concat chunks) 0 Hb) as Hc.
  assert (run = (r <- pipe1_read (S (length (served chunks ++ e :: rest))) fd0 0 0 1 buf ;;
    (let '(o, buf) := r in
     match o with
     | None => ret buf
     | Some total =>
         when (negb (total =? 5 * 1033)) (die (strn "pipe1 oops 3 total %d") [PInt total]) ;;
         sys_ (Uclose fd0) ;; sys_ Uwait ;; say "pipe1 ok" ;; ret buf
     end)) (mkUst (served chunks ++ e :: rest) [Uclose fd1; Ufork; Upipe])) as E.
  { unfold run, pipe1. cbn [sys u_answers]. unfold bind at 1. cbn -[pipe1_read served].
    rewrite (proj2 (Z.eqb_neq pid 0)), (proj2 (Z.ltb_lt 0 pid)) by lia. reflexivity. }
  clearbody run. subst run. destruct (counts_up 0 (concat chunks)) eqn:Eup.
  - destruct Hr as (buf' & cs' & E & Ho). rewrite (bind_ok _ _ _ _ _ E). cbn beta iota.
    destruct (Z.eqb_spec (Z.of_nat (length (concat chunks))) (5 * 1033)) as [Hn|Hn]; cbn [negb when].
    + split; [intros _; rewrite <- Hn; by apply Hc|]. intros _. mstep. unfold sys_. mstep. ured.
      destruct (say_run _ "pipe1 ok" rest (Uwait :: Uclose fd0 :: cs') eq_refl eq_refl) as (cs2 & E2 & Ho2).
      rewrite (bind_ok _ _ _ _ _ E2). exists buf', (mkUst rest cs2). split; [done|]. rewrite Ho2, !output_cons, Ho. done.
    + split; [|intros Hs; exfalso; apply Hn; rewrite Hs, length_fmap, length_seqZ; lia].
      intros (b & s' & Eq & _). apply bind_inv in Eq as (? & ? & Eq & _). by apply die_never in Eq.
  - destruct Hr as (buf' & s' & E & Ho). rewrite (bind_ok _ _ _ _ _ E). split.
    + intros (b & s2 & Eq & Ho2). injection Eq as _ <-. rewrite Ho in Ho2. done.
    + intros Hs. assert (Z.of_nat (length (concat chunks)) = 5 * 1033) as Hn by (rewrite Hs, length_fmap, length_seqZ; lia).
      rewrite <- Hn in Hs. by apply Hc in Hs.
Qed.

(** *** writetest1 *)

Lemma die_exits {A} msg args l s : Uprintf.printf msg args = Some l -> exists s', @die A msg args s = Switch s'.
Proof. intros H. unfold die. rewrite (bind_ok _ _ _ _ _ (uprintf_run 1 msg args l s H)). by eexists. Qed.

Lemma open_or_die_run path mode msg fd d l cs :
  0 <= fd -> open_or_die path mode msg (mkUst (mkAnswer fd d :: l) cs) = Ok fd (mkUst l (Uopen (str path) mode :: cs)).
Proof. intros H. unfold open_or_die, die_if. cbn -[Z.ltb str]. by rewrite (proj2 (Z.ltb_ge fd 0)) by lia. Qed.

(** A block of the big file: 512 bytes, of which the first four are its number. *)
Definition big_block (i : nat) (b : list Z) : Prop := length b = 512%nat /\ get32 b 0 = Z.of_nat i.

Lemma big_write_run fd ix : forall l buf cs, exists buf' cs',
  big_write ix fd buf (mkUst (replicate (length ix) (mkAnswer 512 []) ++ l) cs) = Ok buf' (mkUst l cs') /\
  (fd <> 1 -> output 1 (mkUst l cs') = output 1 (mkUst l cs)).
Proof.
  induction ix as [|i ix IH]; intros l buf cs; [by exists buf, cs|].
  destruct (IH l (put32 buf 0 i) (Uwrite fd (take 512 (put32 buf 0 i)) :: cs)) as (buf' & cs' & E & Ho).
  exists buf', cs'. split; [exact E|]. intros Hfd. rewrite Ho, output_cons by done. cbn [out_of].
  rewrite (proj2 (Z.eqb_neq _ _)) by done. by rewrite app_nil_r.
Qed.

Lemma get32_app b l : length b = 512%nat -> get32 (b ++ l) 0 = get32 b 0.
Proof. intros H. unfold get32. by rewrite !app_nth1 by (simpl; lia). Qed.

(** After the blocks [n], [n+1], ... and the end of the file, the loop stops with an
    error or without. *)
Lemma big_read_run fd l blocks : forall n buf cs fuel,
  (forall i b, blocks !! i = Some b -> big_block (n + i) b) -> (length blocks < fuel)%nat -> Z.of_nat (n + length blocks) < 2 ^ 31 ->
  exists buf' cs', output 1 (mkUst l cs') = output 1 (mkUst l cs) /\
  big_read fuel fd (Z.of_nat n) buf (mkUst (served blocks ++ eof :: l) cs) =
    (if Z.of_nat (n + length blocks) =? MAXFILE - 1
     then die (str "read only %d blocks from big") [PInt (Z.of_nat (n + length blocks))] else ret buf') (mkUst l cs').
Proof.
  induction blocks as [|b blocks IH]; intros n buf cs fuel Hb Hfuel Hn; (destruct fuel as [|fuel]; [simpl in Hfuel; lia|]).
  - exists buf, (Uread fd 512 :: cs). rewrite output_cons, app_nil_r. split; [done|]. by rewrite Nat.add_0_r.
  - destruct (Hb 0%nat b eq_refl) as [Hl Hg]. rewrite Nat.add_0_r in Hg.
    destruct (IH (S n) (b ++ drop (length b) buf) (Uread fd 512 :: cs) fuel) as (buf' & cs' & Ho & E).
    { intros i b' Hi. rewrite Nat.add_succ_comm. by apply Hb. }
    { simpl in Hfuel; lia. } { simpl in Hn. lia. }
    exists buf', cs'. rewrite output_cons, app_nil_r in Ho. split; [done|].
    cbn [length] in *. rewrite <- Nat.add_succ_comm, <- E.
    cbn [big_read served fmap list_fmap app]. unfold bind at 1. rewrite uread_run. cbn [a_ret a_data]. rewrite splice_0.
    rewrite (proj2 (Z.ltb_lt 0 (Z.of_nat (length b)))) by lia. rewrite get32_app, Hg by done. rewrite s32_small by (unfold is_s32; lia). rewrite Z.eqb_refl, Hl.
    change (Z.of_nat 512) with 512. cbn [negb Z.eqb Pos.eqb]. by rewrite Nat2Z.inj_succ, <- Z.add_1_r.
Qed.

(** [writetest1] accepts a file that has lost its tail: of the [MAXFILE] blocks it wrote
    and was told are written, any number may come back, as long as it is not exactly
    [MAXFILE - 1]. *)
Theorem writetest1_accepts_lost_tail buf fd fd' blocks rest :
  1 < fd -> 1 < fd' -> (forall i b, blocks !! i = Some b -> big_block i b) -> (length blocks <= Z.to_nat MAXFILE)%nat ->
  let run := writetest1 buf (mkUst (mkAnswer fd [] :: replicate (Z.to_nat MAXFILE) (mkAnswer 512 []) ++
                                     mkAnswer fd' [] :: served blocks ++ eof :: mkAnswer 0 [] :: rest) []) in
  if Z.of_nat (length blocks) =? MAXFILE - 1 then exists s', run = Switch s'
  else exists b s', run = Ok b s' /\ output 1 s' = strn "big files test" ++ strn "big files ok".
Proof.
  intros Hfd Hfd' Hb Hl run.
  set (tail := mkAnswer fd' [] :: served blocks ++ eof :: mkAnswer 0 [] :: rest) in *.
  destruct (say_run _ "big files test" (mkAnswer fd [] :: replicate (Z.to_nat MAXFILE) (mkAnswer 512 []) ++ tail) [] eq_refl eq_refl)
    as (c0 & E0 & O0).
  destruct (big_write_run fd (seqZ 0 MAXFILE) tail buf (Uopen (str "big") O_CREATE_RDWR :: c0)) as (b1 & c1 & E1 & O1).
  rewrite length_seqZ in E1. rewrite output_cons in O1.
  destruct (big_read_run fd' (mkAnswer 0 [] :: rest) blocks 0 b1 (Uopen (str "big") O_RDONLY :: Uclose fd :: c1)
    (S (length (served blocks ++ eof :: mkAnswer 0 [] :: rest)))) as (b2 & c2 & O2 & E2); [done| |rewrite Nat.add_0_l; change MAXFILE with 140 in Hl; lia|].
  { unfold served. rewrite length_app, length_fmap. simpl. lia. }
  rewrite Nat.add_0_l in E2. change (Z.of_nat 0) with 0 in E2.
  assert (run = (buf <- big_read (S (length (served blocks ++ eof :: mkAnswer 0 [] :: rest))) fd' 0 b1 ;;
    sys_ (Uclose fd') ;; die_neg (Uunlink (str "big")) (strn "unlink big failed") ;; say "big files ok" ;; ret buf)
    (mkUst (served blocks ++ eof :: mkAnswer 0 [] :: rest) (Uopen (str "big") O_RDONLY :: Uclose fd :: c1))) as Er.
  { unfold run, writetest1. rewrite (bind_ok _ _ _ _ _ E0), (bind_ok _ _ _ _ _ (open_or_die_run _ _ _ fd _ _ _ ltac:(lia))).
    rewrite (bind_ok _ _ _ _ _ E1). unfold sys_ at 1. rewrite bind_modify. ured. unfold tail.
    by rewrite (bind_ok _ _ _ _ _ (open_or_die_run _ _ _ fd' _ _ _ ltac:(lia))). }
  clearbody run. subst run.
  destruct (Z.of_nat (length blocks) =? MAXFILE - 1).
  - destruct (die_exits (A := list Z) (str "read only %d blocks from big") [PInt (Z.of_nat (length blocks))] _
      (mkUst (mkAnswer 0 [] :: rest) c2) eq_refl) as (s' & Es). rewrite Es in E2. exists s'. unfold bind at 1. by rewrite E2.
  - rewrite (bind_ok _ _ _ _ _ E2). unfold sys_. rewrite bind_modify. ured.
    destruct (say_run _ "big files ok" rest (Uunlink (str "big") :: Uclose fd' :: c2) eq_refl eq_refl) as (c3 & E3 & O3).
    exists b2, (mkUst rest c3). split.
    + unfold die_neg, sys_ret, sys, die_if, bind. cbn [u_answers]. ured. unfold ret at 1 2. cbn [a_ret Z.ltb Z.compare]. by rewrite E3.
    + rewrite O3, !output_cons, (output_answers 1 _ (mkAnswer 0 [] :: rest) c2), O2, !output_cons, (output_answers 1 _ tail), O1 by lia.
      rewrite (output_answers 1 _ (mkAnswer fd [] :: replicate (Z.to_nat MAXFILE) (mkAnswer 512 []) ++ tail) c0), O0. by rewrite !app_nil_r.
Qed.
