(* ===== verification/PipeTest.v ===== *)
(** * The pipe test over the kernel's pipe

    [pipe1] of [usertests.c] and [pipe.c] together: the child's writes go through the
    kernel's pipe to the parent's reads, cut and interleaved in any way, and the parent
    finds what it expects. *)

From S2P Require Import Prelude Params State Mem Strings Locks Printf Kalloc Vm Sched Procs Sleeplock Bio Pipe Fs File FileSpec User Tests Usertests.
Import Spin.

(** ** What the child writes *)

Lemma pipe1_write_run fd : forall n seq buf l cs, exists cs',
  pipe1_write n fd seq buf (mkUst (replicate n (mkAnswer 1033 []) ++ l) cs) = Ok tt (mkUst l cs') /\
  output fd (mkUst l cs') = output fd (mkUst l cs) ++ (u8 <$> seqZ seq (1033 * Z.of_nat n)).
Proof.
  induction n as [|n IH]; intros seq buf l cs; [exists cs; split; [done|by rewrite app_nil_r]|].
  set (d := u8 <$> seqZ seq 1033). assert (length d = 1033%nat) as Hd by (unfold d; rewrite length_fmap, length_seqZ; lia).
  assert (take 1033 (splice buf 0 d) = d) as Et by (rewrite splice_0, <- Hd; apply take_app_length).
  destruct (IH (seq + 1033) (splice buf 0 d) l (Uwrite fd d :: cs)) as (cs' & E & Ho). exists cs'. split.
  - cbn [pipe1_write]. fold d. rewrite Et. cbn [replicate app]. exact E.
  - rewrite Ho, output_cons. cbn [out_of]. rewrite Z.eqb_refl, <- (assoc_L (++)). f_equal. unfold d.
    rewrite <- fmap_app, <- seqZ_app by lia. do 2 f_equal. lia.
Qed.

(** The answers to the calls of the child: a pipe, the zero of [fork], and writes that
    take all they are given. *)
Definition child_answers (fd0 fd1 : Z) : list answer :=
  mkAnswer 0 [fd0; fd1] :: mkAnswer 0 [] :: replicate 5 (mkAnswer 1033 []).

Lemma pipe1_child buf fd0 fd1 :
  exists s', pipe1 buf (mkUst (child_answers fd0 fd1) []) = Switch s' /\ output fd1 s' = u8 <$> seqZ 0 (5 * 1033).
Proof.
  destruct (pipe1_write_run fd1 5 0 buf [] [Uclose fd0; Ufork; Upipe]) as (cs' & E & Ho). rewrite app_nil_r in E.
  exists (mkUst [] (Uexit :: cs')). split.
  - unfold pipe1, child_answers. cbn [sys u_answers]. unfold bind at 1. cbn -[pipe1_write replicate].
    rewrite (bind_ok _ _ _ _ _ E). done.
  - rewrite output_cons, Ho. cbn [out_of]. by rewrite app_nil_r.
Qed.

(** The blocks a program has written to a descriptor, in order. *)
Definition writes (fd : Z) (u : ust) : list (list Z) :=
  omap (fun c => match c with Uwrite fd' l => if fd' =? fd then Some l else None | _ => None end) (rev (u_calls u)).

Lemma writes_output fd u : concat (writes fd u) = output fd u.
Proof.
  unfold writes, output. generalize (rev (u_calls u)) as cs. induction cs as [|c cs IH]; [done|]. rewrite fmap_cons. cbn [concat].
  rewrite <- IH. destruct c; try done. cbn. by destruct (_ =? fd).
Qed.

(** ** The calls on a pipe leave the open files alone *)

(** [leaves f m]: whatever its outcome, [m] leaves the part [f] of the state as it was. *)
Definition leaves {A B} (f : kst -> B) (m : K A) : Prop := forall s, f (final (m s)) = f s.

Lemma leaves_bind {A A' B} (f : kst -> B) (m : K A) (k : A -> K A') :
  leaves f m -> (forall a, leaves f (k a)) -> leaves f (bind m k).
Proof.
  intros Hm Hk s. specialize (Hm s). unfold bind. destruct (m s) as [a s1| | | |]; simpl in *; try done. by rewrite Hk.
Qed.

Lemma leaves_modify {B} (f : kst -> B) g : (forall s, f (g s) = f s) -> leaves f (modify g).
Proof. intros Hg s. apply Hg. Qed.

(** Through a routine whose parts are known to leave [f] alone. *)
Ltac leaves :=
  repeat first
    [ apply leaves_bind; [|intros]
    | apply leaves_modify; intros ?; reflexivity
    | by intros ?
    | match goal with |- leaves _ (match ?x with _ => _ end) => destruct x end
    | match goal with |- leaves _ (let '_ := ?x in _) => destruct x end
    | progress cbv [when nth_ok] ].

Lemma files_acquire lk : leaves k_ftable (acquire lk).
Proof. unfold acquire, pushcli, holding, readeflags_if, cli. leaves. Qed.

Lemma files_release lk : leaves k_ftable (release lk).
Proof. unfold release, popcli, holding, readeflags_if, sti. leaves. Qed.

Lemma files_myproc : leaves k_ftable myproc.
Proof. unfold myproc. leaves. Qed.

Lemma files_get_proc i : leaves k_ftable (get_proc i).
Proof. unfold get_proc. leaves. Qed.

Create HintDb files.
#[local] Hint Resolve files_acquire files_release files_myproc files_get_proc : files.
Ltac files := repeat first [by auto with files | progress leaves].

Lemma files_sleep c lk : leaves k_ftable (sleep c lk).
Proof. unfold sleep, sched, set_proc, holding. files. Qed.

Lemma files_wakeup c : leaves k_ftable (wakeup c).
Proof. unfold wakeup, wakeup1. files. Qed.

Lemma files_sleep_resume b lk : leaves k_ftable (sleep_resume b lk).
Proof. unfold sleep_resume, sched_resume, set_proc. files. Qed.

Lemma files_kfree p : leaves k_ftable (kfree p).
Proof. unfold kfree, lock_kmem, unlock_kmem. files. Qed.

#[local] Hint Resolve files_sleep files_wakeup files_sleep_resume files_kfree : files.

Lemma files_pipewrite_loop p n l : leaves k_ftable (pipewrite_loop p n l).
Proof. induction l as [|b l IH]; cbn [pipewrite_loop]; unfold get_pipe, set_pipe, killed; files. Qed.

Lemma files_piperead_loop p n : leaves k_ftable (piperead_loop p n).
Proof. unfold piperead_loop, get_pipe, set_pipe, killed. files. Qed.

Lemma files_pipeclose p w : leaves k_ftable (pipeclose p w).
Proof. unfold pipeclose, get_pipe, set_pipe. files. Qed.

#[local] Hint Resolve files_pipewrite_loop files_piperead_loop : files.

Lemma files_calls p n m l saved :
  leaves k_ftable (pipewrite p l) /\ leaves k_ftable (piperead p n) /\
  leaves k_ftable (pipewrite_resume saved p m l) /\ leaves k_ftable (piperead_resume saved p n).
Proof. unfold pipewrite, piperead, pipewrite_resume, piperead_resume. split_and!; files. Qed.

Lemma leaves_ok {A B} (f : kst -> B) (m : K A) s a s' : leaves f m -> m s = Ok a s' -> f s' = f s.
Proof. intros Hm E. specialize (Hm s). by rewrite E in Hm. Qed.

Lemma leaves_switch {A B} (f : kst -> B) (m : K A) s s' : leaves f m -> m s = Switch s' -> f s' = f s.
Proof. intros Hm E. specialize (Hm s). by rewrite E in Hm. Qed.

(** ** The child and the parent on one pipe *)

(** Where the child is: it has blocks to write, it sleeps in a write of [n] bytes with the
    bytes [rest] to store, or it has exited. *)
Inductive writer :=
| Writing (todo : list (list Z))
| Asleep (n : Z) (rest : list Z) (todo : list (list Z))
| Gone.

Definition lives (c : writer) : bool := match c with Gone => false | _ => true end.

Section Session.
Context `{BlockDriver} `{Devices}.
Context (p : Z) (fw : nat) (ws : list (list Z)).

(** [session s c held got]: the pipe at [p] was made, with the open file [fw] for its write
    end, and the process forked, so that both have a descriptor of [fw]; steps of the two,
    and anything else the kernel does that leaves the pipe and the file alone, have led to
    [s]. The child, which writes the blocks [ws] and exits, which closes [fw], is at [c].
    [held] says whether the parent has still to close [fw]; it reads after that. [got] are
    the results of its reads. *)
Inductive session : kst -> writer -> bool -> list (list Z) -> Prop :=
| session_start s pi f :
    k_pipes s !! p = Some pi -> pipe_ok pi -> queue pi = [] -> pi_readopen pi = true -> pi_writeopen pi = true ->
    k_ftable s !! fw = Some f -> f_type f = FD_PIPE -> f_pipe f = p -> f_writable f = true -> f_ref f = 2 ->
    session s (Writing ws) true []
| session_other s s' c held got :
    session s c held got -> k_pipes s' !! p = k_pipes s !! p -> k_ftable s' !! fw = k_ftable s !! fw -> session s' c held got
| session_write s s' me l todo held got :
    session s (Writing (l :: todo)) held got -> ready me s -> ncli (k_cpu s) = 0 ->
    pipewrite p l s = Ok (Z.of_nat (length l)) s' -> session s' (Writing todo) held got
| session_write_sleep s s' me l todo held got :
    session s (Writing (l :: todo)) held got -> ready me s -> ncli (k_cpu s) = 0 ->
    pipewrite p l s = Switch s' -> session s' (Asleep (Z.of_nat (length l)) (drop (stored p s s') l) todo) held got
| session_resume s s' me saved n rest todo held got :
    session s (Asleep n rest todo) held got -> resumed me s ->
    pipewrite_resume saved p n rest s = Ok n s' -> session s' (Writing todo) held got
| session_resume_sleep s s' me saved n rest todo held got :
    session s (Asleep n rest todo) held got -> resumed me s ->
    pipewrite_resume saved p n rest s = Switch s' -> session s' (Asleep n (drop (stored p s s') rest) todo) held got
| session_close s s' me c got :
    session s c true got -> ready me s -> fileclose fw s = Ok tt s' -> session s' c false got
| session_exit s s' me held got :
    session s (Writing []) held got -> ready me s -> fileclose fw s = Ok tt s' -> session s' Gone held got
| session_read s s' me n l c got :
    session s c false got -> ready me s -> ncli (k_cpu s) = 0 -> 0 < n ->
    piperead p n s = Ok (Some l) s' -> session s' c false (got ++ [l])
| session_read_resume s s' me saved n l c got :
    session s c false got -> resumed me s -> 0 < n ->
    piperead_resume saved p n s = Ok (Some l) s' -> session s' c false (got ++ [l]).

(** The bytes the child has yet to put into the pipe. *)
Definition pending (c : writer) : list Z :=
  match c with Writing todo => concat todo | Asleep _ rest todo => rest ++ concat todo | Gone => [] end.

(** The bytes read, in the pipe and to come are those of the child, and while it lives the
    write end is open. *)
Definition flows (pi : pipe) (c : writer) (held : bool) (got : list (list Z)) : Prop :=
  pipe_ok pi /\ concat ws = concat got ++ queue pi ++ pending c /\ pi_readopen pi = true /\
  pi_writeopen pi = lives c || held /\ match c with Asleep n _ _ => 0 <= n | _ => True end.

(** The file has a reference from each process that has not closed it. *)
Definition referred (f : file) (c : writer) (held : bool) : Prop :=
  lives c || held = true ->
  f_type f = FD_PIPE /\ f_pipe f = p /\ f_writable f = true /\ f_ref f = Z.b2z (lives c) + Z.b2z held.

Lemma flows_close s s' me pi f c held c' held' got :
  k_pipes s !! p = Some pi -> flows pi c held got -> k_ftable s !! fw = Some f -> referred f c held ->
  ready me s -> fileclose fw s = Ok tt s' ->
  c = c' /\ held = true /\ held' = false \/ c = Writing [] /\ c' = Gone /\ held' = held ->
  exists pi' f', k_pipes s' !! p = Some pi' /\ flows pi' c' held' got /\ k_ftable s' !! fw = Some f' /\ referred f' c' held'.
Proof.
  intros Hp (Hok & Hq & Hro & Hwo & Hm) Hf Href [Hc _] E Hcases.
  assert (pending c' = pending c /\ lives c || held = true /\ match c' with Asleep n _ _ => 0 <= n | _ => True end /\
    Z.b2z (lives c) + Z.b2z held = 1 + (Z.b2z (lives c') + Z.b2z held')) as (Hpe & Hlh & Hm' & Hn).
  { destruct Hcases as [(-> & -> & ->)|(-> & -> & ->)]; [|by destruct held]. split_and!; try done; [apply orb_true_r|by destruct c']. }
  destruct (Href Hlh) as (Hty & Hpp & Hw & Hr). destruct (lives c' || held') eqn:Elh.
  - assert (1 < f_ref f) as H1 by (rewrite Hr, Hn; destruct (lives c'), held'; simpl in *; (done || lia)).
    rewrite (fileclose_more fw f s Hc Hf H1) in E. injection E as <-. exists pi, (f <| f_ref ::= fun n => n - 1 |>).
    split; [done|]. split; [split_and!; try done; [by rewrite Hq, Hpe|by rewrite Elh, Hwo]|]. split; [by apply lookup_with|].
    intros _. simpl. split_and!; try done. lia.
  - assert (f_ref f = 1) as H1 by (rewrite Hr, Hn; by destruct (lives c'), held').
    rewrite (fileclose_last fw f s Hc Hf H1) in E. unfold drop_object in E. simpl in E. rewrite Hty, Hpp, Hw in E.
    pose proof (leaves_ok _ _ _ _ _ (files_pipeclose p true) E) as Eft.
    rewrite (pipeclose_run p true pi (with_file fw closed s) Hc Hp) in E.
    change (pi_readopen (close_end true pi)) with (pi_readopen pi) in E. rewrite Hro in E. cbn [negb andb] in E.
    injection E as <-. exists (close_end true pi), (closed f). split; [simpl; by rewrite lookup_alter_eq, Hp|].
    split; [|split; [rewrite Eft; by apply lookup_with|intros Hx; by rewrite Elh in Hx]].
    split; [done|]. split; [by rewrite Hq, Hpe|]. split; [done|]. split; [by rewrite Elh|done].
Qed.

Lemma flows_write me n l pi s c todo held got r :
  ready me s -> ncli (k_cpu s) = 0 -> k_pipes s !! p = Some pi -> 0 <= n -> pending c = l ++ concat todo -> lives c = true ->
  flows pi c held got -> pipewrite_loop p n l (lock_st (LPipe p) s) = r ->
  match r with
  | Ok v s' => v = n -> exists pi', k_pipes s' !! p = Some pi' /\ flows pi' (Writing todo) held got
  | Switch s' => exists pi', k_pipes s' !! p = Some pi' /\ flows pi' (Asleep n (drop (stored p s s') l) todo) held got
  | _ => False
  end.
Proof.
  intros Hr Hc Hp Hn Hpe Hg (Hok & Hq & Hro & Hwo & _) E. pose proof (write_effect p n l pi me s r Hr Hc Hp Hok Hn E) as HW.
  rewrite Hg in Hwo. rewrite Hpe in Hq.
  destruct r as [v s'| | |s'|]; try done.
  - intros Hv. destruct (HW Hv) as (pi' & Hp' & Hok' & Hq' & Hro' & Hwo'). exists pi'. split; [done|].
    split_and!; [done| |congruence|by rewrite Hwo'|done]. by rewrite Hq, Hq', <- !(assoc_L (++)).
  - destruct HW as (pi' & Hp' & Hok' & Hq' & Hro' & Hwo'). exists pi'. split; [done|].
    split_and!; [done| |congruence|by rewrite Hwo'|done]. cbn [pending]. rewrite Hq, !(assoc_L (++)), <- (assoc_L (++) (concat got)), Hq'.
    by rewrite !(assoc_L (++)).
Qed.

Lemma flows_read me n l pi s s' c got :
  ready me s -> ncli (k_cpu s) = 0 -> k_pipes s !! p = Some pi -> 0 < n -> flows pi c false got ->
  piperead_loop p n (lock_st (LPipe p) s) = Ok (Some l) s' ->
  exists pi', k_pipes s' !! p = Some pi' /\ flows pi' c false (got ++ [l]) /\ (l = [] -> concat ws = concat got).
Proof.
  intros Hr Hc Hp Hn (Hok & Hq & Hro & Hwo & Hm) E.
  destruct (read_effect p n pi me s l s' Hr Hc Hp Hok E) as (pi' & Hp' & Hok' & Hq' & [Hro' Hwo'] & Hend).
  exists pi'. split; [done|]. split.
  - split_and!; [done| |congruence|congruence|done]. rewrite concat_app, Hq, Hq'. simpl. by rewrite app_nil_r, <- !(assoc_L (++)).
  - intros Hl. destruct (Hend Hl Hn) as [Hq0 Hw0]. rewrite Hq, Hq0. rewrite Hw0, orb_false_r in Hwo.
    destruct c; [done..|]. by rewrite !app_nil_r.
Qed.

(** A call that comes back from sleep goes on in its loop. *)
Lemma resume_at saved me n l s pi :
  resumed me s -> k_pipes s !! p = Some pi ->
  exists s0, ready me s0 /\ ncli (k_cpu s0) = 0 /\ k_pipes s0 !! p = Some pi /\ k_pipes s0 = k_pipes s /\
    pipewrite_resume saved p n l s = pipewrite_loop p n l (lock_st (LPipe p) s0) /\
    piperead_resume saved p n s = piperead_loop p n (lock_st (LPipe p) s0).
Proof.
  intros Hr Hp. destruct (sleep_resume_run saved (LPipe p) me s Hr ltac:(done)) as (s0 & E0 & Hr0 & Hc0 & Hk0 & _).
  exists s0. rewrite Hk0. unfold pipewrite_resume, piperead_resume. by rewrite !(bind_ok _ _ _ _ _ E0).
Qed.

Lemma session_flows s c held got :
  session s c held got -> exists pi f, k_pipes s !! p = Some pi /\ flows pi c held got /\ k_ftable s !! fw = Some f /\ referred f c held.
Proof.
  induction 1 as [s pi f Hp Hok Hq Hro Hwo Hf Hty Hpp Hw Hr|s s' c held got _ (pi & f & IH) Hk Hkf
    |s s' me l todo held got _ (pi & f & Hp & IH & Hf & Hrf) Hr Hn E
    |s s' me l todo held got _ (pi & f & Hp & IH & Hf & Hrf) Hr Hn E|s s' me saved n rest todo held got _ (pi & f & Hp & IH & Hf & Hrf) Hr E
    |s s' me saved n rest todo held got _ (pi & f & Hp & IH & Hf & Hrf) Hr E|s s' me c got _ (pi & f & Hp & IH & Hf & Hrf) Hr E
    |s s' me held got _ (pi & f & Hp & IH & Hf & Hrf) Hr E
    |s s' me n l c got _ (pi & f & Hp & IH & Hf & Hrf) Hr Hc Hn E|s s' me saved n l c got _ (pi & f & Hp & IH & Hf & Hrf) Hr Hn E].
  - exists pi, f. split; [done|]. split; [split_and!; try done; simpl; by rewrite Hq|]. by split.
  - exists pi, f. by rewrite Hk, Hkf.
  - pose proof (leaves_ok _ _ _ _ _ (proj1 (files_calls p 0 0 l true)) E) as Eft. rewrite (pipewrite_enter me) in E by done.
    destruct (flows_write me _ l pi s (Writing (l :: todo)) todo held got _ Hr Hn Hp (Nat2Z.is_nonneg _) eq_refl eq_refl IH E eq_refl) as (pi' & Hp' & Hfl).
    exists pi', f. by rewrite Eft.
  - pose proof (leaves_switch _ _ _ _ (proj1 (files_calls p 0 0 l true)) E) as Eft. rewrite (pipewrite_enter me) in E by done.
    destruct (flows_write me _ l pi s (Writing (l :: todo)) todo held got _ Hr Hn Hp (Nat2Z.is_nonneg _) eq_refl eq_refl IH E) as (pi' & Hp' & Hfl).
    exists pi', f. by rewrite Eft.
  - destruct (files_calls p 0 n rest saved) as (_ & _ & Hl & _). pose proof (leaves_ok _ _ _ _ _ Hl E) as Eft.
    destruct (resume_at saved me n rest s pi Hr Hp) as (s0 & Hr0 & Hc0 & Hp0 & Hk0 & E0 & _). rewrite E0 in E. pose proof IH as (_ & _ & _ & _ & Hm).
    destruct (flows_write me n rest pi s0 (Asleep n rest todo) todo held got _ Hr0 Hc0 Hp0 Hm eq_refl eq_refl IH E eq_refl) as (pi' & Hp' & Hfl).
    exists pi', f. by rewrite Eft.
  - destruct (files_calls p 0 n rest saved) as (_ & _ & Hl & _). pose proof (leaves_switch _ _ _ _ Hl E) as Eft.
    destruct (resume_at saved me n rest s pi Hr Hp) as (s0 & Hr0 & Hc0 & Hp0 & Hk0 & E0 & _). rewrite E0 in E. pose proof IH as (_ & _ & _ & _ & Hm).
    destruct (flows_write me n rest pi s0 (Asleep n rest todo) todo held got _ Hr0 Hc0 Hp0 Hm eq_refl eq_refl IH E) as (pi' & Hp' & Hfl).
    exists pi', f. rewrite Eft. unfold stored in *. by rewrite Hk0 in Hfl.
  - eapply (flows_close s s' me pi f c true c false); eauto.
  - eapply (flows_close s s' me pi f (Writing []) held Gone held); eauto.
  - destruct (files_calls p n 0 [] true) as (_ & Hl & _). pose proof (leaves_ok _ _ _ _ _ Hl E) as Eft. rewrite (piperead_enter me) in E by done.
    destruct (flows_read me n l pi s s' c got Hr Hc Hp Hn IH E) as (pi' & Hp' & Hfl & _). exists pi', f. by rewrite Eft.
  - destruct (files_calls p n 0 [] saved) as (_ & _ & _ & Hl). pose proof (leaves_ok _ _ _ _ _ Hl E) as Eft.
    destruct (resume_at saved me n [] s pi Hr Hp) as (s0 & Hr0 & Hc0 & Hp0 & _ & _ & E0). rewrite E0 in E.
    destruct (flows_read me n l pi s0 s' c got Hr0 Hc0 Hp0 Hn IH E) as (pi' & Hp' & Hfl & _). exists pi', f. by rewrite Eft.
Qed.

(** A read that returns nothing comes after all the child's bytes. *)
Lemma session_end s c held got chunks : session s c held got -> got = chunks ++ [[]] -> concat ws = concat chunks.
Proof.
  induction 1 as [| | | | | | | |s s' me n l c got Hs _ Hr Hc Hn E|s s' me saved n l c got Hs _ Hr Hn E]; try done.
  - by destruct chunks.
  - intros [-> [= ->]]%app_inj_tail. destruct (session_flows _ _ _ _ Hs) as (pi & f & Hp & Hf & _). rewrite (piperead_enter me) in E by done.
    destruct (flows_read me n [] pi s s' c chunks Hr Hc Hp Hn Hf E) as (pi' & _ & _ & HL). by apply HL.
  - intros [-> [= ->]]%app_inj_tail. destruct (session_flows _ _ _ _ Hs) as (pi & f & Hp & Hf & _).
    destruct (resume_at saved me n [] s pi Hr Hp) as (s0 & Hr0 & Hc0 & Hp0 & _ & _ & E0). rewrite E0 in E.
    destruct (flows_read me n [] pi s0 s' c chunks Hr0 Hc0 Hp0 Hn Hf E) as (pi' & _ & _ & HL). by apply HL.
Qed.
End Session.

(** C16. The pipe test passes on this kernel. The child of [pipe1] writes its blocks into the
    kernel's pipe and exits; the parent closes the write end and reads, any number of bytes
    at a time; the pipe's write end closes with the second [fileclose]. Whatever the interleaving of the two, of their sleeping in the pipe and of the
    rest of the kernel, and in whatever pieces the reads return, when a read of the parent
    returns nothing it has found every byte it expects, and says so. *)
Theorem pipe1_passes `{BlockDriver} `{Devices} p fw s c held buf fd0 fd1 pid chunks rest :
  session p fw (writes fd1 (final (pipe1 buf (mkUst (child_answers fd0 fd1) [])))) s c held (chunks ++ [[]]) ->
  0 < pid -> Forall (fun d => d <> []) chunks ->
  exists b s2, pipe1 buf (mkUst (mkAnswer 0 [fd0; fd1] :: mkAnswer pid [] :: served (chunks ++ [[]]) ++ rest) []) = Ok b s2 /\
    output 1 s2 = strn "pipe1 ok".
Proof.
  intros Hs Hpid Hne. destruct (pipe1_child buf fd0 fd1) as (u & Eu & Ho). rewrite Eu in Hs. cbn [final] in Hs.
  pose proof (session_end p fw _ s c held _ chunks Hs eq_refl) as Heq. rewrite writes_output, Ho in Heq.
  assert (served (chunks ++ [[]]) ++ rest = served chunks ++ eof :: rest) as -> by (unfold served; by rewrite fmap_app, <- app_assoc).
  apply (pipe1_verdict buf fd0 fd1 pid chunks eof rest); [done|done|done| | |by rewrite Heq].
  - rewrite <- Heq. apply list.Forall_fmap, Forall_true. intros x. apply u8_range.
  - rewrite <- Heq, length_fmap, length_seqZ. vm_compute. done.
Qed.

(** ** A run of the two *)

Section Run.
Context `{BlockDriver} `{Devices}.
Context (p : Z) (ws : list (list Z)) (size : nat -> Z).
Hypothesis Hsize : forall k, 0 < size k.

(** The pipe in a state in which a process calls, or comes back from sleep. *)
Definition calling (pi : pipe) (f : file) : kst := pipe_st <| k_pipes := {[p := pi]} |> <| k_ftable := [f] |>.
Definition waking (pi : pipe) (f : file) : kst := back_st <| k_pipes := {[p := pi]} |> <| k_ftable := [f] |>.

Lemma calling_ready pi f :
  ready 0 (calling pi f) /\ ncli (k_cpu (calling pi f)) = 0 /\ k_pipes (calling pi f) !! p = Some pi.
Proof. split; [exact pipe_st_ready|]. split; [done|]. apply lookup_insert_eq. Qed.

Lemma waking_resumed pi f : resumed 0 (waking pi f) /\ k_pipes (waking pi f) !! p = Some pi.
Proof. split; [|apply lookup_insert_eq]. do 4 (split; [done|]). by exists running0. Qed.

(** The child has no empty block to write. *)
Definition busy (c : writer) : Prop :=
  match c with
  | Writing todo => Forall (fun l => l <> []) todo
  | Asleep _ rest todo => rest <> [] /\ Forall (fun l => l <> []) todo
  | Gone => True
  end.

Lemma at_call s c held got pi f :
  session p 0 ws s c held got -> k_pipes s !! p = Some pi -> k_ftable s !! 0%nat = Some f ->
  session p 0 ws (calling pi f) c held got /\ session p 0 ws (waking pi f) c held got.
Proof.
  intros Hs Hp Hf. split; (eapply session_other; [exact Hs|rewrite Hp; apply lookup_insert_eq|by rewrite Hf]).
Qed.

Lemma deliver s c got pi n :
  session p 0 ws s c false got -> k_pipes s !! p = Some pi -> queue pi <> [] \/ pi_writeopen pi = false -> 0 < n ->
  exists s' l, session p 0 ws s' c false (got ++ [l]).
Proof.
  intros Hs Hp Hq Hn. destruct (session_flows p 0 ws s c false got Hs) as (pi0 & f & Hp0 & (Hok & _) & Hf & _).
  assert (pi0 = pi) as -> by congruence. destruct (calling_ready pi f) as (Hr & Hc & Hpi).
  destruct (read_loop_outcome p n pi 0 (calling pi f) Hr Hc Hpi Hok) as (s' & pi' & _ & _ & _ & _ & HR).
  assert (bool_decide (queue pi = []) && pi_writeopen pi = false) as E.
  { destruct Hq as [Hq| ->]; [by rewrite bool_decide_eq_false_2|apply andb_false_r]. }
  rewrite E, <- (piperead_enter 0) in HR by done. destruct HR as (E' & _). exists s', (take (Z.to_nat n) (queue pi)).
  apply (session_read p 0 ws (calling pi f) s' 0 n); try done. by apply (at_call s c false got pi f).
Qed.

Lemma puts_some n l pi s :
  l <> [] -> ready 0 s -> ncli (k_cpu s) = 0 -> k_pipes s !! p = Some pi -> pipe_ok pi -> queue pi = [] -> pi_readopen pi = true -> 0 <= n ->
  exists s' pi', k_pipes s' !! p = Some pi' /\ queue pi' <> [] /\
    (pipewrite_loop p n l (lock_st (LPipe p) s) = Ok n s' \/
     pipewrite_loop p n l (lock_st (LPipe p) s) = Switch s' /\ drop (stored p s s') l <> []).
Proof.
  intros Hl Hr Hc Hp Hok Hq Hro Hn. destruct (write_loop_outcome p n l pi 0 s Hr Hc Hp Hok) as (s' & pi' & Hk & Hok' & Hq' & _ & _ & HW).
  assert (k_pipes s' !! p = Some pi') as Hp' by (by rewrite Hk, lookup_insert_eq).
  rewrite Hq, Hro in HW. rewrite Hq in Hq'. change (Z.to_nat (PIPESIZE - Z.of_nat (length []))) with 512%nat in *.
  exists s', pi'. split; [done|]. split; [rewrite Hq'; by destruct l|]. destruct (decide _) as [Hd|Hd].
  - left. apply HW.
  - right. destruct HW as [E _]. split; [done|]. pose proof (write_effect p n l pi 0 s _ Hr Hc Hp Hok Hn E) as (pi2 & Hp2 & _ & Hq2 & _).
    assert (pi2 = pi') as -> by congruence. rewrite Hq, Hq' in Hq2. intros Ed. rewrite Ed, app_nil_r in Hq2.
    apply (f_equal length) in Hq2. simpl in Hq2. rewrite length_take in Hq2. lia.
Qed.

(** The child's exit, when the parent has closed the file: the end of the pipe is closed. *)
Lemma leave_last s got pi :
  session p 0 ws s (Writing []) false got -> k_pipes s !! p = Some pi -> exists s', session p 0 ws s' Gone false got /\
    k_pipes s' !! p = Some (close_end true pi).
Proof.
  intros Hs Hp. destruct (session_flows p 0 ws s _ false got Hs) as (pi0 & f & Hp0 & (Hok & _ & Hro & _) & Hf & Href).
  assert (pi0 = pi) as -> by congruence. destruct (Href eq_refl) as (Hty & Hpp & Hw & Hr1). simpl in Hr1.
  destruct (calling_ready pi f) as (Hr & Hc & Hpi). destruct (at_call s _ false got pi f Hs Hp Hf) as [Hs1 _].
  assert (k_ftable (calling pi f) !! 0%nat = Some f) as Hf1 by done.
  pose proof (fileclose_last 0 f (calling pi f) (proj1 Hr) Hf1 Hr1) as E. unfold drop_object in E. simpl in E. rewrite Hty, Hpp, Hw in E.
  rewrite (pipeclose_run p true pi _ (proj1 Hr : calm (with_file 0 closed (calling pi f))) Hpi) in E.
  change (pi_readopen (close_end true pi)) with (pi_readopen pi) in E. rewrite Hro in E. cbn [negb andb] in E.
  eexists. split; [exact (session_exit p 0 ws _ _ 0 false got Hs1 Hr E)|]. simpl. rewrite lookup_alter_eq. simpl in Hpi. by rewrite Hpi.
Qed.

(** The next read of the parent, after a step of the child if the pipe is empty. *)
Lemma serve s c got n :
  session p 0 ws s c false got -> busy c -> 0 < n -> exists s' c' l, session p 0 ws s' c' false (got ++ [l]) /\ busy c'.
Proof.
  intros Hs Hb Hn. destruct (session_flows p 0 ws s c false got Hs) as (pi & f & Hp & (Hok & _ & Hro & Hwo & Hm) & Hf & _).
  destruct (decide (queue pi = [])) as [Hq|Hq].
  2:{ destruct (deliver s c got pi n Hs Hp (or_introl Hq) Hn) as (s' & l & HD). eauto. }
  destruct (calling_ready pi f) as (Hr & Hc & Hpi). destruct (waking_resumed pi f) as (Hre & Hpw).
  destruct (at_call s c false got pi f Hs Hp Hf) as [Hs1 Hs2].
  destruct c as [[|l todo]|m rest todo|].
  - destruct (leave_last s got pi Hs Hp) as (s1 & Hs3 & Hp1).
    destruct (deliver s1 Gone got (close_end true pi) n Hs3 Hp1) as (s' & l & HD); [by right|done|]. by exists s', Gone, l.
  - apply list.Forall_cons in Hb as [Hl Hb].
    destruct (puts_some (Z.of_nat (length l)) l pi (calling pi f)) as (s' & pi' & Hp' & Hq' & HW); try done; [lia|].
    rewrite <- (pipewrite_enter 0) in HW by done. destruct HW as [E|[E Hrest]].
    + destruct (deliver s' (Writing todo) got pi' n) as (s2 & d & HD); [by apply (session_write p 0 ws (calling pi f) s' 0 l)|done|by left|done|]. eauto.
    + destruct (deliver s' (Asleep (Z.of_nat (length l)) (drop (stored p (calling pi f) s') l) todo) got pi' n) as (s2 & d & HD);
        [by apply (session_write_sleep p 0 ws (calling pi f) s' 0 l)|done|by left|done|]. eexists s2, _, d. split; [exact HD|done].
  - destruct Hb as [Hl Hb]. destruct (resume_at p true 0 m rest (waking pi f) pi Hre Hpw) as (s0 & Hr0 & Hc0 & Hp0 & Hk0 & E0 & _).
    destruct (puts_some m rest pi s0 Hl Hr0 Hc0 Hp0 Hok Hq Hro Hm) as (s' & pi' & Hp' & Hq' & HW).
    rewrite <- E0 in HW. destruct HW as [E|[E Hrest]].
    + destruct (deliver s' (Writing todo) got pi' n) as (s2 & d & HD); [by apply (session_resume p 0 ws (waking pi f) s' 0 true m rest)|done|by left|done|]. eauto.
    + destruct (deliver s' (Asleep m (drop (stored p (waking pi f) s') rest) todo) got pi' n) as (s2 & d & HD);
        [by apply (session_resume_sleep p 0 ws (waking pi f) s' 0 true m rest)|done|by left|done|]. eexists s2, _, d. split; [exact HD|].
      split; [|done]. unfold stored in *. by rewrite Hk0 in Hrest.
  - destruct (deliver s Gone got pi n Hs Hp (or_intror Hwo) Hn) as (s' & l & HD). by exists s', Gone, l.
Qed.

(** Reads of the given sizes come to the end of the file. *)
Lemma serve_all k : forall s c got,
  session p 0 ws s c false got -> busy c -> (length (concat ws) - length (concat got) < k)%nat -> Forall (fun l => l <> []) got ->
  exists s' c' chunks, session p 0 ws s' c' false (chunks ++ [[]]) /\ Forall (fun l => l <> []) chunks.
Proof.
  induction k as [|k IH]; intros s c got Hs Hb Hk Hg; [lia|].
  destruct (serve s c got (size (length got)) Hs Hb (Hsize _)) as (s' & c' & l & Hs' & Hb').
  destruct l as [|b l]; [by exists s', c', got|]. apply (IH s' c' (got ++ [b :: l])); [done|done| |].
  - destruct (session_flows _ _ _ _ _ _ _ Hs') as (pi & f & _ & (_ & E & _) & _). rewrite concat_app in E |- *. apply (f_equal length) in E.
    revert E Hk. rewrite !length_app. simpl. lia.
  - apply Forall_app. split; [done|]. by constructor.
Qed.
End Run.

(** The reads of [pipe1] ask for 1, 2, 4, ... bytes, up to the size of its buffer. *)
Definition asked (k : nat) : Z := Z.min (2 ^ Z.of_nat k) BUF.

Lemma asked_pos k : 0 < asked k.
Proof. unfold asked. pose proof (Z.pow_pos_nonneg 2 (Z.of_nat k)). unfold BUF. lia. Qed.

(** The child's blocks. *)
Definition blocks (n : nat) : list (list Z) := (fun i => u8 <$> seqZ (1033 * Z.of_nat i) 1033) <$> seq 0 n.

Lemma child_writes : writes 4 (final (pipe1 [] (mkUst (child_answers 3 4) []))) = blocks 5.
Proof. vm_compute. reflexivity. Qed.

Lemma blocks_full n : Forall (fun l => l <> []) (blocks n).
Proof.
  apply list.Forall_fmap, Forall_true. intros i E. apply (f_equal length) in E. rewrite length_fmap, length_seqZ in E. discriminate E.
Qed.

(** The file of the write end, after the [fork]. *)
Definition write_file : file := mkFile FD_PIPE 2 false true 0x80200000 None 0.

#[local] Instance no_driver : BlockDriver := { iderw := fun _ => ret tt }.
#[local] Instance no_devices : Devices := { dev_read := fun _ => None; dev_write := fun _ => None }.

(** The parent closes its descriptor first. *)
Lemma session_begins : exists s, session 0x80200000 0 (blocks 5) s (Writing (blocks 5)) false [].
Proof.
  assert (session 0x80200000 0 (blocks 5) (calling 0x80200000 empty_pipe write_file) (Writing (blocks 5)) true []) as H0.
  { apply (session_start _ _ _ _ empty_pipe write_file); try reflexivity. exact empty_pipe_ok. }
  destruct (calling_ready 0x80200000 empty_pipe write_file) as (Hr & _).
  eexists. apply (session_close _ _ _ _ _ 0 _ _ H0 Hr). apply (fileclose_more 0 write_file); [apply Hr|reflexivity|reflexivity].
Qed.

Lemma pipe1_passes_witness :
  exists s c chunks b s2, session 0x80200000 0 (blocks 5) s c false (chunks ++ [[]]) /\
    pipe1 [] (mkUst (mkAnswer 0 [3; 4] :: mkAnswer 7 [] :: served (chunks ++ [[]]) ++ []) []) = Ok b s2 /\ output 1 s2 = strn "pipe1 ok".
Proof.
  destruct session_begins as [s0 H0].
  destruct (serve_all 0x80200000 (blocks 5) asked asked_pos _ s0 (Writing (blocks 5)) [] H0 (blocks_full 5)
    (Nat.lt_succ_diag_r _) (Forall_nil_2 _)) as (s & c & chunks & Hs & Hne).
  pose proof Hs as Hs'. rewrite <- child_writes in Hs'.
  destruct (pipe1_passes 0x80200000 0 s c false [] 3 4 7 chunks [] Hs' eq_refl Hne) as (b & s2 & Eb & Eo).
  exists s, c, chunks, b, s2. split; [exact Hs|]. split; [exact Eb|exact Eo].
Defined.
