(* ===== verification/Umalloc.v ===== *)
(** * [umalloc.c]: the memory allocator of user programs

    The heap is byte-addressed memory; a header is eight bytes, the link to the next free
    block and the size of the block in headers, its own included. The free blocks form a
    ring in the order of their addresses that starts at the static header [base]. What the
    kernel answers to [sbrk] is part of the state. *)

From S2P Require Import Prelude Params Mem.

Record heap := mkHeap {
  h_mem : mem;
  h_freep : Z;              (* freep, 0 before the first call *)
  h_brk : Z;                (* the end of the process *)
  h_grants : list bool      (* whether the kernel grants the coming calls of sbrk *)
}.

#[export] Instance set_h_mem : Setter h_mem := ltac:(setter heap h_mem).
#[export] Instance set_h_freep : Setter h_freep := ltac:(setter heap h_freep).
#[export] Instance set_h_brk : Setter h_brk := ltac:(setter heap h_brk).
#[export] Instance set_h_grants : Setter h_grants := ltac:(setter heap h_grants).

(** [sizeof(Header)] *)
Definition HDR : Z := 8.

(** [p->s.ptr] and [p->s.size] *)
Definition ptr_of (m : mem) (p : Z) : Z := load32 m p.
Definition size_of (m : mem) (p : Z) : Z := load32 m (p + 4).
Definition set_ptr (p v : Z) (m : mem) : mem := store32 m p v.
Definition set_size (p v : Z) (m : mem) : mem := store32 m (p + 4) v.

(** [p + n] on pointers to headers. *)
Definition hadd (p n : Z) : Z := u32 (p + HDR * n).

Definition H (A : Type) : Type := M heap A.

Definition on_mem (f : mem -> mem) : H unit := modify (fun s => s <| h_mem ::= f |>).

(** [sbrk]: the old end of the process, or -1. The kernel never lets a process grow past
    [KERNBASE]. *)
Definition sbrk (n : Z) : H Z := fun s =>
  match h_grants s with
  | [] => Ok (-1) s
  | g :: l =>
      if g && (h_brk s + n <? KERNBASE) then Ok (h_brk s) (s <| h_grants := l |> <| h_brk := u32 (h_brk s + n) |>)
      else Ok (-1) (s <| h_grants := l |>)
  end.

Section Base.
(** The address of the static header [base]. *)
Context (base : Z).

(** [for(p = freep; !(bp > p && bp < p->s.ptr); p = p->s.ptr)] with its early exit. *)
Fixpoint free_find (fuel : nat) (bp p : Z) : H Z :=
  m <- gets h_mem ;;
  let next := ptr_of m p in
  if (p <? bp) && (bp <? next) then ret p
  else if (next <=? p) && ((p <? bp) || (bp <? next)) then ret p
  else match fuel with
       | O => spin
       | S f => free_find f bp next
       end.

Definition free (fuel : nat) (ap : Z) : H unit :=
  let bp := ap - HDR in
  p <- gets h_freep ;;
  p <- free_find fuel bp p ;;
  m <- gets h_mem ;;
  let next := ptr_of m p in
  (if hadd bp (size_of m bp) =? next then
     on_mem (fun m => set_size bp (u32 (size_of m bp + size_of m next)) m) ;;
     on_mem (fun m => set_ptr bp (ptr_of m next) m)
   else on_mem (set_ptr bp next)) ;;
  m <- gets h_mem ;;
  (if hadd p (size_of m p) =? bp then
     on_mem (fun m => set_size p (u32 (size_of m p + size_of m bp)) m) ;;
     on_mem (fun m => set_ptr p (ptr_of m bp) m)
   else on_mem (set_ptr p bp)) ;;
  modify (fun s => s <| h_freep := p |>).

Definition morecore (fuel : nat) (nu : Z) : H Z :=
  let nu := if nu <? 4096 then 4096 else nu in
  p <- sbrk (s32 (nu * HDR)) ;;
  if p =? -1 then ret 0 else
  on_mem (set_size p nu) ;;
  free fuel (p + HDR) ;;
  gets h_freep.

(** The block [p] after [prevp] is large enough. *)
Definition take_block (nunits prevp p : Z) : H Z :=
  m <- gets h_mem ;;
  q <- (if size_of m p =? nunits then on_mem (set_ptr prevp (ptr_of m p)) ;; ret p
        else
          on_mem (set_size p (size_of m p - nunits)) ;;
          let q := hadd p (size_of m p - nunits) in
          on_mem (set_size q nunits) ;;
          ret q) ;;
  modify (fun s => s <| h_freep := prevp |>) ;;
  ret (q + HDR).

Fixpoint malloc_loop (fuel : nat) (nunits prevp p : Z) : H Z :=
  m <- gets h_mem ;;
  if nunits <=? size_of m p then take_block nunits prevp p else
  match fuel with
  | O => spin
  | S f =>
      freep <- gets h_freep ;;
      if p =? freep then
        p <- morecore f nunits ;;
        if p =? 0 then ret 0 else
        m <- gets h_mem ;;
        malloc_loop f nunits p (ptr_of m p)
      else malloc_loop f nunits p (ptr_of m p)
  end.

Definition units_for (nbytes : Z) : Z := u32 (nbytes + HDR - 1) / HDR + 1.

Definition malloc (fuel : nat) (nbytes : Z) : H Z :=
  let nunits := units_for nbytes in
  prevp <- gets h_freep ;;
  prevp <- (if prevp =? 0 then
              on_mem (set_ptr base base) ;;
              modify (fun s => s <| h_freep := base |>) ;;
              on_mem (set_size base 0) ;;
              ret base
            else ret prevp) ;;
  m <- gets h_mem ;;
  malloc_loop fuel nunits prevp (ptr_of m prevp).
End Base.
