(* ===== verification/UmallocSpec.v ===== *)
(** * The user allocator gives out disjoint blocks and loses none

    The free ring and the blocks in use tile the memory between the start of the heap and
    the end of the process at all times. [free] and [malloc] are shown to keep this, and
    the free blocks from touching each other; from this, every sequence of calls by a
    program that stays inside its blocks behaves as if each block were a memory of its
    own. *)

From S2P Require Import Prelude Params Mem Umalloc.

(** ** Headers in memory *)

Definition hapart (p q : Z) : Prop := p + HDR <= q \/ q + HDR <= p.

Lemma load32_store32_ne m p v q : p + 4 <= q \/ q + 4 <= p -> load32 (store32 m p v) q = load32 m q.
Proof. intros H. apply load32_agree. intros x Hx. apply store32_other. lia. Qed.

Section Headers.
Context (m : mem) (p q v : Z).

Lemma ptr_set_ptr : ptr_of (set_ptr p v m) p = u32 v.
Proof. apply load32_store32. Qed.

Lemma size_set_size : size_of (set_size p v m) p = u32 v.
Proof. apply load32_store32. Qed.

Lemma size_set_ptr_same : size_of (set_ptr p v m) p = size_of m p.
Proof. apply load32_store32_ne. lia. Qed.

Lemma ptr_set_size_same : ptr_of (set_size p v m) p = ptr_of m p.
Proof. apply load32_store32_ne. lia. Qed.

Lemma ptr_set_ptr_ne : hapart p q -> ptr_of (set_ptr p v m) q = ptr_of m q.
Proof. intros H. apply load32_store32_ne. unfold hapart, HDR in H. lia. Qed.

Lemma size_set_size_ne : hapart p q -> size_of (set_size p v m) q = size_of m q.
Proof. intros H. apply load32_store32_ne. unfold hapart, HDR in H. lia. Qed.

Lemma size_set_ptr_ne : hapart p q -> size_of (set_ptr p v m) q = size_of m q.
Proof. intros H. apply load32_store32_ne. unfold hapart, HDR in H. lia. Qed.

Lemma ptr_set_size_ne : hapart p q -> ptr_of (set_size p v m) q = ptr_of m q.
Proof. intros H. apply load32_store32_ne. unfold hapart, HDR in H. lia. Qed.

Lemma set_ptr_out x : x < p \/ p + HDR <= x -> set_ptr p v m x = m x.
Proof. intros H. apply store32_other. unfold HDR in H. lia. Qed.

Lemma set_size_out x : x < p \/ p + HDR <= x -> set_size p v m x = m x.
Proof. intros H. apply store32_other. unfold HDR in H. lia. Qed.
End Headers.

(** ** Blocks *)

(** A block: its address and its size in headers. *)
Abbreviation blk := (Z * Z)%type.

(** The addresses of the headers a block is made of. *)
Definition units_of (b : blk) : list Z := (fun i => b.1 + HDR * i) <$> seqZ 0 b.2.
Definition units (l : list blk) : list Z := concat (units_of <$> l).

(** The bytes of a block. *)
Definition within (b : blk) (x : Z) : Prop := b.1 <= x < b.1 + HDR * b.2.

Lemma elem_of_units_of b x : x ∈ units_of b <-> exists i, 0 <= i < b.2 /\ x = b.1 + HDR * i.
Proof. unfold units_of. rewrite list_elem_of_fmap. setoid_rewrite elem_of_seqZ. naive_solver lia. Qed.

Lemma units_cons b l : units (b :: l) = units_of b ++ units l.
Proof. done. Qed.

Lemma units_app l1 l2 : units (l1 ++ l2) = units l1 ++ units l2.
Proof. unfold units. by rewrite fmap_app, concat_app. Qed.

Lemma elem_of_units l x : x ∈ units l <-> exists b, b ∈ l /\ x ∈ units_of b.
Proof.
  induction l as [|b l IH]; [split; [by intros ?%not_elem_of_nil|by intros (? & ?%not_elem_of_nil & _)]|].
  rewrite units_cons, elem_of_app, IH. setoid_rewrite elem_of_cons. naive_solver.
Qed.

#[export] Instance units_perm : Proper ((≡ₚ) ==> (≡ₚ)) units.
Proof.
  intros l1 l2 E. induction E; rewrite ?units_cons; [done|by f_equiv| |by etrans].
  by rewrite !(assoc_L (++)), (comm (++) (units_of _)).
Qed.

(** A block in two parts. *)
Lemma units_split a n k : 0 <= k <= n -> units_of (a, n) = units_of (a, k) ++ units_of (a + HDR * k, n - k).
Proof.
  intros Hk. unfold units_of. cbn [fst snd]. replace n with (k + (n - k)) at 1 by lia.
  rewrite seqZ_app, fmap_app by lia. f_equal.
  replace (seqZ (0 + k) (n - k)) with (Z.add k <$> seqZ 0 (n - k)) by (rewrite fmap_add_seqZ; f_equal; lia).
  rewrite <- list_fmap_compose. apply list_fmap_ext. intros i x Hx. cbn. lia.
Qed.

Lemma NoDup_units_of b : NoDup (units_of b).
Proof. apply NoDup_fmap_2; [intros x y; unfold HDR; lia|apply NoDup_seqZ]. Qed.

(** [tiled start brk l]: the blocks [l] are disjoint and make up all of the memory from
    [start] to [brk]. *)
Definition tiled (start brk : Z) (l : list blk) : Prop :=
  start <= brk /\ (brk - start) mod HDR = 0 /\ Forall (fun b => 0 < b.2) l /\
  units l ≡ₚ units_of (start, (brk - start) / HDR).

#[export] Instance tiled_perm start brk : Proper ((≡ₚ) ==> iff) (tiled start brk).
Proof.
  intros l1 l2 E. unfold tiled. rewrite (units_perm _ _ E).
  split; intros (? & ? & Hf & ?); (split; [done|split; [done|split; [|done]]]); [by rewrite <- E|by rewrite E].
Qed.

Lemma tiled_reorder start brk l l' : tiled start brk l -> l ≡ₚ l' -> tiled start brk l'.
Proof. by intros H <-. Qed.

(** The blocks in another order. *)
Ltac retile H := refine (tiled_reorder _ _ _ _ H _); solve_Permutation.

Section Tiles.
Context (start brk : Z).

Lemma tiled_block l b :
  tiled start brk l -> b ∈ l -> start <= b.1 /\ (b.1 - start) mod HDR = 0 /\ 0 < b.2 /\ b.1 + HDR * b.2 <= brk.
Proof.
  intros (Hle & Hmod & Hpos & E) Hb. rewrite list.Forall_forall in Hpos. specialize (Hpos b Hb).
  assert (forall i, 0 <= i < b.2 -> exists j, 0 <= j < (brk - start) / HDR /\ b.1 + HDR * i = start + HDR * j) as Hin.
  { intros i Hi. apply elem_of_units_of with (b := (start, (brk - start) / HDR)). rewrite <- E. apply elem_of_units.
    exists b. split; [done|]. apply elem_of_units_of. eauto. }
  destruct (Hin 0) as (j & Hj & Ej); [lia|]. destruct (Hin (b.2 - 1)) as (j' & Hj' & Ej'); [lia|]. unfold HDR in *.
  Z.to_euclidean_division_equations. lia.
Qed.

(** Two blocks of a tiling do not meet. *)
Lemma tiled_apart l b b' :
  tiled start brk (b :: b' :: l) -> b.1 + HDR * b.2 <= b'.1 \/ b'.1 + HDR * b'.2 <= b.1.
Proof.
  intros Ht. destruct (tiled_block _ b Ht) as (H1 & H2 & H3 & H4); [by left|].
  destruct (tiled_block _ b' Ht) as (H1' & H2' & H3' & H4'); [by right; left|].
  destruct Ht as (_ & _ & _ & E). assert (NoDup (units_of b ++ units_of b' ++ units l)) as Hn.
  { rewrite <- !units_cons, E. apply NoDup_units_of. }
  apply list.NoDup_app in Hn as (_ & Hn & _). 
  assert (forall x, x ∈ units_of b -> x ∈ units_of b' -> False) as Hd.
  { intros x Hx Hx'. apply (Hn x Hx). apply elem_of_app. by left. }
  destruct (decide (b.1 + HDR * b.2 <= b'.1)) as [?|Hlt]; [by left|]. right.
  destruct (decide (b'.1 + HDR * b'.2 <= b.1)) as [?|Hlt']; [done|]. exfalso. unfold HDR in *.
  destruct (decide (b.1 <= b'.1)).
  - apply (Hd b'.1); apply elem_of_units_of; [exists ((b'.1 - b.1) / 8)|exists 0];
      unfold HDR; Z.to_euclidean_division_equations; lia.
  - apply (Hd b.1); apply elem_of_units_of; [exists 0|exists ((b.1 - b'.1) / 8)];
      unfold HDR; Z.to_euclidean_division_equations; lia.
Qed.

(** A block cut in two, and the other way round. *)
Lemma tiled_split a n k l : 0 < k < n -> tiled start brk ((a, n) :: l) <-> tiled start brk ((a, k) :: (a + HDR * k, n - k) :: l).
Proof.
  intros Hk. unfold tiled. rewrite !units_cons, (units_split a n k), <- (assoc_L (++)) by lia. rewrite !list.Forall_cons. simpl.
  split; intros (? & ? & ? & ?); (split; [done|]); (split; [done|]); (split; [|done]); naive_solver lia.
Qed.
End Tiles.

(** ** The ring *)

(** [seg m a l b]: from the header [a], the links lead through the blocks [l] to [b]. *)
Fixpoint seg (m : mem) (a : Z) (l : list blk) (b : Z) : Prop :=
  match l with
  | [] => a = b
  | (c, n) :: l' => a = c /\ size_of m c = n /\ seg m (ptr_of m c) l' b
  end.

(** Blocks in the order of their addresses, none of which touches the next; the first
    begins after [e]. *)
Fixpoint gapped (e : Z) (l : list blk) : Prop :=
  match l with
  | [] => True
  | (a, n) :: l' => e < a /\ 0 <= n /\ gapped (a + HDR * n) l'
  end.

(** Where the last block ends. *)
Definition fin (e : Z) (l : list blk) : Z := fold_left (fun _ b => b.1 + HDR * b.2) l e.

Lemma seg_app m a l1 l2 b : seg m a (l1 ++ l2) b <-> exists c, seg m a l1 c /\ seg m c l2 b.
Proof.
  revert a. induction l1 as [|[c n] l1 IH]; intros a; simpl; [naive_solver|]. rewrite IH. naive_solver.
Qed.

Lemma seg_frame m m' a l b :
  seg m a l b -> (forall c n, (c, n) ∈ l -> ptr_of m' c = ptr_of m c /\ size_of m' c = size_of m c) -> seg m' a l b.
Proof.
  revert a. induction l as [|[c n] l IH]; intros a; simpl; [done|]. intros (-> & Hn & Hs) Hf.
  destruct (Hf c n) as [Hp Hz]; [by left|]. rewrite Hp, Hz. split; [done|]. split; [done|]. apply IH; [done|].
  intros c' n' Hin. apply (Hf c' n'). by right.
Qed.

(** Where a segment leads to after its last block. *)
Definition head_of (l : list blk) (b : Z) : Z := match l with [] => b | (c, _) :: _ => c end.

Lemma seg_head m a l b : seg m a l b -> a = head_of l b.
Proof. destruct l as [|[c n] l]; simpl; naive_solver. Qed.

(** A block in the middle of a segment. *)
Lemma seg_at m a l1 p k l2 b :
  seg m a (l1 ++ (p, k) :: l2) b <-> seg m a l1 p /\ size_of m p = k /\ ptr_of m p = head_of l2 b /\ seg m (head_of l2 b) l2 b.
Proof.
  rewrite seg_app. simpl. split.
  - intros (c & H1 & <- & H2 & H3). pose proof (seg_head _ _ _ _ H3) as E. rewrite E in H3. done.
  - intros (H1 & H2 & H3 & H4). exists p. rewrite H3. done.
Qed.

Lemma gapped_app e l1 l2 : gapped e (l1 ++ l2) <-> gapped e l1 /\ gapped (fin e l1) l2.
Proof.
  revert e. induction l1 as [|[a n] l1 IH]; intros e; simpl; [naive_solver|]. rewrite IH. unfold fin. simpl. naive_solver.
Qed.

Lemma fin_app e l1 l2 : fin e (l1 ++ l2) = fin (fin e l1) l2.
Proof. unfold fin. by rewrite fold_left_app. Qed.

Lemma gapped_weaken e e' l : gapped e l -> e' <= e -> gapped e' l.
Proof. destruct l as [|[a n] l]; simpl; naive_solver lia. Qed.

Lemma gapped_fin e l : gapped e l -> e <= fin e l.
Proof.
  revert e. induction l as [|[a n] l IH]; intros e; simpl; [done|]. intros (Ha & Hn & Hl). specialize (IH _ Hl).
  unfold fin in *. simpl. unfold HDR in *. lia.
Qed.

Lemma gapped_elem e l b : gapped e l -> b ∈ l -> e < b.1 /\ 0 <= b.2 /\ b.1 + HDR * b.2 <= fin e l.
Proof.
  revert e. induction l as [|[a n] l IH]; intros e; simpl; [by intros _ ?%not_elem_of_nil|].
  intros (Ha & Hn & Hl) [->|Hb]%elem_of_cons.
  - cbn [fst snd]. pose proof (gapped_fin _ _ Hl). unfold fin in *. simpl. lia.
  - destruct (IH _ Hl Hb) as (H1 & H2 & H3). unfold fin, HDR in *. simpl. lia.
Qed.

Lemma gapped_NoDup e l : gapped e l -> NoDup l.*1.
Proof.
  revert e. induction l as [|[a n] l IH]; intros e; simpl; [intros _; apply NoDup_nil_2|]. intros (Ha & Hn & Hl).
  apply list.NoDup_cons. split; [|by eapply IH]. intros ((a' & n') & E & Hin)%list_elem_of_fmap. simpl in E. subst a'.
  destruct (gapped_elem _ _ _ Hl Hin) as (H1 & _). cbn in H1. unfold HDR in H1. lia.
Qed.

(** The place of an address in the ring. *)
Lemma gapped_place e l bp :
  gapped e l -> bp ∉ l.*1 ->
  exists l1 l2, l = l1 ++ l2 /\ Forall (fun b => b.1 < bp) l1 /\ Forall (fun b => bp < b.1) l2.
Proof.
  revert e. induction l as [|[a n] l IH]; intros e Hg Hbp; [exists [], []; done|]. destruct Hg as (Ha & Hn & Hg).
  apply not_elem_of_cons in Hbp as [Hne Hbp]. cbn in Hne.
  destruct (decide (a < bp)) as [Hlt|Hge].
  - destruct (IH _ Hg Hbp) as (l1 & l2 & -> & H1 & H2). exists ((a, n) :: l1), l2. split; [done|]. split; [by constructor|done].
  - exists [], ((a, n) :: l). split; [done|]. split; [constructor|]. constructor; [cbn; lia|].
    apply list.Forall_forall. intros b Hb. destruct (gapped_elem _ _ _ Hg Hb) as (H1 & _). unfold HDR in *. lia.
Qed.

(** ** The search of [free] *)

(** Below the block, the search goes on to the last block before it. *)
Lemma free_find_low s bp Y : forall a p k e f,
  seg (h_mem s) a Y p -> gapped e (Y ++ [(p, k)]) -> p < bp ->
  free_find (length Y + f) bp a s = free_find f bp p s.
Proof.
  induction Y as [|[c n] Y IH]; intros a p k e f; simpl; [by intros ->|].
  intros (-> & Hn & Hs) (Hc & Hn0 & Hg) Hp. mstep.
  assert (c < ptr_of (h_mem s) c < bp) as Hnext.
  { destruct Y as [|[c' n'] Y]; simpl in Hs, Hg; unfold HDR in *; [lia|]. destruct Hs as (-> & _ & _). destruct Hg as (Hg1 & Hg2 & Hg).
    destruct (gapped_elem _ _ (p, k) Hg) as (H1 & _); [apply elem_of_app; right; by left|]. simpl in H1. unfold HDR in *. lia. }
  replace ((c <? bp) && (bp <? ptr_of (h_mem s) c)) with false by (symmetry; apply andb_false_iff; right; lia).
  replace (ptr_of (h_mem s) c <=? c) with false by lia. simpl. by apply (IH _ p k (c + HDR * n)).
Qed.

(** Above the block, the search goes round to [base]. *)
Lemma free_find_high s bp base Y : forall a e f,
  seg (h_mem s) a Y base -> gapped e Y -> base < bp -> bp <= e ->
  free_find (length Y + f) bp a s = free_find f bp base s.
Proof.
  induction Y as [|[c n] Y IH]; intros a e f; simpl; [by intros ->|].
  intros (-> & Hn & Hs) (Hc & Hn0 & Hg) Hb He. mstep.
  replace (c <? bp) with false by lia. simpl.
  assert ((ptr_of (h_mem s) c <=? c) && (bp <? ptr_of (h_mem s) c) = false) as ->.
  { destruct Y as [|[c' n'] Y]; simpl in Hs, Hg; apply andb_false_iff.
    - right. lia.
    - left. destruct Hs as (-> & _ & _). unfold HDR in Hg. lia. }
  apply (IH _ (c + HDR * n)); (done || unfold HDR; lia).
Qed.

(** The block is put after the last one below it. *)
Lemma free_find_here s bp p l2 base f :
  ptr_of (h_mem s) p = head_of l2 base -> base <= p < bp -> Forall (fun b => bp < b.1) l2 ->
  free_find f bp p s = Ok p s.
Proof.
  intros Hp [Hb Hlt] Hl2. destruct f; simpl; mstep; rewrite Hp, (proj2 (Z.ltb_lt p bp) Hlt);
    (destruct l2 as [|[c n] l2]; simpl; [rewrite (proj2 (Z.ltb_ge bp base)), (proj2 (Z.leb_le base p)) by lia; done|]);
    apply Forall_cons_1 in Hl2 as [Hc _]; cbn in Hc; by rewrite (proj2 (Z.ltb_lt bp c) Hc).
Qed.

Lemma free_find_run s base bp freep l1 p k l2 fuel :
  seg (h_mem s) base (l1 ++ (p, k) :: l2) base -> gapped (base - 1) (l1 ++ (p, k) :: l2) ->
  p < bp -> Forall (fun b => bp < b.1) l2 ->
  freep ∈ (l1 ++ (p, k) :: l2).*1 -> (length (l1 ++ (p, k) :: l2) <= fuel)%nat ->
  free_find fuel bp freep s = Ok p s.
Proof.
  intros Hs Hg Hlt Hl2 Hf Hfuel. apply seg_at in Hs as (Hs1 & Hk & Hp & Hs2).
  assert (base <= p) as Hbp.
  { destruct (gapped_elem _ _ (p, k) Hg) as (H & _); [apply elem_of_app; right; by left|]. simpl in H. lia. }
  assert (forall f, free_find f bp p s = Ok p s) as Hhere by (intros f; by apply (free_find_here _ _ _ l2 base)).
  rewrite (cons_middle (p, k)), (assoc_L (++)) in Hg. apply gapped_app in Hg as [Hg1 Hg2].
  assert (forall f, (length l1 <= f)%nat -> free_find f bp base s = Ok p s) as Hlow.
  { intros f Hlf. replace f with (length l1 + (f - length l1))%nat by lia. rewrite (free_find_low _ _ _ _ p k (base - 1)); auto. }
  rewrite length_app in Hfuel. simpl in Hfuel.
  apply list_elem_of_fmap in Hf as ((c & n) & -> & Hin). simpl. apply elem_of_app in Hin as [Hin|[E|Hin]%elem_of_cons].
  - apply list_elem_of_split in Hin as (Y1 & Y2 & ->). apply seg_at in Hs1 as (_ & Hn & Hc & HY).
    rewrite <- (assoc_L (++)) in Hg1. apply gapped_app in Hg1 as [_ Hg1]. rewrite length_app in Hfuel. simpl in Hfuel.
    replace fuel with (length ((c, n) :: Y2) + (fuel - length ((c, n) :: Y2)))%nat by (simpl; lia).
    rewrite (free_find_low s bp ((c, n) :: Y2) c p k (fin (base - 1) Y1)); [done| |done|done].
    simpl. by rewrite Hc.
  - injection E as -> ->. apply Hhere.
  - apply list_elem_of_split in Hin as (Y1 & Y2 & ->). apply seg_at in Hs2 as (_ & Hn & Hc & HY).
    apply gapped_app in Hg2 as [HgY1 Hg2]. rewrite length_app in Hfuel. simpl in Hfuel.
    apply Forall_app in Hl2 as [_ [Hcb Hl2]%Forall_cons_1]. simpl in Hcb.
    replace fuel with (length ((c, n) :: Y2) + (fuel - length ((c, n) :: Y2)))%nat by (simpl; lia).
    rewrite (free_find_high s bp base ((c, n) :: Y2) c bp); [apply Hlow; simpl; lia| | |lia|lia].
    + simpl. by rewrite Hc.
    + simpl in Hg2 |- *. split; [lia|apply Hg2].
Qed.

(** ** Putting a block back *)

Definition join_right (bp next : Z) (m : mem) : mem :=
  if hadd bp (size_of m bp) =? next then
    let m' := set_size bp (u32 (size_of m bp + size_of m next)) m in set_ptr bp (ptr_of m' next) m'
  else set_ptr bp next m.

Definition join_left (p bp : Z) (m : mem) : mem :=
  if hadd p (size_of m p) =? bp then
    let m' := set_size p (u32 (size_of m p + size_of m bp)) m in set_ptr p (ptr_of m' bp) m'
  else set_ptr p bp m.

Lemma free_body fuel ap s p :
  free_find fuel (ap - HDR) (h_freep s) s = Ok p s ->
  free fuel ap s = Ok tt (s <| h_mem := join_left p (ap - HDR) (join_right (ap - HDR) (ptr_of (h_mem s) p) (h_mem s)) |> <| h_freep := p |>).
Proof.
  intros E. unfold free. mstep. rewrite (bind_ok _ _ _ _ _ E). mstep. unfold on_mem, join_right, join_left.
  destruct s as [m fp brk gr]. cbn in *. destruct (hadd (ap - HDR) _ =? _); mstep; cbn; destruct (hadd p _ =? _); reflexivity.
Qed.

(** The process grows. *)
Lemma tiled_grow start brk L nu : tiled start brk L -> 0 < nu -> tiled start (brk + HDR * nu) ((brk, nu) :: L).
Proof.
  intros (Hle & Hmod & Hpos & E) Hnu. unfold HDR in *.
  assert ((brk + 8 * nu - start) / 8 = (brk - start) / 8 + nu) as Ed by (clear E; Z.to_euclidean_division_equations; lia).
  assert (8 * ((brk - start) / 8) = brk - start) as Eq by (clear E Ed; Z.to_euclidean_division_equations; lia).
  split; [lia|]. split; [clear E Ed Eq; unfold HDR; Z.to_euclidean_division_equations; lia|]. split; [by constructor|].
  unfold HDR. rewrite units_cons, E, Ed, (units_split start (_ + nu) ((brk - start) / 8)) by lia.
  unfold HDR. replace (start + 8 * ((brk - start) / 8)) with brk by lia.
  replace ((brk - start) / 8 + nu - (brk - start) / 8) with nu by lia. apply Permutation_app_comm.
Qed.

Lemma sbrk_cases n s :
  exists gr, sbrk n s = Ok (-1) (s <| h_grants := gr |>) \/
    (sbrk n s = Ok (h_brk s) (s <| h_grants := gr |> <| h_brk := u32 (h_brk s + n) |>) /\ h_brk s + n < KERNBASE).
Proof.
  unfold sbrk. destruct s as [m fp brk [|g gr]]; cbn; [exists []; by left|]. exists gr.
  destruct (g && (brk + n <? KERNBASE)) eqn:E; [breflect; by right|by left].
Qed.

Section Spec.
Context (base start : Z) (base_pos : 0 < base) (base_low : base + HDR <= start).

Lemma hadd_small p n : 0 <= p -> 0 <= n -> p + HDR * n < 2 ^ 31 -> hadd p n = p + HDR * n.
Proof. intros ???. unfold hadd. apply u32_small. unfold is_u32, HDR in *. lia. Qed.

(** The headers of two blocks of the heap, or of [base] and one, do not overlap. *)
Lemma tile_hapart brk l b b' : tiled start brk (b :: b' :: l) -> hapart b.1 b'.1.
Proof.
  intros Ht. pose proof (tiled_apart _ _ _ _ _ Ht). destruct (tiled_block _ _ _ b Ht) as (_ & _ & H1 & _); [by left|].
  destruct (tiled_block _ _ _ b' Ht) as (_ & _ & H2 & _); [by right; left|]. unfold hapart, HDR in *. lia.
Qed.

Lemma base_hapart brk l b : tiled start brk l -> b ∈ l -> hapart base b.1.
Proof. intros Ht Hb. destruct (tiled_block _ _ _ b Ht Hb) as (H1 & _). unfold hapart. lia. Qed.

Lemma hapart_sym a b : hapart a b -> hapart b a.
Proof. unfold hapart. tauto. Qed.

Lemma headers_apart brk L a b : tiled start brk L -> a ∈ base :: L.*1 -> b ∈ base :: L.*1 -> a <> b -> hapart a b.
Proof.
  intros Ht [->|(x & -> & Hx)%list_elem_of_fmap]%elem_of_cons [->|(y & -> & Hy)%list_elem_of_fmap]%elem_of_cons Hne; [done| | |].
  - by apply (base_hapart brk L).
  - by apply hapart_sym, (base_hapart brk L).
  - apply elem_of_Permutation in Hx as [l' El]. rewrite El in Ht, Hy. apply elem_of_cons in Hy as [->|Hy]; [done|].
    apply elem_of_Permutation in Hy as [l'' El']. rewrite El' in Ht. by apply (tile_hapart brk l'').
Qed.

(** Headers apart from every block of a segment do not matter to it. *)
Lemma seg_outside m m' p a l b :
  seg m a l b -> (forall x, x < p \/ p + HDR <= x -> m' x = m x) -> (forall c n, (c, n) ∈ l -> hapart p c) -> seg m' a l b.
Proof.
  intros Hs Hm Hl. apply (seg_frame m); [done|]. intros c n Hin. specialize (Hl c n Hin). unfold hapart, HDR in *.
  split; apply load32_agree; intros x Hx; apply Hm; lia.
Qed.

Lemma join_right_out bp next m x : x < bp \/ bp + HDR <= x -> join_right bp next m x = m x.
Proof.
  intros Hx. unfold join_right. destruct (_ =? _); [|by apply set_ptr_out]. cbv zeta. by rewrite set_ptr_out, set_size_out.
Qed.

Lemma join_left_out p bp m x : x < p \/ p + HDR <= x -> join_left p bp m x = m x.
Proof.
  intros Hx. unfold join_left. destruct (_ =? _); [|by apply set_ptr_out]. cbv zeta. by rewrite set_ptr_out, set_size_out.
Qed.

Lemma tile_small brk l b : tiled start brk l -> brk < 2 ^ 31 -> b ∈ l -> u32 b.1 = b.1 /\ hadd b.1 b.2 = b.1 + HDR * b.2 /\ u32 b.2 = b.2.
Proof.
  intros Ht Hb Hin. destruct (tiled_block _ _ _ b Ht Hin) as (H1 & _ & H2 & H3). unfold HDR in *.
  rewrite hadd_small by (unfold HDR; lia). rewrite !u32_small by (unfold is_u32; lia). done.
Qed.

Lemma join_right_ok m bp n x2 brk R :
  size_of m bp = n -> seg m (head_of x2 base) x2 base -> gapped bp x2 ->
  tiled start brk ((bp, n) :: x2 ++ R) -> brk < 2 ^ 31 ->
  exists n' x2', seg (join_right bp (head_of x2 base) m) bp ((bp, n') :: x2') base /\
    tiled start brk ((bp, n') :: x2' ++ R) /\ (forall e, e < bp -> gapped e ((bp, n') :: x2')) /\
    (length x2' <= length x2)%nat /\ n <= n'.
Proof.
  intros Hn Hs Hg Ht Hbrk. destruct (tiled_block _ _ _ (bp, n) Ht) as (B1 & B2 & B3 & B4); [by left|]. cbn [fst snd] in *.
  destruct (tile_small _ _ (bp, n) Ht Hbrk) as (_ & Eh & _); [by left|]. cbn [fst snd] in Eh.
  assert (forall c j l', x2 ≡ₚ (c, j) :: l' -> hapart bp c) as Hap.
  { intros c j l' E. apply (tile_hapart brk (l' ++ R) (bp, n) (c, j)). by rewrite E in Ht. }
  assert (forall a l b, seg m a l b -> (forall c i, (c, i) ∈ l -> hapart bp c) -> seg (join_right bp (head_of x2 base) m) a l b) as Hkeep.
  { intros a l b Hl Hc. apply (seg_outside m _ bp); [done|apply join_right_out|done]. }
  assert (u32 (head_of x2 base) = head_of x2 base) as Ehd.
  { destruct x2 as [|[c i] x2]; simpl; [apply u32_small; unfold is_u32, HDR in *; lia|].
    apply (tile_small _ _ (c, i) Ht Hbrk). right. by left. }
  unfold join_right in Hkeep |- *. rewrite Hn, Eh in Hkeep |- *.
  destruct (Z.eqb_spec (bp + HDR * n) (head_of x2 base)) as [E|Hne].
  - destruct x2 as [|[q j] x2]; simpl in E; [unfold HDR in *; lia|]. subst q.
    simpl in Hs, Hg, Hkeep |- *. destruct Hs as (_ & Hj & Hs), Hg as (G1 & G2 & Hg).
    pose proof (Hap _ _ _ (reflexivity _)) as Hq.
    assert (tiled start brk ((bp, n + j) :: x2 ++ R)) as Ht'.
    { apply (tiled_split _ _ bp (n + j) n); [|by replace (n + j - n) with j by lia].
      destruct (tiled_block _ _ _ (bp + HDR * n, j) Ht) as (_ & _ & Hjp & _); [by right; left|]. simpl in Hjp. lia. }
    destruct (tile_small _ _ (bp, n + j) Ht' Hbrk) as (_ & _ & Enj); [by left|]. cbn in Enj.
    pose proof (seg_head _ _ _ _ Hs) as Eh2. rewrite Hj, Enj in Hkeep |- *. rewrite (ptr_set_size_ne _ _ _ _ Hq) in Hkeep |- *.
    exists (n + j), x2. split; [|split; [done|split; [|split; lia]]].
    + rewrite ptr_set_ptr, size_set_ptr_same, size_set_size, Enj. split; [done|]. split; [done|].
      assert (u32 (ptr_of m (bp + HDR * n)) = ptr_of m (bp + HDR * n)) as ->.
      { rewrite Eh2. destruct x2 as [|[c i] x2]; simpl; [apply u32_small; unfold is_u32, HDR in *; lia|].
        apply (tile_small _ _ (c, i) Ht Hbrk). right. right. by left. }
      apply Hkeep; [done|]. intros c i Hin. apply elem_of_Permutation in Hin as [l' El].
      apply (Hap c i ((bp + HDR * n, j) :: l')). rewrite El. constructor.
    + intros e He. split; [done|]. split; [lia|]. replace (bp + HDR * (n + j)) with (bp + HDR * n + HDR * j); [done|unfold HDR; lia].
  - exists n, x2. split; [|split; [done|split; [|split; lia]]].
    + simpl. rewrite ptr_set_ptr, size_set_ptr_same, Ehd. split; [done|]. split; [done|]. apply Hkeep; [done|].
      intros c i Hin. apply elem_of_Permutation in Hin as [l' El]. by apply (Hap c i l').
    + intros e He. simpl. split; [done|]. split; [lia|]. destruct x2 as [|[c i] x2]; [done|]. simpl in *.
      split; [|apply Hg]. pose proof (tiled_apart _ _ _ _ _ Ht) as Ha. cbn in Ha. unfold HDR in *.
      destruct (tiled_block _ _ _ (c, i) Ht) as (_ & _ & Hi & _); [by right; left|]. simpl in Hi. lia.
Qed.

(** The block goes right after [base]. *)
Lemma join_left_base m bp n x2 brk R :
  size_of m base = 0 -> seg m bp ((bp, n) :: x2) base -> (forall e, e < bp -> gapped e ((bp, n) :: x2)) ->
  tiled start brk ((bp, n) :: x2 ++ R) -> brk < 2 ^ 31 ->
  seg (join_left base bp m) base ((base, 0) :: (bp, n) :: x2) base /\ gapped base ((bp, n) :: x2).
Proof.
  intros Hz Hs Hg Ht Hbrk. destruct (tiled_block _ _ _ (bp, n) Ht) as (B1 & _ & B3 & B4); [by left|]. cbn [fst snd] in *.
  split; [|apply Hg; unfold HDR in *; lia].
  assert (seg (join_left base bp m) bp ((bp, n) :: x2) base) as Hs'.
  { apply (seg_outside m _ base); [done|apply join_left_out|]. intros c i Hin.
    apply (base_hapart brk ((bp, n) :: x2 ++ R) (c, i) Ht). rewrite app_comm_cons, elem_of_app. by left. }
  unfold join_left in *. rewrite Hz in Hs' |- *. rewrite hadd_small in Hs' |- * by (unfold HDR in *; lia).
  rewrite (proj2 (Z.eqb_neq _ bp)) in Hs' |- * by (unfold HDR in *; lia).
  change (base = base /\ size_of (set_ptr base bp m) base = 0 /\ seg (set_ptr base bp m) (ptr_of (set_ptr base bp m) base) ((bp, n) :: x2) base).
  rewrite size_set_ptr_same, ptr_set_ptr, u32_small by (unfold is_u32, HDR in *; lia). done.
Qed.

(** The block goes after another one, or becomes part of it. *)
Lemma join_left_block m l1 p k bp n x2 brk R :
  seg m base ((base, 0) :: l1) p -> size_of m p = k -> seg m bp ((bp, n) :: x2) base ->
  gapped base (l1 ++ [(p, k)]) -> (forall e, e < bp -> gapped e ((bp, n) :: x2)) -> p < bp ->
  tiled start brk ((p, k) :: (bp, n) :: (l1 ++ x2) ++ R) -> brk < 2 ^ 31 ->
  exists y, seg (join_left p bp m) base ((base, 0) :: l1 ++ (p, y.1) :: y.2) base /\ gapped base (l1 ++ (p, y.1) :: y.2) /\
    tiled start brk ((l1 ++ (p, y.1) :: y.2) ++ R) /\ (length y.2 <= S (length x2))%nat /\ exists b, b ∈ (p, y.1) :: y.2 /\ n <= b.2.
Proof.
  intros Hs1 Hk Hs2 Hg1 Hg2 Hlt Ht Hbrk. destruct (tiled_block _ _ _ (p, k) Ht) as (B1 & _ & B3 & B4); [by left|].
  destruct (tiled_block _ _ _ (bp, n) Ht) as (C1 & _ & C3 & C4); [by right; left|]. cbn [fst snd] in *.
  assert (p + HDR * k <= bp) as Hend. { pose proof (tiled_apart _ _ _ _ _ Ht) as Ha. cbn in Ha. unfold HDR in *. lia. }
  assert (forall c j, (c, j) ∈ (bp, n) :: l1 ++ x2 -> hapart p c) as Hap.
  { intros c j [l' El]%elem_of_Permutation. apply (tile_hapart brk (l' ++ R) (p, k) (c, j)).
    rewrite (app_comm_cons (l1 ++ x2)), El in Ht. done. }
  assert (hapart p base) as Hb by (unfold hapart, HDR in *; lia).
  assert (forall a l b, seg m a l b -> (forall c j, (c, j) ∈ l -> hapart p c) -> seg (join_left p bp m) a l b) as Hkeep.
  { intros a l b Hl Hc. apply (seg_outside m _ p); [done|apply join_left_out|done]. }
  assert (seg (join_left p bp m) base ((base, 0) :: l1) p) as Hs1'.
  { apply Hkeep; [done|]. intros c j [E|Hin]%elem_of_cons; [by injection E as -> ->|].
    apply (Hap c j). right. apply elem_of_app. by left. }
  apply gapped_app in Hg1 as [Hg1 (Hp & Hk0 & _)].
  unfold join_left in *. rewrite Hk in Hkeep, Hs1' |- *. rewrite hadd_small in Hkeep, Hs1' |- * by (unfold HDR in *; lia).
  destruct (Z.eqb_spec (p + HDR * k) bp) as [<-|Hne].
  - destruct Hs2 as (_ & Hn & Hs2).
    assert (tiled start brk ((p, k + n) :: (l1 ++ x2) ++ R)) as Ht'.
    { apply (tiled_split _ _ p (k + n) k); [lia|by replace (k + n - k) with n by lia]. }
    exists (k + n, x2). cbn [fst snd].
    destruct (tile_small _ _ (p, k + n) Ht' Hbrk) as (_ & _ & Ekn); [by left|]. cbn in Ekn.
    rewrite Hn, Ekn in Hkeep, Hs1' |- *. rewrite ptr_set_size_ne in Hkeep, Hs1' |- * by (apply (Hap _ n); by left).
    split; [|split; [|split; [|split; [lia|exists (p, k + n); split; [by left|cbn; lia]]]]].
    + rewrite app_comm_cons. apply seg_app. exists p. split; [exact Hs1'|]. simpl.
      rewrite size_set_ptr_same, ptr_set_ptr, size_set_size, Ekn. split; [done|]. split; [done|].
      assert (u32 (ptr_of m (p + HDR * k)) = ptr_of m (p + HDR * k)) as ->.
      { rewrite (seg_head _ _ _ _ Hs2). destruct x2 as [|[c j] x2]; simpl; [apply u32_small; unfold is_u32, HDR in *; lia|].
        apply (tile_small _ _ (c, j) Ht Hbrk). right. right. apply elem_of_app. left. apply elem_of_app. right. by left. }
      apply Hkeep; [done|]. intros c j Hin. apply (Hap c j). right. apply elem_of_app. by right.
    + apply gapped_app. split; [done|]. simpl. split; [done|]. split; [lia|].
      destruct (Hg2 (p + HDR * k - 1) ltac:(lia)) as (_ & _ & Hg). replace (p + HDR * (k + n)) with (p + HDR * k + HDR * n) by (unfold HDR; lia). done.
    + retile Ht'.
  - exists (k, (bp, n) :: x2). cbn [fst snd]. split; [|split; [|split; [|split; [simpl; lia|exists (bp, n); split; [right; by left|cbn; lia]]]]].
    + rewrite app_comm_cons. apply seg_app. exists p. split; [exact Hs1'|].
      change (p = p /\ size_of (set_ptr p bp m) p = k /\ seg (set_ptr p bp m) (ptr_of (set_ptr p bp m) p) ((bp, n) :: x2) base).
      rewrite size_set_ptr_same, ptr_set_ptr, u32_small by (unfold is_u32, HDR in *; lia). split; [done|]. split; [done|].
      apply Hkeep; [done|]. intros c j Hin. apply (Hap c j). apply elem_of_cons in Hin as [->|Hin]; [by left|].
      right. apply elem_of_app. by right.
    + apply gapped_app. split; [done|]. split; [done|]. split; [lia|]. apply Hg2. lia.
    + retile Ht.
Qed.

(** The ring after both joins, for the block [bp] put between [p] and what follows it. *)
Lemma joins_ok m l A bp n x1 p k x2 brk :
  seg m base ((base, 0) :: l) base -> gapped base l -> (base, 0) :: l = x1 ++ (p, k) :: x2 -> size_of m bp = n ->
  tiled start brk ((bp, n) :: l ++ A) -> brk < 2 ^ 31 -> p < bp -> Forall (fun b => bp < b.1) x2 ->
  exists l', seg (join_left p bp (join_right bp (ptr_of m p) m)) base ((base, 0) :: l') base /\ gapped base l' /\
    p ∈ base :: l'.*1 /\ tiled start brk (l' ++ A) /\ (length l' <= S (length l))%nat /\ exists b, b ∈ l' /\ n <= b.2.
Proof.
  intros Hring Hgap Ex Hn Ht Hbrk Hp Hx2.
  pose proof Hring as Hat. rewrite Ex in Hat. apply seg_at in Hat as (Hs1 & Hk & Hpn & Hs2). rewrite Hpn.
  assert (gapped (base - 1) ((base, 0) :: l)) as Hg by (simpl; split; [lia|split; [lia|by rewrite Z.add_0_r]]).
  rewrite Ex, (cons_middle (p, k)), (assoc_L (++)) in Hg. apply gapped_app in Hg as [Hg1 Hg2].
  assert (gapped bp x2) as Hgx2.
  { destruct x2 as [|[c j] x2]; [done|]. apply Forall_cons_1 in Hx2 as [Hc _]. simpl in Hc, Hg2 |- *. split; [done|apply Hg2]. }
  pose proof (join_right_out bp (head_of x2 base) m) as Hout.
  destruct x1 as [|[b0 z0] l1]; simpl in Ex.
  - injection Ex as <- <- <-. destruct (join_right_ok m bp n l brk A Hn Hs2 Hgx2 Ht Hbrk) as (n' & x2' & Hs' & Ht' & Hg' & Hlen & Hn').
    destruct (join_left_base (join_right bp (head_of l base) m) bp n' x2' brk A) as [Hr Hga]; [|done|done|done|done|].
    + rewrite <- Hk. apply load32_agree. intros x Hx. apply Hout. left. unfold HDR in *.
      destruct (tiled_block _ _ _ (bp, n) Ht) as (B1 & _); [by left|]. cbn in B1. lia.
    + exists ((bp, n') :: x2'). split; [exact Hr|]. split; [done|]. split; [by left|]. split; [done|]. split; [simpl; lia|].
      exists (bp, n'). split; [by left|done].
  - injection Ex as <- <- ->.
    assert (tiled start brk ((bp, n) :: x2 ++ (p, k) :: l1 ++ A)) as Ht1.
    { retile Ht. }
    destruct (join_right_ok m bp n x2 brk ((p, k) :: l1 ++ A) Hn Hs2 Hgx2 Ht1 Hbrk) as (n' & x2' & Hs' & Ht' & Hg' & Hlen & Hn').
    assert (forall c, hapart bp c -> size_of (join_right bp (head_of x2 base) m) c = size_of m c /\
      ptr_of (join_right bp (head_of x2 base) m) c = ptr_of m c) as Hsame.
    { intros c Hc. unfold hapart, HDR in Hc. split; apply load32_agree; intros x Hx; apply Hout; unfold HDR; lia. }
    assert (hapart bp p) as Hbp.
    { apply (tile_hapart brk (x2 ++ l1 ++ A) (bp, n) (p, k)). retile Ht. }
    destruct (join_left_block (join_right bp (head_of x2 base) m) l1 p k bp n' x2' brk A) as (y & Hr & Hga & Hty & Hly & b & Hb & Hnb); try done.
    + apply (seg_outside m _ bp); [exact Hs1|done|]. intros c j [E|Hin]%elem_of_cons.
      * injection E as -> ->. destruct (base_hapart brk ((bp, n) :: (l1 ++ (p, k) :: x2) ++ A) (bp, n) Ht) as [?|?]; [by left| |]; unfold hapart; auto.
      * apply elem_of_Permutation in Hin as [l' El]. apply (tile_hapart brk (x2 ++ (p, k) :: l' ++ A) (bp, n) (c, j)).
        rewrite El in Ht1. retile Ht1.
    + by rewrite (proj1 (Hsame p Hbp)).
    + destruct Hg1 as (_ & _ & Hg1). simpl in Hg1. by rewrite Z.add_0_r in Hg1.
    + retile Ht'.
    + exists (l1 ++ (p, y.1) :: y.2). split; [exact Hr|]. split; [done|]. split; [|split; [done|]].
      * right. rewrite fmap_app. apply elem_of_app. right. by left.
      * rewrite !length_app. simpl. split; [lia|]. exists b. split; [apply elem_of_app; by right|lia].
Qed.

(** The state of the allocator with the free blocks [l] and the blocks [A] in use. *)
Record heap_ok (s : heap) (l A : list blk) : Prop := {
  ok_ring : seg (h_mem s) base ((base, 0) :: l) base;
  ok_gaps : gapped base l;
  ok_freep : h_freep s ∈ base :: l.*1;
  ok_tiled : tiled start (h_brk s) (l ++ A);
  ok_brk : h_brk s < 2 ^ 31;
  ok_sizes : Forall (fun b => size_of (h_mem s) b.1 = b.2) A
}.

(** Nothing but the break, the grants and memory outside the blocks [A] differs. *)
Definition untouched (A : list blk) (s s' : heap) : Prop := forall b x, b ∈ A -> within b x -> h_mem s' x = h_mem s x.

Lemma untouched_trans A s1 s2 s3 : untouched A s1 s2 -> untouched A s2 s3 -> untouched A s1 s3.
Proof. intros H1 H2 b x Hb Hx. by rewrite (H2 b x), (H1 b x). Qed.

Lemma size_untouched A s s' b : untouched A s s' -> b ∈ A -> 0 < b.2 -> size_of (h_mem s') b.1 = size_of (h_mem s) b.1.
Proof. intros H Hb Hp. apply load32_agree. intros x Hx. apply (H b x Hb). unfold within, HDR. lia. Qed.

(** A header outside the blocks in use may change. *)
Lemma header_outside brk l A p x b :
  tiled start brk (l ++ A) -> p ∈ base :: l.*1 -> b ∈ A -> within b x -> x < p \/ p + HDR <= x.
Proof.
  intros Ht Hp Hb Hx. apply elem_of_cons in Hp as [->|((a & n) & -> & Hin)%list_elem_of_fmap].
  - destruct (tiled_block _ _ _ b Ht) as (H1 & _); [apply elem_of_app; by right|]. unfold within in Hx. lia.
  - apply elem_of_Permutation in Hin as [l' El], Hb as [A' EA]. rewrite El, EA, <- app_comm_cons, <- Permutation_middle in Ht.
    pose proof (tiled_apart _ _ _ _ _ Ht) as Ha. destruct (tiled_block _ _ _ (a, n) Ht) as (_ & _ & H1 & _); [by left|].
    unfold within, HDR in *. cbn in *. lia.
Qed.

Lemma free_spec s l A bp n fuel :
  heap_ok s l ((bp, n) :: A) -> (length l < fuel)%nat ->
  exists s' l', free fuel (bp + HDR) s = Ok tt s' /\ heap_ok s' l' A /\ untouched A s s' /\
    h_brk s' = h_brk s /\ h_grants s' = h_grants s /\ (length l' <= S (length l))%nat /\ exists b, b ∈ l' /\ n <= b.2.
Proof.
  intros [Hring Hgap Hfp Ht Hbrk Hsz] Hfuel. apply Forall_cons_1 in Hsz as [Hn Hsz]. cbn in Hn.
  assert (tiled start (h_brk s) ((bp, n) :: l ++ A)) as Ht1 by by rewrite Permutation_middle.
  destruct (tiled_block _ _ _ (bp, n) Ht1) as (B1 & _ & B3 & B4); [by left|]. cbn [fst snd] in *.
  assert (bp ∉ ((base, 0) :: l).*1) as Hnot.
  { intros [E|((c & j) & E & Hin)%list_elem_of_fmap]%elem_of_cons; cbn in E; [unfold HDR in *; lia|]. subst c.
    apply elem_of_Permutation in Hin as [l' El]. rewrite El in Ht1. pose proof (tile_hapart _ _ _ _ Ht1) as Ha.
    unfold hapart, HDR in Ha. cbn in Ha. lia. }
  assert (gapped (base - 1) ((base, 0) :: l)) as Hg by (simpl; split; [lia|split; [lia|by rewrite Z.add_0_r]]).
  destruct (gapped_place _ _ bp Hg Hnot) as (x1 & x2 & Ex & Hx1 & Hx2).
  destruct x1 as [|[p k] x1 _] using rev_ind.
  { exfalso. simpl in Ex. subst x2. apply Forall_cons_1 in Hx2 as [Hb _]. cbn in Hb. unfold HDR in *. lia. }
  rewrite <- (assoc_L (++)) in Ex. simpl in Ex. apply Forall_app in Hx1 as [_ [Hp _]%Forall_cons_1]. cbn in Hp.
  assert (free_find fuel bp (h_freep s) s = Ok p s) as Efind.
  { rewrite Ex in Hring, Hg. apply (free_find_run s base bp _ x1 p k x2); [done|done|done|done| |].
    - by rewrite <- Ex.
    - rewrite <- Ex. simpl. lia. }
  assert (p ∈ base :: l.*1) as Hpin.
  { change (p ∈ ((base, 0) :: l).*1). rewrite Ex, fmap_app. apply elem_of_app. right. by left. }
  set (m1 := join_right bp (ptr_of (h_mem s) p) (h_mem s)).
  set (s' := s <| h_mem := join_left p bp m1 |> <| h_freep := p |>).
  assert (free fuel (bp + HDR) s = Ok tt s') as Erun.
  { rewrite (free_body fuel (bp + HDR) s p); replace (bp + HDR - HDR) with bp by lia; done. }
  assert (untouched A s s') as Hun.
  { intros b x Hb Hx. cbn. rewrite join_left_out; [|by apply (header_outside (h_brk s) l ((bp, n) :: A) p x b); [| |right|]].
    unfold m1. rewrite join_right_out; [done|]. apply (header_outside (h_brk s) ((bp, n) :: l) A bp x b); [done| |done|done].
    right. by left. }
  destruct (joins_ok (h_mem s) l A bp n x1 p k x2 (h_brk s) Hring Hgap Ex Hn Ht1 Hbrk Hp Hx2) as (l' & Hr' & Hg' & Hp' & Ht' & Hl').
  exists s', l'. split; [done|]. split; [|done]. constructor; try done.
  apply list.Forall_forall. intros b Hb. rewrite (size_untouched A s s' b Hun Hb); [by apply (proj1 (list.Forall_forall _ _) Hsz)|].
  apply (tiled_block _ _ _ b Ht'). apply elem_of_app. by right.
Qed.

(** ** Taking a block *)

Lemma split_unique (l1 l1' l2 l2' : list blk) a n n' :
  NoDup (l1 ++ (a, n) :: l2).*1 -> l1 ++ (a, n) :: l2 = l1' ++ (a, n') :: l2' -> l1 = l1' /\ l2 = l2' /\ n = n'.
Proof.
  revert l1'. induction l1 as [|b l1 IH]; intros [|b' l1'] Hn E; simplify_eq/=; [done| | |].
  - apply list.NoDup_cons in Hn as [Hn _]. exfalso. apply Hn. rewrite fmap_app. apply elem_of_app. right. by left.
  - apply list.NoDup_cons in Hn as [Hn _]. exfalso. apply Hn. rewrite fmap_app. apply elem_of_app. right. by left.
  - apply list.NoDup_cons in Hn as [_ Hn]. destruct (IH l1' Hn) as (-> & -> & ->); done.
Qed.

(** The block whose link leads to another one is the one before it. *)
Lemma ring_pred m l1 q j l2 pr :
  seg m base ((base, 0) :: l1 ++ (q, j) :: l2) base -> gapped base (l1 ++ (q, j) :: l2) ->
  pr ∈ base :: (l1 ++ (q, j) :: l2).*1 -> ptr_of m pr = q ->
  exists z k, (base, 0) :: l1 = z ++ [(pr, k)].
Proof.
  intros Hs Hg Hpr Hq. change (base :: (l1 ++ (q, j) :: l2).*1) with ((base, 0) :: l1 ++ (q, j) :: l2).*1 in Hpr.
  assert (NoDup ((base, 0) :: l1 ++ (q, j) :: l2).*1) as Hnd.
  { apply (gapped_NoDup (base - 1)). simpl. split; [lia|]. split; [lia|]. by rewrite Z.add_0_r. }
  apply list_elem_of_fmap in Hpr as ((pr' & k) & Epr & Hin). cbn in Epr. subst pr'.
  apply list_elem_of_split in Hin as (W1 & W2 & EW). rewrite EW in Hs. apply seg_at in Hs as (_ & _ & Hp & _).
  rewrite Hq in Hp. destruct W2 as [|[q' j'] W2]; simpl in Hp.
  - exfalso. subst q. pose proof (gapped_elem _ _ (base, j) Hg) as Hlt; destruct Hlt as (Hlt & _); [apply elem_of_app; right; by left|]. cbn in Hlt. lia.
  - subst q'. exists W1, k. rewrite (cons_middle (pr, k)), (assoc_L (++)), app_comm_cons in EW.
    by destruct (split_unique ((base, 0) :: l1) _ _ _ _ _ _ Hnd EW) as (-> & _ & _).
Qed.

Lemma ring_headers (l A : list blk) a : a ∈ base :: l.*1 -> a ∈ base :: (l ++ A).*1.
Proof. rewrite !elem_of_cons, fmap_app, elem_of_app. tauto. Qed.

(** The whole block is given out. *)
Lemma take_whole s l A pr q n :
  heap_ok s l A -> (q, n) ∈ l -> pr ∈ base :: l.*1 -> ptr_of (h_mem s) pr = q ->
  let s' := s <| h_mem ::= set_ptr pr (ptr_of (h_mem s) q) |> <| h_freep := pr |> in
  exists l', heap_ok s' l' ((q, n) :: A) /\ untouched A s s' /\ (length l' <= length l)%nat.
Proof.
  intros [Hring Hgap Hfp Ht Hbrk Hsz] Hin Hpr Hq s'. apply list_elem_of_split in Hin as (l1 & l2 & ->).
  destruct (ring_pred _ _ _ _ _ _ Hring Hgap Hpr Hq) as (z & k & Ez).
  pose proof Hring as Hr2. rewrite app_comm_cons, Ez, <- (assoc_L (++)) in Hr2. cbn [app] in Hr2.
  apply seg_at in Hr2 as (Hs1 & Hk & Hpq & Hs2). cbn [head_of] in Hs2. destruct Hs2 as (_ & Hn & Hs2).
  assert (untouched A s s') as Hun.
  { intros b x Hb Hx. cbn. apply set_ptr_out. by apply (header_outside (h_brk s) (l1 ++ (q, n) :: l2) A pr x b). }
  assert (gapped (base - 1) (z ++ (pr, k) :: (q, n) :: l2)) as Hg.
  { change (z ++ (pr, k) :: (q, n) :: l2) with (z ++ [(pr, k)] ++ (q, n) :: l2). rewrite (assoc_L (++)), <- Ez. simpl.
    split; [lia|]. split; [lia|]. by rewrite Z.add_0_r. }
  assert (forall c j, (c, j) ∈ z ++ (q, n) :: l2 -> hapart pr c) as Hap.
  { intros c j Hin. apply (headers_apart (h_brk s) ((l1 ++ (q, n) :: l2) ++ A)); [done|by apply ring_headers| |].
    - apply ring_headers. change (c ∈ ((base, 0) :: l1 ++ (q, n) :: l2).*1). rewrite app_comm_cons, Ez.
      apply list_elem_of_fmap. exists (c, j). split; [done|]. rewrite <- (assoc_L (++)). apply elem_of_app in Hin as [?|?]; apply elem_of_app; auto.
      right. by right.
    - apply gapped_NoDup in Hg. rewrite fmap_app in Hg. cbn in Hg. rewrite <- Permutation_middle in Hg. apply list.NoDup_cons in Hg as [Hg _].
      intros ->. apply Hg. change (c ∈ z.*1 ++ ((q, n) :: l2).*1). rewrite <- fmap_app. apply list_elem_of_fmap. by exists (c, j). }
  assert (u32 (ptr_of (h_mem s) q) = ptr_of (h_mem s) q) as Eu.
  { rewrite (seg_head _ _ _ _ Hs2). destruct l2 as [|[c j] l2]; simpl.
    - apply u32_small. unfold is_u32. destruct Ht as (Hle & _). unfold HDR in *. lia.
    - apply (tile_small _ _ (c, j) Ht Hbrk). apply elem_of_app. left. apply elem_of_app. right. right. by left. }
  exists (l1 ++ l2). split; [|split; [done|rewrite !length_app; simpl; lia]]. constructor.
  - cbn [h_mem s']. rewrite app_comm_cons, Ez, <- (assoc_L (++)). cbn [app]. apply seg_at. split; [|split; [|split]].
    + apply (seg_outside (h_mem s) _ pr); [done|apply set_ptr_out|]. intros c j Hc. apply (Hap c j). apply elem_of_app. by left.
    + cbn. by rewrite size_set_ptr_same.
    + cbn. rewrite ptr_set_ptr, Eu. by apply seg_head in Hs2.
    + rewrite <- (seg_head _ _ _ _ Hs2). apply (seg_outside (h_mem s) _ pr); [done|apply set_ptr_out|].
      intros c j Hc. apply (Hap c j). apply elem_of_app. right. by right.
  - apply gapped_app in Hgap as [Hg1 Hg2]. apply gapped_app. split; [done|]. destruct Hg2 as (Hg2 & Hn0 & Hg3).
    apply (gapped_weaken (q + HDR * n)); [done|]. unfold HDR. lia.
  - cbn. change (pr ∈ ((base, 0) :: l1 ++ l2).*1). rewrite app_comm_cons, Ez, !fmap_app. apply elem_of_app. left. apply elem_of_app. right. by left.
  - retile Ht.
  - done.
  - apply Forall_cons_2; [cbn; rewrite size_set_ptr_ne; [done|apply (Hap q n); apply elem_of_app; right; by left]|].
    apply list.Forall_forall. intros b Hb. rewrite (size_untouched A s s' b Hun Hb); [by apply (proj1 (list.Forall_forall _ _) Hsz)|].
    apply (tiled_block _ _ _ b Ht). apply elem_of_app. by right.
Qed.

(** The end of a larger block is given out. *)
Lemma take_part s l A pr q j n :
  heap_ok s l A -> (q, j) ∈ l -> pr ∈ base :: l.*1 -> 0 < n < j ->
  let r := q + HDR * (j - n) in
  let s' := s <| h_mem ::= fun m => set_size r n (set_size q (j - n) m) |> <| h_freep := pr |> in
  exists l', heap_ok s' l' ((r, n) :: A) /\ untouched A s s' /\ length l' = length l.
Proof.
  intros [Hring Hgap Hfp Ht Hbrk Hsz] Hin Hpr Hnj r s'. apply list_elem_of_split in Hin as (l1 & l2 & ->).
  pose proof Hring as Hr2. rewrite app_comm_cons in Hr2. apply seg_at in Hr2 as (Hs1 & Hj & Hq & Hs2).
  assert (tiled start (h_brk s) ((q, j - n) :: (r, n) :: (l1 ++ l2) ++ A)) as Ht'.
  { replace n with (j - (j - n)) at 2 by lia. unfold r. apply tiled_split; [lia|]. retile Ht. }
  destruct (tile_small _ _ (q, j - n) Ht' Hbrk) as (_ & _ & E1); [by left|].
  destruct (tile_small _ _ (r, n) Ht' Hbrk) as (_ & _ & E2); [by right; left|]. cbn in E1, E2.
  assert (hapart q r) as Hqr by (unfold r, hapart, HDR; lia).
  assert (forall x, (x < q \/ q + HDR <= x) -> (x < r \/ r + HDR <= x) -> h_mem s' x = h_mem s x) as Hout.
  { intros x H1 H2. cbn. by rewrite set_size_out, set_size_out. }
  assert (untouched A s s') as Hun.
  { intros b x Hb Hx. apply Hout; (apply (header_outside (h_brk s) ((q, j - n) :: (r, n) :: l1 ++ l2) A _ x b); [retile Ht'| |done|done]);
      right; [by left|right; by left]. }
  assert (forall c, c ∈ base :: (l1 ++ l2).*1 -> ptr_of (h_mem s') c = ptr_of (h_mem s) c /\ size_of (h_mem s') c = size_of (h_mem s) c) as Hsame.
  { intros c Hc. assert (hapart q c /\ hapart r c) as [[H1|H1] [H2|H2]]; [|unfold HDR in *; split; apply load32_agree; intros x Hx; apply Hout; unfold HDR; lia..].
    apply elem_of_cons in Hc as [->|(b & -> & [l' El]%elem_of_Permutation)%list_elem_of_fmap].
    - split; apply hapart_sym; [apply (base_hapart _ _ (q, j - n) Ht'); by left|apply (base_hapart _ _ (r, n) Ht'); right; by left].
    - rewrite El in Ht'. split; [apply (tile_hapart (h_brk s) ((r, n) :: l' ++ A) (q, j - n) b)|apply (tile_hapart (h_brk s) ((q, j - n) :: l' ++ A) (r, n) b)];
        retile Ht'. }
  exists (l1 ++ (q, j - n) :: l2). split; [|split; [done|by rewrite !length_app]]. constructor.
  - rewrite app_comm_cons. apply seg_at. split; [|split; [|split]].
    + apply (seg_frame (h_mem s)); [done|]. intros c i Hc. apply Hsame. apply elem_of_cons in Hc as [E|Hc]; [injection E as -> ->; by left|].
      right. rewrite fmap_app. apply elem_of_app. left. apply list_elem_of_fmap. by exists (c, i).
    + cbn. rewrite size_set_size_ne, size_set_size; [done|by apply hapart_sym].
    + cbn. rewrite ptr_set_size_ne, ptr_set_size_same; [done|by apply hapart_sym].
    + apply (seg_frame (h_mem s)); [done|]. intros c i Hc. apply Hsame. right. rewrite fmap_app. apply elem_of_app. right.
      apply list_elem_of_fmap. by exists (c, i).
  - apply gapped_app in Hgap as [Hg1 (Hg2 & Hn0 & Hg3)]. apply gapped_app. split; [done|]. split; [done|]. split; [lia|].
    apply (gapped_weaken (q + HDR * j)); [done|]. unfold HDR. lia.
  - cbn. rewrite fmap_app in Hpr |- *. exact Hpr.
  - retile Ht'.
  - done.
  - apply Forall_cons_2; [cbn; by rewrite size_set_size|].
    apply list.Forall_forall. intros b Hb. rewrite (size_untouched A s s' b Hun Hb); [by apply (proj1 (list.Forall_forall _ _) Hsz)|].
    apply (tiled_block _ _ _ b Ht). apply elem_of_app. by right.
Qed.

(** What giving out a block does, however it is cut. *)
Definition gave (s : heap) (l A : list blk) (n : Z) (r : Z) (s' : heap) : Prop :=
  exists l', heap_ok s' l' ((r - HDR, n) :: A) /\ untouched A s s' /\ h_brk s' = h_brk s /\ h_grants s' = h_grants s /\
    (length l' <= length l)%nat.

Lemma take_block_ok s l A pr q j n :
  heap_ok s l A -> (q, j) ∈ l -> pr ∈ base :: l.*1 -> ptr_of (h_mem s) pr = q -> 0 < n <= j ->
  exists r s', take_block n pr q s = Ok r s' /\ gave s l A n r s'.
Proof.
  intros Hok Hin Hpr Hq Hn. assert (size_of (h_mem s) q = j) as Hj.
  { pose proof (ok_ring _ _ _ Hok) as Hr. apply list_elem_of_split in Hin as (l1 & l2 & ->). rewrite app_comm_cons in Hr.
    by apply seg_at in Hr as (_ & ? & _). }
  unfold take_block, on_mem. mstep. rewrite Hj. destruct (Z.eqb_spec j n) as [->|Hne].
  - destruct (take_whole s l A pr q n Hok Hin Hpr Hq) as (l' & Hok' & Hun & Hl').
    eexists (q + HDR), _. mstep. split; [reflexivity|]. exists l'. replace (q + HDR - HDR) with q by lia. done.
  - destruct (take_part s l A pr q j n Hok Hin Hpr ltac:(lia)) as (l' & Hok' & Hun & Hl').
    assert (hadd q (j - n) = q + HDR * (j - n)) as E.
    { pose proof (ok_tiled _ _ _ Hok) as Ht. pose proof (ok_brk _ _ _ Hok). apply hadd_small.
      all: destruct (tiled_block _ _ _ (q, j) Ht) as (B1 & _ & _ & B4); [apply elem_of_app; by left|]; cbn in *; unfold HDR in *; lia. }
    eexists (q + HDR * (j - n) + HDR), _. mstep. rewrite E. split; [reflexivity|]. exists l'.
    replace (q + HDR * (j - n) + HDR - HDR) with (q + HDR * (j - n)) by lia. split; [exact Hok'|]. split; [exact Hun|]. split; [done|]. split; [done|lia].
Qed.

(** ** The search of [malloc] *)

Lemma ring_block s l A c j : heap_ok s l A -> (c, j) ∈ (base, 0) :: l -> size_of (h_mem s) c = j.
Proof.
  intros Hok Hin. pose proof (ok_ring _ _ _ Hok) as Hr. apply list_elem_of_split in Hin as (l1 & l2 & E). rewrite E in Hr.
  by apply seg_at in Hr as (_ & ? & _).
Qed.

(** Along a part of the ring: a block that is large enough is given out, or the end is
    reached. *)
Lemma malloc_scan s l A n Y : forall prevp p g,
  heap_ok s l A -> seg (h_mem s) p Y (h_freep s) -> Y ⊆ (base, 0) :: l -> h_freep s ∉ Y.*1 ->
  prevp ∈ base :: l.*1 -> ptr_of (h_mem s) prevp = p -> 0 < n ->
  (exists r s', malloc_loop (length Y + g) n prevp p s = Ok r s' /\ gave s l A n r s') \/
  ((forall b, b ∈ Y -> b.2 < n) /\ exists pr, pr ∈ base :: l.*1 /\ ptr_of (h_mem s) pr = h_freep s /\
    malloc_loop (length Y + g) n prevp p s = malloc_loop g n pr (h_freep s) s).
Proof.
  induction Y as [|[c j] Y IH]; intros prevp p g Hok Hs Hsub Hf Hpr Hp Hn.
  - right. simpl in Hs. subst p. split; [by intros b ?%not_elem_of_nil|]. exists prevp. done.
  - destruct Hs as (-> & Hj & Hs). assert ((c, j) ∈ (base, 0) :: l) as Hin by (apply Hsub; by left).
    simpl. mstep. rewrite Hj. destruct (Z.leb_spec n j) as [Hle|Hlt].
    + left. apply elem_of_cons in Hin as [E|Hin]; [injection E as -> ->; lia|].
      apply (take_block_ok s l A prevp c j n); auto.
    + mstep. apply not_elem_of_cons in Hf as [Hne Hf]. rewrite (proj2 (Z.eqb_neq c (h_freep s))) by (cbn in Hne; congruence).
      assert (c ∈ base :: l.*1) as Hc by (change (c ∈ ((base, 0) :: l).*1); apply list_elem_of_fmap; by exists (c, j)).
      destruct (IH c (ptr_of (h_mem s) c) g Hok Hs) as [?|(Hall & pr & H1 & H2 & H3)]; try done; [|by left|].
      * intros b Hb. apply Hsub. by right.
      * right. split; [|by exists pr]. intros b [->|Hb]%elem_of_cons; [done|by apply Hall].
Qed.

(** Once round the ring, from the block after [freep] to [freep] itself. *)
Lemma malloc_round s l A n g :
  heap_ok s l A -> 0 < n ->
  (exists r s', malloc_loop (length l + S g) n (h_freep s) (ptr_of (h_mem s) (h_freep s)) s = Ok r s' /\ gave s l A n r s') \/
  ((forall b, b ∈ l -> b.2 < n) /\
    malloc_loop (length l + S g) n (h_freep s) (ptr_of (h_mem s) (h_freep s)) s =
    (p <- morecore g n ;; if p =? 0 then ret 0 else m <- gets h_mem ;; malloc_loop g n p (ptr_of m p)) s).
Proof.
  intros Hok Hn. pose proof (ok_freep _ _ _ Hok) as Hf. change (base :: l.*1) with ((base, 0) :: l).*1 in Hf.
  apply list_elem_of_fmap in Hf as ((f & k) & Ef & Hin). cbn in Ef. pose proof Hin as Hfk.
  apply list_elem_of_split in Hin as (X1 & X2 & Ex). pose proof (ok_ring _ _ _ Hok) as Hr. rewrite Ex in Hr.
  apply seg_at in Hr as (Hs1 & Hk & Hp & Hs2). rewrite <- Ef in Hs1, Hk, Hp.
  assert (length l = length (X2 ++ X1)) as Hlen.
  { apply (f_equal length) in Ex. rewrite length_app in Ex |- *. simpl in Ex. lia. }
  assert (NoDup (X1 ++ (f, k) :: X2).*1) as Hnd.
  { rewrite <- Ex. apply (gapped_NoDup (base - 1)). simpl. split; [lia|]. split; [lia|]. rewrite Z.add_0_r. apply (ok_gaps _ _ _ Hok). }
  rewrite fmap_app in Hnd. cbn in Hnd. rewrite <- Permutation_middle in Hnd. apply list.NoDup_cons in Hnd as [Hnot _].
  rewrite Hlen. destruct (malloc_scan s l A n (X2 ++ X1) (h_freep s) (ptr_of (h_mem s) (h_freep s)) (S g) Hok)
    as [?|(Hall & pr & Hpr & Hppr & E)]; try done.
  - apply seg_app. exists base. rewrite Hp. done.
  - rewrite Ex. intros b Hb. apply elem_of_app in Hb as [?|?]; apply elem_of_app; [right; by right|by left].
  - rewrite Ef. intros Hb. apply Hnot. rewrite fmap_app in Hb. apply elem_of_app in Hb as [?|?]; apply elem_of_app; auto.
  - apply (ok_freep _ _ _ Hok).
  - by left.
  - rewrite E. simpl. mstep. rewrite Hk. destruct (Z.leb_spec n k) as [Hle|Hlt].
    + left. rewrite <- Ef in Hfk. apply elem_of_cons in Hfk as [E0|Hfk]; [injection E0 as _ ->; lia|].
      apply (take_block_ok s l A pr (h_freep s) k n); auto.
    + right. mstep. rewrite Z.eqb_refl. split; [|done]. intros b Hb. destruct (decide (b ∈ X2 ++ X1)) as [?|Hnb]; [by apply Hall|].
      assert (b ∈ X1 ++ (f, k) :: X2) as Hbx by (rewrite <- Ex; by right).
      apply elem_of_app in Hbx as [?|[->|?]%elem_of_cons]; [|done|]; destruct Hnb; apply elem_of_app; auto.
Qed.

Lemma malloc_loop_found s l A n fuel :
  heap_ok s l A -> 0 < n -> (exists b, b ∈ l /\ n <= b.2) -> (length l < fuel)%nat ->
  exists r s', malloc_loop fuel n (h_freep s) (ptr_of (h_mem s) (h_freep s)) s = Ok r s' /\ gave s l A n r s'.
Proof.
  intros Hok Hn (b & Hb & Hnb) Hf. replace fuel with (length l + S (fuel - S (length l)))%nat by lia.
  destruct (malloc_round s l A n (fuel - S (length l)) Hok Hn) as [?|[Hall _]]; [done|]. specialize (Hall b Hb). lia.
Qed.

(** ** Growing the heap *)

Lemma grow_ok s l A nu gr :
  heap_ok s l A -> 0 < nu -> h_brk s + HDR * nu < 2 ^ 31 ->
  let s' := s <| h_grants := gr |> <| h_brk := h_brk s + HDR * nu |> <| h_mem ::= set_size (h_brk s) nu |> in
  heap_ok s' l ((h_brk s, nu) :: A) /\ untouched A s s'.
Proof.
  intros [Hring Hgap Hfp Ht Hbrk Hsz] Hnu Hnew s'. pose proof (tiled_grow _ _ _ nu Ht Hnu) as Ht'.
  assert (forall a, a ∈ base :: (l ++ A).*1 -> hapart (h_brk s) a) as Hap.
  { intros a Ha. apply hapart_sym. apply (headers_apart _ _ a (h_brk s) Ht').
    - cbn. rewrite !elem_of_cons in *. tauto.
    - right. by left.
    - intros ->. apply elem_of_cons in Ha as [E|(b & E & Hb)%list_elem_of_fmap].
      + destruct Ht as (? & _). unfold HDR in *. lia.
      + destruct (tiled_block _ _ _ b Ht Hb) as (_ & _ & ? & ?). unfold HDR in *. lia. }
  assert (untouched A s s') as Hun.
  { intros b x Hb Hx. cbn. apply set_size_out. destruct (tiled_block _ _ _ b Ht) as (_ & _ & _ & ?); [apply elem_of_app; by right|].
    unfold within in Hx. lia. }
  split; [|done]. destruct (tile_small _ _ (h_brk s, nu) Ht' Hnew) as (_ & _ & Enu); [by left|]. constructor; try done.
  - apply (seg_outside (h_mem s) _ (h_brk s)); [done|intros x Hx; cbn; by apply set_size_out|]. intros c j Hc. apply Hap.
    apply ring_headers. change (c ∈ ((base, 0) :: l).*1). apply list_elem_of_fmap. by exists (c, j).
  - cbn. retile Ht'.
  - apply Forall_cons_2; [cbn; by rewrite size_set_size|].
    apply list.Forall_forall. intros b Hb. rewrite (size_untouched A s s' b Hun Hb); [by apply (proj1 (list.Forall_forall _ _) Hsz)|].
    apply (tiled_block _ _ _ b Ht). apply elem_of_app. by right.
Qed.

(** The size [morecore] asks for. *)
Definition core_units (n : Z) : Z := if n <? 4096 then 4096 else n.

Lemma morecore_ok s l A n fuel :
  heap_ok s l A -> 0 < n -> HDR * core_units n < 2 ^ 31 -> (length l < fuel)%nat ->
  (exists gr, morecore fuel n s = Ok 0 (s <| h_grants := gr |>)) \/
  (exists s' l', morecore fuel n s = Ok (h_freep s') s' /\ h_freep s' <> 0 /\ heap_ok s' l' A /\ untouched A s s' /\
     (length l' <= S (length l))%nat /\ exists b, b ∈ l' /\ n <= b.2).
Proof.
  intros Hok Hn Hsmall Hfuel. unfold morecore. fold (core_units n).
  assert (n <= core_units n /\ 0 < core_units n) as [Hnu Hpos] by (unfold core_units; destruct (Z.ltb_spec n 4096); lia).
  rewrite (s32_small (core_units n * HDR)) by (unfold is_s32, HDR in *; lia).
  assert (0 <= h_brk s) as Hb0. { destruct (ok_tiled _ _ _ Hok) as (? & _). unfold HDR in *. lia. }
  destruct (sbrk_cases (core_units n * HDR) s) as (gr & [Es|[Es Hlt]]); rewrite (bind_ok _ _ _ _ _ Es).
  { left. by exists gr. }
  right.
  rewrite (proj2 (Z.eqb_neq (h_brk s) (-1))) by lia.
  destruct (grow_ok s l A (core_units n) gr Hok Hpos) as [Hok1 Hun1]; [unfold KERNBASE, HDR in *; lia|].
  rewrite u32_small by (unfold is_u32, KERNBASE, HDR in *; lia). rewrite (Z.mul_comm (core_units n) HDR).
  unfold on_mem. mstep. set (s1 := s <| h_grants := gr |> <| h_brk := h_brk s + HDR * core_units n |> <| h_mem ::= set_size (h_brk s) (core_units n) |>) in *.
  destruct (free_spec s1 l A (h_brk s) (core_units n) fuel Hok1 Hfuel) as (s' & l' & E & Hok' & Hun' & _ & _ & Hl' & b & Hb & Hnb).
  exists s', l'. rewrite (bind_ok _ _ _ _ _ E). split; [done|]. split; [|split; [done|split; [|split; [done|exists b; split; [done|lia]]]]].
  - pose proof (ok_freep _ _ _ Hok') as Hf. apply elem_of_cons in Hf as [->|(c & -> & Hc)%list_elem_of_fmap]; [lia|].
    destruct (tiled_block _ _ _ c (ok_tiled _ _ _ Hok')) as (? & _); [apply elem_of_app; by left|]. unfold HDR in *. lia.
  - by apply (untouched_trans _ _ s1).
Qed.

Lemma malloc_loop_ok s l A n fuel :
  heap_ok s l A -> 0 < n -> HDR * core_units n < 2 ^ 31 -> (2 * length l + 3 <= fuel)%nat ->
  exists r s', malloc_loop fuel n (h_freep s) (ptr_of (h_mem s) (h_freep s)) s = Ok r s' /\ untouched A s s' /\
    ((r = 0 /\ exists gr, s' = s <| h_grants := gr |>) \/ (exists l', heap_ok s' l' ((r - HDR, n) :: A) /\ (length l' <= S (length l))%nat)).
Proof.
  intros Hok Hn Hsmall Hf. replace fuel with (length l + S (fuel - S (length l)))%nat by lia. set (g := (fuel - S (length l))%nat).
  destruct (malloc_round s l A n g Hok Hn) as [(r & s' & E & l' & Hok' & Hun & _ & _ & Hl')|[Hall ->]].
  { exists r, s'. split; [done|]. split; [done|]. right. exists l'. split; [done|lia]. }
  destruct (morecore_ok s l A n g Hok Hn Hsmall) as [(gr & E)|(s1 & l1 & E & Hne & Hok1 & Hun1 & Hl1 & Hex)]; [unfold g; lia| |].
  - exists 0, (s <| h_grants := gr |>). rewrite (bind_ok _ _ _ _ _ E). split; [done|]. split; [done|]. left. split; [done|]. by exists gr.
  - rewrite (bind_ok _ _ _ _ _ E). rewrite (proj2 (Z.eqb_neq _ 0) Hne). mstep.
    destruct (malloc_loop_found s1 l1 A n g Hok1 Hn Hex) as (r & s' & E' & l' & Hok' & Hun' & _ & _ & Hl'); [unfold g; lia|].
    exists r, s'. split; [done|]. split; [by apply (untouched_trans _ _ s1)|]. right. exists l'. split; [done|lia].
Qed.

(** ** [malloc], from the first call on *)

(** The allocator is not yet initialised, or in order. *)
Definition heap_at (s : heap) (l A : list blk) : Prop :=
  heap_ok s l A \/ (h_freep s = 0 /\ l = [] /\ A = [] /\ h_brk s = start /\ start < 2 ^ 31).

Lemma heap_ok_freep s l A : heap_ok s l A -> h_freep s <> 0.
Proof.
  intros Hok. pose proof (ok_freep _ _ _ Hok) as Hf. apply elem_of_cons in Hf as [->|(c & -> & Hc)%list_elem_of_fmap]; [lia|].
  destruct (tiled_block _ _ _ c (ok_tiled _ _ _ Hok)) as (? & _); [apply elem_of_app; by left|]. unfold HDR in *. lia.
Qed.

Lemma tiled_empty : tiled start start [].
Proof. split; [lia|]. rewrite Z.sub_diag. done. Qed.

Lemma heap_fresh s :
  h_brk s = start -> start < 2 ^ 31 ->
  heap_ok (s <| h_mem ::= set_ptr base base |> <| h_freep := base |> <| h_mem ::= set_size base 0 |>) [] [].
Proof.
  intros Hb Hs. constructor; cbn; [|done|by left| |by rewrite Hb|constructor].
  - split; [done|]. split; [by rewrite size_set_size|]. rewrite ptr_set_size_same, ptr_set_ptr. apply u32_small. unfold is_u32, HDR in *. lia.
  - rewrite Hb. apply tiled_empty.
Qed.

Lemma units_for_spec nbytes : 0 <= nbytes < 2 ^ 30 -> 0 < units_for nbytes /\ nbytes <= HDR * (units_for nbytes - 1) /\ HDR * core_units (units_for nbytes) < 2 ^ 31.
Proof.
  intros Hn. unfold units_for, core_units, HDR. rewrite u32_small by (unfold is_u32; lia).
  destruct (Z.ltb_spec ((nbytes + 8 - 1) / 8 + 1) 4096); Z.to_euclidean_division_equations; lia.
Qed.

Lemma malloc_spec s l A nbytes fuel :
  heap_at s l A -> 0 <= nbytes < 2 ^ 30 -> (2 * length l + 3 <= fuel)%nat ->
  exists r s', malloc base fuel nbytes s = Ok r s' /\ untouched A s s' /\
    ((r = 0 /\ heap_at s' l A) \/
     (r <> 0 /\ exists l', heap_ok s' l' ((r - HDR, units_for nbytes) :: A) /\ (length l' <= S (length l))%nat)).
Proof.
  intros Hat Hn Hfuel. destruct (units_for_spec nbytes Hn) as (H1 & H2 & H3).
  assert (forall s0, heap_ok s0 l A -> untouched A s s0 -> exists r s',
    malloc_loop fuel (units_for nbytes) (h_freep s0) (ptr_of (h_mem s0) (h_freep s0)) s0 = Ok r s' /\ untouched A s s' /\
    ((r = 0 /\ heap_at s' l A) \/
     (r <> 0 /\ exists l', heap_ok s' l' ((r - HDR, units_for nbytes) :: A) /\ (length l' <= S (length l))%nat))) as Hloop.
  { intros s0 Hok Hun. destruct (malloc_loop_ok s0 l A (units_for nbytes) fuel Hok H1 H3 Hfuel) as (r & s' & E & Hun' & Hr).
    exists r, s'. split; [done|]. split; [by apply (untouched_trans _ _ s0)|]. destruct Hr as [[-> [gr ->]]|(l' & Hok' & Hl')].
    - left. split; [done|]. left. destruct Hok. by constructor.
    - right. split; [|by exists l']. destruct (tiled_block _ _ _ (r - HDR, units_for nbytes) (ok_tiled _ _ _ Hok')) as (? & _).
      + apply elem_of_app. right. by left.
      + cbn in *. unfold HDR in *. lia. }
  unfold malloc, on_mem. mstep. destruct Hat as [Hok|(Hf & -> & -> & Hb & Hs)].
  - rewrite (proj2 (Z.eqb_neq _ 0) (heap_ok_freep _ _ _ Hok)). mstep. by apply Hloop.
  - rewrite Hf. cbn [Z.eqb]. mstep. apply (Hloop _ (heap_fresh s Hb Hs)). by intros b x ?%not_elem_of_nil.
Qed.

(** With nothing in use the free memory is in one piece. *)
Lemma heap_coalesced s l : heap_ok s l [] -> l = [] /\ h_brk s = start \/ l = [(start, (h_brk s - start) / HDR)].
Proof.
  intros [_ Hgap _ Ht _ _]. rewrite app_nil_r in Ht. pose proof Ht as (Hle & Hmod & Hpos & E).
  assert (forall x, start <= x < h_brk s -> (x - start) mod HDR = 0 -> exists b, b ∈ l /\ b.1 <= x < b.1 + HDR * b.2) as Hcov.
  { intros x Hx Hxm. assert (x ∈ units l) as Hu.
    { rewrite E. apply elem_of_units_of. exists ((x - start) / HDR). cbn. unfold HDR in *. Z.to_euclidean_division_equations. lia. }
    apply elem_of_units in Hu as (b & Hb & Hu). exists b. split; [done|]. apply elem_of_units_of in Hu as (i & Hi & ->). unfold HDR. lia. }
  destruct l as [|[a n] l]; [left; split; [done|]|right].
  - destruct (decide (start = h_brk s)) as [|Hne]; [done|]. destruct (Hcov start) as (b & Hb & _); [lia|by rewrite Z.sub_diag|].
    by apply not_elem_of_nil in Hb.
  - destruct (tiled_block _ _ _ (a, n) Ht) as (A1 & A2 & A3 & A4); [by left|]. cbn [fst snd] in *. destruct Hgap as (_ & _ & Hgap).
    assert (forall b, b ∈ l -> a + HDR * n < b.1) as Hafter by (intros b Hb; by destruct (gapped_elem _ _ _ Hgap Hb) as (? & _)).
    assert (a = start) as ->.
    { destruct (Hcov start) as (b & Hb & Hin); [unfold HDR in *; lia|by rewrite Z.sub_diag|].
      apply elem_of_cons in Hb as [->|Hb]; [cbn in Hin; lia|]. specialize (Hafter b Hb). unfold HDR in *. lia. }
    assert (start + HDR * n = h_brk s) as Hend.
    { destruct (decide (start + HDR * n = h_brk s)) as [|Hne]; [done|]. exfalso. destruct (Hcov (start + HDR * n)) as (b & Hb & Hin).
      - unfold HDR in *. lia.
      - unfold HDR. rewrite (Z.mul_comm 8), Z.add_simpl_l. apply Z_mod_mult.
      - apply elem_of_cons in Hb as [->|Hb]; [cbn in Hin; lia|]. specialize (Hafter b Hb). lia. }
    destruct l as [|[c j] l].
    + do 2 f_equal. rewrite <- Hend. unfold HDR. replace (start + 8 * n - start) with (n * 8) by lia. by rewrite Z.div_mul.
    + exfalso. specialize (Hafter (c, j) ltac:(by left)). cbn in Hafter.
      destruct (tiled_block _ _ _ (c, j) Ht) as (_ & _ & ? & ?); [right; by left|]. cbn in *. unfold HDR in *. lia.
Qed.
End Spec.
