(* ===== verification/UmallocClient.v ===== *)
(** * Programs that use the allocator

    A program asks for blocks, gives them back, and reads and writes bytes inside the
    blocks it holds. Every such program runs as over an abstract store, in which each block
    is a memory of its own. *)

From S2P Require Import Prelude Params Mem Umalloc UmallocSpec.

(** What a program does next; a block is named by its place among those it holds, the
    latest first. *)
Inductive cop := Malloc (nbytes : Z) | Free (i : nat) | Put (i : nat) (off v : Z) | Get (i : nat) (off : Z).

Definition op_ok (o : cop) : Prop :=
  match o with
  | Malloc n => 0 <= n < 2 ^ 30
  | Put _ _ v => is_u8 v
  | _ => True
  end.

(** ** The program and the allocator *)

Section Client.
Context (base : Z).

(** The blocks held are pointers with the size asked for. A program does not touch bytes
    outside of its blocks, and does nothing with a block it does not hold. *)
Definition cstep (fuel : nat) (o : cop) (ps : list (Z * Z)) : H (list (Z * Z) * Z) :=
  match o with
  | Malloc n =>
      r <- malloc base fuel n ;;
      if r =? 0 then ret (ps, 0) else ret ((r, n) :: ps, 1)
  | Free i =>
      match ps !! i with
      | Some p => free fuel p.1 ;; ret (delete i ps, 0)
      | None => ret (ps, 0)
      end
  | Put i off v =>
      match ps !! i with
      | Some p => if (0 <=? off) && (off <? p.2) then on_mem (fun m => store8 m (p.1 + off) v) ;; ret (ps, 0) else ret (ps, 0)
      | None => ret (ps, 0)
      end
  | Get i off =>
      match ps !! i with
      | Some p => if (0 <=? off) && (off <? p.2) then m <- gets h_mem ;; ret (ps, m (p.1 + off)) else ret (ps, 0)
      | None => ret (ps, 0)
      end
  end.

Fixpoint crun (fuel : nat) (os : list cop) (ps : list (Z * Z)) : H (list (Z * Z) * list Z) :=
  match os with
  | [] => ret (ps, [])
  | o :: os' =>
      r <- cstep fuel o ps ;;
      let '(ps, out) := r in
      r <- crun fuel os' ps ;;
      let '(ps, outs) := r in
      ret (ps, out :: outs)
  end.
End Client.

(** ** The abstract store *)

(** A block: its size, and the bytes written to it so far. *)
Abbreviation ablk := (Z * gmap Z Z)%type.

(** [astep o bs out bs']: the operation [o] may answer [out]. An allocation may fail, and
    a byte that was never written may read as anything. *)
Inductive astep : cop -> list ablk -> Z -> list ablk -> Prop :=
| a_malloc n bs : astep (Malloc n) bs 1 ((n, ∅) :: bs)
| a_fail n bs : astep (Malloc n) bs 0 bs
| a_free i b bs : bs !! i = Some b -> astep (Free i) bs 0 (delete i bs)
| a_put i off v n c bs :
    bs !! i = Some (n, c) -> 0 <= off < n -> astep (Put i off v) bs 0 (<[i := (n, <[off := v]> c)]> bs)
| a_get i off v n c bs :
    bs !! i = Some (n, c) -> 0 <= off < n -> (forall w, c !! off = Some w -> v = w) -> astep (Get i off) bs v bs
| a_free_none i bs : bs !! i = None -> astep (Free i) bs 0 bs
| a_put_none i off v bs : (forall b, bs !! i = Some b -> ~ 0 <= off < b.1) -> astep (Put i off v) bs 0 bs
| a_get_none i off bs : (forall b, bs !! i = Some b -> ~ 0 <= off < b.1) -> astep (Get i off) bs 0 bs.

Inductive arun : list cop -> list ablk -> list Z -> list ablk -> Prop :=
| arun_nil bs : arun [] bs [] bs
| arun_cons o os bs out bs1 outs bs2 :
    astep o bs out bs1 -> arun os bs1 outs bs2 -> arun (o :: os) bs (out :: outs) bs2.

(** ** Refinement *)

Section Refine.
Context (base start : Z) (base_pos : 0 < base) (base_low : base + HDR <= start).

(** The header and the whole of the block behind a pointer. *)
Definition block_of (p : Z * Z) : blk := (p.1 - HDR, units_for p.2).

Definition shows_block (m : mem) (p : Z * Z) (b : ablk) : Prop :=
  p.2 = b.1 /\ 0 <= p.2 < 2 ^ 30 /\ forall off v, b.2 !! off = Some v -> 0 <= off < p.2 /\ m (p.1 + off) = v.

(** The heap holds the blocks [ps] with the contents [bs]. *)
Definition represents (s : heap) (l : list blk) (ps : list (Z * Z)) (bs : list ablk) : Prop :=
  heap_at base start s l (block_of <$> ps) /\ Forall2 (shows_block (h_mem s)) ps bs.

Lemma heap_ok_perm s l A A' : heap_ok base start s l A -> A ≡ₚ A' -> heap_ok base start s l A'.
Proof. intros [H1 H2 H3 H4 H5 H6] E. constructor; try done; by rewrite <- E. Qed.

Lemma heap_at_ok s l b A : heap_at base start s l (b :: A) -> heap_ok base start s l (b :: A).
Proof. intros [?|(_ & _ & ? & _)]; done. Qed.

(** A byte of a block is past its header and inside of it. *)
Lemma byte_within p off : 0 <= p.2 < 2 ^ 30 -> 0 <= off < p.2 -> within (block_of p) (p.1 + off) /\ (block_of p).1 + HDR <= p.1 + off.
Proof.
  intros Hp Hoff. destruct (units_for_spec p.2 Hp) as (H1 & H2 & _). unfold within, block_of. cbn. unfold HDR in *. lia.
Qed.

Lemma shows_untouched s s' A ps bs :
  untouched A s s' -> (forall p, p ∈ ps -> block_of p ∈ A) ->
  Forall2 (shows_block (h_mem s)) ps bs -> Forall2 (shows_block (h_mem s')) ps bs.
Proof.
  intros Hun Hin H2. induction H2 as [|p b ps bs (E & Hr & Hc) H2 IH]; [constructor|]. constructor.
  - split; [done|]. split; [done|]. intros off v Hv. destruct (Hc off v Hv) as [Ho Hm]. split; [done|]. rewrite <- Hm.
    apply (Hun (block_of p)); [apply Hin; by left|]. by apply byte_within.
  - apply IH. intros q Hq. apply Hin. by right.
Qed.

Lemma step_malloc s l ps bs n fuel :
  represents s l ps bs -> 0 <= n < 2 ^ 30 -> (2 * length l + 3 <= fuel)%nat ->
  exists s' ps' out bs' l', cstep base fuel (Malloc n) ps s = Ok (ps', out) s' /\ astep (Malloc n) bs out bs' /\
    represents s' l' ps' bs' /\ (length l' <= S (length l))%nat.
Proof.
  intros [Hat Hsh] Hn Hf. destruct (malloc_spec base start base_pos base_low s l _ n fuel Hat Hn Hf) as (r & s' & E & Hun & Hr).
  assert (Forall2 (shows_block (h_mem s')) ps bs) as Hsh'.
  { apply (shows_untouched s s' (block_of <$> ps)); [done| |done]. intros p Hp. apply list_elem_of_fmap. by exists p. }
  unfold cstep. exists s'. destruct Hr as [[-> Hat']|(Hne & l' & Hok' & Hl')]; rewrite (bind_ok _ _ _ _ _ E).
  - exists ps, 0, bs, l. split; [done|]. split; [constructor|]. split; [done|lia].
  - rewrite (proj2 (Z.eqb_neq r 0) Hne). exists ((r, n) :: ps), 1, ((n, ∅) :: bs), l'. split; [done|]. split; [constructor|]. split; [|done].
    split; [by left|]. constructor; [|done]. split; [done|]. split; [done|]. intros off v Hv. cbn in Hv. by rewrite lookup_empty in Hv.
Qed.

Lemma step_free s l ps bs i fuel :
  represents s l ps bs -> (2 * length l + 3 <= fuel)%nat ->
  exists s' ps' out bs' l', cstep base fuel (Free i) ps s = Ok (ps', out) s' /\ astep (Free i) bs out bs' /\
    represents s' l' ps' bs' /\ (length l' <= S (length l))%nat.
Proof.
  intros [Hat Hsh] Hf. unfold cstep. destruct (ps !! i) as [p|] eqn:Ep.
  - destruct (Forall2_lookup_l _ _ _ _ _ Hsh Ep) as (b & Eb & Hb). pose proof (delete_Permutation _ _ _ Ep) as Eperm.
    assert (heap_ok base start s l (block_of p :: (block_of <$> delete i ps))) as Hok.
    { apply (fmap_Permutation block_of) in Eperm. cbn in Eperm. destruct Hat as [Hok|(_ & _ & E & _)]; [by apply (heap_ok_perm _ _ _ _ Hok)|].
      rewrite E in Eperm. by apply Permutation_nil_cons in Eperm. }
    destruct (free_spec base start base_pos base_low s l (block_of <$> delete i ps) (p.1 - HDR) (units_for p.2) fuel Hok) as (s' & l' & E & Hok' & Hun & _ & _ & Hl' & _); [lia|].
    replace (p.1 - HDR + HDR) with p.1 in E by lia. exists s', (delete i ps), 0, (delete i bs), l'. rewrite (bind_ok _ _ _ _ _ E).
    split; [done|]. split; [by econstructor|]. split; [|done]. split; [by left|].
    apply (shows_untouched s s' (block_of <$> delete i ps)); [done| |by apply Forall2_delete].
    intros q Hq. apply list_elem_of_fmap. by exists q.
  - exists s, ps, 0, bs, l. split; [done|]. split; [|split; [done|lia]]. apply a_free_none.
    apply lookup_ge_None. apply lookup_ge_None in Ep. by rewrite <- (Forall2_length Hsh).
Qed.

(** Writing a byte of a block changes nothing but that byte. *)
Lemma put_heap_ok s l ps p off v :
  heap_ok base start s l (block_of <$> ps) -> p ∈ ps -> Forall (fun p => 0 <= p.2 < 2 ^ 30) ps -> 0 <= off < p.2 ->
  heap_ok base start (s <| h_mem ::= fun m => store8 m (p.1 + off) v |>) l (block_of <$> ps).
Proof.
  intros [Hr Hg Hf Ht Hb Hsz] Hp Hall Hoff. pose proof (proj1 (list.Forall_forall _ _) Hall p Hp) as Hp2.
  destruct (byte_within p off Hp2 Hoff) as [Hw Hh]. assert (block_of p ∈ block_of <$> ps) as HpA by (apply list_elem_of_fmap; by exists p).
  assert (forall c, c ∈ base :: (l ++ (block_of <$> ps)).*1 -> c <= p.1 + off < c + HDR -> False) as Hnot.
  { intros c Hc Hx. rewrite fmap_app in Hc. assert (c ∈ base :: l.*1 \/ c ∈ (block_of <$> ps).*1) as [Hl|HA].
    { rewrite elem_of_cons, elem_of_app in Hc. rewrite elem_of_cons. tauto. }
    - destruct (header_outside base start base_low (h_brk s) l _ c (p.1 + off) (block_of p) Ht Hl HpA Hw); lia.
    - apply list_elem_of_fmap in HA as (b & -> & Hb'). destruct (decide (b = block_of p)) as [->|Hne]; [lia|].
      apply elem_of_Permutation in HpA as [A' EA]. rewrite EA in Ht, Hb'. apply elem_of_cons in Hb' as [?|Hb']; [done|].
      apply elem_of_Permutation in Hb' as [A2 EA2]. rewrite EA2 in Ht.
      assert (tiled start (h_brk s) (b :: block_of p :: l ++ A2)) as Ht2 by retile Ht.
      pose proof (tiled_apart _ _ _ _ _ Ht2). destruct (tiled_block _ _ _ b Ht2) as (_ & _ & ? & _); [by left|]. unfold within, HDR in *. lia. }
  assert (forall c, c ∈ base :: (l ++ (block_of <$> ps)).*1 ->
    ptr_of (store8 (h_mem s) (p.1 + off) v) c = ptr_of (h_mem s) c /\ size_of (store8 (h_mem s) (p.1 + off) v) c = size_of (h_mem s) c) as Hsame.
  { intros c Hc. specialize (Hnot c Hc). unfold HDR in Hnot.
    split; apply load32_agree; intros x Hx; unfold store8; (destruct (Z.eqb_spec x (p.1 + off)); [exfalso; apply Hnot; lia|done]). }
  constructor; try done.
  - apply (seg_frame (h_mem s)); [done|]. intros c n Hin. apply Hsame. apply ring_headers.
    change (c ∈ ((base, 0) :: l).*1). apply list_elem_of_fmap. by exists (c, n).
  - apply list.Forall_forall. intros b Hb'. cbn. rewrite (proj2 (Hsame b.1 ltac:(right; rewrite fmap_app, elem_of_app; right; apply list_elem_of_fmap; by exists b))).
    by apply (proj1 (list.Forall_forall _ _) Hsz).
Qed.

(** ** The bytes of two blocks *)

Lemma blocks_disjoint s l ps i j p q x :
  heap_ok base start s l (block_of <$> ps) -> ps !! i = Some p -> ps !! j = Some q -> i <> j ->
  within (block_of p) x -> within (block_of q) x -> False.
Proof.
  intros Hok Hi Hj Hne H1 H2. pose proof (ok_tiled _ _ _ _ _ Hok) as Ht.
  pose proof (delete_Permutation _ _ _ Hi) as E1.
  assert (exists k, delete i ps !! k = Some q) as [k Hk].
  { destruct (decide (j < i)%nat) as [Hlt|Hge]; [exists j; by rewrite list_lookup_delete_lt|].
    exists (j - 1)%nat. rewrite list_lookup_delete_ge by lia. by replace (S (j - 1)) with j by lia. }
  apply delete_Permutation in Hk. rewrite Hk in E1. rewrite E1 in Ht. cbn in Ht.
  assert (tiled start (h_brk s) (block_of p :: block_of q :: l ++ (block_of <$> delete k (delete i ps)))) as Ht' by retile Ht.
  pose proof (tiled_apart _ _ _ _ _ Ht'). unfold within in *. lia.
Qed.

Lemma shows_ranges m ps bs : Forall2 (shows_block m) ps bs -> Forall (fun p => 0 <= p.2 < 2 ^ 30) ps.
Proof. induction 1 as [|p b ps bs (_ & Hr & _) _ IH]; by constructor. Qed.

Lemma shows_lookup m ps bs i p : Forall2 (shows_block m) ps bs -> ps !! i = Some p -> exists c, bs !! i = Some (p.2, c) /\ shows_block m p (p.2, c).
Proof.
  intros H2 Hi. destruct (Forall2_lookup_l _ _ _ _ _ H2 Hi) as ((n & c) & Hb & Hs). pose proof (proj1 Hs) as E. cbn in E. subst n. by exists c.
Qed.

Lemma shows_none m ps bs i : Forall2 (shows_block m) ps bs -> ps !! i = None -> bs !! i = None.
Proof. intros H2. rewrite !lookup_ge_None. by rewrite (Forall2_length H2). Qed.

Lemma step_put s l ps bs i off v fuel :
  represents s l ps bs -> is_u8 v ->
  exists s' ps' out bs' l', cstep base fuel (Put i off v) ps s = Ok (ps', out) s' /\ astep (Put i off v) bs out bs' /\
    represents s' l' ps' bs' /\ (length l' <= S (length l))%nat.
Proof.
  intros [Hat Hsh] Hv. unfold cstep. destruct (ps !! i) as [p|] eqn:Ep.
  2: { exists s, ps, 0, bs, l. split; [done|]. split; [|split; [done|lia]]. apply a_put_none. by rewrite (shows_none _ _ _ _ Hsh Ep). }
  destruct (shows_lookup _ _ _ _ _ Hsh Ep) as (c & Hb & Hs). destruct ((0 <=? off) && (off <? p.2)) eqn:Eoff.
  2: { exists s, ps, 0, bs, l. split; [done|]. split; [|split; [done|lia]]. apply a_put_none. rewrite Hb. intros b [= <-]. cbn. intros ?.
       apply andb_false_iff in Eoff as [?|?]; lia. }
  breflect. assert (0 <= off < p.2) as Hoff by lia. pose proof (list_elem_of_lookup_2 _ _ _ Ep) as Hin.
  assert (heap_ok base start s l (block_of <$> ps)) as Hok.
  { destruct Hat as [?|(_ & _ & E & _)]; [done|]. apply (f_equal length) in E. rewrite length_fmap in E. apply lookup_lt_Some in Ep. simpl in E. lia. }
  exists (s <| h_mem ::= fun m => store8 m (p.1 + off) v |>), ps, 0, (<[i := (p.2, <[off := v]> c)]> bs), l. split; [done|].
  split; [by apply a_put|]. split; [|lia]. split; [left; apply put_heap_ok; [done|done|by eapply shows_ranges|done]|].
  rewrite <- (list_insert_id ps i p) by done. apply Forall2_same_length_lookup_2; [by rewrite !length_insert; apply (Forall2_length Hsh)|].
  rewrite list_insert_id by done. intros k q b Hq Hk. cbn. destruct (decide (k = i)) as [->|Hne].
  - rewrite list_lookup_insert_eq in Hk by (by eapply lookup_lt_Some). injection Hk as <-. rewrite Ep in Hq. injection Hq as <-.
    destruct Hs as (_ & Hr & Hc). split; [done|]. split; [done|]. cbn in *. intros o w Ho. unfold store8. destruct (decide (off = o)) as [<-|Hno].
    + rewrite lookup_insert_eq in Ho. injection Ho as <-. rewrite Z.eqb_refl. split; [done|by apply u8_small].
    + rewrite lookup_insert_ne in Ho by done. destruct (Hc o w Ho) as [Hr' <-]. split; [done|]. rewrite (proj2 (Z.eqb_neq _ _)); [done|lia].
  - rewrite list_lookup_insert_ne in Hk by done. destruct (Forall2_lookup_lr _ _ _ _ _ _ Hsh Hq Hk) as (E & Hr & Hc).
    split; [done|]. split; [done|]. intros o w Ho. destruct (Hc o w Ho) as [Hr' <-]. split; [done|]. unfold store8.
    rewrite (proj2 (Z.eqb_neq _ _)); [done|]. intros Ex. apply (blocks_disjoint s l ps k i q p (q.1 + o) Hok Hq Ep Hne); [by apply byte_within|].
    rewrite Ex. apply byte_within; [|done]. apply (proj1 (list.Forall_forall _ _) (shows_ranges _ _ _ Hsh) p Hin).
Qed.

Lemma step_get s l ps bs i off fuel :
  represents s l ps bs ->
  exists s' ps' out bs' l', cstep base fuel (Get i off) ps s = Ok (ps', out) s' /\ astep (Get i off) bs out bs' /\
    represents s' l' ps' bs' /\ (length l' <= S (length l))%nat.
Proof.
  intros [Hat Hsh]. unfold cstep. exists s, ps. destruct (ps !! i) as [p|] eqn:Ep.
  2: { exists 0, bs, l. split; [done|]. split; [|split; [done|lia]]. apply a_get_none. by rewrite (shows_none _ _ _ _ Hsh Ep). }
  destruct (shows_lookup _ _ _ _ _ Hsh Ep) as (c & Hb & _ & _ & Hc). destruct ((0 <=? off) && (off <? p.2)) eqn:Eoff.
  - breflect. exists (h_mem s (p.1 + off)), bs, l. split; [done|]. split; [|split; [done|lia]]. apply (a_get _ _ _ p.2 c); [done|lia|].
    intros w Hw. apply (Hc off w Hw).
  - exists 0, bs, l. split; [done|]. split; [|split; [done|lia]]. apply a_get_none. rewrite Hb. intros b [= <-]. cbn. intros ?.
    apply andb_false_iff in Eoff as [?|?]; lia.
Qed.

Lemma step_refines s l ps bs o fuel :
  represents s l ps bs -> op_ok o -> (2 * length l + 3 <= fuel)%nat ->
  exists s' ps' out bs' l', cstep base fuel o ps s = Ok (ps', out) s' /\ astep o bs out bs' /\ represents s' l' ps' bs' /\
    (length l' <= S (length l))%nat.
Proof. intros Hr Ho Hf. destruct o; [by apply step_malloc|by apply step_free|by apply step_put|by apply step_get]. Qed.

(** C32. The user allocator gives every program separate blocks. A program that starts with
    an unused heap, and then allocates, frees, writes and reads bytes inside the blocks it
    holds in any order, never gets stuck, and every answer is one the abstract store gives,
    in which each block is a memory of its own: a read finds the byte last written to that
    place of that block, whatever happened to the others. The kernel may refuse memory at
    any time, and then [malloc] answers 0. When nothing is held any more the whole heap is
    one free block again. *)
Theorem allocator_refines_store os s fuel :
  h_freep s = 0 -> h_brk s = start -> start < 2 ^ 31 -> Forall op_ok os -> (2 * length os + 3 <= fuel)%nat ->
  exists s' ps outs bs, crun base fuel os [] s = Ok (ps, outs) s' /\ arun os [] outs bs /\ Forall2 (shows_block (h_mem s')) ps bs /\
    exists l, heap_at base start s' l (block_of <$> ps) /\
      (ps = [] -> l = [] /\ h_brk s' = start \/ l = [(start, (h_brk s' - start) / HDR)]).
Proof.
  intros Hf Hb Hs Hos Hfuel.
  assert (forall os s l ps bs, represents s l ps bs -> Forall op_ok os -> (2 * (length l + length os) + 3 <= fuel)%nat ->
    exists s' ps' outs bs' l', crun base fuel os ps s = Ok (ps', outs) s' /\ arun os bs outs bs' /\ represents s' l' ps' bs') as Hrun.
  { clear Hf Hb Hs Hos Hfuel os s. induction os as [|o os IH]; intros s l ps bs Hr Hos Hfuel.
    - exists s, ps, [], bs, l. split; [done|]. split; [constructor|done].
    - apply Forall_cons_1 in Hos as [Ho Hos]. simpl in Hfuel.
      destruct (step_refines s l ps bs o fuel Hr Ho) as (s1 & ps1 & out & bs1 & l1 & E1 & Ha1 & Hr1 & Hl1); [lia|].
      destruct (IH s1 l1 ps1 bs1 Hr1 Hos) as (s2 & ps2 & outs & bs2 & l2 & E2 & Ha2 & Hr2); [lia|].
      exists s2, ps2, (out :: outs), bs2, l2. cbn [crun]. rewrite (bind_ok _ _ _ _ _ E1). cbv beta iota. rewrite (bind_ok _ _ _ _ _ E2).
      split; [done|]. split; [by econstructor|done]. }
  destruct (Hrun os s [] [] []) as (s' & ps & outs & bs & l & E & Ha & Hat & Hsh); [split; [by right|constructor]|done|simpl; lia|].
  exists s', ps, outs, bs. split; [done|]. split; [done|]. split; [done|]. exists l. split; [done|]. intros ->.
  destruct Hat as [Hok|(_ & -> & _ & ? & _)]; [by apply (heap_coalesced base)|by left].
Qed.
End Refine.

(** Two blocks of 10 and 20 bytes, written and read, given back in the other order. *)
Definition sample_ops : list cop :=
  [Malloc 10; Malloc 20; Put 0 3 7; Put 1 3 9; Get 0 3; Free 1; Malloc 5; Get 1 3; Free 0; Free 0].

Definition sample_heap : heap := mkHeap (fun _ => 0) 0 8192 [true].

Lemma allocator_refines_store_witness :
  (exists s' ps outs bs, crun 4096 23 sample_ops [] sample_heap = Ok (ps, outs) s' /\ arun sample_ops [] outs bs /\
    Forall2 (shows_block (h_mem s')) ps bs /\
    exists l, heap_at 4096 8192 s' l (block_of <$> ps) /\
      (ps = [] -> l = [] /\ h_brk s' = 8192 \/ l = [(8192, (h_brk s' - 8192) / HDR)])) /\
  match crun 4096 23 sample_ops [] sample_heap with
  | Ok (ps, outs) s' => ps = [] /\ outs = [1; 1; 0; 0; 7; 0; 1; 7; 0; 0] /\ h_brk s' = 8192 + 8 * 4096
  | _ => False
  end.
Proof.
  split; [|vm_compute; repeat split].
  apply (allocator_refines_store 4096 8192); [lia|unfold HDR; lia|reflexivity|reflexivity|lia|unfold sample_ops, op_ok, is_u8; repeat constructor; lia|simpl; lia].
Defined.
