(* ===== verification/Sh.v ===== *)
(** * The shell ([sh.c])

    The parser runs on the characters that are left of the command line; a pointer into
    the line is its distance from the end [es]. Allocation of the nodes of the tree does
    not fail. A command is run as a sequence of system calls whose answers decide what
    comes next. *)

From S2P Require Import Prelude Params Strings State Locks Printf.

Definition MAXARGS : nat := 10.

(** A token from [q] to [eq]. *)
Record span := mkSpan { sp_q : nat; sp_eq : nat }.

(** [struct cmd] and its variants, over tokens of type [T]. *)
Inductive cmd (T : Type) :=
| EXEC (argv : list T)
| REDIR (c : cmd T) (file : T) (mode fd : Z)
| PIPE (left right : cmd T)
| LIST (left right : cmd T)
| BACK (c : cmd T).
Arguments EXEC {T} _.
Arguments REDIR {T} _ _ _ _.
Arguments PIPE {T} _ _.
Arguments LIST {T} _ _.
Arguments BACK {T} _.

(** ** Tokens *)

Definition whitespace : list Z := [32; 9; 13; 10; 11].
Definition symbols : list Z := str "<|>&;()".

(** [strchr(l, c) != 0] *)
Definition strchr (l : list Z) (c : Z) : bool := existsb (Z.eqb c) l.

Definition is_ws (c : Z) : bool := strchr whitespace c.
Definition is_word (c : Z) : bool := negb (strchr whitespace c) && negb (strchr symbols c).

(** [while(s < es && ...) s++] *)
Fixpoint skip (f : Z -> bool) (s : list Z) : list Z :=
  match s with
  | c :: s' => if f c then skip f s' else s
  | [] => []
  end.

(** [*s]; the line is followed by a NUL. *)
Definition char_at (s : list Z) : Z := hd 0 s.

Definition P (A : Type) : Type := M (list Z) A.

(** Where the token ends, and what it is. *)
Definition token_end (s : list Z) : list Z * Z :=
  let c := char_at s in
  if c =? 0 then (s, 0)
  else if strchr (str "|();&<") c then (tl s, c)
  else if c =? 62 then
    let s := tl s in
    if char_at s =? 62 then (tl s, 43) else (s, 62)
  else (skip is_word s, 97).

Definition gettoken : P (Z * span) :=
  s <- get ;;
  let q := skip is_ws s in
  let '(eq, r) := token_end q in
  modify (fun _ => skip is_ws eq) ;;
  ret (r, mkSpan (length q) (length eq)).

Definition peek (toks : list Z) : P bool :=
  s <- get ;;
  let s := skip is_ws s in
  modify (fun _ => s) ;;
  ret (nz (char_at s) && strchr toks (char_at s)).

(** ** Commands *)

Definition redirection {T} (tok : Z) (c : cmd T) (f : T) : cmd T :=
  if tok =? 60 then REDIR c f O_RDONLY 0
  else if tok =? 62 then REDIR c f (Z.lor O_WRONLY O_CREATE) 1
  else if tok =? 43 then REDIR c f (Z.lor O_WRONLY O_CREATE) 1
  else c.

(** [parseredirs]: the redirections met, as they wrap the command; [n] bounds them. *)
Fixpoint parseredirs (n : nat) : P (list (Z * span)) :=
  b <- peek (str "<>") ;;
  if negb b then ret [] else
  match n with
  | O => spin
  | S n' =>
      t <- gettoken ;;
      f <- gettoken ;;
      if negb (fst f =? 97) then panic "missing file for redirection" else
      rs <- parseredirs n' ;;
      ret ((fst t, snd f) :: rs)
  end.

Definition wrap {T} (c : cmd T) (rs : list (Z * T)) : cmd T := fold_left (fun c r => redirection (fst r) c (snd r)) rs c.

(** The loop of [parseexec]: the arguments after [argc] others, and the redirections. *)
Fixpoint parseargs (n argc : nat) : P (list span * list (Z * span)) :=
  b <- peek (str "|)&;") ;;
  if (b : bool) then ret ([], []) else
  t <- gettoken ;;
  if fst t =? 0 then ret ([], []) else
  if negb (fst t =? 97) then panic "syntax" else
  if (MAXARGS <=? S argc)%nat then panic "too many args" else
  match n with
  | O => spin
  | S n' =>
      rs <- parseredirs n ;;
      r <- parseargs n' (S argc) ;;
      ret (snd t :: fst r, rs ++ snd r)
  end.

(** [while(peek(ps, es, "&"))] *)
Fixpoint parseback (n : nat) (c : cmd span) : P (cmd span) :=
  b <- peek (str "&") ;;
  if negb b then ret c else
  match n with
  | O => spin
  | S n' => gettoken ;; parseback n' (BACK c)
  end.

(** The grammar; [n] bounds the depth of the calls and the length of the loops. *)
Fixpoint parseline (n : nat) : P (cmd span) :=
  match n with
  | O => spin
  | S n' =>
      c <- parsepipe n' ;;
      c <- parseback n c ;;
      b <- peek (str ";") ;;
      if (b : bool) then gettoken ;; c' <- parseline n' ;; ret (LIST c c') else ret c
  end
with parsepipe (n : nat) : P (cmd span) :=
  match n with
  | O => spin
  | S n' =>
      c <- parseexec n' ;;
      b <- peek (str "|") ;;
      if (b : bool) then gettoken ;; c' <- parsepipe n' ;; ret (PIPE c c') else ret c
  end
with parseexec (n : nat) : P (cmd span) :=
  match n with
  | O => spin
  | S n' =>
      b <- peek (str "(") ;;
      if (b : bool) then parseblock n' else
      rs <- parseredirs n ;;
      r <- parseargs n 0 ;;
      ret (wrap (EXEC (fst r)) (rs ++ snd r))
  end
with parseblock (n : nat) : P (cmd span) :=
  match n with
  | O => spin
  | S n' =>
      b <- peek (str "(") ;;
      if negb b then panic "parseblock" else
      gettoken ;;
      c <- parseline n' ;;
      b <- peek (str ")") ;;
      if negb b then panic "syntax - missing )" else
      gettoken ;;
      rs <- parseredirs n ;;
      ret (wrap c rs)
  end.

(** Four calls for each character that nests a command, and four to start with. *)
Definition parse_fuel (s : list Z) : nat := 4 * length s + 5.

(** [parsecmd] up to [nulterminate]. *)
Definition parsetree (s : list Z) : P (cmd span) :=
  modify (fun _ => s) ;;
  c <- parseline (parse_fuel s) ;;
  peek [] ;;
  s <- get ;;
  match s with
  | [] => ret c
  | _ => panic "leftovers"
  end.

(** ** nulterminate *)

(** [*p = 0] for the pointer at distance [d] from the end of a line of [n] characters;
    the line is stored with its NUL. *)
Definition put_nul (n d : nat) (buf : list Z) : list Z := <[(n - d)%nat := 0]> buf.

Fixpoint nulterminate (n : nat) (c : cmd span) (buf : list Z) : list Z :=
  match c with
  | EXEC argv => fold_left (fun b a => put_nul n (sp_eq a) b) argv buf
  | REDIR c f _ _ => put_nul n (sp_eq f) (nulterminate n c buf)
  | PIPE l r | LIST l r => nulterminate n r (nulterminate n l buf)
  | BACK c => nulterminate n c buf
  end.

(** The tree and the line it points into. *)
Definition parsecmd (s : list Z) : P (cmd span * list Z) :=
  c <- parsetree s ;;
  ret (c, nulterminate (length s) c (s ++ [0])).

(** ** Running *)

(** System calls with their arguments. *)
Inductive call :=
| Cfork | Cwait | Cexec (argv : list (list Z)) | Cclose (fd : Z) | Copen (file : list Z) (mode : Z)
| Cpipe | Cdup (fd : Z) | Cprintf (l : list Z) | Cchdir (path : list Z) | Cgets (max : Z).

(** A process: it exits, or makes a call and goes on with the answer. The answer of [pipe]
    is its two descriptors, that of [gets] the line read, that of the others a single
    number. *)
Inductive prog :=
| Exit
| Sys (c : call) (k : list Z -> prog).

Definition answer (l : list Z) : Z := hd (-1) l.

Definition sh_panic (s : list Z) : prog := Sys (Cprintf (s ++ [10])) (fun _ => Exit).

Definition fork1 (child parent : prog) : prog :=
  Sys Cfork (fun r => if answer r =? -1 then sh_panic (str "fork") else if answer r =? 0 then child else parent).

(** The string at distance [d] from the end of the line. *)
Definition string_of (buf : list Z) (n d : nat) : list Z :=
  let l := drop (n - d) buf in take (length l - length (skip (fun c => negb (c =? 0)) l)) l.

Section Run.
(** The line the command points into, and its length. *)
Context (buf : list Z) (n : nat).

Fixpoint runcmd (c : cmd span) : prog :=
  match c with
  | EXEC argv =>
      match argv with
      | [] => Exit
      | a :: _ =>
          Sys (Cexec ((fun a => string_of buf n (sp_q a)) <$> argv)) (fun _ =>
          Sys (Cprintf (str "exec " ++ string_of buf n (sp_q a) ++ str " failed" ++ [10])) (fun _ => Exit))
      end
  | REDIR c f mode fd =>
      Sys (Cclose fd) (fun _ =>
      Sys (Copen (string_of buf n (sp_q f)) mode) (fun r =>
      if answer r <? 0 then Sys (Cprintf (str "open " ++ string_of buf n (sp_q f) ++ str " failed" ++ [10])) (fun _ => Exit)
      else runcmd c))
  | LIST l r => fork1 (runcmd l) (Sys Cwait (fun _ => runcmd r))
  | PIPE l r =>
      Sys Cpipe (fun p =>
      match p with
      | [p0; p1] =>
          fork1 (Sys (Cclose 1) (fun _ => Sys (Cdup p1) (fun _ => Sys (Cclose p0) (fun _ => Sys (Cclose p1) (fun _ => runcmd l)))))
         (fork1 (Sys (Cclose 0) (fun _ => Sys (Cdup p0) (fun _ => Sys (Cclose p0) (fun _ => Sys (Cclose p1) (fun _ => runcmd r)))))
          (Sys (Cclose p0) (fun _ => Sys (Cclose p1) (fun _ => Sys Cwait (fun _ => Sys Cwait (fun _ => Exit))))))
      | _ => sh_panic (str "pipe")
      end)
  | BACK c => fork1 (runcmd c) Exit
  end.
End Run.

(** What the child does with a command line. *)
Definition run_line (line : list Z) : prog :=
  match parsecmd line [] with
  | Ok (c, buf) _ => runcmd buf (length line) c
  | Panic msg rest =>
      if bool_decide (msg = "leftovers"%string)
      then Sys (Cprintf (str "leftovers: " ++ rest ++ [10])) (fun _ => sh_panic (str "syntax"))
      else sh_panic (str msg)
  | _ => Exit
  end.

(** The part of [main] that handles a line; [next] is the rest of the loop. *)
Definition handle_line (line : list Z) (next : prog) : prog :=
  match line with
  | 99 :: 100 :: 32 :: _ =>
      let path := drop 3 (removelast line) in
      Sys (Cchdir path) (fun r =>
      if answer r <? 0 then Sys (Cprintf (str "cannot cd " ++ path ++ [10])) (fun _ => next) else next)
  | _ => fork1 (run_line line) (Sys Cwait (fun _ => next))
  end.

(** The first [n] rounds of the loop of [main]. *)
Fixpoint main_loop (n : nat) : prog :=
  match n with
  | O => Exit
  | S n' =>
      Sys (Cprintf (str "$ ")) (fun _ =>
      Sys (Cgets 100) (fun line =>
      match line with
      | [] => Exit
      | _ => handle_line line (main_loop n')
      end))
  end.

(** [while((fd = open("console", O_RDWR)) >= 0) if(fd >= 3)]; [n] bounds the descriptors
    it opens. *)
Fixpoint open_fds (n : nat) (next : prog) : prog :=
  match n with
  | O => next
  | S n' =>
      Sys (Copen (str "console") O_RDWR) (fun r =>
      if answer r <? 0 then next
      else if 3 <=? answer r then Sys (Cclose (answer r)) (fun _ => next) else open_fds n' next)
  end.

Definition main (n : nat) : prog := open_fds NOFILE (main_loop n).
