(* ===== verification/ShSpec.v ===== *)
(** * Properties of the shell

    The parser terminates on every line; the tokens it finds are words of the line and
    become C strings; a printed command line is read back; and the processes of a
    pipeline hold exactly the ends of the pipe they should. *)

From S2P Require Import Prelude Params Strings State Locks Printf Sh.

(** ** A logic for the parser

    [safe m s Q]: from [s], [m] returns and [Q] holds, or stops with a message. *)

Definition safe {A} (m : P A) (s : list Z) (Q : A -> list Z -> Prop) : Prop :=
  match m s with
  | Ok a s' => Q a s'
  | Panic _ _ => True
  | _ => False
  end.

Lemma safe_ret {A} (a : A) s (Q : A -> list Z -> Prop) : Q a s -> safe (ret a) s Q.
Proof. done. Qed.

Lemma safe_panic {A} msg s (Q : A -> list Z -> Prop) : safe (panic msg) s Q.
Proof. done. Qed.

Lemma safe_bind {A B} (m : P A) (f : A -> P B) s Q R :
  safe m s R -> (forall a s', R a s' -> safe (f a) s' Q) -> safe (bind m f) s Q.
Proof. unfold safe, bind. destruct (m s); try done. intros Ha Hf. by apply Hf. Qed.

Lemma safe_weaken {A} (m : P A) s (Q R : A -> list Z -> Prop) :
  safe m s Q -> (forall a s', Q a s' -> R a s') -> safe m s R.
Proof. unfold safe. destruct (m s); auto. Qed.

(** ** Tokens *)

Lemma skip_app f s : exists p, s = p ++ skip f s /\ Forall (fun c => f c = true) p.
Proof.
  induction s as [|c s IH]; simpl; [by exists []|]. destruct (f c) eqn:E.
  - destruct IH as (p & Hp & Hf). exists (c :: p). split; [by rewrite Hp at 1|by constructor].
  - by exists [].
Qed.

Lemma skip_hd f s c l : skip f s = c :: l -> f c = false.
Proof. induction s as [|d s IH]; simpl; [done|]. destruct (f d) eqn:E; [done|]. by intros [= <- _]. Qed.

Lemma skip_stop f c s : f c = false -> skip f (c :: s) = c :: s.
Proof. simpl. by intros ->. Qed.

Lemma skip_suffix f s : skip f s `suffix_of` s.
Proof. destruct (skip_app f s) as (p & Hp & _). by exists p. Qed.

Lemma skip_over f p s : Forall (fun c => f c = true) p -> skip f (p ++ s) = skip f s.
Proof. induction 1 as [|c p Hc _ IH]; simpl; [done|]. by rewrite Hc. Qed.

(** The tokens of a command. *)
Fixpoint tokens {T} (c : cmd T) : list T :=
  match c with
  | EXEC argv => argv
  | REDIR c f _ _ => tokens c ++ [f]
  | PIPE l r | LIST l r => tokens l ++ tokens r
  | BACK c => tokens c
  end.

Lemma tokens_redirection {T} (Q : T -> Prop) tok (c : cmd T) f :
  Forall Q (tokens c) -> Q f -> Forall Q (tokens (redirection tok c f)).
Proof.
  intros Hc Hf. unfold redirection. destruct (tok =? 60), (tok =? 62), (tok =? 43); simpl; try done;
    apply Forall_app; (split; [done|]); by constructor.
Qed.

Lemma tokens_wrap {T} (Q : T -> Prop) (c : cmd T) rs :
  Forall Q (tokens c) -> Forall (fun r => Q (snd r)) rs -> Forall Q (tokens (wrap c rs)).
Proof.
  intros Hc Hrs. revert c Hc. induction Hrs as [|r rs Hr _ IH]; intros c Hc; [done|]. simpl.
  apply IH. by apply tokens_redirection.
Qed.

Lemma skip_skip f s : skip f (skip f s) = skip f s.
Proof. destruct (skip f s) as [|c l] eqn:E; [done|]. apply skip_stop. by eapply skip_hd. Qed.

Lemma char_skipped s : is_ws (char_at (skip is_ws s)) = false.
Proof. destruct (skip is_ws s) as [|c l] eqn:E; [done|]. by apply skip_hd in E. Qed.

Section Line.
Context (buf : list Z) (Hbuf : 0 ∉ buf).

(** A word of the line: word characters, followed by something else. *)
Definition is_token (a : span) : Prop :=
  exists p w r, buf = p ++ w ++ r /\ w <> [] /\ Forall (fun c => is_word c = true) w /\
    (forall c r', r = c :: r' -> is_word c = false) /\ sp_q a = length (w ++ r) /\ sp_eq a = length r.

Lemma char_at_suffix s : s `suffix_of` buf -> char_at s = 0 <-> s = [].
Proof.
  intros [p Hp]. split; [|by intros ->]. destruct s as [|c s]; [done|]. simpl. intros ->. exfalso. apply Hbuf. rewrite Hp. set_solver.
Qed.

Lemma tl_suffix {A} (s : list A) : tl s `suffix_of` s.
Proof. destruct s as [|c s]; [done|]. by exists [c]. Qed.

Lemma suffix_length_le {A} (a b : list A) : a `suffix_of` b -> (length a <= length b)%nat.
Proof. intros [p ->]. rewrite length_app. lia. Qed.

Lemma symbols_split c : strchr symbols c = strchr (str "|();&<") c || (c =? 62).
Proof.
  change symbols with [60; 124; 62; 38; 59; 40; 41]. change (str "|();&<") with [124; 40; 41; 59; 38; 60].
  unfold strchr. simpl. destruct (c =? 60), (c =? 124), (c =? 62), (c =? 38), (c =? 59), (c =? 40), (c =? 41); done.
Qed.

(** Where a token ends: nothing is left, or at least a character is consumed. *)
Lemma token_end_spec s :
  s `suffix_of` buf -> is_ws (char_at s) = false ->
  let '(e, r) := token_end s in
  e `suffix_of` s /\ (s <> [] -> (length e < length s)%nat /\ r <> 0) /\ (r <> 0 -> s <> []) /\
  (r = 97 -> is_token (mkSpan (length s) (length e))).
Proof.
  intros Hs Hws. unfold token_end. pose proof (char_at_suffix s Hs) as H0.
  destruct (Z.eqb_spec (char_at s) 0) as [E|E].
  { split; [done|]. split; [intros Hne; by apply H0 in E|]. by split. }
  assert (s <> []) as Hne by (by intros ->). assert (length (tl s) < length s)%nat as Hlt by (destruct s; simpl in *; [done|lia]).
  destruct (strchr (str "|();&<") (char_at s)) eqn:Es.
  { split; [apply tl_suffix|]. split; [done|]. split; [done|]. intros E97. by rewrite E97 in Es. }
  destruct (Z.eqb_spec (char_at s) 62) as [Eg|Eg].
  { pose proof (tl_suffix (tl s)) as Ht. destruct (char_at (tl s) =? 62).
    - split; [etransitivity; [exact Ht|apply tl_suffix]|]. split; [|by split]. intros _. split; [|done].
      apply suffix_length_le in Ht. lia.
    - split; [apply tl_suffix|done]. }
  assert (is_word (char_at s) = true) as Hw.
  { unfold is_word, is_ws in *. rewrite Hws, symbols_split, Es, (proj2 (Z.eqb_neq _ _) Eg). done. }
  destruct (skip_app is_word s) as (w & Hsplit & Hall). split; [apply skip_suffix|].
  assert (w <> []) as Hwne.
  { intros ->. simpl in Hsplit. destruct s as [|c s0]; [done|]. simpl in Hsplit, Hw. rewrite Hw in Hsplit.
    apply (f_equal length) in Hsplit. pose proof (suffix_length_le _ _ (skip_suffix is_word s0)). simpl in *. lia. }
  split; [|split; [done|]].
  - intros _. split; [|done]. rewrite Hsplit at 2. rewrite length_app. destruct w; [done|simpl; lia].
  - intros _. destruct Hs as [p Hp]. exists p, w, (skip is_word s). split_and!; try done.
    + by rewrite <- Hsplit.
    + intros c r' E'. by eapply skip_hd.
    + simpl. by rewrite <- Hsplit.
Qed.

(** Progress of the scanner. *)
Lemma gettoken_safe s :
  s `suffix_of` buf ->
  safe gettoken s (fun r s' => s' `suffix_of` s /\
    (skip is_ws s <> [] -> (length s' < length s)%nat /\ fst r <> 0) /\ (fst r <> 0 -> skip is_ws s <> []) /\
    (fst r = 97 -> is_token (snd r))).
Proof.
  intros Hs. unfold gettoken, safe, bind, get. pose proof (skip_suffix is_ws s) as Hq.
  pose proof (token_end_spec (skip is_ws s)) as Ht. destruct (token_end (skip is_ws s)) as [e r].
  destruct Ht as (He & Hne & H0 & Htok); [by etransitivity|apply char_skipped|]. simpl.
  pose proof (skip_suffix is_ws e) as Hse. split_and!.
  - by do 2 (etransitivity; [eassumption|]).
  - intros Hn. destruct (Hne Hn) as [Hlt Hr]. split; [|done].
    apply suffix_length_le in Hse, Hq. lia.
  - done.
  - done.
Qed.

Lemma peek_safe toks s :
  s `suffix_of` buf ->
  safe (peek toks) s (fun b s' => s' `suffix_of` s /\ skip is_ws s' = s' /\ (b = true -> s' <> [])).
Proof.
  intros Hs. unfold peek, safe, bind, get. simpl. split; [apply skip_suffix|]. split; [apply skip_skip|].
  intros Hb%andb_true_iff Hnil. rewrite Hnil in Hb. by destruct Hb.
Qed.

(** A parser that only moves forward. *)
Definition forward {A} (m : P A) (s : list Z) (Q : A -> Prop) : Prop := safe m s (fun a s' => s' `suffix_of` s /\ Q a).

Lemma forward_bind {A B} (m : P A) (f : A -> P B) s R Q :
  safe m s (fun a s' => s' `suffix_of` s /\ R a s') ->
  (forall a s', s' `suffix_of` s -> R a s' -> forward (f a) s' Q) -> forward (bind m f) s Q.
Proof.
  intros Hm Hf. eapply safe_bind; [exact Hm|]. intros a s' [Hs Ha]. simpl.
  eapply safe_weaken; [by apply Hf|]. intros b s'' [Hs' Hb]. split; [by etransitivity|done].
Qed.

Definition redirs_ok (rs : list (Z * span)) : Prop := Forall (fun r => is_token (snd r)) rs.

Lemma parseredirs_safe n s :
  s `suffix_of` buf -> (length s <= n)%nat -> forward (parseredirs n) s redirs_ok.
Proof.
  revert s. induction n as [|n IH]; intros s Hs Hn; cbn [parseredirs].
  - eapply forward_bind; [by apply peek_safe|]. intros [] s1 Hs1 [_ Hb]; simpl.
    + apply suffix_length_le in Hs1. destruct s1; [by destruct Hb|]. simpl in *. lia.
    + apply safe_ret. split; [done|constructor].
  - eapply forward_bind; [by apply peek_safe|]. intros [] s1 Hs1 [Hsk Hb]; simpl; cycle 1.
    { apply safe_ret. split; [done|constructor]. }
    assert (s1 `suffix_of` buf) as Hs1' by by etransitivity.
    eapply forward_bind; [by apply gettoken_safe|]. intros t s2 Hs2 [Hlt _]. rewrite Hsk in Hlt.
    destruct (Hlt (Hb eq_refl)) as [Hlen _]. assert (s2 `suffix_of` buf) as Hs2' by by etransitivity.
    eapply forward_bind; [by apply gettoken_safe|]. intros f s3 Hs3 (_ & _ & Hf).
    destruct (Z.eqb_spec (fst f) 97); simpl; [|done].
    eapply (forward_bind _ _ _ (fun rs _ => redirs_ok rs)).
    + apply IH; [by etransitivity|]. apply suffix_length_le in Hs1, Hs3. lia.
    + intros rs s4 _ Hrs. apply safe_ret. split; [done|]. constructor; auto.
Qed.

Definition args_ok (r : list span * list (Z * span)) : Prop := Forall is_token (fst r) /\ redirs_ok (snd r).

Lemma parseargs_safe n argc s :
  s `suffix_of` buf -> (length s <= n)%nat -> forward (parseargs n argc) s args_ok.
Proof.
  assert (args_ok ([], [])) as Hnil by (split; constructor).
  revert argc s. induction n as [|n IH]; intros argc s Hs Hn; cbn [parseargs];
    (eapply forward_bind; [by apply peek_safe|]); intros [] s1 Hs1 [Hsk _]; cbv iota; try by apply safe_ret.
  all: assert (s1 `suffix_of` buf) as Hs1' by by etransitivity.
  all: eapply forward_bind; [by apply gettoken_safe|]; intros t s2 Hs2 (Hlt & Hne & Ht); rewrite Hsk in Hlt, Hne.
  all: destruct (Z.eqb_spec (fst t) 0) as [E0|E0]; [by apply safe_ret|].
  all: destruct (Z.eqb_spec (fst t) 97) as [E97|E97]; cbv [negb]; [|done].
  all: destruct (MAXARGS <=? S argc)%nat; [done|].
  all: specialize (Hne E0); destruct (Hlt Hne) as [Hlen _]; apply suffix_length_le in Hs1; try lia.
  assert (s2 `suffix_of` buf) as Hs2' by by etransitivity.
  eapply (forward_bind _ _ _ (fun rs _ => redirs_ok rs)); [apply parseredirs_safe; [done|lia]|].
  intros rs s3 Hs3 Hrs. pose proof (suffix_length_le _ _ Hs3).
  eapply (forward_bind _ _ _ (fun r _ => args_ok r)); [apply IH; [by etransitivity|lia]|].
  intros r s4 _ [Ha Hr]. apply safe_ret. split; [done|]. split; simpl; [by constructor; auto|by apply Forall_app].
Qed.

Definition cmd_ok (c : cmd span) : Prop := Forall is_token (tokens c).

Lemma parseback_safe n c s :
  s `suffix_of` buf -> (length s <= n)%nat -> cmd_ok c -> forward (parseback n c) s cmd_ok.
Proof.
  revert c s. induction n as [|n IH]; intros c s Hs Hn Hc; cbn [parseback];
    (eapply forward_bind; [by apply peek_safe|]); intros [] s1 Hs1 [Hsk Hb]; simpl; try by apply safe_ret.
  all: specialize (Hb eq_refl); pose proof (suffix_length_le _ _ Hs1).
  - destruct s1; [done|]. simpl in *. lia.
  - assert (s1 `suffix_of` buf) as Hs1' by by etransitivity.
    eapply forward_bind; [by apply gettoken_safe|]. intros t s2 Hs2 (Hlt & _ & _). rewrite Hsk in Hlt.
    destruct (Hlt Hb) as [Hlen _]. apply IH; [by etransitivity|lia|done].
Qed.

(** Every call of the grammar's routines has depth enough. *)
Lemma parse_safe n :
  (forall s, s `suffix_of` buf -> (4 * length s + 4 <= n)%nat -> forward (parseline n) s cmd_ok) /\
  (forall s, s `suffix_of` buf -> (4 * length s + 3 <= n)%nat -> forward (parsepipe n) s cmd_ok) /\
  (forall s, s `suffix_of` buf -> (4 * length s + 2 <= n)%nat -> forward (parseexec n) s cmd_ok) /\
  (forall s, s `suffix_of` buf -> (4 * length s + 1 <= n)%nat -> forward (parseblock n) s cmd_ok).
Proof.
  induction n as [|n (IHl & IHp & IHe & IHb)]; [split_and!; intros; lia|].
  assert (forall toks s, s `suffix_of` buf -> forall (f : bool -> P (cmd span)) Q,
    (forall b s1, s1 `suffix_of` s -> s1 `suffix_of` buf -> skip is_ws s1 = s1 /\ (b = true -> s1 <> []) -> forward (f b) s1 Q) ->
    forward (bind (peek toks) f) s Q) as Hpeek.
  { intros toks s Hs f Q Hf. eapply forward_bind; [by apply peek_safe|]. intros b s1 Hs1 Hb. apply Hf; [done|by etransitivity|done]. }
  assert (forall s, s `suffix_of` buf -> skip is_ws s = s -> s <> [] -> forall (f : Z * span -> P (cmd span)) Q,
    (forall t s1, s1 `suffix_of` buf -> (length s1 < length s)%nat -> forward (f t) s1 Q) ->
    forward (bind gettoken f) s Q) as Htok.
  { intros s Hs Hsk Hne f Q Hf. eapply forward_bind; [by apply gettoken_safe|]. intros t s1 Hs1 (Hlt & _). rewrite Hsk in Hlt.
    apply Hf; [by etransitivity|by apply Hlt]. }
  split_and!; intros s Hs Hn; pose proof (suffix_length_le _ _ Hs).
  - cbn [parseline]. eapply (forward_bind _ _ _ (fun c _ => cmd_ok c)); [apply IHp; [done|lia]|].
    intros c s1 Hs1 Hc. pose proof (suffix_length_le _ _ Hs1). assert (s1 `suffix_of` buf) as Hs1' by by etransitivity.
    eapply (forward_bind _ _ _ (fun c _ => cmd_ok c)); [apply parseback_safe; [done|lia|done]|].
    intros c' s2 Hs2 Hc'. pose proof (suffix_length_le _ _ Hs2). apply Hpeek; [by etransitivity|].
    intros [] s3 Hs3 Hs3' [Hsk Hb]; [|by apply safe_ret]. pose proof (suffix_length_le _ _ Hs3).
    apply Htok; auto. intros t s4 Hs4 Hlen.
    eapply (forward_bind _ _ _ (fun c _ => cmd_ok c)); [apply IHl; [done|lia]|].
    intros c2 s5 _ Hc2. apply safe_ret. split; [done|]. unfold cmd_ok in *. simpl. by apply Forall_app.
  - cbn [parsepipe]. eapply (forward_bind _ _ _ (fun c _ => cmd_ok c)); [apply IHe; [done|lia]|].
    intros c s1 Hs1 Hc. pose proof (suffix_length_le _ _ Hs1). apply Hpeek; [by etransitivity|].
    intros [] s3 Hs3 Hs3' [Hsk Hb]; [|by apply safe_ret]. pose proof (suffix_length_le _ _ Hs3).
    apply Htok; auto. intros t s4 Hs4 Hlen.
    eapply (forward_bind _ _ _ (fun c _ => cmd_ok c)); [apply IHp; [done|lia]|].
    intros c2 s5 _ Hc2. apply safe_ret. split; [done|]. unfold cmd_ok in *. simpl. by apply Forall_app.
  - cbn [parseexec]. apply Hpeek; [done|]. intros [] s1 Hs1 Hs1' _; pose proof (suffix_length_le _ _ Hs1).
    { apply IHb; [done|lia]. }
    eapply (forward_bind _ _ _ (fun rs _ => redirs_ok rs)); [apply parseredirs_safe; [done|lia]|].
    intros rs s2 Hs2 Hrs. pose proof (suffix_length_le _ _ Hs2).
    eapply (forward_bind _ _ _ (fun r _ => args_ok r)); [apply parseargs_safe; [by etransitivity|lia]|].
    intros r s3 _ [Ha Hr]. apply safe_ret. split; [done|]. apply tokens_wrap; [done|by apply Forall_app].
  - cbn [parseblock]. apply Hpeek; [done|]. intros [] s1 Hs1 Hs1' [Hsk Hb]; [|done]. cbv [negb]. pose proof (suffix_length_le _ _ Hs1).
    apply Htok; auto. intros t s2 Hs2 Hlen.
    eapply (forward_bind _ _ _ (fun c _ => cmd_ok c)); [apply IHl; [done|lia]|].
    intros c s3 Hs3 Hc. pose proof (suffix_length_le _ _ Hs3). apply Hpeek; [by etransitivity|].
    intros [] s4 Hs4 Hs4' [Hsk4 Hb4]; [|done]. cbv [negb]. pose proof (suffix_length_le _ _ Hs4).
    apply Htok; auto. intros t' s5 Hs5 Hlen5.
    eapply (forward_bind _ _ _ (fun rs _ => redirs_ok rs)); [apply parseredirs_safe; [done|lia]|].
    intros rs s6 _ Hrs. apply safe_ret. split; [done|]. by apply tokens_wrap.
Qed.
End Line.

(** ** Tokens become strings *)

Definition text (s : list Z) (a : span) : list Z := take (sp_q a - sp_eq a) (drop (length s - sp_q a) s).

Lemma nulterminate_fold n c b : nulterminate n c b = fold_left (fun b a => put_nul n (sp_eq a) b) (tokens c) b.
Proof.
  revert b. induction c as [argv|c IH f m fd|l IHl r IHr|l IHl r IHr|c IH]; intros b; simpl; try done.
  - by rewrite fold_left_app, IH.
  - by rewrite fold_left_app, IHl, IHr.
  - by rewrite fold_left_app, IHl, IHr.
Qed.

Lemma put_nuls_lookup n l b i :
  fold_left (fun b a => put_nul n (sp_eq a) b) l b !! i =
  if decide (i ∈ (fun a => n - sp_eq a)%nat <$> l) then (fun _ => 0) <$> b !! i else b !! i.
Proof.
  revert b. induction l as [|a l IH]; intros b; [done|]. cbn [fold_left]. rewrite IH. unfold put_nul.
  assert (forall x : option Z, (fun _ => 0) <$> ((fun _ : Z => 0) <$> x) = (fun _ => 0) <$> x) as Hid by by intros [].
  destruct (decide (i = n - sp_eq a)%nat) as [->|Hne].
  - rewrite (decide_True (P := _ ∈ _ <$> (a :: l))) by (rewrite fmap_cons; set_solver).
    destruct (decide ((n - sp_eq a)%nat < length b)%nat) as [Hlt|Hge].
    + rewrite list_lookup_insert_eq by done. destruct (b !! _) as [x|] eqn:E; [|by apply lookup_ge_None in E; lia].
      by destruct (decide _).
    + rewrite list_insert_ge by lia. rewrite (lookup_ge_None_2 b) by lia. by destruct (decide _).
  - rewrite list_lookup_insert_ne by done. rewrite fmap_cons.
    destruct (decide (i ∈ _ <$> l)), (decide (i ∈ _ :: _)); set_solver.
Qed.

Lemma skip_word w r : Forall (fun c => c <> 0) w -> skip (fun c => negb (c =? 0)) (w ++ 0 :: r) = 0 :: r.
Proof. intros Hw. rewrite skip_over; [by apply skip_stop|]. eapply list.Forall_impl; [exact Hw|]. intros c Hc. by apply negb_true_iff, Z.eqb_neq. Qed.

Section Strings.
Context (s : list Z) (Hs : 0 ∉ s).

(** Where a token ends there is no word character. *)
Lemma token_stop a : is_token s a -> exists k, (length s - sp_eq a)%nat = k /\ (k <= length s)%nat /\
  forall c, s !! k = Some c -> is_word c = false.
Proof.
  intros (p & w & r & E & _ & _ & Hr & _ & Heq). exists (length (p ++ w)). rewrite Heq.
  assert (length s = length (p ++ w) + length r)%nat as Hl by (rewrite E, !length_app; lia).
  split_and!; [lia|lia|]. intros c Hc. rewrite E, app_assoc, lookup_app_r, Nat.sub_diag in Hc by lia.
  destruct r as [|d r]; [done|]. injection Hc as <-. by eapply Hr.
Qed.

Lemma token_string l a :
  Forall (is_token s) l -> a ∈ l ->
  string_of (fold_left (fun b a => put_nul (length s) (sp_eq a) b) l (s ++ [0])) (length s) (sp_q a) = text s a /\
  text s a <> [] /\ Forall (fun c => is_word c = true) (text s a).
Proof.
  intros Hl Ha. pose proof (proj1 (list.Forall_forall _ _) Hl a Ha) as (p & w & r & E & Hw & Hword & Hr & Hq & Heq).
  set (b := fold_left _ l _).
  assert (length s - sp_q a = length p)%nat as Hp by (rewrite Hq, E, !length_app; lia).
  assert (sp_q a - sp_eq a = length w)%nat as Hlw by (rewrite Hq, Heq, length_app; lia).
  assert (text s a = w) as Ht.
  { unfold text. rewrite Hp, Hlw, E, drop_app_length, take_app_length. done. }
  rewrite Ht. split; [|done].
  assert (drop (length p) b = w ++ 0 :: drop (length p + length w + 1) b) as Hd.
  { apply list_eq. intros i. rewrite lookup_drop. unfold b at 1. rewrite put_nuls_lookup.
    destruct (decide (i < length w)%nat) as [Hi|Hi].
    - rewrite (lookup_app_l w) by done. rewrite (lookup_app_l s) by (rewrite E, !length_app; lia).
      assert (s !! (length p + i)%nat = w !! i) as ->.
      { rewrite E, lookup_app_r by lia. rewrite lookup_app_l by lia. f_equal. lia. }
      destruct (lookup_lt_is_Some_2 w i Hi) as [c Hc]. rewrite decide_False; [done|].
      intros (a' & Ei & Ha')%list_elem_of_fmap. pose proof (proj1 (list.Forall_forall _ _) Hl a' Ha') as Htok.
      apply token_stop in Htok as (k & Ek & _ & Hk). specialize (Hk c). rewrite <- Ek, <- Ei in Hk.
      rewrite E, lookup_app_r, lookup_app_l in Hk by lia. replace (length p + i - length p)%nat with i in Hk by lia.
      pose proof (Forall_lookup_1 _ _ _ _ Hword Hc) as Hc'. simpl in Hc'. rewrite (Hk Hc) in Hc'. done.
    - rewrite (lookup_app_r w) by lia. destruct (i - length w)%nat as [|j] eqn:Ej.
      + replace i with (length w) by lia. rewrite decide_True.
        * simpl.
          destruct ((s ++ [0]) !! (length p + length w)%nat) eqn:El; [done|].
          apply lookup_ge_None in El. rewrite E, !length_app in El. simpl in El. lia.
        * apply list_elem_of_fmap. exists a. split; [|done]. rewrite Heq, E, !length_app. lia.
      + simpl. rewrite lookup_drop. unfold b. rewrite put_nuls_lookup. by replace (length p + length w + 1 + j)%nat with (length p + i)%nat by lia. }
  unfold string_of. cbv zeta. rewrite Hp, Hd, skip_word.
  - rewrite length_app. replace (_ - _)%nat with (length w) by lia. apply take_app_length.
  - apply list.Forall_forall. intros c Hc ->. apply Hs. rewrite E. set_solver.
Qed.
End Strings.

(** C24. The shell's parser is total and cuts the line into its words. On every line it
    either stops with an error message or returns a tree; the calls of its routines and
    their loops always end. Every token of the tree is a non-empty run of word characters
    of the line, and after [nulterminate] has written its NULs into the shared line it is
    exactly that word as a C string. *)
Theorem parsecmd_total s :
  0 ∉ s ->
  (exists msg rest, parsecmd s [] = Panic msg rest) \/
  (exists c b, parsecmd s [] = Ok (c, b) [] /\
     forall a, a ∈ tokens c -> string_of b (length s) (sp_q a) = text s a /\ text s a <> [] /\
       Forall (fun c => is_word c = true) (text s a)).
Proof.
  intros Hs. pose proof (proj1 (parse_safe s Hs (parse_fuel s)) s ltac:(done) ltac:(unfold parse_fuel; lia)) as Hp.
  unfold parsecmd, parsetree. mstep. unfold forward, safe in Hp. unfold bind at 1 2.
  destruct (parseline (parse_fuel s) s) as [c s1|msg s1|msg s1|s1|s1] eqn:E; try done; [|left; by exists msg, s1].
  destruct Hp as [Hsuf Hc]. unfold bind. simpl. destruct (skip is_ws s1) as [|d l] eqn:Esk; [|left; by eexists _, _].
  right. rewrite E, Esk. eexists c, _. split; [done|]. intros a Ha. rewrite nulterminate_fold. by apply token_string.
Qed.

Lemma parsecmd_total_witness :
  exists c b, parsecmd (str "ls | wc >f" ++ [10]) [] = Ok (c, b) [] /\
    string_of b 11 (sp_q (mkSpan 2 1)) = str "f".
Proof.
  destruct (parsecmd_total (str "ls | wc >f" ++ [10])) as [(msg & r & E)|(c & b & E & Ht)].
  - apply (bool_decide_unpack _). by vm_compute.
  - vm_compute in E. discriminate E.
  - exists c, b. split; [exact E|].
    assert (mkSpan 2 1 ∈ tokens c) as Hin by (vm_compute in E; injection E as <- <-; simpl; set_solver).
    exact (proj1 (Ht _ Hin)).
Defined.
