(* ===== verification/ShPrint.v ===== *)
(** * Command lines are read back

    The shell's grammar as a type, a printer for it, and the proof that [parsecmd] reads
    a printed command line back as the command it denotes. *)

From S2P Require Import Prelude Params Strings State Locks Printf Sh ShSpec.

(** ** The grammar *)

(** A redirection, [<], [>] or [>>], and its file. *)
Inductive rkind := RFrom | RTo | ROnto.
Record rdir := mkRdir { rd_kind : rkind; rd_file : list Z }.

Inductive gline :=
| GEnd (p : gpipe) (amps : nat)
| GSeq (p : gpipe) (amps : nat) (rest : gline)
with gpipe :=
| GOne (e : gexec)
| GPipe (e : gexec) (rest : gpipe)
with gexec :=
| GWords (pre : list rdir) (args : list (list Z * list rdir))
| GBlock (l : gline) (rs : list rdir).

Scheme gline_mut := Induction for gline Sort Prop
with gpipe_mut := Induction for gpipe Sort Prop
with gexec_mut := Induction for gexec Sort Prop.
Combined Scheme grammar_ind from gline_mut, gpipe_mut, gexec_mut.

Definition word_ok (w : list Z) : Prop := w <> [] /\ Forall (fun c => is_word c = true) w /\ 0 ∉ w.
Definition rdir_ok (r : rdir) : Prop := word_ok (rd_file r).

Fixpoint line_ok (l : gline) : Prop :=
  match l with
  | GEnd p _ => gpipe_ok p
  | GSeq p _ l' => gpipe_ok p /\ line_ok l'
  end
with gpipe_ok (p : gpipe) : Prop :=
  match p with
  | GOne e => exec_ok e
  | GPipe e p' => exec_ok e /\ gpipe_ok p'
  end
with exec_ok (e : gexec) : Prop :=
  match e with
  | GWords pre args =>
      Forall rdir_ok pre /\ Forall (fun a => word_ok (fst a) /\ Forall rdir_ok (snd a)) args /\ (length args < MAXARGS)%nat
  | GBlock l rs => line_ok l /\ Forall rdir_ok rs
  end.

(** The printer: a space after each token. *)
Definition print_kind (k : rkind) : list Z := match k with RFrom => str "<" | RTo => str ">" | ROnto => str ">>" end.
Definition print_rdir (r : rdir) : list Z := print_kind (rd_kind r) ++ [32] ++ rd_file r ++ [32].
Definition print_rdirs (rs : list rdir) : list Z := rs ≫= print_rdir.
Definition print_arg (a : list Z * list rdir) : list Z := fst a ++ [32] ++ print_rdirs (snd a).

Fixpoint print_amps (k : nat) : list Z := match k with O => [] | S k' => [38; 32] ++ print_amps k' end.

Fixpoint print_line (l : gline) : list Z :=
  match l with
  | GEnd p k => print_pipe p ++ print_amps k
  | GSeq p k l' => print_pipe p ++ print_amps k ++ [59; 32] ++ print_line l'
  end
with print_pipe (p : gpipe) : list Z :=
  match p with
  | GOne e => print_exec e
  | GPipe e p' => print_exec e ++ [124; 32] ++ print_pipe p'
  end
with print_exec (e : gexec) : list Z :=
  match e with
  | GWords pre args => print_rdirs pre ++ (args ≫= print_arg)
  | GBlock l rs => [40; 32] ++ print_line l ++ [41; 32] ++ print_rdirs rs
  end.

(** The command a line stands for. A redirection [<] opens its file to be read as descriptor
    0; [>] and [>>] open it to be written, creating it, as descriptor 1. The first
    redirection of a line is the innermost. *)
Definition redirected (c : cmd (list Z)) (r : rdir) : cmd (list Z) :=
  match rd_kind r with
  | RFrom => REDIR c (rd_file r) O_RDONLY 0
  | RTo | ROnto => REDIR c (rd_file r) (Z.lor O_WRONLY O_CREATE) 1
  end.

Fixpoint backs {T} (k : nat) (c : cmd T) : cmd T := match k with O => c | S k' => backs k' (BACK c) end.

Fixpoint denote_line (l : gline) : cmd (list Z) :=
  match l with
  | GEnd p k => backs k (denote_pipe p)
  | GSeq p k l' => LIST (backs k (denote_pipe p)) (denote_line l')
  end
with denote_pipe (p : gpipe) : cmd (list Z) :=
  match p with
  | GOne e => denote_exec e
  | GPipe e p' => PIPE (denote_exec e) (denote_pipe p')
  end
with denote_exec (e : gexec) : cmd (list Z) :=
  match e with
  | GWords pre args => fold_left redirected (pre ++ (args ≫= snd)) (EXEC (fst <$> args))
  | GBlock l rs => fold_left redirected rs (denote_line l)
  end.

Fixpoint cmd_map {T U} (f : T -> U) (c : cmd T) : cmd U :=
  match c with
  | EXEC argv => EXEC (f <$> argv)
  | REDIR c a m fd => REDIR (cmd_map f c) (f a) m fd
  | PIPE l r => PIPE (cmd_map f l) (cmd_map f r)
  | LIST l r => LIST (cmd_map f l) (cmd_map f r)
  | BACK c => BACK (cmd_map f c)
  end.

Lemma cmd_map_wrap {T U} (f : T -> U) c rs :
  cmd_map f (wrap c rs) = wrap (cmd_map f c) ((fun r => (fst r, f (snd r))) <$> rs).
Proof.
  revert c. induction rs as [|[tok a] rs IH]; intros c; [done|]. simpl. rewrite IH. f_equal.
  unfold redirection. simpl. by destruct (tok =? 60), (tok =? 62), (tok =? 43).
Qed.

Lemma cmd_map_backs {T U} (f : T -> U) k c : cmd_map f (backs k c) = backs k (cmd_map f c).
Proof. revert c. induction k as [|k IH]; intros c; [done|]. simpl. by rewrite IH. Qed.

(** What [parseredirs] makes of redirections: the token of each, and its file. *)
Definition rd_tok (r : rdir) : Z := match rd_kind r with RFrom => 60 | RTo => 62 | ROnto => 43 end.
Definition rds (rs : list rdir) : list (Z * list Z) := (fun r => (rd_tok r, rd_file r)) <$> rs.

Lemma wrap_rds rs c : wrap c (rds rs) = fold_left redirected rs c.
Proof. revert c. induction rs as [|[[] f] rs IH]; intros c; [done|..]; apply IH. Qed.

Lemma rds_args (args : list (list Z * list rdir)) : (args ≫= (fun a => rds (snd a))) = rds (args ≫= snd).
Proof. induction args as [|[w rs] args IH]; [done|]. rewrite !bind_cons, IH. unfold rds. by rewrite fmap_app. Qed.

(** ** The scanner on printed text *)

(** Text that does not start with white space. *)
Definition clean (s : list Z) : Prop := skip is_ws s = s.

Lemma clean_cons c s : is_ws c = false -> clean (c :: s).
Proof. apply skip_stop. Qed.

Lemma skip_space s : clean s -> skip is_ws (32 :: s) = s.
Proof. done. Qed.

Lemma word_not_ws c : is_word c = true -> is_ws c = false.
Proof. unfold is_word, is_ws. intros [H _]%andb_true_iff. by apply negb_true_iff in H. Qed.

Lemma clean_word w s : word_ok w -> clean (w ++ s).
Proof.
  intros (Hne & Hw & _). destruct w as [|c w]; [done|]. apply clean_cons, word_not_ws.
  by apply Forall_cons_1 in Hw as [? _].
Qed.

Lemma gettoken_word w s :
  word_ok w -> clean s ->
  gettoken (w ++ 32 :: s) = Ok (97, mkSpan (length (w ++ 32 :: s)) (length (32 :: s))) s.
Proof.
  intros Hw Hs. unfold gettoken, bind, get. rewrite (clean_word w (32 :: s) Hw).
  destruct Hw as (Hne & Hw & H0). assert (skip is_word (w ++ 32 :: s) = 32 :: s) as Hsk by by rewrite skip_over.
  assert (token_end (w ++ 32 :: s) = (32 :: s, 97)) as ->; [|simpl; by rewrite Hs].
  unfold token_end. rewrite Hsk. destruct w as [|c w]; [done|]. apply Forall_cons_1 in Hw as [Hc _]. simpl char_at.
  rewrite (proj2 (Z.eqb_neq c 0)) by set_solver. unfold is_word in Hc. apply andb_true_iff in Hc as [_ Hc%negb_true_iff].
  rewrite symbols_split in Hc. apply orb_false_iff in Hc as [-> ->]. done.
Qed.

Lemma gettoken_sym c s :
  c ∈ [124; 40; 41; 59; 38; 60; 62] -> clean s -> exists a, gettoken (c :: 32 :: s) = Ok (c, a) s.
Proof.
  intros Hc Hs. unfold gettoken, bind, get.
  assert (is_ws c = false) as Hws by (repeat (apply elem_of_cons in Hc as [->|Hc]; [done|]); by apply not_elem_of_nil in Hc).
  rewrite (skip_stop is_ws c (32 :: s) Hws).
  assert (token_end (c :: 32 :: s) = (32 :: s, c)) as ->; [|eexists; simpl; by rewrite Hs].
  repeat (apply elem_of_cons in Hc as [->|Hc]; [done|]). by apply not_elem_of_nil in Hc.
Qed.

Lemma gettoken_append s : clean s -> exists a, gettoken (62 :: 62 :: 32 :: s) = Ok (43, a) s.
Proof. intros Hs. eexists. unfold gettoken, bind, get. simpl. by rewrite Hs. Qed.

Lemma peek_run toks s : clean s -> peek toks s = Ok (nz (char_at s) && strchr toks (char_at s)) s.
Proof. intros Hs. unfold peek, bind, get. by rewrite Hs. Qed.

(** ** The parser on printed text *)

(** What may come after a phrase: the end, or one of [toks]. *)
Definition follow (toks : list Z) (s : list Z) : Prop := s = [] \/ exists c s', s = c :: s' /\ c ∈ toks.

Lemma follow_clean toks s : Forall (fun c => is_ws c = false) toks -> follow toks s -> clean s.
Proof.
  intros Ht [->|(c & s' & -> & Hc)]; [done|]. apply clean_cons. by apply (proj1 (list.Forall_forall _ _) Ht).
Qed.

Lemma follow_peek toks toks' s :
  follow toks s -> Forall (fun c => strchr toks' c = false) toks -> nz (char_at s) && strchr toks' (char_at s) = false.
Proof.
  intros [->|(c & s' & -> & Hc)] Hf; [done|]. simpl. pose proof (proj1 (list.Forall_forall _ _) Hf c Hc) as ->.
  apply andb_false_r.
Qed.

Lemma follow_weaken toks toks' s : follow toks s -> toks ⊆ toks' -> follow toks' s.
Proof. intros [->|(c & s' & -> & Hc)] Hs; [by left|right]. exists c, s'. set_solver. Qed.

Definition after_exec : list Z := [124; 41; 38; 59].
Definition after_pipe : list Z := [41; 38; 59].
Definition after_line : list Z := [41].

Section Line.
Context (buf : list Z).

Lemma span_text w r : (w ++ r) `suffix_of` buf -> text buf (mkSpan (length (w ++ r)) (length r)) = w.
Proof.
  intros [p ->]. unfold text. simpl. rewrite !length_app.
  replace (length p + (length w + length r) - (length w + length r))%nat with (length p) by lia.
  replace (length w + length r - length r)%nat with (length w) by lia. by rewrite drop_app_length, take_app_length.
Qed.

Lemma suffix_tail (a b : list Z) : (a ++ b) `suffix_of` buf -> b `suffix_of` buf.
Proof. intros H. etransitivity; [|exact H]. by apply suffix_app_r. Qed.

Definition texts (l : list (Z * span)) : list (Z * list Z) := (fun r => (fst r, text buf (snd r))) <$> l.

Lemma rdirs_clean rs s : Forall rdir_ok rs -> clean s -> clean (print_rdirs rs ++ s).
Proof.
  intros Hrs Hs. by destruct Hrs as [|[[] f] rs _ _].
Qed.

(** One redirection. *)
Lemma redir_print r s n :
  rdir_ok r -> clean s -> (print_rdir r ++ s) `suffix_of` buf ->
  exists a, parseredirs (S n) (print_rdir r ++ s) = (rs <- parseredirs n ;; ret ((rd_tok r, a) :: rs)) s /\ text buf a = rd_file r.
Proof.
  intros Hw Hs Hsuf. exists (mkSpan (length (rd_file r ++ 32 :: s)) (length (32 :: s))).
  assert (clean (rd_file r ++ 32 :: s)) as Hcw by by apply clean_word.
  assert (exists a, gettoken (print_rdir r ++ s) = Ok (rd_tok r, a) (rd_file r ++ 32 :: s)) as [a Ea].
  { unfold print_rdir, rd_tok. destruct (rd_kind r); simpl; rewrite <- app_assoc; [apply gettoken_sym; [set_solver|done]..|by apply gettoken_append]. }
  assert (peek (str "<>") (print_rdir r ++ s) = Ok true (print_rdir r ++ s)) as Ep.
  { unfold print_rdir. by destruct (rd_kind r). }
  cbn [parseredirs]. rewrite (bind_ok _ _ _ _ _ Ep). cbv [negb]. rewrite (bind_ok _ _ _ _ _ Ea).
  rewrite (bind_ok _ _ _ _ _ (gettoken_word (rd_file r) s Hw Hs)). split; [done|].
  apply span_text. destruct Hsuf as [p Hp]. exists (p ++ print_kind (rd_kind r) ++ [32]).
  rewrite Hp. unfold print_rdir. by rewrite <- !app_assoc.
Qed.

Lemma parseredirs_print rs n s :
  Forall rdir_ok rs -> clean s -> nz (char_at s) && strchr (str "<>") (char_at s) = false ->
  (print_rdirs rs ++ s) `suffix_of` buf -> (length (print_rdirs rs ++ s) <= n)%nat ->
  exists l, parseredirs n (print_rdirs rs ++ s) = Ok l s /\ texts l = rds rs.
Proof.
  intros Hrs Hs Hno. revert n. induction Hrs as [|r rs Hr Hrs IH]; intros n Hsuf Hn.
  - exists []. split; [|done]. simpl. destruct n; cbn [parseredirs]; rewrite (bind_ok _ _ _ _ _ (peek_run _ s Hs)), Hno; done.
  - change (print_rdirs (r :: rs)) with (print_rdir r ++ print_rdirs rs) in *. rewrite <- app_assoc in *. destruct n as [|n].
    { exfalso. revert Hn. unfold print_rdir. rewrite !length_app. simpl. lia. }
    destruct (redir_print r (print_rdirs rs ++ s) n Hr) as (a & E & Ha); [by apply rdirs_clean|done|].
    rewrite E. destruct (IH n) as (l & El & Hl); [by eapply suffix_tail| |].
    { revert Hn. unfold print_rdir. rewrite !length_app. simpl. lia. }
    rewrite (bind_ok _ _ _ _ _ El). exists ((rd_tok r, a) :: l). split; [done|]. simpl. by rewrite Ha, Hl.
Qed.

(** No word starts with an operator. *)
Lemma word_head w s toks :
  word_ok w -> Forall (fun t => strchr symbols t = true) toks -> nz (char_at (w ++ s)) && strchr toks (char_at (w ++ s)) = false.
Proof.
  intros (Hne & Hw & _) Ht. destruct w as [|c w]; [done|]. apply Forall_cons_1 in Hw as [Hc _]. simpl.
  unfold is_word in Hc. apply andb_true_iff in Hc as [_ Hc%negb_true_iff]. apply andb_false_iff. right.
  apply not_true_iff_false. intros (t & Hin & ->%Z.eqb_eq)%existsb_exists.
  rewrite (proj1 (list.Forall_forall _ _) Ht t) in Hc; [done|]. by apply list_elem_of_In.
Qed.

Lemma args_head (args : list (list Z * list rdir)) s :
  Forall (fun a => word_ok (fst a) /\ Forall rdir_ok (snd a)) args -> follow after_exec s ->
  clean ((args ≫= print_arg) ++ s) /\
  nz (char_at ((args ≫= print_arg) ++ s)) && strchr (str "<>") (char_at ((args ≫= print_arg) ++ s)) = false.
Proof.
  intros [|[w rs] args' [Hw _] _] Hs.
  - split; [eapply follow_clean|eapply follow_peek]; [|exact Hs|exact Hs|]; by repeat constructor.
  - change (((w, rs) :: args') ≫= print_arg) with ((w ++ 32 :: print_rdirs rs) ++ (args' ≫= print_arg)).
    rewrite <- !app_assoc. split; [by apply clean_word|]. apply word_head; [done|]. by repeat constructor.
Qed.

Lemma parseargs_print args n argc s :
  Forall (fun a => word_ok (fst a) /\ Forall rdir_ok (snd a)) args -> follow after_exec s ->
  (argc + length args < MAXARGS)%nat -> ((args ≫= print_arg) ++ s) `suffix_of` buf ->
  (length ((args ≫= print_arg) ++ s) <= n)%nat ->
  exists l rs, parseargs n argc ((args ≫= print_arg) ++ s) = Ok (l, rs) s /\
    text buf <$> l = fst <$> args /\ texts rs = args ≫= (fun a => rds (snd a)).
Proof.
  intros Hargs Hs. assert (clean s) as Hcs by (eapply follow_clean; [|exact Hs]; by repeat constructor).
  revert n argc. induction Hargs as [|[w rs] args [Hw Hrs] Hargs IH]; intros n argc Hmax Hsuf Hn.
  - exists [], []. split; [|done]. simpl. destruct n; cbn [parseargs]; rewrite (bind_ok _ _ _ _ _ (peek_run _ s Hcs));
      (destruct Hs as [->|(c & s' & -> & Hc)]; [done|]);
      (repeat (apply elem_of_cons in Hc as [->|Hc]; [done|]); by apply not_elem_of_nil in Hc).
  - set (rest := (args ≫= print_arg) ++ s) in *.
    assert ((((w, rs) :: args) ≫= print_arg) ++ s = w ++ 32 :: print_rdirs rs ++ rest) as Ei.
    { change (((w, rs) :: args) ≫= print_arg) with ((w ++ 32 :: print_rdirs rs) ++ (args ≫= print_arg)).
      unfold rest. by rewrite <- !app_assoc. }
    rewrite Ei in *. clear Ei.
    destruct (args_head args s Hargs Hs) as [Hcr Hnr]. fold rest in Hcr, Hnr.
    assert (peek (str "|)&;") (w ++ 32 :: print_rdirs rs ++ rest) = Ok false (w ++ 32 :: print_rdirs rs ++ rest)) as Ep.
    { rewrite peek_run by by apply clean_word. f_equal. apply word_head; [done|]. by repeat constructor. }
    assert (clean (print_rdirs rs ++ rest)) as Hcrr by by apply rdirs_clean.
    destruct n as [|n]; [destruct w; simpl in Hn; lia|]. cbn [parseargs]. rewrite (bind_ok _ _ _ _ _ Ep). cbv iota.
    rewrite (bind_ok _ _ _ _ _ (gettoken_word w _ Hw Hcrr)). cbn [fst snd]. change (97 =? 0) with false. change (97 =? 97) with true. cbv [negb].
    rewrite (proj2 (Nat.leb_gt MAXARGS (S argc))) by (simpl in Hmax; lia).
    assert ((print_rdirs rs ++ rest) `suffix_of` buf) as Hsuf2.
    { apply (suffix_tail (w ++ [32])). by rewrite <- app_assoc. }
    destruct (parseredirs_print rs (S n) rest Hrs Hcr Hnr Hsuf2) as (l1 & E1 & T1).
    { rewrite length_app in Hn |- *. simpl in Hn. rewrite length_app in Hn. lia. }
    rewrite (bind_ok _ _ _ _ _ E1).
    destruct (IH n (S argc)) as (l2 & rs2 & E2 & T2 & T3); [simpl in Hmax; lia|by eapply suffix_tail| |].
    { fold rest. rewrite length_app in Hn. simpl in Hn. rewrite length_app in Hn. destruct w; simpl in Hn; lia. }
    fold rest in E2. rewrite (bind_ok _ _ _ _ _ E2). eexists _, _. split; [done|]. cbn [fst snd]. split.
    + rewrite fmap_cons, T2. simpl. f_equal. by apply span_text.
    + unfold texts in *. rewrite fmap_app, T1, T3. done.
Qed.
Lemma amps_clean k s : clean s -> clean (print_amps k ++ s).
Proof. by destruct k. Qed.

Lemma follow_amps k s : follow after_line s -> follow after_pipe (print_amps k ++ s).
Proof.
  intros Hs. destruct k; [|right; eexists _, _; (split; [reflexivity|]); set_solver].
  eapply follow_weaken; [exact Hs|set_solver].
Qed.

Lemma parseback_print k n c s :
  clean s -> nz (char_at s) && strchr (str "&") (char_at s) = false -> (length (print_amps k ++ s) <= n)%nat ->
  parseback n c (print_amps k ++ s) = Ok (backs k c) s.
Proof.
  intros Hs Hno. revert n c. induction k as [|k IH]; intros n c Hn.
  - simpl. destruct n; cbn [parseback]; rewrite (bind_ok _ _ _ _ _ (peek_run _ s Hs)), Hno; done.
  - destruct n as [|n]; [simpl in Hn; lia|]. change (print_amps (S k) ++ s) with (38 :: 32 :: print_amps k ++ s) in *.
    assert (clean (print_amps k ++ s)) as Hc by by apply amps_clean.
    destruct (gettoken_sym 38 (print_amps k ++ s)) as [a Ea]; [set_solver|done|].
    assert (peek (str "&") (38 :: 32 :: print_amps k ++ s) = Ok true (38 :: 32 :: print_amps k ++ s)) as Ep by done.
    cbn [parseback]. rewrite (bind_ok _ _ _ _ _ Ep). cbv [negb]. rewrite (bind_ok _ _ _ _ _ Ea). apply IH. simpl in Hn. lia.
Qed.

Lemma print_clean :
  (forall l, line_ok l -> forall s, clean s -> clean (print_line l ++ s)) /\
  (forall p, gpipe_ok p -> forall s, clean s -> clean (print_pipe p ++ s)) /\
  (forall e, exec_ok e -> forall s, clean s -> clean (print_exec e ++ s)).
Proof.
  apply grammar_ind; cbn [line_ok gpipe_ok exec_ok print_line print_pipe print_exec]; intros; destruct_and?;
    rewrite <- ?app_assoc; try by eauto using amps_clean, clean_cons.
  apply rdirs_clean; [done|]. destruct args as [|[w rs] args]; [done|].
  change (((w, rs) :: args) ≫= print_arg) with ((w ++ 32 :: print_rdirs rs) ++ (args ≫= print_arg)).
  rewrite <- !app_assoc. apply clean_word. by match goal with H : Forall _ (_ :: _) |- _ => apply Forall_cons_1 in H as [[? _] _] end.
Qed.

(** A simple command does not start with a parenthesis. *)
Lemma words_peek pre args s :
  exec_ok (GWords pre args) -> follow after_exec s ->
  peek (str "(") (print_rdirs pre ++ (args ≫= print_arg) ++ s) = Ok false (print_rdirs pre ++ (args ≫= print_arg) ++ s).
Proof.
  intros (Hpre & Hargs & _) Hs. destruct (args_head args s Hargs Hs) as [Hc _].
  rewrite peek_run by by apply rdirs_clean. f_equal. destruct Hpre as [|[[] f] pre _ _]; [|done..].
  change (print_rdirs []) with (@nil Z). rewrite app_nil_l.
  destruct Hargs as [|[w rs] args [Hw _] _]; [eapply follow_peek; [exact Hs|]; by repeat constructor|].
  change (((w, rs) :: args) ≫= print_arg) with ((w ++ 32 :: print_rdirs rs) ++ (args ≫= print_arg)).
  rewrite <- !app_assoc. apply word_head; [done|]. by repeat constructor.
Qed.

Lemma words_print pre args n s :
  exec_ok (GWords pre args) -> follow after_exec s -> (print_exec (GWords pre args) ++ s) `suffix_of` buf ->
  (4 * length (print_exec (GWords pre args) ++ s) + 2 <= n)%nat ->
  exists c, parseexec n (print_exec (GWords pre args) ++ s) = Ok c s /\ cmd_map (text buf) c = denote_exec (GWords pre args).
Proof.
  intros Hok Hs Hsuf Hn. pose proof Hok as (Hpre & Hargs & Hmax). cbn [print_exec] in *. rewrite <- !app_assoc in *.
  destruct n as [|n]; [lia|]. destruct (args_head args s Hargs Hs) as [Hc Hno]. cbn [parseexec].
  rewrite (bind_ok _ _ _ _ _ (words_peek pre args s Hok Hs)). cbv iota.
  destruct (parseredirs_print pre (S n) _ Hpre Hc Hno Hsuf) as (l1 & E1 & T1); [lia|]. rewrite (bind_ok _ _ _ _ _ E1).
  destruct (parseargs_print args (S n) 0 s Hargs Hs) as (l2 & rs & E2 & T2 & T3); [lia|by eapply suffix_tail| |].
  { rewrite length_app in Hn. lia. }
  rewrite (bind_ok _ _ _ _ _ E2). eexists. split; [done|]. rewrite cmd_map_wrap. cbn [cmd_map denote_exec fst snd].
  unfold texts in *. rewrite T2, fmap_app, T1, T3, rds_args. unfold rds. rewrite <- fmap_app. apply wrap_rds.
Qed.

Definition line_reads (l : gline) : Prop := line_ok l -> forall n s, follow after_line s ->
  (print_line l ++ s) `suffix_of` buf -> (4 * length (print_line l ++ s) + 4 <= n)%nat ->
  exists c, parseline n (print_line l ++ s) = Ok c s /\ cmd_map (text buf) c = denote_line l.

Definition pipe_reads (p : gpipe) : Prop := gpipe_ok p -> forall n s, follow after_pipe s ->
  (print_pipe p ++ s) `suffix_of` buf -> (4 * length (print_pipe p ++ s) + 3 <= n)%nat ->
  exists c, parsepipe n (print_pipe p ++ s) = Ok c s /\ cmd_map (text buf) c = denote_pipe p.

Definition exec_reads (e : gexec) : Prop := exec_ok e -> forall n s, follow after_exec s ->
  (print_exec e ++ s) `suffix_of` buf -> (4 * length (print_exec e ++ s) + 2 <= n)%nat ->
  exists c, parseexec n (print_exec e ++ s) = Ok c s /\ cmd_map (text buf) c = denote_exec e.

Lemma block_print l rs : line_reads l -> exec_reads (GBlock l rs).
Proof.
  intros IH [Hl Hrs] n s Hs Hsuf Hn. cbn [print_exec] in *. simpl in Hsuf, Hn |- *. rewrite <- !app_assoc in *. simpl in Hsuf, Hn |- *.
  set (rest := 41 :: 32 :: print_rdirs rs ++ s) in *.
  assert (clean s) as Hcs by (eapply follow_clean; [|exact Hs]; by repeat constructor).
  assert (clean (print_line l ++ rest)) as Hcl by by apply print_clean.
  assert (clean (print_rdirs rs ++ s)) as Hcr by by apply rdirs_clean.
  destruct (gettoken_sym 40 (print_line l ++ rest)) as [a Ea]; [set_solver|done|].
  destruct (gettoken_sym 41 (print_rdirs rs ++ s)) as [a2 Ea2]; [set_solver|done|].
  assert (length rest <= length (print_line l ++ rest))%nat as Hlen by (rewrite length_app; lia).
  destruct n as [|[|n]]; [lia|lia|]. cbn [parseexec].
  assert (peek (str "(") (40 :: 32 :: print_line l ++ rest) = Ok true (40 :: 32 :: print_line l ++ rest)) as Ep by done.
  rewrite (bind_ok _ _ _ _ _ Ep). cbv iota. cbn [parseblock]. rewrite (bind_ok _ _ _ _ _ Ep). cbv [negb].
  rewrite (bind_ok _ _ _ _ _ Ea). destruct (IH Hl n rest) as (c & E & Hc).
  { right. exists 41, (32 :: print_rdirs rs ++ s). split; [done|]. set_solver. }
  { apply (suffix_tail [40; 32]). done. }
  { lia. }
  rewrite (bind_ok _ _ _ _ _ E).
  assert (peek (str ")") rest = Ok true rest) as Ep2 by done.
  rewrite (bind_ok _ _ _ _ _ Ep2). cbv [negb]. rewrite (bind_ok _ _ _ _ _ Ea2).
  destruct (parseredirs_print rs (S n) s Hrs Hcs) as (l1 & E1 & T1).
  { eapply follow_peek; [exact Hs|]. by repeat constructor. }
  { apply (suffix_tail ([40; 32] ++ print_line l ++ [41; 32])). by rewrite <- !app_assoc. }
  { assert (length rest = S (S (length (print_rdirs rs ++ s)))) by done. lia. }
  rewrite (bind_ok _ _ _ _ _ E1). eexists. split; [done|]. rewrite cmd_map_wrap. unfold texts in T1. rewrite T1, Hc. apply wrap_rds.
Qed.
Lemma grammar_reads : (forall l, line_reads l) /\ (forall p, pipe_reads p) /\ (forall e, exec_reads e).
Proof.
  apply grammar_ind.
  - intros p IH k Hok n s Hs Hsuf Hn. cbn [print_line line_ok] in *. rewrite <- app_assoc in *. destruct n as [|n]; [lia|].
    assert (clean s) as Hcs by (eapply follow_clean; [|exact Hs]; by repeat constructor).
    destruct (IH Hok n (print_amps k ++ s)) as (c & E & Hc); [by apply follow_amps|done|lia|].
    cbn [parseline]. rewrite (bind_ok _ _ _ _ _ E). rewrite length_app in Hn.
    assert (nz (char_at s) && strchr (str "&") (char_at s) = false) as Hno by (eapply follow_peek; [exact Hs|]; by repeat constructor).
    rewrite (bind_ok _ _ _ _ _ (parseback_print k (S n) c s Hcs Hno ltac:(lia))).
    rewrite (bind_ok _ _ _ _ _ (peek_run _ s Hcs)), (follow_peek _ _ _ Hs) by by repeat constructor.
    exists (backs k c). split; [done|]. by rewrite cmd_map_backs, Hc.
  - intros p IH k l IHl [Hok Hl] n s Hs Hsuf Hn. cbn [print_line] in *. rewrite <- !app_assoc in *.
    assert (clean s) as Hcs by (eapply follow_clean; [|exact Hs]; by repeat constructor).
    assert (clean (print_line l ++ s)) as Hcl by by apply print_clean. destruct n as [|n]; [lia|].
    set (rest := [59; 32] ++ print_line l ++ s) in *. assert (clean rest) as Hcr by done.
    destruct (gettoken_sym 59 (print_line l ++ s)) as [a Ea]; [set_solver|done|]. fold rest in Ea.
    destruct (IH Hok n (print_amps k ++ rest)) as (c & E & Hc); [|done|lia|].
    { destruct k; right; eexists _, _; (split; [reflexivity|]); set_solver. }
    cbn [parseline]. rewrite (bind_ok _ _ _ _ _ E). rewrite !length_app in Hn.
    rewrite (bind_ok _ _ _ _ _ (parseback_print k (S n) c rest Hcr eq_refl ltac:(rewrite length_app; lia))).
    assert (peek (str ";") rest = Ok true rest) as Ep by done. rewrite (bind_ok _ _ _ _ _ Ep). cbv iota.
    change (59 :: 32 :: print_line l ++ s) with rest in Ea. rewrite (bind_ok _ _ _ _ _ Ea).
    destruct (IHl Hl n s Hs) as (c' & E' & Hc').
    { apply (suffix_tail (print_pipe p ++ print_amps k ++ [59; 32])). unfold rest in Hsuf. by rewrite <- !app_assoc. }
    { assert (length rest = S (S (length (print_line l ++ s)))) by done. lia. }
    rewrite (bind_ok _ _ _ _ _ E'). exists (LIST (backs k c) c'). split; [done|]. cbn [cmd_map denote_line].
    by rewrite cmd_map_backs, Hc, Hc'.
  - intros e IH Hok n s Hs Hsuf Hn. cbn [print_pipe gpipe_ok] in *. destruct n as [|n]; [lia|].
    assert (clean s) as Hcs by (eapply follow_clean; [|exact Hs]; by repeat constructor).
    destruct (IH Hok n s) as (c & E & Hc); [eapply follow_weaken; [exact Hs|set_solver]|done|lia|].
    cbn [parsepipe]. rewrite (bind_ok _ _ _ _ _ E).
    rewrite (bind_ok _ _ _ _ _ (peek_run _ s Hcs)), (follow_peek _ _ _ Hs) by by repeat constructor. by exists c.
  - intros e IH p IHp [Hok Hp] n s Hs Hsuf Hn. cbn [print_pipe] in *. rewrite <- !app_assoc in *.
    assert (clean s) as Hcs by (eapply follow_clean; [|exact Hs]; by repeat constructor).
    assert (clean (print_pipe p ++ s)) as Hcl by by apply print_clean. destruct n as [|n]; [lia|].
    set (rest := [124; 32] ++ print_pipe p ++ s) in *.
    destruct (gettoken_sym 124 (print_pipe p ++ s)) as [a Ea]; [set_solver|done|].
    change (124 :: 32 :: print_pipe p ++ s) with rest in Ea.
    destruct (IH Hok n rest) as (c & E & Hc); [right; eexists _, _; (split; [reflexivity|]); set_solver|done|lia|].
    cbn [parsepipe]. rewrite (bind_ok _ _ _ _ _ E).
    assert (peek (str "|") rest = Ok true rest) as Ep by done. rewrite (bind_ok _ _ _ _ _ Ep). cbv iota.
    rewrite (bind_ok _ _ _ _ _ Ea). rewrite length_app in Hn. destruct (IHp Hp n s Hs) as (c' & E' & Hc').
    { apply (suffix_tail (print_exec e ++ [124; 32])). unfold rest in Hsuf. by rewrite <- !app_assoc. }
    { assert (length rest = S (S (length (print_pipe p ++ s)))) by done. lia. }
    rewrite (bind_ok _ _ _ _ _ E'). exists (PIPE c c'). split; [done|]. cbn [cmd_map denote_pipe]. by rewrite Hc, Hc'.
  - intros pre args Hok n s. by apply words_print.
  - intros l IH rs. by apply block_print.
Qed.
End Line.

(** C25. The shell reads back what its grammar prints: a command line built from words,
    redirections, pipes, background marks, sequences and blocks, printed with a space
    after each token, is parsed without error as exactly the command it stands for (its
    arguments and files with their text, the nesting of pipes, lists and blocks, the
    order of the redirections, [<] reading its file as descriptor 0, [>] and [>>] writing
    and if need be creating it as descriptor 1), whatever its depth and length. *)
Theorem parsecmd_print (l : gline) (Hok : line_ok l) :
  exists c b, parsecmd (print_line l) [] = Ok (c, b) [] /\ cmd_map (text (print_line l)) c = denote_line l.
Proof.
  destruct (proj1 (grammar_reads (print_line l)) l Hok (parse_fuel (print_line l)) []) as (c & E & Hc).
  - by left.
  - by rewrite app_nil_r.
  - rewrite app_nil_r. unfold parse_fuel. lia.
  - rewrite app_nil_r in E. eexists c, _. split; [|exact Hc]. unfold parsecmd, parsetree, bind, modify. rewrite E. done.
Qed.

Definition sample_line : gline :=
  GSeq (GPipe (GWords [] [(str "cat", [mkRdir RFrom (str "in")])]) (GOne (GBlock (GEnd (GOne (GWords [] [(str "wc", []); (str "-l", [])])) 0) [mkRdir ROnto (str "out")]))) 1
       (GEnd (GOne (GWords [mkRdir RTo (str "log")] [(str "ls", [])])) 0).

Lemma sample_line_ok : line_ok sample_line.
Proof.
  assert (forall w, bool_decide (w <> []) && forallb is_word w && bool_decide (0 ∉ w) = true -> word_ok w) as Hword.
  { intros w [[Hn%bool_decide_eq_true Hw]%andb_true_iff H0%bool_decide_eq_true]%andb_true_iff. split; [done|]. split; [|done].
    apply list.Forall_forall. intros c Hc. by apply (proj1 (forallb_forall _ _) Hw), list_elem_of_In. }
  repeat first [apply Hword; reflexivity | apply Nat.ltb_lt; reflexivity
               | apply Forall_nil | apply Forall_cons | apply conj].
Defined.

Lemma parsecmd_print_witness : exists c b,
  parsecmd (print_line sample_line) [] = Ok (c, b) [] /\ cmd_map (text (print_line sample_line)) c = denote_line sample_line.
Proof. exact (parsecmd_print sample_line sample_line_ok). Defined.
